(* ===== verification/_CoqProject ===== *)
-Q . S2P
Prelude.v
Queue.v
Mmu.v
Pmap.v
PmapFacts.v
PmapInv.v
PmapSpec.v
PmapBoot.v
PmapFrame.v
PmapProps.v
Print.v
Stdio.v
StdioProps.v
CString.v
UserMem.v
Fdt.v
FdtProps.v
Fs.v
FsFrame.v
FsBlocks.v
FsFiles.v
FsMount.v
FsProps.v
Serv.v
ServProps.v
Ide.v
IdeProps.v
Elf.v
Env.v
EnvFree.v
Sched.v
EnvFacts.v
EnvProps.v
KernMap.v
LoadProps.v
CreateProps.v
Pipe.v
PipeProps.v
PipeClosed.v
Syscall.v
SyscallProps.v
Traps.v
Types.v
Confine.v
TrapsProps.v
Init.v
InitProps.v
User.v
UserFacts.v
ExSpace.v
Fork.v
ForkProps.v
Fd.v
FdProps.v
FdFacts.v
File.v
Devs.v
ConsoleProps.v
FileProps.v
Spawn.v
SpawnProps.v
Fsformat.v
FsImage.v
FsformatFacts.v
FsformatProps.v
FsRead.v
FsReadProps.v
Args.v
Sh.v
ShProps.v
Programs.v
ProgramsProps.v
HostTools.v
HostToolsProps.v
