(* ===== verification/Prelude.v ===== *)
(** * MOS on RISC-V: a verification development

    MOS is a small exokernel for RV32 with Sv32 paging.  The kernel
    ([src/kern], [src/lib], [src/include]) owns physical pages, environments
    and the processor; a user library ([src/user/lib]) builds fork, file
    descriptors, pipes and program loading out of eighteen system calls; and
    the file system is an ordinary environment ([src/fs]) that the others reach
    by messages.  This library models these three layers and proves the
    theorems that make them correct.  C<n> is the number of a main theorem in
    its comment.

    ** Conventions

    An [int], [u_int], [u_long] or pointer is 32 bits wide: a [Z], with every
    wrap-around written out ([u32], [s32], [u16], [u8]).  Bit operations are
    those of [Z].  Stateful code runs in the monad [M] of this file: a
    computation takes a state and gives a value and a state ([Ret]), or one of
    the ways not to return: [Panic] (a call of [panic] or [user_panic], with
    the state at the call), [Fault] (an access to memory the code has no right
    to, an undefined operation, or a loop out of fuel, below) and [Noret] (a
    function that leaves its caller for good, such as [env_run], with the
    state it leaves in).  An error code of the program is a value; [try!],
    [tryz!] and [try0] are its macro [try].  A structure in an array is its
    index; a structure in memory the program addresses by bytes is its address.

    ** The kernel

    - Queue.v, [src/include/queue.h]: the list and tail queue macros on cells
      and pointers to pointers, with the predicates that relate them to a list;
      the last element, the one before and the traversals included.
    - Mmu.v, [src/include/mmu.h]: addresses and page table entries.
    - Pmap.v, [src/kern/pmap.c]: the boot allocator, the page allocator, the
      two-level tables and demand paging, on a word-addressed physical memory.
      PmapFacts.v reads a page directory as a map from addresses to entries;
      PmapInv.v states the page invariant over a set of directories (the
      reference count of every page is the number of entries that refer to it,
      and no page in use is free); PmapSpec.v has what each operation does and
      that it keeps the invariant; PmapBoot.v that booting establishes it;
      PmapProps.v the theorems: [page_insert] (C1), every machine reachable by
      mapping and unmapping (C2), [page_remove] (C3), [do_tlb_refill]
      (C4); [page_alloc] and [page_init] as lemmas.  PmapFrame.v is what
      mapping leaves alone; KernMap.v the mappings made before any
      environment.
    - Elf.v, [src/lib/elfloader.c]: headers and the segment loader for any
      mapping callback, equal to a list of page-wise calls (C5).
    - Env.v, [src/kern/env.c]: environments, their free list, identifiers,
      address space identifiers, creation, loading and destruction; EnvFree.v
      the loops that tear an address space down; Sched.v, [src/kern/sched.c]:
      the scheduler against an abstract round-robin scheduler on a list (C8),
      no starvation (C9), context switching (C10); EnvFacts.v and EnvProps.v:
      creation (C11), destruction (C12), the permission check of [envid2env]
      (C13); address space identifiers, as a lemma.  LoadProps.v: loading an
      executable into an empty address space (C7); CreateProps.v: [env_create].
    - Init.v, [src/init/init.c], printk.c, panic.c, kclock.c: the messages of
      the kernel and its start; InitProps.v: from power-up to the two first
      environments (C6), every initialiser composed.
    - Syscall.v, [src/kern/syscall_all.c]: every handler, the table and
      [do_syscall]; SyscallProps.v: mapping (C14, and allocation and status as
      lemmas) and message passing (C15; receiving as a lemma), on every branch.
    - Traps.v, [src/kern/traps.c] and trapentry.S: one trap from user mode;
      TrapsProps.v: demand paging is invisible to the program (C17) and the
      timer preempts (C18).
    - Confine.v: what a trap leaves alone: no system call, fault or interrupt
      changes the record of an environment the running one has no right to
      (C16).  Types.v: the types of the kernel's data as predicates and a
      typing judgement for computations; that every trap preserves them, as a
      lemma.
    - UserMem.v: bytes of physical memory, and a dereference of a user pointer
      through the address space in [satp], with the page fault it may take.
    - Fdt.v, [src/lib/fdt.c]: the scan of the device tree; FdtProps.v: on the
      layout of a tree it is a fold over the tree (C38).
    - Print.v, [src/lib/print.c]: [vprintfmt] over any output callback, its
      numbers (C22) and the whole of it against the meaning of a format
      (C23).  CString.v, [src/lib/string.c]: [memcpy] always ends,
      and is a copy (C24).

    ** The file server

    - Fs.v, [src/fs/fs.c]: the block cache, the bitmap, files, directories and
      paths, in the server's own memory.  FsFrame.v is what all of it keeps;
      FsBlocks.v, FsFiles.v, FsMount.v the effects of the operations;
      FsProps.v: durability and
      write back (C29); mounting, the block allocator, paths, eviction and lookup in a cached
      directory, as lemmas.
    - Fsformat.v, [src/tools/fsformat.c]: the program that writes the disk.
      FsImage.v says what it means that an image holds a tree of names (the
      abstract file system), and what such a tree depends on; FsformatFacts.v
      and FsformatProps.v: the image holds the host's tree (C27).
      FsRead.v reads an image through the block cache; FsReadProps.v: opening a
      path refines finding it in the tree (C26), the bytes of a
      file (C28), and from the host's files to those of the server
      (C25).
    - Serv.v, [src/fs/serv.c]: the table of open files and every request;
      ServProps.v: no request disturbs an open file (C32); [open_alloc]
      and what happens on an entry never opened, as lemmas.
    - Ide.v, [src/fs/ide.c]: the virtio disk driver on memory shared with the
      device; IdeProps.v: it implements the whole-block transfers of Fs.v
      (C30), up to the 65536th request (C31).

    ** The user library

    - User.v, [src/user/lib/syscall_lib.c], pageref.c, wait.c, libos.c: a
      library function is a computation on the kernel state with its
      environment as [curenv]; a system call is the handler of Syscall.v. [memcpy]
      of the library is a loop over bytes here, which is what CString.v proves of
      it (C24).
      UserFacts.v: loads and stores of a program, in the address space that is
      installed; ExSpace.v: small machines for examples.
    - Pipe.v, [src/user/lib/pipe.c]: reader, writer and closing test as threads
      whose accesses to shared pages interleave, first with one holder for each
      end, then the reference counts with any number; PipeProps.v: order (C33) and
      bounds (C34) of the bytes; PipeClosed.v: the closing test (C35).
    - Fork.v, [src/user/lib/fork.c]; ForkProps.v: the address space of the
      child (C36).
    - Stdio.v, debugf.c and fprintf.c; StdioProps.v: [debugf] prints what
      [vprintfmt] formats (C37).
    - Fd.v, fd.c, over any table of devices; FdProps.v: [fd_alloc], as a lemma;
      FdFacts.v: the words of a descriptor.
      Devs.v, the console and pipe devices and the table [devtab]; ConsoleProps.v:
      [read] and [write] on the console, down to the input and output of the kernel.
    - File.v, fsipc.c and file.c, the client of Serv.v; FileProps.v: what [read] of
      a file delivers (C20).
    - Spawn.v, spawn.c, over Fd.v, Elf.v and the system calls; SpawnProps.v:
      what the child finds on its stack (C19).
    - Args.v, [src/include/args.h]: the options of a command line.
    - Sh.v, [src/user/sh.c]: the shell, [main] included; ShProps.v: its tokenizer against a
      lexer on lists (C40), for any memory of characters.
    - Programs.v, [src/user/cat.c], num.c, echo.c, ls.c, init.c, icode.c and
      small ones; ProgramsProps.v: [cat] copies what is typed to the console,
      through every layer (C21); the data [init] checks.

    ** The host tools

    - HostTools.v, [src/tools/bintoc.c] and [src/tools/readelf]: whole programs
      on the host's files; HostToolsProps.v: the array [bintoc] writes is the
      file (C39), and what [readelf] prints, as a lemma.

    ** Fuel

    A loop that is not structural has fuel, and a loop that uses it up is a
    [Fault] (or [None], or [Noret] in [is_closed_loop]), which the theorems
    exclude where they say that a function returns.  [put_digits] has 33, a
    32-bit number having at most 32 digits in base 2; [vprintfmt_loop] the
    length of the format plus one, each turn but the last consuming a percent
    sign; [output_loop] two turns more than there are bytes; the loops of
    [elf_load_seg] one turn per page ([page_fuel]) plus one; [asid_alloc] the
    64 identifiers; [alloc_from] the blocks of the disk; [walk_from] the length
    of the path; [read_blocks] the bytes of the file; [cstring] the bytes of the request page; [load_segments] one
    per program header plus one; [readn_loop] one per byte asked for plus one;
    [cat], [num], [ls_entries] and the loops of [init] and the shell one per
    turn, an argument ([cat]: one more than the characters of the input).
    [scan_loop] and the polls of the disk driver take it as an argument, with
    a theorem that enough of it gives the result;
    [is_closed_loop] one, since nothing runs between its two counts.  The loops
    of lib/string.c take their fuel as an argument, and C24 says how much is
    enough.

    ** Parameters

    Code that is not in the repository is an argument: the registers of devices
    ([dev_read]) with a log of the stores, the virtio device of Ide.v with the
    laws of its protocol, the characters the firmware console delivers (the
    input list of the state), the value a register holds after a [void]
    handler, what the compiler makes of an undefined shift in Fdt.v, the files
    of the host in Fsformat.v (a tree).  In
    File.v the argument [rpc] is what all other environments do between a
    request and its reply.  The order in which a pipe end moves its byte and
    its position is an argument of Pipe.v: the compiler may choose it, as the
    fields are not volatile, and C33 needs one order where
    C34 holds for both.  [riscv_detect_memory] takes the result of
    [query_mem_size].  In Programs.v [piece] is where a piece of formatted
    output lies in memory.  What the linker decides (where the kernel ends, where
    [envs] lies) is the record [layout] of Init.v; the text of [strerror] is an
    argument of [readelf_main].

    ** Not modelled

    - [src/init/start.S], which sets the stack pointer and jumps; the calls of
      the firmware ([sbi_call]) but for their effect on console and timer.
    - The test programs that run across several environments (fktest.c,
      fstest.c, pingpong.c, testfdsharing.c, testpipe.c, testpiperace.c,
      testptelibrary.c, [src/user/bare]): they test the functions above, whose
      interleavings Pipe.v and the scheduler have.
    - What no program uses of the headers: ARGF and EARGF of args.h, the ELF
      structures no code reads.
    - Register shuffling of the assembly stubs; the trap entry and exit are
      modelled by their effect on the saved frame. *)

From stdpp Require Export base list sets strings gmap.
From Stdlib Require Export ZArith Lia.

#[global] Open Scope Z_scope.

Declare Scope mos_scope.
Delimit Scope mos_scope with mos.
#[global] Open Scope mos_scope.

(** ** Machine-width integers

    [u_int], [u_long] and pointers are 32 bits wide on this target,
    [u_short] is 16 and [u_char] is 8; a value is a [Z] in range and every
    operation that can leave the range wraps explicitly. *)
Definition u8 (z : Z) : Z := z mod 2 ^ 8.
Definition u16 (z : Z) : Z := z mod 2 ^ 16.
Definition u32 (z : Z) : Z := z mod 2 ^ 32.

(** Reinterpretation of a 32-bit pattern as a C [int]. *)
Definition s32 (z : Z) : Z :=
  let w := u32 z in if w <? 2 ^ 31 then w else w - 2 ^ 32.

(** [~z] on [u_int]/[u_long]. *)
Definition not32 (z : Z) : Z := 2 ^ 32 - 1 - u32 z.

Definition is_u32 (z : Z) : Prop := 0 <= z < 2 ^ 32.

(** C truth values. *)
Definition truthy (z : Z) : bool := negb (z =? 0).

(** [ROUND(a, n)] and [ROUNDDOWN(a, n)] of include/types.h, [n] a power of
    two: the addition wraps at 32 bits, the mask clears the low bits. *)
Definition ROUND (a n : Z) : Z := Z.land (u32 (a + n - 1)) (not32 (n - 1)).
Definition ROUNDDOWN (a n : Z) : Z := Z.land (u32 a) (not32 (n - 1)).

(** ** Strings

    A C string is the list of its characters, without the terminator. *)

(** The characters of a string literal. *)
Fixpoint chars (s : string) : list Z :=
  match s with
  | EmptyString => []
  | String c s => Z.of_N (Ascii.N_of_ascii c) :: chars s
  end.
Definition newline : list Z := [10].

(** ** Arrays as total functions *)
Definition upd {A} (f : Z -> A) (k : Z) (v : A) : Z -> A :=
  fun x => if x =? k then v else f x.

Lemma upd_same {A} (f : Z -> A) k v : upd f k v k = v.
Proof. unfold upd. by rewrite Z.eqb_refl. Qed.

Lemma upd_other {A} (f : Z -> A) k v x : x <> k -> upd f k v x = f x.
Proof. intros H. unfold upd. destruct (Z.eqb_spec x k); congruence. Qed.

Lemma upd_case {A} (f : Z -> A) k v x :
  upd f k v x = if decide (x = k) then v else f x.
Proof.
  unfold upd. destruct (Z.eqb_spec x k); case_decide; congruence.
Qed.

(** ** Outcomes and the state-and-control monad

    A C function run in state [s] returns a value, panics (the machine
    halts), touches memory C does not let it touch ([Fault]: a null or wild
    dereference), or leaves the kernel for user mode and never returns to
    its caller ([Noret], the [noreturn] functions). *)
Inductive outcome (S A : Type) : Type :=
| Ret (a : A) (s : S)
| Panic (msg : string) (s : S)
| Fault
| Noret (s : S).
Arguments Ret {S A} a s.
Arguments Panic {S A} msg s.
Arguments Fault {S A}.
Arguments Noret {S A} s.

Definition M (S A : Type) : Type := S -> outcome S A.

Definition ret {S A} (a : A) : M S A := fun s => Ret a s.
Definition bind {S A B} (m : M S A) (k : A -> M S B) : M S B := fun s =>
  match m s with
  | Ret a s' => k a s'
  | Panic msg s' => Panic msg s'
  | Fault => Fault
  | Noret s' => Noret s'
  end.
Definition get {S} : M S S := fun s => Ret s s.
Definition gets {S A} (f : S -> A) : M S A := fun s => Ret (f s) s.
Definition modify {S} (f : S -> S) : M S unit := fun s => Ret tt (f s).
Definition panic {S A} (msg : string) : M S A := fun s => Panic msg s.
Definition fault {S A} : M S A := fun _ => Fault.
Definition noreturn {S A} : M S A := fun s => Noret s.

Notation "'let!' x := m 'in' k" := (bind m (fun x => k))
  (at level 10, x name, m at level 100, k at level 200,
   format "'[v' 'let!'  x  :=  m  'in' '/' k ']'") : mos_scope.
Notation "'let!' ' p := m 'in' k" := (bind m (fun p => k))
  (at level 10, p strict pattern, m at level 100, k at level 200) : mos_scope.
Notation "m ;! k" := (bind m (fun _ => k))
  (at level 199, right associativity) : mos_scope.

(** [assert(x)]: panic when the condition is false. *)
Definition c_assert {S} (b : bool) : M S unit :=
  if b then ret tt else panic "assertion failed".

(** [panic_on(expr)]. *)
Definition panic_on {S} (r : Z) : M S unit :=
  if r =? 0 then ret tt else panic "panic_on".

(** Functions with an out parameter: [OK v] is "return 0 with the out
    parameter set to [v]", [Err e] is "return [e]" with it untouched. *)
Inductive result (A : Type) : Type := OK (a : A) | Err (e : Z).
Arguments OK {A} a.
Arguments Err {A} e.

(** [try(expr)] of include/error.h, for a callee with an out parameter, in
    a caller with one ([try!]) or returning a plain code ([tryz!]); and for
    a callee returning a plain code ([try0]). *)
Definition try_res {S A B} (m : M S (result A)) (k : A -> M S (result B)) : M S (result B) :=
  bind m (fun r => match r with OK a => k a | Err e => ret (Err e) end).
Definition try_z {S A} (m : M S (result A)) (k : A -> M S Z) : M S Z :=
  bind m (fun r => match r with OK a => k a | Err e => ret e end).
Definition try0 {S} (m : M S Z) (k : M S Z) : M S Z :=
  bind m (fun r => if r =? 0 then k else ret r).

Notation "'try!' x := m 'in' k" := (try_res m (fun x => k))
  (at level 10, x name, m at level 100, k at level 200) : mos_scope.
Notation "'tryz!' x := m 'in' k" := (try_z m (fun x => k))
  (at level 10, x name, m at level 100, k at level 200) : mos_scope.

(** A loop body run for each index of a list, in order. *)
Fixpoint forM {S A} (l : list A) (body : A -> M S unit) : M S unit :=
  match l with
  | [] => ret tt
  | x :: l' => bind (body x) (fun _ => forM l' body)
  end.

(** Running an operation of a component on its part of a larger state. *)
Definition zoom {S T A} (proj : S -> T) (inj : T -> S -> S) (m : M T A) : M S A :=
  fun s =>
    match m (proj s) with
    | Ret a t => Ret a (inj t s)
    | Panic msg t => Panic msg (inj t s)
    | Fault => Fault
    | Noret t => Noret (inj t s)
    end.

Section MonadLaws.
Context {S : Type}.

Lemma bind_ret_l {A B} (a : A) (k : A -> M S B) s : bind (ret a) k s = k a s.
Proof. done. Qed.

Lemma bind_assoc {A B C} (m : M S A) (f : A -> M S B) (g : B -> M S C) s :
  bind (bind m f) g s = bind m (fun a => bind (f a) g) s.
Proof. unfold bind. by destruct (m s). Qed.

Lemma bind_step {A B} (m : M S A) (k : A -> M S B) s a s' :
  m s = Ret a s' -> bind m k s = k a s'.
Proof. intros H. unfold bind. by rewrite H. Qed.

Lemma bind_inv {A B} (m : M S A) (k : A -> M S B) s b s'' :
  bind m k s = Ret b s'' ->
  exists a s', m s = Ret a s' /\ k a s' = Ret b s''.
Proof. unfold bind. destruct (m s); naive_solver. Qed.

Lemma try0_inv (m k : M S Z) s b s'' :
  try0 m k s = Ret b s'' ->
  exists r s', m s = Ret r s' /\
    ((r = 0 /\ k s' = Ret b s'') \/ (r <> 0 /\ b = r /\ s'' = s')).
Proof.
  intros H. apply bind_inv in H as (r & s' & Hm & Hk).
  exists r, s'. split; [done|]. destruct (Z.eqb_spec r 0); [by left|right].
  unfold ret in Hk. naive_solver.
Qed.

Lemma try_z_inv {A} (m : M S (result A)) k s b s'' :
  try_z m k s = Ret b s'' ->
  exists r s', m s = Ret r s' /\
    ((exists a, r = OK a /\ k a s' = Ret b s'') \/ (r = Err b /\ s'' = s')).
Proof.
  intros H. apply bind_inv in H as ([a|e] & s' & Hm & Hk); eexists _, s';
    (split; [done|]); [left; eauto|right]. unfold ret in Hk. naive_solver.
Qed.
End MonadLaws.

Create HintDb mos_monad discriminated.
#[global] Hint Unfold bind ret get gets modify panic fault noreturn c_assert
  panic_on try_res try_z try0 zoom : mos_monad.

(** Unfold the monad in the goal (or in [H]) and reduce. *)
Ltac munfold := autounfold with mos_monad; cbn.
Ltac munfold_in H := autounfold with mos_monad in H; cbn in H.

(** ** Automation for arithmetic on words *)
Create HintDb mos discriminated.
Create Rewrite HintDb mos.
#[export] Hint Rewrite @upd_same : mos.
#[export] Hint Rewrite @upd_other using (lia || congruence) : mos.

Ltac upd_simp := repeat (rewrite upd_case); repeat case_decide; simplify_eq.

Lemma u32_id z : 0 <= z < 2 ^ 32 -> u32 z = z.
Proof. apply Z.mod_small. Qed.

Lemma u32_range z : 0 <= u32 z < 2 ^ 32.
Proof. apply Z.mod_pos_bound. lia. Qed.

Lemma u16_id z : 0 <= z < 2 ^ 16 -> u16 z = z.
Proof. apply Z.mod_small. Qed.

Lemma u16_range z : 0 <= u16 z < 2 ^ 16.
Proof. apply Z.mod_pos_bound. lia. Qed.

Lemma s32_small z : 0 <= z < 2 ^ 31 -> s32 z = z.
Proof.
  intros H. unfold s32. rewrite u32_id by lia.
  destruct (Z.ltb_spec z (2 ^ 31)); lia.
Qed.

(** ** Single bits of words, and bitmaps of 32-bit words *)
Lemma shiftl_1_pow b : 0 <= b -> Z.shiftl 1 b = 2 ^ b.
Proof. intros H. rewrite Z.shiftl_mul_pow2 by done. lia. Qed.

Lemma truthy_land_bit w b : 0 <= b -> truthy (Z.land w (2 ^ b)) = Z.testbit w b.
Proof.
  intros Hb. unfold truthy. destruct (Z.testbit w b) eqn:Ht.
  - destruct (Z.eqb_spec (Z.land w (2 ^ b)) 0) as [H0|]; [|done].
    assert (Hl : Z.testbit (Z.land w (2 ^ b)) b = true)
      by (rewrite Z.land_spec, Ht, Z.pow2_bits_true; done).
    by rewrite H0, Z.bits_0 in Hl.
  - replace (Z.land w (2 ^ b)) with 0; [done|]. symmetry. apply Z.bits_inj'. intros n Hn.
    rewrite Z.land_spec, Z.bits_0, Z.pow2_bits_eqb by lia.
    destruct (Z.eqb_spec b n) as [<-|]; [by rewrite Ht|apply andb_false_r].
Qed.

Lemma testbit_set_bit w b c : 0 <= b ->
  Z.testbit (Z.lor w (2 ^ b)) c = (b =? c) || Z.testbit w c.
Proof. intros Hb. by rewrite Z.lor_spec, Z.pow2_bits_eqb, orb_comm by done. Qed.

Lemma testbit_clear_bit w b c : 0 <= b < 32 -> 0 <= c < 32 ->
  Z.testbit (Z.land w (not32 (2 ^ b))) c = negb (b =? c) && Z.testbit w c.
Proof.
  intros Hb Hc. rewrite Z.land_spec, andb_comm. f_equal. unfold not32.
  rewrite u32_id by (split; [lia|apply Z.pow_lt_mono_r; lia]).
  replace (2 ^ 32 - 1 - 2 ^ b) with (Z.ldiff (Z.ones 32) (2 ^ b)).
  - by rewrite Z.ldiff_spec, Z.ones_spec_low, Z.pow2_bits_eqb by lia.
  - change (2 ^ 32 - 1) with (Z.ones 32). rewrite Z.sub_nocarry_ldiff; [done|].
    apply Z.bits_inj'. intros n Hn. rewrite Z.ldiff_spec, Z.bits_0, Z.pow2_bits_eqb by lia.
    destruct (Z.eqb_spec b n) as [<-|]; [|done]. by rewrite Z.ones_spec_low by lia.
Qed.

(** Two indices of a bitmap with the same word have the same bit only when
    they are equal. *)
Lemma same_word_bit i j : i / 32 = j / 32 -> (i mod 32 =? j mod 32) = (i =? j).
Proof.
  intros H. destruct (Z.eqb_spec (i mod 32) (j mod 32)), (Z.eqb_spec i j); subst; try done.
  exfalso. Z.div_mod_to_equations. lia.
Qed.

(** Destruct everything a step depends on. *)
Ltac step_cases H :=
  repeat (first
    [ progress simplify_eq/=
    | match type of H with
      | context [match ?x with _ => _ end] => destruct x eqn:?
      end ]).

Lemma forM_fmap {S A B} (f : A -> B) (body : B -> M S unit) l : forall s,
  forM (f <$> l) body s = forM l (fun x => body (f x)) s.
Proof.
  induction l as [|x l IH]; intros s; [done|]. cbn [forM fmap list_fmap]. unfold bind.
  by destruct (body (f x) s).
Qed.

Lemma forM_ext {S A} (l : list A) (f g : A -> M S unit) s :
  Forall (fun x => forall s, f x s = g x s) l -> forM l f s = forM l g s.
Proof.
  intros H. revert s. induction H as [|x l Hx H IH]; intros s; [done|]. cbn [forM].
  unfold bind. rewrite Hx. by destruct (g x s).
Qed.

(** A loop over an index range, with its invariant. *)
Lemma forM_seqZ {S} (P : Z -> S -> Prop) (body : Z -> M S unit) a n s :
  0 <= n ->
  (forall i s, a <= i < a + n -> P i s -> exists s', body i s = Ret tt s' /\ P (i + 1) s') ->
  P a s -> exists s', forM (seqZ a n) body s = Ret tt s' /\ P (a + n) s'.
Proof.
  intros Hn. revert a s. pattern n. apply natlike_ind; [| |done]; clear n Hn.
  - intros a s _ Ha. exists s. by rewrite Z.add_0_r.
  - intros n Hn IH a s Hstep Ha. rewrite seqZ_cons by lia. cbn [forM].
    destruct (Hstep a s ltac:(lia) Ha) as (s1 & H1 & P1). rewrite (bind_step _ _ _ _ _ H1).
    replace (Z.pred (Z.succ n)) with n by lia.
    replace (a + Z.succ n) with (Z.succ a + n) by lia.
    apply IH; [|by replace (Z.succ a) with (a + 1) by lia].
    intros i s2 Hi. apply Hstep. lia.
Qed.
