(* ===== verification/Queue.v ===== *)
(** * Intrusive lists and tail queues (include/queue.h)

    The macros are modelled at pointer level: an element is its index in the
    array it lives in, a [struct type *] is an [option Z], and a
    [struct type **] (the [le_prev]/[tqe_prev]/[tqh_last] fields) is the
    address of one of the cells that hold such a pointer.  A macro that
    writes through a null [struct type **] has no result ([None]).

    The representation predicates [list_rep] and [tailq_rep] relate a pointer
    structure to the sequence it stores; the lemmas say what each macro does
    to that sequence. *)
From S2P Require Import Prelude.

(** The cells a [struct type **] can point to. *)
Inductive cell : Type :=
| NULLC            (** the null pointer *)
| HEAD             (** [&(head)->lh_first] / [&(head)->tqh_first] *)
| NEXT (e : Z).    (** [&LIST_NEXT(e, field)] *)

#[global] Instance cell_eq_dec : EqDecision cell.
Proof. solve_decision. Defined.

(** [LIST_ENTRY(type)] / [TAILQ_ENTRY(type)]: the link field of an element. *)
Record LIST_ENTRY : Type := mkLE {
  le_next : option Z;
  le_prev : cell
}.

(** A zero-filled link field, as in the bss or after [memset]. *)
Definition LE_ZERO : LIST_ENTRY := mkLE None NULLC.

(** [LIST_HEAD] together with the link fields of all elements. *)
Record LIST : Type := mkLIST {
  lh_first : option Z;
  links : Z -> LIST_ENTRY
}.

(** [_TAILQ_HEAD] with the link fields of all elements. *)
Record TAILQ : Type := mkTAILQ {
  tq : LIST;            (* [tqh_first] and the [TAILQ_ENTRY] fields *)
  tqh_last : cell
}.

Definition set_first (v : option Z) (q : LIST) : LIST := mkLIST v (links q).
Definition set_next (e : Z) (v : option Z) (q : LIST) : LIST :=
  mkLIST (lh_first q) (upd (links q) e (mkLE v (le_prev (links q e)))).
Definition set_prev (e : Z) (c : cell) (q : LIST) : LIST :=
  mkLIST (lh_first q) (upd (links q) e (mkLE (le_next (links q e)) c)).
Definition set_last (c : cell) (q : TAILQ) : TAILQ := mkTAILQ (tq q) c.

(** [*c = v] *)
Definition store (c : cell) (v : option Z) (q : LIST) : option LIST :=
  match c with
  | NULLC => None
  | HEAD => Some (set_first v q)
  | NEXT e => Some (set_next e v q)
  end.

(** ** List macros *)
Definition LIST_EMPTY (q : LIST) : bool :=
  match lh_first q with None => true | Some _ => false end.
Definition LIST_FIRST (q : LIST) : option Z := lh_first q.
Definition LIST_NEXT (e : Z) (q : LIST) : option Z := le_next (links q e).
Definition LIST_INIT (q : LIST) : LIST := set_first None q.

(** [if (n) n->field.le_prev = c] *)
Definition fix_prev (n : option Z) (c : cell) (q : LIST) : LIST :=
  match n with Some x => set_prev x c q | None => q end.

Definition LIST_INSERT_AFTER (listelm elm : Z) (q : LIST) : LIST :=
  let q := set_next elm (LIST_NEXT listelm q) q in
  let q := fix_prev (LIST_NEXT listelm q) (NEXT elm) q in
  let q := set_next listelm (Some elm) q in
  set_prev elm (NEXT listelm) q.

Definition LIST_INSERT_BEFORE (listelm elm : Z) (q : LIST) : option LIST :=
  let q := set_prev elm (le_prev (links q listelm)) q in
  let q := set_next elm (Some listelm) q in
  match store (le_prev (links q listelm)) (Some elm) q with
  | Some q => Some (set_prev listelm (NEXT elm) q)
  | None => None
  end.

Definition LIST_INSERT_HEAD (elm : Z) (q : LIST) : LIST :=
  let q := set_next elm (lh_first q) q in
  let q := fix_prev (lh_first q) (NEXT elm) q in
  let q := set_first (Some elm) q in
  set_prev elm HEAD q.

Definition LIST_REMOVE (elm : Z) (q : LIST) : option LIST :=
  let q := fix_prev (LIST_NEXT elm q) (le_prev (links q elm)) q in
  store (le_prev (links q elm)) (LIST_NEXT elm q) q.

(** [LIST_FOREACH]: the elements the loop visits, for a loop body that does
    not change the list, with [n] bounding the number of iterations. *)
Fixpoint LIST_FOREACH (n : nat) (var : option Z) (q : LIST) : list Z :=
  match n, var with
  | S n, Some e => e :: LIST_FOREACH n (LIST_NEXT e q) q
  | _, _ => []
  end.

(** ** Tail queue macros *)
Definition TAILQ_EMPTY (q : TAILQ) : bool := LIST_EMPTY (tq q).
Definition TAILQ_FIRST (q : TAILQ) : option Z := lh_first (tq q).
Definition TAILQ_NEXT (e : Z) (q : TAILQ) : option Z := LIST_NEXT e (tq q).

Definition TAILQ_INIT (q : TAILQ) : TAILQ := mkTAILQ (set_first None (tq q)) HEAD.

(** [if (n) n->field.tqe_prev = c; else head->tqh_last = c] *)
Definition fix_prev_or_last (n : option Z) (c : cell) (q : TAILQ) : TAILQ :=
  match n with
  | Some x => mkTAILQ (set_prev x c (tq q)) (tqh_last q)
  | None => set_last c q
  end.

Definition TAILQ_INSERT_HEAD (elm : Z) (q : TAILQ) : TAILQ :=
  let q := mkTAILQ (set_next elm (TAILQ_FIRST q) (tq q)) (tqh_last q) in
  let q := fix_prev_or_last (TAILQ_NEXT elm q) (NEXT elm) q in
  mkTAILQ (set_prev elm HEAD (set_first (Some elm) (tq q))) (tqh_last q).

Definition TAILQ_INSERT_TAIL (elm : Z) (q : TAILQ) : option TAILQ :=
  let l := set_next elm None (tq q) in
  let l := set_prev elm (tqh_last q) l in
  match store (tqh_last q) (Some elm) l with
  | Some l => Some (mkTAILQ l (NEXT elm))
  | None => None
  end.

Definition TAILQ_INSERT_AFTER (listelm elm : Z) (q : TAILQ) : TAILQ :=
  let q := mkTAILQ (set_next elm (TAILQ_NEXT listelm q) (tq q)) (tqh_last q) in
  let q := fix_prev_or_last (TAILQ_NEXT elm q) (NEXT elm) q in
  mkTAILQ (set_prev elm (NEXT listelm) (set_next listelm (Some elm) (tq q))) (tqh_last q).

Definition TAILQ_INSERT_BEFORE (listelm elm : Z) (q : TAILQ) : option TAILQ :=
  match LIST_INSERT_BEFORE listelm elm (tq q) with
  | Some l => Some (mkTAILQ l (tqh_last q))
  | None => None
  end.

Definition TAILQ_REMOVE (elm : Z) (q : TAILQ) : option TAILQ :=
  let q := fix_prev_or_last (TAILQ_NEXT elm q) (le_prev (links (tq q) elm)) q in
  match store (le_prev (links (tq q) elm)) (TAILQ_NEXT elm q) (tq q) with
  | Some l => Some (mkTAILQ l (tqh_last q))
  | None => None
  end.

(** The second queue is given by its head, the link fields of its elements are
    with the others; its head is initialised afterwards. *)
Definition TAILQ_CONCAT (first2 : option Z) (last2 : cell) (q : TAILQ) : option TAILQ :=
  match first2 with
  | None => Some q
  | Some x =>
      match store (tqh_last q) (Some x) (tq q) with
      | Some l => Some (mkTAILQ (set_prev x (tqh_last q) l) last2)
      | None => None
      end
  end.

(** [*c] *)
Definition load_cell (c : cell) (q : TAILQ) : option (option Z) :=
  match c with
  | NULLC => None
  | HEAD => Some (lh_first (tq q))
  | NEXT e => Some (le_next (links (tq q) e))
  end.

(** [((struct headname * )c)->tqh_last]: the head and the link fields have the
    same layout, so this is the second word of whichever [c] points into. *)
Definition cell_last (c : cell) (q : TAILQ) : option cell :=
  match c with
  | NULLC => None
  | HEAD => Some (tqh_last q)
  | NEXT e => Some (le_prev (links (tq q) e))
  end.

Definition TAILQ_LAST (q : TAILQ) : option (option Z) := c ← cell_last (tqh_last q) q; load_cell c q.
Definition TAILQ_PREV (e : Z) (q : TAILQ) : option (option Z) :=
  c ← cell_last (le_prev (links (tq q) e)) q; load_cell c q.

Fixpoint TAILQ_FOREACH (n : nat) (var : option Z) (q : TAILQ) : list Z :=
  match n, var with
  | S n, Some e => e :: TAILQ_FOREACH n (TAILQ_NEXT e q) q
  | _, _ => []
  end.

(** [None] when a null pointer is followed. *)
Fixpoint TAILQ_FOREACH_REVERSE (n : nat) (var : option (option Z)) (q : TAILQ) : option (list Z) :=
  match n, var with
  | S n, Some (Some e) => l ← TAILQ_FOREACH_REVERSE n (TAILQ_PREV e q) q; Some (e :: l)
  | _, Some _ => Some []
  | _, None => None
  end.

(** ** Representation *)

(** The elements [l] are linked, from the cell [p] holding [first], up to
    the cell [p'] holding [n]. *)
Fixpoint lseg (f : Z -> LIST_ENTRY) (p : cell) (first : option Z) (l : list Z)
    (p' : cell) (n : option Z) : Prop :=
  match l with
  | [] => p' = p /\ n = first
  | e :: l' => first = Some e /\ le_prev (f e) = p /\
               lseg f (NEXT e) (le_next (f e)) l' p' n
  end.

Definition list_rep (q : LIST) (l : list Z) : Prop :=
  NoDup l /\ exists p', lseg (links q) HEAD (lh_first q) l p' None.

Definition tailq_rep (q : TAILQ) (l : list Z) : Prop :=
  NoDup l /\ lseg (links (tq q)) HEAD (lh_first (tq q)) l (tqh_last q) None.

Lemma lseg_app f l1 l2 p first p' n :
  lseg f p first (l1 ++ l2) p' n <->
  exists pm m, lseg f p first l1 pm m /\ lseg f pm m l2 p' n.
Proof.
  revert p first. induction l1 as [|e l1 IH]; intros p first; cbn.
  - split; [eauto|]. intros (? & ? & [-> ->] & H). done.
  - rewrite IH. naive_solver.
Qed.

Lemma lseg_cons f p first e l p' n :
  lseg f p first (e :: l) p' n <->
  first = Some e /\ le_prev (f e) = p /\ lseg f (NEXT e) (le_next (f e)) l p' n.
Proof. done. Qed.

Lemma lseg_frame f g l p first p' n :
  (forall e, e ∈ l -> g e = f e) -> lseg f p first l p' n -> lseg g p first l p' n.
Proof.
  revert p first. induction l as [|e l IH]; intros p first Hfg; cbn; [done|].
  intros (-> & <- & H). rewrite !Hfg by set_solver. split_and!; [done..|].
  apply IH; [set_solver|]. done.
Qed.

(** The cell reached after a segment is the start cell or the link of an
    element of the segment. *)
Lemma lseg_cell f l p first p' n :
  lseg f p first l p' n -> p' = p \/ exists e, e ∈ l /\ p' = NEXT e.
Proof.
  revert p first. induction l as [|e l IH]; intros p first; cbn; [naive_solver|].
  intros (_ & _ & H). destruct (IH _ _ H) as [->|(x & Hx & ->)]; right;
    [exists e|exists x]; set_solver.
Qed.

(** Storing [v] in the final cell of a segment retargets it to [v]. *)
Lemma lseg_store q l pm m v :
  NoDup l -> lseg (links q) HEAD (lh_first q) l pm m ->
  exists q', store pm v q = Some q' /\
    lseg (links q') HEAD (lh_first q') l pm v /\
    (forall e, e ∉ l -> links q' e = links q e).
Proof.
  intros Hnd Hs. destruct l as [|x l0] using rev_ind.
  - destruct Hs as [-> ->]. exists (set_first v q). cbn. auto.
  - clear IHl0. apply lseg_app in Hs as (p1 & m1 & H1 & Hm & Hp & -> & ->).
    apply NoDup_app in Hnd as (_ & Hdis & _).
    assert (Hx : x ∉ l0) by (intros Hin; apply (Hdis x Hin); set_solver).
    exists (set_next x v q). split_and!; [done| |].
    + apply lseg_app. exists p1, m1. split.
      * cbn. eapply lseg_frame; [|exact H1]. intros e He.
        apply upd_other. set_solver.
      * cbn. rewrite upd_same. cbn. auto.
    + intros e He. cbn. apply upd_other. set_solver.
Qed.

(** Redirecting the back link of the first element of a segment. *)
Lemma lseg_reprev q p x l p' n c :
  NoDup (x :: l) -> lseg (links q) p (Some x) (x :: l) p' n ->
  lseg (links (set_prev x c q)) c (Some x) (x :: l) p' n.
Proof.
  intros Hnd (_ & _ & H). cbn. rewrite upd_same. cbn. split_and!; [done..|].
  apply NoDup_cons in Hnd as [Hx _]. eapply lseg_frame; [|exact H].
  intros e He. apply upd_other. set_solver.
Qed.

Lemma lseg_first f p first l p' n :
  lseg f p first l p' n -> first = match l with x :: _ => Some x | [] => n end.
Proof. destruct l; cbn; naive_solver. Qed.

(** Decide every pending [upd] lookup. *)
Ltac upd_tac := cbn; unfold upd;
  repeat match goal with
    | |- context [?a =? ?b] => destruct (Z.eqb_spec a b); subst; cbn
    end;
  first [done | congruence | exfalso; set_solver].
Ltac lseg_upd H := eapply lseg_frame; [|exact H]; intros ? ?; upd_tac.

(** Where the segment after a removed or inserted element starts. *)
Definition end_cell (l : list Z) (c p' : cell) : cell :=
  match l with [] => c | _ => p' end.

Lemma lseg_fix_prev q p first l p' c :
  NoDup l -> lseg (links q) p first l p' None ->
  lseg (links (fix_prev first c q)) c first l (end_cell l c p') None.
Proof.
  intros Hnd H. pose proof (lseg_first _ _ _ _ _ _ H) as ->.
  destruct l as [|x l]; [done|]. by eapply lseg_reprev.
Qed.

Lemma fix_prev_links q first l c x :
  first = head l -> x ∉ l -> links (fix_prev first c q) x = links q x.
Proof. intros -> Hx. destruct l; cbn; [done|]. apply upd_other. set_solver. Qed.

Lemma fix_prev_first q first c : lh_first (fix_prev first c q) = lh_first q.
Proof. by destruct first. Qed.

Lemma lseg_head f p first l p' : lseg f p first l p' None -> first = head l.
Proof. intros H. apply lseg_first in H. by destruct l. Qed.

(** Removal, for both kinds of list. *)
Lemma lseg_unlink q l1 e l2 p' :
  NoDup (l1 ++ e :: l2) ->
  lseg (links q) HEAD (lh_first q) (l1 ++ e :: l2) p' None ->
  exists q', LIST_REMOVE e q = Some q' /\
    lseg (links q') HEAD (lh_first q') (l1 ++ l2)
      (end_cell l2 (le_prev (links q e)) p') None /\
    (forall x, x ∉ l1 ++ l2 -> links q' x = links q x).
Proof.
  intros Hnd H. apply lseg_app in H as (pm & m & H1 & -> & Hpm & H2).
  apply NoDup_app in Hnd as (Hn1 & Hdis & Hn2).
  apply NoDup_cons in Hn2 as [He2 Hn2].
  assert (He1 : e ∉ l1) by (intros Hin; apply (Hdis e Hin); set_solver).
  assert (Hdis2 : forall x, x ∈ l1 -> x ∉ l2)
    by (intros x Hx Hin; apply (Hdis x Hx); set_solver).
  unfold LIST_REMOVE, LIST_NEXT. rewrite Hpm.
  set (n := le_next (links q e)) in *.
  pose proof (lseg_head _ _ _ _ _ H2) as Hn.
  set (q1 := fix_prev n pm q).
  assert (Hq1 : forall x, x ∉ l2 -> links q1 x = links q x)
    by (intros; eapply fix_prev_links; eauto).
  rewrite (Hq1 e) by done. rewrite Hpm. fold n.
  assert (H1' : lseg (links q1) HEAD (lh_first q1) l1 pm (Some e)).
  { unfold q1. rewrite fix_prev_first. eapply lseg_frame; [|exact H1]. eauto. }
  destruct (lseg_store q1 l1 pm (Some e) n Hn1 H1') as (q' & -> & Hs & Hfr).
  exists q'. split_and!; [done| |].
  - apply lseg_app. exists pm, n. split; [done|].
    eapply lseg_frame; [|eapply lseg_fix_prev; eauto].
    intros x Hx. apply Hfr. intros Hin. by apply (Hdis2 x).
  - intros x Hx. rewrite Hfr by set_solver. apply Hq1. set_solver.
Qed.

Lemma NoDup_mid (l1 l2 : list Z) e :
  NoDup (l1 ++ e :: l2) ->
  NoDup l1 /\ NoDup l2 /\ e ∉ l1 /\ e ∉ l2 /\ (forall x, x ∈ l1 -> x ∉ l2).
Proof. rewrite NoDup_app, NoDup_cons. set_solver. Qed.

(** Insertion before an element, for both kinds of list. *)
Lemma lseg_insert_before q l1 le l2 p' e :
  NoDup (l1 ++ le :: l2) -> e ∉ l1 ++ le :: l2 ->
  lseg (links q) HEAD (lh_first q) (l1 ++ le :: l2) p' None ->
  exists q', LIST_INSERT_BEFORE le e q = Some q' /\
    lseg (links q') HEAD (lh_first q') (l1 ++ e :: le :: l2) p' None /\
    (forall x, x ∉ l1 ++ e :: le :: l2 -> links q' x = links q x).
Proof.
  intros Hnd He H. apply lseg_app in H as (pm & m & H1 & -> & Hpm & H2).
  apply NoDup_mid in Hnd as (Hn1 & Hn2 & Hl1 & Hl2 & Hdis).
  assert (e <> le) by set_solver.
  unfold LIST_INSERT_BEFORE. cbv zeta.
  set (q1 := set_next e (Some le) _).
  assert (Hq1 : forall x, x <> e -> links q1 x = links q x) by (intros; subst q1; upd_tac).
  assert (Hqe : links q1 e = mkLE (Some le) pm) by (subst q1; upd_tac).
  rewrite (Hq1 le), Hpm by done.
  assert (H1' : lseg (links q1) HEAD (lh_first q1) l1 pm (Some le)).
  { subst q1. cbn. eapply lseg_frame; [|exact H1]. intros x Hx. apply Hq1. set_solver. }
  clearbody q1.
  destruct (lseg_store q1 l1 pm (Some le) (Some e) Hn1 H1') as (q2 & -> & Hs & Hfr).
  eexists. split_and!; [done| |].
  - apply lseg_app. exists pm, (Some e). split.
    + cbn. lseg_upd Hs.
    + apply lseg_cons. cbn. rewrite !(upd_other _ le _ e), !Hfr, Hqe by set_solver.
      refine (conj eq_refl (conj eq_refl (conj eq_refl _))). cbn.
      rewrite upd_same. split; [done|]. cbn.
      rewrite Hq1 by set_solver.
      eapply lseg_frame; [|exact H2]. intros x Hx.
      rewrite upd_other by set_solver. rewrite Hfr, Hq1 by set_solver. done.
  - intros x Hx. cbn. rewrite upd_other, Hfr, Hq1 by set_solver. done.
Qed.

(** ** What the list macros do to the sequence *)
Section ListMacros.
Context (q : LIST) (l : list Z).

Lemma list_rep_empty : list_rep q l -> LIST_EMPTY q = bool_decide (l = []).
Proof.
  intros (_ & p' & H). apply lseg_first in H. unfold LIST_EMPTY.
  rewrite H. by destruct l.
Qed.

Lemma list_rep_first : list_rep q l -> LIST_FIRST q = head l.
Proof. intros (_ & p' & H). apply lseg_first in H. by destruct l. Qed.

Lemma list_rep_init : list_rep (LIST_INIT q) [].
Proof. split; [constructor|]. by exists HEAD. Qed.

Lemma list_insert_head e :
  list_rep q l -> e ∉ l ->
  list_rep (LIST_INSERT_HEAD e q) (e :: l) /\
  (forall x, x ∉ e :: l -> links (LIST_INSERT_HEAD e q) x = links q x).
Proof.
  intros [Hnd (p' & H)] He. pose proof (lseg_first _ _ _ _ _ _ H) as Hf.
  assert (Hnd' : NoDup (e :: l)) by (by constructor).
  unfold LIST_INSERT_HEAD.
  destruct l as [|x l0]; rewrite Hf; cbn; rewrite Hf; cbn.
  - split; [split; [done|]|].
    + exists (NEXT e). cbn. rewrite !upd_same. auto.
    + intros x Hx. upd_tac.
  - assert (x <> e) by set_solver. rewrite Hf in H.
    split; [split; [done|]|].
    + exists p'. apply (lseg_reprev _ _ _ _ _ _ (NEXT e)) in H; [|done].
      apply lseg_cons. cbn [lh_first links]. refine (conj eq_refl (conj _ _)); [upd_tac|].
      replace (le_next _) with (Some x) by upd_tac. lseg_upd H.
    + intros y Hy. upd_tac.
Qed.

Lemma list_remove e l1 l2 :
  list_rep q l -> l = l1 ++ e :: l2 ->
  exists q', LIST_REMOVE e q = Some q' /\ list_rep q' (l1 ++ l2) /\
    (forall x, x ∉ l1 ++ l2 -> links q' x = links q x).
Proof.
  intros [Hnd (p' & H)] ->.
  destruct (lseg_unlink _ _ _ _ _ Hnd H) as (q' & ? & ? & ?).
  exists q'. split_and!; try done. split; [|eauto].
  revert Hnd. rewrite !NoDup_app, NoDup_cons. set_solver.
Qed.

Lemma list_insert_before e le l1 l2 :
  list_rep q l -> l = l1 ++ le :: l2 -> e ∉ l ->
  exists q', LIST_INSERT_BEFORE le e q = Some q' /\ list_rep q' (l1 ++ e :: le :: l2).
Proof.
  intros [Hnd (p' & H)] -> He.
  destruct (lseg_insert_before _ _ _ _ _ e Hnd He H) as (q' & ? & ? & ?).
  exists q'. split; [done|]. split; [|eauto].
  revert Hnd He. rewrite !NoDup_app, !NoDup_cons. set_solver.
Qed.

Lemma list_insert_after e le l1 l2 :
  list_rep q l -> l = l1 ++ le :: l2 -> e ∉ l ->
  list_rep (LIST_INSERT_AFTER le e q) (l1 ++ le :: e :: l2).
Proof.
  intros [Hnd (p' & H)] -> He. split.
  { revert Hnd He. rewrite !NoDup_app, !NoDup_cons. set_solver. }
  apply lseg_app in H as (pm & m & H1 & -> & Hpm & H2).
  apply NoDup_mid in Hnd as (Hn1 & Hn2 & Hl1 & Hl2 & Hdis).
  assert (e <> le) by set_solver.
  pose proof (lseg_head _ _ _ _ _ H2) as Hn.
  exists (end_cell l2 (NEXT e) p'). unfold LIST_INSERT_AFTER, LIST_NEXT. cbv zeta.
  assert (Hle : le_next (links (set_next e (le_next (links q le)) q) le) = head l2)
    by (rewrite <- Hn; upd_tac).
  rewrite Hle. set (q1 := set_next e _ q).
  assert (H2' : lseg (links q1) (NEXT le) (le_next (links q le)) l2 p' None)
    by (subst q1; lseg_upd H2).
  apply (lseg_fix_prev _ _ _ _ _ (NEXT e)) in H2'; [|done]. rewrite Hn in H2'.
  assert (Hq1 : forall x, x ∉ e :: l2 -> links (fix_prev (head l2) (NEXT e) q1) x = links q x).
  { intros x Hx. erewrite fix_prev_links by (done || set_solver). subst q1.
    cbn. apply upd_other. set_solver. }
  assert (Hqe : le_next (links (fix_prev (head l2) (NEXT e) q1) e) = head l2).
  { erewrite fix_prev_links by (done || set_solver). subst q1. rewrite <- Hn. upd_tac. }
  set (q2 := fix_prev (head l2) (NEXT e) q1) in *.
  apply lseg_app. exists pm, (Some le). split.
  - cbn. unfold q2. rewrite fix_prev_first. cbn. eapply lseg_frame; [|exact H1].
    intros x Hx. cbn. rewrite !upd_other by set_solver. apply Hq1. set_solver.
  - apply lseg_cons. cbn. rewrite (upd_other _ e), !upd_same by done. cbn.
    rewrite Hq1 by set_solver. rewrite (upd_other _ le _ e), Hqe by done.
    split_and!; [done..|]. lseg_upd H2'.
Qed.

(** [LIST_FOREACH] visits the sequence in order, once each. *)
Lemma list_foreach n :
  list_rep q l -> (length l <= n)%nat -> LIST_FOREACH n (LIST_FIRST q) q = l.
Proof.
  intros [_ (p' & H)]. unfold LIST_FIRST. revert H.
  generalize HEAD (lh_first q). intros p first H. revert n p first H.
  induction l as [|e l' IH]; intros n p first; cbn.
  - intros [_ <-] _. by destruct n.
  - intros (-> & _ & H) Hn. destruct n; cbn in *; [lia|]. f_equal.
    eapply IH; [done|]. lia.
Qed.
End ListMacros.

(** ** What the tail queue macros do to the sequence *)
Lemma TAILQ_REMOVE_LIST e q :
  TAILQ_REMOVE e q =
  match LIST_REMOVE e (tq q) with
  | Some l => Some (mkTAILQ l
      match TAILQ_NEXT e q with
      | Some _ => tqh_last q | None => le_prev (links (tq q) e)
      end)
  | None => None
  end.
Proof.
  unfold TAILQ_REMOVE, LIST_REMOVE, fix_prev_or_last, fix_prev, TAILQ_NEXT, LIST_NEXT.
  by destruct (le_next (links (tq q) e)); cbn.
Qed.

Section TailqMacros.
Context (q : TAILQ) (l : list Z).

Lemma tailq_rep_empty : tailq_rep q l -> TAILQ_EMPTY q = bool_decide (l = []).
Proof. intros [? ?]. apply (list_rep_empty (tq q) l). split; eauto. Qed.

Lemma tailq_rep_first : tailq_rep q l -> TAILQ_FIRST q = head l.
Proof. intros [? ?]. apply (list_rep_first (tq q) l). split; eauto. Qed.

Lemma tailq_rep_init : tailq_rep (TAILQ_INIT q) [].
Proof. by split; [constructor|]. Qed.

Lemma tailq_insert_tail e :
  tailq_rep q l -> e ∉ l ->
  exists q', TAILQ_INSERT_TAIL e q = Some q' /\ tailq_rep q' (l ++ [e]) /\
    (forall x, x ∉ l ++ [e] -> links (tq q') x = links (tq q) x).
Proof.
  intros [Hnd H] He. unfold TAILQ_INSERT_TAIL. cbv zeta.
  set (l1 := set_prev e _ _).
  assert (Hs : lseg (links l1) HEAD (lh_first l1) l (tqh_last q) None)
    by (subst l1; lseg_upd H).
  destruct (lseg_store _ _ _ _ (Some e) Hnd Hs) as (l2 & -> & Hs2 & Hfr).
  eexists. split_and!; [done|split|].
  - rewrite NoDup_app. split_and!; [done| |apply NoDup_singleton]. set_solver.
  - cbn. apply lseg_app. exists (tqh_last q), (Some e). split; [done|].
    cbn. rewrite Hfr by done. subst l1. split_and!; try done; upd_tac.
  - intros x Hx. cbn. rewrite Hfr by set_solver. subst l1. upd_tac.
Qed.

Lemma tailq_insert_head e :
  tailq_rep q l -> e ∉ l ->
  tailq_rep (TAILQ_INSERT_HEAD e q) (e :: l) /\
  (forall x, x ∉ e :: l -> links (tq (TAILQ_INSERT_HEAD e q)) x = links (tq q) x).
Proof.
  intros [Hnd H] He. pose proof (lseg_head _ _ _ _ _ H) as Hf.
  assert (Hnd' : NoDup (e :: l)) by (by constructor).
  unfold TAILQ_INSERT_HEAD, TAILQ_FIRST, TAILQ_NEXT, LIST_NEXT. cbv zeta.
  rewrite Hf. cbn [tq links set_next]. rewrite upd_same. cbn [le_next].
  destruct l as [|x l0]; cbn.
  - split; [split; [done|]|]; [cbn; rewrite !upd_same; cbn; auto|].
    intros x Hx. upd_tac.
  - assert (x <> e) by set_solver. rewrite Hf in H.
    split; [split; [done|]|].
    + apply (lseg_reprev _ _ _ _ _ _ (NEXT e)) in H; [|done].
      apply lseg_cons. cbn [tq lh_first links tqh_last].
      refine (conj eq_refl (conj _ _)); [upd_tac|].
      replace (le_next _) with (Some x) by upd_tac. lseg_upd H.
    + intros y Hy. upd_tac.
Qed.

Lemma tailq_remove e l1 l2 :
  tailq_rep q l -> l = l1 ++ e :: l2 ->
  exists q', TAILQ_REMOVE e q = Some q' /\ tailq_rep q' (l1 ++ l2) /\
    (forall x, x ∉ l1 ++ l2 -> links (tq q') x = links (tq q) x).
Proof.
  intros [Hnd H] ->. rewrite TAILQ_REMOVE_LIST.
  destruct (lseg_unlink _ _ _ _ _ Hnd H) as (l' & -> & Hs & Hfr).
  eexists. split_and!; [done| |done]. split; cbn.
  { revert Hnd. rewrite !NoDup_app, NoDup_cons. set_solver. }
  apply lseg_app in H as (pm & m & _ & -> & Hpm & H2). apply lseg_head in H2.
  unfold TAILQ_NEXT, LIST_NEXT. rewrite H2. by destruct l2.
Qed.

Lemma tailq_insert_before e le l1 l2 :
  tailq_rep q l -> l = l1 ++ le :: l2 -> e ∉ l ->
  exists q', TAILQ_INSERT_BEFORE le e q = Some q' /\ tailq_rep q' (l1 ++ e :: le :: l2).
Proof.
  intros [Hnd H] -> He. unfold TAILQ_INSERT_BEFORE.
  destruct (lseg_insert_before _ _ _ _ _ e Hnd He H) as (l' & -> & Hs & Hfr).
  eexists. split; [done|]. split; [|done].
  revert Hnd He. rewrite !NoDup_app, !NoDup_cons. set_solver.
Qed.
End TailqMacros.

(** ** Traversals of a tail queue *)
Lemma lseg_load q l p' n :
  lseg (links (tq q)) HEAD (lh_first (tq q)) l p' n -> load_cell p' q = Some n.
Proof.
  destruct l as [|x l0 _] using rev_ind; [by intros [-> ->]|].
  intros (p1 & m1 & _ & _ & _ & -> & ->)%lseg_app. done.
Qed.

(** The cell before the one a prefix of the queue ends in. *)
Lemma tailq_cell_before q l1 l2 p1 m :
  lseg (links (tq q)) HEAD (lh_first (tq q)) l1 p1 m ->
  lseg (links (tq q)) p1 m l2 (tqh_last q) None ->
  (c ← cell_last p1 q; load_cell c q) = Some (last l1).
Proof.
  destruct l1 as [|x l0 _] using rev_ind.
  - intros [-> ->] H. cbn. by apply (lseg_load q l2).
  - intros (p0 & m0 & H0 & -> & Hp & -> & ->)%lseg_app _. cbn. rewrite Hp, last_snoc.
    by apply (lseg_load q l0).
Qed.

Lemma tailq_last q l : tailq_rep q l -> TAILQ_LAST q = Some (last l).
Proof. intros [_ H]. by apply (tailq_cell_before q l [] (tqh_last q) None). Qed.

Lemma tailq_prev q l1 e l2 : tailq_rep q (l1 ++ e :: l2) -> TAILQ_PREV e q = Some (last l1).
Proof.
  intros [_ (p1 & m & H1 & H2)%lseg_app]. pose proof H2 as (_ & Hp & _). unfold TAILQ_PREV.
  rewrite Hp. by apply (tailq_cell_before q l1 (e :: l2) p1 m).
Qed.

(** [TAILQ_FOREACH] visits the queue in order, [TAILQ_FOREACH_REVERSE]
    backwards. *)
Lemma tailq_foreach q l : forall n p m, (length l <= n)%nat ->
  lseg (links (tq q)) p m l (tqh_last q) None -> TAILQ_FOREACH n m q = l.
Proof.
  induction l as [|e l IH]; intros n p m Hn Hs.
  - destruct Hs as [_ <-]. by destruct n.
  - destruct Hs as (-> & _ & Hs). destruct n as [|n]; [cbn in Hn; lia|]. cbn [TAILQ_FOREACH]. f_equal.
    apply (IH n (NEXT e)); [cbn in Hn; lia|done].
Qed.

Lemma tailq_foreach_reverse q l n :
  tailq_rep q l -> (length l <= n)%nat ->
  TAILQ_FOREACH_REVERSE n (TAILQ_LAST q) q = Some (reverse l).
Proof.
  intros Hq Hn. rewrite (tailq_last q l Hq).
  assert (H : forall l1 l2 n, (length l1 <= n)%nat -> l = l1 ++ l2 ->
            TAILQ_FOREACH_REVERSE n (Some (last l1)) q = Some (reverse l1)).
  { clear n Hn. intros l1. induction l1 as [|x l1 IH] using rev_ind; intros l2 n Hn ->.
    - by destruct n.
    - rewrite length_app in Hn. destruct n as [|n]; [cbn in Hn; lia|]. rewrite last_snoc, reverse_snoc.
      cbn [TAILQ_FOREACH_REVERSE]. rewrite <- app_assoc in Hq. rewrite (tailq_prev q l1 x l2 Hq).
      rewrite (IH (x :: l2)); [done|cbn in Hn; lia|by rewrite <- app_assoc]. }
  apply (H l []); [done|]. by rewrite app_nil_r.
Qed.

(** [TAILQ_CONCAT] appends a queue headed anywhere ([c2]). *)
Lemma tailq_concat q l1 l2 c2 first2 last2 :
  tailq_rep q l1 -> NoDup (l1 ++ l2) -> (l2 = [] -> first2 = None) ->
  lseg (links (tq q)) c2 first2 l2 last2 None ->
  exists q', TAILQ_CONCAT first2 last2 q = Some q' /\ tailq_rep q' (l1 ++ l2).
Proof.
  intros [Hnd1 H1] Hnd Hemp H2. destruct l2 as [|x l2].
  - rewrite (Hemp eq_refl). exists q. by rewrite app_nil_r.
  - pose proof H2 as (-> & _). cbn [TAILQ_CONCAT].
    apply NoDup_app in Hnd as (Hd1 & Hdis & Hd2).
    destruct (lseg_store (tq q) l1 (tqh_last q) None (Some x) Hnd1 H1) as (l & Hst & Hs & Hfr).
    rewrite Hst. eexists; split; [done|]. split; [by apply NoDup_app|].
    apply lseg_app. exists (tqh_last q), (Some x). split.
    + eapply lseg_frame; [|exact Hs]. intros e He. apply upd_other. intros ->.
      apply (Hdis x He). by apply list_elem_of_here.
    + apply (lseg_reprev l c2); [done|]. eapply lseg_frame; [|exact H2].
      intros e He. apply Hfr. intros He1. by apply (Hdis e).
Qed.
