(* ===== verification/Mmu.v ===== *)
(** * Address arithmetic and page table entries (include/mmu.h)

    The macros on virtual addresses, physical addresses and Sv32 page table
    entries, with the memory layout constants; a [u_long] is a 32-bit word. *)
From S2P Require Import Prelude.

Definition BY2PG : Z := 4096.
Definition PDMAP : Z := 4 * 1024 * 1024.
Definition PGSHIFT : Z := 12.
Definition PDSHIFT : Z := 22.

Definition PDX (va : Z) : Z := Z.land (Z.shiftr (u32 va) 22) 0x03FF.
Definition PTX (va : Z) : Z := Z.land (Z.shiftr (u32 va) 12) 0x03FF.
Definition PTE2PADDR (pte : Z) : Z := Z.land (u32 (Z.shiftl (u32 pte) 2)) (not32 0xFFF).
Definition PTE_BITS (pte : Z) : Z := Z.land (u32 pte) 0x3FF.
Definition PPN (pa : Z) : Z := Z.shiftr (u32 pa) 12.
Definition VPN (va : Z) : Z := Z.shiftr (u32 va) 12.

Definition PTE_G : Z := 0x020.
Definition PTE_U : Z := 0x010.
Definition PTE_V : Z := 0x001.
Definition PTE_R : Z := 0x002.
Definition PTE_W : Z := 0x004.
Definition PTE_X : Z := 0x008.
Definition PTE_D : Z := 0x080.
Definition PTE_A : Z := 0x040.
Definition PTE_COW : Z := 0x100.
Definition PTE_LIBRARY : Z := 0x200.

Definition KSEG0 : Z := 0x80000000.
Definition KMMIO : Z := 0xA0000000.
Definition KERNBASE : Z := 0x80200000.
Definition KSTACKTOP : Z := 0x80600000.
Definition ULIM : Z := 0x80000000.
Definition UVPT : Z := ULIM - PDMAP.
Definition UPAGES : Z := UVPT - PDMAP.
Definition UENVS : Z := UPAGES - PDMAP.
Definition UTOP : Z := UENVS.
Definition UXSTACKTOP : Z := UTOP.
Definition USTACKTOP : Z := UTOP - 2 * BY2PG.
Definition UTEXT : Z := PDMAP.
Definition UCOW : Z := UTEXT - BY2PG.
Definition UTEMP : Z := UCOW - BY2PG.

(** Error codes (include/error.h). *)
Definition E_UNSPECIFIED : Z := 1.
Definition E_BAD_ENV : Z := 2.
Definition E_INVAL : Z := 3.
Definition E_NO_MEM : Z := 4.
Definition E_NO_SYS : Z := 5.
Definition E_NO_FREE_ENV : Z := 6.
Definition E_IPC_NOT_RECV : Z := 7.
Definition E_NO_DISK : Z := 8.
Definition E_MAX_OPEN : Z := 9.
Definition E_NOT_FOUND : Z := 10.
Definition E_BAD_PATH : Z := 11.
Definition E_FILE_EXISTS : Z := 12.
Definition E_NOT_EXEC : Z := 13.

(** [PADDR2PTE(pa)] panics below [KSEG0]. *)
Definition PADDR2PTE {S} (pa : Z) : M S Z :=
  let a := u32 pa in
  if a <? KSEG0 then panic "PPN called with invalid pa"
  else ret (Z.land (Z.shiftr a 2) (not32 0x3FF)).

(** [PADDR(kva)] panics below [ULIM]. *)
Definition PADDR {S} (kva : Z) : M S Z :=
  let a := u32 kva in
  if a <? ULIM then panic "PADDR called with invalid kva" else ret a.

(** ** Masks, shifts and divisions *)
Lemma land_high x k :
  0 <= k <= 32 -> 0 <= x < 2 ^ 32 -> Z.land x (2 ^ 32 - 2 ^ k) = x / 2 ^ k * 2 ^ k.
Proof.
  intros Hk Hx.
  replace (2 ^ 32 - 2 ^ k) with (Z.shiftl (Z.ones (32 - k)) k).
  2: { rewrite Z.shiftl_mul_pow2, Z.ones_equiv by lia.
       replace (2 ^ 32) with (2 ^ (32 - k) * 2 ^ k)
         by (rewrite <- Z.pow_add_r by lia; f_equal; lia). lia. }
  rewrite <- Z.shiftr_div_pow2, <- Z.shiftl_mul_pow2 by lia.
  apply Z.bits_inj'. intros n Hn. rewrite Z.land_spec.
  destruct (Z.ltb_spec n k).
  - rewrite !Z.shiftl_spec_low by lia. apply andb_false_r.
  - rewrite !Z.shiftl_spec by lia. rewrite Z.shiftr_spec by lia.
    replace (n - k + k) with n by lia.
    destruct (Z.ltb_spec (n - k) (32 - k)).
    + rewrite Z.ones_spec_low by lia. apply andb_true_r.
    + replace (Z.testbit x n) with false; [done|].
      symmetry. rewrite <- (Z.mod_small x (2 ^ 32)) by lia.
      apply Z.mod_pow2_bits_high. lia.
Qed.

(** Joining a multiple of [2^k] with low bits is addition. *)
Lemma lor_low a b k :
  0 <= k -> a mod 2 ^ k = 0 -> 0 <= b < 2 ^ k -> Z.lor a b = a + b.
Proof.
  intros Hk Ha Hb. rewrite Z.add_nocarry_lxor, Z.lxor_lor; [done| |].
  all: apply Z.bits_inj'; intros n Hn; rewrite Z.land_spec, Z.bits_0;
    destruct (Z.ltb_spec n k);
    [ replace (Z.testbit a n) with false; [done|];
      rewrite <- (Z.mod_pow2_bits_low a k n), Ha, Z.bits_0 by lia; done
    | rewrite <- (Z.mod_small b (2 ^ k)), Z.mod_pow2_bits_high by lia;
      apply andb_false_r ].
Qed.

Lemma land_low a b k :
  0 <= k -> a mod 2 ^ k = 0 -> 0 <= b < 2 ^ k -> Z.land a b = 0.
Proof.
  intros Hk Ha Hb. apply Z.bits_inj'. intros n Hn. rewrite Z.land_spec, Z.bits_0.
  destruct (Z.ltb_spec n k).
  - rewrite <- (Z.mod_pow2_bits_low a k n), Ha, Z.bits_0 by lia. done.
  - rewrite <- (Z.mod_small b (2 ^ k)), Z.mod_pow2_bits_high by lia. apply andb_false_r.
Qed.

Lemma not32_mask k : 0 <= k <= 32 -> not32 (2 ^ k - 1) = 2 ^ 32 - 2 ^ k.
Proof.
  intros Hk. unfold not32. pose proof (Z.pow_le_mono_r 2 k 32 ltac:(lia) ltac:(lia)).
  pose proof (Z.pow_pos_nonneg 2 k ltac:(lia) ltac:(lia)). rewrite u32_id; lia.
Qed.

Lemma land_not_page x : 0 <= x < 2 ^ 32 -> Z.land x (not32 0xFFF) = x / 4096 * 4096.
Proof. intros H. change (not32 0xFFF) with (2 ^ 32 - 2 ^ 12). by rewrite land_high by lia. Qed.

Lemma land_not_flags x : 0 <= x < 2 ^ 32 -> Z.land x (not32 0x3FF) = x / 1024 * 1024.
Proof. intros H. change (not32 0x3FF) with (2 ^ 32 - 2 ^ 10). by rewrite land_high by lia. Qed.

(** ** The macros as arithmetic *)
Lemma PDX_div va : 0 <= va < 2 ^ 32 -> PDX va = va / 2 ^ 22.
Proof.
  intros H. unfold PDX. rewrite u32_id by done. change 0x03FF with (Z.ones 10).
  rewrite Z.land_ones, Z.shiftr_div_pow2 by lia. apply Z.mod_small.
  split; [apply Z.div_pos; lia|]. apply Z.div_lt_upper_bound; lia.
Qed.

Lemma PTX_div va : 0 <= va < 2 ^ 32 -> PTX va = va / 2 ^ 12 mod 1024.
Proof.
  intros H. unfold PTX. rewrite u32_id by done. change 0x03FF with (Z.ones 10).
  by rewrite Z.land_ones, Z.shiftr_div_pow2 by lia.
Qed.

Lemma PDX_range va : 0 <= PDX va < 1024.
Proof.
  unfold PDX. change 0x03FF with (Z.ones 10). rewrite Z.land_ones by lia.
  apply Z.mod_pos_bound. lia.
Qed.

Lemma PTX_range va : 0 <= PTX va < 1024.
Proof.
  unfold PTX. change 0x03FF with (Z.ones 10). rewrite Z.land_ones by lia.
  apply Z.mod_pos_bound. lia.
Qed.

Lemma PPN_div pa : 0 <= pa < 2 ^ 32 -> PPN pa = pa / 4096.
Proof. intros H. unfold PPN. by rewrite u32_id, Z.shiftr_div_pow2 by lia. Qed.

Lemma VPN_div pa : 0 <= pa < 2 ^ 32 -> VPN pa = pa / 4096.
Proof. apply PPN_div. Qed.

(** Two addresses with equal directory and table indices are on one page. *)
Lemma page_of_indices va va' :
  0 <= va < 2 ^ 32 -> 0 <= va' < 2 ^ 32 ->
  PDX va = PDX va' -> PTX va = PTX va' -> va / 4096 = va' / 4096.
Proof.
  intros H H'. rewrite !PDX_div, !PTX_div by done.
  change (2 ^ 22) with (4096 * 1024). change (2 ^ 12) with 4096.
  rewrite <- !Z.div_div by lia. intros Hd Hm.
  rewrite (Z.div_mod (va / 4096) 1024), (Z.div_mod (va' / 4096) 1024) by lia. lia.
Qed.

Lemma ROUNDDOWN_page a : 0 <= a < 2 ^ 32 -> ROUNDDOWN a BY2PG = a / 4096 * 4096.
Proof. intros H. unfold ROUNDDOWN. rewrite u32_id by done. by apply land_not_page. Qed.

Lemma ROUND_page a :
  0 <= a <= 2 ^ 32 - 4096 -> ROUND a BY2PG = (a + 4095) / 4096 * 4096.
Proof.
  intros H. unfold ROUND, BY2PG. rewrite u32_id by lia.
  replace (a + 4096 - 1) with (a + 4095) by lia. apply land_not_page. lia.
Qed.

(** [PADDR2PTE] followed by flags and read back by [PTE2PADDR]. *)
Definition pte_of (pa perm : Z) : Z := Z.lor (pa / 4096 * 1024) perm.

Lemma PADDR2PTE_ok {S} pa (s : S) :
  KSEG0 <= pa < 2 ^ 32 -> PADDR2PTE pa s = Ret (pa / 4096 * 1024) s.
Proof.
  unfold KSEG0. intros H. unfold PADDR2PTE, KSEG0. rewrite u32_id by lia.
  destruct (Z.ltb_spec pa 0x80000000); [lia|]. unfold ret. f_equal.
  rewrite Z.shiftr_div_pow2 by lia. change (2 ^ 2) with 4.
  assert (pa / 4 < 2 ^ 32) by (apply Z.div_lt_upper_bound; lia).
  rewrite land_not_flags by (split; [apply Z.div_pos|]; lia).
  by rewrite Z.div_div by lia.
Qed.

Lemma pte_of_add pa perm : 0 <= perm < 1024 -> pte_of pa perm = pa / 4096 * 1024 + perm.
Proof.
  intros H. unfold pte_of. apply (lor_low _ _ 10); [lia| |lia].
  apply Z.mod_mul. lia.
Qed.

Lemma pte_of_range pa perm :
  0 <= pa < 2 ^ 32 -> 0 <= perm < 1024 -> 0 <= pte_of pa perm < 2 ^ 30.
Proof.
  intros H Hp. rewrite pte_of_add by done.
  assert (0 <= pa / 4096 < 2 ^ 20)
    by (split; [apply Z.div_pos|apply Z.div_lt_upper_bound]; lia). lia.
Qed.

Lemma PTE2PADDR_pte_of pa perm :
  0 <= pa < 2 ^ 32 -> 0 <= perm < 1024 -> PTE2PADDR (pte_of pa perm) = pa / 4096 * 4096.
Proof.
  intros H Hp. pose proof (pte_of_range pa perm H Hp).
  unfold PTE2PADDR. rewrite (u32_id (pte_of _ _)) by lia.
  rewrite Z.shiftl_mul_pow2 by lia. change (2 ^ 2) with 4.
  rewrite u32_id by lia. rewrite land_not_page by lia.
  rewrite pte_of_add by done. f_equal.
  replace ((pa / 4096 * 1024 + perm) * 4) with (perm * 4 + pa / 4096 * 4096) by lia.
  rewrite Z.div_add, Z.div_small by lia. lia.
Qed.

Lemma PTE_BITS_pte_of pa perm :
  0 <= pa < 2 ^ 32 -> 0 <= perm < 1024 -> PTE_BITS (pte_of pa perm) = perm.
Proof.
  intros H Hp. pose proof (pte_of_range pa perm H Hp).
  unfold PTE_BITS. rewrite u32_id by lia. change 0x3FF with (Z.ones 10).
  rewrite Z.land_ones by lia. rewrite pte_of_add by done.
  rewrite Z.add_comm, Z.mod_add by lia. apply Z.mod_small. lia.
Qed.

Lemma PTE2PADDR_range pte : 0 <= PTE2PADDR pte < 2 ^ 32 /\ PTE2PADDR pte mod 4096 = 0.
Proof.
  unfold PTE2PADDR. pose proof (u32_range (Z.shiftl (u32 pte) 2)) as H.
  rewrite land_not_page by done. split; [|apply Z.mod_mul; lia].
  pose proof (Z.mul_div_le (u32 (Z.shiftl (u32 pte) 2)) 4096).
  pose proof (Z.div_pos (u32 (Z.shiftl (u32 pte) 2)) 4096). lia.
Qed.

(** Flag tests on an assembled entry. *)
Lemma pte_of_flag pa perm f :
  0 <= f < 1024 -> Z.land (pte_of pa perm) f = Z.land perm f.
Proof.
  intros Hf. unfold pte_of. rewrite Z.land_lor_distr_l.
  rewrite (land_low _ _ 10), Z.lor_0_l; [done|lia| |lia]. apply Z.mod_mul. lia.
Qed.

(** Setting flag bits of small permission words stays small. *)
Lemma lor_lt_pow2 a b k :
  0 <= k -> 0 <= a < 2 ^ k -> 0 <= b < 2 ^ k -> 0 <= Z.lor a b < 2 ^ k.
Proof.
  intros Hk Ha Hb. split; [apply Z.lor_nonneg; lia|].
  destruct (decide (Z.lor a b = 0)) as [->|Hne]; [lia|].
  apply Z.log2_lt_pow2; [pose proof (Z.lor_nonneg a b); lia|].
  rewrite Z.log2_lor by lia.
  destruct (decide (a = 0)) as [->|]; destruct (decide (b = 0)) as [->|].
  - done.
  - rewrite Z.max_r by (apply Z.log2_nonneg). apply Z.log2_lt_pow2; lia.
  - rewrite Z.max_l by (apply Z.log2_nonneg). apply Z.log2_lt_pow2; lia.
  - apply Z.max_lub_lt; apply Z.log2_lt_pow2; lia.
Qed.

Lemma truthy_lor_l a b f : truthy (Z.land a f) = true -> truthy (Z.land (Z.lor a b) f) = true.
Proof.
  unfold truthy. rewrite Z.land_lor_distr_l, !negb_true_iff, !Z.eqb_neq.
  intros H H0. apply Z.lor_eq_0_iff in H0 as [? ?]. done.
Qed.

Lemma truthy_lor_r a b f : truthy (Z.land b f) = true -> truthy (Z.land (Z.lor a b) f) = true.
Proof. rewrite Z.lor_comm. apply truthy_lor_l. Qed.

(** [PTE2PADDR] reads the page number, whatever the flags. *)
Lemma land_u32 x m : 0 <= m < 2 ^ 32 -> Z.land x m = Z.land (u32 x) m.
Proof.
  intros Hm. unfold u32. rewrite <- Z.land_ones, <- Z.land_assoc by lia. f_equal.
  rewrite Z.land_comm, Z.land_ones by lia. symmetry. apply Z.mod_small. lia.
Qed.

Lemma PTE2PADDR_div e : PTE2PADDR e = u32 e / 1024 mod 2 ^ 20 * 4096.
Proof.
  unfold PTE2PADDR. pose proof (u32_range (Z.shiftl (u32 e) 2)).
  rewrite land_not_page by done. f_equal. unfold u32 at 1.
  rewrite Z.shiftl_mul_pow2 by lia. change (2 ^ 32) with (4096 * 2 ^ 20).
  rewrite Z.rem_mul_r by lia. rewrite (Z.mul_comm 4096).
  rewrite Z.div_add by lia. rewrite (Z.div_small (_ mod _)) by (apply Z.mod_pos_bound; lia).
  rewrite Z.add_0_l. f_equal. change (2 ^ 2) with 4. change 4096 with (1024 * 4).
  by rewrite Z.div_mul_cancel_r by lia.
Qed.

(** Replacing the flags of an entry keeps its page. *)
Lemma PTE2PADDR_reflag e x :
  0 <= x < 1024 -> PTE2PADDR (Z.lor (Z.land e (not32 0x3FF)) x) = PTE2PADDR e.
Proof.
  intros Hx. rewrite !PTE2PADDR_div. do 2 f_equal.
  rewrite land_u32 by (by vm_compute). pose proof (u32_range e) as Hr.
  rewrite land_not_flags by done.
  rewrite (lor_low _ _ 10) by (lia || (apply Z.mod_mul; lia)).
  assert (u32 e / 1024 * 1024 <= u32 e) by (rewrite Z.mul_comm; apply Z.mul_div_le; lia).
  assert (0 <= u32 e / 1024 < 2 ^ 22)
    by (split; [apply Z.div_pos|apply Z.div_lt_upper_bound]; lia).
  rewrite (u32_id (_ + _)) by lia.
  rewrite Z.add_comm, Z.div_add, Z.div_small by lia. done.
Qed.

Lemma PTE_BITS_reflag e x :
  0 <= x < 1024 -> PTE_BITS (Z.lor (Z.land e (not32 0x3FF)) x) = x.
Proof.
  intros Hx. unfold PTE_BITS. rewrite <- land_u32 by lia.
  rewrite Z.land_lor_distr_l, <- Z.land_assoc.
  change (Z.land (not32 0x3FF) 0x3FF) with 0. rewrite Z.land_0_r, Z.lor_0_l.
  change 0x3FF with (Z.ones 10). rewrite Z.land_ones by lia. apply Z.mod_small. lia.
Qed.
