(* ===== verification/Pmap.v ===== *)
(** * Physical pages and page tables (kern/pmap.c, include/pmap.h)

    A [struct Page *] is its index in the array [pages]; the free list is the
    pointer structure of Queue.v over those indices.  Physical memory is a
    function from the address of an aligned word to the word; a kernel access
    outside [KSEG0, KSEG0 + npage * BY2PG) is a [Fault]. *)
From S2P Require Import Prelude Queue Mmu.

(** ** State: the globals of pmap.c, the page descriptors and the memory *)
Record pmst : Type := mkPm {
  memsize : Z;
  npage : Z;
  kbasepgdir : Z;
  cur_pgdir : Z;
  pages : Z;
  freemem : Z;
  page_free_list : LIST;
  pp_ref : Z -> Z;
  mem : Z -> Z;
  tlb_log : list (Z * Z);
  csr_satp : Z;
  csr_sum : bool
}.

Definition set_memsize (v : Z) (s : pmst) : pmst :=
  mkPm v (npage s) (kbasepgdir s) (cur_pgdir s) (pages s) (freemem s) (page_free_list s) (pp_ref s) (mem s) (tlb_log s) (csr_satp s) (csr_sum s).
Definition set_npage (v : Z) (s : pmst) : pmst :=
  mkPm (memsize s) v (kbasepgdir s) (cur_pgdir s) (pages s) (freemem s) (page_free_list s) (pp_ref s) (mem s) (tlb_log s) (csr_satp s) (csr_sum s).
Definition set_kbasepgdir (v : Z) (s : pmst) : pmst :=
  mkPm (memsize s) (npage s) v (cur_pgdir s) (pages s) (freemem s) (page_free_list s) (pp_ref s) (mem s) (tlb_log s) (csr_satp s) (csr_sum s).
Definition set_cur_pgdir (v : Z) (s : pmst) : pmst :=
  mkPm (memsize s) (npage s) (kbasepgdir s) v (pages s) (freemem s) (page_free_list s) (pp_ref s) (mem s) (tlb_log s) (csr_satp s) (csr_sum s).
Definition set_pages (v : Z) (s : pmst) : pmst :=
  mkPm (memsize s) (npage s) (kbasepgdir s) (cur_pgdir s) v (freemem s) (page_free_list s) (pp_ref s) (mem s) (tlb_log s) (csr_satp s) (csr_sum s).
Definition set_freemem (v : Z) (s : pmst) : pmst :=
  mkPm (memsize s) (npage s) (kbasepgdir s) (cur_pgdir s) (pages s) v (page_free_list s) (pp_ref s) (mem s) (tlb_log s) (csr_satp s) (csr_sum s).
Definition set_page_free_list (v : LIST) (s : pmst) : pmst :=
  mkPm (memsize s) (npage s) (kbasepgdir s) (cur_pgdir s) (pages s) (freemem s) v (pp_ref s) (mem s) (tlb_log s) (csr_satp s) (csr_sum s).
Definition set_pp_ref (v : Z -> Z) (s : pmst) : pmst :=
  mkPm (memsize s) (npage s) (kbasepgdir s) (cur_pgdir s) (pages s) (freemem s) (page_free_list s) v (mem s) (tlb_log s) (csr_satp s) (csr_sum s).
Definition set_mem (v : Z -> Z) (s : pmst) : pmst :=
  mkPm (memsize s) (npage s) (kbasepgdir s) (cur_pgdir s) (pages s) (freemem s) (page_free_list s) (pp_ref s) v (tlb_log s) (csr_satp s) (csr_sum s).
Definition set_tlb_log (v : list (Z * Z)) (s : pmst) : pmst :=
  mkPm (memsize s) (npage s) (kbasepgdir s) (cur_pgdir s) (pages s) (freemem s) (page_free_list s) (pp_ref s) (mem s) v (csr_satp s) (csr_sum s).
Definition set_csr_satp (v : Z) (s : pmst) : pmst :=
  mkPm (memsize s) (npage s) (kbasepgdir s) (cur_pgdir s) (pages s) (freemem s) (page_free_list s) (pp_ref s) (mem s) (tlb_log s) v (csr_sum s).
Definition set_csr_sum (v : bool) (s : pmst) : pmst :=
  mkPm (memsize s) (npage s) (kbasepgdir s) (cur_pgdir s) (pages s) (freemem s) (page_free_list s) (pp_ref s) (mem s) (tlb_log s) (csr_satp s) v.

Abbreviation PM := (M pmst).

Definition PPNOFFSET : Z := 0x80000.
(** [sizeof(struct Page)]: two pointers and a padded [u_short]. *)
Definition SIZEOF_PAGE : Z := 12.

(** ** Memory accesses of the kernel *)
Definition in_ram (s : pmst) (a : Z) : bool :=
  (KSEG0 <=? a) && (a <? KSEG0 + npage s * BY2PG) && (a mod 4 =? 0).

Definition ld (a : Z) : PM Z := fun s => if in_ram s a then Ret (mem s a) s else Fault.
Definition st (a v : Z) : PM unit := fun s =>
  if in_ram s a then Ret tt (set_mem (upd (mem s) a v) s) else Fault.

(** [memset((void * )a, 0, n)] on whole words. *)
Definition zero_range (a n : Z) (m : Z -> Z) : Z -> Z := fun x =>
  if (a <=? x) && (x <? a + n) then 0 else m x.
Definition memset0 (a n : Z) : PM unit := modify (fun s => set_mem (zero_range a n (mem s)) s).

(** [memcpy((void * )dst, (void * )src, n)] on whole words, for ranges that
    do not overlap. *)
Definition copy_range (dst src n : Z) (m : Z -> Z) : Z -> Z := fun x =>
  if (dst <=? x) && (x <? dst + n) then m (x - dst + src) else m x.
Definition memcpy_words (dst src n : Z) : PM unit :=
  modify (fun s => set_mem (copy_range dst src n (mem s)) s).

Definition set_ref (pp v : Z) : PM unit := modify (fun s => set_pp_ref (upd (pp_ref s) pp v) s).

Definition tlb_invalidate (asid va : Z) : PM unit :=
  modify (fun s => set_tlb_log ((asid, va) :: tlb_log s) s).

(** ** Page numbers *)
Definition page2ppn (pp : Z) : Z := pp + PPNOFFSET.
Definition page2pa (pp : Z) : Z := u32 (Z.shiftl (page2ppn pp) PGSHIFT).
Definition page2kva (pp : Z) : Z := page2pa pp.
Definition pa2page (pa : Z) : PM Z := fun s =>
  let ppn := u32 (PPN pa - PPNOFFSET) in
  if npage s <=? ppn then Panic "pa2page called with invalid pa" s else Ret ppn s.
Definition KADDR (pa : Z) : PM Z := fun s =>
  let ppn := u32 (PPN pa - PPNOFFSET) in
  if npage s <=? ppn then Panic "KADDR called with invalid pa" s else Ret pa s.

(** [va2pa] of include/pmap.h; [~0] when unmapped. *)
Definition va2pa (pgdir va : Z) : PM Z :=
  let! pde := ld (pgdir + 4 * PDX va) in
  if negb (truthy (Z.land pde PTE_V)) then ret (not32 0)
  else
    let p := PTE2PADDR pde in
    let! pte := ld (p + 4 * PTX va) in
    if negb (truthy (Z.land pte PTE_V)) then ret (not32 0)
    else ret (PTE2PADDR pte).

(** ** Boot *)

(** [query_mem_size] reads the device tree; its answer is an argument. *)
Definition riscv_detect_memory (mem_size : Z) : PM unit :=
  modify (fun s => set_npage (mem_size / BY2PG) (set_memsize mem_size s)).

(** [alloc(n, align, clear)]; [kend] is the linker's [end]. *)
Definition alloc (kend n align : Z) (clear : bool) : PM Z :=
  let! f0 := gets freemem in
  modify (set_freemem (if f0 =? 0 then kend else f0)) ;!
  let! f1 := gets freemem in
  modify (set_freemem (ROUND f1 align)) ;!
  let! alloced_mem := gets freemem in
  modify (set_freemem (u32 (alloced_mem + n))) ;!
  let! s := get in
  panic_on (if memsize s <=? u32 (freemem s - KSEG0) then 1 else 0) ;!
  (if clear then memset0 alloced_mem n else ret tt) ;!
  ret alloced_mem.

(** The indices of [for (i = lo; i < hi; i += step)]. *)
Definition c_range (lo hi step : Z) : list Z :=
  (fun k => lo + k * step) <$> seqZ 0 ((hi - lo + step - 1) / step).

Definition riscv_vm_init (kend bss_end : Z) : PM unit :=
  c_assert (u32 (bss_end + BY2PG * 16) <=? KSTACKTOP) ;!
  let! n := gets npage in
  let! p := alloc kend (u32 (n * SIZEOF_PAGE)) BY2PG true in
  modify (fun s => set_pages p
    (set_pp_ref (fun _ => 0) (set_page_free_list (mkLIST None (fun _ => LE_ZERO)) s))) ;!
  let! k := alloc kend BY2PG BY2PG true in
  modify (set_kbasepgdir k) ;!
  let! msz := gets memsize in
  forM (c_range KSEG0 (KSEG0 + msz) PDMAP) (fun i =>
    let! pte := PADDR2PTE i in
    st (k + 4 * PDX i)
       (Z.lor pte (Z.lor PTE_G (Z.lor PTE_A (Z.lor PTE_D
         (Z.lor PTE_R (Z.lor PTE_W (Z.lor PTE_X PTE_V)))))))) ;!
  st (k + 4 * PDX KMMIO)
     (Z.lor 0x04000000 (Z.lor PTE_G (Z.lor PTE_A (Z.lor PTE_D
       (Z.lor PTE_R (Z.lor PTE_W PTE_V)))))) ;!
  modify (set_csr_satp (Z.lor 0x80000000 (PPN k))) ;!
  modify (set_csr_sum true).

Definition page_init : PM unit :=
  modify (fun s => set_page_free_list (LIST_INIT (page_free_list s)) s) ;!
  modify (fun s => set_freemem (ROUND (freemem s) BY2PG) s) ;!
  let! s := get in
  let n_used_pages := PPN (freemem s) - PPNOFFSET in
  forM (seqZ 0 n_used_pages) (fun i => set_ref i 1) ;!
  forM (seqZ n_used_pages (npage s - n_used_pages)) (fun i =>
    modify (fun s => set_page_free_list (LIST_INSERT_HEAD i (page_free_list s)) s)).

(** ** Page allocation *)

(** A list macro that may write through a null pointer. *)
Definition free_list_op (f : LIST -> option LIST) : PM unit := fun s =>
  match f (page_free_list s) with
  | Some q => Ret tt (set_page_free_list q s)
  | None => Fault
  end.

Definition page_alloc : PM (result Z) :=
  let! q := gets page_free_list in
  match LIST_FIRST q with
  | None => ret (Err (- E_NO_MEM))
  | Some pp =>
      free_list_op (LIST_REMOVE pp) ;!
      memset0 (page2kva pp) BY2PG ;!
      ret (OK pp)
  end.

Definition page_free (pp : Z) : PM unit :=
  let! s := get in
  c_assert (pp_ref s pp =? 0) ;!
  modify (fun s => set_page_free_list (LIST_INSERT_HEAD pp (page_free_list s)) s).

Definition page_decref (pp : Z) : PM unit :=
  let! s := get in
  c_assert (0 <? pp_ref s pp) ;!
  set_ref pp (u16 (pp_ref s pp - 1)) ;!
  let! s := get in
  if pp_ref s pp =? 0 then page_free pp else ret tt.

(** ** Page tables *)

(** [pgdir_walk(pgdir, va, create, ppte)]: [OK None] is success with
    [*ppte = NULL]. *)
Definition pgdir_walk (pgdir va : Z) (create : bool) : PM (result (option Z)) :=
  let pgdir_entryp := pgdir + 4 * PDX va in
  let! pde := ld pgdir_entryp in
  let walk : PM (result (option Z)) :=
    let! pde := ld pgdir_entryp in
    ret (OK (Some (PTE2PADDR pde + 4 * PTX va))) in
  if negb (truthy (Z.land pde PTE_V)) then
    if create then
      try! pp := page_alloc in
      set_ref pp 1 ;!
      let! pte := PADDR2PTE (page2pa pp) in
      st pgdir_entryp (Z.lor pte PTE_V) ;!
      walk
    else ret (OK None)
  else walk.

(** [page_lookup]: the page and the address of its entry. *)
Definition page_lookup (pgdir va : Z) : PM (option (Z * Z)) :=
  let! r := pgdir_walk pgdir va false in
  match r with
  | OK (Some pte) =>
      let! e := ld pte in
      if Z.land e PTE_V =? 0 then ret None
      else let! pp := pa2page (PTE2PADDR e) in ret (Some (pp, pte))
  | _ => ret None
  end.

Definition page_remove (pgdir asid va : Z) : PM unit :=
  let! r := page_lookup pgdir va in
  match r with
  | None => ret tt
  | Some (pp, pte) =>
      page_decref pp ;!
      st pte 0 ;!
      tlb_invalidate asid va
  end.

(** The entry bits [page_insert] adds to the caller's [perm]. *)
Definition PTE_LEAF : Z := Z.lor PTE_A (Z.lor PTE_D (Z.lor PTE_R PTE_V)).

(** Steps 3 and 4 of [page_insert]: get or create the entry, fill it. *)
Definition insert_new (pgdir asid pp va perm : Z) : PM Z :=
  let! r := pgdir_walk pgdir va true in
  match r with
  | Err e => ret e
  | OK None => fault
  | OK (Some pte) =>
      let! s := get in
      set_ref pp (u16 (pp_ref s pp + 1)) ;!
      let! e := PADDR2PTE (page2pa pp) in
      st pte (Z.lor (Z.lor e perm) PTE_LEAF) ;!
      tlb_invalidate asid va ;!
      ret 0
  end.

Definition page_insert (pgdir asid pp va perm : Z) : PM Z :=
  if ULIM <=? va then panic "trying to map the kernel space"
  else
    let! r := pgdir_walk pgdir va false in
    match r with
    | OK (Some pte) =>
        let! e := ld pte in
        if truthy (Z.land e PTE_V) then
          let! old := pa2page (PTE2PADDR e) in
          if negb (old =? pp) then
            page_remove pgdir asid va ;!
            insert_new pgdir asid pp va perm
          else
            st pte (Z.lor (Z.lor (Z.land e (not32 0x3FF)) perm) PTE_LEAF) ;!
            tlb_invalidate asid va ;!
            ret 0
        else insert_new pgdir asid pp va perm
    | _ => insert_new pgdir asid pp va perm
    end.

(** ** Page faults *)
Definition passive_alloc (va pgdir asid : Z) : PM unit :=
  (if va <? UTEMP then panic "address too low" else ret tt) ;!
  (if (USTACKTOP <=? va) && (va <? USTACKTOP + BY2PG) then panic "invalid memory" else ret tt) ;!
  (if (UENVS <=? va) && (va <? UPAGES) then panic "envs zone" else ret tt) ;!
  (if (UPAGES <=? va) && (va <? UVPT) then panic "pages zone" else ret tt) ;!
  (if ULIM <=? va then panic "kernel address" else ret tt) ;!
  let! r := page_alloc in
  match r with
  | Err _ => panic "panic_on"
  | OK p =>
      let! r := page_insert pgdir asid p va (Z.lor PTE_W PTE_U) in
      panic_on r
  end.

Definition _do_tlb_refill (va asid : Z) : PM unit :=
  let! s := get in
  let! r := page_lookup (cur_pgdir s) va in
  match r with
  | None => passive_alloc va (cur_pgdir s) asid
  | Some _ => ret tt
  end.
