(* ===== verification/PmapFacts.v ===== *)
(** * Page tables as maps: what the operations of Pmap.v compute

    Address arithmetic of page frames, the entry a virtual address has in a
    page directory, and the result of each page table operation on it. *)
From S2P Require Import Prelude Queue Mmu Pmap.

(** [pte & PTE_V] *)
Definition valid (e : Z) : bool := truthy (Z.land e PTE_V).

(** The page an entry points to, as [pa2page(PTE2PADDR(e))] computes it. *)
Definition epage (e : Z) : Z := u32 (PPN (PTE2PADDR e) - PPNOFFSET).

(** The RAM [KSEG0, KSEG0 + npage * BY2PG) fits the 32-bit address space. *)
Definition ram_ok (s : pmst) : Prop := 0 <= npage s <= 0x80000.
Definition is_page (s : pmst) (p : Z) : Prop := 0 <= p < npage s.

Section Frames.
Context (s : pmst) (Hram : ram_ok s).

Lemma page2pa_eq p : is_page s p -> page2pa p = KSEG0 + p * 4096.
Proof using Hram.
  unfold is_page, ram_ok in *. intros H. unfold page2pa, page2ppn, PPNOFFSET, PGSHIFT, KSEG0.
  rewrite Z.shiftl_mul_pow2 by lia. change (2 ^ 12) with 4096. rewrite u32_id; lia.
Qed.

Lemma page2pa_range p :
  is_page s p -> KSEG0 <= page2pa p /\ page2pa p + 4096 <= 2 ^ 32 /\
                 page2pa p mod 4096 = 0 /\ page2pa p / 4096 = p + PPNOFFSET.
Proof using Hram.
  intros H. rewrite page2pa_eq by done. unfold is_page, ram_ok, KSEG0, PPNOFFSET in *.
  replace (0x80000000 + p * 4096) with ((p + 0x80000) * 4096) by lia.
  rewrite Z.div_mul, Z.mod_mul by lia. lia.
Qed.

Lemma in_ram_entry p i :
  is_page s p -> 0 <= i < 1024 -> in_ram s (page2pa p + 4 * i) = true.
Proof using Hram.
  intros Hp Hi. unfold in_ram. rewrite page2pa_eq by done.
  unfold is_page, KSEG0, BY2PG in *.
  rewrite !andb_true_iff, Z.leb_le, Z.ltb_lt, Z.eqb_eq. split_and!; try lia.
  replace (0x80000000 + p * 4096 + 4 * i) with ((0x20000000 + p * 1024 + i) * 4) by lia.
  apply Z.mod_mul. lia.
Qed.

Lemma frame_inj p q i j :
  is_page s p -> is_page s q -> 0 <= i < 1024 -> 0 <= j < 1024 ->
  page2pa p + 4 * i = page2pa q + 4 * j -> p = q /\ i = j.
Proof using Hram. intros Hp Hq Hi Hj. rewrite !page2pa_eq by done. lia. Qed.

Lemma pa2page_ok e :
  epage e < npage s -> pa2page (PTE2PADDR e) s = Ret (epage e) s.
Proof using Hram.
  intros H. unfold pa2page. fold (epage e).
  destruct (Z.leb_spec (npage s) (epage e)); [lia|done].
Qed.

Lemma pa2page_page p : is_page s p -> pa2page (page2pa p) s = Ret p s.
Proof.
  intros Hp. destruct (page2pa_range p Hp) as (Hk & Hk' & _ & Hdiv).
  unfold pa2page, PPN, KSEG0 in *. rewrite (u32_id (page2pa p)), Z.shiftr_div_pow2 by lia.
  change (2 ^ 12) with 4096. rewrite Hdiv. unfold is_page, ram_ok in *.
  replace (p + PPNOFFSET - PPNOFFSET) with p by lia. rewrite u32_id by lia.
  destruct (Z.leb_spec (npage s) p); [lia|done].
Qed.

Lemma PADDR_page p : is_page s p -> forall s' : pmst, PADDR (page2pa p) s' = Ret (page2pa p) s'.
Proof.
  intros Hp s'. destruct (page2pa_range p Hp) as (Hk & Hk' & _). unfold PADDR, KSEG0, ULIM in *.
  rewrite u32_id by lia. destruct (Z.ltb_spec (page2pa p) 0x80000000); [lia|done].
Qed.

Lemma epage_nonneg e : 0 <= epage e.
Proof. apply u32_range. Qed.

Lemma PTE2PADDR_epage e :
  epage e < npage s -> PTE2PADDR e = page2pa (epage e).
Proof using Hram.
  intros H. destruct (PTE2PADDR_range e) as [Hr Hm].
  assert (Hp : is_page s (epage e)) by (split; [apply epage_nonneg|done]).
  rewrite page2pa_eq by done.
  assert (He : epage e = u32 (PTE2PADDR e / 4096 - PPNOFFSET))
    by (unfold epage; by rewrite PPN_div).
  rewrite He in *. clear He Hp. unfold ram_ok, KSEG0, PPNOFFSET, u32 in *.
  pose proof (Z.div_mod (PTE2PADDR e) 4096).
  assert (0 <= PTE2PADDR e / 4096 < 2 ^ 20)
    by (split; [apply Z.div_pos|apply Z.div_lt_upper_bound]; lia).
  destruct (Z.ltb_spec (PTE2PADDR e / 4096) 0x80000).
  - exfalso. rewrite <- (Z.mod_add _ 1) in H by lia.
    rewrite Z.mod_small in H by lia. lia.
  - rewrite (Z.mod_small (_ - _)) by lia. lia.
Qed.

Lemma epage_pte_of p perm :
  is_page s p -> 0 <= perm < 1024 -> epage (pte_of (page2pa p) perm) = p.
Proof using Hram.
  intros Hp Hperm. destruct (page2pa_range p Hp) as (? & ? & Hm & Hd).
  unfold KSEG0 in *.
  unfold epage. rewrite PTE2PADDR_pte_of by lia.
  rewrite Hd. unfold is_page, ram_ok, PPNOFFSET in *.
  rewrite PPN_div by lia. rewrite Z.div_mul, u32_id by lia. lia.
Qed.

Lemma PADDR2PTE_page p : is_page s p -> forall s' : pmst,
  PADDR2PTE (page2pa p) s' = Ret (page2pa p / 4096 * 1024) s'.
Proof using Hram. intros Hp s'. destruct (page2pa_range p Hp) as (? & ? & ? & ?).
  apply PADDR2PTE_ok. lia. Qed.
End Frames.

Lemma PTE_LEAF_valid e : valid (Z.lor e PTE_LEAF) = true.
Proof. apply truthy_lor_r. done. Qed.

Lemma leaf_perm_range perm : 0 <= perm < 1024 -> 0 <= Z.lor perm PTE_LEAF < 1024.
Proof. intros H. apply (lor_lt_pow2 _ _ 10); try lia. by vm_compute. Qed.

(** ** The entry of a virtual address *)

(** The directory entry and, when it is valid, the address of the table
    entry for [va] under the directory in page [d]. *)
Definition pde_addr (d va : Z) : Z := page2pa d + 4 * PDX va.
Definition pte_addr (s : pmst) (d va : Z) : option Z :=
  let pde := mem s (pde_addr d va) in
  if valid pde then Some (PTE2PADDR pde + 4 * PTX va) else None.

(** The valid entry that maps [va], if any: the translation the MMU uses. *)
Definition entry (s : pmst) (d va : Z) : option Z :=
  match pte_addr s d va with
  | Some a => if valid (mem s a) then Some (mem s a) else None
  | None => None
  end.

Section Walk.
Context (s : pmst) (Hram : ram_ok s).

Lemma ld_ok a : in_ram s a = true -> ld a s = Ret (mem s a) s.
Proof. intros H. unfold ld. by rewrite H. Qed.

Lemma st_ok a v : in_ram s a = true -> st a v s = Ret tt (set_mem (upd (mem s) a v) s).
Proof. intros H. unfold st. by rewrite H. Qed.

Lemma pgdir_walk_lookup d va :
  is_page s d -> pgdir_walk (page2pa d) va false s = Ret (OK (pte_addr s d va)) s.
Proof using Hram.
  intros Hd. pose proof (in_ram_entry s Hram d (PDX va) Hd (PDX_range va)) as Hr.
  unfold pgdir_walk. rewrite (bind_step _ _ _ _ _ (ld_ok _ Hr)).
  unfold pte_addr, pde_addr, valid.
  destruct (truthy _); cbn [negb]; [|done].
  by rewrite (bind_step _ _ _ _ _ (ld_ok _ Hr)).
Qed.

Lemma pgdir_walk_existing d va a :
  is_page s d -> pte_addr s d va = Some a ->
  pgdir_walk (page2pa d) va true s = Ret (OK (Some a)) s.
Proof using Hram.
  intros Hd Ha. pose proof (in_ram_entry s Hram d (PDX va) Hd (PDX_range va)) as Hr.
  unfold pgdir_walk. rewrite (bind_step _ _ _ _ _ (ld_ok _ Hr)).
  unfold pte_addr, pde_addr, valid in Ha.
  destruct (truthy _); cbn [negb]; [|done].
  rewrite (bind_step _ _ _ _ _ (ld_ok _ Hr)). unfold ret. naive_solver.
Qed.

(** [page_lookup] finds exactly the valid entry. *)
Lemma page_lookup_spec d va :
  is_page s d ->
  (forall a, pte_addr s d va = Some a -> in_ram s a = true) ->
  (forall e, entry s d va = Some e -> epage e < npage s) ->
  page_lookup (page2pa d) va s =
    Ret (match pte_addr s d va with
         | Some a => if valid (mem s a) then Some (epage (mem s a), a) else None
         | None => None
         end) s.
Proof using Hram.
  intros Hd Hin He. unfold page_lookup.
  rewrite (bind_step _ _ _ _ _ (pgdir_walk_lookup d va Hd)). unfold entry in He.
  destruct (pte_addr s d va) as [a|]; [|done].
  rewrite (bind_step _ _ _ _ _ (ld_ok a (Hin a eq_refl))).
  unfold valid, truthy in *. destruct (Z.land (mem s a) PTE_V =? 0); cbn in *; [done|].
  by rewrite (bind_step _ _ _ _ _ (pa2page_ok s Hram _ (He _ eq_refl))).
Qed.
End Walk.
