(* ===== verification/PmapInv.v ===== *)
(** * Reference counts and page ownership

    The invariant of the physical memory manager over a set [D] of user page
    directories: which pages are directories, page tables, mapped, free, and
    that [pp_ref] counts exactly the references.  Its consequence is that no
    page an address space can reach is on the free list; the lemmas of this
    file say that the operations of Pmap.v preserve it. *)
From S2P Require Import Prelude Queue Mmu Pmap PmapFacts.

(** ** Counting over a list *)
Definition cnt (f : Z -> bool) (l : list Z) : Z :=
  foldr (fun x acc => Z.b2z (f x) + acc) 0 l.

Lemma cnt_cons f x l : cnt f (x :: l) = Z.b2z (f x) + cnt f l.
Proof. done. Qed.

Lemma cnt_nonneg f l : 0 <= cnt f l.
Proof. induction l as [|x l]; rewrite ?cnt_cons; [done|]. destruct (f x); cbn [Z.b2z]; lia. Qed.

Lemma cnt_app f l1 l2 : cnt f (l1 ++ l2) = cnt f l1 + cnt f l2.
Proof. induction l1 as [|x l1 IH]; [done|]. rewrite <- app_comm_cons, !cnt_cons. lia. Qed.

#[global] Instance cnt_perm f : Proper ((≡ₚ) ==> (=)) (cnt f).
Proof. intros l1 l2 H. induction H; rewrite ?cnt_cons; lia. Qed.

Lemma cnt_ext f g l : (forall x, x ∈ l -> f x = g x) -> cnt f l = cnt g l.
Proof.
  induction l as [|x l IH]; intros H; [done|].
  rewrite !cnt_cons, (H x), IH by set_solver. done.
Qed.

Lemma cnt_zero f l : (forall x, x ∈ l -> f x = false) -> cnt f l = 0.
Proof.
  induction l as [|x l IH]; intros H; [done|].
  rewrite cnt_cons, (H x), IH by set_solver. done.
Qed.

Lemma cnt_pos f l x : x ∈ l -> f x = true -> 1 <= cnt f l.
Proof.
  induction l as [|y l IH]; intros Hx Hf; [set_solver|]. rewrite cnt_cons.
  pose proof (cnt_nonneg f l). apply elem_of_cons in Hx as [->|Hx].
  - rewrite Hf. cbn [Z.b2z]. lia.
  - specialize (IH Hx Hf). destruct (f y); cbn [Z.b2z]; lia.
Qed.

(** Changing the predicate at one element. *)
Lemma cnt_change f g l a :
  NoDup l -> a ∈ l -> (forall x, x ∈ l -> x <> a -> g x = f x) ->
  cnt g l = cnt f l - Z.b2z (f a) + Z.b2z (g a).
Proof.
  induction l as [|y l IH]; intros Hnd Ha Hfg; [set_solver|].
  apply NoDup_cons in Hnd as [Hy Hnd]. rewrite !cnt_cons.
  apply elem_of_cons in Ha as [->|Ha].
  - rewrite (cnt_ext g f l); [lia|]. intros x Hx. apply Hfg; [set_solver|].
    intros ->. done.
  - rewrite IH; [|done|done|set_solver].
    rewrite (Hfg y); [lia|set_solver|]. intros ->. done.
Qed.

Lemma omap_ext_in {A} (f g : A -> option Z) (l : list A) :
  (forall y, y ∈ l -> g y = f y) -> omap g l = omap f l.
Proof.
  induction l as [|y l IH]; intros H; cbn; [done|].
  rewrite (H y), IH by set_solver. done.
Qed.

(** Turning one [None] of a mapped list into a value. *)
Lemma omap_new {A} (f g : A -> option Z) (l : list A) x t :
  NoDup l -> x ∈ l -> f x = None -> g x = Some t ->
  (forall y, y ∈ l -> y <> x -> g y = f y) -> omap g l ≡ₚ t :: omap f l.
Proof.
  induction l as [|y l IH]; intros Hnd Hx Hf Hg Hfg; [set_solver|].
  apply NoDup_cons in Hnd as [Hy Hnd]. apply elem_of_cons in Hx as [->|Hx]; cbn.
  - rewrite Hf, Hg, (omap_ext_in f g l); [done|].
    intros z Hz. apply Hfg; [set_solver|]. by intros ->.
  - rewrite (Hfg y); [|set_solver|by intros ->].
    assert (IH' : omap g l ≡ₚ t :: omap f l)
      by (apply IH; [done..|]; intros; apply Hfg; set_solver).
    destruct (f y); [|done]. rewrite IH'. constructor.
Qed.

(** ** Directories, tables, slots *)

(** The directory entries of the user part of an address space, those
    [env_free] walks. *)
Definition NUPDE : Z := PDX UTOP.

Definition pde (s : pmst) (d i : Z) : Z := mem s (page2pa d + 4 * i).
Definition dslots (D : list Z) : list (Z * Z) := list_prod D (seqZ 0 NUPDE).
Definition table_of (s : pmst) (di : Z * Z) : option Z :=
  let e := pde s di.1 di.2 in if valid e then Some (epage e) else None.

(** The page tables of the directories [D]. *)
Definition tables (s : pmst) (D : list Z) : list Z := omap (table_of s) (dslots D).

(** The addresses of the entries of a list of page tables. *)
Definition table_entries (t : Z) : list Z := (fun j => page2pa t + 4 * j) <$> seqZ 0 1024.
Definition entries (T : list Z) : list Z := T ≫= table_entries.
Definition slots (s : pmst) (D : list Z) : list Z := entries (tables s D).

(** The entry at [a] maps page [p]. *)
Definition maps (s : pmst) (p a : Z) : bool := valid (mem s a) && (epage (mem s a) =? p).

(** The number of references to page [p] as a directory or a table. *)
Definition owns (l : list Z) (p : Z) : Z := Z.b2z (bool_decide (p ∈ l)).

Record pm_inv (boot : Z -> Z) (D fl : list Z) (s : pmst) : Prop := {
  inv_ram : ram_ok s;
  inv_free : list_rep (page_free_list s) fl;
  inv_free_page : forall p, p ∈ fl -> is_page s p;
  inv_free_ref : forall p, p ∈ fl -> pp_ref s p = 0;
  inv_ref16 : forall p, is_page s p -> 0 <= pp_ref s p < 2 ^ 16;
  inv_dirs : NoDup (D ++ tables s D);
  inv_dirs_page : forall p, p ∈ D ++ tables s D -> is_page s p;
  inv_mapped : forall a, a ∈ slots s D -> valid (mem s a) = true ->
    is_page s (epage (mem s a)) /\ epage (mem s a) ∉ D ++ tables s D;
  inv_ref : forall p, is_page s p ->
    pp_ref s p = cnt (maps s p) (slots s D) + owns (D ++ tables s D) p + boot p
}.

#[global] Arguments seqZ : simpl never.

Lemma elem_of_entries T a :
  a ∈ entries T <-> exists t j, t ∈ T /\ 0 <= j < 1024 /\ a = page2pa t + 4 * j.
Proof.
  unfold entries. rewrite list_elem_of_bind. split.
  - intros (t & (j & -> & Hj)%list_elem_of_fmap & Ht). apply elem_of_seqZ in Hj.
    exists t, j. split_and!; (done || lia).
  - intros (t & j & Ht & Hj & ->). exists t. split; [|done].
    apply list_elem_of_fmap. exists j. rewrite elem_of_seqZ. lia.
Qed.

Lemma elem_of_dslots D d i : (d, i) ∈ dslots D <-> d ∈ D /\ 0 <= i < NUPDE.
Proof.
  unfold dslots. rewrite list_elem_of_In, in_prod_iff, <- !list_elem_of_In, elem_of_seqZ.
  naive_solver lia.
Qed.

Lemma NoDup_dslots D : NoDup D -> NoDup (dslots D).
Proof.
  intros HD. unfold dslots. induction HD as [|d D Hd HD IH]; cbn; [constructor|].
  apply NoDup_app. split_and!.
  - apply (NoDup_fmap_2 (pair d)). apply NoDup_seqZ.
  - intros [d' i] Hin%list_elem_of_fmap Hin2. destruct Hin as (? & [= -> ->] & _).
    apply list_elem_of_In, in_prod_iff in Hin2 as [Hin2 _].
    by apply list_elem_of_In in Hin2.
  - done.
Qed.

Lemma elem_of_tables s D t :
  t ∈ tables s D <->
  exists d i, d ∈ D /\ 0 <= i < NUPDE /\ valid (pde s d i) = true /\ t = epage (pde s d i).
Proof.
  unfold tables. rewrite list_elem_of_omap. split.
  - intros ([d i] & Hdi & Ht). apply elem_of_dslots in Hdi as [? ?].
    unfold table_of in Ht; cbn in Ht. exists d, i. destruct (valid _); naive_solver.
  - intros (d & i & Hd & Hi & Hv & ->). exists (d, i). rewrite elem_of_dslots.
    split; [done|]. unfold table_of; cbn. by rewrite Hv.
Qed.

Lemma tables_ext s s' D :
  (forall d i, d ∈ D -> 0 <= i < NUPDE -> pde s' d i = pde s d i) ->
  tables s' D = tables s D.
Proof.
  intros H. unfold tables. apply omap_ext_in. intros [d i] [Hd Hi]%elem_of_dslots.
  unfold table_of; cbn. by rewrite H.
Qed.

Lemma NoDup_entries s T :
  ram_ok s -> (forall t, t ∈ T -> is_page s t) -> NoDup T -> NoDup (entries T).
Proof.
  intros Hram HT. unfold entries. induction 1 as [|t T Ht HTn IH]; cbn; [constructor|].
  apply NoDup_app. split_and!.
  - apply NoDup_fmap_2_strong; [|apply NoDup_seqZ]. intros i j _ _. lia.
  - intros a (j & -> & Hj)%list_elem_of_fmap. apply elem_of_seqZ in Hj.
    intros (t' & j' & Ht' & Hj' & Heq)%elem_of_entries.
    assert (is_page s t /\ is_page s t') as [Hp Hp'] by (split; apply HT, elem_of_cons; auto).
    apply (frame_inj s Hram t t' j j' Hp Hp') in Heq as [-> _]; [done|lia|lia].
  - apply IH. intros t' Ht'. by apply HT, elem_of_cons; right.
Qed.

Lemma owns_cons t l p : t ∉ l -> owns (t :: l) p = Z.b2z (bool_decide (p = t)) + owns l p.
Proof.
  intros Ht. unfold owns. destruct (decide (p = t)) as [->|].
  - rewrite !bool_decide_eq_true_2 by set_solver. by rewrite bool_decide_eq_false_2.
  - rewrite (bool_decide_eq_false_2 (p = t)) by done.
    by rewrite (bool_decide_ext (p ∈ t :: l) (p ∈ l)) by set_solver.
Qed.

Lemma owns_range l p : 0 <= owns l p <= 1.
Proof. unfold owns. destruct (bool_decide _); cbn; lia. Qed.

Lemma owns_in l p : p ∈ l -> owns l p = 1.
Proof. intros H. unfold owns. by rewrite bool_decide_eq_true_2. Qed.

#[global] Instance owns_perm : Proper ((≡ₚ) ==> (=) ==> (=)) owns.
Proof.
  intros l1 l2 H p _ <-. unfold owns. f_equal. apply bool_decide_ext. by rewrite H.
Qed.

Section Consequences.
Context (boot : Z -> Z) (D fl : list Z) (s : pmst) (I : pm_inv boot D fl s).

Lemma inv_dir_page d : d ∈ D -> is_page s d.
Proof. intros H. apply (inv_dirs_page _ _ _ _ I), elem_of_app. by left. Qed.

Lemma inv_table_page t : t ∈ tables s D -> is_page s t.
Proof. intros H. apply (inv_dirs_page _ _ _ _ I), elem_of_app. by right. Qed.

Lemma NoDup_slots : NoDup (slots s D).
Proof.
  pose proof (inv_dirs _ _ _ _ I) as H. apply NoDup_app in H as (_ & _ & H).
  eapply NoDup_entries; [apply (inv_ram _ _ _ _ I)|exact inv_table_page|done].
Qed.

Lemma slot_in_ram a : a ∈ slots s D -> in_ram s a = true.
Proof.
  intros (t & j & Ht & Hj & ->)%elem_of_entries.
  apply in_ram_entry; [apply (inv_ram _ _ _ _ I)|by apply inv_table_page|done].
Qed.

(** A slot is in a page that is not a directory, so writing it leaves every
    directory entry alone. *)
Lemma slot_not_pde a d i :
  a ∈ slots s D -> d ∈ D -> 0 <= i < 1024 -> page2pa d + 4 * i <> a.
Proof.
  intros (t & j & Ht & Hj & ->)%elem_of_entries Hd Hi Heq.
  apply (frame_inj s (inv_ram _ _ _ _ I) _ _ _ _ (inv_dir_page d Hd)
    (inv_table_page t Ht) Hi Hj) in Heq as [-> _].
  pose proof (inv_dirs _ _ _ _ I) as H. apply NoDup_app in H as (_ & H & _).
  by apply (H t).
Qed.

(** Nothing refers to a free page. *)
Lemma free_unreferenced p :
  p ∈ fl -> 0 <= boot p ->
  p ∉ D ++ tables s D /\ (forall a, a ∈ slots s D -> maps s p a = false) /\ boot p = 0.
Proof.
  intros Hp Hb. pose proof (inv_free_ref _ _ _ _ I p Hp) as H0.
  rewrite (inv_ref _ _ _ _ I) in H0 by (by apply (inv_free_page _ _ _ _ I)).
  pose proof (cnt_nonneg (maps s p) (slots s D)).
  pose proof (owns_range (D ++ tables s D) p). split_and!; [| |lia].
  - intros Hin. rewrite (owns_in _ _ Hin) in H0. lia.
  - intros a Ha. destruct (maps s p a) eqn:E; [|done].
    pose proof (cnt_pos _ _ _ Ha E). lia.
Qed.

Lemma NUPDE_bound : NUPDE <= 1024.
Proof. pose proof (PDX_range UTOP). unfold NUPDE. lia. Qed.

(** The table entry of a user address is a slot. *)
Lemma pte_addr_slot d va a :
  d ∈ D -> PDX va < NUPDE -> pte_addr s d va = Some a -> a ∈ slots s D.
Proof.
  intros Hd Hva Ha. unfold pte_addr in Ha. fold (pde s d (PDX va)) in Ha.
  change (mem s (pde_addr d va)) with (pde s d (PDX va)) in Ha.
  destruct (valid (pde s d (PDX va))) eqn:Hv; [|done]. injection Ha as <-.
  pose proof (PDX_range va). pose proof (PTX_range va).
  assert (Ht : epage (pde s d (PDX va)) ∈ tables s D).
  { apply elem_of_tables. exists d, (PDX va). split_and!; (done || lia). }
  apply elem_of_entries. exists (epage (pde s d (PDX va))), (PTX va).
  split_and!; try (done || lia). f_equal. eapply PTE2PADDR_epage.
  - apply (inv_ram _ _ _ _ I).
  - by apply inv_table_page.
Qed.
End Consequences.

(** ** Preservation *)
Lemma pm_inv_boot_ext boot boot' D fl s :
  (forall p, is_page s p -> boot p = boot' p) -> pm_inv boot D fl s -> pm_inv boot' D fl s.
Proof.
  intros Hb []. constructor; try done. intros p Hp. rewrite <- Hb by done. auto.
Qed.

Lemma pm_inv_tlb boot D fl s l : pm_inv boot D fl s -> pm_inv boot D fl (set_tlb_log l s).
Proof. intros []. by constructor. Qed.

Lemma pm_inv_cur_pgdir boot D fl s d : pm_inv boot D fl s -> pm_inv boot D fl (set_cur_pgdir d s).
Proof. intros []. by constructor. Qed.

(** Changing a reference count is accounted for in [boot]. *)
Lemma pm_inv_set_ref boot D fl s p v :
  p ∉ fl -> 0 <= v < 2 ^ 16 -> pm_inv boot D fl s ->
  pm_inv (upd boot p (boot p + (v - pp_ref s p))) D fl (set_pp_ref (upd (pp_ref s) p v) s).
Proof.
  intros Hp Hv []. constructor; try done.
  - intros q Hq. cbn. rewrite upd_other by (intros ->; done). auto.
  - intros q Hq. cbn. unfold upd. destruct (q =? p); [done|by apply inv_ref17].
  - intros q Hq. cbn.
    change (cnt (maps (set_pp_ref _ s) q) _) with (cnt (maps s q) (slots s D)).
    change (tables (set_pp_ref _ s) D) with (tables s D).
    destruct (decide (q = p)) as [->|Hne].
    + rewrite !upd_same. rewrite inv_ref0 by done. lia.
    + rewrite !upd_other by done. auto.
Qed.

Lemma pm_inv_free boot D fl s p :
  p ∉ fl -> is_page s p -> pp_ref s p = 0 -> pm_inv boot D fl s ->
  pm_inv boot D (p :: fl) (set_page_free_list (LIST_INSERT_HEAD p (page_free_list s)) s).
Proof.
  intros Hp Hpp Hr []. constructor; try done; cbn.
  - by apply list_insert_head.
  - intros q [->|?]%elem_of_cons; [done|by apply inv_free_page0].
  - intros q [->|?]%elem_of_cons; [done|by apply inv_free_ref0].
Qed.

(** Writing a page table entry. *)
Lemma pm_inv_write boot D fl s a v :
  a ∈ slots s D ->
  (valid v = true -> is_page s (epage v) /\ epage v ∉ D ++ tables s D) ->
  pm_inv boot D fl s ->
  let s' := set_mem (upd (mem s) a v) s in
  tables s' D = tables s D /\
  pm_inv (fun p => boot p + Z.b2z (maps s p a) - Z.b2z (maps s' p a)) D fl s'.
Proof.
  intros Ha Hv I s'.
  assert (Ht : tables s' D = tables s D).
  { apply tables_ext. intros d i Hd Hi. subst s'. unfold pde; cbn. apply upd_other.
    eapply slot_not_pde; [done..|]. pose proof NUPDE_bound. lia. }
  assert (Hs : slots s' D = slots s D) by (unfold slots; by rewrite Ht).
  split; [done|]. pose proof (NoDup_slots _ _ _ _ I) as Hnd.
  destruct I. constructor; rewrite ?Hs, ?Ht; try done.
  - intros b Hb. subst s'. cbn. destruct (decide (b = a)) as [->|Hne].
    + rewrite upd_same. exact Hv.
    + rewrite upd_other by done. exact (inv_mapped0 b Hb).
  - intros p Hp. rewrite (cnt_change (maps s p) (maps s' p) _ a Hnd Ha).
    + change (pp_ref s' p) with (pp_ref s p). rewrite inv_ref0 by done. lia.
    + intros b Hb Hne. unfold maps; subst s'; cbn. by rewrite upd_other.
Qed.

(** ** Allocating a page *)
Lemma zero_range_in p i m :
  0 <= i < 1024 -> zero_range (page2pa p) BY2PG m (page2pa p + 4 * i) = 0.
Proof.
  intros Hi. unfold zero_range, BY2PG.
  replace (_ && _) with true; [done|]. symmetry. rewrite andb_true_iff, Z.leb_le, Z.ltb_lt. lia.
Qed.

Lemma zero_range_out s p q i m :
  ram_ok s -> is_page s p -> is_page s q -> q <> p -> 0 <= i < 1024 ->
  zero_range (page2pa p) BY2PG m (page2pa q + 4 * i) = m (page2pa q + 4 * i).
Proof.
  intros Hram Hp Hq Hne Hi. unfold zero_range, BY2PG.
  rewrite !(page2pa_eq s Hram) by done.
  replace (_ && _) with false; [done|]. symmetry.
  rewrite andb_false_iff, Z.leb_gt, Z.ltb_ge. lia.
Qed.

Lemma page_alloc_empty s : list_rep (page_free_list s) [] -> page_alloc s = Ret (Err (- E_NO_MEM)) s.
Proof.
  intros H. apply list_rep_first in H. unfold page_alloc. munfold. by rewrite H.
Qed.

Lemma page_alloc_cons s p fl :
  list_rep (page_free_list s) (p :: fl) ->
  exists q, list_rep q fl /\
    page_alloc s = Ret (OK p)
      (set_mem (zero_range (page2pa p) BY2PG (mem s)) (set_page_free_list q s)).
Proof.
  intros H. pose proof (list_rep_first _ _ H) as Hf.
  destruct (list_remove _ _ p [] fl H eq_refl) as (q & Hq & Hrep & _).
  exists q. split; [done|]. unfold page_alloc, free_list_op. munfold. rewrite Hf. cbn.
  by rewrite Hq.
Qed.

(** The state after a successful [page_alloc]. *)
Lemma pm_inv_alloc boot D fl s p q :
  pm_inv boot D (p :: fl) s -> 0 <= boot p -> list_rep q fl ->
  let s' := set_mem (zero_range (page2pa p) BY2PG (mem s)) (set_page_free_list q s) in
  pm_inv boot D fl s' /\ tables s' D = tables s D /\ p ∉ fl /\ is_page s p /\
  p ∉ D ++ tables s D /\ (forall a, a ∈ slots s D -> maps s' p a = false) /\
  (forall r i, is_page s r -> r <> p -> 0 <= i < 1024 ->
     mem s' (page2pa r + 4 * i) = mem s (page2pa r + 4 * i)) /\
  (forall i, 0 <= i < 1024 -> mem s' (page2pa p + 4 * i) = 0) /\
  pp_ref s' = pp_ref s /\ npage s' = npage s /\ pp_ref s p = 0.
Proof.
  intros I Hb Hq s'.
  destruct (free_unreferenced _ _ _ _ I p) as (Hno & Hmaps & _); [apply elem_of_cons; by left|done|].
  assert (Hp : is_page s p) by (apply (inv_free_page _ _ _ _ I), elem_of_cons; by left).
  assert (Hr : pp_ref s p = 0) by (apply (inv_free_ref _ _ _ _ I), elem_of_cons; by left).
  pose proof (inv_ram _ _ _ _ I) as Hram.
  assert (Hfr : forall r i, is_page s r -> r <> p -> 0 <= i < 1024 ->
     mem s' (page2pa r + 4 * i) = mem s (page2pa r + 4 * i))
    by (intros; by apply (zero_range_out s)).
  assert (Ht : tables s' D = tables s D).
  { apply tables_ext. intros d i Hd Hi. apply Hfr.
    - by apply (inv_dir_page _ _ _ _ I).
    - intros ->. apply Hno, elem_of_app. by left.
    - pose proof NUPDE_bound. lia. }
  assert (Hs : slots s' D = slots s D) by (unfold slots; by rewrite Ht).
  assert (Hm : forall a, a ∈ slots s D -> mem s' a = mem s a).
  { intros a (t & j & Htt & Hj & ->)%elem_of_entries. apply Hfr; [|intros ->|done].
    - by apply (inv_table_page _ _ _ _ I).
    - apply Hno, elem_of_app. by right. }
  assert (Hnd : p ∉ fl).
  { pose proof (inv_free _ _ _ _ I) as [Hnd _]. by apply NoDup_cons in Hnd as [? _]. }
  split_and!; try done.
  - destruct I. constructor; rewrite ?Hs, ?Ht; try done.
    + intros r ?. apply inv_free_page0, elem_of_cons. by right.
    + intros r ?. apply inv_free_ref0, elem_of_cons. by right.
    + intros a Ha. rewrite Hm by done. by apply inv_mapped0.
    + intros r Hr'. change (pp_ref s' r) with (pp_ref s r). rewrite inv_ref0 by done.
      do 2 f_equal. apply cnt_ext. intros a Ha. unfold maps. by rewrite Hm.
  - intros a Ha. unfold maps. rewrite Hm by done. by apply Hmaps.
  - intros i Hi. by apply zero_range_in.
Qed.

(** ** Installing a page table *)
Lemma pm_inv_add_table boot D fl s d i t :
  pm_inv boot D fl s -> t ∉ fl -> is_page s t -> t ∉ D ++ tables s D ->
  (forall a, a ∈ slots s D -> maps s t a = false) ->
  (forall j, 0 <= j < 1024 -> mem s (page2pa t + 4 * j) = 0) ->
  d ∈ D -> 0 <= i < NUPDE -> valid (pde s d i) = false ->
  let s' := set_mem (upd (mem s) (page2pa d + 4 * i) (pte_of (page2pa t) PTE_V)) s in
  pm_inv (upd boot t (boot t - 1)) D fl s' /\ tables s' D ≡ₚ t :: tables s D.
Proof.
  intros I Htf Htp Htn Hnm Hz Hd Hi Hinv s'.
  pose proof (inv_ram _ _ _ _ I) as Hram. pose proof NUPDE_bound as HN.
  set (a := page2pa d + 4 * i) in *. set (e := pte_of (page2pa t) PTE_V) in *.
  assert (Hdp : is_page s d) by (by apply (inv_dir_page _ _ _ _ I)).
  assert (He : valid e = true /\ epage e = t).
  { split; [unfold valid, e; by rewrite pte_of_flag by (by vm_compute)|].
    by apply (epage_pte_of s). }
  assert (Hpde : forall d' i', d' ∈ D -> 0 <= i' < NUPDE -> (d', i') <> (d, i) ->
            pde s' d' i' = pde s d' i').
  { intros d' i' Hd' Hi' Hne. unfold pde, s'; cbn. apply upd_other. intros Heq.
    apply (frame_inj s Hram) in Heq as [-> ->]; [done| |done|lia|lia].
    by apply (inv_dir_page _ _ _ _ I). }
  assert (HD : NoDup D) by (pose proof (inv_dirs _ _ _ _ I) as H; by apply NoDup_app in H as [? _]).
  assert (Ht : tables s' D ≡ₚ t :: tables s D).
  { apply (omap_new _ _ _ (d, i)); [by apply NoDup_dslots|by apply elem_of_dslots| | |].
    - unfold table_of; cbn. by rewrite Hinv.
    - unfold table_of, pde, s'; cbn. fold a. rewrite upd_same.
      destruct He as [-> ->]. done.
    - intros [d' i'] [Hd' Hi']%elem_of_dslots Hne. unfold table_of.
      cbn [fst snd]. by rewrite Hpde. }
  assert (HDt : D ++ tables s' D ≡ₚ t :: (D ++ tables s D))
    by (rewrite Ht; by rewrite Permutation_middle).
  assert (Hs : slots s' D ≡ₚ table_entries t ++ slots s D)
    by (unfold slots, entries; by rewrite Ht).
  assert (Hmem : forall x, x ∈ slots s D -> mem s' x = mem s x).
  { intros x Hx. unfold s'; cbn. apply upd_other. intros ->.
    apply (slot_not_pde _ _ _ _ I a d i Hx Hd); [lia|done]. }
  assert (Hmt : forall j, 0 <= j < 1024 -> mem s' (page2pa t + 4 * j) = 0).
  { intros j Hj. unfold s'; cbn. rewrite upd_other; [by apply Hz|]. intros Heq.
    apply (frame_inj s Hram) in Heq as [-> _]; [|done..|lia].
    apply Htn, elem_of_app. by left. }
  split; [|done]. destruct I. constructor; try done.
  - rewrite HDt. by constructor.
  - intros p. rewrite HDt. intros [->|Hp]%elem_of_cons; [done|by apply inv_dirs_page0].
  - intros x. rewrite Hs. rewrite HDt. intros [Hx|Hx]%elem_of_app.
    + apply list_elem_of_fmap in Hx as (j & -> & Hj). apply elem_of_seqZ in Hj.
      rewrite Hmt by lia. done.
    + rewrite Hmem by done. intros Hv. destruct (inv_mapped0 x Hx Hv) as [Hp Hn].
      split; [done|]. rewrite elem_of_cons. intros [Hxt|?]; [|done].
      specialize (Hnm x Hx). unfold maps in Hnm. rewrite Hv, Hxt, Z.eqb_refl in Hnm. done.
  - intros p Hp.
    pose proof (cnt_perm (maps s' p) _ _ Hs) as Hc. rewrite cnt_app in Hc.
    rewrite (cnt_zero (maps s' p) (table_entries t)) in Hc.
    2: { intros x (j & -> & Hj)%list_elem_of_fmap. apply elem_of_seqZ in Hj.
         unfold maps. by rewrite Hmt by lia. }
    rewrite (cnt_ext (maps s' p) (maps s p) (slots s D)) in Hc
      by (intros x Hx; unfold maps; by rewrite Hmem).
    pose proof (owns_perm _ _ HDt p p eq_refl) as Ho. rewrite owns_cons in Ho by exact Htn.
    rewrite Hc, Ho. change (pp_ref s' p) with (pp_ref s p). rewrite inv_ref0 by exact Hp.
    destruct (decide (p = t)) as [->|Hne].
    + rewrite bool_decide_eq_true_2, upd_same by reflexivity. cbn [Z.b2z]. lia.
    + rewrite bool_decide_eq_false_2, upd_other by exact Hne. cbn [Z.b2z]. lia.
Qed.
