(* ===== verification/PmapSpec.v ===== *)
(** * What the page operations do, and that they keep the invariant *)
From S2P Require Import Prelude Queue Mmu Pmap PmapFacts PmapInv.

(** Two user addresses have the same slot in the same directory. *)
Definition same_slot (d va d' va' : Z) : Prop := d = d' /\ PDX va = PDX va' /\ PTX va = PTX va'.

Lemma omap_NoDup_inj {A} (f : A -> option Z) (l : list A) x y t :
  NoDup (omap f l) -> x ∈ l -> y ∈ l -> f x = Some t -> f y = Some t -> x = y.
Proof.
  induction l as [|z l IH]; intros Hnd Hx Hy Hfx Hfy; [by apply elem_of_nil in Hx|].
  cbn in Hnd. apply elem_of_cons in Hx. apply elem_of_cons in Hy.
  assert (Hin : forall w, w ∈ l -> f w = Some t -> t ∈ omap f l)
    by (intros w ? ?; apply list_elem_of_omap; eauto).
  destruct Hx as [->|Hx], Hy as [->|Hy]; [done| | |].
  - rewrite Hfx in Hnd. apply NoDup_cons in Hnd as [Hn _]. exfalso. eauto.
  - rewrite Hfy in Hnd. apply NoDup_cons in Hnd as [Hn _]. exfalso. eauto.
  - apply IH; try done. destruct (f z); [by apply NoDup_cons in Hnd as [_ ?]|done].
Qed.

Section Slots.
Context (boot : Z -> Z) (D fl : list Z) (s : pmst) (I : pm_inv boot D fl s).

Lemma pte_addr_inj d va d' va' a :
  d ∈ D -> d' ∈ D -> PDX va < NUPDE -> PDX va' < NUPDE ->
  pte_addr s d va = Some a -> pte_addr s d' va' = Some a -> same_slot d va d' va'.
Proof.
  intros Hd Hd' Hva Hva' Ha Ha'. unfold pte_addr in *.
  change (mem s (pde_addr d va)) with (pde s d (PDX va)) in Ha.
  change (mem s (pde_addr d' va')) with (pde s d' (PDX va')) in Ha'.
  destruct (valid (pde s d (PDX va))) eqn:Hv; [|done].
  destruct (valid (pde s d' (PDX va'))) eqn:Hv'; [|done].
  injection Ha as <-. injection Ha' as Ha'.
  pose proof (PDX_range va). pose proof (PDX_range va').
  assert (Hin : (d, PDX va) ∈ dslots D) by (apply elem_of_dslots; split; [done|lia]).
  assert (Hin' : (d', PDX va') ∈ dslots D) by (apply elem_of_dslots; split; [done|lia]).
  assert (Ht : table_of s (d, PDX va) = Some (epage (pde s d (PDX va))))
    by (unfold table_of; cbn; by rewrite Hv).
  assert (Ht' : table_of s (d', PDX va') = Some (epage (pde s d' (PDX va'))))
    by (unfold table_of; cbn; by rewrite Hv').
  assert (Hp : is_page s (epage (pde s d (PDX va))))
    by (apply (inv_table_page _ _ _ _ I), list_elem_of_omap; eauto).
  assert (Hp' : is_page s (epage (pde s d' (PDX va'))))
    by (apply (inv_table_page _ _ _ _ I), list_elem_of_omap; eauto).
  pose proof (inv_ram _ _ _ _ I) as Hram.
  rewrite (PTE2PADDR_epage s Hram (pde s d (PDX va))) in Ha' by (by destruct Hp).
  rewrite (PTE2PADDR_epage s Hram (pde s d' (PDX va'))) in Ha' by (by destruct Hp').
  pose proof (frame_inj s Hram _ _ _ _ Hp' Hp (PTX_range va') (PTX_range va) Ha') as [He Hx].
  pose proof (inv_dirs _ _ _ _ I) as Hnd. apply NoDup_app in Hnd as (_ & _ & Hnd).
  rewrite He in Ht'.
  pose proof (omap_NoDup_inj _ _ _ _ _ Hnd Hin Hin' Ht Ht') as [= ? ?]. done.
Qed.

(** Writing the slot of [va] changes the entry of [va] and of no other
    user address. *)
Lemma write_entry d va a v :
  d ∈ D -> PDX va < NUPDE -> pte_addr s d va = Some a ->
  let s' := set_mem (upd (mem s) a v) s in
  entry s' d va = (if valid v then Some v else None) /\
  (forall d' va', d' ∈ D -> PDX va' < NUPDE -> ~ same_slot d va d' va' ->
     entry s' d' va' = entry s d' va') /\
  (forall d' va', d' ∈ D -> PDX va' < NUPDE -> pte_addr s' d' va' = pte_addr s d' va').
Proof.
  intros Hd Hva Ha s'.
  pose proof (pte_addr_slot _ _ _ _ I d va a Hd Hva Ha) as Hslot.
  assert (Hpa : forall d' va', d' ∈ D -> PDX va' < NUPDE ->
            pte_addr s' d' va' = pte_addr s d' va').
  { intros d' va' Hd' _. unfold pte_addr, s'; cbn. unfold pde_addr.
    rewrite !(upd_other _ a); [done|].
    apply (slot_not_pde _ _ _ _ I a d' _ Hslot Hd'), PDX_range. }
  split_and!; [| |done].
  - unfold entry. rewrite Hpa, Ha by done. unfold s'; cbn. by rewrite upd_same.
  - intros d' va' Hd' Hva' Hns. unfold entry. rewrite Hpa by done.
    destruct (pte_addr s d' va') as [b|] eqn:Hb; [|done].
    unfold s'; cbn. rewrite upd_other; [done|]. intros ->. apply Hns.
    by apply (pte_addr_inj d va d' va' a).
Qed.

Lemma entry_mapped d va e :
  d ∈ D -> PDX va < NUPDE -> entry s d va = Some e ->
  exists a, pte_addr s d va = Some a /\ a ∈ slots s D /\ mem s a = e /\ valid e = true /\
    is_page s (epage e) /\ epage e ∉ D ++ tables s D.
Proof.
  intros Hd Hva He. unfold entry in He.
  destruct (pte_addr s d va) as [a|] eqn:Ha; [|done].
  pose proof (pte_addr_slot _ _ _ _ I d va a Hd Hva Ha) as Hs.
  destruct (valid (mem s a)) eqn:Hv; [|done]. injection He as <-.
  destruct (inv_mapped _ _ _ _ I a Hs Hv). exists a. by split_and!.
Qed.

Lemma lookup_ok d va :
  d ∈ D -> PDX va < NUPDE ->
  page_lookup (page2pa d) va s =
    Ret (match pte_addr s d va with
         | Some a => if valid (mem s a) then Some (epage (mem s a), a) else None
         | None => None
         end) s.
Proof.
  intros Hd Hva. apply page_lookup_spec.
  - apply (inv_ram _ _ _ _ I).
  - by apply (inv_dir_page _ _ _ _ I).
  - intros a Ha. eapply (slot_in_ram _ _ _ _ I), (pte_addr_slot _ _ _ _ I); eauto.
  - intros e He. destruct (entry_mapped d va e Hd Hva He) as (? & _ & _ & _ & _ & [? ?] & _).
    done.
Qed.

(** A mapped page is referenced, hence not free. *)
Lemma mapped_ref d va e :
  d ∈ D -> PDX va < NUPDE -> (forall p, 0 <= boot p) -> entry s d va = Some e ->
  1 <= pp_ref s (epage e) /\ epage e ∉ fl.
Proof.
  intros Hd Hva Hb He.
  destruct (entry_mapped d va e Hd Hva He) as (a & _ & Hs & <- & Hv & Hp & _).
  pose proof (inv_ref _ _ _ _ I _ Hp) as Hr.
  pose proof (cnt_pos (maps s (epage (mem s a))) (slots s D) a Hs) as Hc.
  unfold maps at 1 in Hc. rewrite Hv, Z.eqb_refl in Hc. specialize (Hc eq_refl).
  pose proof (owns_range (D ++ tables s D) (epage (mem s a))).
  specialize (Hb (epage (mem s a))). split; [lia|].
  intros Hin%(inv_free_ref _ _ _ _ I). lia.
Qed.
End Slots.

(** ** Reference counts *)
Lemma set_ref_run p v s : set_ref p v s = Ret tt (set_pp_ref (upd (pp_ref s) p v) s).
Proof. done. Qed.

Lemma page_free_run p s :
  pp_ref s p = 0 ->
  page_free p s = Ret tt (set_page_free_list (LIST_INSERT_HEAD p (page_free_list s)) s).
Proof. intros H. unfold page_free. munfold. by rewrite H. Qed.

Lemma page_decref_run p s :
  1 <= pp_ref s p < 2 ^ 16 ->
  let s1 := set_pp_ref (upd (pp_ref s) p (pp_ref s p - 1)) s in
  page_decref p s = Ret tt
    (if pp_ref s p =? 1
     then set_page_free_list (LIST_INSERT_HEAD p (page_free_list s)) s1 else s1).
Proof.
  intros H s1. unfold page_decref, bind at 1, get. cbv beta iota.
  destruct (Z.ltb_spec 0 (pp_ref s p)); [|lia]. rewrite u16_id by lia.
  unfold c_assert. rewrite (bind_step _ _ _ _ _ (eq_refl : ret tt s = Ret tt s)).
  rewrite (bind_step _ _ _ _ _ (set_ref_run p _ s)). fold s1.
  unfold bind. cbv beta iota.
  assert (Hs1 : pp_ref s1 p = pp_ref s p - 1) by (subst s1; cbn; by rewrite upd_same).
  rewrite Hs1. destruct (Z.eqb_spec (pp_ref s p) 1) as [H1|H1].
  - destruct (Z.eqb_spec (pp_ref s p - 1) 0); [|lia]. by rewrite page_free_run by lia.
  - destruct (Z.eqb_spec (pp_ref s p - 1) 0); [lia|done].
Qed.

Lemma page_decref_inv boot D fl s p :
  pm_inv boot D fl s -> p ∉ fl -> is_page s p -> 1 <= pp_ref s p ->
  exists s' fl', page_decref p s = Ret tt s' /\
    pm_inv (upd boot p (boot p - 1)) D fl' s' /\
    fl' = (if pp_ref s p =? 1 then p :: fl else fl) /\
    mem s' = mem s /\ npage s' = npage s /\ pp_ref s' = upd (pp_ref s) p (pp_ref s p - 1) /\
    cur_pgdir s' = cur_pgdir s.
Proof.
  intros I Hf Hp Hr. pose proof (inv_ref16 _ _ _ _ I p Hp) as H16.
  pose proof (pm_inv_set_ref _ _ _ _ p (pp_ref s p - 1) Hf ltac:(lia) I) as I1.
  apply (pm_inv_boot_ext _ (upd boot p (boot p - 1))) in I1.
  2: { intros q _. rewrite !upd_case. case_decide; lia. }
  rewrite page_decref_run by lia.
  eexists _, (if pp_ref s p =? 1 then p :: fl else fl). split; [done|].
  destruct (Z.eqb_spec (pp_ref s p) 1) as [H1|H1]; split_and!; try done.
  apply (pm_inv_free _ _ _ (set_pp_ref (upd (pp_ref s) p (pp_ref s p - 1)) s)); try done.
  cbn. rewrite upd_same. lia.
Qed.

(** ** Unmapping *)

Lemma page_remove_inv boot D fl s d va asid :
  pm_inv boot D fl s -> (forall p, 0 <= boot p) -> d ∈ D -> PDX va < NUPDE ->
  exists s' fl', page_remove (page2pa d) asid va s = Ret tt s' /\ pm_inv boot D fl' s' /\
    entry s' d va = None /\
    (forall d' va', d' ∈ D -> PDX va' < NUPDE -> ~ same_slot d va d' va' ->
       entry s' d' va' = entry s d' va') /\
    (forall d' va', d' ∈ D -> PDX va' < NUPDE -> pte_addr s' d' va' = pte_addr s d' va') /\
    tables s' D = tables s D /\ npage s' = npage s /\
    match entry s d va with
    | None => s' = s /\ fl' = fl
    | Some e => pp_ref s' = upd (pp_ref s) (epage e) (pp_ref s (epage e) - 1) /\
                fl' = (if pp_ref s (epage e) =? 1 then epage e :: fl else fl)
    end.
Proof.
  intros I Hb Hd Hva. unfold page_remove.
  rewrite (bind_step _ _ _ _ _ (lookup_ok _ _ _ _ I d va Hd Hva)).
  destruct (entry s d va) as [e|] eqn:He.
  2: { assert (Hnone : match pte_addr s d va with
         | Some a => if valid (mem s a) then Some (epage (mem s a), a) else None
         | None => None end = None)
       by (unfold entry in He; destruct (pte_addr s d va); [destruct (valid _)|]; done).
       rewrite Hnone. exists s, fl. by split_and!. }
  destruct (entry_mapped _ _ _ _ I d va e Hd Hva He) as (a & Ha & Hs & Hm & Hv & Hp & _).
  destruct (mapped_ref _ _ _ _ I d va e Hd Hva Hb He) as [Hr Hf].
  rewrite Ha, Hm, Hv.
  destruct (page_decref_inv _ _ _ _ _ I Hf Hp Hr)
    as (s1 & fl1 & Hdec & I1 & Hfl & Hm1 & Hn1 & Hr1 & _).
  rewrite (bind_step _ _ _ _ _ Hdec).
  assert (Ht1 : tables s1 D = tables s D)
    by (apply tables_ext; intros; unfold pde; by rewrite Hm1).
  assert (Hs1 : a ∈ slots s1 D) by (unfold slots; by rewrite Ht1).
  assert (Hpa : forall d' va', pte_addr s1 d' va' = pte_addr s d' va')
    by (intros; unfold pte_addr; by rewrite Hm1).
  assert (He1 : forall d' va', entry s1 d' va' = entry s d' va')
    by (intros; unfold entry; by rewrite Hpa, Hm1).
  rewrite (bind_step _ _ _ _ _ (st_ok s1 a 0 (slot_in_ram _ _ _ _ I1 a Hs1))).
  destruct (pm_inv_write _ _ _ _ a 0 Hs1 ltac:(done) I1) as [Ht2 I2].
  destruct (write_entry _ _ _ _ I1 d va a 0 Hd Hva ltac:(by rewrite Hpa)) as (Hw & Ho & Hpa2).
  set (s2 := set_mem (upd (mem s1) a 0) s1) in *.
  exists (set_tlb_log ((asid, va) :: tlb_log s2) s2), fl1. split_and!.
  - done.
  - apply pm_inv_tlb. eapply pm_inv_boot_ext; [|exact I2]. intros q _. cbn.
    unfold maps, s2. cbn [mem set_mem]. rewrite upd_same, Hm1, Hm, Hv, upd_case.
    change (valid 0) with false. cbn [andb Z.b2z].
    destruct (decide (q = epage e)) as [->|Hne].
    + rewrite Z.eqb_refl. cbn [Z.b2z]. lia.
    + destruct (Z.eqb_spec (epage e) q); [congruence|]. cbn [Z.b2z]. lia.
  - exact Hw.
  - intros d' va' Hd' Hva' Hns. change (entry s2 d' va' = entry s d' va').
    by rewrite Ho, He1 by done.
  - intros d' va' Hd' Hva'. change (pte_addr s2 d' va' = pte_addr s d' va').
    by rewrite Hpa2, Hpa by done.
  - change (tables s2 D = tables s D). congruence.
  - done.
  - exact Hr1.
  - exact Hfl.
Qed.

(** ** Mapping *)

Lemma pte_addr_none_pde s d va :
  pte_addr s d va = None -> valid (pde s d (PDX va)) = false.
Proof.
  unfold pte_addr. change (mem s (pde_addr d va)) with (pde s d (PDX va)).
  by destruct (valid _).
Qed.

(** An operation that leaves the directories and tables alone leaves every
    user mapping alone. *)
Lemma view_frame boot D fl s s' :
  pm_inv boot D fl s ->
  (forall d i, d ∈ D -> 0 <= i < NUPDE -> pde s' d i = pde s d i) ->
  (forall a, a ∈ slots s D -> mem s' a = mem s a) ->
  forall d va, d ∈ D -> PDX va < NUPDE ->
  pte_addr s' d va = pte_addr s d va /\ entry s' d va = entry s d va.
Proof.
  intros I Hp Hm d va Hd Hva. pose proof (PDX_range va).
  assert (Ha : pte_addr s' d va = pte_addr s d va).
  { unfold pte_addr. change (mem s' (pde_addr d va)) with (pde s' d (PDX va)).
    change (mem s (pde_addr d va)) with (pde s d (PDX va)). by rewrite Hp by (done || lia). }
  split; [done|]. unfold entry. rewrite Ha.
  destruct (pte_addr s d va) as [a|] eqn:E; [|done].
  by rewrite (Hm a) by (eapply (pte_addr_slot _ _ _ _ I), E; done).
Qed.

(** Taking a free page leaves every mapping alone. *)
Lemma alloc_views boot D p fl s q :
  pm_inv boot D (p :: fl) s -> 0 <= boot p -> list_rep q fl ->
  let s' := set_mem (zero_range (page2pa p) BY2PG (mem s)) (set_page_free_list q s) in
  forall d va, d ∈ D -> PDX va < NUPDE ->
  pte_addr s' d va = pte_addr s d va /\ entry s' d va = entry s d va.
Proof.
  intros I Hb Hq s'. pose proof NUPDE_bound.
  destruct (pm_inv_alloc _ _ _ _ _ _ I Hb Hq) as (_ & _ & _ & _ & Hn & _ & Hfr & _).
  apply not_elem_of_app in Hn as [HnD HnT]. apply (view_frame _ _ _ _ s' I).
  - intros d i Hd Hi. apply Hfr; [by apply (inv_dir_page _ _ _ _ I)|by intros ->|lia].
  - intros a (r & j & Hr & Hj & ->)%elem_of_entries.
    apply Hfr; [by apply (inv_table_page _ _ _ _ I)|by intros ->|done].
Qed.

(** The directory entry of a fresh table. *)
Lemma table_pte s t :
  ram_ok s -> is_page s t ->
  let e := pte_of (page2pa t) PTE_V in
  valid e = true /\ PTE2PADDR e = page2pa t /\ epage e = t.
Proof.
  intros Hram Ht e. assert (HV : 0 <= PTE_V < 1024) by (unfold PTE_V; lia).
  destruct (page2pa_range s Hram t Ht) as (? & ? & Hm & Hd). unfold KSEG0 in *.
  split_and!.
  - unfold valid, e. rewrite pte_of_flag by lia. done.
  - unfold e. rewrite PTE2PADDR_pte_of by lia.
    pose proof (Z.div_mod (page2pa t) 4096). lia.
  - by apply (epage_pte_of s).
Qed.

(** Installing the zeroed page [t] as the missing table of [va]. *)
Lemma new_table_view boot D fl s d va t :
  pm_inv boot D fl s -> d ∈ D -> PDX va < NUPDE -> is_page s t -> t ∉ D ->
  (forall j, 0 <= j < 1024 -> mem s (page2pa t + 4 * j) = 0) ->
  pte_addr s d va = None ->
  let s' := set_mem (upd (mem s) (page2pa d + 4 * PDX va) (pte_of (page2pa t) PTE_V)) s in
  pte_addr s' d va = Some (page2pa t + 4 * PTX va) /\
  (forall d' va', d' ∈ D -> PDX va' < NUPDE -> entry s' d' va' = entry s d' va').
Proof.
  intros I Hd Hva Ht HtD Hz Hnone s'.
  pose proof (inv_ram _ _ _ _ I) as Hram. pose proof (PDX_range va) as Hx.
  pose proof (inv_dir_page _ _ _ _ I d Hd) as Hdp.
  destruct (table_pte s t Hram Ht) as (Hv & Hadr & _).
  assert (Hp : pde s' d (PDX va) = pte_of (page2pa t) PTE_V) by (unfold pde, s'; cbn; apply upd_same).
  assert (Hmt : forall j, 0 <= j < 1024 -> mem s' (page2pa t + 4 * j) = 0).
  { intros j Hj. unfold s'; cbn. rewrite upd_other; [by apply Hz|]. intros Heq.
    by apply (frame_inj s Hram) in Heq as [-> _]. }
  assert (Ha : forall x, PDX x = PDX va -> pte_addr s' d x = Some (page2pa t + 4 * PTX x)).
  { intros x Hxx. unfold pte_addr, pde_addr. rewrite Hxx.
    change (mem s' (page2pa d + 4 * PDX va)) with (pde s' d (PDX va)). by rewrite Hp, Hv, Hadr. }
  split; [by apply Ha|]. intros d' va' Hd' Hva'. unfold entry at 1.
  destruct (decide (d' = d /\ PDX va' = PDX va)) as [[-> Hx']|Hne].
  - rewrite (Ha va' Hx'), Hmt by apply PTX_range. change (valid 0) with false.
    unfold entry, pte_addr, pde_addr. rewrite Hx'.
    change (mem s (page2pa d + 4 * PDX va)) with (pde s d (PDX va)).
    by rewrite (pte_addr_none_pde _ _ _ Hnone).
  - assert (Hpa : pte_addr s' d' va' = pte_addr s d' va').
    { unfold pte_addr, pde_addr, s'; cbn. rewrite upd_other; [done|]. intros Heq.
      apply (frame_inj s Hram) in Heq; [by apply Hne| |done|apply PDX_range|done].
      by apply (inv_dir_page _ _ _ _ I). }
    rewrite Hpa. unfold entry. destruct (pte_addr s d' va') as [b|] eqn:Hb; [|done].
    unfold s'; cbn. rewrite upd_other; [done|]. intros ->.
    pose proof (pte_addr_slot _ _ _ _ I d' va' _ Hd' Hva' Hb) as Hs.
    by apply (slot_not_pde _ _ _ _ I _ d (PDX va) Hs Hd Hx).
Qed.

(** [pgdir_walk] creates the missing table of [va] from a fresh page [t]. *)
Lemma walk_create_exec s d va t s1 :
  ram_ok s -> is_page s d -> is_page s t -> npage s1 = npage s ->
  page_alloc s = Ret (OK t) s1 -> pte_addr s d va = None ->
  let s2 := set_pp_ref (upd (pp_ref s1) t 1) s1 in
  pgdir_walk (page2pa d) va true s = Ret (OK (Some (page2pa t + 4 * PTX va)))
    (set_mem (upd (mem s2) (page2pa d + 4 * PDX va) (pte_of (page2pa t) PTE_V)) s2).
Proof.
  intros Hram Hdp Htp Hn Hal Hnone s2. pose proof (PDX_range va) as Hx.
  pose proof (in_ram_entry s Hram d _ Hdp Hx) as Hin.
  assert (Hin2 : in_ram s2 (page2pa d + 4 * PDX va) = true)
    by (unfold in_ram in *; by rewrite <- Hin; cbn; rewrite Hn).
  unfold pgdir_walk. rewrite (bind_step _ _ _ _ _ (ld_ok s _ Hin)).
  change (mem s (page2pa d + 4 * PDX va)) with (pde s d (PDX va)).
  pose proof (pte_addr_none_pde _ _ _ Hnone) as Hinv. unfold valid in Hinv.
  rewrite Hinv. cbn [negb]. unfold try_res.
  rewrite (bind_step _ _ _ _ _ Hal), (bind_step _ _ _ _ _ (set_ref_run t 1 s1)).
  rewrite (bind_step _ _ _ _ _ (PADDR2PTE_page s Hram t Htp s2)).
  rewrite (bind_step _ _ _ _ _ (st_ok s2 _ _ Hin2)). fold (pte_of (page2pa t) PTE_V).
  set (s3 := set_mem _ s2). rewrite (bind_step _ _ _ _ _ (ld_ok s3 _ Hin2)).
  unfold s3; cbn [mem set_mem]. rewrite upd_same.
  destruct (table_pte s t Hram Htp) as (_ & -> & _). done.
Qed.

(** Creating the missing page table of a user address. *)
Lemma walk_create_new boot D t fl s d va :
  pm_inv boot D (t :: fl) s -> (forall p, 0 <= boot p) -> d ∈ D -> PDX va < NUPDE ->
  pte_addr s d va = None ->
  exists a s', pgdir_walk (page2pa d) va true s = Ret (OK (Some a)) s' /\
    pm_inv boot D fl s' /\ pte_addr s' d va = Some a /\
    (forall d' va', d' ∈ D -> PDX va' < NUPDE -> entry s' d' va' = entry s d' va') /\
    pp_ref s' = upd (pp_ref s) t 1 /\ tables s' D ≡ₚ t :: tables s D /\ npage s' = npage s.
Proof.
  intros I Hb Hd Hva Hnone. pose proof (inv_ram _ _ _ _ I) as Hram.
  pose proof (inv_dir_page _ _ _ _ I d Hd) as Hdp. pose proof (PDX_range va) as Hx.
  destruct (page_alloc_cons s t fl (inv_free _ _ _ _ I)) as (q & Hq & Hal).
  destruct (pm_inv_alloc _ _ _ _ _ _ I (Hb t) Hq)
    as (I1 & Ht1 & Htf & Htp & Htn & Hnm & Hfr & Hz & Hr1 & Hn1 & Hr0).
  set (s1 := set_mem _ _) in *.
  pose proof (pm_inv_set_ref _ _ _ _ t 1 Htf ltac:(lia) I1) as I2.
  set (s2 := set_pp_ref (upd (pp_ref s1) t 1) s1) in *.
  apply not_elem_of_app in Htn as [HtD Htt].
  assert (Hv : forall d' va', d' ∈ D -> PDX va' < NUPDE ->
            pte_addr s2 d' va' = pte_addr s d' va' /\ entry s2 d' va' = entry s d' va')
    by exact (alloc_views _ _ _ _ _ _ I (Hb t) Hq).
  assert (Hnone2 : pte_addr s2 d va = None) by (by rewrite (proj1 (Hv d va Hd Hva))).
  pose proof (pte_addr_none_pde _ _ _ Hnone2) as Hinv2.
  destruct (pm_inv_add_table _ D fl s2 d (PDX va) t I2 Htf Htp) as [I3 Ht3];
    [rewrite not_elem_of_app; split; [done|by change (t ∉ tables s1 D); rewrite Ht1]
    |intros a Ha; apply Hnm; unfold slots; by rewrite <- Ht1
    |exact Hz|done|lia|done|].
  destruct (new_table_view _ _ _ _ d va t I2 Hd Hva Htp HtD Hz Hnone2) as [Ha3 He3].
  set (s3 := set_mem _ s2) in *.
  exists (page2pa t + 4 * PTX va), s3. split_and!; try done.
  - by apply walk_create_exec.
  - eapply pm_inv_boot_ext; [|exact I3]. intros p _. cbn. rewrite !upd_case.
    destruct (decide (p = t)) as [->|]; [|done].
    rewrite !decide_True by done. lia.
  - intros d' va' Hd' Hva'. rewrite He3 by done. by apply Hv.
  - by rewrite Ht3, <- Ht1.
Qed.

(** [va] is mapped to page [pp] with permission bits [perm] (and those
    [page_insert] adds). *)
Definition mapped_as (s : pmst) (d va pp perm : Z) : Prop :=
  exists e, entry s d va = Some e /\ epage e = pp /\ PTE_BITS e = Z.lor perm PTE_LEAF.

(** Every other user address keeps its entry. *)
Definition others_same (s s' : pmst) (D : list Z) (d va : Z) : Prop :=
  forall d' va', d' ∈ D -> PDX va' < NUPDE -> ~ same_slot d va d' va' ->
    entry s' d' va' = entry s d' va'.

(** A page that may be mapped: allocated, not a directory or a table, and
    with room in its 16-bit reference count. *)
Record mappable (D fl : list Z) (s : pmst) (pp : Z) : Prop := {
  mp_page : is_page s pp;
  mp_alloc : pp ∉ fl;
  mp_user : pp ∉ D ++ tables s D;
  mp_ref : pp_ref s pp < 2 ^ 16 - 1
}.

Lemma user_PDX va : 0 <= va < UTOP -> PDX va < NUPDE /\ va < ULIM.
Proof.
  unfold NUPDE. change (PDX UTOP) with 509. unfold UTOP, UENVS, UPAGES, UVPT, ULIM, PDMAP.
  intros H. rewrite PDX_div by lia. split; [|lia].
  apply Z.div_lt_upper_bound; lia.
Qed.

(** Filling an invalid slot found by [pgdir_walk]. *)
Lemma insert_fill boot D fl s0 s d va a asid pp perm :
  pgdir_walk (page2pa d) va true s0 = Ret (OK (Some a)) s ->
  pm_inv boot D fl s -> d ∈ D -> PDX va < NUPDE ->
  pte_addr s d va = Some a -> entry s d va = None ->
  mappable D fl s pp -> 0 <= perm < 1024 ->
  exists s', insert_new (page2pa d) asid pp va perm s0 = Ret 0 s' /\
    pm_inv boot D fl s' /\ mapped_as s' d va pp perm /\ others_same s s' D d va /\
    pp_ref s' = upd (pp_ref s) pp (pp_ref s pp + 1) /\
    tables s' D = tables s D /\ npage s' = npage s.
Proof.
  intros Hw I Hd Hva Ha He [Hp Hf Hu Hr] Hperm. pose proof (inv_ram _ _ _ _ I) as Hram.
  pose proof (inv_ref16 _ _ _ _ I pp Hp) as H16.
  pose proof (pte_addr_slot _ _ _ _ I d va a Hd Hva Ha) as Hs.
  assert (Hinv : valid (mem s a) = false)
    by (unfold entry in He; rewrite Ha in He; by destruct (valid (mem s a))).
  pose proof (leaf_perm_range perm Hperm) as Hpl.
  set (v := pte_of (page2pa pp) (Z.lor perm PTE_LEAF)).
  assert (Hv : valid v = true) by (unfold valid, v; rewrite pte_of_flag by (by vm_compute); apply PTE_LEAF_valid).
  pose proof (epage_pte_of s Hram pp _ Hp Hpl) as Hev. fold v in Hev.
  pose proof (pm_inv_set_ref _ _ _ _ pp (pp_ref s pp + 1) Hf ltac:(lia) I) as I1.
  set (s1 := set_pp_ref _ s) in *.
  destruct (pm_inv_write _ _ _ s1 a v Hs ltac:(intros _; by rewrite Hev) I1) as [Ht2 I2].
  destruct (write_entry _ _ _ _ I1 d va a v Hd Hva Ha) as (Hew & Hoth & _).
  set (s2 := set_mem (upd (mem s1) a v) s1) in *.
  exists (set_tlb_log ((asid, va) :: tlb_log s2) s2). split_and!; try done.
  - unfold insert_new. rewrite (bind_step _ _ _ _ _ Hw). unfold get, bind at 1. cbv beta iota.
    rewrite u16_id by lia. rewrite (bind_step _ _ _ _ _ (set_ref_run pp _ s)). fold s1.
    rewrite (bind_step _ _ _ _ _ (PADDR2PTE_page s Hram pp Hp s1)).
    rewrite <- Z.lor_assoc. fold (pte_of (page2pa pp) (Z.lor perm PTE_LEAF)). fold v.
    by rewrite (bind_step _ _ _ _ _ (st_ok s1 a v (slot_in_ram _ _ _ _ I1 a Hs))).
  - apply pm_inv_tlb. eapply pm_inv_boot_ext; [|exact I2]. intros q _. unfold maps, s2, s1.
    cbn [mem set_mem set_pp_ref]. rewrite upd_same, Hinv, Hv, Hev, upd_case. cbn [andb Z.b2z].
    destruct (decide (q = pp)) as [->|Hne]; [rewrite Z.eqb_refl; cbn [Z.b2z]; lia|].
    destruct (Z.eqb_spec pp q); [congruence|]. cbn [Z.b2z]. lia.
  - exists v. split_and!; [by rewrite Hv in Hew|done|].
    destruct (page2pa_range s Hram pp Hp) as (? & ? & _). unfold KSEG0 in *.
    apply PTE_BITS_pte_of; lia.
Qed.

(** [insert_new] on an address that is not mapped takes at most one page, for a
    table, and counts one reference more. *)
Lemma insert_new_full boot D fl s d va asid pp perm :
  pm_inv boot D fl s -> (forall p, 0 <= boot p) -> d ∈ D -> PDX va < NUPDE ->
  entry s d va = None -> mappable D fl s pp -> 0 <= perm < 1024 ->
  (exists s' fl', insert_new (page2pa d) asid pp va perm s = Ret 0 s' /\
    pm_inv boot D fl' s' /\ mapped_as s' d va pp perm /\ others_same s s' D d va /\
    pp_ref s' pp = pp_ref s pp + 1 /\ (length fl <= S (length fl'))%nat /\
    (forall q, pp_ref s' q <= pp_ref s q + 1) /\ npage s' = npage s) \/
  (insert_new (page2pa d) asid pp va perm s = Ret (- E_NO_MEM) s /\
   fl = [] /\ pte_addr s d va = None).
Proof.
  intros I Hb Hd Hva He Hmp Hperm. destruct (pte_addr s d va) as [a|] eqn:Ha.
  - left. pose proof (pgdir_walk_existing s (inv_ram _ _ _ _ I) d va a
      (inv_dir_page _ _ _ _ I d Hd) Ha) as Hw.
    destruct (insert_fill _ _ _ _ _ d va a asid pp perm Hw I) as (s' & ? & ? & ? & ? & Hr & _ & ?);
      try done.
    exists s', fl. split_and!; try done; [rewrite Hr; apply upd_same|lia|].
    intros q. rewrite Hr, upd_case. case_decide; subst; lia.
  - destruct fl as [|t fl].
    + right. split_and!; try done. unfold insert_new, pgdir_walk.
      pose proof (in_ram_entry s (inv_ram _ _ _ _ I) d _ (inv_dir_page _ _ _ _ I d Hd)
        (PDX_range va)) as Hin.
      rewrite bind_assoc. rewrite (bind_step _ _ _ _ _ (ld_ok s _ Hin)).
      change (mem s (page2pa d + 4 * PDX va)) with (pde s d (PDX va)).
      pose proof (pte_addr_none_pde _ _ _ Ha) as Hinv. unfold valid in Hinv.
      rewrite Hinv. cbn [negb]. unfold try_res. rewrite bind_assoc.
      by rewrite (bind_step _ _ _ _ _ (page_alloc_empty s (inv_free _ _ _ _ I))).
    + left. destruct (walk_create_new boot D t fl s d va) as
        (a & s1 & Hw & I1 & Ha1 & He1 & Hr1 & Ht1 & Hn1); try done.
      destruct Hmp as [Hp Hf Hu Hr]. apply not_elem_of_cons in Hf as [Hpt Hf].
      assert (Hmp1 : mappable D fl s1 pp).
      { split; [unfold is_page; by rewrite Hn1|done| |by rewrite Hr1, upd_other].
        rewrite Ht1. revert Hu. rewrite !not_elem_of_app, not_elem_of_cons. tauto. }
      destruct (insert_fill _ _ _ _ _ d va a asid pp perm Hw I1)
        as (s' & ? & ? & ? & Ho & Hr' & _ & Hn'); try done; [by rewrite He1|].
      exists s', fl. split_and!; try done.
      * intros d' va' Hd' Hva' Hns. by rewrite Ho, He1.
      * rewrite Hr', upd_same, Hr1. by rewrite upd_other.
      * pose proof (inv_free_ref _ _ _ _ I t (list_elem_of_here _ _)) as Hf0.
        intros q. rewrite Hr', Hr1, !upd_case. repeat case_decide; subst; (done || lia).
      * by rewrite Hn', Hn1.
Qed.

Lemma insert_new_inv boot D fl s d va asid pp perm :
  pm_inv boot D fl s -> (forall p, 0 <= boot p) -> d ∈ D -> PDX va < NUPDE ->
  entry s d va = None -> mappable D fl s pp -> 0 <= perm < 1024 ->
  (exists s' fl', insert_new (page2pa d) asid pp va perm s = Ret 0 s' /\
    pm_inv boot D fl' s' /\ mapped_as s' d va pp perm /\ others_same s s' D d va /\
    pp_ref s' pp = pp_ref s pp + 1) \/
  (insert_new (page2pa d) asid pp va perm s = Ret (- E_NO_MEM) s /\
   fl = [] /\ pte_addr s d va = None).
Proof.
  intros. destruct (insert_new_full boot D fl s d va asid pp perm)
    as [(s' & fl' & ? & ? & ? & ? & ? & _)|?]; try done; [left; by exists s', fl'|by right].
Qed.

(** The page [va] is mapped to, if any. *)
Definition mapped_page (s : pmst) (d va : Z) : option Z := epage <$> entry s d va.

(** Remapping the page [va] is already mapped to only changes the flags. *)
Lemma reflag_inv boot D fl s d va a e asid perm :
  pm_inv boot D fl s -> d ∈ D -> PDX va < NUPDE ->
  pte_addr s d va = Some a -> entry s d va = Some e -> 0 <= perm < 1024 ->
  let v := Z.lor (Z.lor (Z.land e (not32 0x3FF)) perm) PTE_LEAF in
  exists s', (st a v ;! tlb_invalidate asid va ;! ret 0) s = Ret 0 s' /\
    pm_inv boot D fl s' /\ mapped_as s' d va (epage e) perm /\ others_same s s' D d va /\
    pp_ref s' = pp_ref s.
Proof.
  intros I Hd Hva Ha He Hperm v. pose proof (leaf_perm_range perm Hperm) as Hpl.
  destruct (entry_mapped _ _ _ _ I d va e Hd Hva He) as (a' & Ha' & Hs & Hm & Hv & Hp & Hu).
  rewrite Ha in Ha'. injection Ha' as <-.
  assert (Hvv : valid v = true) by apply PTE_LEAF_valid.
  assert (Hev : epage v = epage e).
  { unfold epage, v. rewrite <- Z.lor_assoc. by rewrite PTE2PADDR_reflag. }
  destruct (pm_inv_write _ _ _ s a v Hs ltac:(intros _; by rewrite Hev) I) as [Ht2 I2].
  destruct (write_entry _ _ _ _ I d va a v Hd Hva Ha) as (Hew & Hoth & _).
  set (s2 := set_mem (upd (mem s) a v) s) in *.
  exists (set_tlb_log ((asid, va) :: tlb_log s2) s2). split_and!; try done.
  - by rewrite (bind_step _ _ _ _ _ (st_ok s a v (slot_in_ram _ _ _ _ I a Hs))).
  - apply pm_inv_tlb. eapply pm_inv_boot_ext; [|exact I2]. intros q _. unfold maps, s2.
    cbn [mem set_mem]. rewrite upd_same, Hm, Hvv, Hv, Hev. lia.
  - exists v. split_and!; [by rewrite Hvv in Hew|done|].
    unfold v. rewrite <- Z.lor_assoc. by apply PTE_BITS_reflag.
Qed.

Lemma mappable_frame D fl fl' s s' pp :
  mappable D fl s pp -> npage s' = npage s -> tables s' D = tables s D ->
  pp ∉ fl' -> pp_ref s' pp = pp_ref s pp -> mappable D fl' s' pp.
Proof.
  intros [Hp Hf Hu Hr] Hn Ht Hf' Hr'. split; [unfold is_page; by rewrite Hn|done|by rewrite Ht|].
  by rewrite Hr'.
Qed.

(** What [page_insert] guarantees under the invariant. *)
Record insert_post (boot : Z -> Z) (D : list Z) (s s' : pmst) (fl' : list Z)
    (d va pp perm : Z) : Prop := {
  ip_inv : pm_inv boot D fl' s';
  ip_mapped : mapped_as s' d va pp perm;
  ip_others : others_same s s' D d va;
  ip_ref : pp_ref s' pp =
    pp_ref s pp + (if decide (mapped_page s d va = Some pp) then 0 else 1)
}.

Lemma page_insert_inv boot D fl s d va asid pp perm :
  pm_inv boot D fl s -> (forall p, 0 <= boot p) -> d ∈ D -> 0 <= va < UTOP ->
  mappable D fl s pp -> 0 <= perm < 1024 ->
  (exists s' fl', page_insert (page2pa d) asid pp va perm s = Ret 0 s' /\
     insert_post boot D s s' fl' d va pp perm) \/
  (page_insert (page2pa d) asid pp va perm s = Ret (- E_NO_MEM) s /\
   fl = [] /\ entry s d va = None).
Proof.
  intros I Hb Hd Hva Hmp Hperm. apply user_PDX in Hva as [Hx Hul].
  pose proof (inv_ram _ _ _ _ I) as Hram.
  assert (Hnew : entry s d va = None -> forall m,
    m = insert_new (page2pa d) asid pp va perm s ->
    (exists s' fl', m = Ret 0 s' /\ insert_post boot D s s' fl' d va pp perm) \/
    (m = Ret (- E_NO_MEM) s /\ fl = [] /\ entry s d va = None)).
  { intros He m ->.
    destruct (insert_new_inv boot D fl s d va asid pp perm I Hb Hd Hx He Hmp Hperm)
      as [(s' & fl' & ? & ? & ? & ? & ?)|(? & ? & ?)]; [left|right; done].
    exists s', fl'. split; [done|]. split; try done.
    unfold mapped_page. rewrite He. cbn. by rewrite decide_False. }
  unfold page_insert. destruct (Z.leb_spec ULIM va); [lia|].
  rewrite (bind_step _ _ _ _ _ (pgdir_walk_lookup s Hram d va (inv_dir_page _ _ _ _ I d Hd))).
  destruct (pte_addr s d va) as [a|] eqn:Ha.
  2: { apply Hnew; [unfold entry; by rewrite Ha|done]. }
  pose proof (pte_addr_slot _ _ _ _ I d va a Hd Hx Ha) as Hs.
  rewrite (bind_step _ _ _ _ _ (ld_ok s a (slot_in_ram _ _ _ _ I a Hs))).
  fold (valid (mem s a)). destruct (valid (mem s a)) eqn:Hv.
  2: { apply Hnew; [unfold entry; by rewrite Ha, Hv|done]. }
  assert (He : entry s d va = Some (mem s a)) by (unfold entry; by rewrite Ha, Hv).
  destruct (entry_mapped _ _ _ _ I d va _ Hd Hx He) as (? & _ & _ & _ & _ & [_ Hep] & _).
  rewrite (bind_step _ _ _ _ _ (pa2page_ok s Hram _ Hep)). left.
  destruct (Z.eqb_spec (epage (mem s a)) pp) as [Heq|Hne]; cbn [negb].
  - destruct (reflag_inv _ _ _ _ d va a _ asid perm I Hd Hx Ha He Hperm)
      as (s' & Hrun & I' & Hm & Ho & Hr).
    exists s', fl. split; [done|]. rewrite Heq in Hm. split; try done. rewrite Hr.
    rewrite decide_True; [lia|]. unfold mapped_page. rewrite He. cbn. by rewrite Heq.
  - destruct (page_remove_inv _ _ _ _ d va asid I Hb Hd Hx)
      as (s1 & fl1 & Hrun & I1 & He1 & Ho1 & Hpa1 & Ht1 & Hn1 & Hm1).
    rewrite He in Hm1. destruct Hm1 as [Hr1 Hfl1].
    assert (Hpp : pp_ref s1 pp = pp_ref s pp) by (rewrite Hr1; by apply upd_other).
    assert (Hmp1 : mappable D fl1 s1 pp).
    { apply (mappable_frame D fl fl1 s); try done. subst fl1. destruct Hmp.
      destruct (_ =? 1); [|done]. rewrite not_elem_of_cons. by split; [apply not_eq_sym|]. }
    rewrite (bind_step _ _ _ _ _ Hrun).
    destruct (insert_new_inv boot D fl1 s1 d va asid pp perm I1 Hb Hd Hx He1 Hmp1 Hperm)
      as [(s' & fl' & ? & ? & ? & Ho & Hr)|(_ & _ & Hn)].
    + exists s', fl'. split; [done|]. split; try done.
      * intros d' va' Hd' Hva' Hns. by rewrite Ho, Ho1.
      * rewrite Hr, Hpp. rewrite decide_False; [done|]. unfold mapped_page. rewrite He.
        cbn. by intros [= ?].
    + rewrite Hpa1, Ha in Hn by done. done.
Qed.
