(* ===== verification/PmapBoot.v ===== *)
(** * From boot to a first address space

    [page_init] establishes the page invariant with no address space; a page
    taken from the allocator and referenced once becomes a page directory. *)
From S2P Require Import Prelude Queue Mmu Pmap PmapFacts PmapInv PmapSpec.

Lemma forM_set_ref l s v :
  exists f, forM l (fun i => set_ref i v) s = Ret tt (set_pp_ref f s) /\
    (forall x, f x = if decide (x ∈ l) then v else pp_ref s x).
Proof.
  revert s. induction l as [|i l IH]; intros s; cbn.
  - exists (pp_ref s). split; [by destruct s|]. done.
  - destruct (IH (set_pp_ref (upd (pp_ref s) i v) s)) as (f & Hf & Hx).
    exists f. split; [exact Hf|]. intros x. rewrite Hx. cbn. rewrite upd_case.
    destruct (decide (x ∈ l)); [by rewrite decide_True by set_solver|].
    case_decide; [by rewrite decide_True by set_solver|by rewrite decide_False by set_solver].
Qed.

(** Inserting the elements of a list at the head of a queue kept in a larger
    state. *)
Lemma forM_insert_head {S} (get_q : S -> LIST) (set_q : LIST -> S -> S) l :
  (forall q s, get_q (set_q q s) = q) -> (forall q q' s, set_q q (set_q q' s) = set_q q s) ->
  (forall s, set_q (get_q s) s = s) ->
  forall s l0, list_rep (get_q s) l0 -> NoDup (l ++ l0) ->
  exists q, list_rep q (reverse l ++ l0) /\
    forM l (fun i => modify (fun s => set_q (LIST_INSERT_HEAD i (get_q s)) s)) s = Ret tt (set_q q s).
Proof.
  intros Hgs Hss Hsg. induction l as [|i l IH]; intros s l0 Hrep Hnd; cbn [forM].
  - exists (get_q s). split; [done|by rewrite Hsg].
  - rewrite <- app_comm_cons in Hnd. apply NoDup_cons in Hnd as [Hi Hnd]. rewrite not_elem_of_app in Hi.
    destruct Hi as [Hil Hi0]. destruct (list_insert_head _ _ i Hrep Hi0) as [Hrep' _].
    destruct (IH (set_q (LIST_INSERT_HEAD i (get_q s)) s) (i :: l0)) as (q & Hq & Hrun).
    { by rewrite Hgs. }
    { rewrite <- Permutation_middle. apply NoDup_cons. split; [|done]. by rewrite not_elem_of_app. }
    exists q. split; [rewrite reverse_cons, <- app_assoc; exact Hq|].
    unfold bind, modify at 1. rewrite Hrun. by rewrite Hss.
Qed.

(** The number of pages below the boot allocator's mark. *)
Definition n_used (s : pmst) : Z := (freemem s + 4095) / 4096 - PPNOFFSET.

(** The free list [page_init] builds: highest page first. *)
Definition boot_free (s : pmst) : list Z := reverse (seqZ (n_used s) (npage s - n_used s)).

Definition boot_refs (s : pmst) (p : Z) : Z := if p <? n_used s then 1 else 0.

Lemma tables_nil s : tables s [] = [].
Proof. done. Qed.

Lemma page_init_inv s :
  ram_ok s -> KSEG0 <= freemem s <= KSEG0 + npage s * 4096 -> freemem s <= 2 ^ 32 - 4096 ->
  (forall p, pp_ref s p = 0) ->
  exists s', page_init s = Ret tt s' /\ pm_inv (boot_refs s) [] (boot_free s) s' /\
    npage s' = npage s /\ mem s' = mem s /\
    (forall p, is_page s p -> pp_ref s' p = boot_refs s p) /\
    pages s' = pages s /\ kbasepgdir s' = kbasepgdir s.
Proof.
  intros Hram Hfm Hfm' Href. unfold ram_ok, KSEG0 in *.
  assert (Hu : 0 <= n_used s <= npage s).
  { unfold n_used, PPNOFFSET.
    assert (0x80000 <= (freemem s + 4095) / 4096) by (apply Z.div_le_lower_bound; lia).
    assert ((freemem s + 4095) / 4096 < npage s + 0x80000 + 1)
      by (apply Z.div_lt_upper_bound; lia). lia. }
  unfold page_init, bind at 1 2 3, modify at 1 2, get. cbv beta iota.
  cbn [freemem npage set_freemem set_page_free_list page_free_list].
  rewrite ROUND_page by lia. set (s1 := set_freemem _ _).
  assert (Hn : PPN ((freemem s + 4095) / 4096 * 4096) - PPNOFFSET = n_used s).
  { assert (0 <= (freemem s + 4095) / 4096 < 2 ^ 20)
      by (split; [apply Z.div_pos|apply Z.div_lt_upper_bound]; lia).
    rewrite PPN_div by lia. by rewrite Z.div_mul by lia. }
  rewrite Hn.
  destruct (forM_set_ref (seqZ 0 (n_used s)) s1 1) as (f & Hf & Hx).
  rewrite (bind_step _ _ _ _ _ Hf).
  destruct (forM_insert_head page_free_list set_page_free_list (seqZ (n_used s) (npage s - n_used s)))
    with (s := set_pp_ref f s1) (l0 := @nil Z) as (q & Hq & Hrun);
    [done|done|by intros []|apply list_rep_init|rewrite app_nil_r; apply NoDup_seqZ|].
  rewrite app_nil_r in Hq. rewrite Hrun. eexists. split; [done|].
  assert (Hr : forall p, 0 <= p -> f p = boot_refs s p).
  { intros p Hp. rewrite Hx. unfold boot_refs. cbn. rewrite Href.
    destruct (Z.ltb_spec p (n_used s)); [rewrite decide_True|rewrite decide_False];
      try done; rewrite elem_of_seqZ; lia. }
  assert (Hfl : forall p, p ∈ boot_free s <-> n_used s <= p < npage s).
  { intros p. unfold boot_free. rewrite elem_of_reverse, elem_of_seqZ. lia. }
  split; [|split_and!; try done; intros p [Hp _]; by apply Hr].
  constructor; rewrite ?tables_nil; cbn; try done; unfold is_page; cbn.
  - intros p Hp%Hfl. lia.
  - intros p Hp%Hfl. rewrite Hr by lia. unfold boot_refs.
    destruct (Z.ltb_spec p (n_used s)); lia.
  - intros p Hp. rewrite Hr by lia. unfold boot_refs. destruct (_ <? _); lia.
  - constructor.
  - intros p Hp. by apply elem_of_nil in Hp.
  - intros a Ha. by apply elem_of_nil in Ha.
  - intros p Hp. rewrite Hr by lia. done.
Qed.

(** The directory entries of an empty directory contribute no table. *)
Lemma tables_empty_dir s d D :
  (forall i, 0 <= i < NUPDE -> valid (pde s d i) = false) ->
  tables s (d :: D) = tables s D.
Proof.
  intros H. unfold tables, dslots. cbn [list_prod]. rewrite omap_app.
  assert (Hnil : omap (table_of s) (map (fun y => (d, y)) (seqZ 0 NUPDE)) = []);
    [|by rewrite Hnil].
  generalize (fun i => proj1 (elem_of_seqZ 0 NUPDE i)).
  generalize (seqZ 0 NUPDE). intros l Hl. induction l as [|i l IH]; [done|]. cbn.
  unfold table_of at 1. cbn [fst snd]. rewrite H.
  - apply IH. intros j Hj. apply Hl. by apply elem_of_cons; right.
  - specialize (Hl i (proj2 (elem_of_cons _ _ _) (or_introl eq_refl))). lia.
Qed.

(** A page just taken from the allocator, zeroed and referenced once, becomes
    a directory. *)
Lemma pm_inv_add_dir boot D fl s d :
  pm_inv boot D fl s -> d ∉ fl -> is_page s d -> d ∉ D ++ tables s D ->
  (forall a, a ∈ slots s D -> maps s d a = false) ->
  (forall i, 0 <= i < NUPDE -> valid (pde s d i) = false) ->
  pp_ref s d = 1 -> boot d = 1 ->
  pm_inv (upd boot d 0) (d :: D) fl s /\ tables s (d :: D) = tables s D.
Proof.
  intros I Hf Hp Hn Hm Hz Hr Hb. pose proof (tables_empty_dir s d D Hz) as Ht.
  split; [|done]. destruct I.
  constructor; unfold slots; rewrite ?Ht; try done.
  - by constructor.
  - intros p [->|Hp']%elem_of_cons; [done|by apply inv_dirs_page].
  - intros a Ha Hv. destruct (inv_mapped a Ha Hv) as [Hpg Hno]. split; [done|].
    rewrite <- app_comm_cons, elem_of_cons. intros [Hd|?]; [|done].
    specialize (Hm a Ha). unfold maps in Hm. rewrite Hv, Hd, Z.eqb_refl in Hm. done.
  - intros p Hp'. fold (slots s D). rewrite <- app_comm_cons, owns_cons by exact Hn.
    rewrite inv_ref by done. destruct (decide (p = d)) as [->|Hne].
    + rewrite bool_decide_eq_true_2, upd_same by done. cbn [Z.b2z]. lia.
    + rewrite bool_decide_eq_false_2, upd_other by done. cbn [Z.b2z]. lia.
Qed.

(** A directory made from a fresh page, as [env_setup_vm] does. *)
Lemma new_dir_inv boot D t fl s :
  pm_inv boot D (t :: fl) s -> (forall p, 0 <= boot p) ->
  exists s1, page_alloc s = Ret (OK t) s1 /\
    let s2 := set_pp_ref (upd (pp_ref s1) t 1) s1 in
    pm_inv boot (t :: D) fl s2 /\ tables s2 (t :: D) = tables s D /\ npage s2 = npage s /\
    (forall d va, d ∈ D -> PDX va < NUPDE -> entry s2 d va = entry s d va) /\
    (forall i, 0 <= i < 1024 -> pde s2 t i = 0) /\ pp_ref s t = 0 /\ t ∉ D /\ is_page s t.
Proof.
  intros I Hb. pose proof (inv_ram _ _ _ _ I) as Hram.
  destruct (page_alloc_cons s t fl (inv_free _ _ _ _ I)) as (q & Hq & Hal).
  destruct (pm_inv_alloc _ _ _ _ _ _ I (Hb t) Hq)
    as (I1 & Ht1 & Htf & Htp & Htn & Hnm & Hfr & Hz & Hr1 & Hn1 & Hr0).
  destruct (free_unreferenced _ _ _ _ I t) as (_ & _ & Hb0); [by apply elem_of_cons; left|done|].
  set (s1 := set_mem _ _) in *. exists s1. split; [done|]. intros s2.
  pose proof (pm_inv_set_ref _ _ _ _ t 1 Htf ltac:(lia) I1) as I2. fold s2 in I2.
  assert (Hz2 : forall i, 0 <= i < NUPDE -> valid (pde s2 t i) = false).
  { intros i Hi. pose proof NUPDE_bound. unfold pde, s2; cbn [mem set_pp_ref].
    by rewrite Hz by lia. }
  destruct (pm_inv_add_dir _ D fl s2 t I2 Htf Htp) as [I3 Ht3];
    [by change (t ∉ D ++ tables s1 D); rewrite Ht1
    |by intros a Ha; apply Hnm; unfold slots; rewrite <- Ht1
    |exact Hz2|by unfold s2; cbn; rewrite upd_same
    |rewrite upd_same; change (pp_ref s1 t) with (pp_ref s t); lia|].
  split_and!; try done.
  - eapply pm_inv_boot_ext; [|exact I3]. intros p _. cbn. rewrite !upd_case.
    destruct (decide (p = t)) as [->|]; [lia|done].
  - by rewrite Ht3.
  - intros d va Hd Hva. by apply (alloc_views _ _ _ _ _ _ I (Hb t) Hq).
  - apply not_elem_of_app in Htn. tauto.
Qed.

(** ** A small machine, used to instantiate the theorems

    16 pages of RAM, the first one below the boot mark; [page_init] has run
    and the page at the head of the free list has become a directory. *)
Definition run {S A} (m : M S A) (s : S) : S :=
  match m s with Ret _ s' | Panic _ s' | Noret s' => s' | Fault => s end.

(** The value a run returns; a run that returns one ends in [run m s]. *)
Definition out_val {S A} (o : outcome S A) : option A :=
  match o with Ret a _ => Some a | _ => None end.

Lemma run_ret {S A} (m : M S A) s a : out_val (m s) = Some a -> m s = Ret a (run m s).
Proof. unfold run. destruct (m s); cbn; congruence. Qed.

Definition ex_raw : pmst :=
  mkPm 0x10000 16 0 0 0 (KSEG0 + 4096) (mkLIST None (fun _ => LE_ZERO))
    (fun _ => 0) (fun _ => 0) [] 0 false.
Definition ex_boot : pmst := run page_init ex_raw.
Definition ex_dir : Z := 15.
Definition ex_free : list Z := [14; 13; 12; 11; 10; 9; 8; 7; 6; 5; 4; 3; 2; 1].
Definition ex_refs : Z -> Z := boot_refs ex_raw.
Definition ex_vm : pmst := run (page_alloc ;! set_ref ex_dir 1) ex_boot.

Lemma ex_refs_nonneg p : 0 <= ex_refs p.
Proof. unfold ex_refs, boot_refs. destruct (_ <? _); lia. Qed.

Lemma ex_boot_inv : pm_inv ex_refs [] (ex_dir :: ex_free) ex_boot.
Proof.
  destruct (page_init_inv ex_raw) as (s' & Hrun & I & _);
    [by vm_compute|by vm_compute|by vm_compute|done|].
  unfold ex_boot, run. rewrite Hrun. exact I.
Qed.

Lemma ex_vm_inv : pm_inv ex_refs [ex_dir] ex_free ex_vm.
Proof.
  destruct (new_dir_inv _ _ _ _ _ ex_boot_inv ex_refs_nonneg) as (s1 & Hal & I & _).
  unfold ex_vm, run. rewrite (bind_step _ _ _ _ _ Hal). exact I.
Qed.

(** The page at the head of the free list, allocated and not yet mapped. *)
Definition ex_page : Z := 14.
Definition ex_free1 : list Z := [13; 12; 11; 10; 9; 8; 7; 6; 5; 4; 3; 2; 1].
Definition ex_alloc : pmst := run page_alloc ex_vm.

Lemma ex_alloc_inv : pm_inv ex_refs [ex_dir] ex_free1 ex_alloc.
Proof.
  pose proof ex_vm_inv as I. change ex_free with (ex_page :: ex_free1) in I.
  destruct (page_alloc_cons _ _ _ (inv_free _ _ _ _ I)) as (q & Hq & Hal).
  destruct (pm_inv_alloc _ _ _ _ _ _ I (ex_refs_nonneg _) Hq) as [I' _].
  unfold ex_alloc, run. rewrite Hal. exact I'.
Qed.

Lemma ex_alloc_mappable : mappable [ex_dir] ex_free1 ex_alloc ex_page.
Proof.
  split.
  - by vm_compute.
  - by apply (bool_decide_unpack _); vm_compute.
  - by apply (bool_decide_unpack _); vm_compute.
  - by vm_compute.
Qed.
