(* ===== verification/PmapFrame.v ===== *)
(** * What mapping a page leaves alone

    [page_insert] on an address that is not mapped writes to the page
    directory, to the page tables and to pages that were free; all other
    words keep their contents.  [evolves] is this frame condition, closed
    under composition, for runs that take pages and make directories. *)
From S2P Require Import Prelude Queue Mmu Pmap PmapFacts PmapInv PmapSpec.

(** The word [j] of page [r] is neither free, nor in a page table, nor a user
    entry of a directory. *)
Definition outside (D fl : list Z) (s : pmst) (r j : Z) : Prop :=
  is_page s r /\ 0 <= j < 1024 /\ r ∉ fl /\ r ∉ tables s D /\ (r ∈ D -> NUPDE <= j).

Record evolves (D fl : list Z) (s : pmst) (D' fl' : list Z) (s' : pmst) : Prop := {
  ev_npage : npage s' = npage s;
  ev_free : fl' ⊆ fl;
  ev_dirs : forall r, r ∈ D' -> r ∈ D \/ r ∈ fl;
  ev_tables : forall r, r ∈ tables s' D' -> r ∈ tables s D \/ r ∈ fl;
  ev_mem : forall r j, outside D fl s r j -> mem s' (page2pa r + 4 * j) = mem s (page2pa r + 4 * j)
}.

Lemma evolves_refl D fl s : evolves D fl s D fl s.
Proof. split; [done|done|by left|by left|done]. Qed.

Lemma evolves_outside D fl s D' fl' s' r j :
  evolves D fl s D' fl' s' -> outside D fl s r j -> outside D' fl' s' r j.
Proof.
  intros E (Hp & Hj & Hf & Ht & Hd). split; [|split; [exact Hj|split; [|split]]].
  - unfold is_page in *. by rewrite (ev_npage _ _ _ _ _ _ E).
  - intros H. by apply Hf, (ev_free _ _ _ _ _ _ E).
  - intros H. by destruct (ev_tables _ _ _ _ _ _ E r H).
  - intros H. destruct (ev_dirs _ _ _ _ _ _ E r H); [by apply Hd|done].
Qed.

Lemma evolves_trans D fl s D1 fl1 s1 D2 fl2 s2 :
  evolves D fl s D1 fl1 s1 -> evolves D1 fl1 s1 D2 fl2 s2 -> evolves D fl s D2 fl2 s2.
Proof.
  intros E1 E2. split.
  - rewrite (ev_npage _ _ _ _ _ _ E2). apply (ev_npage _ _ _ _ _ _ E1).
  - etrans; [apply (ev_free _ _ _ _ _ _ E2)|apply (ev_free _ _ _ _ _ _ E1)].
  - intros r H. destruct (ev_dirs _ _ _ _ _ _ E2 r H) as [H'|H'].
    + by apply (ev_dirs _ _ _ _ _ _ E1).
    + right. by apply (ev_free _ _ _ _ _ _ E1).
  - intros r H. destruct (ev_tables _ _ _ _ _ _ E2 r H) as [H'|H'].
    + by apply (ev_tables _ _ _ _ _ _ E1).
    + right. by apply (ev_free _ _ _ _ _ _ E1).
  - intros r j H. rewrite (ev_mem _ _ _ _ _ _ E2) by (by eapply evolves_outside).
    by apply (ev_mem _ _ _ _ _ _ E1).
Qed.

(** Writes to words that are not outside. *)
Lemma evolves_mem D fl s D' fl' s' :
  npage s' = npage s -> fl' ⊆ fl -> D' = D ->
  (forall r, r ∈ tables s' D' -> r ∈ tables s D \/ r ∈ fl) ->
  (forall r j, outside D fl s r j -> mem s' (page2pa r + 4 * j) = mem s (page2pa r + 4 * j)) ->
  evolves D fl s D' fl' s'.
Proof. intros Hn Hf -> Ht Hm. split; try done. by left. Qed.

Lemma evolves_alloc boot D p fl s q :
  pm_inv boot D (p :: fl) s -> 0 <= boot p -> list_rep q fl ->
  evolves D (p :: fl) s D fl
    (set_mem (zero_range (page2pa p) BY2PG (mem s)) (set_page_free_list q s)).
Proof.
  intros I Hb Hq. destruct (pm_inv_alloc _ _ _ _ _ _ I Hb Hq) as (_ & Ht & _ & _ & _ & _ & Hfr & _).
  apply evolves_mem; [done|set_solver|done|intros r; rewrite Ht; by left|].
  intros r j (Hp & Hj & Hf & _). apply Hfr; [done| |done]. intros ->. apply Hf. set_solver.
Qed.

(** ** The two steps of [insert_new] *)
Lemma PADDR2PTE_inv pa (s s' : pmst) e : PADDR2PTE pa s = Ret e s' -> s' = s.
Proof. unfold PADDR2PTE. cbv zeta. destruct (_ <? _); [done|]. by intros [= _ <-]. Qed.

Lemma insert_new_mem pgdir va a asid pp perm s0 s s' :
  pgdir_walk pgdir va true s0 = Ret (OK (Some a)) s ->
  insert_new pgdir asid pp va perm s0 = Ret 0 s' -> exists v, mem s' = upd (mem s) a v.
Proof.
  intros Hw H. unfold insert_new in H. rewrite (bind_step _ _ _ _ _ Hw) in H.
  rewrite (bind_step get _ s _ _ eq_refl), (bind_step (set_ref _ _) _ s _ _ eq_refl) in H.
  apply bind_inv in H as (e & s4 & He%PADDR2PTE_inv & H). subst s4.
  apply bind_inv in H as (u & s5 & Hst & Hret).
  unfold st in Hst. destruct (in_ram _ a); [|done]. injection Hst as _ <-.
  injection Hret as <-. by eexists.
Qed.

(** ** Mapping a page at an address that has none *)
Section Unmapped.
Context (boot : Z -> Z) (D : list Z) (d va : Z).
Context (Hb : forall p, 0 <= boot p) (Hd : d ∈ D) (Hva : PDX va < NUPDE).

(** A write to a table entry, seen from outside. *)
Lemma slot_not_outside fl s a r j :
  pm_inv boot D fl s -> a ∈ slots s D -> outside D fl s r j -> page2pa r + 4 * j <> a.
Proof using.
  intros I (t & i & Ht & Hi & ->)%elem_of_entries (Hp & Hj & _ & Hnt & _) Heq.
  pose proof (inv_table_page _ _ _ _ I t Ht).
  by apply (frame_inj s (inv_ram _ _ _ _ I)) in Heq as [-> _].
Qed.

Lemma walk_create_evolves t fl s a s' :
  pm_inv boot D (t :: fl) s -> pte_addr s d va = None ->
  pgdir_walk (page2pa d) va true s = Ret (OK (Some a)) s' ->
  tables s' D ≡ₚ t :: tables s D -> npage s' = npage s -> evolves D (t :: fl) s D fl s'.
Proof using Hb Hd Hva.
  intros I Hnone Hw Ht Hn.
  destruct (page_alloc_cons s t fl (inv_free _ _ _ _ I)) as (q & Hq & Hal).
  pose proof (evolves_alloc _ _ _ _ _ _ I (Hb t) Hq) as E.
  destruct (pm_inv_alloc _ _ _ _ _ _ I (Hb t) Hq) as (_ & _ & _ & Htp & _ & _ & _ & _ & _ & Hna & _).
  rewrite (walk_create_exec s d va t _ (inv_ram _ _ _ _ I) (inv_dir_page _ _ _ _ I d Hd) Htp Hna Hal Hnone) in Hw.
  injection Hw as _ <-.
  apply evolves_mem; [done|set_solver|done| |].
  - intros r Hr. rewrite Ht in Hr. apply elem_of_cons in Hr as [->|Hr]; [right; set_solver|by left].
  - intros r j Ho. rewrite <- (ev_mem _ _ _ _ _ _ E r j Ho). apply upd_other. intros Heq.
    destruct Ho as (Hp & Hj & _ & _ & Hdj). pose proof (PDX_range va).
    apply (frame_inj s (inv_ram _ _ _ _ I)) in Heq as [-> ->]; try done;
      [specialize (Hdj Hd); lia|by apply (inv_dir_page _ _ _ _ I)].
Qed.

Lemma insert_new_evolves fl s0 s a asid pp perm s' :
  pgdir_walk (page2pa d) va true s0 = Ret (OK (Some a)) s -> pm_inv boot D fl s ->
  pte_addr s d va = Some a -> insert_new (page2pa d) asid pp va perm s0 = Ret 0 s' ->
  tables s' D = tables s D -> npage s' = npage s -> evolves D fl s D fl s'.
Proof using Hd Hva.
  intros Hw I Ha Hrun Ht Hn. destruct (insert_new_mem _ _ _ _ _ _ _ _ _ Hw Hrun) as [v Hm].
  apply evolves_mem; [done|done|done|intros r; rewrite Ht; by left|].
  intros r j Ho. rewrite Hm. apply upd_other. apply (slot_not_outside fl s); [done| |done].
  by apply (pte_addr_slot _ _ _ _ I d va).
Qed.

Lemma page_insert_new s asid pp perm :
  ram_ok s -> is_page s d -> (forall a, pte_addr s d va = Some a -> in_ram s a = true) ->
  va < ULIM -> entry s d va = None ->
  page_insert (page2pa d) asid pp va perm s = insert_new (page2pa d) asid pp va perm s.
Proof using.
  intros Hram Hdp Hin Hul He. unfold page_insert. destruct (Z.leb_spec ULIM va); [lia|].
  rewrite (bind_step _ _ _ _ _ (pgdir_walk_lookup s Hram d va Hdp)). unfold entry in He.
  destruct (pte_addr s d va) as [a|]; [|done].
  rewrite (bind_step _ _ _ _ _ (ld_ok s a (Hin a eq_refl))). fold (valid (mem s a)).
  by destruct (valid (mem s a)).
Qed.

(** With no page for the table. *)
Lemma insert_new_no_table s asid pp perm :
  list_rep (page_free_list s) [] -> ram_ok s -> is_page s d -> pte_addr s d va = None ->
  insert_new (page2pa d) asid pp va perm s = Ret (- E_NO_MEM) s.
Proof using.
  intros Hfl Hram Hdp Ha. unfold insert_new, pgdir_walk.
  pose proof (in_ram_entry s Hram d _ Hdp (PDX_range va)) as Hin.
  rewrite bind_assoc. rewrite (bind_step _ _ _ _ _ (ld_ok s _ Hin)).
  change (mem s (page2pa d + 4 * PDX va)) with (pde s d (PDX va)).
  pose proof (pte_addr_none_pde _ _ _ Ha) as Hinv. unfold valid in Hinv.
  rewrite Hinv. cbn [negb]. unfold try_res. rewrite bind_assoc.
  by rewrite (bind_step _ _ _ _ _ (page_alloc_empty s Hfl)).
Qed.

(** Mapping at an address that is not mapped, with or without memory. *)
Lemma insert_unmapped_any fl s asid pp perm :
  pm_inv boot D fl s -> va < ULIM -> entry s d va = None -> mappable D fl s pp ->
  0 <= perm < 1024 ->
  (exists s' fl', page_insert (page2pa d) asid pp va perm s = Ret 0 s' /\
    pm_inv boot D fl' s' /\ mapped_as s' d va pp perm /\ others_same s s' D d va /\
    evolves D fl s D fl' s' /\ pp_ref s' pp = pp_ref s pp + 1 /\ (length fl <= S (length fl'))%nat) \/
  (page_insert (page2pa d) asid pp va perm s = Ret (- E_NO_MEM) s /\ fl = []).
Proof using Hb Hd Hva.
  intros I Hul He Hmp Hperm. pose proof (inv_ram _ _ _ _ I) as Hram.
  pose proof (inv_dir_page _ _ _ _ I d Hd) as Hdp.
  rewrite page_insert_new; try done.
  2: { intros a Ha. eapply slot_in_ram; [done|]. by apply (pte_addr_slot _ _ _ _ I d va). }
  destruct (pte_addr s d va) as [a|] eqn:Ha; [left|destruct fl as [|t fl]; [right|left]].
  - pose proof (pgdir_walk_existing s Hram d va a Hdp Ha) as Hw.
    destruct (insert_fill _ _ _ _ _ d va a asid pp perm Hw I Hd Hva Ha He Hmp Hperm)
      as (s' & Hrun & I' & Hm & Ho & Hr & Ht & Hn).
    exists s', fl. split_and!; try done; [|by rewrite Hr, upd_same|lia].
    by apply (insert_new_evolves fl s s a asid pp perm).
  - split; [|done]. by apply (insert_new_no_table s asid pp perm (inv_free _ _ _ _ I)).
  - destruct (walk_create_new _ _ _ _ _ d va I Hb Hd Hva Ha)
      as (a & s1 & Hw & I1 & Ha1 & He1 & Hr1 & Ht1 & Hn1).
    destruct Hmp as [Hp [Hpt Hf]%not_elem_of_cons Hu Hr].
    assert (Hmp1 : mappable D fl s1 pp).
    { split; [unfold is_page; by rewrite Hn1|tauto| |].
      - rewrite elem_of_app, Ht1, elem_of_cons. rewrite elem_of_app in Hu. tauto.
      - by rewrite Hr1, upd_other. }
    destruct (insert_fill _ _ _ _ _ d va a asid pp perm Hw I1 Hd Hva Ha1
      ltac:(by rewrite He1) Hmp1 Hperm) as (s' & Hrun & I' & Hm & Ho & Hr' & Ht & Hn).
    exists s', fl. split_and!; try done.
    + intros d' va' Hd' Hva' Hns. by rewrite Ho, He1.
    + eapply evolves_trans; [by eapply walk_create_evolves|].
      by apply (insert_new_evolves fl s s1 a asid pp perm).
    + by rewrite Hr', upd_same, Hr1, upd_other.
Qed.

Lemma insert_unmapped fl s asid pp perm :
  pm_inv boot D fl s -> va < ULIM -> entry s d va = None -> mappable D fl s pp ->
  0 <= perm < 1024 -> (1 <= length fl)%nat ->
  exists s' fl', page_insert (page2pa d) asid pp va perm s = Ret 0 s' /\
    pm_inv boot D fl' s' /\ mapped_as s' d va pp perm /\ others_same s s' D d va /\
    evolves D fl s D fl' s' /\ (length fl <= S (length fl'))%nat.
Proof using Hb Hd Hva.
  intros I Hul He Hmp Hperm Hlen.
  destruct (insert_unmapped_any fl s asid pp perm I Hul He Hmp Hperm)
    as [(s' & fl' & ? & ? & ? & ? & ? & _ & ?)|[_ ->]]; [by exists s', fl'|cbn in Hlen; lia].
Qed.
End Unmapped.
