(* ===== verification/PmapProps.v ===== *)
(** * What the physical memory manager guarantees

    The theorems of the page allocator and the page tables: the effect of
    each operation on every branch, the safety of every state reachable by
    them, and the two inputs on which the code departs from its intent. *)
From S2P Require Import Prelude Queue Mmu Pmap PmapFacts PmapInv PmapSpec PmapBoot.

(** ** Reachable states

    A configuration is the set [D] of page directories (one per address
    space) and the machine.  The steps are those the kernel performs on the
    user part of an address space. *)
Definition config : Type := list Z * pmst.

(** A machine at the end of [riscv_vm_init]. *)
Definition boot_ok (s : pmst) : Prop :=
  ram_ok s /\ KSEG0 <= freemem s <= KSEG0 + npage s * BY2PG /\
  freemem s <= 2 ^ 32 - BY2PG /\ (forall p, pp_ref s p = 0).

(** What a step did: the permissions it asked for and, when it mapped a page
    that was mapped already, the reference count it found. *)
Inductive vm_event : Type :=
| Space | Alloc (perm : Z) | Share (perm ref : Z) | Unmap.

Inductive vm_step : config -> vm_event -> config -> Prop :=
| vm_space D s s1 d :
    page_alloc s = Ret (OK d) s1 ->
    vm_step (D, s) Space (d :: D, set_pp_ref (upd (pp_ref s1) d (pp_ref s1 d + 1)) s1)
| vm_alloc D s s1 s2 d asid va perm pp r :
    d ∈ D -> 0 <= va < UTOP -> 0 <= perm ->
    page_alloc s = Ret (OK pp) s1 ->
    page_insert (page2pa d) asid pp va perm s1 = Ret r s2 ->
    vm_step (D, s) (Alloc perm) (D, s2)
| vm_share D s s1 s2 d va d' va' asid perm pp pte r :
    d ∈ D -> d' ∈ D -> 0 <= va < UTOP -> 0 <= va' < UTOP -> 0 <= perm ->
    page_lookup (page2pa d) va s = Ret (Some (pp, pte)) s1 ->
    page_insert (page2pa d') asid pp va' perm s1 = Ret r s2 ->
    vm_step (D, s) (Share perm (pp_ref s1 pp)) (D, s2)
| vm_unmap D s s1 d asid va :
    d ∈ D -> 0 <= va < UTOP ->
    page_remove (page2pa d) asid va s = Ret tt s1 ->
    vm_step (D, s) Unmap (D, s1).

(** The machines reachable from boot, with the steps taken. *)
Inductive vm_reach : list vm_event -> config -> Prop :=
| vm_boot s s' : boot_ok s -> page_init s = Ret tt s' -> vm_reach [] ([], s')
| vm_next tr c ev c' : vm_reach tr c -> vm_step c ev c' -> vm_reach (ev :: tr) c'.

(** The steps on which [page_insert] does what it means to: the permissions fit
    in the ten flag bits, which it does not check ([perm_redirects]), and the
    16-bit count of the page does not wrap ([pp_ref_wraps]). *)
Definition tame (ev : vm_event) : Prop :=
  match ev with
  | Space | Unmap => True
  | Alloc perm => perm < 1024
  | Share perm ref => perm < 1024 /\ ref < 2 ^ 16 - 1
  end.

(** What protects the kernel: the free list is the queue of some [fl]; a page
    a user address maps is a real page, referenced, not free, and neither a
    directory nor a page table. *)
Definition vm_safe (c : config) : Prop :=
  exists fl, list_rep (page_free_list c.2) fl /\
    NoDup (c.1 ++ tables c.2 c.1) /\
    (forall p, p ∈ c.1 ++ tables c.2 c.1 -> p ∉ fl) /\
    forall d va e, d ∈ c.1 -> 0 <= va < UTOP -> entry c.2 d va = Some e ->
      is_page c.2 (epage e) /\ epage e ∉ fl /\ 1 <= pp_ref c.2 (epage e) /\
      epage e ∉ c.1 ++ tables c.2 c.1.

(** The invariant with its ghost state hidden. *)
Definition vm_good (c : config) : Prop :=
  exists boot fl, (forall p, 0 <= boot p) /\ pm_inv boot c.1 fl c.2.

(** A page the allocator just returned may be mapped. *)
Lemma fresh_mappable boot D fl s s1 pp :
  pm_inv boot D fl s -> (forall p, 0 <= boot p) -> page_alloc s = Ret (OK pp) s1 ->
  exists fl1, fl = pp :: fl1 /\ pm_inv boot D fl1 s1 /\ mappable D fl1 s1 pp /\
    pp_ref s1 = pp_ref s.
Proof.
  intros I Hb Hal. destruct fl as [|p fl1].
  { rewrite (page_alloc_empty _ (inv_free _ _ _ _ I)) in Hal. done. }
  destruct (page_alloc_cons _ _ _ (inv_free _ _ _ _ I)) as (q & Hq & Hal').
  destruct (pm_inv_alloc _ _ _ _ _ _ I (Hb p) Hq)
    as (I1 & Ht & Hf & Hp & Hno & _ & _ & _ & Hr & Hn & H0).
  rewrite Hal' in Hal. injection Hal as <- <-. exists fl1.
  split_and!; try done. split; [done|done|by rewrite Ht|]. rewrite Hr, H0. lia.
Qed.

Lemma insert_good boot D fl s d va asid pp perm r s2 :
  pm_inv boot D fl s -> (forall p, 0 <= boot p) -> d ∈ D -> 0 <= va < UTOP ->
  mappable D fl s pp -> 0 <= perm < 1024 ->
  page_insert (page2pa d) asid pp va perm s = Ret r s2 -> vm_good (D, s2).
Proof.
  intros I Hb Hd Hva Hm Hperm Hins.
  destruct (page_insert_inv boot D fl s d va asid pp perm I Hb Hd Hva Hm Hperm)
    as [(s' & fl' & Hrun & Hpost)|(Hrun & _ & _)]; rewrite Hins in Hrun; injection Hrun as -> ->.
  - exists boot, fl'. split; [done|]. apply (ip_inv _ _ _ _ _ _ _ _ _ Hpost).
  - by exists boot, fl.
Qed.

Lemma vm_step_good c ev c' : vm_step c ev c' -> tame ev -> vm_good c -> vm_good c'.
Proof.
  intros Hstep Ht (boot & fl & Hb & I).
  destruct Hstep as [D s s1 d H|D s s1 s2 d asid va perm pp r H H0 H1 H2 H3
    |D s s1 s2 d va d' va' asid perm pp pte r H H0 H1 H2 H3 H4 H6|D s s1 d asid va H H0 H1];
    cbn [fst snd tame] in *.
  - destruct fl as [|t fl]; [by rewrite (page_alloc_empty _ (inv_free _ _ _ _ I)) in H|].
    destruct (new_dir_inv _ _ _ _ _ I Hb) as (s1' & Hal & I' & _ & _ & _ & _ & H0 & _).
    rewrite Hal in H. injection H as -> ->.
    exists boot, fl. split; [done|]. cbn.
    destruct (fresh_mappable _ _ _ _ _ _ I Hb Hal) as (_ & _ & _ & _ & Hr).
    rewrite Hr, H0 in *. exact I'.
  - destruct (fresh_mappable _ _ _ _ _ _ I Hb H2) as (fl1 & -> & I1 & Hm & _).
    eapply insert_good; eauto.
  - destruct (user_PDX va) as [Hx _]; [done|].
    pose proof (lookup_ok _ _ _ _ I d va H Hx) as Hl. rewrite Hl in H4.
    destruct (pte_addr s d va) as [a|] eqn:Ha; [|done].
    destruct (valid (mem s a)) eqn:Hv; [|done]. injection H4 as <- <- <-.
    assert (He : entry s d va = Some (mem s a)) by (unfold entry; by rewrite Ha, Hv).
    destruct (entry_mapped _ _ _ _ I d va _ H Hx He) as (_ & _ & _ & _ & _ & Hp & Hu).
    destruct (mapped_ref _ _ _ _ I d va _ H Hx Hb He) as [_ Hf].
    destruct Ht as [Hp1 Hr1].
    eapply insert_good; [exact I|done|exact H0|exact H2|done|done|exact H6].
  - destruct (user_PDX va) as [Hx _]; [done|].
    destruct (page_remove_inv _ _ _ _ d va asid I Hb H Hx) as (s' & fl' & Hrun & I' & _).
    rewrite Hrun in H1. injection H1 as <-. by exists boot, fl'.
Qed.

Lemma vm_reach_good tr c : vm_reach tr c -> Forall tame tr -> vm_good c.
Proof.
  induction 1 as [s s' (Hram & Hf & Hf' & Hr) Hrun|tr c ev c' _ IH Hstep]; intros Ht.
  - destruct (page_init_inv s Hram Hf Hf' Hr) as (s1 & Hrun' & I & _).
    rewrite Hrun in Hrun'. injection Hrun' as ->. exists (boot_refs s), (boot_free s).
    split; [|done]. intros p. unfold boot_refs. destruct (_ <? _); lia.
  - apply Forall_cons in Ht as [Hev Ht]. eauto using vm_step_good.
Qed.

Lemma vm_good_safe c : vm_good c -> vm_safe c.
Proof.
  intros (boot & fl & Hb & I). exists fl. split_and!.
  - apply (inv_free _ _ _ _ I).
  - apply (inv_dirs _ _ _ _ I).
  - intros p Hp Hf. by destruct (free_unreferenced _ _ _ _ I p Hf (Hb p)) as [? _].
  - intros d va e Hd Hva He. destruct (user_PDX va Hva) as [Hx _].
    destruct (entry_mapped _ _ _ _ I d va e Hd Hx He) as (_ & _ & _ & _ & _ & Hp & Hu).
    by destruct (mapped_ref _ _ _ _ I d va e Hd Hx Hb He) as [? ?].
Qed.

(** The leaf a successful [page_insert] leaves, seen by the other readers of
    the page table. *)
Lemma mapped_as_reads boot D fl s d va pp perm :
  pm_inv boot D fl s -> d ∈ D -> PDX va < NUPDE -> is_page s pp ->
  mapped_as s d va pp perm ->
  (exists a, page_lookup (page2pa d) va s = Ret (Some (pp, a)) s) /\
  va2pa (page2pa d) va s = Ret (page2pa pp) s.
Proof.
  intros I Hd Hx Hpp (e & He & <- & _). pose proof (inv_ram _ _ _ _ I) as Hram.
  destruct (entry_mapped _ _ _ _ I d va e Hd Hx He) as (a & Ha & Hs & <- & Hv & _).
  split.
  - exists a. rewrite (lookup_ok _ _ _ _ I d va Hd Hx), Ha, Hv. done.
  - pose proof (pgdir_walk_lookup s Hram d va (inv_dir_page _ _ _ _ I d Hd)) as Hw.
    unfold va2pa. pose proof (PDX_range va).
    assert (Hin : in_ram s (page2pa d + 4 * PDX va) = true)
      by (apply in_ram_entry; [done|by apply (inv_dir_page _ _ _ _ I)|done]).
    rewrite (bind_step _ _ _ _ _ (ld_ok s _ Hin)).
    unfold pte_addr, pde_addr in Ha. fold (valid (mem s (page2pa d + 4 * PDX va))).
    destruct (valid (mem s (page2pa d + 4 * PDX va))); [|done]. injection Ha as Ha. cbn [negb].
    cbv zeta. rewrite Ha. rewrite (bind_step _ _ _ _ _ (ld_ok s a (slot_in_ram _ _ _ _ I a Hs))).
    fold (valid (mem s a)). rewrite Hv. cbn [negb]. unfold ret. f_equal.
    exact (PTE2PADDR_epage s Hram (mem s a) (proj2 Hpp)).
Qed.

(** The example machine is reachable. *)
Lemma ex_vm_reach : vm_reach [Space] ([ex_dir], ex_vm).
Proof.
  assert (Hb : page_init ex_raw = Ret tt ex_boot) by (apply run_ret; by vm_compute).
  assert (Hal : page_alloc ex_boot = Ret (OK ex_dir) (run page_alloc ex_boot))
    by (apply run_ret; by vm_compute).
  apply (vm_next [] ([], ex_boot)).
  - apply (vm_boot ex_raw); [by vm_compute|exact Hb].
  - pose proof (vm_space [] _ _ _ Hal) as H.
    replace (pp_ref (run page_alloc ex_boot) ex_dir + 1) with 1 in H by (by vm_compute).
    unfold ex_vm, run at 1. rewrite (bind_step _ _ _ _ _ Hal). exact H.
Qed.

Lemma ex_alloc_run : page_alloc ex_vm = Ret (OK ex_page) ex_alloc.
Proof. unfold ex_alloc. apply run_ret. by vm_compute. Qed.

(** ** Properties *)

(** C1. [page_insert] under the page invariant, for a user address, permissions
    below 1024 and an allocated page that is no directory or table and has fewer
    than 65535 references: either it returns 0, the address is mapped to the page
    with the permissions asked for and the leaf bits A, D, R and V (and
    [page_lookup] and [va2pa] read that back), every other user address of every
    address space keeps its entry, the page's reference count grows by one unless
    it was mapped there already, and the invariant holds again; or the allocator
    is empty, the address was unmapped, and [page_insert] returns [-E_NO_MEM] with
    the machine unchanged.  The code checks neither bound: a larger [perm]
    redirects the entry to another page and the 65536th reference wraps the count
    to 0 (findings at kern/pmap.c:264 and :263). *)
Theorem page_insert_correct boot D fl s d va asid pp perm :
  pm_inv boot D fl s -> (forall p, 0 <= boot p) -> d ∈ D -> 0 <= va < UTOP ->
  mappable D fl s pp -> 0 <= perm < 1024 ->
  (exists s' fl', page_insert (page2pa d) asid pp va perm s = Ret 0 s' /\
     pm_inv boot D fl' s' /\ mapped_as s' d va pp perm /\
     va2pa (page2pa d) va s' = Ret (page2pa pp) s' /\
     (exists a, page_lookup (page2pa d) va s' = Ret (Some (pp, a)) s') /\
     others_same s s' D d va /\
     pp_ref s' pp =
       pp_ref s pp + (if decide (mapped_page s d va = Some pp) then 0 else 1)) \/
  (page_insert (page2pa d) asid pp va perm s = Ret (- E_NO_MEM) s /\
   fl = [] /\ entry s d va = None).
Proof.
  intros I Hb Hd Hva Hm Hperm.
  destruct (page_insert_inv boot D fl s d va asid pp perm I Hb Hd Hva Hm Hperm)
    as [(s' & fl' & Hrun & [I' Hmap Ho Hr])|?]; [left|by right].
  exists s', fl'. destruct (user_PDX va Hva) as [Hx _].
  assert (Hpp : is_page s' pp).
  { destruct Hmap as (e & He & <- & _).
    by destruct (entry_mapped _ _ _ _ I' d va e Hd Hx He) as (_ & _ & _ & _ & _ & Hp & _). }
  destruct (mapped_as_reads _ _ _ _ _ _ _ _ I' Hd Hx Hpp Hmap) as [? ?]. by split_and!.
Qed.

Lemma page_insert_correct_witness :
  (exists s' fl', page_insert (page2pa ex_dir) 0 ex_page 0x400000 PTE_W ex_alloc = Ret 0 s' /\
     pm_inv ex_refs [ex_dir] fl' s' /\ mapped_as s' ex_dir 0x400000 ex_page PTE_W /\
     va2pa (page2pa ex_dir) 0x400000 s' = Ret (page2pa ex_page) s' /\
     (exists a, page_lookup (page2pa ex_dir) 0x400000 s' = Ret (Some (ex_page, a)) s') /\
     others_same ex_alloc s' [ex_dir] ex_dir 0x400000 /\
     pp_ref s' ex_page = pp_ref ex_alloc ex_page +
       (if decide (mapped_page ex_alloc ex_dir 0x400000 = Some ex_page) then 0 else 1)) \/
  (page_insert (page2pa ex_dir) 0 ex_page 0x400000 PTE_W ex_alloc = Ret (- E_NO_MEM) ex_alloc /\
   ex_free1 = [] /\ entry ex_alloc ex_dir 0x400000 = None).
Proof.
  apply page_insert_correct.
  - exact ex_alloc_inv.
  - exact ex_refs_nonneg.
  - by apply elem_of_cons; left.
  - by vm_compute.
  - exact ex_alloc_mappable.
  - by vm_compute.
Defined.

(** C2. In every machine reachable from boot by creating address spaces,
    mapping fresh pages, sharing mapped pages and unmapping pages (whatever
    these operations return), a page mapped in user space is real, referenced,
    not in the free list and never a page directory or page table of any
    address space; directories and tables are pairwise distinct and never free.
    The steps may ask for permissions below 1024 only and share no page that
    has 65535 references: [page_insert] checks neither, and either breaks the
    guarantee (findings at kern/pmap.c:263 and :264). *)
Theorem vm_reachable_safe tr c : vm_reach tr c -> Forall tame tr -> vm_safe c.
Proof. intros H Ht. by eapply vm_good_safe, vm_reach_good. Qed.

Lemma vm_reachable_safe_witness :
  vm_safe ([ex_dir], run (page_insert (page2pa ex_dir) 0 ex_page 0x400000 PTE_W) ex_alloc).
Proof.
  apply (vm_reachable_safe [Alloc PTE_W; Space]); [|by repeat constructor].
  eapply vm_next; [exact ex_vm_reach|].
  apply (vm_alloc [ex_dir] ex_vm ex_alloc _ ex_dir 0 0x400000 PTE_W ex_page 0);
    [by apply elem_of_cons; left|by vm_compute|by vm_compute|exact ex_alloc_run|].
  apply run_ret. by vm_compute.
Defined.

(** C3. [page_remove] always returns; afterwards the address is unmapped,
    every other user address keeps its entry, the page it mapped loses one
    reference, and it is in the free list afterwards exactly when that was the
    last one. *)
Theorem page_remove_correct boot D fl s d va asid :
  pm_inv boot D fl s -> (forall p, 0 <= boot p) -> d ∈ D -> 0 <= va < UTOP ->
  exists s' fl', page_remove (page2pa d) asid va s = Ret tt s' /\ pm_inv boot D fl' s' /\
    entry s' d va = None /\ others_same s s' D d va /\
    match entry s d va with
    | None => s' = s
    | Some e => pp_ref s' (epage e) = pp_ref s (epage e) - 1 /\
        (epage e ∈ fl' <-> pp_ref s (epage e) = 1)
    end.
Proof.
  intros I Hb Hd Hva. destruct (user_PDX va Hva) as [Hx _].
  destruct (page_remove_inv _ _ _ _ d va asid I Hb Hd Hx)
    as (s' & fl' & Hrun & I' & He & Ho & _ & _ & _ & Hm).
  exists s', fl'. split_and!; try done.
  destruct (entry s d va) as [e|] eqn:He0; [|by destruct Hm].
  destruct Hm as [-> ->]. rewrite upd_same. split; [done|].
  destruct (mapped_ref _ _ _ _ I d va e Hd Hx Hb He0) as [_ Hf].
  destruct (Z.eqb_spec (pp_ref s (epage e)) 1) as [Heq|Hne].
  - split; [done|]. intros _. by apply elem_of_cons; left.
  - split; [intros Hin; done|lia].
Qed.

Lemma page_remove_correct_witness :
  exists s' fl', page_remove (page2pa ex_dir) 0 0x400000 ex_alloc = Ret tt s' /\
    pm_inv ex_refs [ex_dir] fl' s' /\ entry s' ex_dir 0x400000 = None /\
    others_same ex_alloc s' [ex_dir] ex_dir 0x400000 /\
    match entry ex_alloc ex_dir 0x400000 with
    | None => s' = ex_alloc
    | Some e => pp_ref s' (epage e) = pp_ref ex_alloc (epage e) - 1 /\
        (epage e ∈ fl' <-> pp_ref ex_alloc (epage e) = 1)
    end.
Proof.
  apply (page_remove_correct _ _ ex_free1).
  - exact ex_alloc_inv.
  - exact ex_refs_nonneg.
  - by apply elem_of_cons; left.
  - by vm_compute.
Defined.

(** [page_alloc] returns the head of the free list, unreferenced, not
    mapped anywhere, zeroed, and changes no other page; with an empty list it
    returns [-E_NO_MEM] and changes nothing. *)
Lemma page_alloc_correct boot D fl s :
  pm_inv boot D fl s -> (forall p, 0 <= boot p) ->
  match fl with
  | [] => page_alloc s = Ret (Err (- E_NO_MEM)) s
  | p :: fl1 => exists s', page_alloc s = Ret (OK p) s' /\ pm_inv boot D fl1 s' /\
      p ∉ fl1 /\ pp_ref s' = pp_ref s /\ pp_ref s p = 0 /\
      (forall a, a ∈ slots s D -> maps s' p a = false) /\
      (forall i, 0 <= i < 1024 -> mem s' (page2pa p + 4 * i) = 0) /\
      (forall r i, is_page s r -> r <> p -> 0 <= i < 1024 ->
         mem s' (page2pa r + 4 * i) = mem s (page2pa r + 4 * i)) /\
      (forall d va, d ∈ D -> 0 <= va < UTOP -> entry s' d va = entry s d va)
  end.
Proof.
  intros I Hb. destruct fl as [|p fl1]; [by apply page_alloc_empty, (inv_free _ _ _ _ I)|].
  destruct (page_alloc_cons _ _ _ (inv_free _ _ _ _ I)) as (q & Hq & Hal).
  destruct (pm_inv_alloc _ _ _ _ _ _ I (Hb p) Hq)
    as (I1 & Ht & Hf & Hp & Hno & Hm & Hfr & Hz & Hr & Hn & H0).
  eexists. split_and!; try done. apply not_elem_of_app in Hno as [HD HT].
  intros d va Hd Hva. destruct (user_PDX va Hva) as [Hx _].
  apply (view_frame _ _ _ _ _ I); [| |done|done].
  - intros d' i Hd' Hi. pose proof NUPDE_bound.
    apply Hfr; [by apply (inv_dir_page _ _ _ _ I)|by intros ->|lia].
  - intros a (r & j & Hr' & Hj & ->)%elem_of_entries.
    apply Hfr; [by apply (inv_table_page _ _ _ _ I)|by intros ->|done].
Qed.

Lemma page_alloc_correct_witness :
  exists s', page_alloc ex_vm = Ret (OK ex_page) s' /\ pm_inv ex_refs [ex_dir] ex_free1 s' /\
    ex_page ∉ ex_free1 /\ pp_ref s' = pp_ref ex_vm /\ pp_ref ex_vm ex_page = 0 /\
    (forall a, a ∈ slots ex_vm [ex_dir] -> maps s' ex_page a = false) /\
    (forall i, 0 <= i < 1024 -> mem s' (page2pa ex_page + 4 * i) = 0) /\
    (forall r i, is_page ex_vm r -> r <> ex_page -> 0 <= i < 1024 ->
       mem s' (page2pa r + 4 * i) = mem ex_vm (page2pa r + 4 * i)) /\
    (forall d va, d ∈ [ex_dir] -> 0 <= va < UTOP -> entry s' d va = entry ex_vm d va).
Proof.
  exact (page_alloc_correct ex_refs [ex_dir] ex_free ex_vm ex_vm_inv ex_refs_nonneg).
Defined.

(** [page_init], run on the machine [riscv_vm_init] leaves, marks every
    page below the boot allocator's mark referenced, frees every page above
    it in descending order, and establishes the page invariant with no
    address space. *)
Lemma page_init_correct s :
  boot_ok s ->
  exists s', page_init s = Ret tt s' /\ pm_inv (boot_refs s) [] (boot_free s) s' /\
    list_rep (page_free_list s') (reverse (seqZ (n_used s) (npage s - n_used s))) /\
    (forall p, is_page s p -> pp_ref s' p = if p <? n_used s then 1 else 0) /\
    mem s' = mem s.
Proof.
  intros (Hram & Hf & Hf' & Hr).
  destruct (page_init_inv s Hram Hf Hf' Hr) as (s' & Hrun & I & Hn & Hm & Hp & _).
  exists s'. split_and!; try done. apply (inv_free _ _ _ _ I).
Qed.

Lemma page_init_correct_witness :
  exists s', page_init ex_raw = Ret tt s' /\ pm_inv (boot_refs ex_raw) [] (boot_free ex_raw) s' /\
    list_rep (page_free_list s') (reverse (seqZ (n_used ex_raw) (npage ex_raw - n_used ex_raw))) /\
    (forall p, is_page ex_raw p -> pp_ref s' p = if p <? n_used ex_raw then 1 else 0) /\
    mem s' = mem ex_raw.
Proof. apply page_init_correct. by vm_compute. Defined.

(** The zones a user access may not be served in by allocation. *)
Definition refused_zone (va : Z) : bool :=
  (va <? UTEMP) || ((USTACKTOP <=? va) && (va <? USTACKTOP + BY2PG)) ||
  ((UENVS <=? va) && (va <? UVPT)) || (ULIM <=? va).

Lemma passive_alloc_refused va pgdir asid s :
  refused_zone va = true -> exists msg, passive_alloc va pgdir asid s = Panic msg s.
Proof.
  unfold refused_zone, passive_alloc. intros H.
  destruct (va <? UTEMP); [by eexists|]. rewrite bind_ret_l.
  destruct ((USTACKTOP <=? va) && (va <? USTACKTOP + BY2PG)); [by eexists|]. rewrite bind_ret_l.
  destruct ((UENVS <=? va) && (va <? UPAGES)) eqn:H1; [by eexists|]. rewrite bind_ret_l.
  destruct ((UPAGES <=? va) && (va <? UVPT)) eqn:H2; [by eexists|]. rewrite bind_ret_l.
  destruct (ULIM <=? va) eqn:H3; [by eexists|].
  cbn in H. rewrite orb_false_r in H. unfold UENVS, UPAGES, UVPT, ULIM in *. lia.
Qed.

Lemma passive_alloc_pass va pgdir asid s :
  refused_zone va = false ->
  passive_alloc va pgdir asid s =
    (let! r := page_alloc in
     match r with
     | Err _ => panic "panic_on"
     | OK p => let! r := page_insert pgdir asid p va (Z.lor PTE_W PTE_U) in panic_on r
     end) s.
Proof.
  unfold refused_zone, passive_alloc. intros H.
  destruct (va <? UTEMP); [done|]. rewrite bind_ret_l.
  destruct ((USTACKTOP <=? va) && (va <? USTACKTOP + BY2PG)); [done|]. rewrite bind_ret_l.
  assert (H1 : (UENVS <=? va) && (va <? UPAGES) = false)
    by (unfold UENVS, UPAGES, UVPT, ULIM in *; cbn in *; lia).
  assert (H2 : (UPAGES <=? va) && (va <? UVPT) = false)
    by (unfold UENVS, UPAGES, UVPT, ULIM in *; cbn in *; lia).
  rewrite H1, bind_ret_l, H2, bind_ret_l.
  destruct (ULIM <=? va); [by rewrite orb_true_r in H|]. by rewrite bind_ret_l.
Qed.

Lemma refill_fresh boot D fl s d va asid :
  pm_inv boot D fl s -> (forall p, 0 <= boot p) -> d ∈ D -> 0 <= va < UTOP ->
  entry s d va = None ->
  let m := let! r := page_alloc in
    match r with
    | Err _ => panic "panic_on"
    | OK p => let! r := page_insert (page2pa d) asid p va (Z.lor PTE_W PTE_U) in panic_on r
    end in
  (exists p s' fl', m s = Ret tt s' /\ pm_inv boot D fl' s' /\
     p ∈ fl /\ mapped_as s' d va p (Z.lor PTE_W PTE_U) /\ others_same s s' D d va /\
     pp_ref s' p = 1) \/
  (length fl <= 1)%nat /\ exists msg s', m s = Panic msg s'.
Proof.
  intros I Hb Hd Hva He m. destruct (user_PDX va Hva) as [Hx _]. destruct fl as [|p fl1].
  { right. split; [cbn; lia|]. unfold m, bind.
    rewrite (page_alloc_empty _ (inv_free _ _ _ _ I)). by eexists _, _. }
  destruct (page_alloc_cons _ _ _ (inv_free _ _ _ _ I)) as (q & Hq & Hal).
  destruct (fresh_mappable _ _ _ _ _ _ I Hb Hal) as (fl1' & [= <-] & I1 & Hm & Hr).
  assert (Hv : forall d' va', d' ∈ D -> PDX va' < NUPDE -> entry
    (set_mem (zero_range (page2pa p) BY2PG (mem s)) (set_page_free_list q s)) d' va'
    = entry s d' va').
  { destruct (pm_inv_alloc _ _ _ _ _ _ I (Hb p) Hq)
      as (_ & _ & _ & _ & [HD HT]%not_elem_of_app & _ & Hfr & _).
    intros d' va' Hd' Hva'. apply (view_frame _ _ _ _ _ I); [| |done|done].
    - intros d'' i Hd'' Hi. pose proof NUPDE_bound.
      apply Hfr; [by apply (inv_dir_page _ _ _ _ I)|by intros ->|lia].
    - intros a (r & j & Hr' & Hj & ->)%elem_of_entries.
      apply Hfr; [by apply (inv_table_page _ _ _ _ I)|by intros ->|done]. }
  unfold m. rewrite (bind_step _ _ _ _ _ Hal).
  assert (Hp0 : pp_ref s p = 0) by (apply (inv_free_ref _ _ _ _ I), elem_of_cons; by left).
  destruct (page_insert_inv boot D fl1 _ d va asid p (Z.lor PTE_W PTE_U) I1 Hb Hd Hva Hm)
    as [(s' & fl' & Hrun & [I' Hmap Ho Hr'])|(Hrun & -> & _)]; [by vm_compute| |].
  - left. exists p, s', fl'. rewrite (bind_step _ _ _ _ _ Hrun).
    split_and!; try done; [by apply elem_of_cons; left| |].
    + intros d' va' Hd' Hva' Hns. by rewrite Ho, Hv.
    + rewrite Hr'. unfold mapped_page. rewrite Hv, He by done. cbn.
      rewrite decide_False by done. rewrite Hp0. done.
  - right. split; [cbn; lia|]. unfold bind. rewrite Hrun. by eexists _, _.
Qed.

Lemma do_tlb_refill_run boot D fl s d va asid :
  pm_inv boot D fl s -> (forall p, 0 <= boot p) -> d ∈ D -> cur_pgdir s = page2pa d ->
  0 <= va < UTOP ->
  match entry s d va with
  | Some _ => _do_tlb_refill va asid s = Ret tt s
  | None =>
      if refused_zone va then exists msg, _do_tlb_refill va asid s = Panic msg s
      else
        (exists p s' fl', _do_tlb_refill va asid s = Ret tt s' /\ pm_inv boot D fl' s' /\
           p ∈ fl /\ mapped_as s' d va p (Z.lor PTE_W PTE_U) /\ others_same s s' D d va /\
           pp_ref s' p = 1) \/
        (length fl <= 1)%nat /\ exists msg s', _do_tlb_refill va asid s = Panic msg s'
  end.
Proof.
  intros I Hb Hd Hc Hva. destruct (user_PDX va Hva) as [Hx _].
  assert (Hrun : _do_tlb_refill va asid s =
    match entry s d va with Some _ => Ret tt s | None => passive_alloc va (page2pa d) asid s end).
  { unfold _do_tlb_refill, bind at 1, get. cbv beta iota. rewrite Hc.
    rewrite (bind_step _ _ _ _ _ (lookup_ok _ _ _ _ I d va Hd Hx)). unfold entry.
    destruct (pte_addr s d va) as [a|]; [destruct (valid (mem s a))|]; done. }
  rewrite Hrun. destruct (entry s d va) eqn:He; [done|].
  destruct (refused_zone va) eqn:Hz; [by apply passive_alloc_refused|].
  rewrite (passive_alloc_pass _ _ _ _ Hz). by apply (refill_fresh boot D fl).
Qed.



(** ** Where the code departs from its intent *)

(** [pp_ref] is a [u_short] and nothing guards it: the 65536th mapping of a
    page succeeds and leaves the page mapped with a count of 0, which
    [page_alloc] callers and [page_free] take for unreferenced. *)
Lemma pp_ref_wraps :
  let s := set_pp_ref (upd (pp_ref ex_alloc) ex_page 65535) ex_alloc in
  let o := page_insert (page2pa ex_dir) 0 ex_page 0x400000 PTE_W s in
  out_val o = Some 0 /\
  let s' := run (page_insert (page2pa ex_dir) 0 ex_page 0x400000 PTE_W) s in
  pp_ref s' ex_page = 0 /\ mapped_page s' ex_dir 0x400000 = Some ex_page.
Proof. by vm_compute. Qed.

(** [perm] is or-ed into the entry unmasked: bits from 0x400 up change the
    page the entry points to (here page 8 is asked for and page 9 mapped),
    while the reference goes to the page asked for. *)
Lemma perm_redirects :
  let s := set_page_free_list (page_free_list ex_alloc) ex_alloc in
  let s' := run (page_insert (page2pa ex_dir) 0 8 0x400000 (Z.lor PTE_W 0x400)) s in
  out_val (page_insert (page2pa ex_dir) 0 8 0x400000 (Z.lor PTE_W 0x400) s) = Some 0 /\
  mapped_page s' ex_dir 0x400000 = Some 9 /\ pp_ref s' 8 = 1 /\ pp_ref s' 9 = 0.
Proof. by vm_compute. Qed.

(** [passive_alloc] accepts addresses from [UVPT] to [ULIM], above the user
    part [env_free] walks. *)
Lemma passive_alloc_uvpt :
  (UVPT <? ULIM) = true /\ PDX UVPT >= PDX UTOP /\
  out_val (passive_alloc UVPT (page2pa ex_dir) 0 ex_vm) = Some tt.
Proof. by vm_compute. Qed.
