(* ===== verification/Print.v ===== *)
(** * Formatted output (lib/print.c)

    A C string is the list of its characters without the terminator, and a
    read at its end is the terminator 0; a [va_list] is the list of the
    arguments left.  The output callback is a parameter: a function on the
    caller's state, given the characters of the buffer. *)
From S2P Require Import Prelude.

Definition fmt_callback_t (S : Type) : Type := list Z -> M S unit.

Inductive va_arg : Type := VInt (n : Z) | VStr (s : list Z).

(** Character codes. *)
Definition ch_percent : Z := 37.
Definition ch_minus : Z := 45.
Definition ch_0 : Z := 48.
Definition ch_9 : Z := 57.
Definition ch_space : Z := 32.
Definition ch_l : Z := 108.
Definition ch_A : Z := 65.
Definition ch_a : Z := 97.

(** ** [print_num] *)

(** The digit loop; at most 32 digits of a 32-bit word in base 2. *)
Definition num_char (tmp : Z) (upcase : bool) : Z :=
  if tmp <=? 9 then ch_0 + tmp else if upcase then ch_A + tmp - 10 else ch_a + tmp - 10.

Fixpoint put_digits (n : nat) (u base : Z) (upcase : bool) (p : Z) (buf : Z -> Z)
    : option (Z * (Z -> Z)) :=
  match n with
  | O => None
  | S n =>
      let buf := upd buf p (num_char (u mod base) upcase) in
      let u := u / base in
      if u =? 0 then Some (p + 1, buf) else put_digits n u base upcase (p + 1) buf
  end.

(** [for (i = lo; i < hi; i++) buf[i] = c;] *)
Fixpoint fill_from (n : nat) (lo c : Z) (buf : Z -> Z) : Z -> Z :=
  match n with O => buf | S n => fill_from n (lo + 1) c (upd buf lo c) end.
Definition fill (lo hi c : Z) (buf : Z -> Z) : Z -> Z := fill_from (Z.to_nat (hi - lo)) lo c buf.

(** [while (end > begin)] swap and move inwards. *)
Fixpoint reverse_loop (n : nat) (begin end_ : Z) (buf : Z -> Z) : Z -> Z :=
  match n with
  | O => buf
  | S n =>
      if begin <? end_ then
        let tmp := buf begin in
        reverse_loop n (begin + 1) (end_ - 1) (upd (upd buf begin (buf end_)) end_ tmp)
      else buf
  end.

Definition buf_list (buf : Z -> Z) (n : Z) : list Z := buf <$> seqZ 0 n.

(** The buffer [print_num] hands to [out], and its length. *)
Definition num_buffer (u base : Z) (neg_flag : bool) (length : Z) (ladjust : bool) (padc : Z)
    (upcase : bool) : option (list Z) :=
  match put_digits 33 u base upcase 0 (fun _ => 0) with
  | None => None
  | Some (p, buf) =>
      let '(p, buf) := if neg_flag then (p + 1, upd buf p ch_minus) else (p, buf) in
      let actualLength := p in
      let length := if length <? actualLength then actualLength else length in
      let padc := if ladjust then ch_space else padc in
      let buf :=
        if neg_flag && negb ladjust && (padc =? ch_0) then
          upd (fill (actualLength - 1) (length - 1) padc buf) (length - 1) ch_minus
        else fill actualLength length padc buf in
      let end_ := if ladjust then actualLength - 1 else length - 1 in
      let buf := reverse_loop (Z.to_nat length) 0 end_ buf in
      Some (buf_list buf length)
  end.

Section Format.
Context {S : Type} (out : fmt_callback_t S).

Definition print_num (u base : Z) (neg_flag : bool) (length : Z) (ladjust : bool) (padc : Z)
    (upcase : bool) : M S unit :=
  match num_buffer u base neg_flag length ladjust padc upcase with
  | Some buf => out buf
  | None => fault
  end.

(** [n] spaces, one call each. *)
Definition spaces (n : Z) : M S unit := forM (seqZ 0 n) (fun _ => out [ch_space]).

Definition print_char (c length : Z) (ladjust : bool) : M S unit :=
  let length := if length <? 1 then 1 else length in
  if ladjust then out [c] ;! spaces (length - 1)
  else spaces (length - 1) ;! out [c].

Definition print_str (s : list Z) (length : Z) (ladjust : bool) : M S unit :=
  let len := Z.of_nat (List.length s) in
  let length := if length <? len then len else length in
  if ladjust then out s ;! spaces (length - len)
  else spaces (length - len) ;! out s.

(** ** [vprintfmt] *)
Definition head0 (fmt : list Z) : Z := match fmt with [] => 0 | c :: _ => c end.

(** The text before the next percent sign and the rest. *)
Fixpoint scan_text (fmt : list Z) : list Z * list Z :=
  match fmt with
  | [] => ([], [])
  | c :: fmt' =>
      if c =? ch_percent then ([], fmt)
      else let '(t, r) := scan_text fmt' in (c :: t, r)
  end.

Fixpoint scan_width (fmt : list Z) (width : Z) : Z * list Z :=
  match fmt with
  | c :: fmt' =>
      if (ch_0 <=? c) && (c <=? ch_9) then scan_width fmt' (width * 10 + c - ch_0)
      else (width, fmt)
  | [] => (width, [])
  end.

(** [va_arg(ap, int)] or [va_arg(ap, long)], both 32 bits, as signed. *)
Definition next_int {A} (ap : list va_arg) (k : Z -> list va_arg -> M S A) : M S A :=
  match ap with VInt n :: ap => k (s32 n) ap | _ => fault end.
Definition next_str {A} (ap : list va_arg) (k : list Z -> list va_arg -> M S A) : M S A :=
  match ap with VStr s :: ap => k s ap | _ => fault end.

(** The [switch] on the conversion character; returns the arguments left. *)
Definition conversion (c : Z) (width : Z) (ladjust : bool) (padc : Z) (ap : list va_arg)
    : M S (list va_arg) :=
  let num (base : Z) (upcase : bool) :=
    next_int ap (fun n ap => print_num (u32 n) base false width ladjust padc upcase ;! ret ap) in
  if c =? 98 (* b *) then num 2 false
  else if (c =? 100) || (c =? 68) (* d D *) then
    next_int ap (fun n ap =>
      let '(neg_flag, n) := if n <? 0 then (true, - n) else (false, n) in
      print_num (u32 n) 10 neg_flag width ladjust padc false ;! ret ap)
  else if (c =? 111) || (c =? 79) (* o O *) then num 8 false
  else if (c =? 117) || (c =? 85) (* u U *) then num 10 false
  else if c =? 120 (* x *) then num 16 false
  else if c =? 88 (* X *) then num 16 true
  else if c =? 99 (* c *) then
    next_int ap (fun n ap => print_char (u8 n) width ladjust ;! ret ap)
  else if c =? 115 (* s *) then
    next_str ap (fun s ap => print_str s width ladjust ;! ret ap)
  else if c =? 0 then ret ap
  else out [c] ;! ret ap.

(** The flags, the width and the [l] of one directive. *)
Definition scan_flags (fmt : list Z) : bool * Z * Z * list Z :=
  let '(ladjust, fmt) := if head0 fmt =? ch_minus then (true, tail fmt) else (false, fmt) in
  let '(padc, fmt) := if head0 fmt =? ch_0 then (ch_0, tail fmt) else (ch_space, fmt) in
  let '(width, fmt) := scan_width fmt 0 in
  let fmt := if head0 fmt =? ch_l then tail fmt else fmt in
  (ladjust, padc, width, fmt).

Fixpoint vprintfmt_loop (n : nat) (fmt : list Z) (ap : list va_arg) : M S unit :=
  match n with
  | O => fault
  | Datatypes.S n =>
      let '(text, fmt) := scan_text fmt in
      out text ;!
      match fmt with
      | [] => ret tt
      | _ :: fmt =>
          let '(ladjust, padc, width, fmt) := scan_flags fmt in
          let! ap := conversion (head0 fmt) width ladjust padc ap in
          vprintfmt_loop n (tail fmt) ap
      end
  end.

(** Each iteration but the last consumes a percent sign. *)
Definition vprintfmt (fmt : list Z) (ap : list va_arg) : M S unit :=
  vprintfmt_loop (Datatypes.S (List.length fmt)) fmt ap.
End Format.

(** ** The number as a reader sees it *)

(** Digits, least significant first. *)
Fixpoint digits_le (n : nat) (base u : Z) : list Z :=
  match n with
  | O => []
  | S n => u mod base :: (if u / base =? 0 then [] else digits_le n base (u / base))
  end.

(** The value of a list of digits, most significant first. *)
Definition digits_value (base : Z) (l : list Z) : Z := foldl (fun v d => v * base + d) 0 l.

Definition pad_of (length : Z) (ds : list Z) (neg : bool) (c : Z) : list Z :=
  replicate (Z.to_nat (length - Z.of_nat (List.length ds) - Z.b2z neg)) c.

(** What [print_num] should print. *)
Definition num_spec (u base : Z) (neg : bool) (length : Z) (ladjust : bool) (padc : Z)
    (upcase : bool) : list Z :=
  let ds := reverse (digits_le 33 base u) in
  let cs := (fun d => num_char d upcase) <$> ds in
  let sign := if neg then [ch_minus] else [] in
  if ladjust then sign ++ cs ++ pad_of length ds neg ch_space
  else if neg && (padc =? ch_0) then sign ++ pad_of length ds neg padc ++ cs
  else pad_of length ds neg padc ++ sign ++ cs.

(** ** The buffer operations on lists *)
Definition holds (l : list Z) (buf : Z -> Z) : Prop :=
  forall i c, l !! i = Some c -> buf (Z.of_nat i) = c.

Lemma holds_buf_list l buf : holds l buf -> buf_list buf (Z.of_nat (length l)) = l.
Proof.
  intros H. apply list_eq. intros i. unfold buf_list. rewrite list_lookup_fmap.
  destruct (l !! i) as [c|] eqn:Hi.
  - rewrite lookup_seqZ_lt by (apply lookup_lt_Some in Hi; lia). cbn. f_equal.
    rewrite Z.add_0_l. by apply H.
  - rewrite lookup_seqZ_ge by (apply lookup_ge_None in Hi; lia). done.
Qed.

Lemma holds_app l1 l2 buf :
  holds l1 buf -> (forall i c, l2 !! i = Some c -> buf (Z.of_nat (length l1) + Z.of_nat i) = c) ->
  holds (l1 ++ l2) buf.
Proof.
  intros H1 H2 i c Hi. apply lookup_app_Some in Hi as [Hi|[Hge Hi]]; [by apply H1|].
  rewrite <- (H2 _ _ Hi). f_equal. lia.
Qed.

Lemma holds_app_l l1 l2 buf : holds (l1 ++ l2) buf -> holds l1 buf.
Proof. intros H i c Hi. apply H. by apply lookup_app_l_Some. Qed.

Lemma holds_frame l buf buf' :
  (forall x, 0 <= x < Z.of_nat (length l) -> buf' x = buf x) -> holds l buf -> holds l buf'.
Proof.
  intros Hx H i c Hi. rewrite Hx; [by apply H|]. apply lookup_lt_Some in Hi. lia.
Qed.

Lemma fill_spec lo hi c buf x :
  fill lo hi c buf x = if (lo <=? x) && (x <? hi) then c else buf x.
Proof.
  unfold fill. remember (Z.to_nat (hi - lo)) as n eqn:Hn. revert lo buf Hn.
  induction n as [|n IH]; intros lo buf Hn; cbn [fill_from].
  - destruct (Z.leb_spec lo x), (Z.ltb_spec x hi); cbn; (done || lia).
  - rewrite IH by lia. rewrite upd_case.
    destruct (Z.leb_spec (lo + 1) x), (Z.leb_spec lo x), (Z.ltb_spec x hi); cbn; try lia; try done;
      case_decide; (done || lia).
Qed.

Lemma reverse_loop_spec n b e buf x :
  e - b < 2 * Z.of_nat n ->
  reverse_loop n b e buf x = if (b <=? x) && (x <=? e) then buf (b + e - x) else buf x.
Proof.
  revert b e buf. induction n as [|n IH]; intros b e buf Hn; cbn [reverse_loop].
  - destruct (Z.leb_spec b x), (Z.leb_spec x e); cbn; try done.
    f_equal. lia.
  - destruct (Z.ltb_spec b e).
    + rewrite IH by lia. replace (b + 1 + (e - 1)) with (b + e) by lia. rewrite !upd_case.
      destruct (Z.leb_spec (b + 1) x), (Z.leb_spec x (e - 1)), (Z.leb_spec b x), (Z.leb_spec x e);
        cbn; repeat case_decide; subst; (done || lia || (f_equal; lia)).
    + destruct (Z.leb_spec b x), (Z.leb_spec x e); cbn; try done. f_equal. lia.
Qed.

(** Reversing a prefix. *)
Lemma reverse_prefix l1 l2 buf n :
  holds (l1 ++ l2) buf -> Z.of_nat (length l1) <= 2 * Z.of_nat n ->
  holds (reverse l1 ++ l2) (reverse_loop n 0 (Z.of_nat (length l1) - 1) buf).
Proof.
  intros H Hn. apply holds_app.
  - intros i c Hi. pose proof (lookup_lt_Some _ _ _ Hi) as Hlt. rewrite length_reverse in Hlt.
    rewrite reverse_loop_spec by lia.
    destruct (Z.leb_spec 0 (Z.of_nat i)); [|lia].
    destruct (Z.leb_spec (Z.of_nat i) (Z.of_nat (length l1) - 1)); [|lia]. cbn [andb].
    rewrite reverse_lookup in Hi by lia.
    replace (0 + (Z.of_nat (length l1) - 1) - Z.of_nat i)
      with (Z.of_nat (length l1 - S i)) by lia.
    apply H. by apply lookup_app_l_Some.
  - intros i c Hi. rewrite length_reverse, reverse_loop_spec by lia.
    destruct (Z.leb_spec (Z.of_nat (length l1) + Z.of_nat i) (Z.of_nat (length l1) - 1)); [lia|].
    rewrite andb_false_r. rewrite <- Nat2Z.inj_add. apply H.
    by rewrite lookup_app_r, Nat.add_comm, Nat.add_sub by lia.
Qed.

(** ** The digits *)
Lemma digits_le_length n base u : (0 < n)%nat -> (1 <= length (digits_le n base u))%nat.
Proof. destruct n; cbn; lia. Qed.

Lemma put_digits_spec n u base upcase p buf :
  2 <= base -> 0 <= u < 2 ^ Z.of_nat n -> (0 < n)%nat ->
  exists buf', put_digits n u base upcase p buf
    = Some (p + Z.of_nat (length (digits_le n base u)), buf') /\
    (forall i d, digits_le n base u !! i = Some d -> buf' (p + Z.of_nat i) = num_char d upcase) /\
    (forall x, x < p -> buf' x = buf x).
Proof.
  intros Hb. revert u p buf. induction n as [|n IH]; intros u p buf Hu Hn; [lia|].
  cbn [put_digits digits_le]. destruct (Z.eqb_spec (u / base) 0) as [H0|Hne].
  - eexists. split; [reflexivity|]. split.
    + intros [|i] d Hi; [|done]. cbn in Hi. injection Hi as <-. by rewrite Z.add_0_r, upd_same.
    + intros x Hx. apply upd_other. lia.
  - assert (Hq : 0 <= u / base < 2 ^ Z.of_nat n).
    { split; [apply Z.div_pos; lia|]. apply Z.div_lt_upper_bound; [lia|].
      rewrite Nat2Z.inj_succ, Z.pow_succ_r in Hu by lia. nia. }
    assert (Hn' : (0 < n)%nat).
    { destruct n; [|lia]. cbn in Hq. lia. }
    destruct (IH (u / base) (p + 1) (upd buf p (num_char (u mod base) upcase)) Hq Hn')
      as (buf' & Hrun & Hd & Hfr).
    exists buf'. rewrite Hrun. split; [f_equal; f_equal; cbn [length]; lia|]. split.
    + intros [|i] d Hi; cbn in Hi.
      * injection Hi as <-. rewrite Z.add_0_r, Hfr by lia. by rewrite upd_same.
      * rewrite <- (Hd i d Hi). f_equal. lia.
    + intros x Hx. rewrite Hfr by lia. apply upd_other. lia.
Qed.

Lemma digits_value_reverse base l :
  digits_value base (reverse l) = foldr (fun d v => v * base + d) 0 l.
Proof.
  unfold digits_value. induction l as [|d l IH]; [done|].
  rewrite reverse_cons, foldl_app. cbn. by rewrite IH.
Qed.

Lemma digits_roundtrip n base u :
  2 <= base -> 0 <= u < 2 ^ Z.of_nat n ->
  digits_value base (reverse (digits_le n base u)) = u.
Proof.
  intros Hb. rewrite digits_value_reverse. revert u.
  induction n as [|n IH]; intros u Hu; cbn [digits_le foldr].
  - cbn in Hu. lia.
  - pose proof (Z.div_mod u base ltac:(lia)) as Hdm.
    destruct (Z.eqb_spec (u / base) 0) as [H0|Hne]; cbn [foldr]; [rewrite H0 in Hdm; lia|].
    rewrite IH; [lia|]. split; [apply Z.div_pos; lia|]. apply Z.div_lt_upper_bound; [lia|].
    rewrite Nat2Z.inj_succ, Z.pow_succ_r in Hu by lia. nia.
Qed.

Lemma digits_range n base u d : 2 <= base -> d ∈ digits_le n base u -> 0 <= d < base.
Proof.
  intros Hb. revert u. induction n as [|n IH]; intros u; cbn [digits_le].
  - by intros ?%elem_of_nil.
  - intros [->|Hd]%elem_of_cons; [apply Z.mod_pos_bound; lia|].
    destruct (u / base =? 0); [by apply elem_of_nil in Hd|by apply (IH (u / base))].
Qed.

(** ** [num_buffer] *)
Lemma reverse_app_rev {A} (l1 l2 : list A) : reverse (l1 ++ l2) = reverse l2 ++ reverse l1.
Proof. apply reverse_app. Qed.

Lemma holds_nil buf : holds [] buf.
Proof. intros i c Hi. by rewrite lookup_nil in Hi. Qed.

(** A buffer holding [l], padded with [c] up to [L]. *)
Lemma holds_pad l buf L c :
  holds l buf -> Z.of_nat (length l) <= L ->
  holds (l ++ replicate (Z.to_nat (L - Z.of_nat (length l))) c)
    (fill (Z.of_nat (length l)) L c buf).
Proof.
  intros H HL. apply holds_app.
  - apply (holds_frame _ buf); [|done]. intros x Hx. rewrite fill_spec.
    destruct (Z.leb_spec (Z.of_nat (length l)) x); [lia|done].
  - intros i d [-> Hi]%lookup_replicate. rewrite fill_spec.
    destruct (Z.leb_spec (Z.of_nat (length l)) (Z.of_nat (length l) + Z.of_nat i)); [|lia].
    destruct (Z.ltb_spec (Z.of_nat (length l) + Z.of_nat i) L); [done|lia].
Qed.

(** The whole buffer reversed. *)
Lemma reverse_all l buf L : holds l buf -> Z.of_nat (length l) = L ->
  buf_list (reverse_loop (Z.to_nat L) 0 (L - 1) buf) L = reverse l.
Proof.
  intros H <-. rewrite <- (app_nil_r l) in H. apply (reverse_prefix _ _ _ (length l)) in H; [|lia].
  rewrite app_nil_r in H. apply holds_buf_list in H. rewrite length_reverse in H. by rewrite Nat2Z.id.
Qed.

(** The three ways to pad: on the right, with zeros after the sign, on the
    left. *)
Lemma pad_left_adjusted l buf L c : holds l buf -> Z.of_nat (length l) <= L ->
  let a := Z.of_nat (length l) in
  buf_list (reverse_loop (Z.to_nat L) 0 (a - 1) (fill a L c buf)) L
  = reverse l ++ replicate (Z.to_nat (L - a)) c.
Proof.
  intros H HL a. pose proof (holds_pad l buf L c H HL) as Hf. fold a in Hf.
  apply (reverse_prefix _ _ _ (Z.to_nat L)) in Hf; [|lia]. fold a in Hf.
  apply holds_buf_list in Hf. rewrite <- Hf. f_equal. rewrite length_app, length_reverse, length_replicate. lia.
Qed.

Lemma pad_zeros l buf L c : holds l buf -> Z.of_nat (length l) + 1 <= L ->
  let a := Z.of_nat (length l) in
  buf_list (reverse_loop (Z.to_nat L) 0 (L - 1) (upd (fill a (L - 1) c buf) (L - 1) ch_minus)) L
  = [ch_minus] ++ replicate (Z.to_nat (L - 1 - a)) c ++ reverse l.
Proof.
  intros H HL a. rewrite (reverse_all ((l ++ replicate (Z.to_nat (L - 1 - a)) c) ++ [ch_minus])).
  - by rewrite !reverse_app, reverse_replicate.
  - apply holds_app.
    + apply (holds_frame _ (fill a (L - 1) c buf)); [|apply holds_pad; [done|lia]].
      intros x Hx. apply upd_other. rewrite length_app, length_replicate in Hx. lia.
    + intros i x [-> <-]%list_lookup_singleton_Some. rewrite length_app, length_replicate.
      replace (Z.of_nat (length l + Z.to_nat (L - 1 - a)) + Z.of_nat 0) with (L - 1) by lia. apply upd_same.
  - rewrite !length_app, length_replicate. cbn [length]. lia.
Qed.

Lemma pad_right_adjusted l buf L c : holds l buf -> Z.of_nat (length l) <= L ->
  let a := Z.of_nat (length l) in
  buf_list (reverse_loop (Z.to_nat L) 0 (L - 1) (fill a L c buf)) L
  = replicate (Z.to_nat (L - a)) c ++ reverse l.
Proof.
  intros H HL a. rewrite (reverse_all (l ++ replicate (Z.to_nat (L - a)) c)).
  - by rewrite reverse_app, reverse_replicate.
  - by apply holds_pad.
  - rewrite length_app, length_replicate. lia.
Qed.

Lemma num_buffer_spec u base neg len ladjust padc upcase :
  2 <= base -> 0 <= u < 2 ^ 32 ->
  num_buffer u base neg len ladjust padc upcase =
  Some (num_spec u base neg len ladjust padc upcase).
Proof.
  intros Hb Hu. unfold num_buffer.
  destruct (put_digits_spec 33 u base upcase 0 (fun _ => 0) Hb) as (b0 & Hrun & Hd & _);
    [cbn; lia|lia|]. rewrite Hrun. rewrite Z.add_0_l.
  set (ds := digits_le 33 base u) in *.
  set (cs := (fun d => num_char d upcase) <$> ds).
  assert (Hc0 : holds cs b0).
  { intros i c Hi. unfold cs in Hi. rewrite list_lookup_fmap in Hi.
    destruct (ds !! i) as [d|] eqn:He; [|done]. cbn in Hi. injection Hi as <-.
    by rewrite <- (Hd i d He). }
  assert (Hlen : length cs = length ds) by apply length_fmap.
  assert (Hds : (1 <= length ds)%nat) by (apply digits_le_length; lia).
  set (sign := if neg then [ch_minus] else []).
  set (b1 := if neg then upd b0 (Z.of_nat (length ds)) ch_minus else b0).
  assert (Hc1 : holds (cs ++ sign) b1).
  { unfold sign, b1. destruct neg; [|by rewrite app_nil_r]. apply holds_app.
    - apply (holds_frame _ b0); [|done]. intros x Hx. apply upd_other. lia.
    - intros i c [-> <-]%list_lookup_singleton_Some.
      rewrite Hlen, Z.add_0_r. apply upd_same. }
  set (actual := Z.of_nat (length ds) + Z.b2z neg).
  assert (Hact : actual = Z.of_nat (length (cs ++ sign)))
    by (rewrite length_app, Hlen; unfold actual, sign; destruct neg; cbn; lia).
  replace (if neg then (Z.of_nat (length ds) + 1, upd b0 (Z.of_nat (length ds)) ch_minus)
           else (Z.of_nat (length ds), b0)) with (actual, b1)
    by (unfold actual, b1; destruct neg; cbn [Z.b2z]; f_equal; lia).
  set (L := if len <? actual then actual else len).
  assert (HL : actual <= L) by (unfold L; destruct (Z.ltb_spec len actual); lia).
  assert (Hpad : forall c, pad_of len (reverse ds) neg c = replicate (Z.to_nat (L - actual)) c).
  { intros c. unfold pad_of. rewrite length_reverse. f_equal. unfold L, actual.
    destruct (Z.ltb_spec len (Z.of_nat (length ds) + Z.b2z neg)); lia. }
  f_equal. unfold num_spec. fold ds. rewrite !Hpad, fmap_reverse. fold cs. fold sign.
  assert (Hrs : reverse sign = sign) by (unfold sign; by destruct neg).
  destruct ladjust; cbn [negb]; [rewrite andb_false_r; cbn [andb]|rewrite andb_true_r;
    destruct (neg && (padc =? ch_0)) eqn:Hz].
  - rewrite Hact in *. rewrite (pad_left_adjusted _ _ _ _ Hc1 HL), reverse_app, Hrs. by rewrite <- app_assoc.
  - apply andb_true_iff in Hz as [-> ->%Z.eqb_eq]. apply holds_app_l in Hc1.
    replace (actual - 1) with (Z.of_nat (length cs)) by (unfold actual; cbn [Z.b2z]; lia).
    rewrite (pad_zeros _ _ _ _ Hc1) by (unfold actual in HL; cbn [Z.b2z] in HL; lia).
    do 3 f_equal. unfold actual. cbn [Z.b2z]. lia.
  - rewrite Hact in *. by rewrite (pad_right_adjusted _ _ _ _ Hc1 HL), reverse_app, Hrs.
Qed.

(** ** The scanner makes progress *)
Lemma scan_text_length fmt : (length (snd (scan_text fmt)) <= length fmt)%nat.
Proof.
  induction fmt as [|c fmt IH]; cbn; [lia|]. destruct (c =? ch_percent); cbn; [lia|].
  destruct (scan_text fmt) as [t r]. cbn in *. lia.
Qed.

Lemma scan_width_length fmt w : (length (snd (scan_width fmt w)) <= length fmt)%nat.
Proof.
  revert w. induction fmt as [|c fmt IH]; intros w; cbn; [lia|].
  destruct (_ && _); cbn; [|lia]. specialize (IH (w * 10 + c - ch_0)). lia.
Qed.

Lemma tail_length (l : list Z) : (length (tail l) <= length l)%nat.
Proof. destruct l; cbn; lia. Qed.

Lemma scan_flags_length fmt : (length (snd (scan_flags fmt)) <= length fmt)%nat.
Proof.
  unfold scan_flags. pose proof (tail_length fmt).
  destruct (head0 fmt =? ch_minus).
  - set (f1 := tail fmt) in *. pose proof (tail_length f1).
    destruct (head0 f1 =? ch_0).
    + pose proof (scan_width_length (tail f1) 0). destruct (scan_width (tail f1) 0) as [w f2].
      pose proof (tail_length f2). cbn in *. destruct (head0 f2 =? ch_l); lia.
    + pose proof (scan_width_length f1 0). destruct (scan_width f1 0) as [w f2].
      pose proof (tail_length f2). cbn in *. destruct (head0 f2 =? ch_l); lia.
  - destruct (head0 fmt =? ch_0).
    + pose proof (scan_width_length (tail fmt) 0). destruct (scan_width (tail fmt) 0) as [w f2].
      pose proof (tail_length f2). cbn in *. destruct (head0 f2 =? ch_l); lia.
    + pose proof (scan_width_length fmt 0). destruct (scan_width fmt 0) as [w f2].
      pose proof (tail_length f2). cbn in *. destruct (head0 f2 =? ch_l); lia.
Qed.

Lemma vprintfmt_fuel {S} (out : fmt_callback_t S) n : forall m fmt ap s,
  (length fmt < n)%nat -> (length fmt < m)%nat ->
  vprintfmt_loop out n fmt ap s = vprintfmt_loop out m fmt ap s.
Proof.
  induction n as [|n IH]; intros m fmt ap s Hn Hm; [lia|]. destruct m as [|m]; [lia|].
  cbn [vprintfmt_loop]. pose proof (scan_text_length fmt) as Ht.
  destruct (scan_text fmt) as [text fmt1]. cbn in Ht.
  unfold bind. destruct (out text s) as [[] s1| | |]; try done.
  destruct fmt1 as [|c fmt1]; [done|]. pose proof (scan_flags_length fmt1) as Hf.
  destruct (scan_flags fmt1) as [[[ladjust padc] width] fmt2]. cbn in Hf.
  destruct (conversion _ _ _ _ _ _ s1) as [ap' s2| | |]; try done.
  pose proof (tail_length fmt2). cbn in Ht. apply IH; lia.
Qed.

(** C22. [print_num] makes one call of the callback, with exactly the text of
    the reference layout: sign, digits and padding placed as the flags ask
    (zeros after the sign, blanks before it, blanks after the number when left
    adjusted); the digits are below the base and read back as the number. *)
Theorem print_num_correct {S} (out : fmt_callback_t S) u base neg len ladjust padc upcase s :
  2 <= base -> 0 <= u < 2 ^ 32 ->
  let ds := reverse (digits_le 33 base u) in
  print_num out u base neg len ladjust padc upcase s =
    out (num_spec u base neg len ladjust padc upcase) s /\
  digits_value base ds = u /\ (forall d, d ∈ ds -> 0 <= d < base) /\
  Z.of_nat (length (num_spec u base neg len ladjust padc upcase)) =
    Z.max len (Z.of_nat (length ds) + Z.b2z neg).
Proof.
  intros Hb Hu ds. split_and!.
  - unfold print_num. by rewrite num_buffer_spec.
  - apply digits_roundtrip; [done|]. cbn; lia.
  - intros d Hd. unfold ds in Hd. rewrite elem_of_reverse in Hd. exact (digits_range 33 base u d Hb Hd).
  - unfold num_spec. fold ds. unfold pad_of.
    destruct ladjust, neg; cbn [Z.b2z andb];
      repeat case_match; rewrite ?length_app, ?length_fmap, ?length_replicate; cbn [length]; lia.
Qed.

(** Callback collecting everything printed. *)
Definition collect : fmt_callback_t (list Z) := fun buf s => Ret tt (s ++ buf).

Lemma print_num_correct_witness :
  let ds := reverse (digits_le 33 10 305) in
  print_num collect 305 10 true 6 false ch_0 false [] =
    collect (num_spec 305 10 true 6 false ch_0 false) [] /\
  digits_value 10 ds = 305 /\ (forall d, d ∈ ds -> 0 <= d < 10) /\
  Z.of_nat (length (num_spec 305 10 true 6 false ch_0 false)) =
    Z.max 6 (Z.of_nat (length ds) + Z.b2z true).
Proof. apply print_num_correct; by vm_compute. Defined.

(** One turn of the loop, with no bound on the number of turns. *)
Lemma vprintfmt_step {S} (out : fmt_callback_t S) fmt ap s :
  vprintfmt out fmt ap s =
  (let '(text, fmt1) := scan_text fmt in
   out text ;!
   match fmt1 with
   | [] => ret tt
   | _ :: fmt1 =>
       let '(ladjust, padc, width, fmt2) := scan_flags fmt1 in
       let! ap := conversion out (head0 fmt2) width ladjust padc ap in
       vprintfmt out (tail fmt2) ap
   end) s.
Proof.
  unfold vprintfmt at 1. cbn [vprintfmt_loop]. pose proof (scan_text_length fmt) as Ht.
  destruct (scan_text fmt) as [text fmt1]. cbn in Ht.
  unfold bind. destruct (out text s) as [[] s1| | |]; try done.
  destruct fmt1 as [|c fmt1]; [done|]. pose proof (scan_flags_length fmt1) as Hf.
  destruct (scan_flags fmt1) as [[[ladjust padc] width] fmt2]. cbn in Hf.
  destruct (conversion _ _ _ _ _ _ s1) as [ap' s2| | |]; try done.
  pose proof (tail_length fmt2). cbn in Ht. apply vprintfmt_fuel; lia.
Qed.

(** ** What a format means

    A directive is a percent sign, the flags and a conversion letter. *)
Record flags := mkFlags { fl_left : bool; fl_zero : bool; fl_digits : list Z; fl_long : bool }.

Definition show_flags (f : flags) : list Z :=
  (if fl_left f then [ch_minus] else []) ++ (if fl_zero f then [ch_0] else []) ++
  fl_digits f ++ (if fl_long f then [ch_l] else []).

Definition is_digit (c : Z) : Prop := ch_0 <= c <= ch_9.

(** The width starts with a zero only behind the flag [0]. *)
Definition flags_ok (f : flags) : Prop :=
  Forall is_digit (fl_digits f) /\ (fl_zero f = false -> head0 (fl_digits f) <> ch_0).

(** The letter [c] is not read as one more flag. *)
Definition letter_ok (f : flags) (c : Z) : Prop :=
  c <> 0 /\ (fl_long f = false -> c <> ch_l /\ ~ is_digit c /\
    (show_flags f = [] -> c <> ch_minus)).

Definition fl_width (f : flags) : Z := digits_value 10 ((fun c => c - ch_0) <$> fl_digits f).
Definition fl_padc (f : flags) : Z := if fl_zero f then ch_0 else ch_space.

(** The conversions; any other letter stands for itself. *)
Inductive conv := KNum (base : Z) (upcase : bool) | KDec | KChar | KStr | KSelf.

Definition letters : list (Z * conv) :=
  [(98, KNum 2 false); (100, KDec); (68, KDec); (111, KNum 8 false); (79, KNum 8 false);
   (117, KNum 10 false); (85, KNum 10 false); (120, KNum 16 false); (88, KNum 16 true);
   (99, KChar); (115, KStr)].

Fixpoint assoc (c : Z) (l : list (Z * conv)) : conv :=
  match l with [] => KSelf | (x, k) :: l => if decide (c = x) then k else assoc c l end.

(** [t] in a field of [width] characters. *)
Definition padded (width : Z) (left : bool) (t : list Z) : list Z :=
  let blanks := replicate (Z.to_nat (width - Z.of_nat (length t))) ch_space in
  if left then t ++ blanks else blanks ++ t.

(** The text of a directive, and the arguments left. *)
Inductive directive_text (f : flags) (c : Z) : list va_arg -> list va_arg -> list Z -> Prop :=
| text_num base up n ap : assoc c letters = KNum base up ->
    directive_text f c (VInt n :: ap) ap
      (num_spec (u32 n) base false (fl_width f) (fl_left f) (fl_padc f) up)
| text_dec n ap : assoc c letters = KDec ->
    directive_text f c (VInt n :: ap) ap
      (num_spec (Z.abs (s32 n)) 10 (s32 n <? 0) (fl_width f) (fl_left f) (fl_padc f) false)
| text_char n ap : assoc c letters = KChar ->
    directive_text f c (VInt n :: ap) ap (padded (fl_width f) (fl_left f) [u8 n])
| text_str t ap : assoc c letters = KStr ->
    directive_text f c (VStr t :: ap) ap (padded (fl_width f) (fl_left f) t)
| text_self ap : assoc c letters = KSelf -> directive_text f c ap ap [c].

(** The text a format and its arguments stand for.  A directive cut off by the
    end of the format prints nothing. *)
Inductive formats : list Z -> list va_arg -> list Z -> Prop :=
| formats_nil ap : formats [] ap []
| formats_text c fmt ap txt : c <> ch_percent -> formats fmt ap txt ->
    formats (c :: fmt) ap (c :: txt)
| formats_cut f ap : flags_ok f -> formats (ch_percent :: show_flags f) ap []
| formats_directive f c fmt ap ap' t txt :
    flags_ok f -> letter_ok f c -> directive_text f c ap ap' t -> formats fmt ap' txt ->
    formats (ch_percent :: show_flags f ++ c :: fmt) ap (t ++ txt).

(** *** Reading a directive *)
Lemma scan_width_digits ds rest w :
  Forall is_digit ds -> ~ is_digit (head0 rest) ->
  scan_width (ds ++ rest) w =
  (foldl (fun v d => v * 10 + d) w ((fun c => c - ch_0) <$> ds), rest).
Proof.
  intros Hds Hr. revert w. induction Hds as [|c ds Hc _ IH]; intros w.
  - destruct rest as [|c rest]; [done|]. cbn in *. unfold is_digit in Hr.
    destruct (Z.leb_spec ch_0 c), (Z.leb_spec c ch_9); cbn; (done || lia).
  - cbn. destruct Hc as [H0 H9]. apply Z.leb_le in H0 as ->. apply Z.leb_le in H9 as ->. cbn.
    rewrite IH. do 2 f_equal. lia.
Qed.

(** An optional character [x] before [g]. *)
Lemma scan_optional x (b : bool) g :
  (b = false -> head0 g <> x) ->
  (head0 ((if b then [x] else []) ++ g) =? x) = b /\
  (if b then tail ((if b then [x] else []) ++ g) else (if b then [x] else []) ++ g) = g.
Proof. destruct b; cbn; intros H; [by rewrite Z.eqb_refl|]. split; [|done]. by apply Z.eqb_neq, H. Qed.

Lemma head0_digits ds g : Forall is_digit ds -> ds <> [] -> is_digit (head0 (ds ++ g)).
Proof. by intros [|??]. Qed.

(** The rest of the format behind the flags. *)
Definition rest_ok (f : flags) (rest : list Z) : Prop := rest = [] \/ letter_ok f (head0 rest).

Lemma rest_not_long f rest : rest_ok f rest -> fl_long f = false ->
  head0 rest <> ch_l /\ ~ is_digit (head0 rest) /\ (show_flags f = [] -> head0 rest <> ch_minus).
Proof.
  intros [->|[_ H]] Hl; [|by apply H]. unfold is_digit. by split_and!; cbn; [|intros []|].
Qed.

Lemma rest_no_digit f rest : rest_ok f rest ->
  ~ is_digit (head0 ((if fl_long f then [ch_l] else []) ++ rest)).
Proof.
  intros H. destruct (fl_long f) eqn:Hl; [by intros []|]. by apply (rest_not_long f rest).
Qed.

Lemma digits_not_zero f rest : flags_ok f -> rest_ok f rest -> fl_zero f = false ->
  head0 (fl_digits f ++ (if fl_long f then [ch_l] else []) ++ rest) <> ch_0.
Proof.
  intros [_ Hz] Hr Hf. destruct (fl_digits f) as [|d ds] eqn:He; [|by apply Hz].
  intros H0. apply (rest_no_digit f rest Hr). cbn [app] in H0. by rewrite H0.
Qed.

Lemma flags_not_minus f rest : flags_ok f -> rest_ok f rest -> fl_left f = false ->
  head0 ((if fl_zero f then [ch_0] else []) ++ fl_digits f ++ (if fl_long f then [ch_l] else []) ++ rest)
  <> ch_minus.
Proof.
  intros [Hd _] Hr Hf. destruct (fl_zero f) eqn:Hz; [done|]. cbn [app].
  destruct (fl_digits f) as [|d ds] eqn:He.
  - destruct (fl_long f) eqn:Hl; [done|]. apply (rest_not_long f rest Hr Hl).
    unfold show_flags. by rewrite Hf, Hz, He, Hl.
  - apply Forall_cons in Hd as [Hd _]. cbn. intros ->. by destruct Hd.
Qed.

Lemma scan_flags_show f rest : flags_ok f -> rest_ok f rest ->
  scan_flags (show_flags f ++ rest) = (fl_left f, fl_padc f, fl_width f, rest).
Proof.
  intros Hf Hr. unfold scan_flags, show_flags. rewrite <- !app_assoc.
  destruct (scan_optional ch_minus (fl_left f) _ (flags_not_minus f rest Hf Hr)) as [-> H1].
  destruct (scan_optional ch_0 (fl_zero f) _ (digits_not_zero f rest Hf Hr)) as [H2 H3].
  assert (H4 : fl_long f = false -> head0 rest <> ch_l) by (intros Hl; by apply (rest_not_long f rest)).
  destruct (scan_optional ch_l (fl_long f) rest H4) as [H5 H6].
  destruct Hf as [Hd _]. pose proof (scan_width_digits _ _ 0 Hd (rest_no_digit f rest Hr)) as Hw.
  unfold fl_padc, fl_width, digits_value.
  destruct (fl_left f); cbn [app tail] in *; rewrite H2;
    (destruct (fl_zero f); cbn [app tail] in *; rewrite Hw, H5; by rewrite H6).
Qed.

Lemma split_optional x l : exists (b : bool) g,
  l = (if b then [x] else []) ++ g /\ (b = false -> head0 g <> x \/ g = []).
Proof.
  destruct l as [|c l]; [exists false, []; by auto|]. destruct (decide (c = x)) as [->|Hc].
  - by exists true, l.
  - exists false, (c :: l). by auto.
Qed.

Lemma split_digits l : exists ds g, l = ds ++ g /\ Forall is_digit ds /\ ~ is_digit (head0 g).
Proof.
  induction l as [|c l (ds & g & -> & Hd & Hg)]; [exists [], []; split_and!; [done|done|intros []; done]|].
  destruct (decide (ch_0 <= c <= ch_9)).
  - exists (c :: ds), g. split_and!; [done|by constructor|done].
  - exists [], (c :: ds ++ g). by split_and!.
Qed.

(** Whatever follows a percent sign reads as flags and a rest. *)
Lemma read_flags fmt : exists f rest, fmt = show_flags f ++ rest /\ flags_ok f /\
  (head0 rest <> 0 -> letter_ok f (head0 rest)).
Proof.
  destruct (split_optional ch_minus fmt) as (l & g1 & -> & Hl).
  destruct (split_optional ch_0 g1) as (z & g2 & -> & Hz).
  destruct (split_digits g2) as (ds & g3 & -> & Hd & Hn).
  destruct (split_optional ch_l g3) as (lg & rest & -> & Hg).
  exists (mkFlags l z ds lg), rest. split; [unfold show_flags; by rewrite <- !app_assoc|]. split.
  - split; [done|]. cbn. intros ->. destruct ds as [|d ds]; [done|]. by destruct (Hz eq_refl).
  - intros H0. split; [done|]. cbn. intros ->. split_and!.
    + by destruct (Hg eq_refl) as [ | -> ].
    + done.
    + unfold show_flags. cbn. destruct l, z, ds; try done. intros _. cbn in Hl. by destruct (Hl eq_refl) as [ | -> ].
Qed.

(** ** The formatter prints the text *)
Inductive arg_kind := AInt | AStr.
Definition arg_fits (k : arg_kind) (a : va_arg) : bool :=
  match k, a with AInt, VInt _ | AStr, VStr _ => true | _, _ => false end.

(** [ap] starts with arguments of the kinds [ks]. *)
Fixpoint args_fit (ks : list arg_kind) (ap : list va_arg) : bool :=
  match ks, ap with
  | [], _ => true
  | k :: ks, a :: ap => arg_fits k a && args_fit ks ap
  | _ :: _, [] => false
  end.

(** A callback that only sees the text: how it is cut into calls is the same
    to it. *)
Definition text_only {S} (out : fmt_callback_t S) : Prop :=
  (forall s, out [] s = Ret tt s) /\
  (forall a b s, (out a ;! out b) s = out (a ++ b) s).

Section Formatter.
Context {S : Type} (out : fmt_callback_t S) (Hout : text_only out).

Lemma out_app a b (K : M S unit) s : (out a ;! (out b ;! K)) s = (out (a ++ b) ;! K) s.
Proof.
  unfold bind. rewrite <- (proj2 Hout). unfold bind. by destruct (out a s).
Qed.

Lemma out_nil {A} (K : M S A) s : (out [] ;! K) s = K s.
Proof. by rewrite (bind_step _ _ _ _ _ (proj1 Hout s)). Qed.

Lemma spaces_out n s : spaces out n s = out (replicate (Z.to_nat n) ch_space) s.
Proof.
  unfold spaces. destruct (Z.le_gt_cases n 0) as [Hn|Hn].
  - replace (Z.to_nat n) with 0%nat by lia. rewrite seqZ_nil by done.
    symmetry. apply (proj1 Hout).
  - rewrite <- (Z2Nat.id n) at 1 by lia. generalize (Z.to_nat n). clear n Hn. intros n.
    generalize 0 at 1. revert s. induction n as [|n IH]; intros s z.
    + symmetry. apply (proj1 Hout).
    + rewrite seqZ_cons by lia. cbn [forM replicate].
      change (ch_space :: replicate n ch_space) with ([ch_space] ++ replicate n ch_space).
      rewrite <- (proj2 Hout). unfold bind. destruct (out [ch_space] s) as [[] s'| | |]; try done.
      rewrite <- (IH s' (Z.succ z)). do 2 f_equal. lia.
Qed.

Lemma print_str_out t w l s : print_str out t w l s = out (padded w l t) s.
Proof.
  unfold print_str, padded. set (len := Z.of_nat (length t)).
  assert (Hn : Z.to_nat ((if w <? len then len else w) - len) = Z.to_nat (w - len))
    by (destruct (Z.ltb_spec w len); lia).
  destruct l; rewrite <- (proj2 Hout); unfold bind.
  - destruct (out t s) as [[] s'| | |]; try done. by rewrite spaces_out, Hn.
  - rewrite spaces_out, Hn. by destruct (out (replicate _ _) s).
Qed.

Lemma print_char_out c w l s : print_char out c w l s = out (padded w l [c]) s.
Proof. rewrite <- print_str_out. unfold print_char, print_str. cbn [length]. done. Qed.

Lemma print_num_out u base neg w l padc up s :
  2 <= base -> 0 <= u < 2 ^ 32 ->
  print_num out u base neg w l padc up s = out (num_spec u base neg w l padc up) s.
Proof. intros Hb Hu. unfold print_num. by rewrite num_buffer_spec. Qed.

(** The [switch] as a table. *)
Lemma conversion_table c w l padc ap :
  conversion out c w l padc ap =
  match assoc c letters with
  | KNum base up => next_int ap (fun n ap => print_num out (u32 n) base false w l padc up ;! ret ap)
  | KDec => next_int ap (fun n ap =>
      let '(neg_flag, n) := if n <? 0 then (true, - n) else (false, n) in
      print_num out (u32 n) 10 neg_flag w l padc false ;! ret ap)
  | KChar => next_int ap (fun n ap => print_char out (u8 n) w l ;! ret ap)
  | KStr => next_str ap (fun s ap => print_str out s w l ;! ret ap)
  | KSelf => if c =? 0 then ret ap else out [c] ;! ret ap
  end.
Proof.
  unfold conversion. cbn [assoc letters].
  repeat (case_decide as Hc; [subst; reflexivity|apply Z.eqb_neq in Hc as ->]). done.
Qed.

Lemma s32_signed n : u32 (if s32 n <? 0 then - s32 n else s32 n) = Z.abs (s32 n) /\
  0 <= Z.abs (s32 n) < 2 ^ 32.
Proof.
  pose proof (Z.mod_pos_bound n (2 ^ 32) ltac:(lia)). fold (u32 n) in *.
  assert (- 2 ^ 31 <= s32 n < 2 ^ 31) by (unfold s32; destruct (Z.ltb_spec (u32 n) (2 ^ 31)); lia).
  split; [|lia]. unfold u32. destruct (Z.ltb_spec (s32 n) 0); rewrite Z.mod_small; lia.
Qed.

Lemma u32_s32 n : u32 (s32 n) = u32 n.
Proof.
  unfold s32. pose proof (Z.mod_pos_bound n (2 ^ 32) ltac:(lia)). fold (u32 n) in *.
  destruct (u32 n <? 2 ^ 31); [unfold u32; by rewrite Zmod_mod|].
  unfold u32. rewrite <- (Z.mod_add _ 1) by lia.
  replace (n mod 2 ^ 32 - 2 ^ 32 + 1 * 2 ^ 32) with (n mod 2 ^ 32) by lia. by rewrite Zmod_mod.
Qed.

Lemma u8_s32 n : u8 (s32 n) = u8 n.
Proof.
  assert (H : forall z, u8 z = u8 (u32 z)).
  { intros z. unfold u8, u32. apply Znumtheory.Zmod_div_mod; [done|done|].
    by exists (2 ^ 24). }
  by rewrite H, u32_s32, <- H.
Qed.

Lemma letters_base c base up : assoc c letters = KNum base up -> 2 <= base.
Proof. cbn. repeat case_decide; intros [= <- <-] || discriminate; lia. Qed.

Lemma conversion_text f c ap ap' t s :
  directive_text f c ap ap' t -> c <> 0 ->
  conversion out c (fl_width f) (fl_left f) (fl_padc f) ap s = (out t ;! ret ap') s.
Proof.
  intros Ht Hc. rewrite conversion_table. unfold bind.
  destruct Ht as [base up n ap H|n ap H|n ap H|t ap H|ap H]; rewrite H; cbn [next_int next_str].
  - unfold bind. rewrite print_num_out, u32_s32; [done|by eapply letters_base|apply Z.mod_pos_bound; lia].
  - destruct (s32_signed n) as [Hn Hr].
    destruct (s32 n <? 0); unfold bind; rewrite print_num_out; rewrite ?Hn; (done || lia).
  - unfold bind. by rewrite print_char_out, u8_s32.
  - unfold bind. by rewrite print_str_out.
  - apply Z.eqb_neq in Hc as ->. done.
Qed.

Lemma vprintfmt_directive f rest ap s :
  flags_ok f -> rest_ok f rest ->
  vprintfmt out (ch_percent :: show_flags f ++ rest) ap s =
  (let! ap := conversion out (head0 rest) (fl_width f) (fl_left f) (fl_padc f) ap in
   vprintfmt out (tail rest) ap) s.
Proof.
  intros Hf Hr. rewrite vprintfmt_step. cbn [scan_text]. rewrite Z.eqb_refl, out_nil.
  by rewrite scan_flags_show.
Qed.

Lemma vprintfmt_text c fmt ap s : c <> ch_percent ->
  vprintfmt out (c :: fmt) ap s = (out [c] ;! vprintfmt out fmt ap) s.
Proof.
  intros Hc%Z.eqb_neq. rewrite vprintfmt_step. cbn [scan_text]. rewrite Hc.
  destruct (scan_text fmt) as [text rest] eqn:Ht. change (c :: text) with ([c] ++ text).
  rewrite <- out_app. unfold bind. destruct (out [c] s) as [[] s'| | |]; try done.
  rewrite vprintfmt_step, Ht. done.
Qed.

Lemma vprintfmt_end ap s : vprintfmt out [] ap s = out [] s.
Proof. rewrite vprintfmt_step. cbn. rewrite out_nil. symmetry. apply (proj1 Hout). Qed.

Lemma vprintfmt_formats fmt ap txt s :
  formats fmt ap txt -> vprintfmt out fmt ap s = out txt s.
Proof.
  intros H. revert s. induction H as [ap|c fmt ap txt Hc _ IH|f ap Hf|f c fmt ap ap' t txt Hf Hc Ht _ IH];
    intros s.
  - apply vprintfmt_end.
  - rewrite vprintfmt_text by done. change (c :: txt) with ([c] ++ txt). rewrite <- (proj2 Hout).
    unfold bind. destruct (out [c] s); (done || apply IH).
  - rewrite <- (app_nil_r (show_flags f)), vprintfmt_directive by (done || by left).
    apply vprintfmt_end.
  - rewrite vprintfmt_directive by (done || by right). cbn [head0 tail].
    rewrite <- (proj2 Hout). unfold bind. rewrite (conversion_text _ _ _ _ _ _ Ht (proj1 Hc)).
    unfold bind. destruct (out t s); (done || apply IH).
Qed.
End Formatter.

(** Arguments of the right kinds give every directive a text. *)
Lemma directive_args f c : exists ks, forall ap0, args_fit ks ap0 = true ->
  exists ap t, directive_text f c ap0 ap t /\ ap = drop (length ks) ap0.
Proof.
  destruct (assoc c letters) eqn:Hc;
    [exists [AInt]|exists [AInt]|exists [AInt]|exists [AStr]|exists []]; intros ap0;
    try (destruct ap0 as [|[n|t] ap0]; try done); intros _; eauto 6 using directive_text.
Qed.

Lemma args_fit_app ks1 ks2 ap : args_fit (ks1 ++ ks2) ap = true ->
  args_fit ks1 ap = true /\ args_fit ks2 (drop (length ks1) ap) = true.
Proof.
  revert ap. induction ks1 as [|k ks1 IH]; intros ap H; [done|].
  destruct ap as [|a ap]; [done|]. cbn in *. destruct (arg_fits k a); [by apply IH|done].
Qed.

Lemma formats_exists n fmt : (length fmt < n)%nat -> Forall (fun c => c <> 0) fmt ->
  exists ks, forall ap, args_fit ks ap = true -> exists txt, formats fmt ap txt.
Proof.
  revert fmt. induction n as [|n IH]; intros fmt Hn Hfmt; [lia|].
  destruct fmt as [|c fmt]; [exists []; eauto using formats|].
  destruct (decide (c = ch_percent)) as [->|Hc].
  - destruct (read_flags fmt) as (f & rest & -> & Hf & Hl).
    apply Forall_cons in Hfmt as [_ Hfmt]. apply Forall_app in Hfmt as [_ Hrest].
    destruct rest as [|c rest]; [exists []; rewrite app_nil_r; eauto using formats|].
    apply Forall_cons in Hrest as [Hc Hrest]. cbn in Hl, Hn. rewrite length_app in Hn. cbn in Hn.
    destruct (directive_args f c) as (ks1 & H1), (IH rest) as (ks2 & H2); [lia|done|].
    exists (ks1 ++ ks2). intros ap0 [Ha1 Ha2]%args_fit_app.
    destruct (H1 ap0 Ha1) as (ap & t & Ht & ->), (H2 _ Ha2) as (txt & Htxt).
    exists (t ++ txt). by eapply formats_directive; [|apply Hl| |].
  - apply Forall_cons in Hfmt as [_ Hfmt]. destruct (IH fmt) as (ks & H); [cbn in Hn; lia|done|].
    exists ks. intros ap Ha. destruct (H ap Ha) as (txt & ?). eauto using formats.
Qed.

(** C23. [vprintfmt] prints what its format means: flags, width and letter of
    each directive choose the layout of the next argument, other text and
    unknown letters stand for themselves, a directive cut off by the end prints
    nothing.  Through any callback that only sees the concatenated text, the
    effect is that of one call with the whole text, so [vprintfmt] returns when
    the callback does; and every format has such a text as soon as the arguments
    are of the kinds it asks for.  (Widths are unbounded integers.) *)
Theorem vprintfmt_correct {S} (out : fmt_callback_t S) fmt :
  text_only out -> Forall (fun c => c <> 0) fmt ->
  (forall ap txt s, formats fmt ap txt -> vprintfmt out fmt ap s = out txt s) /\
  exists ks, forall ap, args_fit ks ap = true ->
    exists txt, formats fmt ap txt /\ forall s, vprintfmt out fmt ap s = out txt s.
Proof.
  intros Ho Hf. split; [intros; by apply vprintfmt_formats|].
  destruct (formats_exists _ fmt (Nat.lt_succ_diag_r _) Hf) as (ks & H).
  exists ks. intros ap Ha. destruct (H ap Ha) as (txt & Ht). exists txt.
  split; [done|]. intros s. by apply vprintfmt_formats.
Qed.

Lemma collect_text_only : text_only collect.
Proof.
  split; intros; unfold bind, collect; [by rewrite app_nil_r|by rewrite app_assoc].
Qed.

(** ["%5d|%-4x|%05d%%"] *)
Definition ex_format : list Z :=
  [37; 53; 100; 124; 37; 45; 52; 120; 124; 37; 48; 53; 100; 37; 37].

Lemma vprintfmt_correct_witness :
  (forall ap txt s, formats ex_format ap txt -> vprintfmt collect ex_format ap s = collect txt s) /\
  exists ks, forall ap, args_fit ks ap = true ->
    exists txt, formats ex_format ap txt /\
      forall s, vprintfmt collect ex_format ap s = collect txt s.
Proof. apply vprintfmt_correct; [exact collect_text_only|by repeat constructor]. Defined.

(** Of 42, 255 and -7. *)
Example vprintfmt_example :
  vprintfmt collect ex_format [VInt 42; VInt 255; VInt (-7)] [] =
  Ret tt ([32; 32; 32; 52; 50] ++ [124] ++ [102; 102; 32; 32] ++ [124]
          ++ [45; 48; 48; 48; 55] ++ [37]).
Proof. by vm_compute. Qed.
