(* ===== verification/Stdio.v ===== *)
(** * Formatted output of user programs (user/lib/debugf.c, user/lib/fprintf.c)

    [debugf] collects the pieces [vprintfmt] produces in a buffer of 1024
    bytes and hands full buffers to the console; [fprintf] hands every piece to
    [write] and adds up the results.  The console and [write] are parameters
    with the state they act on. *)
From S2P Require Import Prelude Print.

Definition BUF_LEN : Z := 1024.

(** [memcpy(buf + pos, l, length of l)] *)
Definition put_bytes (buf : Z -> Z) (pos : Z) (l : list Z) : Z -> Z := fun x =>
  if (pos <=? x) && (x <? pos + Z.of_nat (length l)) then l !!! Z.to_nat (x - pos) else buf x.

(** What [syscall_print_cons] promises: the bytes appear on the console, after
    what is there, and the result is 0. *)
Class Console (S : Type) : Type := {
  print_cons : list Z -> M S Z;
  cons_text : S -> list Z;
  print_cons_text : forall l s, exists s', print_cons l s = Ret 0 s' /\
    cons_text s' = cons_text s ++ (u8 <$> l)
}.

Section Debug.
Context {S : Type} `{Console S}.

(** [struct debug_ctx] and the rest of the state. *)
Record debug_ctx : Type := mkCtx { ctx_buf : Z -> Z; ctx_pos : Z; ctx_rest : S }.
Definition set_ctx_buf (v : Z -> Z) (c : debug_ctx) : debug_ctx := mkCtx v (ctx_pos c) (ctx_rest c).
Definition set_ctx_pos (v : Z) (c : debug_ctx) : debug_ctx := mkCtx (ctx_buf c) v (ctx_rest c).
Definition set_ctx_rest (v : S) (c : debug_ctx) : debug_ctx := mkCtx (ctx_buf c) (ctx_pos c) v.
Definition rest {A} (m : M S A) : M debug_ctx A := zoom ctx_rest set_ctx_rest m.

Definition debug_flush : M debug_ctx unit :=
  let! c := get in
  if ctx_pos c =? 0 then ret tt
  else
    let! r := rest (print_cons (buf_list (ctx_buf c) (ctx_pos c))) in
    if negb (r =? 0) then panic "syscall_print_cons"
    else modify (set_ctx_pos 0).

(** The loop of [debug_output] on the bytes that are left; every iteration but
    the first takes [BUF_LEN] of them. *)
Fixpoint output_loop (n : nat) (s : list Z) : M debug_ctx unit :=
  match n with
  | O => fault
  | Datatypes.S n =>
      let! c := get in
      let l := Z.of_nat (length s) in
      if BUF_LEN <? ctx_pos c + l then
        let k := Z.to_nat (BUF_LEN - ctx_pos c) in
        modify (fun c => set_ctx_buf (put_bytes (ctx_buf c) (ctx_pos c) (take k s)) c) ;!
        modify (set_ctx_pos BUF_LEN) ;!
        debug_flush ;!
        output_loop n (drop k s)
      else
        modify (fun c => set_ctx_buf (put_bytes (ctx_buf c) (ctx_pos c) s) c) ;!
        modify (fun c => set_ctx_pos (ctx_pos c + l) c)
  end.
Definition debug_output : fmt_callback_t debug_ctx := fun s =>
  output_loop (2 + length s) s.

Definition vdebugf_ctx (fmt : list Z) (ap : list va_arg) : M debug_ctx unit :=
  modify (set_ctx_pos 0) ;!
  vprintfmt debug_output fmt ap ;!
  debug_flush.

(** [ctx] is a local variable, uninitialised. *)
Definition vdebugf (junk : Z -> Z) (fmt : list Z) (ap : list va_arg) : M S unit := fun s =>
  match vdebugf_ctx fmt ap (mkCtx junk 0 s) with
  | Ret a c => Ret a (ctx_rest c)
  | Panic msg c => Panic msg (ctx_rest c)
  | Fault => Fault
  | Noret c => Noret (ctx_rest c)
  end.
Definition debugf := vdebugf.
End Debug.
Arguments debug_ctx S : clear implicits.

Section Fprintf.
Context {S : Type} (write : Z -> list Z -> M S Z).

(** [struct print_ctx] and the rest of the state. *)
Record print_ctx : Type := mkPCtx { pc_fd : Z; pc_ret : Z; pc_rest : S }.
Definition set_pc_ret (v : Z) (c : print_ctx) : print_ctx := mkPCtx (pc_fd c) v (pc_rest c).
Definition set_pc_rest (v : S) (c : print_ctx) : print_ctx := mkPCtx (pc_fd c) (pc_ret c) v.

Definition print_output : fmt_callback_t print_ctx := fun s =>
  let! c := get in
  if pc_ret c <? 0 then ret tt
  else
    let! r := zoom pc_rest set_pc_rest (write (pc_fd c) s) in
    if r <? 0 then modify (set_pc_ret r)
    else modify (fun c => set_pc_ret (pc_ret c + r) c).

Definition vfprintf (fd : Z) (fmt : list Z) (ap : list va_arg) : M S Z := fun s =>
  match vprintfmt print_output fmt ap (mkPCtx fd 0 s) with
  | Ret _ c => Ret (pc_ret c) (pc_rest c)
  | Panic msg c => Panic msg (pc_rest c)
  | Fault => Fault
  | Noret c => Noret (pc_rest c)
  end.
Definition fprintf := vfprintf.
Definition printf := vfprintf 1.
End Fprintf.
Arguments print_ctx S : clear implicits.

(** ** Two callbacks side by side

    What [vprintfmt] does depends on its callback only through the pieces it
    hands over: a callback that keeps step with [collect] prints the text that
    [collect] gathers. *)
Section Simulation.
Context {S : Type} (out : fmt_callback_t S) (R : list Z -> S -> Prop).
Context (Hout : forall l log s, R log s -> exists s', out l s = Ret tt s' /\ R (log ++ l) s').

Definition keeps_step {A} (m1 : M (list Z) A) (m2 : M S A) : Prop := forall log s, R log s ->
  match m1 log with
  | Ret a log' => exists s', m2 s = Ret a s' /\ R log' s'
  | Fault => m2 s = Fault
  | _ => False
  end.

Lemma step_ret {A} (a : A) : keeps_step (ret a) (ret a).
Proof using. intros log s HR. by exists s. Qed.

Lemma step_fault {A} : keeps_step (fault (A := A)) fault.
Proof using. by intros log s HR. Qed.

Lemma step_bind {A B} (m1 : M (list Z) A) m2 (k1 : A -> M (list Z) B) k2 :
  keeps_step m1 m2 -> (forall a, keeps_step (k1 a) (k2 a)) ->
  keeps_step (bind m1 k1) (bind m2 k2).
Proof using.
  intros Hm Hk log s HR. specialize (Hm log s HR). unfold bind.
  destruct (m1 log); try done; [|by rewrite Hm].
  destruct Hm as (s' & -> & HR'). by apply Hk.
Qed.

Lemma step_out l : keeps_step (collect l) (out l).
Proof using Hout. intros log s HR. by apply Hout. Qed.

Lemma step_forM {A} (l : list A) b1 b2 : (forall x, keeps_step (b1 x) (b2 x)) ->
  keeps_step (forM l b1) (forM l b2).
Proof using.
  intros Hb. induction l as [|x l IH]; cbn [forM]; [apply step_ret|]. by apply step_bind.
Qed.

Lemma step_num u base neg len ladjust padc upcase :
  keeps_step (print_num collect u base neg len ladjust padc upcase)
             (print_num out u base neg len ladjust padc upcase).
Proof using Hout. unfold print_num. destruct (num_buffer _ _ _ _ _ _ _); [apply step_out|apply step_fault]. Qed.

Lemma step_spaces n : keeps_step (spaces collect n) (spaces out n).
Proof using Hout. apply step_forM. intros _. apply step_out. Qed.

Lemma step_char c len ladjust : keeps_step (print_char collect c len ladjust) (print_char out c len ladjust).
Proof using Hout.
  unfold print_char. destruct ladjust; apply step_bind; intros; auto using step_out, step_spaces.
Qed.

Lemma step_str s len ladjust : keeps_step (print_str collect s len ladjust) (print_str out s len ladjust).
Proof using Hout.
  unfold print_str. destruct ladjust; apply step_bind; intros; auto using step_out, step_spaces.
Qed.

Lemma step_conversion c w ladjust padc ap :
  keeps_step (conversion collect c w ladjust padc ap) (conversion out c w ladjust padc ap).
Proof using Hout.
  unfold conversion, next_int, next_str. cbv zeta.
  repeat first
    [ apply step_fault | apply step_ret | apply step_num | apply step_char | apply step_str
    | apply step_out
    | match goal with
      | |- keeps_step (bind _ _) (bind _ _) => apply step_bind; [|intros ?]
      | |- keeps_step (if ?b then _ else _) _ => destruct b
      | |- keeps_step (match ?x with _ => _ end) _ => destruct x
      | |- keeps_step (let '(_, _) := ?x in _) _ => destruct x
      end ].
Qed.

Lemma step_vprintfmt fmt ap : keeps_step (vprintfmt collect fmt ap) (vprintfmt out fmt ap).
Proof using Hout.
  unfold vprintfmt. generalize (Datatypes.S (length fmt)) as n. intros n. revert fmt ap.
  induction n as [|n IH]; intros fmt ap; cbn [vprintfmt_loop]; [apply step_fault|].
  destruct (scan_text fmt) as [text fmt1]. apply step_bind; [apply step_out|]. intros _.
  destruct fmt1 as [|c fmt1]; [apply step_ret|].
  destruct (scan_flags fmt1) as [[[ladjust padc] width] fmt2].
  apply step_bind; [apply step_conversion|]. intros ap'. apply IH.
Qed.
End Simulation.
