(* ===== verification/StdioProps.v ===== *)
(** * [debugf] and [fprintf] print what [vprintfmt] formats *)
From S2P Require Import Prelude Print Stdio.

(** ** The buffer of [debugf] *)

Lemma put_bytes_list buf pos l : 0 <= pos ->
  buf_list (put_bytes buf pos l) (pos + Z.of_nat (length l)) = buf_list buf pos ++ l.
Proof.
  intros Hp. unfold buf_list. rewrite seqZ_app, fmap_app by lia. f_equal.
  - apply list_fmap_ext. intros i x Hx. apply lookup_seqZ in Hx as [-> Hi].
    unfold put_bytes. destruct (Z.leb_spec pos (0 + Z.of_nat i)); [lia|done].
  - apply list_eq. intros i. rewrite list_lookup_fmap.
    destruct (decide (i < length l)%nat) as [Hi|Hi].
    + rewrite (proj2 (lookup_seqZ (0 + pos) (Z.of_nat (length l)) i (0 + pos + Z.of_nat i)))
        by (split; lia). cbn [fmap option_fmap option_map].
      unfold put_bytes. destruct (Z.leb_spec pos (0 + pos + Z.of_nat i)); [|lia].
      destruct (Z.ltb_spec (0 + pos + Z.of_nat i) (pos + Z.of_nat (length l))); [cbn [andb]|lia].
      replace (0 + pos + Z.of_nat i - pos) with (Z.of_nat i) by lia. rewrite Nat2Z.id.
      symmetry. by apply list_lookup_lookup_total_lt.
    + rewrite lookup_seqZ_ge by lia. symmetry. apply lookup_ge_None. lia.
Qed.

Section Debug.
Context {S : Type} `{Console S} (s0 : S).

(** What the console's operation keeps. *)
Context (F : S -> Prop) (HF : forall l s s', F s -> print_cons l s = Ret 0 s' -> F s').

(** The console and the buffer together hold what was printed. *)
Definition printed (log : list Z) (c : debug_ctx S) : Prop :=
  0 <= ctx_pos c <= BUF_LEN /\ F (ctx_rest c) /\
  cons_text (ctx_rest c) ++ (u8 <$> buf_list (ctx_buf c) (ctx_pos c)) = cons_text s0 ++ (u8 <$> log).

Lemma debug_flush_run log c : printed log c ->
  exists c', debug_flush c = Ret tt c' /\ printed log c' /\ ctx_pos c' = 0.
Proof using HF.
  intros (Hp & Hk & Ht). unfold debug_flush, bind at 1, get. destruct (Z.eqb_spec (ctx_pos c) 0) as [H0|H0].
  - exists c. split; [done|]. split; [|done]. by split.
  - destruct (print_cons_text (buf_list (ctx_buf c) (ctx_pos c)) (ctx_rest c)) as (s' & Hr & Hs).
    unfold bind, rest, zoom. rewrite Hr. cbn. eexists. split; [done|].
    split; [|done]. split; cbn; [unfold BUF_LEN; lia|]. split; [by eapply HF|].
    rewrite Hs, Ht. apply app_nil_r.
Qed.

(** Bytes put in the buffer count as printed. *)
Lemma put_printed log c l : printed log c -> ctx_pos c + Z.of_nat (length l) <= BUF_LEN ->
  printed (log ++ l) (set_ctx_pos (ctx_pos c + Z.of_nat (length l))
                       (set_ctx_buf (put_bytes (ctx_buf c) (ctx_pos c) l) c)).
Proof using.
  intros (Hp & Hk & Ht) Hl. split; cbn; [lia|]. split; [done|].
  rewrite put_bytes_list by lia. by rewrite !fmap_app, !app_assoc, Ht.
Qed.

Lemma output_loop_run n : forall l log c, printed log c ->
  ((if decide (ctx_pos c = 0)%Z then 0 else 1) + length l < n)%nat ->
  exists c', output_loop n l c = Ret tt c' /\ printed (log ++ l) c'.
Proof using HF.
  induction n as [|n IH]; intros l log c Hc Hn; [lia|]. cbn [output_loop].
  unfold bind at 1, get. pose proof Hc as [Hp _].
  destruct (Z.ltb_spec BUF_LEN (ctx_pos c + Z.of_nat (length l))) as [Hlt|Hge].
  - set (k := Z.to_nat (BUF_LEN - ctx_pos c)).
    assert (Hk : length (take k l) = k) by (rewrite length_take; lia).
    pose proof (put_printed log c (take k l) Hc ltac:(lia)) as Hc1.
    replace (ctx_pos c + Z.of_nat (length (take k l))) with BUF_LEN in Hc1 by lia.
    destruct (debug_flush_run _ _ Hc1) as (c2 & Hf & Hc2 & H0).
    unfold bind at 1, modify. unfold bind at 1. rewrite (bind_step _ _ _ _ _ Hf).
    destruct (IH (drop k l) _ c2 Hc2) as (c' & Hr & Hc').
    + rewrite length_drop, decide_True by done. subst k. case_decide; unfold BUF_LEN in *; lia.
    + exists c'. split; [done|]. by rewrite <- app_assoc, take_drop in Hc'.
  - eexists. split; [done|]. exact (put_printed log c l Hc Hge).
Qed.

Lemma debug_output_run l log c : printed log c ->
  exists c', debug_output l c = Ret tt c' /\ printed (log ++ l) c'.
Proof using HF. intros Hc. apply output_loop_run; [done|]. case_decide; lia. Qed.

Lemma debugf_run junk fmt ap : F s0 ->
  match vprintfmt collect fmt ap [] with
  | Ret _ text => exists s', debugf junk fmt ap s0 = Ret tt s' /\
      F s' /\ cons_text s' = cons_text s0 ++ (u8 <$> text)
  | _ => debugf junk fmt ap s0 = Fault
  end.
Proof using HF.
  intros HF0.
  assert (H0 : printed [] (mkCtx junk 0 s0)) by (split; cbn; [unfold BUF_LEN; lia|done]).
  pose proof (step_vprintfmt debug_output printed debug_output_run fmt ap [] _ H0) as Hs.
  unfold debugf, vdebugf, vdebugf_ctx, modify, bind.
  change (set_ctx_pos 0 (mkCtx junk 0 s0)) with (mkCtx junk 0 s0).
  destruct (vprintfmt collect fmt ap []) as [[] text| | |]; [|done|by rewrite Hs|done].
  destruct Hs as (c & -> & Hc). destruct (debug_flush_run _ _ Hc) as (c' & -> & (_ & HF' & Ht) & H1).
  eexists. split; [done|]. split; [done|]. rewrite H1 in Ht. cbn in Ht. by rewrite app_nil_r in Ht.
Qed.
End Debug.

(** C37. [debugf] prints the formatted text, whatever its length: when
    [vprintfmt] with a collecting callback gives a text, the console gains
    exactly the bytes of that text, in order, although they pass through a
    buffer of 1024 bytes; and it fails only where the format reads an argument
    that is not there. *)
Theorem debugf_correct {S} `{Console S} s0 junk fmt ap :
  match vprintfmt collect fmt ap [] with
  | Ret _ text => exists s', debugf junk fmt ap s0 = Ret tt s' /\
      cons_text s' = cons_text s0 ++ (u8 <$> text)
  | _ => debugf junk fmt ap s0 = Fault
  end.
Proof.
  pose proof (debugf_run s0 (fun _ => True) (fun _ _ _ _ _ => I) junk fmt ap I) as H'.
  destruct (vprintfmt collect fmt ap []); try done. naive_solver.
Qed.

(** A console that records what it is given. *)
#[global] Program Instance list_console : Console (list Z) :=
  {| print_cons := fun l s => Ret 0 (s ++ (u8 <$> l)); cons_text := fun s => s |}.
Next Obligation. intros l s. by eexists. Qed.

(** ** [fprintf] *)

Section Fprintf.
Context {S : Type} (write : Z -> list Z -> M S Z) (fd : Z) (file : S -> list Z).
Context (write_all : forall l s, exists s', write fd l s = Ret (Z.of_nat (length l)) s' /\
  file s' = file s ++ l).

(** When [write] takes everything it is given, the file gains the text and
    the result is its length. *)
Lemma fprintf_correct fmt ap s0 :
  match vprintfmt collect fmt ap [] with
  | Ret _ text => exists s', fprintf write fd fmt ap s0 = Ret (Z.of_nat (length text)) s' /\
      file s' = file s0 ++ text
  | _ => fprintf write fd fmt ap s0 = Fault
  end.
Proof using write_all.
  set (R := fun (log : list Z) (c : print_ctx S) =>
    pc_fd c = fd /\ pc_ret c = Z.of_nat (length log) /\ file (pc_rest c) = file s0 ++ log).
  assert (Hout : forall l log c, R log c ->
    exists c', print_output write l c = Ret tt c' /\ R (log ++ l) c').
  { intros l log c (Hfd & Hr & Hf). unfold print_output, bind at 1, get. rewrite Hr.
    destruct (Z.ltb_spec (Z.of_nat (length log)) 0); [lia|].
    destruct (write_all l (pc_rest c)) as (s' & Hw & Hs'). unfold bind, zoom. rewrite Hfd, Hw.
    destruct (Z.ltb_spec (Z.of_nat (length l)) 0); [lia|]. eexists. split; [done|].
    split_and!; cbn; [done|rewrite Hr, length_app; lia|by rewrite Hs', Hf, app_assoc]. }
  pose proof (step_vprintfmt (print_output write) R Hout fmt ap [] (mkPCtx fd 0 s0)) as Hs.
  unfold fprintf, vfprintf. destruct (vprintfmt collect fmt ap []) as [[] text| | |].
  - destruct Hs as (c & -> & _ & -> & Hf); [|by exists (pc_rest c)].
    split_and!; cbn; try done. by rewrite app_nil_r.
  - exfalso. apply Hs. split_and!; cbn; try done. by rewrite app_nil_r.
  - rewrite Hs; [done|]. split_and!; cbn; try done. by rewrite app_nil_r.
  - exfalso. apply Hs. split_and!; cbn; try done. by rewrite app_nil_r.
Qed.
End Fprintf.
