(* ===== verification/CString.v ===== *)
(** * Byte strings (lib/string.c)

    Memory is a function from addresses to bytes; pointers do not wrap.  Each
    loop has fuel, and running out is [None].  A plain [char] is unsigned on
    this target. *)
From S2P Require Import Prelude.

Definition bmem : Type := Z -> Z.

(** ** [memcpy] *)

(** [while (dst < max) *(char * )dst++ = *(char * )src++] *)
Fixpoint copy_bytes (n : nat) (m : bmem) (dst src max : Z) : option bmem :=
  if dst <? max then
    match n with
    | O => None
    | S n => copy_bytes n (upd m dst (m src)) (dst + 1) (src + 1) max
    end
  else Some m.

(** [while (((u_long)dst & 3) && dst < max)]: up to an aligned [dst]. *)
Fixpoint copy_head (n : nat) (m : bmem) (dst src max : Z) : option (bmem * Z * Z) :=
  if negb (Z.land dst 3 =? 0) && (dst <? max) then
    match n with
    | O => None
    | S n => copy_head n (upd m dst (m src)) (dst + 1) (src + 1) max
    end
  else Some (m, dst, src).

(** [*(u_int * )dst = *(u_int * )src]: the word is read before it is written. *)
Definition copy_word (m : bmem) (dst src : Z) : bmem :=
  upd (upd (upd (upd m dst (m src)) (dst + 1) (m (src + 1))) (dst + 2) (m (src + 2)))
    (dst + 3) (m (src + 3)).

(** [while (dst + 4 <= max)] *)
Fixpoint copy_words (n : nat) (m : bmem) (dst src max : Z) : option (bmem * Z * Z) :=
  if dst + 4 <=? max then
    match n with
    | O => None
    | S n => copy_words n (copy_word m dst src) (dst + 4) (src + 4) max
    end
  else Some (m, dst, src).

Definition memcpy (m : bmem) (dst src n : Z) : option bmem :=
  let max := dst + n in
  let fuel := Z.to_nat n in
  if negb (Z.land src 3 =? Z.land dst 3) then copy_bytes fuel m dst src max
  else
    match copy_head fuel m dst src max with
    | None => None
    | Some (m, dst, src) =>
        match copy_words fuel m dst src max with
        | None => None
        | Some (m, dst, src) => copy_bytes fuel m dst src max
        end
    end.

(** ** [memset] *)
Fixpoint set_bytes (n : nat) (m : bmem) (dst byte max : Z) : option bmem :=
  if dst <? max then
    match n with O => None | S n => set_bytes n (upd m dst byte) (dst + 1) byte max end
  else Some m.

Fixpoint set_head (n : nat) (m : bmem) (dst byte max : Z) : option (bmem * Z) :=
  if negb (Z.land dst 3 =? 0) && (dst <? max) then
    match n with O => None | S n => set_head n (upd m dst byte) (dst + 1) byte max end
  else Some (m, dst).

(** The bytes of a little-endian word. *)
Definition word_at (word j : Z) : Z := Z.land (Z.shiftr word (8 * j)) 0xFF.
Definition store_word (m : bmem) (dst word : Z) : bmem :=
  upd (upd (upd (upd m dst (word_at word 0)) (dst + 1) (word_at word 1))
    (dst + 2) (word_at word 2)) (dst + 3) (word_at word 3).

Fixpoint set_words (n : nat) (m : bmem) (dst word max : Z) : option (bmem * Z) :=
  if dst + 4 <=? max then
    match n with O => None | S n => set_words n (store_word m dst word) (dst + 4) word max end
  else Some (m, dst).

Definition memset (m : bmem) (dst c n : Z) : option bmem :=
  let max := dst + n in
  let fuel := Z.to_nat n in
  let byte := Z.land c 0xFF in
  let word := Z.lor (Z.lor (Z.lor byte (Z.shiftl byte 8)) (Z.shiftl byte 16)) (Z.shiftl byte 24) in
  match set_head fuel m dst byte max with
  | None => None
  | Some (m, dst) =>
      match set_words fuel m dst word max with
      | None => None
      | Some (m, dst) => set_bytes fuel m dst byte max
      end
  end.

(** ** Null-terminated strings; [n] bounds the length *)
Fixpoint strlen (n : nat) (m : bmem) (s : Z) : option Z :=
  match n with
  | O => None
  | S n => if m s =? 0 then Some 0 else option_map (Z.add 1) (strlen n m (s + 1))
  end.

Fixpoint strcpy (n : nat) (m : bmem) (dst src : Z) : option bmem :=
  match n with
  | O => None
  | S n =>
      let c := m src in
      let m := upd m dst c in
      if negb (c =? 0) then strcpy n m (dst + 1) (src + 1) else Some m
  end.

(** [Some 0] is the null pointer. *)
Fixpoint strchr (n : nat) (m : bmem) (s c : Z) : option Z :=
  match n with
  | O => None
  | S n => if m s =? 0 then Some 0 else if m s =? c then Some s else strchr n m (s + 1) c
  end.

Fixpoint strcmp (n : nat) (m : bmem) (p q : Z) : option Z :=
  match n with
  | O => None
  | S n =>
      if negb (m p =? 0) && (m p =? m q) then strcmp n m (p + 1) (q + 1)
      else if m p <? m q then Some (-1) else if m q <? m p then Some 1 else Some 0
  end.

(** ** What they compute *)

(** A forward copy of [n] bytes is right unless the destination starts
    inside the source. *)
Definition copied (m : bmem) (dst src n : Z) : bmem := fun x =>
  if (dst <=? x) && (x <? dst + n) then m (x - dst + src) else m x.

Definition forward_ok (dst src n : Z) : Prop := dst <= src \/ src + n <= dst.

(** [m'] is the memory of a copy of [n0] bytes done up to offset [k]. *)
Definition progress (m0 m' : bmem) (dst0 src0 k : Z) : Prop :=
  forall x, m' x = if (dst0 <=? x) && (x <? dst0 + k) then m0 (x - dst0 + src0) else m0 x.

Lemma progress_0 m dst src : progress m m dst src 0.
Proof. intros x. destruct (Z.leb_spec dst x), (Z.ltb_spec x (dst + 0)); cbn; (done || lia). Qed.

Lemma progress_src m0 m' dst src n k j :
  progress m0 m' dst src k -> forward_ok dst src n -> 0 <= k -> k <= j < n ->
  m' (src + j) = m0 (src + j).
Proof.
  intros H Hf Hk Hj. rewrite H.
  destruct (Z.leb_spec dst (src + j)), (Z.ltb_spec (src + j) (dst + k)); cbn; try done.
  exfalso. destruct Hf; lia.
Qed.

Lemma progress_byte m0 m' dst src n k :
  progress m0 m' dst src k -> forward_ok dst src n -> 0 <= k < n ->
  progress m0 (upd m' (dst + k) (m' (src + k))) dst src (k + 1).
Proof.
  intros H Hf Hk x. rewrite upd_case. case_decide as Hx.
  - subst x. rewrite (progress_src m0 m' dst src n k k) by (done || lia).
    destruct (Z.leb_spec dst (dst + k)), (Z.ltb_spec (dst + k) (dst + (k + 1))); cbn; try lia.
    f_equal. lia.
  - rewrite H. destruct (Z.leb_spec dst x), (Z.ltb_spec x (dst + k)), (Z.ltb_spec x (dst + (k + 1)));
      cbn; (done || lia).
Qed.

Lemma copy_word_spec m dst src x :
  copy_word m dst src x = if (dst <=? x) && (x <? dst + 4) then m (x - dst + src) else m x.
Proof.
  unfold copy_word. rewrite !upd_case.
  destruct (Z.leb_spec dst x), (Z.ltb_spec x (dst + 4)); cbn [andb];
    repeat case_decide; try lia; try done; subst; f_equal; lia.
Qed.

Lemma progress_word m0 m' dst src n k :
  progress m0 m' dst src k -> forward_ok dst src n -> 0 <= k -> k + 4 <= n ->
  progress m0 (copy_word m' (dst + k) (src + k)) dst src (k + 4).
Proof.
  intros H Hf Hk Hn x. rewrite copy_word_spec.
  destruct (Z.leb_spec (dst + k) x), (Z.ltb_spec x (dst + k + 4)); cbn [andb].
  - replace (x - (dst + k) + (src + k)) with (src + (x - dst)) by lia.
    rewrite (progress_src m0 m' dst src n k) by (done || lia).
    destruct (Z.leb_spec dst x), (Z.ltb_spec x (dst + (k + 4))); cbn; try lia. f_equal. lia.
  - rewrite H. destruct (Z.leb_spec dst x), (Z.ltb_spec x (dst + k)), (Z.ltb_spec x (dst + (k + 4)));
      cbn; (done || lia).
  - rewrite H. destruct (Z.leb_spec dst x), (Z.ltb_spec x (dst + k)), (Z.ltb_spec x (dst + (k + 4)));
      cbn; (done || lia).
  - lia.
Qed.

Lemma copy_bytes_spec f m0 m' dst src n k :
  progress m0 m' dst src k -> forward_ok dst src n -> 0 <= k <= n -> n - k <= Z.of_nat f ->
  exists m'', copy_bytes f m' (dst + k) (src + k) (dst + n) = Some m'' /\
    progress m0 m'' dst src n.
Proof.
  revert m' k. induction f as [|f IH]; intros m' k H Hf Hk Hn; cbn [copy_bytes];
    (destruct (Z.ltb_spec (dst + k) (dst + n));
     [|exists m'; split; [done|]; by replace n with k by lia]); [lia|].
  rewrite <- !Z.add_assoc. apply IH; [|done|lia|lia]. apply (progress_byte _ _ _ _ n); (done || lia).
Qed.

Lemma copy_head_spec f m0 m' dst src n k :
  progress m0 m' dst src k -> forward_ok dst src n -> 0 <= k <= n -> n - k <= Z.of_nat f ->
  exists m'' k', copy_head f m' (dst + k) (src + k) (dst + n) = Some (m'', dst + k', src + k') /\
    progress m0 m'' dst src k' /\ k <= k' <= n.
Proof.
  revert m' k. induction f as [|f IH]; intros m' k H Hf Hk Hn; cbn [copy_head];
    (destruct (negb _ && _) eqn:Hc; [|exists m', k; split_and!; (done || lia)]);
    apply andb_true_iff in Hc as [_ Hlt%Z.ltb_lt]; [lia|].
  rewrite <- !Z.add_assoc.
  destruct (IH (upd m' (dst + k) (m' (src + k))) (k + 1)) as (m'' & k' & Hr & Hp & Hk');
    [apply (progress_byte _ _ _ _ n); (done || lia)|done|lia|lia|].
  exists m'', k'. split_and!; (done || lia).
Qed.

Lemma copy_words_spec f m0 m' dst src n k :
  progress m0 m' dst src k -> forward_ok dst src n -> 0 <= k <= n -> n - k <= Z.of_nat f ->
  exists m'' k', copy_words f m' (dst + k) (src + k) (dst + n) = Some (m'', dst + k', src + k') /\
    progress m0 m'' dst src k' /\ k <= k' <= n.
Proof.
  revert m' k. induction f as [|f IH]; intros m' k H Hf Hk Hn; cbn [copy_words];
    (destruct (Z.leb_spec (dst + k + 4) (dst + n)); [|exists m', k; split_and!; (done || lia)]); [lia|].
  rewrite <- !Z.add_assoc.
  destruct (IH (copy_word m' (dst + k) (src + k)) (k + 4)) as (m'' & k' & Hr & Hp & Hk');
    [apply (progress_word _ _ _ _ n); (done || lia)|done|lia|lia|].
  exists m'', k'. split_and!; (done || lia).
Qed.

(** Whatever the overlap, each loop ends within its fuel, having moved both
    pointers by the same amount and written only below [max]. *)
Definition same_outside (lo hi : Z) (m m' : bmem) : Prop :=
  forall x, x < lo \/ hi <= x -> m' x = m x.

Lemma same_outside_byte lo hi m dst b :
  lo <= dst < hi -> same_outside lo hi m (upd m dst b).
Proof. intros H x Hx. apply upd_other. lia. Qed.

Lemma same_outside_word lo hi m dst src :
  lo <= dst -> dst + 4 <= hi -> same_outside lo hi m (copy_word m dst src).
Proof.
  intros H H' x Hx. rewrite copy_word_spec.
  destruct (Z.leb_spec dst x), (Z.ltb_spec x (dst + 4)); cbn; (done || lia).
Qed.

Lemma same_outside_trans lo hi m m' m'' :
  same_outside lo hi m m' -> same_outside lo hi m' m'' -> same_outside lo hi m m''.
Proof. intros H H' x Hx. rewrite H' by done. by apply H. Qed.

Lemma copy_bytes_total f lo m dst src max :
  lo <= dst -> max - dst <= Z.of_nat f ->
  exists m', copy_bytes f m dst src max = Some m' /\ same_outside lo max m m'.
Proof.
  revert m dst src. induction f as [|f IH]; intros m dst src Hl Hf; cbn [copy_bytes];
    (destruct (Z.ltb_spec dst max); [|by exists m]); [lia|].
  destruct (IH (upd m dst (m src)) (dst + 1) (src + 1)) as (m' & Hr & Ho); [lia|lia|].
  exists m'. split; [done|]. eapply same_outside_trans; [|done]. by apply same_outside_byte.
Qed.

Lemma copy_head_total f lo m dst src max :
  lo <= dst -> max - dst <= Z.of_nat f ->
  exists m' k, copy_head f m dst src max = Some (m', dst + k, src + k) /\ 0 <= k /\
    same_outside lo max m m'.
Proof.
  revert m dst src. induction f as [|f IH]; intros m dst src Hl Hf; cbn [copy_head];
    (destruct (negb _ && _) eqn:Hc; [|exists m, 0; by rewrite !Z.add_0_r]);
    apply andb_true_iff in Hc as [_ Hc%Z.ltb_lt]; [lia|].
  destruct (IH (upd m dst (m src)) (dst + 1) (src + 1)) as (m' & k & Hr & Hk & Ho); [lia|lia|].
  exists m', (1 + k). rewrite !Z.add_assoc. split_and!; [done|lia|].
  eapply same_outside_trans; [|done]. by apply same_outside_byte.
Qed.

Lemma copy_words_total f lo m dst src max :
  lo <= dst -> max - dst <= Z.of_nat f ->
  exists m' k, copy_words f m dst src max = Some (m', dst + k, src + k) /\ 0 <= k /\
    same_outside lo max m m'.
Proof.
  revert m dst src. induction f as [|f IH]; intros m dst src Hl Hf; cbn [copy_words];
    (destruct (Z.leb_spec (dst + 4) max); [|exists m, 0; by rewrite !Z.add_0_r]); [lia|].
  destruct (IH (copy_word m dst src) (dst + 4) (src + 4)) as (m' & k & Hr & Hk & Ho); [lia|lia|].
  exists m', (4 + k). rewrite !Z.add_assoc. split_and!; [done|lia|].
  eapply same_outside_trans; [|done]. by apply same_outside_word.
Qed.

Lemma memcpy_total m dst src n :
  0 <= n -> exists m', memcpy m dst src n = Some m' /\ same_outside dst (dst + n) m m'.
Proof.
  intros Hn. unfold memcpy. destruct (negb _); [apply copy_bytes_total; lia|].
  destruct (copy_head_total (Z.to_nat n) dst m dst src (dst + n)) as (m1 & k1 & -> & H1 & O1);
    [lia|lia|].
  destruct (copy_words_total (Z.to_nat n) dst m1 (dst + k1) (src + k1) (dst + n))
    as (m2 & k2 & -> & H2 & O2); [lia|lia|].
  destruct (copy_bytes_total (Z.to_nat n) dst m2 (dst + k1 + k2) (src + k1 + k2) (dst + n))
    as (m3 & Hr & O3); [lia|lia|].
  exists m3. split; [done|]. eauto using same_outside_trans.
Qed.

Lemma memcpy_forward m dst src n :
  0 <= n -> forward_ok dst src n ->
  exists m', memcpy m dst src n = Some m' /\ progress m m' dst src n.
Proof.
  intros Hn Hf. unfold memcpy.
  pose proof (progress_0 m dst src) as H0.
  destruct (negb _).
  - destruct (copy_bytes_spec (Z.to_nat n) m m dst src n 0 H0 Hf) as (m' & Hr & Hp); [lia|lia|].
    rewrite !Z.add_0_r in Hr. exists m'. by split.
  - destruct (copy_head_spec (Z.to_nat n) m m dst src n 0 H0 Hf) as (m1 & k1 & Hr1 & Hp1 & Hk1);
      [lia|lia|].
    rewrite !Z.add_0_r in Hr1. rewrite Hr1.
    destruct (copy_words_spec (Z.to_nat n) m m1 dst src n k1 Hp1 Hf) as (m2 & k2 & Hr2 & Hp2 & Hk2);
      [lia|lia|]. rewrite Hr2.
    destruct (copy_bytes_spec (Z.to_nat n) m m2 dst src n k2 Hp2 Hf) as (m' & Hr & Hp); [lia|lia|].
    exists m'. by split.
Qed.

(** C24. [memcpy] terminates for every pair of pointers, overlapping or not,
    and every length, and writes nothing outside the destination (pointers are
    unbounded here: the areas do not pass the end of memory).  Unless the
    destination starts inside the source, the result is the copy, whatever the
    alignment of the pointers: the three loops (leading bytes, words, trailing
    bytes) together equal the one-line definition. *)
Theorem memcpy_correct m dst src n :
  0 <= n ->
  exists m', memcpy m dst src n = Some m' /\
    (forall x, x < dst \/ dst + n <= x -> m' x = m x) /\
    (forward_ok dst src n -> forall x, m' x = copied m dst src n x).
Proof.
  intros Hn. destruct (memcpy_total m dst src n Hn) as (m' & Hr & Ho).
  exists m'. split_and!; [done|done|]. intros Hf.
  destruct (memcpy_forward m dst src n Hn Hf) as (m'' & Hr' & Hp).
  replace m' with m'' by congruence. exact Hp.
Qed.

Lemma memcpy_correct_witness :
  exists m', memcpy (fun a => a) 101 205 11 = Some m' /\
    (forall x, x < 101 \/ 112 <= x -> m' x = x) /\
    (forward_ok 101 205 11 -> forall x, m' x = copied (fun a => a) 101 205 11 x).
Proof. by apply (memcpy_correct (fun a => a) 101 205 11). Defined.
