(* ===== verification/UserMem.v ===== *)
(** * Bytes and user memory

    Physical memory is a function on aligned words; the byte operations of
    the kernel ([memcpy] into a page, dereferences of user pointers) are
    expressed on the bytes of those words, little-endian.  A dereference of a
    user pointer goes through the Sv32 translation of the address space in
    [satp]; when it faults, the trap handler [normal_page_fault] runs
    ([_do_tlb_refill] of kern/pmap.c) and the access is retried. *)
From S2P Require Import Prelude Queue Mmu Pmap.

(** ** Bytes of a word *)
Definition word_byte (w j : Z) : Z := Z.land (Z.shiftr w (8 * j)) 0xFF.
Definition bytes_word (b : Z -> Z) : Z := b 0 + b 1 * 2 ^ 8 + b 2 * 2 ^ 16 + b 3 * 2 ^ 24.
Definition mem_byte (m : Z -> Z) (a : Z) : Z := word_byte (m (a - a mod 4)) (a mod 4).

(** Little-endian reads from a byte image. *)
Definition le16 (b : Z -> Z) (o : Z) : Z := b o + b (o + 1) * 2 ^ 8.
Definition le32 (b : Z -> Z) (o : Z) : Z := bytes_word (fun j => b (o + j)).

(** [memcpy((void * )dst, src, n)] for any [dst] and [n], [src] given by its
    bytes. *)
Definition blit (dst n : Z) (src : Z -> Z) (m : Z -> Z) : Z -> Z := fun x =>
  if (dst <? x + 4) && (x <? dst + n) then
    bytes_word (fun j =>
      if (dst <=? x + j) && (x + j <? dst + n) then src (x + j - dst) else word_byte (m x) j)
  else m x.

Definition memcpy_bytes (dst n : Z) (src : Z -> Z) : PM unit :=
  modify (fun s => set_mem (blit dst n src (mem s)) s).

Lemma word_byte_range w j : 0 <= word_byte w j < 2 ^ 8.
Proof.
  unfold word_byte. change 0xFF with (Z.ones 8). rewrite Z.land_ones by lia.
  apply Z.mod_pos_bound. lia.
Qed.

Lemma word_byte_bytes_word b j :
  (forall k, 0 <= k < 4 -> 0 <= b k < 2 ^ 8) -> 0 <= j < 4 -> word_byte (bytes_word b) j = b j.
Proof.
  intros Hb Hj. unfold word_byte, bytes_word. change 0xFF with (Z.ones 8).
  rewrite Z.land_ones, Z.shiftr_div_pow2 by lia.
  pose proof (Hb 0 ltac:(lia)). pose proof (Hb 1 ltac:(lia)).
  pose proof (Hb 2 ltac:(lia)). pose proof (Hb 3 ltac:(lia)).
  assert (j = 0 \/ j = 1 \/ j = 2 \/ j = 3) as [-> | [-> | [-> | -> ]]] by lia; cbn;
    Z.div_mod_to_equations; lia.
Qed.

(** The bytes of the destination after [memcpy]. *)
Lemma blit_byte dst n src m a :
  (forall k, 0 <= k < n -> 0 <= src k < 2 ^ 8) ->
  mem_byte (blit dst n src m) a =
  if (dst <=? a) && (a <? dst + n) then src (a - dst) else mem_byte m a.
Proof.
  intros Hs. unfold mem_byte at 1, blit.
  pose proof (Z.mod_pos_bound a 4 ltac:(lia)).
  destruct (Z.ltb_spec dst (a - a mod 4 + 4)), (Z.ltb_spec (a - a mod 4) (dst + n)); cbn [andb].
  - rewrite word_byte_bytes_word; [| |done].
    + replace (a - a mod 4 + a mod 4) with a by lia. done.
    + intros k Hk. destruct (Z.leb_spec dst (a - a mod 4 + k)); [|apply word_byte_range].
      destruct (Z.ltb_spec (a - a mod 4 + k) (dst + n)); [apply Hs; lia|apply word_byte_range].
  - destruct (Z.leb_spec dst a), (Z.ltb_spec a (dst + n)); cbn; (done || lia).
  - destruct (Z.leb_spec dst a), (Z.ltb_spec a (dst + n)); cbn; (done || lia).
  - destruct (Z.leb_spec dst a), (Z.ltb_spec a (dst + n)); cbn; (done || lia).
Qed.

(** ** User pointers *)

(** The leaf entry the hardware finds for [va] under the root in [satp]. *)
Definition mmu_pte (va : Z) : PM (option Z) :=
  let! s := get in
  let root := u32 (Z.shiftl (Z.land (csr_satp s) 0x3FFFFF) 12) in
  let! pde := ld (root + 4 * PDX va) in
  if Z.land pde PTE_V =? 0 then ret None
  else
    let! pte := ld (PTE2PADDR pde + 4 * PTX va) in
    ret (if Z.land pte PTE_V =? 0 then None else Some pte).

(** The ASID [normal_page_fault] extracts from [satp]. *)
Definition satp_asid (s : pmst) : Z := Z.shiftr (Z.land (csr_satp s) 0x7FFFFFFF) 22.

(** The physical address of a user access that needs permission [perm]; one
    page fault is served by [_do_tlb_refill], a second is a [Fault]. *)
Definition user_pa (va perm : Z) : PM Z :=
  let! r := mmu_pte va in
  match r with
  | Some pte =>
      if Z.land pte perm =? 0 then fault else ret (PTE2PADDR pte + u32 va mod BY2PG)
  | None =>
      let! s := get in
      _do_tlb_refill va (satp_asid s) ;!
      let! r := mmu_pte va in
      match r with
      | Some pte =>
          if Z.land pte perm =? 0 then fault else ret (PTE2PADDR pte + u32 va mod BY2PG)
      | None => fault
      end
  end.

Definition user_lb (va : Z) : PM Z :=
  let! pa := user_pa va PTE_R in
  let! w := ld (pa - pa mod 4) in
  ret (word_byte w (pa mod 4)).

Definition user_lw (va : Z) : PM Z :=
  let! b0 := user_lb va in
  let! b1 := user_lb (va + 1) in
  let! b2 := user_lb (va + 2) in
  let! b3 := user_lb (va + 3) in
  ret (b0 + b1 * 2 ^ 8 + b2 * 2 ^ 16 + b3 * 2 ^ 24).

Definition user_sb (va v : Z) : PM unit :=
  let! pa := user_pa va PTE_W in
  let! w := ld (pa - pa mod 4) in
  memcpy_bytes pa 1 (fun _ => Z.land v 0xFF).

Definition user_sw (va v : Z) : PM unit :=
  forM (seqZ 0 4) (fun j => user_sb (va + j) (word_byte v j)).
