(* ===== verification/Fdt.v ===== *)
(** * The device tree (lib/fdt.c, include/fdt.h)

    The blob is bytes in memory.  A [struct fdt_scan_node] on the stack of
    [fdt_scan_helper] is a value that the call for its contents returns
    changed; its parent is the value the parent had when the call was made,
    since the frame that owns the parent is suspended meanwhile.  Callbacks
    act on the memory and on the object [extra]. *)
From S2P Require Import Prelude UserMem CString.

(** [bswap]: 32-bit byte swap, as two exchanges. *)
Definition bswap (x : Z) : Z :=
  let y := Z.lor (u32 (Z.shiftl (Z.land x 0x00FF00FF) 8)) (Z.shiftr (Z.land x 0xFF00FF00) 8) in
  Z.lor (u32 (Z.shiftl (Z.land y 0x0000FFFF) 16)) (Z.shiftr (Z.land y 0xFFFF0000) 16).

Definition FDT_MAGIC : Z := 0xd00dfeed.
Definition FDT_VERSION : Z := 17.
Definition FDT_BEGIN_NODE : Z := 1.
Definition FDT_END_NODE : Z := 2.
Definition FDT_PROP : Z := 3.
Definition FDT_NOP : Z := 4.
Definition FDT_END : Z := 9.

(** Fields of [struct fdt_header]. *)
Definition h_magic (h : Z) : Z := h.
Definition h_off_dt_struct (h : Z) : Z := h + 8.
Definition h_off_dt_strings (h : Z) : Z := h + 12.
Definition h_last_comp_version (h : Z) : Z := h + 24.

Inductive fdt_scan_node : Type :=
| scan_node (parent : option fdt_scan_node) (name address_cells size_cells : Z).
Definition parent (n : fdt_scan_node) : option fdt_scan_node :=
  match n with scan_node p _ _ _ => p end.
Definition address_cells (n : fdt_scan_node) : Z := match n with scan_node _ _ a _ => a end.
Definition size_cells (n : fdt_scan_node) : Z := match n with scan_node _ _ _ s => s end.
Definition set_cells (a s : Z) (n : fdt_scan_node) : fdt_scan_node :=
  match n with scan_node p m _ _ => scan_node p m a s end.

Record fdt_scan_prop : Type := mkProp {
  p_node : option fdt_scan_node;
  p_name : Z;
  p_value : Z;
  p_len : Z
}.

(** The memory and the callbacks' object. *)
Record fdtst (E : Type) : Type := mkFdt { blob : bmem; extra : E }.
Arguments mkFdt {E}. Arguments blob {E}. Arguments extra {E}.

Section Fdt.
Context {E : Type}.
Abbreviation DM := (M (fdtst E)).
Definition set_blob (m : bmem) (s : fdtst E) : fdtst E := mkFdt m (extra s).
Definition set_extra (e : E) (s : fdtst E) : fdtst E := mkFdt (blob s) e.

(** [open], [done] and [close] may be null. *)
Record fdt_cb : Type := mkCb {
  cb_open : option (fdt_scan_node -> DM unit);
  cb_prop : fdt_scan_prop -> DM unit;
  cb_done : option (fdt_scan_node -> DM unit);
  cb_close : option (fdt_scan_node -> DM Z)
}.

(** [*p] and [bswap( *p)] for a [u_int *p]. *)
Definition word (p : Z) : DM Z := gets (fun s => le32 (blob s) p).
Definition be (p : Z) : DM Z := let! w := word p in ret (bswap w).
Definition store_word (p v : Z) : DM unit :=
  modify (fun s => set_blob (fun x =>
    if (p <=? x) && (x <? p + 4) then word_byte v (x - p) else blob s x) s).

(** [!strcmp(p, lit)] *)
Fixpoint same_string (m : bmem) (p : Z) (lit : list Z) : bool :=
  match lit with
  | [] => m p =? 0
  | c :: lit => (m p =? c) && same_string m (p + 1) lit
  end.
Definition is_string (p : Z) (lit : list Z) : DM bool := gets (fun s => same_string (blob s) p lit).

Definition strlen_at (n : nat) (p : Z) : DM Z := fun s =>
  match strlen n (blob s) p with Some l => Ret l s | None => Fault end.

Context (fuel_str : nat) (cb : fdt_cb).

Definition STR_ADDRESS_CELLS : list Z := [35; 97; 100; 100; 114; 101; 115; 115; 45; 99; 101; 108; 108; 115].
Definition STR_SIZE_CELLS : list Z := [35; 115; 105; 122; 101; 45; 99; 101; 108; 108; 115].

(** [if (!last && node && cb->done) cb->done(node, cb->extra)] *)
Definition call_done (last : bool) (node : option fdt_scan_node) : DM unit :=
  match node, cb_done cb with
  | Some node, Some done => if last then ret tt else done node
  | _, _ => ret tt
  end.

(** [while (lex != lex_next) *lex++ = bswap(FDT_NOP)] *)
Fixpoint fill_nop (n : nat) (lex lex_next : Z) : DM unit :=
  if lex =? lex_next then ret tt
  else match n with
    | O => fault
    | S n => store_word lex (bswap FDT_NOP) ;! fill_nop n (lex + 4) lex_next
    end.

(** The cell counts a property sets in its node. *)
Definition prop_cells (node : option fdt_scan_node) (name lex : Z) : DM (option fdt_scan_node) :=
  match node with
  | None => ret None
  | Some node =>
      let! a := is_string name STR_ADDRESS_CELLS in
      let! v := be (lex + 12) in
      let node := if (a : bool) then set_cells (s32 v) (size_cells node) node else node in
      let! b := is_string name STR_SIZE_CELLS in
      let! v := be (lex + 12) in
      let node := if (b : bool) then set_cells (address_cells node) (s32 v) node else node in
      ret (Some node)
  end.

(** The loop of [fdt_scan_helper]: [ca] and [cs] are the cell counts in
    [child], which is one variable for all children.  The result is the
    returned [lex] and the node as it is left. *)
Fixpoint scan_loop (n : nat) (lex strings : Z) (node : option fdt_scan_node) (ca cs : Z)
    (last : bool) : DM (Z * option fdt_scan_node) :=
  match n with
  | O => fault
  | S n =>
      let! tag := be lex in
      if tag =? FDT_NOP then scan_loop n (lex + 4) strings node ca cs last
      else if tag =? FDT_PROP then
        let! off := be (lex + 8) in
        let! len := be (lex + 4) in
        let len := s32 len in
        let name := strings + off in
        let! node := prop_cells node name lex in
        cb_prop cb (mkProp node name (lex + 12) len) ;!
        scan_loop n (lex + 4 * (3 + Z.quot (len + 3) 4)) strings node ca cs last
      else if tag =? FDT_BEGIN_NODE then
        call_done last node ;!
        let child := scan_node node (lex + 4) ca cs in
        (match cb_open cb with Some open => open child | None => ret tt end) ;!
        let! l := strlen_at fuel_str (lex + 4) in
        let! '(lex_next, child) := scan_loop n (lex + 4 * (2 + l / 4)) strings (Some child) 2 1 false in
        let child := match child with Some c => c | None => scan_node node (lex + 4) ca cs end in
        (match cb_close cb with
         | Some close =>
             let! r := close child in
             if r =? -1 then fill_nop (Z.to_nat (lex_next - lex)) lex lex_next else ret tt
         | None => ret tt
         end) ;!
        scan_loop n lex_next strings node (address_cells child) (size_cells child) true
      else if tag =? FDT_END_NODE then call_done last node ;! ret (lex + 4, node)
      else call_done last node ;! ret (lex, node)
  end.

(** The default cell counts of [child] are 2 and 1. *)
Definition fdt_scan_helper (n : nat) (lex strings : Z) (node : option fdt_scan_node)
    : DM (Z * option fdt_scan_node) := scan_loop n lex strings node 2 1 false.

Definition fdt_scan (n : nat) (fdt : Z) : DM unit :=
  let! magic := be (h_magic fdt) in
  let! version := be (h_last_comp_version fdt) in
  if negb (magic =? FDT_MAGIC) || (FDT_VERSION <? version) then ret tt
  else
    let! o1 := be (h_off_dt_strings fdt) in
    let! o2 := be (h_off_dt_struct fdt) in
    fdt_scan_helper n (fdt + o2) (fdt + o1) None ;! ret tt.

(** The loop of [fdt_get_address] and [fdt_get_size] on [cells] words;
    [shl32] is what the compiler makes of [*result << 32], which is undefined
    for a 32-bit [u_int].  The result is [*result] and [value]. *)
Context (shl32 : Z -> Z).

Fixpoint get_cells (cells : nat) (value result : Z) : DM (Z * Z) :=
  match cells with
  | O => ret (result, value)
  | S cells => let! w := be value in get_cells cells (value + 4) (u32 (shl32 result + w))
  end.
Definition fdt_get_address (node : fdt_scan_node) (value : Z) : DM (Z * Z) :=
  get_cells (Z.to_nat (address_cells node)) value 0.
Definition fdt_get_size (node : fdt_scan_node) (value : Z) : DM (Z * Z) :=
  get_cells (Z.to_nat (size_cells node)) value 0.
End Fdt.

(** ** The memory scan *)

(** [struct mem_scan] and the static variable [mem_size]. *)
Record mem_scan : Type := mkScan { memory : bool; reg_value : Z; reg_len : Z; mem_size : Z }.

Section MemScan.
Context (fuel_str : nat) (shl32 : Z -> Z) (self : Z).
Abbreviation DM := (M (fdtst mem_scan)).

Definition STR_DEVICE_TYPE : list Z := [100; 101; 118; 105; 99; 101; 95; 116; 121; 112; 101].
Definition STR_MEMORY : list Z := [109; 101; 109; 111; 114; 121].
Definition STR_REG : list Z := [114; 101; 103].

Definition upd_scan (f : mem_scan -> mem_scan) : DM unit :=
  modify (fun s => set_extra (f (extra s)) s).

Definition mem_open (node : fdt_scan_node) : DM unit :=
  upd_scan (fun e => mkScan false 0 0 (mem_size e)).

Definition mem_prop (prop : fdt_scan_prop) : DM unit :=
  let! t := is_string (p_name prop) STR_DEVICE_TYPE in
  let! v := is_string (p_value prop) STR_MEMORY in
  if (t : bool) && (v : bool) then
    upd_scan (fun e => mkScan true (reg_value e) (reg_len e) (mem_size e))
  else
    let! r := is_string (p_name prop) STR_REG in
    if (r : bool) then
      upd_scan (fun e => mkScan (memory e) (p_value prop) (p_len prop) (mem_size e))
    else ret tt.

(** [while (end - value > 0)]; the parent of the root is null. *)
Fixpoint mem_banks (n : nat) (node : fdt_scan_node) (value end_ : Z) : DM unit :=
  if 0 <? end_ - value then
    match n, parent node with
    | S n, Some p =>
        let! '(base, value) := fdt_get_address shl32 p value in
        let! '(size, value) := fdt_get_size shl32 p value in
        (if (base <=? self) && (self <=? u32 (base + size)) then
           upd_scan (fun e => mkScan (memory e) (reg_value e) (reg_len e) size)
         else ret tt) ;!
        mem_banks n node value end_
    | _, _ => fault
    end
  else ret tt.

(** Each bank takes at least one word of the property. *)
Definition mem_done (node : fdt_scan_node) : DM unit :=
  let! s := get in
  let e := extra s in
  if negb (memory e) then ret tt
  else mem_banks (Z.to_nat (reg_len e)) node (reg_value e) (reg_value e + 4 * Z.quot (reg_len e) 4).

Definition mem_cb : fdt_cb := mkCb (Some mem_open) mem_prop (Some mem_done) None.

Definition query_mem_size (n : nat) (fdt : Z) : DM Z :=
  upd_scan (fun e => mkScan (memory e) (reg_value e) (reg_len e) 0) ;!
  fdt_scan fuel_str mem_cb n fdt ;!
  gets (fun s => mem_size (extra s)).
End MemScan.
