(* ===== verification/FdtProps.v ===== *)
(** * What the scan of a device tree finds

    A tree laid out in memory as the specification of device trees says is
    visited node by node, and [query_mem_size] finds the memory bank that
    holds the kernel. *)
From S2P Require Import Prelude Mmu UserMem CString Fdt.

(** ** Words of the blob *)
Definition byte (z : Z) : Prop := 0 <= z < 2 ^ 8.
Definition big_endian (v : Z) : list Z := [v / 2 ^ 24; v / 2 ^ 16 mod 2 ^ 8; v / 2 ^ 8 mod 2 ^ 8; v mod 2 ^ 8].

(** One byte of a word, in place. *)
Lemma land_byte x k : 0 <= k ->
  Z.land x (Z.shiftl 0xFF k) = x / 2 ^ k mod 2 ^ 8 * 2 ^ k.
Proof.
  intros Hk. rewrite <- Z.shiftl_mul_pow2 by done. rewrite <- Z.shiftr_div_pow2 by done.
  rewrite <- Z.land_ones by lia. change (Z.ones 8) with 0xFF.
  apply Z.bits_inj'. intros i Hi. rewrite Z.land_spec, !Z.shiftl_spec, Z.land_spec by lia.
  destruct (Z.le_gt_cases k i).
  - rewrite Z.shiftr_spec by lia. by replace (i - k + k) with i by lia.
  - rewrite (Z.testbit_neg_r 0xFF) by lia. by rewrite !andb_false_r.
Qed.

Lemma land_two x j k : 0 <= j -> j + 8 <= k ->
  Z.land x (Z.lor (Z.shiftl 0xFF j) (Z.shiftl 0xFF k)) =
  x / 2 ^ j mod 2 ^ 8 * 2 ^ j + x / 2 ^ k mod 2 ^ 8 * 2 ^ k.
Proof.
  intros Hj Hk. rewrite Z.land_lor_distr_r, !land_byte by lia. rewrite Z.lor_comm, (lor_low _ _ k); [lia|lia| |].
  - by rewrite Z.mod_mul by lia.
  - pose proof (Z.mod_pos_bound (x / 2 ^ j) (2 ^ 8) ltac:(lia)). split; [nia|].
    apply Z.lt_le_trans with (2 ^ 8 * 2 ^ j); [nia|]. rewrite <- Z.pow_add_r by lia.
    apply Z.pow_le_mono_r; lia.
Qed.

(** Two and four bytes at places that do not overlap, in any order. *)
Lemma lor_two a b j k : byte a -> byte b -> 0 <= j -> j + 8 <= k ->
  Z.lor (a * 2 ^ j) (b * 2 ^ k) = a * 2 ^ j + b * 2 ^ k.
Proof.
  unfold byte. intros Ha Hb Hj Hk. rewrite Z.lor_comm, (lor_low _ _ k); [lia|lia|by rewrite Z.mod_mul by lia|].
  split; [nia|]. apply Z.lt_le_trans with (2 ^ 8 * 2 ^ j); [nia|]. rewrite <- Z.pow_add_r by lia.
  apply Z.pow_le_mono_r; lia.
Qed.

Lemma lor_four a b c d : byte a -> byte b -> byte c -> byte d ->
  Z.lor (b * 2 ^ 8 + d * 2 ^ 24) (a * 2 ^ 0 + c * 2 ^ 16) = a + b * 2 ^ 8 + c * 2 ^ 16 + d * 2 ^ 24.
Proof.
  intros Ha Hb Hc Hd. rewrite <- !lor_two by (done || lia).
  transitivity (Z.lor (Z.lor (c * 2 ^ 16) (d * 2 ^ 24)) (Z.lor (a * 2 ^ 0) (b * 2 ^ 8))).
  { rewrite (Z.lor_comm (a * 2 ^ 0) (b * 2 ^ 8)), (Z.lor_comm (c * 2 ^ 16) (d * 2 ^ 24)).
    rewrite <- !Z.lor_assoc. rewrite (Z.lor_comm (b * 2 ^ 8)), <- !Z.lor_assoc. f_equal.
    rewrite (Z.lor_comm (a * 2 ^ 0)), <- !Z.lor_assoc. done. }
  rewrite !lor_two by (done || lia). unfold byte in *. rewrite (lor_low _ _ 16); [lia|lia| |lia].
  replace (c * 2 ^ 16 + d * 2 ^ 24) with ((c + d * 2 ^ 8) * 2 ^ 16) by lia. by rewrite Z.mod_mul by lia.
Qed.

Lemma bswap_bytes b0 b1 b2 b3 : byte b0 -> byte b1 -> byte b2 -> byte b3 ->
  bswap (b0 + b1 * 2 ^ 8 + b2 * 2 ^ 16 + b3 * 2 ^ 24) = b3 + b2 * 2 ^ 8 + b1 * 2 ^ 16 + b0 * 2 ^ 24.
Proof.
  unfold byte. intros H0 H1 H2 H3. set (x := b0 + b1 * 2 ^ 8 + b2 * 2 ^ 16 + b3 * 2 ^ 24).
  assert (Hx : Z.land x 0x00FF00FF = b0 + b2 * 2 ^ 16).
  { change 0x00FF00FF with (Z.lor (Z.shiftl 0xFF 0) (Z.shiftl 0xFF 16)). rewrite land_two by lia.
    subst x. Z.div_mod_to_equations. lia. }
  assert (Hy : Z.land x 0xFF00FF00 = b1 * 2 ^ 8 + b3 * 2 ^ 24).
  { change 0xFF00FF00 with (Z.lor (Z.shiftl 0xFF 8) (Z.shiftl 0xFF 24)). rewrite land_two by lia.
    subst x. Z.div_mod_to_equations. lia. }
  unfold bswap. rewrite Hx, Hy, !Z.shiftl_mul_pow2, !Z.shiftr_div_pow2 by lia.
  rewrite (u32_id ((b0 + b2 * 2 ^ 16) * 2 ^ 8)) by lia.
  replace ((b0 + b2 * 2 ^ 16) * 2 ^ 8) with (b0 * 2 ^ 8 + b2 * 2 ^ 24) by lia.
  replace ((b1 * 2 ^ 8 + b3 * 2 ^ 24) / 2 ^ 8) with (b1 * 2 ^ 0 + b3 * 2 ^ 16)
    by (Z.div_mod_to_equations; lia).
  rewrite lor_four by done. set (y := b1 + b0 * 2 ^ 8 + b3 * 2 ^ 16 + b2 * 2 ^ 24).
  assert (Hlow : Z.land y 0x0000FFFF = b1 + b0 * 2 ^ 8).
  { change 0x0000FFFF with (Z.lor (Z.shiftl 0xFF 0) (Z.shiftl 0xFF 8)). rewrite land_two by lia.
    subst y. Z.div_mod_to_equations. lia. }
  assert (Hhigh : Z.land y 0xFFFF0000 = b3 * 2 ^ 16 + b2 * 2 ^ 24).
  { change 0xFFFF0000 with (Z.lor (Z.shiftl 0xFF 16) (Z.shiftl 0xFF 24)). rewrite land_two by lia.
    subst y. Z.div_mod_to_equations. lia. }
  rewrite Hlow, Hhigh. rewrite u32_id by lia.
  replace ((b3 * 2 ^ 16 + b2 * 2 ^ 24) / 2 ^ 16) with (b3 + b2 * 2 ^ 8) by (Z.div_mod_to_equations; lia).
  rewrite (lor_low _ _ 16); [lia|lia|by rewrite Z.mod_mul by lia|lia].
Qed.

(** The bytes of a list from [a] on. *)
Fixpoint bytes_at (m : bmem) (a : Z) (l : list Z) : Prop :=
  match l with [] => True | b :: l => m a = b /\ bytes_at m (a + 1) l end.

Lemma bytes_at_app m a l1 l2 :
  bytes_at m a (l1 ++ l2) <-> bytes_at m a l1 /\ bytes_at m (a + Z.of_nat (length l1)) l2.
Proof.
  revert a. induction l1 as [|b l1 IH]; intros a; cbn [app bytes_at length].
  - rewrite Z.add_0_r. tauto.
  - rewrite IH. replace (a + Z.of_nat (S (length l1))) with (a + 1 + Z.of_nat (length l1)) by lia. tauto.
Qed.

Lemma be_run {E} v a (s : fdtst E) : 0 <= v < 2 ^ 32 -> bytes_at (blob s) a (big_endian v) ->
  be a s = Ret v s.
Proof.
  intros Hv (H0 & H1 & H2 & H3 & _). unfold be, word. munfold. unfold le32, bytes_word. rewrite Z.add_0_r.
  replace (a + 1 + 1) with (a + 2) in H2, H3 by lia. replace (a + 2 + 1) with (a + 3) in H3 by lia.
  rewrite H0, H1, H2, H3, bswap_bytes; unfold byte.
  - do 2 f_equal. Z.div_mod_to_equations. lia.
  - Z.div_mod_to_equations. lia.
  - apply Z.mod_pos_bound. lia.
  - apply Z.mod_pos_bound. lia.
  - apply Z.mod_pos_bound. lia.
Qed.

Lemma be_bytes {E} b0 b1 b2 b3 a (s : fdtst E) : byte b0 -> byte b1 -> byte b2 -> byte b3 ->
  bytes_at (blob s) a [b0; b1; b2; b3] ->
  be a s = Ret (b0 * 2 ^ 24 + b1 * 2 ^ 16 + b2 * 2 ^ 8 + b3) s.
Proof.
  unfold byte. intros H0 H1 H2 H3 Hm. apply be_run; [lia|].
  replace (big_endian _) with [b0; b1; b2; b3]; [done|].
  unfold big_endian. do 3 (f_equal; [Z.div_mod_to_equations; lia|]). f_equal. Z.div_mod_to_equations; lia.
Qed.

(** ** Trees and their layout *)

(** A property is the offset of its name and its value; names are strings
    without their terminator. *)
Inductive dtree : Type :=
| Node (name : list Z) (props : list (Z * list Z)) (children : list dtree).

Section DtreeInd.
Variable P : dtree -> Prop.
Hypothesis P_node : forall name props children, Forall P children -> P (Node name props children).

Fixpoint dtree_all (t : dtree) : P t :=
  match t with
  | Node name props children =>
      P_node name props children
        ((fix all l := match l return Forall P l with
          | [] => @Forall_nil_2 _ P
          | t :: l => @Forall_cons_2 _ P _ _ (dtree_all t) (all l)
          end) children)
  end.
End DtreeInd.

Definition len (l : list Z) : Z := Z.of_nat (length l).
Definition pad (l : list Z) : list Z := l ++ replicate (Z.to_nat (- len l mod 4)) 0.
Definition flatten_prop (p : Z * list Z) : list Z :=
  big_endian FDT_PROP ++ big_endian (len (snd p)) ++ big_endian (fst p) ++ pad (snd p).
Fixpoint flatten (t : dtree) : list Z :=
  match t with
  | Node name props children =>
      big_endian FDT_BEGIN_NODE ++ pad (name ++ [0]) ++
      flat_map flatten_prop props ++ flat_map flatten children ++ big_endian FDT_END_NODE
  end.

(** ** What the memory scan is to find *)
Section Spec.
Context (str : Z -> list Z) (self : Z) (m : bmem) (strings : Z) (fuel_str : nat).

Fixpoint be_words (l : list Z) : list Z :=
  match l with
  | b0 :: b1 :: b2 :: b3 :: l => (b0 * 2 ^ 24 + b1 * 2 ^ 16 + b2 * 2 ^ 8 + b3) :: be_words l
  | _ => []
  end.

(** The number written in some cells. *)
Definition number_from (r : Z) (ws : list Z) : Z := fold_left (fun r w => r * 2 ^ 32 + w) ws r.
Definition number (ws : list Z) : Z := number_from 0 ws.

(** What the properties of a node say: its cell counts, whether it is memory,
    and its banks. *)
Record own : Type := mkOwn { o_ac : Z; o_sc : Z; o_mem : bool; o_reg : list Z }.
Definition prop_step (o : own) (p : Z * list Z) : own :=
  let '(off, v) := p in
  let first := hd 0 (be_words v) in
  mkOwn (if bool_decide (str off = STR_ADDRESS_CELLS) then first else o_ac o)
    (if bool_decide (str off = STR_SIZE_CELLS) then first else o_sc o)
    (bool_decide (str off = STR_DEVICE_TYPE /\ v = STR_MEMORY ++ [0]) || o_mem o)
    (if bool_decide (str off = STR_REG) then v else o_reg o).
Definition node_own (ac sc : Z) (props : list (Z * list Z)) : own :=
  fold_left prop_step props (mkOwn ac sc false []).

(** The last of [n] banks of [ac] and [sc] cells that holds [self]; [acc] when
    there is none. *)
Fixpoint banks (n ac sc : nat) (ws : list Z) (acc : Z) : Z :=
  match n with
  | O => acc
  | S n =>
      let base := number (take ac ws) in
      let size := number (take sc (drop ac ws)) in
      banks n ac sc (drop sc (drop ac ws))
        (if (base <=? self) && (self <=? base + size) then size else acc)
  end.
Definition node_banks (pac psc : Z) (o : own) (acc : Z) : Z :=
  if o_mem o then
    let ws := be_words (o_reg o) in
    banks (length ws / (Z.to_nat pac + Z.to_nat psc)) (Z.to_nat pac) (Z.to_nat psc) ws acc
  else acc.

(** The size found in a tree under a node with cell counts [pac] and [psc],
    for a node that starts with the counts [ac] and [sc]: those its left
    sibling ends with. *)
Fixpoint visit (t : dtree) (pac psc ac sc acc : Z) : Z :=
  match t with
  | Node _ props children =>
      let o := node_own ac sc props in
      (fix go cs ac sc acc :=
         match cs with
         | [] => acc
         | (Node _ props _ as c) :: cs =>
             go cs (o_ac (node_own ac sc props)) (o_sc (node_own ac sc props))
               (visit c (o_ac o) (o_sc o) ac sc acc)
         end) children 2 1 (node_banks pac psc o acc)
  end.

Fixpoint visit_list (cs : list dtree) (pac psc ac sc acc : Z) : Z :=
  match cs with
  | [] => acc
  | (Node _ props _ as c) :: cs =>
      visit_list cs pac psc (o_ac (node_own ac sc props)) (o_sc (node_own ac sc props))
        (visit c pac psc ac sc acc)
  end.

Lemma visit_node name props cs pac psc ac sc acc :
  let o := node_own ac sc props in
  visit (Node name props cs) pac psc ac sc acc =
  visit_list cs (o_ac o) (o_sc o) 2 1 (node_banks pac psc o acc).
Proof using.
  intros o. cbn [visit]. fold o. generalize (node_banks pac psc o acc), 2, 1.
  induction cs as [|[n ps k] cs IH]; intros acc' a b; [done|]. cbn [visit_list]. by rewrite <- IH.
Qed.

(** ** Well-formed trees *)

(** Every base, size and end of a bank is a 32-bit number. *)
Fixpoint banks_fit (n ac sc : nat) (ws : list Z) : Prop :=
  match n with
  | O => True
  | S n => number (take ac ws) + number (take sc (drop ac ws)) < 2 ^ 32 /\
      banks_fit n ac sc (drop sc (drop ac ws))
  end.

Record prop_ok (p : Z * list Z) : Prop := {
  pk_off : 0 <= fst p < 2 ^ 32;
  pk_value : Forall byte (snd p);
  pk_len : len (snd p) < 2 ^ 31;
  pk_name : Forall (fun c => c <> 0) (str (fst p));
  pk_stored : bytes_at m (strings + fst p) (str (fst p) ++ [0]);
  pk_cells : str (fst p) = STR_ADDRESS_CELLS \/ str (fst p) = STR_SIZE_CELLS ->
    length (snd p) = 4%nat /\ hd 0 (be_words (snd p)) < 2 ^ 31;
  pk_type : str (fst p) = STR_DEVICE_TYPE ->
    exists w, snd p = w ++ [0] /\ Forall (fun c => c <> 0) w
}.

(** The parent of a memory node, by its cell counts, divides its banks. *)
Definition node_ok (par : option (Z * Z)) (o : own) : Prop :=
  o_mem o = true ->
  match par with
  | None => False
  | Some (pac, psc) =>
      let k := (Z.to_nat pac + Z.to_nat psc)%nat in
      let ws := be_words (o_reg o) in
      (0 < k)%nat /\ (exists n, length (o_reg o) = 4 * (n * k))%nat /\
      banks_fit (length ws / k) (Z.to_nat pac) (Z.to_nat psc) ws
  end.

Inductive tree_ok : option (Z * Z) -> Z -> Z -> dtree -> Prop :=
| tree_ok_node par ac sc name props cs :
    Forall (fun c => c <> 0) name -> (length name < fuel_str)%nat -> Forall prop_ok props ->
    node_ok par (node_own ac sc props) ->
    forest_ok (o_ac (node_own ac sc props), o_sc (node_own ac sc props)) 2 1 cs ->
    tree_ok par ac sc (Node name props cs)
with forest_ok : Z * Z -> Z -> Z -> list dtree -> Prop :=
| forest_nil par ac sc : forest_ok par ac sc []
| forest_cons par ac sc name props k cs :
    tree_ok (Some par) ac sc (Node name props k) ->
    forest_ok par (o_ac (node_own ac sc props)) (o_sc (node_own ac sc props)) cs ->
    forest_ok par ac sc (Node name props k :: cs).

(** Turns of the loop that a tree needs. *)
Fixpoint weight (t : dtree) : nat :=
  match t with Node _ props cs => 2 + length props + list_sum (List.map weight cs) end.
End Spec.

(** ** Running the scan *)
Section Run.
Context (str : Z -> list Z) (self : Z) (m : bmem) (strings : Z) (fuel_str : nat).
Context (shl32 : Z -> Z) (shl32_0 : shl32 0 = 0).
Abbreviation prop_ok := (prop_ok str m strings).
Abbreviation node_own := (node_own str).
Abbreviation step := (prop_step str).
Abbreviation cb := (mem_cb shl32 self).
Abbreviation loop := (scan_loop fuel_str cb).

Lemma same_string_run p w lit : bytes_at m p (w ++ [0]) ->
  Forall (fun c => c <> 0) w -> Forall (fun c => c <> 0) lit ->
  same_string m p lit = bool_decide (w = lit).
Proof.
  revert p lit. induction w as [|c w IH]; intros p lit Hm Hw Hl; destruct lit as [|d lit]; cbn in *.
  - destruct Hm as [-> _]. done.
  - destruct Hm as [-> _]. apply Forall_cons in Hl as [Hd _]. by destruct (Z.eqb_spec 0 d).
  - destruct Hm as [-> _]. apply Forall_cons in Hw as [Hc _]. by destruct (Z.eqb_spec c 0).
  - destruct Hm as [-> Hm]. apply Forall_cons in Hw as [Hc Hw]. apply Forall_cons in Hl as [Hd Hl].
    rewrite (IH _ lit Hm Hw Hl). destruct (Z.eqb_spec c d) as [->|Hne]; cbn [andb].
    + apply bool_decide_ext. split; [by intros ->|by intros [= ->]].
    + symmetry. apply bool_decide_eq_false. by intros [= ? _].
Qed.

Lemma strlen_run p w n : bytes_at m p (w ++ [0]) -> Forall (fun c => c <> 0) w ->
  (length w < n)%nat -> strlen n m p = Some (len w).
Proof.
  revert p n. induction w as [|c w IH]; intros p n Hm Hw Hn; (destruct n as [|n]; [cbn in Hn; lia|]); cbn in *.
  - by destruct Hm as [-> _].
  - destruct Hm as [-> Hm]. apply Forall_cons in Hw as [Hc Hw]. destruct (Z.eqb_spec c 0); [done|].
    rewrite (IH (p + 1) n Hm Hw) by lia. unfold len. cbn [option_map length]. f_equal. lia.
Qed.

Lemma len_pad l : len (pad l) = 4 * ((len l + 3) / 4).
Proof.
  unfold pad, len. rewrite length_app, length_replicate, Nat2Z.inj_add, Z2Nat.id.
  - set (k := Z.of_nat (length l)). Z.div_mod_to_equations. lia.
  - apply Z.mod_pos_bound. lia.
Qed.

Lemma len_app l1 l2 : len (l1 ++ l2) = len l1 + len l2.
Proof. unfold len. rewrite length_app. lia. Qed.

Lemma bytes_at_pad a l : bytes_at m a (pad l) -> bytes_at m a l.
Proof. unfold pad. by intros [H _]%bytes_at_app. Qed.

(** The first word of a value of four bytes. *)
Lemma be_value E v a (s : fdtst E) : blob s = m -> bytes_at m a v -> Forall byte v -> length v = 4%nat ->
  be a s = Ret (hd 0 (be_words v)) s.
Proof.
  intros Hs Hm Hv Hl. destruct v as [|b0 [|b1 [|b2 [|b3 [|]]]]]; try done.
  repeat (apply Forall_cons in Hv as [? Hv]). rewrite (be_bytes b0 b1 b2 b3); by rewrite ?Hs.
Qed.

(** What the scan has found of a node so far, and the size found before it. *)
Record scan_is (o : own) (acc : Z) (e : mem_scan) : Prop := {
  si_memory : memory e = o_mem o;
  si_len : reg_len e = len (o_reg o);
  si_value : bytes_at m (reg_value e) (o_reg o);
  si_size : mem_size e = acc
}.

Definition at_state (s : fdtst mem_scan) : Prop := blob s = m.

Lemma is_string_run off lit (s : fdtst mem_scan) : at_state s ->
  bytes_at m (strings + off) (str off ++ [0]) -> Forall (fun c => c <> 0) (str off) ->
  Forall (fun c => c <> 0) lit ->
  is_string (strings + off) lit s = Ret (bool_decide (str off = lit)) s.
Proof.
  intros Hs Hm Hw Hl. unfold is_string. munfold. rewrite Hs. by rewrite (same_string_run _ (str off)).
Qed.

Lemma be_total {E} a (s : fdtst E) : exists w, be a s = Ret w s.
Proof. by eexists. Qed.

Lemma prop_cells_run par nm o p lex s : at_state s -> prop_ok p -> bytes_at m (lex + 12) (snd p) ->
  prop_cells (Some (scan_node par nm (o_ac o) (o_sc o))) (strings + fst p) lex s =
  Ret (Some (scan_node par nm (o_ac (step o p)) (o_sc (step o p)))) s.
Proof.
  intros Hs [Hoff Hv Hlen Hname Hst Hcells _] Hm. destruct p as [off v]. cbn [fst snd] in *.
  unfold prop_cells.
  rewrite (bind_step _ _ _ _ _ (is_string_run off STR_ADDRESS_CELLS s Hs Hst Hname ltac:(by repeat constructor))).
  assert (Hbe : exists w, be (lex + 12) s = Ret w s /\
    (str off = STR_ADDRESS_CELLS \/ str off = STR_SIZE_CELLS -> s32 w = hd 0 (be_words v))).
  { destruct (be_total (lex + 12) s) as [w Hbe]. exists w. split; [done|]. intros Hc.
    destruct (Hcells Hc) as [Hl Hb]. rewrite (be_value _ v) in Hbe by done. injection Hbe as <-.
    apply s32_small. split; [|done].
    destruct v as [|b0 [|b1 [|b2 [|b3 [|]]]]]; try done.
    repeat (apply Forall_cons in Hv as [? Hv]). unfold byte in *. cbn. lia. }
  destruct Hbe as (w & Hbe & Hw). rewrite (bind_step _ _ _ _ _ Hbe).
  rewrite (bind_step _ _ _ _ _ (is_string_run off STR_SIZE_CELLS s Hs Hst Hname ltac:(by repeat constructor))).
  rewrite (bind_step _ _ _ _ _ Hbe). unfold ret. do 2 f_equal. unfold prop_step. cbn [o_ac o_sc].
  case_bool_decide as Ha; case_bool_decide as Hb; cbn; by rewrite ?Hw by auto.
Qed.

Lemma mem_prop_run node p value o acc s : at_state s -> prop_ok p -> bytes_at m value (snd p) ->
  scan_is o acc (extra s) ->
  exists s', mem_prop (mkProp node (strings + fst p) value (len (snd p))) s = Ret tt s' /\
    at_state s' /\ scan_is (step o p) acc (extra s').
Proof.
  intros Hs [Hoff Hv Hlen Hname Hst _ Htype] Hm [Hmem Hrl Hrv Hsz]. destruct p as [off v]. cbn [fst snd] in *.
  unfold mem_prop. cbn [p_name p_value p_len].
  rewrite (bind_step _ _ _ _ _ (is_string_run off STR_DEVICE_TYPE s Hs Hst Hname ltac:(by repeat constructor))).
  rewrite (bind_step _ _ s (same_string m value STR_MEMORY) s) by (unfold is_string; munfold; by rewrite Hs).
  case_bool_decide as Ht; cbn [andb].
  - assert (Hval : same_string m value STR_MEMORY = bool_decide (v = STR_MEMORY ++ [0])).
    { destruct (Htype Ht) as (w & -> & Hw). rewrite (same_string_run _ w) by (done || by repeat constructor).
      apply bool_decide_ext. split; [by intros ->|]. by intros ->%app_inv_tail. }
    assert (Hreg : str off <> STR_REG) by (by rewrite Ht).
    rewrite Hval. case_bool_decide as Hmv.
    + eexists. split; [done|]. split; [done|]. split; cbn.
      * by rewrite bool_decide_eq_true_2.
      * by rewrite bool_decide_eq_false_2.
      * by rewrite bool_decide_eq_false_2.
      * done.
    + rewrite (bind_step _ _ _ _ _ (is_string_run off STR_REG s Hs Hst Hname ltac:(by repeat constructor))).
      rewrite bool_decide_eq_false_2 by done. exists s. split; [done|]. split; [done|]. split; cbn.
      * by rewrite bool_decide_eq_false_2 by tauto.
      * by rewrite bool_decide_eq_false_2.
      * by rewrite bool_decide_eq_false_2.
      * done.
  - rewrite (bind_step _ _ _ _ _ (is_string_run off STR_REG s Hs Hst Hname ltac:(by repeat constructor))).
    case_bool_decide as Hr.
    + eexists. split; [done|]. split; [done|]. split; cbn.
      * by rewrite bool_decide_eq_false_2 by tauto.
      * by rewrite bool_decide_eq_true_2.
      * by rewrite bool_decide_eq_true_2.
      * done.
    + exists s. split; [done|]. split; [done|]. split; cbn.
      * by rewrite bool_decide_eq_false_2 by tauto.
      * by rewrite bool_decide_eq_false_2.
      * by rewrite bool_decide_eq_false_2.
      * done.
Qed.

Lemma len_flatten_prop p : len (flatten_prop p) = 12 + len (pad (snd p)).
Proof. unfold flatten_prop. rewrite !len_app. change (len (big_endian _)) with 4. lia. Qed.

(** One turn of the loop on a property. *)
Lemma prop_turn n a p par nm o ca cs last acc s :
  at_state s -> prop_ok p -> bytes_at m a (flatten_prop p) -> scan_is o acc (extra s) ->
  exists s', loop (S n) a strings (Some (scan_node par nm (o_ac o) (o_sc o))) ca cs last s =
    loop n (a + len (flatten_prop p)) strings
      (Some (scan_node par nm (o_ac (step o p)) (o_sc (step o p)))) ca cs last s' /\
    at_state s' /\ scan_is (step o p) acc (extra s').
Proof.
  intros Hs Hp Hm Hsi. pose proof Hp as [Hoff Hv Hlen _ _ _ _].
  rewrite len_flatten_prop, len_pad. unfold flatten_prop in Hm.
  apply bytes_at_app in Hm as [Htag Hm]. apply bytes_at_app in Hm as [Hl Hm].
  apply bytes_at_app in Hm as [Ho Hval%bytes_at_pad].
  change (Z.of_nat (length (big_endian _))) with 4 in Hl, Ho, Hval.
  replace (a + 4 + 4) with (a + 8) in Ho, Hval by lia. replace (a + 8 + 4) with (a + 12) in Hval by lia.
  rewrite <- Hs in Htag, Hl, Ho.
  destruct (mem_prop_run (Some (scan_node par nm (o_ac (step o p)) (o_sc (step o p)))) p (a + 12) o acc s)
    as (s' & Hrun & Hs' & Hsi'); [done..|].
  exists s'. split; [|done]. cbn [scan_loop].
  rewrite (bind_step _ _ _ _ _ (be_run FDT_PROP a s ltac:(done) Htag)). cbn [FDT_PROP FDT_NOP Z.eqb Pos.eqb].
  rewrite (bind_step _ _ _ _ _ (be_run (fst p) (a + 8) s Hoff Ho)).
  assert (Hnn : 0 <= len (snd p)) by (unfold len; lia).
  rewrite (bind_step _ _ _ _ _ (be_run (len (snd p)) (a + 4) s ltac:(lia) Hl)).
  rewrite s32_small by lia.
  rewrite (bind_step _ _ _ _ _ (prop_cells_run par nm o p a s Hs Hp Hval)).
  rewrite (bind_step _ _ _ _ _ Hrun). rewrite Z.quot_div_nonneg by lia. f_equal. lia.
Qed.

(** The properties of a node. *)
Lemma props_run props : forall n a par nm o ca cs last acc s,
  at_state s -> Forall prop_ok props -> bytes_at m a (flat_map flatten_prop props) ->
  scan_is o acc (extra s) ->
  let o' := fold_left step props o in
  exists s', loop (length props + n) a strings (Some (scan_node par nm (o_ac o) (o_sc o))) ca cs last s =
    loop n (a + len (flat_map flatten_prop props)) strings
      (Some (scan_node par nm (o_ac o') (o_sc o'))) ca cs last s' /\
    at_state s' /\ scan_is o' acc (extra s').
Proof.
  induction props as [|p props IH]; intros n a par nm o ca cs last acc s Hs Hok Hm Hsi o'.
  - exists s. cbn [flat_map length]. rewrite Z.add_0_r. done.
  - apply Forall_cons in Hok as [Hp Hok]. cbn [flat_map] in Hm. apply bytes_at_app in Hm as [Hm1 Hm2].
    cbn [length Nat.add].
    destruct (prop_turn (length props + n) a p par nm o ca cs last acc s Hs Hp Hm1 Hsi) as (s1 & E1 & Hs1 & Hsi1).
    destruct (IH n (a + len (flatten_prop p)) par nm (step o p) ca cs last acc s1 Hs1 Hok Hm2 Hsi1)
      as (s2 & E2 & Hs2 & Hsi2).
    exists s2. split; [|done]. rewrite E1, E2. cbn [flat_map]. rewrite len_app. by rewrite Z.add_assoc.
Qed.

(** ** The banks of a memory node *)
Fixpoint words_at (p : Z) (ws : list Z) : Prop :=
  match ws with
  | [] => True
  | w :: ws => 0 <= w < 2 ^ 32 /\ (forall s, at_state s -> be p s = Ret w s) /\ words_at (p + 4) ws
  end.

Lemma be_words_at l : forall p, bytes_at m p l -> Forall byte l -> words_at p (be_words l).
Proof.
  induction l as [l IH] using (induction_ltof1 _ (@length Z)). unfold ltof in IH. intros p Hm Hl.
  destruct l as [|b0 [|b1 [|b2 [|b3 l]]]]; try done. cbn [be_words words_at].
  change (b0 :: b1 :: b2 :: b3 :: l) with ([b0; b1; b2; b3] ++ l) in Hm.
  apply bytes_at_app in Hm as [Hw Hm].
  do 4 (apply Forall_cons in Hl as [? Hl]). split; [unfold byte in *; lia|].
  split; [|apply IH; [cbn; lia|done|done]].
  intros s Hs. apply be_bytes; [done..|by rewrite Hs].
Qed.

Lemma words_at_drop n : forall p ws, words_at p ws -> words_at (p + 4 * Z.of_nat n) (drop n ws).
Proof.
  induction n as [|n IH]; intros p ws Hw; [by rewrite Z.add_0_r|].
  destruct ws as [|w ws]; [done|]. destruct Hw as (_ & _ & Hw). cbn [drop].
  replace (p + 4 * Z.of_nat (S n)) with (p + 4 + 4 * Z.of_nat n) by lia. by apply IH.
Qed.

Lemma number_from_nonneg ws : forall p r, words_at p ws -> 0 <= r -> 0 <= number_from r ws.
Proof.
  induction ws as [|w ws IH]; intros p r Hw Hr; [done|]. destruct Hw as (Hw & _ & Hws).
  apply (IH (p + 4)); [done|lia].
Qed.

Lemma number_from_large ws : forall p r, words_at p ws -> 2 ^ 32 <= r -> 2 ^ 32 <= number_from r ws.
Proof.
  induction ws as [|w ws IH]; intros p r Hw Hr; [done|]. destruct Hw as (Hw & _ & Hws).
  apply (IH (p + 4)); [done|lia].
Qed.

Lemma words_at_take n : forall p ws, words_at p ws -> words_at p (take n ws).
Proof.
  induction n as [|n IH]; intros p ws Hw; [done|]. destruct ws as [|w ws]; [done|].
  destruct Hw as (? & ? & Hw). cbn [take words_at]. by split_and!; [lia..|done|apply IH].
Qed.

(** The loop on the cells computes the number, as long as it fits a word. *)
Lemma get_cells_run ws : forall p r s, at_state s -> words_at p ws -> 0 <= r ->
  number_from r ws < 2 ^ 32 ->
  get_cells shl32 (length ws) p r s = Ret (number_from r ws, p + 4 * Z.of_nat (length ws)) s.
Proof.
  induction ws as [|w ws IH]; intros p r s Hs Hw Hr Hn; cbn [length get_cells].
  - unfold ret. cbn. do 2 f_equal. lia.
  - destruct Hw as (Hw & Hbe & Hws). rewrite (bind_step _ _ _ _ _ (Hbe s Hs)).
    assert (r = 0) as ->.
    { destruct (decide (r = 0)); [done|].
      pose proof (number_from_large ws (p + 4) (r * 2 ^ 32 + w) Hws ltac:(lia)).
      unfold number_from in Hn. cbn in Hn. unfold number_from in H. lia. }
    rewrite shl32_0, u32_id by lia. cbn [Z.add]. change (number_from 0 (w :: ws)) with (number_from w ws) in *.
    rewrite IH by (done || lia). do 2 f_equal. lia.
Qed.

Lemma mem_banks_run nb : forall n nd par value ws s,
  parent nd = Some par -> at_state s -> words_at value ws ->
  let ac := Z.to_nat (address_cells par) in
  let sc := Z.to_nat (size_cells par) in
  (0 < ac + sc)%nat -> length ws = (nb * (ac + sc))%nat -> (nb <= n)%nat -> banks_fit nb ac sc ws ->
  let e := extra s in
  mem_banks shl32 self n nd value (value + 4 * Z.of_nat (length ws)) s =
  Ret tt (set_extra (mkScan (memory e) (reg_value e) (reg_len e) (banks self nb ac sc ws (mem_size e))) s).
Proof.
  induction nb as [|nb IH]; intros n nd par value ws s Hpar Hs Hw ac sc Hk Hl Hn Hfit e.
  - destruct ws; [|done]. unfold e. destruct s as [b [? ? ? ?]].
    destruct n; cbn [mem_banks length Z.of_nat]; rewrite Z.mul_0_r, Z.add_0_r, Z.sub_diag; done.
  - destruct n as [|n]; [lia|]. cbn [mem_banks]. destruct Hfit as [Hf Hfit].
    destruct (Z.ltb_spec 0 (value + 4 * Z.of_nat (length ws) - value)); [|lia]. rewrite Hpar.
    assert (Hac : length (take ac ws) = ac) by (rewrite length_take; lia).
    assert (Hsc : length (take sc (drop ac ws)) = sc) by (rewrite length_take, length_drop; lia).
    pose proof (words_at_take ac value ws Hw) as Hw1. pose proof (words_at_drop ac value ws Hw) as Hw2.
    pose proof (words_at_take sc _ _ Hw2) as Hw3. pose proof (words_at_drop sc _ _ Hw2) as Hw4.
    pose proof (number_from_nonneg _ _ 0 Hw1 ltac:(lia)) as Hb0.
    pose proof (number_from_nonneg _ _ 0 Hw3 ltac:(lia)) as Hs0. unfold number in *.
    pose proof (get_cells_run (take ac ws) value 0 s Hs Hw1 ltac:(lia) ltac:(lia)) as H1.
    pose proof (get_cells_run (take sc (drop ac ws)) (value + 4 * Z.of_nat ac) 0 s Hs Hw3 ltac:(lia) ltac:(lia)) as H2.
    rewrite Hac in H1. rewrite Hsc in H2.
    unfold fdt_get_address, fdt_get_size. fold ac sc.
    rewrite (bind_step _ _ _ _ _ H1), (bind_step _ _ _ _ _ H2). rewrite u32_id by lia.
    cbn [banks]. unfold number.
    set (base := number_from 0 (take ac ws)) in *. set (size := number_from 0 (take sc (drop ac ws))) in *.
    set (s1 := set_extra (mkScan (memory e) (reg_value e) (reg_len e)
      (if (base <=? self) && (self <=? base + size) then size else mem_size e)) s).
    rewrite (bind_step _ _ s tt s1).
    2:{ unfold s1, e. destruct s as [b [? ? ? ?]]. by destruct ((base <=? self) && _). }
    replace (value + 4 * Z.of_nat (length ws)) with
      (value + 4 * Z.of_nat ac + 4 * Z.of_nat sc + 4 * Z.of_nat (length (drop sc (drop ac ws)))).
    2:{ rewrite !length_drop. lia. }
    rewrite (IH n nd par) by (done || rewrite ?length_drop; lia || done).
    done.
Qed.

(** ** Nodes and trees *)
Definition par_is (po : option fdt_scan_node) (pc : option (Z * Z)) : Prop :=
  match po, pc with
  | None, None => True
  | Some p, Some (a, s) => address_cells p = a /\ size_cells p = s
  | _, _ => False
  end.
Definition pc_ac (pc : option (Z * Z)) : Z := match pc with Some (a, _) => a | None => 0 end.
Definition pc_sc (pc : option (Z * Z)) : Z := match pc with Some (_, s) => s | None => 0 end.

Lemma be_words_length n : forall l, length l = (4 * n)%nat -> length (be_words l) = n.
Proof.
  induction n as [|n IH]; intros l Hl; [by destruct l|].
  destruct l as [|b0 [|b1 [|b2 [|b3 l]]]]; cbn in Hl; try lia. cbn. f_equal. apply IH. lia.
Qed.

Lemma own_reg_bytes props : forall o, Forall prop_ok props -> Forall byte (o_reg o) ->
  Forall byte (o_reg (fold_left step props o)).
Proof.
  induction props as [|[off v] props IH]; intros o Hok Ho; [done|].
  apply Forall_cons in Hok as [Hp Hok]. cbn [fold_left]. apply IH; [done|]. cbn.
  case_bool_decide; [|done]. apply Hp.
Qed.

Lemma mem_done_run po pc nm o ac sc acc s :
  par_is po pc -> node_ok pc o -> at_state s -> scan_is o acc (extra s) -> Forall byte (o_reg o) ->
  exists s', mem_done shl32 self (scan_node po nm ac sc) s = Ret tt s' /\ at_state s' /\
    mem_size (extra s') = node_banks self (pc_ac pc) (pc_sc pc) o acc.
Proof.
  intros Hpar Hok Hs [Hmem Hrl Hrv Hsz] Hby. unfold mem_done, node_banks.
  rewrite (bind_step _ _ s s s) by done. rewrite Hmem.
  destruct (o_mem o) eqn:Ho; cbn [negb]; [|by exists s].
  specialize (Hok Ho). destruct pc as [[pac psc]|]; [|done]. destruct po as [p|]; [|done].
  destruct Hpar as [Hpa Hps]. cbn [pc_ac pc_sc]. destruct Hok as (Hk & [nb Hlen] & Hfit).
  set (k := (Z.to_nat pac + Z.to_nat psc)%nat) in *. set (ws := be_words (o_reg o)) in *.
  pose proof (be_words_length _ _ Hlen) as Hws. fold ws in Hws.
  assert (Hnb : (length ws / k)%nat = nb) by (rewrite Hws; apply Nat.div_mul; lia).
  rewrite Hnb in Hfit |- *.
  assert (Hrl' : reg_len (extra s) = 4 * Z.of_nat (length ws)) by (rewrite Hrl; unfold len; lia).
  rewrite Hrl'. replace (4 * Z.quot (4 * Z.of_nat (length ws)) 4) with (4 * Z.of_nat (length ws)).
  2:{ rewrite Z.mul_comm, (Z.mul_comm 4), Z.quot_mul by lia. lia. }
  eexists. split; [|split].
  - apply (mem_banks_run nb _ (scan_node (Some p) nm ac sc) p); rewrite ?Hpa, ?Hps; try done.
    + by apply be_words_at.
    + rewrite Hws. nia.
  - done.
  - cbn. by rewrite Hpa, Hps, Hsz.
Qed.

(** Before the first child, or at the end of a node without children, [done]
    is called; the loop goes on as after it. *)
Lemma done_first n lex node ca cs tag s s1 :
  at_state s -> at_state s1 -> be lex s = Ret tag s -> be lex s1 = Ret tag s1 ->
  tag = FDT_BEGIN_NODE \/ tag = FDT_END_NODE -> mem_done shl32 self node s = Ret tt s1 ->
  loop (S n) lex strings (Some node) ca cs false s = loop (S n) lex strings (Some node) ca cs true s1.
Proof.
  intros _ _ H1 H2 Htag Hd. cbn [scan_loop].
  rewrite (bind_step _ _ _ _ _ H1), (bind_step _ _ _ _ _ H2).
  destruct Htag as [-> | ->]; cbn [FDT_BEGIN_NODE FDT_END_NODE FDT_NOP FDT_PROP Z.eqb Pos.eqb];
    rewrite (bind_step (call_done cb false (Some node)) _ s tt s1 Hd);
    by rewrite (bind_step (call_done cb true (Some node)) _ s1 tt s1 eq_refl).
Qed.

Lemma flatten_length name props cs : len (flatten (Node name props cs)) =
  4 + len (pad (name ++ [0])) + len (flat_map flatten_prop props) + len (flat_map flatten cs) + 4.
Proof. cbn [flatten]. rewrite !len_app. change (len (big_endian _)) with 4. lia. Qed.

(** A node, from after its name. *)
Definition frame_runs (t : dtree) : Prop := forall n po pc ac sc a acc s,
  tree_ok str m strings fuel_str pc ac sc t -> par_is po pc -> bytes_at m a (flatten t) -> at_state s ->
  scan_is (mkOwn ac sc false []) acc (extra s) -> (weight t <= n)%nat ->
  match t with Node name props cs =>
    let o := node_own ac sc props in
    exists s', loop n (a + 4 + len (pad (name ++ [0]))) strings (Some (scan_node po (a + 4) ac sc)) 2 1 false s =
      Ret (a + len (flatten t), Some (scan_node po (a + 4) (o_ac o) (o_sc o))) s' /\ at_state s' /\
      mem_size (extra s') = visit str self t (pc_ac pc) (pc_sc pc) ac sc acc
  end.

(** The start of a child: its header is read and its contents scanned. *)
Lemma begin_turn n node a ca cs name props k acc pc s s1 :
  frame_runs (Node name props k) -> par_is node pc ->
  tree_ok str m strings fuel_str pc ca cs (Node name props k) ->
  bytes_at m a (flatten (Node name props k)) -> at_state s -> at_state s1 -> mem_size (extra s1) = acc ->
  (weight (Node name props k) <= n)%nat ->
  forall last, call_done cb last node s = Ret tt s1 ->
  let o := node_own ca cs props in
  exists s', loop (S n) a strings node ca cs last s =
    loop n (a + len (flatten (Node name props k))) strings node (o_ac o) (o_sc o) true s' /\ at_state s' /\
    mem_size (extra s') = visit str self (Node name props k) (pc_ac pc) (pc_sc pc) ca cs acc.
Proof.
  intros Hframe Hpar Hok Hm Hs Hs1 Hacc Hn last Hd o.
  set (s2 := set_extra (mkScan false 0 0 (mem_size (extra s1))) s1).
  assert (Hsi : scan_is (mkOwn ca cs false []) acc (extra s2)) by (split; [done..|exact Hacc]).
  destruct (Hframe n node pc ca cs a acc s2 Hok Hpar Hm Hs1 Hsi Hn) as (s3 & Hrun & Hs3 & Hsz).
  exists s3. split; [|done].
  cbn [flatten] in Hm. apply bytes_at_app in Hm as [Htag Hm]. apply bytes_at_app in Hm as [Hname%bytes_at_pad _].
  change (Z.of_nat (length (big_endian _))) with 4 in Hname. rewrite <- Hs in Htag.
  cbn [scan_loop]. rewrite (bind_step _ _ _ _ _ (be_run FDT_BEGIN_NODE a s ltac:(done) Htag)).
  cbn [FDT_BEGIN_NODE FDT_NOP FDT_PROP Z.eqb Pos.eqb]. rewrite (bind_step _ _ _ _ _ Hd).
  rewrite (bind_step _ _ s1 tt s2) by done.
  inversion Hok as [? ? ? ? ? ? Hnm Hfs _ _ _]; subst.
  rewrite (bind_step _ _ s2 (len name) s2).
  2:{ unfold strlen_at. change (blob s2) with (blob s1). rewrite Hs1. by rewrite (strlen_run _ name). }
  assert (Hlex : a + 4 * (2 + len name / 4) = a + 4 + len (pad (name ++ [0]))).
  { rewrite len_pad, len_app. change (len [0]) with 1. Z.div_mod_to_equations. lia. }
  rewrite Hlex, (bind_step _ _ _ _ _ Hrun). cbn [cb_close mem_cb]. by rewrite (bind_step _ _ s3 tt s3) by done.
Qed.

(** The children of a node, from the first or after [done] was called, to the
    end of the node. *)
Lemma forest_run cs : Forall frame_runs cs -> forall n nd b ca csz acc s,
  forest_ok str m strings fuel_str (address_cells nd, size_cells nd) ca csz cs ->
  bytes_at m b (flat_map flatten cs ++ big_endian FDT_END_NODE) -> at_state s ->
  mem_size (extra s) = acc -> (1 + list_sum (List.map weight cs) <= n)%nat ->
  exists s', loop n b strings (Some nd) ca csz true s =
    Ret (b + len (flat_map flatten cs) + 4, Some nd) s' /\ at_state s' /\
    mem_size (extra s') = visit_list str self cs (address_cells nd) (size_cells nd) ca csz acc.
Proof.
  induction 1 as [|c cs Hc _ IH]; intros n nd b ca csz acc s Hok Hm Hs Hacc Hn.
  - destruct n as [|n]; [cbn in Hn; lia|]. exists s. cbn [flat_map app] in Hm. rewrite <- Hs in Hm.
    split; [|done]. cbn [scan_loop]. rewrite (bind_step _ _ _ _ _ (be_run FDT_END_NODE b s ltac:(done) Hm)).
    cbn [FDT_END_NODE FDT_BEGIN_NODE FDT_NOP FDT_PROP Z.eqb Pos.eqb].
    rewrite (bind_step _ _ s tt s) by done. cbn [flat_map]. unfold ret. by rewrite Z.add_0_r.
  - destruct n as [|n]; [cbn in Hn; lia|]. inversion Hok as [|? ? ? name props k ? Hc1 Hcs]; subst.
    cbn [flat_map] in Hm. rewrite <- app_assoc in Hm. apply bytes_at_app in Hm as [Hm1 Hm2].
    change (list_sum (List.map weight (Node name props k :: cs)))
      with (weight (Node name props k) + list_sum (List.map weight cs))%nat in Hn.
    assert (Hw : (2 <= weight (Node name props k))%nat) by (cbn [weight]; lia).
    destruct (begin_turn n (Some nd) b ca csz name props k (mem_size (extra s))
      (Some (address_cells nd, size_cells nd)) s s Hc (conj eq_refl eq_refl) Hc1 Hm1 Hs Hs eq_refl
      ltac:(lia) true eq_refl) as (s1 & E1 & Hs1 & Hz1).
    destruct (IH n nd (b + len (flatten (Node name props k))) _ _ _ s1 Hcs Hm2 Hs1 eq_refl)
      as (s2 & E2 & Hs2 & Hz2); [lia|].
    exists s2. rewrite E1, E2. cbn [flat_map]. rewrite len_app. split; [|split; [done|]].
    + do 2 f_equal. lia.
    + rewrite Hz2, Hz1. done.
Qed.

Lemma frames t : frame_runs t.
Proof.
  induction t as [name props cs Hcs] using dtree_all.
  intros n po pc ac sc a acc s Hok Hpar Hm Hs Hsi Hn o.
  inversion Hok as [? ? ? ? ? ? Hnm Hfs Hprops Hnode Hforest]; subst. fold o in Hnode, Hforest.
  cbn [flatten] in Hm. apply bytes_at_app in Hm as [_ Hm]. apply bytes_at_app in Hm as [_ Hm].
  apply bytes_at_app in Hm as [Hm1 Hm2]. change (Z.of_nat (length (big_endian _))) with 4 in Hm1, Hm2.
  fold (len (pad (name ++ [0]))) in Hm1, Hm2. set (b := a + 4 + len (pad (name ++ [0]))) in *.
  cbn [weight] in Hn. replace n with (length props + (n - length props))%nat by lia.
  set (n' := (n - length props)%nat). assert (Hn' : (2 + list_sum (List.map weight cs) <= n')%nat) by lia.
  destruct (props_run props n' b po (a + 4) (mkOwn ac sc false []) 2 1 false acc s Hs Hprops Hm1 Hsi)
    as (s1 & E1 & Hs1 & Hsi1).
  cbn [o_ac o_sc] in E1. rewrite E1. fold (node_own ac sc props) in E1, Hsi1 |- *. fold o in E1, Hsi1 |- *.
  set (nd := scan_node po (a + 4) (o_ac o) (o_sc o)) in *.
  destruct (mem_done_run po pc (a + 4) o (o_ac o) (o_sc o) acc s1) as (s2 & Hd & Hs2 & Hz2); [done..| |].
  { apply own_reg_bytes; [done|]. constructor. }
  destruct n' as [|n']; [lia|].
  fold (len (flat_map flatten_prop props)) in Hm2. set (b' := b + len (flat_map flatten_prop props)) in *.
  assert (Htag : exists tag, (tag = FDT_BEGIN_NODE \/ tag = FDT_END_NODE) /\
    forall s, at_state s -> be b' s = Ret tag s).
  { destruct cs as [|[n1 p1 c1] cs].
    - exists FDT_END_NODE. split; [by right|]. intros s' Hs'. apply be_run; [done|]. by rewrite Hs'.
    - exists FDT_BEGIN_NODE. split; [by left|]. intros s' Hs'. apply be_run; [done|]. rewrite Hs'.
      cbn [flat_map flatten] in Hm2. rewrite <- !app_assoc in Hm2. by apply bytes_at_app in Hm2 as [? _]. }
  destruct Htag as (tag & Htag & Hbe).
  rewrite (done_first n' b' nd 2 1 tag s1 s2 Hs1 Hs2 (Hbe s1 Hs1) (Hbe s2 Hs2) Htag Hd).
  destruct (forest_run cs Hcs (S n') nd b' 2 1 (mem_size (extra s2)) s2) as (s3 & E3 & Hs3 & Hz3);
    [done..|lia|].
  exists s3. rewrite E3. split; [|split; [done|]].
  - rewrite flatten_length. do 2 f_equal. unfold b', b. lia.
  - rewrite Hz3, Hz2. rewrite visit_node. done.
Qed.
End Run.

(** ** The size of memory *)

(** A blob at [fdt]: the header's fields, the structure block with the tree
    [t], and the end tag; the names of properties are in the strings block. *)
Record blob_ok (str : Z -> list Z) (m : bmem) (fuel_str : nat) (fdt off_struct off_strings version : Z)
    (t : dtree) : Prop := {
  bk_magic : bytes_at m (h_magic fdt) (big_endian FDT_MAGIC);
  bk_version : bytes_at m (h_last_comp_version fdt) (big_endian version);
  bk_version_known : 0 <= version <= FDT_VERSION;
  bk_struct : bytes_at m (h_off_dt_struct fdt) (big_endian off_struct);
  bk_struct_range : 0 <= off_struct < 2 ^ 32;
  bk_strings : bytes_at m (h_off_dt_strings fdt) (big_endian off_strings);
  bk_strings_range : 0 <= off_strings < 2 ^ 32;
  bk_tree : bytes_at m (fdt + off_struct) (flatten t ++ big_endian FDT_END);
  bk_tree_ok : tree_ok str m (fdt + off_strings) fuel_str None 2 1 t
}.

(** C38. The scan of the device tree is a fold over the tree: for a blob that
    holds the layout of a well-formed tree, [query_mem_size] returns, changes
    nothing in the blob, and its result is what the walk over the tree itself
    finds, the size of the last bank of a memory node that holds the kernel,
    each bank read with the cell counts of the node's parent; numbers of
    several cells are right whatever the compiler makes of a shift by 32, as
    long as 0 shifted is 0 and they fit a word. *)
Theorem query_mem_size_correct str self m fuel_str shl32 fdt off_struct off_strings version t n s :
  shl32 0 = 0 -> blob_ok str m fuel_str fdt off_struct off_strings version t ->
  blob s = m -> (weight t + 2 <= n)%nat ->
  exists s', query_mem_size fuel_str shl32 self n fdt s = Ret (visit str self t 0 0 2 1 0) s' /\ blob s' = m.
Proof.
  intros Hshl [Hmagic Hver Hvk Hst Hstr Hso Hsor Htree Hok] Hs Hn.
  set (e := extra s). set (s0 := set_extra (mkScan (memory e) (reg_value e) (reg_len e) 0) s).
  assert (Hs0 : blob s0 = m) by done. rewrite <- Hs0 in Hmagic, Hver, Hst, Hso.
  unfold query_mem_size. rewrite (bind_step _ _ s tt s0) by done.
  destruct t as [name props cs]. apply bytes_at_app in Htree as [Htree Hend].
  destruct n as [|[|n]]; [lia|lia|].
  destruct (begin_turn str self m (fdt + off_strings) fuel_str shl32 (S n) None (fdt + off_struct) 2 1
    name props cs 0 None s0 s0) with (last := false) as (s1 & E1 & Hs1 & Hz1).
  - by apply frames.
  - done.
  - done.
  - done.
  - done.
  - done.
  - done.
  - lia.
  - done.
  - fold (len (flatten (Node name props cs))) in Hend.
    exists s1. split; [|done]. rewrite (bind_step _ _ s0 tt s1).
    { munfold. by rewrite Hz1. }
    unfold fdt_scan.
    rewrite (bind_step _ _ _ _ _ (be_run FDT_MAGIC _ _ ltac:(done) Hmagic)).
    rewrite (bind_step _ _ _ _ _ (be_run version _ _ ltac:(change FDT_VERSION with 17 in Hvk; lia) Hver)).
    rewrite Z.eqb_refl. destruct (Z.ltb_spec FDT_VERSION version); [lia|]. cbn [negb orb].
    rewrite (bind_step _ _ _ _ _ (be_run off_strings _ _ Hsor Hso)).
    rewrite (bind_step _ _ _ _ _ (be_run off_struct _ _ Hstr Hst)).
    unfold fdt_scan_helper.
    rewrite (bind_step _ _ s0 (fdt + off_struct + len (flatten (Node name props cs)), None) s1); [done|].
    rewrite E1. cbn [scan_loop]. rewrite <- Hs1 in Hend.
    rewrite (bind_step _ _ _ _ _ (be_run FDT_END _ _ ltac:(done) Hend)). done.
Qed.

(** ** A blob *)
Definition ex_strings : list (list Z) :=
  [STR_ADDRESS_CELLS; STR_SIZE_CELLS; STR_DEVICE_TYPE; STR_REG].
Definition ex_str (off : Z) : list Z :=
  if off =? 0 then STR_ADDRESS_CELLS else if off =? 15 then STR_SIZE_CELLS
  else if off =? 27 then STR_DEVICE_TYPE else STR_REG.
Definition ex_memory (base size : Z) : dtree :=
  Node [109; 101; 109] [(27, STR_MEMORY ++ [0]);
    (39, big_endian 0 ++ big_endian base ++ big_endian 0 ++ big_endian size)] [].
Definition ex_tree : dtree :=
  Node [] [(0, big_endian 2); (15, big_endian 2)]
    [Node [99; 112; 117] [(0, big_endian 1)] []; ex_memory 0x80000000 0x4000000].
Definition ex_blob : list Z :=
  big_endian FDT_MAGIC ++ big_endian 400 ++ big_endian 40 ++ big_endian 300 ++ big_endian 0 ++
  big_endian 17 ++ big_endian 16 ++ replicate 12 0 ++
  flatten ex_tree ++ big_endian FDT_END.
Definition ex_mem : bmem := fun a =>
  if a <? 300 then nth (Z.to_nat a) ex_blob 0
  else nth (Z.to_nat (a - 300)) (flat_map (fun s => s ++ [0]) ex_strings) 0.

Example ex_tree_size : visit ex_str 0x80200000 ex_tree 0 0 2 1 0 = 0x4000000.
Proof. reflexivity. Qed.

(** The same buses [b] with a memory node below, after a sibling that sets its
    own address cells and alone: the counts of the sibling are inherited. *)
Lemma cells_leak :
  let b := Node [98] [] [Node [109] [(27, STR_MEMORY ++ [0]);
    (39, big_endian 0 ++ big_endian 0x80000000 ++ big_endian 0x4000000)] []] in
  visit ex_str 0x80200000 (Node [] [] [b]) 0 0 2 1 0 = 0x4000000 /\
  visit ex_str 0x80200000 (Node [] [] [Node [97] [(0, big_endian 1); (15, big_endian 0)] []; b]) 0 0 2 1 0 <> 0x4000000.
Proof. by vm_compute. Qed.

Lemma ex_prop off v : 0 <= off < 2 ^ 32 -> Forall byte v -> len v < 2 ^ 31 ->
  Forall (fun c => c <> 0) (ex_str off) -> bytes_at ex_mem (0 + 300 + off) (ex_str off ++ [0]) ->
  (off = 0 \/ off = 15 -> length v = 4%nat /\ hd 0 (be_words v) < 2 ^ 31) ->
  (off = 27 -> v = STR_MEMORY ++ [0]) ->
  prop_ok ex_str ex_mem 300 (off, v).
Proof.
  intros H1 H2 H3 H4 H5 H6 H7. split; try done.
  - cbn. intros Hc. apply H6. unfold ex_str in Hc.
    destruct (Z.eqb_spec off 0); [by left|]. destruct (Z.eqb_spec off 15); [by right|].
    destruct (off =? 27); by destruct Hc.
  - cbn. intros Ht. exists STR_MEMORY. split; [|repeat constructor; discriminate].
    apply H7. unfold ex_str in Ht. destruct (off =? 0); [done|]. destruct (off =? 15); [done|].
    by destruct (Z.eqb_spec off 27).
Qed.

Ltac ex_prop_tac := apply ex_prop; [by vm_compute | vm_compute; repeat constructor; discriminate
  | by vm_compute | vm_compute; repeat constructor; discriminate | by vm_compute
  | try (intros _; by vm_compute); (intros [?|?]; discriminate) | done].

Lemma ex_tree_ok : tree_ok ex_str ex_mem 300 10 None 2 1 ex_tree.
Proof.
  constructor; [repeat constructor; discriminate|cbn; lia| |done|].
  - repeat (apply Forall_cons; split); [..|constructor]; ex_prop_tac.
  - constructor; [|constructor; [|constructor]].
    + constructor; [repeat constructor; discriminate|cbn; lia| |done|constructor].
      repeat (apply Forall_cons; split); [..|constructor]; ex_prop_tac.
    + constructor; [repeat constructor; discriminate|cbn; lia| | |constructor].
      * repeat (apply Forall_cons; split); [..|constructor]; ex_prop_tac.
      * intros _. vm_compute. split; [lia|]. split; [by exists 1%nat|done].
Qed.

Lemma query_mem_size_correct_witness :
  blob_ok ex_str ex_mem 10 0 40 300 16 ex_tree /\
  exists s', query_mem_size 10 (fun _ => 0) 0x80200000 40 0 (mkFdt ex_mem (mkScan false 0 0 7)) = Ret 0x4000000 s' /\
    blob s' = ex_mem.
Proof.
  assert (Hok : blob_ok ex_str ex_mem 10 0 40 300 16 ex_tree).
  { split; [by vm_compute..|exact ex_tree_ok]. }
  split; [exact Hok|].
  apply (query_mem_size_correct ex_str 0x80200000 ex_mem 10 (fun _ => 0) 0 40 300 16 ex_tree 40
    (mkFdt ex_mem (mkScan false 0 0 7))); [reflexivity|exact Hok|reflexivity|cbn; lia].
Defined.
