(* ===== verification/Fs.v ===== *)
(** * The file system (fs/fs.c, fs/ide.c, user/include/fs.h, fs/serv.h)

    The file server's memory is its block cache: words at the addresses
    [DISKMAP + n * BY2BLK] of mapped pages.  A [struct File *] is the address
    of the structure in the cache.  An access outside a mapped cache page is a
    [Fault]; [syscall_mem_alloc] takes one of [pages_left] pages or fails. *)
From S2P Require Import Prelude Mmu UserMem.

Definition BY2BLK : Z := BY2PG.
Definition BIT2BLK : Z := BY2BLK * 8.
Definition MAXNAMELEN : Z := 128.
Definition NDIRECT : Z := 10.
Definition NINDIRECT : Z := BY2BLK / 4.
Definition BY2FILE : Z := 256.
Definition FILE2BLK : Z := BY2BLK / BY2FILE.
Definition FTYPE_REG : Z := 0.
Definition FTYPE_DIR : Z := 1.
Definition FS_MAGIC : Z := 0x68286097.
Definition BY2SECT : Z := 512.
Definition SECT2BLK : Z := BY2BLK / BY2SECT.
Definition DISKMAP : Z := 0x10000000.
Definition DISKMAX : Z := 0x40000000.

(** Offsets of the fields of [struct File] and [struct Super]. *)
Definition f_name (f : Z) : Z := f.
Definition f_size (f : Z) : Z := f + 128.
Definition f_type (f : Z) : Z := f + 132.
Definition f_direct (f i : Z) : Z := f + 136 + 4 * i.
Definition f_indirect (f : Z) : Z := f + 176.
Definition f_dir (f : Z) : Z := f + 180.
Definition s_magic (s : Z) : Z := s.
Definition s_nblocks (s : Z) : Z := s + 4.
Definition s_root (s : Z) : Z := s + 8.

(** [super] and [bitmap] are the pointers, 0 before they are set; [disk] is
    the disk's contents, a word per word offset from its start. *)
Record fsst : Type := mkFs {
  fmem : Z -> Z;
  fmapped : Z -> bool;
  super : Z;
  bitmap : Z;
  disk : Z -> Z;
  pages_left : Z
}.
Definition set_fmem (v : Z -> Z) (s : fsst) : fsst :=
  mkFs v (fmapped s) (super s) (bitmap s) (disk s) (pages_left s).
Definition set_fmapped (v : Z -> bool) (s : fsst) : fsst :=
  mkFs (fmem s) v (super s) (bitmap s) (disk s) (pages_left s).
Definition set_super (v : Z) (s : fsst) : fsst :=
  mkFs (fmem s) (fmapped s) v (bitmap s) (disk s) (pages_left s).
Definition set_bitmap (v : Z) (s : fsst) : fsst :=
  mkFs (fmem s) (fmapped s) (super s) v (disk s) (pages_left s).
Definition set_disk (v : Z -> Z) (s : fsst) : fsst :=
  mkFs (fmem s) (fmapped s) (super s) (bitmap s) v (pages_left s).
Definition set_pages_left (v : Z) (s : fsst) : fsst :=
  mkFs (fmem s) (fmapped s) (super s) (bitmap s) (disk s) v.

Abbreviation FM := (M fsst).

(** ** Memory of the server; pages are indexed by [VPN] *)
Definition lw (a : Z) : FM Z := fun s => if fmapped s (VPN a) then Ret (fmem s a) s else Fault.
Definition sw (a v : Z) : FM unit := fun s =>
  if fmapped s (VPN a) then Ret tt (set_fmem (upd (fmem s) a v) s) else Fault.
Definition lb (a : Z) : FM Z :=
  let! w := lw (a - a mod 4) in ret (word_byte w (a mod 4)).
Definition sb (a c : Z) : FM unit :=
  let! w := lw (a - a mod 4) in
  modify (fun s => set_fmem (blit a 1 (fun _ => c) (fmem s)) s).

(** The two system calls, on one page of the caller. *)
Definition syscall_mem_alloc (va : Z) : FM Z := fun s =>
  if pages_left s <=? 0 then Ret (- E_NO_MEM) s
  else Ret 0 (set_pages_left (pages_left s - 1)
    (set_fmem (fun x => if VPN x =? VPN va then 0 else fmem s x)
      (set_fmapped (upd (fmapped s) (VPN va) true) s))).
Definition syscall_mem_unmap (va : Z) : FM unit :=
  modify (fun s => set_pages_left (pages_left s + (if fmapped s (VPN va) then 1 else 0))
    (set_fmapped (upd (fmapped s) (VPN va) false) s)).

(** ** fs/ide.c: whole blocks between the disk and a mapped page; the device
    transfers the block at the sector asked for. *)
Definition ide_page (dst : Z) : FM unit := fun s =>
  if fmapped s (VPN dst) then Ret tt s else Fault.
Definition ide_read (secno dst nsecs : Z) : FM unit :=
  c_assert (nsecs mod SECT2BLK =? 0) ;!
  forM ((fun k => k * SECT2BLK) <$> seqZ 0 (nsecs / SECT2BLK)) (fun i =>
    let a := dst + i * BY2SECT in
    ide_page a ;!
    modify (fun s => set_fmem (fun x =>
      if (a <=? x) && (x <? a + BY2PG) then disk s ((secno + i) * BY2SECT + (x - a))
      else fmem s x) s)).
Definition ide_write (secno src nsecs : Z) : FM unit :=
  c_assert (nsecs mod SECT2BLK =? 0) ;!
  forM ((fun k => k * SECT2BLK) <$> seqZ 0 (nsecs / SECT2BLK)) (fun i =>
    let a := src + i * BY2SECT in
    let d := (secno + i) * BY2SECT in
    ide_page a ;!
    modify (fun s => set_disk (fun x =>
      if (d <=? x) && (x <? d + BY2PG) then fmem s (a + (x - d)) else disk s x) s)).

(** ** Blocks *)
Definition diskaddr (blockno : Z) : Z := u32 (DISKMAP + blockno * BY2BLK).
Definition va_is_mapped (va : Z) : FM bool := gets (fun s => fmapped s (VPN va)).
Definition va_is_dirty (va : Z) : bool := true.

(** 0 when the block is not in the cache. *)
Definition block_is_mapped (blockno : Z) : FM Z :=
  let va := diskaddr blockno in
  let! m := va_is_mapped va in
  ret (if m then va else 0).

Definition block_is_dirty (blockno : Z) : FM bool :=
  let va := diskaddr blockno in
  let! m := va_is_mapped va in
  ret (m && va_is_dirty va).

Definition dirty_block (blockno : Z) : FM Z :=
  let va := diskaddr blockno in
  let! m := va_is_mapped va in
  if negb m then ret (- E_NOT_FOUND) else ret 0.

Definition write_block (blockno : Z) : FM unit :=
  let! p := block_is_mapped blockno in
  (if p =? 0 then panic "write unmapped block" else ret tt) ;!
  ide_write (u32 (blockno * SECT2BLK)) (diskaddr blockno) SECT2BLK.

(** The bit of a block in the bitmap; [1 << (blockno % 32)] as a word. *)
Definition bit_word (b blockno : Z) : Z := b + 4 * (blockno / 32).
Definition bit_of (blockno : Z) : Z := Z.shiftl 1 (blockno mod 32).

Definition block_is_free (blockno : Z) : FM bool :=
  let! s := get in
  if super s =? 0 then ret false
  else
    let! n := lw (s_nblocks (super s)) in
    if n <=? blockno then ret false
    else
      let! w := lw (bit_word (bitmap s) blockno) in
      ret (truthy (Z.land w (bit_of blockno))).

(** [read_block(blockno, blk, isnew)]: the address and [isnew]. *)
Definition read_block (blockno : Z) : FM (Z * Z) :=
  let! s := get in
  (if negb (super s =? 0) then
     let! n := lw (s_nblocks (super s)) in
     if n <=? blockno then panic "reading non-existent block" else ret tt
   else ret tt) ;!
  (if negb (bitmap s =? 0) then
     let! free := block_is_free blockno in
     if (free : bool) then panic "reading free block" else ret tt
   else ret tt) ;!
  let va := diskaddr blockno in
  let! p := block_is_mapped blockno in
  if negb (p =? 0) then ret (va, 0)
  else
    let! _ := syscall_mem_alloc va in
    ide_read (u32 (blockno * SECT2BLK)) va SECT2BLK ;!
    ret (va, 1).

Definition map_block (blockno : Z) : FM Z :=
  let! p := block_is_mapped blockno in
  if negb (p =? 0) then ret 0 else syscall_mem_alloc (diskaddr blockno).

Definition unmap_block (blockno : Z) : FM unit :=
  let! va := block_is_mapped blockno in
  if va =? 0 then ret tt
  else
    let! free := block_is_free blockno in
    let! dirty := (if negb free then block_is_dirty blockno else ret false) in
    (if (dirty : bool) then write_block blockno else ret tt) ;!
    syscall_mem_unmap va ;!
    let! p := block_is_mapped blockno in
    c_assert (p =? 0).

Definition free_block (blockno : Z) : FM unit :=
  let! s := get in
  if blockno =? 0 then ret tt
  else
    let! n := lw (s_nblocks (super s)) in
    if n <=? blockno then ret tt
    else
      let! w := lw (bit_word (bitmap s) blockno) in
      sw (bit_word (bitmap s) blockno) (Z.lor w (bit_of blockno)).

(** The loop of [alloc_block_num] from [blockno] on. *)
Fixpoint alloc_from (n : nat) (blockno : Z) : FM Z :=
  let! s := get in
  let! nblocks := lw (s_nblocks (super s)) in
  if blockno <? nblocks then
    match n with
    | O => fault
    | S n =>
        let! w := lw (bit_word (bitmap s) blockno) in
        if truthy (Z.land w (bit_of blockno)) then
          sw (bit_word (bitmap s) blockno) (Z.land w (not32 (bit_of blockno))) ;!
          write_block (blockno / BIT2BLK + 2) ;!
          ret blockno
        else alloc_from n (blockno + 1)
    end
  else ret (- E_NO_DISK).

Definition alloc_block_num : FM Z :=
  let! s := get in
  let! nblocks := lw (s_nblocks (super s)) in
  alloc_from (Z.to_nat nblocks) 3.

Definition alloc_block : FM Z :=
  let! bno := alloc_block_num in
  if bno <? 0 then ret bno
  else
    let! r := map_block bno in
    if r <? 0 then free_block bno ;! ret r else ret bno.

(** ** Mounting *)
Definition read_super : FM unit :=
  let! blk := read_block 1 in
  modify (set_super (fst blk)) ;!
  let! m := lw (s_magic (fst blk)) in
  (if negb (m =? FS_MAGIC) then panic "bad file system magic number" else ret tt) ;!
  let! n := lw (s_nblocks (fst blk)) in
  (if DISKMAX / BY2BLK <? n then panic "file system is too large" else ret tt).

Definition assert_used (blockno : Z) : FM unit :=
  let! free := block_is_free blockno in c_assert (negb free).

Definition read_bitmap : FM unit :=
  let! s := get in
  let! nblocks := lw (s_nblocks (super s)) in
  let nbitmap := nblocks / BIT2BLK + 1 in
  forM (seqZ 0 nbitmap) (fun i => let! _ := read_block (i + 2) in ret tt) ;!
  modify (set_bitmap (diskaddr 2)) ;!
  assert_used 0 ;!
  assert_used 1 ;!
  forM (seqZ 0 nbitmap) (fun i => assert_used (i + 2)).

(** [memcpy] of a whole cached block. *)
Definition copy_block (dst src : Z) : FM unit :=
  let! _ := lw src in
  let! _ := lw dst in
  modify (fun s => set_fmem (fun x =>
    if (dst <=? x) && (x <? dst + BY2PG) then fmem s (x - dst + src) else fmem s x) s).

(** "OOPS!\n" *)
Definition oops : list Z := [79; 79; 80; 83; 33; 10].

(** [strcpy(a, str)] and [strcmp(a, str) == 0] for a string [str] of the
    caller. *)
Fixpoint put_string (a : Z) (str : list Z) : FM unit :=
  match str with
  | [] => sb a 0
  | c :: str => sb a c ;! put_string (a + 1) str
  end.
Fixpoint string_is (a : Z) (str : list Z) : FM bool :=
  let! c := lb a in
  match str with
  | [] => ret (c =? 0)
  | x :: str => if c =? x then string_is (a + 1) str else ret false
  end.

Definition check_write_block : FM unit :=
  modify (set_super 0) ;!
  let! _ := read_block 0 in
  copy_block (diskaddr 0) (diskaddr 1) ;!
  put_string (diskaddr 1) oops ;!
  write_block 1 ;!
  let! p := block_is_mapped 1 in
  c_assert (negb (p =? 0)) ;!
  syscall_mem_unmap (diskaddr 1) ;!
  let! p := block_is_mapped 1 in
  c_assert (p =? 0) ;!
  let! _ := read_block 1 in
  let! same := string_is (diskaddr 1) oops in
  c_assert same ;!
  copy_block (diskaddr 1) (diskaddr 0) ;!
  write_block 1 ;!
  modify (set_super (diskaddr 1)).

Definition fs_init : FM unit := read_super ;! check_write_block ;! read_bitmap.

(** ** Block pointers of a file *)

(** [file_block_walk]: the address of the pointer. *)
Definition file_block_walk (f filebno : Z) (alloc : bool) : FM (result Z) :=
  if filebno <? NDIRECT then ret (OK (f_direct f filebno))
  else if filebno <? NINDIRECT then
    let! ind := lw (f_indirect f) in
    let! r :=
      (if ind =? 0 then
         if negb alloc then ret (- E_NOT_FOUND)
         else
           let! r := alloc_block in
           if r <? 0 then ret r else sw (f_indirect f) r ;! ret 0
       else ret 0) in
    if r <? 0 then ret (Err r)
    else
      let! ind := lw (f_indirect f) in
      let! blk := read_block ind in
      ret (OK (fst blk + 4 * filebno))
  else ret (Err (- E_INVAL)).

Definition file_map_block (f filebno : Z) (alloc : bool) : FM (result Z) :=
  try! ptr := file_block_walk f filebno alloc in
  let! b := lw ptr in
  if b =? 0 then
    if negb alloc then ret (Err (- E_NOT_FOUND))
    else
      let! r := alloc_block in
      if r <? 0 then ret (Err r)
      else
        sw ptr r ;!
        let! b := lw ptr in
        ret (OK b)
  else ret (OK b).

Definition file_clear_block (f filebno : Z) : FM Z :=
  tryz! ptr := file_block_walk f filebno false in
  let! b := lw ptr in
  (if negb (b =? 0) then free_block b ;! sw ptr 0 else ret tt) ;!
  ret 0.

Definition file_get_block (f filebno : Z) : FM (result Z) :=
  try! diskbno := file_map_block f filebno true in
  let! blk := read_block diskbno in
  ret (OK (fst blk)).

Definition file_dirty (f offset : Z) : FM Z :=
  tryz! diskbno := file_map_block f (offset / BY2BLK) false in
  dirty_block diskbno.

(** ** Directories *)

(** The slots of a directory block. *)
Definition files_of (blk : Z) : list Z := (fun j => blk + j * BY2FILE) <$> seqZ 0 FILE2BLK.

(** The inner loop of [dir_lookup]: the slot whose name is [name]. *)
Fixpoint find_name (fs : list Z) (name : list Z) : FM (option Z) :=
  match fs with
  | [] => ret None
  | f :: fs =>
      let! same := string_is (f_name f) name in
      if same then ret (Some f) else find_name fs name
  end.

Fixpoint dir_lookup_blocks (dir : Z) (bnos : list Z) (name : list Z) : FM (result Z) :=
  match bnos with
  | [] => ret (Err (- E_NOT_FOUND))
  | i :: bnos =>
      try! blk := file_get_block dir i in
      let! found := find_name (files_of blk) name in
      match found with
      | Some f => sw (f_dir f) dir ;! ret (OK f)
      | None => dir_lookup_blocks dir bnos name
      end
  end.

Definition dir_lookup (dir : Z) (name : list Z) : FM (result Z) :=
  let! size := lw (f_size dir) in
  dir_lookup_blocks dir (seqZ 0 (size / BY2BLK)) name.

(** The inner loop of [dir_alloc_file]: the first slot without a name. *)
Fixpoint find_slot (fs : list Z) : FM (option Z) :=
  match fs with
  | [] => ret None
  | f :: fs =>
      let! c := lb (f_name f) in
      if c =? 0 then ret (Some f) else find_slot fs
  end.

Fixpoint dir_alloc_blocks (dir : Z) (bnos : list Z) : FM (result (option Z)) :=
  match bnos with
  | [] => ret (OK None)
  | i :: bnos =>
      try! blk := file_get_block dir i in
      let! found := find_slot (files_of blk) in
      match found with
      | Some f => ret (OK (Some f))
      | None => dir_alloc_blocks dir bnos
      end
  end.

Definition dir_alloc_file (dir : Z) : FM (result Z) :=
  let! size := lw (f_size dir) in
  let nblock := size / BY2BLK in
  try! found := dir_alloc_blocks dir (seqZ 0 nblock) in
  match found with
  | Some f => ret (OK f)
  | None =>
      let! size := lw (f_size dir) in
      sw (f_size dir) (u32 (size + BY2BLK)) ;!
      try! blk := file_get_block dir nblock in
      ret (OK blk)
  end.

(** ** Paths: a path is the bytes of the string before its terminator *)
Definition SLASH : Z := 47.

Fixpoint skip_slash (p : list Z) : list Z :=
  match p with
  | c :: p' => if c =? SLASH then skip_slash p' else p
  | [] => []
  end.

(** The loop of [walk_path] that finds the end of an element. *)
Fixpoint path_elem (path : list Z) : list Z * list Z :=
  match path with
  | [] => ([], [])
  | c :: rest =>
      if c =? SLASH then ([], path)
      else let '(name, rest) := path_elem rest in (c :: name, rest)
  end.

(** What [walk_path] leaves: its return value, [*pdir], [*pfile], and
    [lastelem], empty unless it is written. *)
Record walk : Type := mkWalk { w_r : Z; w_pdir : Z; w_pfile : Z; w_lastelem : list Z }.

Fixpoint walk_from (n : nat) (dir file : Z) (path : list Z) : FM walk :=
  match path, n with
  | [], _ => ret (mkWalk 0 dir file [])
  | _ :: _, O => fault
  | _ :: _, S n =>
      let dir := file in
      let '(name, path) := path_elem path in
      if MAXNAMELEN <=? Z.of_nat (length name) then ret (mkWalk (- E_BAD_PATH) 0 0 [])
      else
        let path := skip_slash path in
        let! type := lw (f_type dir) in
        if negb (type =? FTYPE_DIR) then ret (mkWalk (- E_NOT_FOUND) 0 0 [])
        else
          let! r := dir_lookup dir name in
          match r with
          | OK file => walk_from n dir file path
          | Err e =>
              match path with
              | [] => if e =? - E_NOT_FOUND then ret (mkWalk e dir 0 name)
                      else ret (mkWalk e 0 0 [])
              | _ => ret (mkWalk e 0 0 [])
              end
          end
  end.

Definition walk_path (path : list Z) : FM walk :=
  let! s := get in
  let path := skip_slash path in
  walk_from (length path) 0 (s_root (super s)) path.

(** ** The operations the server calls *)
Definition file_open (path : list Z) : FM (result Z) :=
  let! w := walk_path path in
  ret (if w_r w =? 0 then OK (w_pfile w) else Err (w_r w)).

Definition file_create (path : list Z) : FM (result Z) :=
  let! w := walk_path path in
  if w_r w =? 0 then ret (Err (- E_FILE_EXISTS))
  else if negb (w_r w =? - E_NOT_FOUND) || (w_pdir w =? 0) then ret (Err (w_r w))
  else
    let! a := dir_alloc_file (w_pdir w) in
    match a with
    | Err _ => ret (Err (w_r w))
    | OK f => put_string (f_name f) (w_lastelem w) ;! ret (OK f)
    end.

Definition clear_blocks (f first last : Z) : FM unit :=
  forM (seqZ first (last - first)) (fun bno => let! _ := file_clear_block f bno in ret tt).

Definition file_truncate (f newsize : Z) : FM unit :=
  let! size := lw (f_size f) in
  let old_nblocks := size / BY2BLK + 1 in
  let new_nblocks := if newsize =? 0 then 0 else newsize / BY2BLK + 1 in
  (if new_nblocks <=? NDIRECT then
     clear_blocks f new_nblocks old_nblocks ;!
     let! ind := lw (f_indirect f) in
     (if truthy ind then free_block ind ;! sw (f_indirect f) 0 else ret tt)
   else clear_blocks f new_nblocks old_nblocks) ;!
  sw (f_size f) newsize.

Definition file_flush (f : Z) : FM unit :=
  let! size := lw (f_size f) in
  forM (seqZ 0 (size / BY2BLK + 1)) (fun bno =>
    let! r := file_map_block f bno false in
    match r with
    | Err _ => ret tt
    | OK diskno =>
        let! dirty := block_is_dirty diskno in
        if (dirty : bool) then write_block diskno else ret tt
    end).

Definition flush_dir (f : Z) : FM unit :=
  let! dir := lw (f_dir f) in
  if truthy dir then file_flush dir else ret tt.

Definition file_set_size (f newsize : Z) : FM Z :=
  let! size := lw (f_size f) in
  (if newsize <? size then file_truncate f newsize else ret tt) ;!
  sw (f_size f) newsize ;!
  flush_dir f ;!
  ret 0.

Definition fs_sync : FM unit :=
  let! s := get in
  let! n := lw (s_nblocks (super s)) in
  forM (seqZ 0 n) (fun i =>
    let! dirty := block_is_dirty i in
    if (dirty : bool) then write_block i else ret tt).

Definition file_close (f : Z) : FM unit := file_flush f ;! flush_dir f.

Definition file_remove (path : list Z) : FM Z :=
  let! w := walk_path path in
  if w_r w <? 0 then ret (w_r w)
  else
    let f := w_pfile w in
    file_truncate f 0 ;!
    sb (f_name f) 0 ;!
    file_flush f ;!
    flush_dir f ;!
    ret 0.
