(* ===== verification/FsFrame.v ===== *)
(** * What every file operation keeps

    A relation between states is kept by a computation when it holds between
    the state it starts in and the one it returns in.  Every operation of
    fs/fs.c that runs after mounting keeps the mapped pages mapped and the
    super block and bitmap pointers where they are; the lemmas are hints, so
    an operation's proof is a walk over its code. *)
From S2P Require Import Prelude Mmu UserMem Fs.

Definition keeps {A} (m : FM A) : Prop := forall s a s', m s = Ret a s' ->
  super s' = super s /\ bitmap s' = bitmap s /\
  (forall p, fmapped s p = true -> fmapped s' p = true).

Create HintDb fs_keeps discriminated.

Lemma keeps_ret {A} (a : A) : keeps (ret a).
Proof. intros s b s' [= -> ->]. done. Qed.

Lemma keeps_bind {A B} (m : FM A) (k : A -> FM B) :
  keeps m -> (forall a, keeps (k a)) -> keeps (bind m k).
Proof.
  intros Hm Hk s b s'' (a & s' & H1 & H2)%bind_inv.
  destruct (Hm _ _ _ H1) as (Hs & Hb & Hp), (Hk _ _ _ _ H2) as (Hs' & Hb' & Hp').
  split; [congruence|]. split; [congruence|]. intros p Hmp. by apply Hp', Hp.
Qed.

Lemma keeps_forM {A} (l : list A) (body : A -> FM unit) :
  (forall x, keeps (body x)) -> keeps (forM l body).
Proof.
  intros H. induction l as [|x l IH]; cbn [forM]; [apply keeps_ret|].
  apply keeps_bind; [apply H|done].
Qed.

Lemma keeps_try {A B} (m : FM (result A)) (k : A -> FM (result B)) :
  keeps m -> (forall a, keeps (k a)) -> keeps (try_res m k).
Proof. intros Hm Hk. apply keeps_bind; [done|]. intros [a|e]; [apply Hk|apply keeps_ret]. Qed.

Lemma keeps_try_z {A} (m : FM (result A)) (k : A -> FM Z) :
  keeps m -> (forall a, keeps (k a)) -> keeps (try_z m k).
Proof. intros Hm Hk. apply keeps_bind; [done|]. intros [a|e]; [apply Hk|apply keeps_ret]. Qed.

Lemma keeps_get : keeps get.
Proof. by intros s a s' [= -> ->]. Qed.
Lemma keeps_gets {A} (f : fsst -> A) : keeps (gets f).
Proof. by intros s a s' [= <- <-]. Qed.
Lemma keeps_panic {A} msg : keeps (panic (A := A) msg).
Proof. by intros s a s' [=]. Qed.
Lemma keeps_fault {A} : keeps (fault (A := A)).
Proof. by intros s a s' [=]. Qed.
Lemma keeps_fmem (f : fsst -> Z -> Z) : keeps (modify (fun s => set_fmem (f s) s)).
Proof. by intros s a s' [= <- <-]. Qed.
Lemma keeps_disk (f : fsst -> Z -> Z) : keeps (modify (fun s => set_disk (f s) s)).
Proof. by intros s a s' [= <- <-]. Qed.
Lemma keeps_lw a : keeps (lw a).
Proof. unfold lw. intros s b s' H. destruct (fmapped s (VPN a)); [|done]. by injection H as <- <-. Qed.
Lemma keeps_sw a v : keeps (sw a v).
Proof. unfold sw. intros s b s' H. destruct (fmapped s (VPN a)); [|done]. by injection H as <- <-. Qed.
Lemma keeps_ide_page a : keeps (ide_page a).
Proof. unfold ide_page. intros s b s' H. destruct (fmapped s (VPN a)); [|done]. by injection H as <- <-. Qed.

Lemma keeps_mem_alloc va : keeps (syscall_mem_alloc va).
Proof.
  unfold syscall_mem_alloc. intros s b s' H.
  destruct (pages_left s <=? 0); injection H as <- <-; [done|]. do 2 (split; [done|]).
  intros p Hp. cbn [fmapped set_pages_left set_fmem set_fmapped].
  rewrite upd_case. by case_decide.
Qed.

#[export] Hint Resolve keeps_ret keeps_bind keeps_forM keeps_try keeps_try_z keeps_get keeps_gets
  keeps_panic keeps_fault keeps_fmem keeps_disk keeps_lw keeps_sw keeps_ide_page
  keeps_mem_alloc : fs_keeps.

(** One step through the code of an operation: a branch, a bind, a call. *)
Ltac keeps_step :=
  match goal with
  | |- forall _, _ => intros ?
  | |- keeps (if ?b then _ else _) => destruct b
  | |- keeps (match ?x with _ => _ end) => destruct x
  | |- keeps (let '(_, _) := ?x in _) => destruct x
  | |- keeps (bind _ _) => apply keeps_bind
  | |- keeps (try_res _ _) => apply keeps_try
  | |- keeps (try_z _ _) => apply keeps_try_z
  | |- keeps (forM _ _) => apply keeps_forM
  | |- keeps _ => solve [auto 2 with fs_keeps]
  | |- keeps _ => progress cbn beta zeta
  end.
Ltac keeps_walk := repeat keeps_step.

(** ** Blocks *)
Lemma keeps_assert b : keeps (c_assert b).
Proof. unfold c_assert. keeps_walk. Qed.
#[export] Hint Resolve keeps_assert : fs_keeps.

Lemma keeps_lb a : keeps (lb a).
Proof. unfold lb. keeps_walk. Qed.
Lemma keeps_sb a c : keeps (sb a c).
Proof. unfold sb. keeps_walk. Qed.
Lemma keeps_ide_read secno dst n : keeps (ide_read secno dst n).
Proof. unfold ide_read. keeps_walk. Qed.
Lemma keeps_ide_write secno dst n : keeps (ide_write secno dst n).
Proof. unfold ide_write. keeps_walk. Qed.
Lemma keeps_block_is_mapped b : keeps (block_is_mapped b).
Proof. unfold block_is_mapped, va_is_mapped. keeps_walk. Qed.
Lemma keeps_block_is_dirty b : keeps (block_is_dirty b).
Proof. unfold block_is_dirty, va_is_mapped. keeps_walk. Qed.
#[export] Hint Resolve keeps_lb keeps_sb keeps_ide_read keeps_ide_write keeps_block_is_mapped
  keeps_block_is_dirty : fs_keeps.

Lemma keeps_dirty_block b : keeps (dirty_block b).
Proof. unfold dirty_block, va_is_mapped. keeps_walk. Qed.
Lemma keeps_write_block b : keeps (write_block b).
Proof. unfold write_block. keeps_walk. Qed.
Lemma keeps_block_is_free b : keeps (block_is_free b).
Proof. unfold block_is_free. keeps_walk. Qed.
Lemma keeps_map_block b : keeps (map_block b).
Proof. unfold map_block. keeps_walk. Qed.
Lemma keeps_free_block b : keeps (free_block b).
Proof. unfold free_block. keeps_walk. Qed.
#[export] Hint Resolve keeps_dirty_block keeps_write_block keeps_block_is_free keeps_map_block
  keeps_free_block : fs_keeps.

Lemma keeps_read_block b : keeps (read_block b).
Proof. unfold read_block. keeps_walk. Qed.

Lemma keeps_alloc_from n b : keeps (alloc_from n b).
Proof. revert b. induction n as [|n IH]; intros b; cbn [alloc_from]; keeps_walk. Qed.
#[export] Hint Resolve keeps_read_block keeps_alloc_from : fs_keeps.

Lemma keeps_alloc_block : keeps alloc_block.
Proof. unfold alloc_block, alloc_block_num. keeps_walk. Qed.
#[export] Hint Resolve keeps_alloc_block : fs_keeps.

(** ** Files *)
Lemma keeps_file_block_walk f b alloc : keeps (file_block_walk f b alloc).
Proof. unfold file_block_walk. keeps_walk. Qed.
#[export] Hint Resolve keeps_file_block_walk : fs_keeps.

Lemma keeps_file_map_block f b alloc : keeps (file_map_block f b alloc).
Proof. unfold file_map_block. keeps_walk. Qed.
Lemma keeps_file_clear_block f b : keeps (file_clear_block f b).
Proof. unfold file_clear_block. keeps_walk. Qed.
#[export] Hint Resolve keeps_file_map_block keeps_file_clear_block : fs_keeps.

Lemma keeps_file_get_block f b : keeps (file_get_block f b).
Proof. unfold file_get_block. keeps_walk. Qed.
Lemma keeps_file_dirty f o : keeps (file_dirty f o).
Proof. unfold file_dirty. keeps_walk. Qed.
#[export] Hint Resolve keeps_file_get_block keeps_file_dirty : fs_keeps.

Lemma keeps_string_is a str : keeps (string_is a str).
Proof. revert a. induction str as [|x str IH]; intros a; cbn [string_is]; keeps_walk. Qed.
#[export] Hint Resolve keeps_string_is : fs_keeps.

Lemma keeps_find_name l name : keeps (find_name l name).
Proof. induction l as [|f l IH]; cbn [find_name]; keeps_walk. Qed.
#[export] Hint Resolve keeps_find_name : fs_keeps.

Lemma keeps_dir_lookup dir name : keeps (dir_lookup dir name).
Proof.
  assert (H : forall l, keeps (dir_lookup_blocks dir l name)).
  { induction l as [|i l IH]; cbn [dir_lookup_blocks]; keeps_walk. }
  unfold dir_lookup. keeps_walk.
Qed.
#[export] Hint Resolve keeps_dir_lookup : fs_keeps.

Lemma keeps_walk_path path : keeps (walk_path path).
Proof.
  assert (H : forall n dir file p, keeps (walk_from n dir file p)).
  { induction n as [|n IH]; intros dir file p; cbn [walk_from]; keeps_walk. }
  unfold walk_path. keeps_walk.
Qed.
#[export] Hint Resolve keeps_walk_path : fs_keeps.

Lemma keeps_clear_blocks f a b : keeps (clear_blocks f a b).
Proof. unfold clear_blocks. keeps_walk. Qed.
#[export] Hint Resolve keeps_clear_blocks : fs_keeps.

Lemma keeps_file_truncate f n : keeps (file_truncate f n).
Proof. unfold file_truncate. keeps_walk. Qed.
Lemma keeps_file_flush f : keeps (file_flush f).
Proof. unfold file_flush. keeps_walk. Qed.
#[export] Hint Resolve keeps_file_truncate keeps_file_flush : fs_keeps.

Lemma keeps_flush_dir f : keeps (flush_dir f).
Proof. unfold flush_dir. keeps_walk. Qed.
#[export] Hint Resolve keeps_flush_dir : fs_keeps.

Lemma keeps_file_open p : keeps (file_open p).
Proof. unfold file_open. keeps_walk. Qed.
Lemma keeps_file_set_size f n : keeps (file_set_size f n).
Proof. unfold file_set_size. keeps_walk. Qed.
Lemma keeps_file_close f : keeps (file_close f).
Proof. unfold file_close. keeps_walk. Qed.
Lemma keeps_file_remove p : keeps (file_remove p).
Proof. unfold file_remove. keeps_walk. Qed.
Lemma keeps_fs_sync : keeps fs_sync.
Proof. unfold fs_sync. keeps_walk. Qed.
#[export] Hint Resolve keeps_file_open keeps_file_set_size keeps_file_close keeps_file_remove
  keeps_fs_sync : fs_keeps.
