(* ===== verification/FsBlocks.v ===== *)
(** * The block layer of the file server: cache, bitmap and disk

    What each operation of fs/fs.c on blocks does to the state of a mounted
    file system, and the properties of the bitmap allocator, of writing back
    and of reading again. *)
From S2P Require Import Prelude Mmu UserMem Fs.

(** ** The state of a mounted file system *)

(** The largest number of blocks [read_super] admits. *)
Definition MAXBLOCKS : Z := DISKMAX / BY2BLK.

(** Block [b] is in the cache. *)
Definition cached (s : fsst) (b : Z) : bool := fmapped s (VPN (diskaddr b)).

Definition nblocks (s : fsst) : Z := fmem s (s_nblocks (super s)).

(** Bit [b] of the bitmap: the block is free. *)
Definition free_bit (s : fsst) (b : Z) : bool :=
  Z.testbit (fmem s (bit_word (bitmap s) b)) (b mod 32).

(** The block that holds bit [b]. *)
Definition bitmap_block (b : Z) : Z := b / BIT2BLK + 2.

(** What [fs_init] sets up: the super block and the bitmap are cached. *)
Record mounted (s : fsst) : Prop := {
  m_super : super s = diskaddr 1;
  m_bitmap : bitmap s = diskaddr 2;
  m_nblocks : 0 <= nblocks s <= MAXBLOCKS;
  m_super_cached : cached s 1 = true;
  m_bitmap_cached b : 0 <= b < nblocks s -> cached s (bitmap_block b) = true
}.

(** The words of block [b] on the disk are those in the cache. *)
Definition synced (s : fsst) (b : Z) : Prop :=
  forall o, 0 <= o < BY2BLK -> disk s (b * BY2BLK + o) = fmem s (diskaddr b + o).

(** ** Addresses *)
Lemma diskaddr_eq b : 0 <= b < 2 ^ 19 -> diskaddr b = 0x10000000 + b * 4096.
Proof. intros H. unfold diskaddr, DISKMAP, BY2BLK, BY2PG. rewrite u32_id; lia. Qed.

Lemma VPN_in_block b a : 0 <= b < 2 ^ 19 -> diskaddr b <= a < diskaddr b + BY2BLK ->
  VPN a = VPN (diskaddr b).
Proof.
  intros Hb. rewrite diskaddr_eq by done. unfold BY2BLK, BY2PG. intros Ha.
  rewrite !VPN_div by lia. Z.div_mod_to_equations. lia.
Qed.

Lemma diskaddr_inj b c : 0 <= b < 2 ^ 19 -> 0 <= c < 2 ^ 19 ->
  VPN (diskaddr b) = VPN (diskaddr c) -> b = c.
Proof.
  intros Hb Hc. rewrite !diskaddr_eq by done. rewrite !VPN_div by lia.
  intros H. Z.div_mod_to_equations. lia.
Qed.

Lemma diskaddr_pos b : 0 <= b < 2 ^ 19 -> (diskaddr b =? 0) = false.
Proof. intros H. rewrite diskaddr_eq by done. lia. Qed.

Lemma MAXBLOCKS_eq : MAXBLOCKS = 2 ^ 18.
Proof. done. Qed.

Lemma bit_word_in_block b : 0 <= b < 2 ^ 18 ->
  diskaddr (bitmap_block b) <= bit_word (diskaddr 2) b < diskaddr (bitmap_block b) + BY2BLK.
Proof.
  intros Hb. unfold bit_word, bitmap_block. change BIT2BLK with 32768.
  assert (0 <= b / 32768 < 8) by (Z.div_mod_to_equations; lia).
  rewrite !diskaddr_eq by lia. unfold BY2BLK, BY2PG. Z.div_mod_to_equations. lia.
Qed.

Lemma bitmap_block_range b : 0 <= b < 2 ^ 18 -> 2 <= bitmap_block b < 10.
Proof. intros H. unfold bitmap_block. change BIT2BLK with 32768. Z.div_mod_to_equations. lia. Qed.

(** ** Runs of the primitives *)
Lemma lw_run a s : fmapped s (VPN a) = true -> lw a s = Ret (fmem s a) s.
Proof. intros H. unfold lw. by rewrite H. Qed.

Lemma sw_run a v s : fmapped s (VPN a) = true ->
  sw a v s = Ret tt (set_fmem (upd (fmem s) a v) s).
Proof. intros H. unfold sw. by rewrite H. Qed.

Lemma block_is_mapped_run b s :
  block_is_mapped b s = Ret (if cached s b then diskaddr b else 0) s.
Proof. reflexivity. Qed.

(** The disk after block [b] is written from the cache. *)
Definition disk_written (s : fsst) (b : Z) : Z -> Z := fun x =>
  if (b * BY2BLK <=? x) && (x <? b * BY2BLK + BY2BLK)
  then fmem s (diskaddr b + (x - b * BY2BLK)) else disk s x.

Lemma disk_written_in s b o : 0 <= o < BY2BLK ->
  disk_written s b (b * BY2BLK + o) = fmem s (diskaddr b + o).
Proof.
  intros H. unfold disk_written. rewrite (proj2 (Z.leb_le _ _)), (proj2 (Z.ltb_lt _ _)) by lia.
  cbn. f_equal. lia.
Qed.

Lemma disk_written_other s b c o : c <> b -> 0 <= o < BY2BLK ->
  disk_written s b (c * BY2BLK + o) = disk s (c * BY2BLK + o).
Proof.
  unfold disk_written, BY2BLK, BY2PG. intros Hc Ho.
  destruct (Z.leb_spec (b * 4096) (c * 4096 + o)); [|done].
  destruct (Z.ltb_spec (c * 4096 + o) (b * 4096 + 4096)); [|done]. exfalso. lia.
Qed.

Lemma write_block_run b s : 0 <= b < 2 ^ 19 -> cached s b = true ->
  write_block b s = Ret tt (set_disk (disk_written s b) s).
Proof.
  intros Hb Hc. unfold write_block. rewrite (bind_step _ _ _ _ _ (block_is_mapped_run b s)), Hc.
  rewrite diskaddr_pos by done. rewrite (bind_step _ _ s tt s) by done.
  unfold ide_write. change (SECT2BLK mod SECT2BLK =? 0) with true.
  change (seqZ 0 (SECT2BLK / SECT2BLK)) with [0]. cbn [fmap list_fmap forM c_assert].
  rewrite (bind_step _ _ s tt s) by done. cbn. unfold bind at 1, bind at 1, ide_page.
  replace (diskaddr b + 0 * SECT2BLK * BY2SECT) with (diskaddr b) by lia.
  unfold cached in Hc. rewrite Hc. cbn. unfold bind, ret. f_equal. f_equal.
  unfold disk_written. change SECT2BLK with 8. change BY2SECT with 512. change BY2BLK with BY2PG.
  rewrite u32_id by lia. unfold BY2PG.
  replace ((b * 8 + 0 * 8) * 512) with (b * 4096) by lia. done.
Qed.

(** ** The bitmap *)
Section Mounted.
Context (s : fsst) (Hm : mounted s).

Lemma super_word : fmapped s (VPN (s_nblocks (super s))) = true.
Proof.
  rewrite (m_super _ Hm). unfold s_nblocks. rewrite (VPN_in_block 1); [apply Hm|lia|].
  rewrite diskaddr_eq by lia. unfold BY2BLK, BY2PG. lia.
Qed.

Lemma nblocks_run : lw (s_nblocks (super s)) s = Ret (nblocks s) s.
Proof. apply lw_run, super_word. Qed.

Lemma bit_word_mapped b : 0 <= b < nblocks s -> fmapped s (VPN (bit_word (bitmap s) b)) = true.
Proof.
  intros Hb. pose proof (m_nblocks _ Hm) as Hn. rewrite MAXBLOCKS_eq in Hn.
  rewrite (m_bitmap _ Hm), (VPN_in_block (bitmap_block b)).
  - by apply (m_bitmap_cached _ Hm).
  - pose proof (bitmap_block_range b ltac:(lia)). lia.
  - apply bit_word_in_block. lia.
Qed.

Lemma bit_word_run b : 0 <= b < nblocks s ->
  lw (bit_word (bitmap s) b) s = Ret (fmem s (bit_word (bitmap s) b)) s.
Proof. intros H. by apply lw_run, bit_word_mapped. Qed.

Lemma free_bit_test b : 0 <= b ->
  truthy (Z.land (fmem s (bit_word (bitmap s) b)) (bit_of b)) = free_bit s b.
Proof.
  intros Hb. unfold bit_of, free_bit. pose proof (Z.mod_pos_bound b 32 ltac:(lia)).
  by rewrite shiftl_1_pow, truthy_land_bit by lia.
Qed.

Lemma block_is_free_run b : 0 <= b ->
  block_is_free b s = Ret (if nblocks s <=? b then false else free_bit s b) s.
Proof.
  intros Hb. unfold block_is_free. rewrite (bind_step _ _ s s s) by done.
  rewrite (m_super _ Hm), diskaddr_pos by lia. rewrite <- (m_super _ Hm).
  rewrite (bind_step _ _ _ _ _ nblocks_run).
  destruct (Z.leb_spec (nblocks s) b); [done|].
  rewrite (bind_step _ _ _ _ _ (bit_word_run b ltac:(lia))). unfold ret.
  by rewrite free_bit_test.
Qed.

(** The states after bit [b] is cleared, and after it is set. *)
Definition bit_cleared (b : Z) : fsst :=
  set_fmem (upd (fmem s) (bit_word (bitmap s) b)
    (Z.land (fmem s (bit_word (bitmap s) b)) (not32 (bit_of b)))) s.
Definition bit_set (b : Z) : fsst :=
  set_fmem (upd (fmem s) (bit_word (bitmap s) b)
    (Z.lor (fmem s (bit_word (bitmap s) b)) (bit_of b))) s.
Definition allocated (b : Z) : fsst :=
  set_disk (disk_written (bit_cleared b) (bitmap_block b)) (bit_cleared b).

Lemma bit_word_same b c : bit_word (bitmap s) b = bit_word (bitmap s) c <-> b / 32 = c / 32.
Proof. unfold bit_word. lia. Qed.

Lemma free_bit_cleared b c : 0 <= b -> 0 <= c ->
  free_bit (bit_cleared b) c = negb (b =? c) && free_bit s c.
Proof.
  intros Hb Hc. unfold free_bit, bit_cleared. cbn [fmem bitmap set_fmem]. rewrite upd_case.
  pose proof (Z.mod_pos_bound b 32 ltac:(lia)). pose proof (Z.mod_pos_bound c 32 ltac:(lia)).
  case_decide as Hd.
  - unfold bit_of. rewrite <- Hd, shiftl_1_pow, testbit_clear_bit by lia.
    apply bit_word_same in Hd. by rewrite same_word_bit.
  - destruct (Z.eqb_spec b c); [by subst|done].
Qed.

Lemma free_bit_set b c : 0 <= b -> 0 <= c ->
  free_bit (bit_set b) c = (b =? c) || free_bit s c.
Proof.
  intros Hb Hc. unfold free_bit, bit_set. cbn [fmem bitmap set_fmem]. rewrite upd_case.
  pose proof (Z.mod_pos_bound b 32 ltac:(lia)). case_decide as Hd.
  - unfold bit_of. rewrite <- Hd, shiftl_1_pow, testbit_set_bit by lia.
    apply bit_word_same in Hd. by rewrite same_word_bit.
  - destruct (Z.eqb_spec b c); [by subst|done].
Qed.

(** A write to a word of the bitmap keeps the file system mounted. *)
Lemma mounted_bitmap_write b v : 0 <= b < nblocks s ->
  mounted (set_fmem (upd (fmem s) (bit_word (bitmap s) b) v) s) /\
  nblocks (set_fmem (upd (fmem s) (bit_word (bitmap s) b) v) s) = nblocks s.
Proof.
  intros Hb. pose proof (m_nblocks _ Hm) as Hn. rewrite MAXBLOCKS_eq in Hn.
  assert (Heq : nblocks (set_fmem (upd (fmem s) (bit_word (bitmap s) b) v) s) = nblocks s).
  { unfold nblocks. cbn [fmem super set_fmem]. rewrite upd_other; [done|].
    pose proof (bit_word_in_block b ltac:(lia)) as Hw.
    pose proof (bitmap_block_range b ltac:(lia)) as Hr.
    rewrite <- (m_bitmap _ Hm) in Hw. rewrite (m_super _ Hm). unfold s_nblocks.
    rewrite diskaddr_eq in Hw by lia. rewrite (diskaddr_eq 1) by lia. lia. }
  split; [|done]. split; try rewrite Heq; apply Hm.
Qed.

Lemma alloc_from_run n b : 0 <= b -> nblocks s <= b + Z.of_nat n ->
  (exists j, b <= j < nblocks s /\ free_bit s j = true /\
     (forall x, b <= x < j -> free_bit s x = false) /\
     alloc_from n b s = Ret j (allocated j)) \/
  ((forall x, b <= x < nblocks s -> free_bit s x = false) /\
   alloc_from n b s = Ret (- E_NO_DISK) s).
Proof.
  revert b. induction n as [|n IH]; intros b Hb Hle; cbn [alloc_from];
    rewrite (bind_step _ _ s s s) by done; rewrite (bind_step _ _ _ _ _ nblocks_run).
  { destruct (Z.ltb_spec b (nblocks s)); [lia|]. right. split; [lia|done]. }
  destruct (Z.ltb_spec b (nblocks s)) as [Hlt|]; [|right; split; [lia|done]].
  rewrite (bind_step _ _ _ _ _ (bit_word_run b ltac:(lia))), free_bit_test by done.
  destruct (free_bit s b) eqn:Hf.
  - left. exists b. do 3 (split; [done || lia|]).
    rewrite (bind_step _ _ _ _ _ (sw_run _ _ _ (bit_word_mapped b ltac:(lia)))).
    pose proof (m_nblocks _ Hm) as Hn. rewrite MAXBLOCKS_eq in Hn.
    pose proof (bitmap_block_range b ltac:(lia)).
    rewrite (bind_step _ _ _ tt (allocated b)); [done|].
    apply write_block_run; [fold (bitmap_block b); lia|].
    apply (m_bitmap_cached _ Hm). lia.
  - destruct (IH (b + 1) ltac:(lia) ltac:(lia)) as [(j & Hj & Hfj & Hlow & Hrun)|[Hall Hrun]].
    + left. exists j. do 2 (split; [done || lia|]). split; [|done]. intros x Hx.
      destruct (decide (x = b)) as [->|]; [done|]. apply Hlow. lia.
    + right. split; [|done]. intros x Hx.
      destruct (decide (x = b)) as [->|]; [done|]. apply Hall. lia.
Qed.

Lemma alloc_block_num_run :
  (exists j, 3 <= j < nblocks s /\ free_bit s j = true /\
     (forall x, 3 <= x < j -> free_bit s x = false) /\
     alloc_block_num s = Ret j (allocated j)) \/
  ((forall x, 3 <= x < nblocks s -> free_bit s x = false) /\
   alloc_block_num s = Ret (- E_NO_DISK) s).
Proof.
  unfold alloc_block_num. rewrite (bind_step _ _ s s s) by done.
  rewrite (bind_step _ _ _ _ _ nblocks_run). pose proof (m_nblocks _ Hm).
  apply alloc_from_run; lia.
Qed.

Lemma allocated_mounted j : 0 <= j < nblocks s ->
  mounted (allocated j) /\ nblocks (allocated j) = nblocks s.
Proof.
  intros Hj. destruct (mounted_bitmap_write j
    (Z.land (fmem s (bit_word (bitmap s) j)) (not32 (bit_of j))) Hj) as [HM Hn].
  split; [|done]. split; apply HM.
Qed.

Lemma free_block_run b : 0 <= b ->
  free_block b s = Ret tt (if (b =? 0) || (nblocks s <=? b) then s else bit_set b).
Proof.
  intros Hb. unfold free_block. rewrite (bind_step _ _ s s s) by done.
  destruct (Z.eqb_spec b 0); [done|]. rewrite (bind_step _ _ _ _ _ nblocks_run).
  destruct (Z.leb_spec (nblocks s) b); [done|]. cbn [orb].
  rewrite (bind_step _ _ _ _ _ (bit_word_run b ltac:(lia))).
  rewrite (sw_run _ _ _ (bit_word_mapped b ltac:(lia))). done.
Qed.
End Mounted.

(** ** Reading and syncing *)

(** The state after block [b] is read from the disk into a fresh page. *)
Definition loaded (s : fsst) (b : Z) : fsst :=
  let va := diskaddr b in
  mkFs (fun x => if (va <=? x) && (x <? va + BY2BLK) then disk s (b * BY2BLK + (x - va))
                 else if VPN x =? VPN va then 0 else fmem s x)
    (upd (fmapped s) (VPN va) true) (super s) (bitmap s) (disk s) (pages_left s - 1).

Lemma loaded_content s b o : 0 <= o < BY2BLK ->
  fmem (loaded s b) (diskaddr b + o) = disk s (b * BY2BLK + o).
Proof.
  intros H. unfold loaded. cbn [fmem].
  rewrite (proj2 (Z.leb_le _ _)), (proj2 (Z.ltb_lt _ _)) by lia. cbn. f_equal. lia.
Qed.

Lemma ide_read_run b s : 0 <= b < 2 ^ 19 -> cached s b = true ->
  ide_read (u32 (b * SECT2BLK)) (diskaddr b) SECT2BLK s =
  Ret tt (set_fmem (fun x => if (diskaddr b <=? x) && (x <? diskaddr b + BY2BLK)
                             then disk s (b * BY2BLK + (x - diskaddr b)) else fmem s x) s).
Proof.
  intros Hb Hc. unfold ide_read. change (SECT2BLK mod SECT2BLK =? 0) with true.
  change (seqZ 0 (SECT2BLK / SECT2BLK)) with [0]. cbn [fmap list_fmap forM c_assert].
  rewrite (bind_step _ _ s tt s) by done. cbn. unfold bind at 1, bind at 1, ide_page.
  replace (diskaddr b + 0 * SECT2BLK * BY2SECT) with (diskaddr b) by lia.
  unfold cached in Hc. rewrite Hc. cbn. unfold bind, ret. f_equal. f_equal.
  change SECT2BLK with 8. change BY2SECT with 512. change BY2BLK with BY2PG.
  rewrite u32_id by lia. unfold BY2PG.
  replace ((b * 8 + 0 * 8) * 512) with (b * 4096) by lia. done.
Qed.

(** [read_block] once its two checks pass. *)
Lemma read_block_load s b : 0 <= b < 2 ^ 18 ->
  (super s = 0 \/ fmapped s (VPN (s_nblocks (super s))) = true /\ b < nblocks s) ->
  (bitmap s = 0 \/ block_is_free b s = Ret false s) ->
  cached s b = true \/ 0 < pages_left s ->
  read_block b s = if cached s b then Ret (diskaddr b, 0) s
                   else Ret (diskaddr b, 1) (loaded s b).
Proof.
  intros Hb Hsup Hbm Hc. unfold read_block. rewrite (bind_step _ _ s s s) by done.
  rewrite (bind_step _ _ s tt s).
  2: { destruct (Z.eqb_spec (super s) 0); [done|]. destruct Hsup as [|[Hw Hlt]]; [done|].
    cbn [negb]. rewrite (bind_step _ _ _ _ _ (lw_run _ _ Hw)). fold (nblocks s).
    by destruct (Z.leb_spec (nblocks s) b); [lia|]. }
  rewrite (bind_step _ _ s tt s).
  2: { destruct (Z.eqb_spec (bitmap s) 0); [done|]. destruct Hbm as [|Hfree]; [done|].
    cbn [negb]. by rewrite (bind_step _ _ _ _ _ Hfree). }
  rewrite (bind_step _ _ _ _ _ (block_is_mapped_run b s)).
  destruct (cached s b) eqn:Hcb; [by rewrite diskaddr_pos by lia|].
  destruct Hc as [|Hp]; [done|]. cbn [Z.eqb negb].
  set (s1 := set_pages_left (pages_left s - 1)
    (set_fmem (fun x => if VPN x =? VPN (diskaddr b) then 0 else fmem s x)
      (set_fmapped (upd (fmapped s) (VPN (diskaddr b)) true) s))).
  rewrite (bind_step _ _ _ 0 s1).
  2: { unfold syscall_mem_alloc. by destruct (Z.leb_spec (pages_left s) 0); [lia|]. }
  rewrite (bind_step _ _ _ _ _ (ide_read_run b s1 ltac:(lia) ltac:(apply upd_same))). done.
Qed.

Lemma read_block_run s b : mounted s -> 0 <= b < nblocks s -> free_bit s b = false ->
  cached s b = true \/ 0 < pages_left s ->
  read_block b s = if cached s b then Ret (diskaddr b, 0) s
                   else Ret (diskaddr b, 1) (loaded s b).
Proof.
  intros Hm Hb Hf Hc. pose proof (m_nblocks _ Hm) as Hn. rewrite MAXBLOCKS_eq in Hn.
  apply read_block_load; [lia| | |done].
  - right. split; [by apply super_word|lia].
  - right. rewrite (block_is_free_run _ Hm) by lia.
    destruct (Z.leb_spec (nblocks s) b); [lia|]. by rewrite Hf.
Qed.

(** The body of [fs_sync] on a list of blocks. *)
Lemma sync_blocks_run l s : (forall b, b ∈ l -> 0 <= b < 2 ^ 18) ->
  exists d, forM l (fun i =>
      let! dirty := block_is_dirty i in
      if (dirty : bool) then write_block i else ret tt) s = Ret tt (set_disk d s) /\
    (forall b, b ∈ l -> cached s b = true -> synced (set_disk d s) b) /\
    (forall b o, 0 <= o < BY2BLK -> b ∉ l \/ cached s b = false ->
      d (b * BY2BLK + o) = disk s (b * BY2BLK + o)).
Proof.
  revert s. induction l as [|i l IH]; intros s Hl; cbn [forM].
  { exists (disk s). split; [by destruct s|]. split; [intros b Hb; by apply elem_of_nil in Hb|done]. }
  assert (Hi : 0 <= i < 2 ^ 19) by (specialize (Hl i ltac:(apply elem_of_cons; by left)); lia).
  assert (Htl : forall b, b ∈ l -> 0 <= b < 2 ^ 18) by (intros; apply Hl, elem_of_cons; by right).
  set (d1 := if cached s i then disk_written s i else disk s).
  assert (Hstep : (let! dirty := block_is_dirty i in
      if (dirty : bool) then write_block i else ret tt) s = Ret tt (set_disk d1 s)).
  { unfold block_is_dirty, va_is_mapped, bind at 1 2, gets, ret, va_is_dirty.
    fold (cached s i). rewrite andb_true_r. subst d1.
    destruct (cached s i) eqn:Hc; [by apply write_block_run|by destruct s]. }
  rewrite (bind_step _ _ _ _ _ Hstep).
  destruct (IH (set_disk d1 s) Htl) as (d & Hrun & Hsync & Hkeep).
  exists d. split; [by rewrite Hrun|]. split.
  - intros b Hb Hc. destruct (decide (b ∈ l)) as [Hin|Hnin].
    + intros o Ho. exact (Hsync b Hin Hc o Ho).
    + apply elem_of_cons in Hb as [->|]; [|done]. intros o Ho. cbn [disk set_disk fmem].
      rewrite (Hkeep i o Ho) by (by left). cbn [disk set_disk]. subst d1. rewrite Hc.
      by apply disk_written_in.
  - intros b o Ho Hb.
    assert (Hb' : b ∉ l \/ cached (set_disk d1 s) b = false).
    { destruct Hb as [Hb|]; [left; intros ?; apply Hb, elem_of_cons; by right|by right]. }
    rewrite (Hkeep b o Ho Hb'). cbn [disk set_disk]. subst d1.
    destruct (cached s i) eqn:Hc; [|done]. apply disk_written_other; [|done].
    intros ->. destruct Hb as [Hb|Hb]; [apply Hb, elem_of_cons; by left|congruence].
Qed.
