(* ===== verification/FsFiles.v ===== *)
(** * Names, paths, directories and mounting

    Lemmas on the byte accesses of the file server, the meaning of its string
    comparisons, path resolution and directory lookup. *)
From S2P Require Import Prelude Mmu UserMem Fs FsBlocks.

(** ** Strings in the cache *)

(** The string at [a] is [str]. *)
Fixpoint str_at (m : Z -> Z) (a : Z) (str : list Z) : bool :=
  match str with
  | [] => mem_byte m a =? 0
  | x :: str => (mem_byte m a =? x) && str_at m (a + 1) str
  end.

(** [n] bytes from [a] lie in the cached block [b]. *)
Definition in_block (s : fsst) (b a n : Z) : Prop :=
  0 <= b < 2 ^ 18 /\ cached s b = true /\ diskaddr b <= a /\ a + n <= diskaddr b + BY2BLK.

Lemma in_block_sub s b a n a' n' : in_block s b a n -> a <= a' -> a' + n' <= a + n ->
  in_block s b a' n'.
Proof. intros (? & ? & ? & ?) ? ?. repeat split; (done || lia). Qed.

Lemma in_block_first s b a n : in_block s b a n -> 1 <= n -> in_block s b a 1.
Proof. intros H ?. eapply in_block_sub; [exact H|lia|lia]. Qed.

Lemma in_block_mapped s b a n x : in_block s b a n -> a <= x < a + n ->
  fmapped s (VPN x) = true.
Proof. intros (? & ? & ? & ?) ?. rewrite (VPN_in_block b); (done || lia). Qed.

Lemma word_in_block s b a : in_block s b a 1 -> in_block s b (a - a mod 4) 4.
Proof.
  intros (Hb & Hc & Hlo & Hhi). repeat split; try lia; try done;
    rewrite diskaddr_eq in * by lia; unfold BY2BLK, BY2PG in *; Z.div_mod_to_equations; lia.
Qed.

Lemma lb_run s b a : in_block s b a 1 -> lb a s = Ret (mem_byte (fmem s) a) s.
Proof.
  intros H. unfold lb. rewrite (bind_step _ _ _ _ _ (lw_run _ _
    (in_block_mapped _ _ _ _ (a - a mod 4) (word_in_block _ _ _ H) ltac:(lia)))). done.
Qed.

Lemma sb_run s b a c : in_block s b a 1 ->
  sb a c s = Ret tt (set_fmem (blit a 1 (fun _ => c) (fmem s)) s).
Proof.
  intros H. unfold sb. rewrite (bind_step _ _ _ _ _ (lw_run _ _
    (in_block_mapped _ _ _ _ (a - a mod 4) (word_in_block _ _ _ H) ltac:(lia)))). done.
Qed.

(** [string_is] compares; it reads at most the length of [str] and one more. *)
Lemma string_is_run s b str a :
  in_block s b a (Z.of_nat (length str) + 1) ->
  string_is a str s = Ret (str_at (fmem s) a str) s.
Proof.
  revert a. induction str as [|x str IH]; intros a H; cbn [string_is str_at length].
  - rewrite (bind_step _ _ _ _ _ (lb_run s b a H)). done.
  - cbn [length] in H. rewrite Nat2Z.inj_succ in H.
    rewrite (bind_step _ _ _ _ _ (lb_run s b a (in_block_first _ _ _ _ H ltac:(lia)))).
    destruct (mem_byte (fmem s) a =? x); [|done]. cbn [andb].
    apply IH. eapply in_block_sub; [exact H|lia|lia].
Qed.

(** Memory after a string is written. *)
Fixpoint str_written (a : Z) (str : list Z) (m : Z -> Z) : Z -> Z :=
  match str with
  | [] => blit a 1 (fun _ => 0) m
  | c :: str => str_written (a + 1) str (blit a 1 (fun _ => c) m)
  end.

Lemma put_string_run str s b a :
  in_block s b a (Z.of_nat (length str) + 1) ->
  put_string a str s = Ret tt (set_fmem (str_written a str (fmem s)) s).
Proof.
  revert s a. induction str as [|x str IH]; intros s a H; cbn [put_string str_written length].
  - by rewrite (sb_run s b).
  - cbn [length] in H. rewrite Nat2Z.inj_succ in H.
    rewrite (bind_step _ _ _ _ _ (sb_run s b a x (in_block_first _ _ _ _ H ltac:(lia)))).
    rewrite IH; [done|]. eapply (in_block_sub _ b a (Z.succ (Z.of_nat (length str)) + 1)); [|lia|lia].
    exact H.
Qed.

Definition is_char (c : Z) : Prop := 0 < c < 256.

Lemma str_written_byte str a m x : Forall is_char str ->
  mem_byte (str_written a str m) x =
  if (a <=? x) && (x <=? a + Z.of_nat (length str)) then
    default 0 (str !! Z.to_nat (x - a)) else mem_byte m x.
Proof.
  revert a m. induction str as [|c str IH]; intros a m Hs; cbn [str_written].
  - rewrite blit_byte by lia. cbn [length].
    change (Z.of_nat 0) with 0. destruct (Z.ltb_spec x (a + 1)), (Z.leb_spec x (a + 0)); (lia || done).
  - inversion_clear Hs as [|? ? Hc Hstr]. unfold is_char in Hc. rewrite IH by done.
    rewrite blit_byte by (intros; lia). cbn [length]. rewrite Nat2Z.inj_succ.
    destruct (Z.leb_spec (a + 1) x), (Z.leb_spec x (a + 1 + Z.of_nat (length str))),
      (Z.leb_spec a x), (Z.ltb_spec x (a + 1)), (Z.leb_spec x (a + Z.succ (Z.of_nat (length str))));
      cbn [andb]; try lia; try done.
    + replace (Z.to_nat (x - a)) with (S (Z.to_nat (x - (a + 1)))) by lia. done.
    + by replace (x - a) with 0 by lia.
Qed.

Lemma str_at_ext m m' str a :
  (forall i, 0 <= i <= Z.of_nat (length str) -> mem_byte m' (a + i) = mem_byte m (a + i)) ->
  str_at m' a str = str_at m a str.
Proof.
  revert a. induction str as [|x str IH]; intros a H; cbn [str_at].
  - specialize (H 0). rewrite !Z.add_0_r in H. by rewrite H by done.
  - cbn [length] in H. pose proof (H 0 ltac:(lia)) as H0. rewrite !Z.add_0_r in H0. rewrite H0.
    f_equal. apply IH. intros i Hi. specialize (H (i + 1) ltac:(lia)).
    by replace (a + (i + 1)) with (a + 1 + i) in H by lia.
Qed.

Lemma str_written_at str a m : Forall is_char str -> str_at (str_written a str m) a str = true.
Proof.
  intros Hs.
  enough (Hgen : forall l k, drop k str = l -> Z.of_nat k <= Z.of_nat (length str) ->
    str_at (str_written a str m) (a + Z.of_nat k) l = true).
  { specialize (Hgen str 0%nat eq_refl ltac:(lia)). by rewrite Z.add_0_r in Hgen. }
  induction l as [|c l IH]; intros k Hk Hle; cbn [str_at]; rewrite str_written_byte by done.
  - rewrite (proj2 (Z.leb_le _ _)), (proj2 (Z.leb_le _ _)) by lia. cbn [andb].
    assert (length (drop k str) = 0%nat) as Hl by (by rewrite Hk). rewrite length_drop in Hl.
    rewrite lookup_ge_None_2; [done|lia].
  - rewrite (proj2 (Z.leb_le _ _)), (proj2 (Z.leb_le _ _)) by lia. cbn [andb].
    assert (Hc : str !! k = Some c) by (rewrite <- (Nat.add_0_r k), <- lookup_drop; by rewrite Hk).
    replace (Z.to_nat (a + Z.of_nat k - a)) with k by lia. rewrite Hc. cbn [default from_option id].
    rewrite Z.eqb_refl. cbn [andb]. apply lookup_lt_Some in Hc.
    replace (a + Z.of_nat k + 1) with (a + Z.of_nat (S k)) by lia. apply IH; [|lia].
    by rewrite <- Nat.add_1_r, <- drop_drop, Hk.
Qed.

(** ** Paths *)

(** The elements of a path: what is between slashes, empty ones dropped. *)
Fixpoint elements_from (cur : list Z) (path : list Z) : list (list Z) :=
  match path with
  | [] => match cur with [] => [] | _ => [cur] end
  | c :: path =>
      if c =? SLASH then
        match cur with [] => elements_from [] path | _ => cur :: elements_from [] path end
      else elements_from (cur ++ [c]) path
  end.
Definition path_elements (path : list Z) : list (list Z) := elements_from [] path.

(** Resolution of a list of names from [file], whose directory is [dir]. *)
Fixpoint resolve (dir file : Z) (names : list (list Z)) : FM walk :=
  match names with
  | [] => ret (mkWalk 0 dir file [])
  | name :: rest =>
      if MAXNAMELEN <=? Z.of_nat (length name) then ret (mkWalk (- E_BAD_PATH) 0 0 [])
      else
        let! type := lw (f_type file) in
        if negb (type =? FTYPE_DIR) then ret (mkWalk (- E_NOT_FOUND) 0 0 [])
        else
          let! r := dir_lookup file name in
          match r with
          | OK next => resolve file next rest
          | Err e =>
              ret (if (match rest with [] => true | _ => false end) && (e =? - E_NOT_FOUND)
                   then mkWalk e file 0 name else mkWalk e 0 0 [])
          end
  end.

Lemma path_elements_skip path : path_elements (skip_slash path) = path_elements path.
Proof.
  unfold path_elements. induction path as [|c path IH]; [done|]. cbn [skip_slash].
  destruct (Z.eqb_spec c SLASH) as [->|]; [by rewrite IH|done].
Qed.

Lemma elements_elem cur path :
  elements_from cur path =
  let '(name, rest) := path_elem path in
  match cur ++ name with [] => [] | _ => [cur ++ name] end ++ path_elements rest.
Proof.
  revert cur. induction path as [|c path IH]; intros cur; cbn [elements_from path_elem].
  - rewrite app_nil_r. destruct cur; [done|by rewrite app_nil_r].
  - destruct (Z.eqb_spec c SLASH) as [->|Hc].
    + rewrite app_nil_r. unfold path_elements. cbn [elements_from]. by destruct cur.
    + rewrite IH. destruct (path_elem path) as [name rest]. by rewrite <- app_assoc.
Qed.

Lemma path_elem_length path :
  (length (fst (path_elem path)) + length (snd (path_elem path)) = length path)%nat.
Proof.
  induction path as [|c path IH]; cbn [path_elem]; [done|].
  destruct (c =? SLASH); [done|]. destruct (path_elem path). cbn in *. lia.
Qed.

Lemma skip_slash_length path : (length (skip_slash path) <= length path)%nat.
Proof. induction path as [|c path IH]; cbn; [done|]. destruct (c =? SLASH); cbn; lia. Qed.

Lemma skip_slash_head path : match skip_slash path with c :: _ => c <> SLASH | [] => True end.
Proof.
  induction path as [|c path IH]; cbn; [done|]. by destruct (Z.eqb_spec c SLASH).
Qed.

Lemma walk_from_resolve n dir file path s :
  (length path <= n)%nat -> match path with c :: _ => c <> SLASH | [] => True end ->
  walk_from n dir file path s = resolve dir file (path_elements path) s.
Proof.
  revert dir file path s. induction n as [|n IH]; intros dir file path s Hn Hh.
  { by destruct path; [|cbn in Hn; lia]. }
  destruct path as [|c path0] eqn:Hp; [done|]. rewrite <- Hp in Hn |- *.
  assert (Hn0 : fst (path_elem path) <> []).
  { subst path. cbn [path_elem]. destruct (Z.eqb_spec c SLASH); [done|].
    by destruct (path_elem path0). }
  unfold path_elements. rewrite (elements_elem [] path).
  pose proof (path_elem_length path) as Hl.
  destruct (path_elem path) as [name rest] eqn:He. cbn [fst snd] in *.
  destruct name as [|x name]; [done|]. cbn [length] in Hl. cbn [app].
  rewrite <- (path_elements_skip rest).
  assert (Hrest : (length (skip_slash rest) <= n)%nat).
  { pose proof (skip_slash_length rest). lia. }
  cbn [resolve]. subst path. cbn [walk_from]. rewrite He.
  destruct (MAXNAMELEN <=? Z.of_nat (length (x :: name))); [done|].
  unfold bind at 1 3. destruct (lw (f_type file) s) as [type s1|msg s1| |s1]; [|done..].
  destruct (negb (type =? FTYPE_DIR)); [done|].
  unfold bind. destruct (dir_lookup file (x :: name) s1) as [[next|e] s2|msg s2| |s2]; try done.
  - apply IH; [done|apply skip_slash_head].
  - pose proof (skip_slash_head rest) as Hsh. destruct (skip_slash rest) as [|y rest'] eqn:Hr.
    + cbn. by destruct (e =? - E_NOT_FOUND).
    + unfold path_elements. rewrite elements_elem. cbn [path_elem].
      destruct (Z.eqb_spec y SLASH); [done|]. by destruct (path_elem rest') as [name' rest''].
Qed.

(** ** Direct blocks and directories *)
Lemma direct_in_block s b f i : in_block s b f BY2FILE -> 0 <= i < NDIRECT ->
  in_block s b (f_direct f i) 4.
Proof.
  intros H Hi. change NDIRECT with 10 in Hi. change BY2FILE with 256 in H.
  eapply in_block_sub; [exact H| |]; unfold f_direct; lia.
Qed.

Lemma direct_word s b f i : in_block s b f BY2FILE -> 0 <= i < NDIRECT ->
  fmapped s (VPN (f_direct f i)) = true.
Proof.
  intros H Hi. eapply in_block_mapped; [by apply direct_in_block|lia].
Qed.

Lemma file_map_block_direct s b f i alloc :
  in_block s b f BY2FILE -> 0 <= i < NDIRECT -> fmem s (f_direct f i) <> 0 ->
  file_map_block f i alloc s = Ret (OK (fmem s (f_direct f i))) s.
Proof.
  intros Hf Hi H0. unfold file_map_block, try_res, file_block_walk.
  rewrite (proj2 (Z.ltb_lt i NDIRECT)) by lia.
  rewrite (bind_step _ _ s (OK (f_direct f i)) s) by done.
  rewrite (bind_step _ _ _ _ _ (lw_run _ _ (direct_word _ _ _ _ Hf Hi))).
  by destruct (Z.eqb_spec (fmem s (f_direct f i)) 0).
Qed.

(** Block [n] is a used block in the cache. *)
Definition block_ready (s : fsst) (n : Z) : Prop :=
  0 < n < nblocks s /\ free_bit s n = false /\ cached s n = true.

Lemma file_get_block_direct s b f i :
  mounted s -> in_block s b f BY2FILE -> 0 <= i < NDIRECT ->
  block_ready s (fmem s (f_direct f i)) ->
  file_get_block f i s = Ret (OK (diskaddr (fmem s (f_direct f i)))) s.
Proof.
  intros Hm Hf Hi (Hn & Hfree & Hc). unfold file_get_block, try_res.
  rewrite (bind_step _ _ _ _ _ (file_map_block_direct s b f i true Hf Hi ltac:(lia))).
  rewrite (bind_step _ _ s (diskaddr (fmem s (f_direct f i)), 0) s); [done|].
  rewrite read_block_run by (auto; lia). by rewrite Hc.
Qed.

(** The slots of a directory of [n] direct blocks, in order. *)
Definition dir_slots (s : fsst) (dir : Z) (bnos : list Z) : list Z :=
  bnos ≫= fun i => files_of (diskaddr (fmem s (f_direct dir i))).

Lemma files_of_in_block s n f : block_ready s n -> nblocks s <= 2 ^ 18 ->
  f ∈ files_of (diskaddr n) -> in_block s n f BY2FILE.
Proof.
  intros (Hn & _ & Hc) Hle Hf. unfold files_of in Hf.
  apply list_elem_of_fmap in Hf as (j & -> & Hj). apply elem_of_seqZ in Hj.
  change (FILE2BLK) with 16 in Hj. unfold in_block, BY2FILE, BY2BLK, BY2PG.
  repeat split; (done || lia).
Qed.

Lemma find_app {A} (p : A -> bool) (l k : list A) :
  List.find p (l ++ k) = match List.find p l with Some x => Some x | None => List.find p k end.
Proof. induction l as [|x l IH]; [done|]. cbn. by destruct (p x). Qed.

Lemma find_name_run s name fs :
  (forall f, f ∈ fs -> exists b, in_block s b f BY2FILE) ->
  Z.of_nat (length name) < MAXNAMELEN ->
  find_name fs name s = Ret (List.find (fun f => str_at (fmem s) (f_name f) name) fs) s.
Proof.
  intros Hfs Hlen. change MAXNAMELEN with 128 in Hlen.
  induction fs as [|f fs IH]; [done|]. cbn [find_name List.find].
  destruct (Hfs f ltac:(apply elem_of_cons; by left)) as [b Hb].
  rewrite (bind_step _ _ _ _ _ (string_is_run s b name (f_name f)
    ltac:(eapply in_block_sub; [exact Hb| |]; unfold f_name, BY2FILE; lia))).
  destruct (str_at (fmem s) (f_name f) name); [done|].
  apply IH. intros g Hg. apply Hfs, elem_of_cons. by right.
Qed.

Lemma dir_lookup_blocks_run s b dir name bnos :
  mounted s -> in_block s b dir BY2FILE -> Z.of_nat (length name) < MAXNAMELEN ->
  (forall i, i ∈ bnos -> 0 <= i < NDIRECT /\ block_ready s (fmem s (f_direct dir i))) ->
  dir_lookup_blocks dir bnos name s =
  match List.find (fun f => str_at (fmem s) (f_name f) name) (dir_slots s dir bnos) with
  | Some f => Ret (OK f) (set_fmem (upd (fmem s) (f_dir f) dir) s)
  | None => Ret (Err (- E_NOT_FOUND)) s
  end.
Proof.
  intros Hm Hd Hlen. pose proof (m_nblocks _ Hm) as Hn. rewrite MAXBLOCKS_eq in Hn.
  induction bnos as [|i bnos IH]; intros Hall; [done|].
  cbn [dir_lookup_blocks]. unfold dir_slots. cbn [mbind list_bind]. fold (dir_slots s dir bnos).
  destruct (Hall i ltac:(apply elem_of_cons; by left)) as [Hi Hr].
  unfold try_res. rewrite (bind_step _ _ _ _ _ (file_get_block_direct s b dir i Hm Hd Hi Hr)).
  assert (Hin : forall f, f ∈ files_of (diskaddr (fmem s (f_direct dir i))) ->
    in_block s (fmem s (f_direct dir i)) f BY2FILE).
  { intros f Hf. apply files_of_in_block; (done || lia). }
  rewrite (bind_step _ _ _ _ _ (find_name_run s name _ (fun f Hf => ex_intro (fun b => in_block s b f BY2FILE) _ (Hin f Hf)) Hlen)).
  rewrite find_app. set (p := fun f => str_at (fmem s) (f_name f) name) in *.
  destruct (List.find p (files_of (diskaddr (fmem s (f_direct dir i))))) as [f|] eqn:Hf.
  - apply List.find_some in Hf as [Hf _]. apply list_elem_of_In, Hin in Hf.
    rewrite (bind_step _ _ _ _ _ (sw_run (f_dir f) dir s
      (in_block_mapped _ _ _ _ (f_dir f) Hf ltac:(unfold f_dir, BY2FILE; lia)))). done.
  - apply IH. intros j Hj. apply Hall, elem_of_cons. by right.
Qed.
