(* ===== verification/FsMount.v ===== *)
(** * Mounting: [fs_init] establishes the invariant of the block layer

    Each step of [fs_init] is described by the block it changes: the content
    of a cached block is its words, as a function of the offset. *)
From S2P Require Import Prelude Mmu UserMem Fs FsBlocks FsFiles.

(** Block [b] is cached with the words [c]. *)
Definition block_is (s : fsst) (b : Z) (c : Z -> Z) : Prop :=
  cached s b = true /\
  forall o, 0 <= o < BY2BLK -> o mod 4 = 0 -> fmem s (diskaddr b + o) = c o.

Definition disk_block (d : Z -> Z) (b : Z) : Z -> Z := fun o => d (b * BY2BLK + o).

(** Nothing but the cache of block [b] (and the disk) differs. *)
Record off_block (s s' : fsst) (b : Z) : Prop := {
  ob_super : super s' = super s;
  ob_bitmap : bitmap s' = bitmap s;
  ob_cached c : 0 <= c < 2 ^ 18 -> c <> b -> cached s' c = cached s c;
  ob_words c o : 0 <= c < 2 ^ 18 -> c <> b -> 0 <= o < BY2BLK -> o mod 4 = 0 ->
    fmem s' (diskaddr c + o) = fmem s (diskaddr c + o)
}.

Lemma block_is_off s s' b c f : off_block s s' b -> 0 <= c < 2 ^ 18 -> c <> b ->
  block_is s c f -> block_is s' c f.
Proof.
  intros Ho Hc Hne [Hm Hw]. split; [by rewrite (ob_cached _ _ _ Ho)|].
  intros o H1 H2. by rewrite (ob_words _ _ _ Ho), Hw.
Qed.

Lemma other_page b c o : 0 <= b < 2 ^ 18 -> 0 <= c < 2 ^ 18 -> c <> b -> 0 <= o < BY2BLK ->
  VPN (diskaddr c + o) <> VPN (diskaddr b).
Proof.
  intros Hb Hc Hne Ho H. apply Hne, diskaddr_inj; try lia.
  rewrite <- H. symmetry. apply VPN_in_block; lia.
Qed.

Lemma not_in_block b c o : 0 <= b < 2 ^ 18 -> 0 <= c < 2 ^ 18 -> c <> b -> 0 <= o < BY2BLK ->
  (diskaddr b <=? diskaddr c + o) && (diskaddr c + o <? diskaddr b + BY2BLK) = false.
Proof.
  intros Hb Hc Hne Ho. rewrite !diskaddr_eq by lia. unfold BY2BLK, BY2PG in *.
  destruct (Z.leb_spec (0x10000000 + b * 4096) (0x10000000 + c * 4096 + o)); [|done].
  destruct (Z.ltb_spec (0x10000000 + c * 4096 + o) (0x10000000 + b * 4096 + 4096)); [|done].
  exfalso. lia.
Qed.

Lemma in_block_words b o : 0 <= o < BY2BLK ->
  (diskaddr b <=? diskaddr b + o) && (diskaddr b + o <? diskaddr b + BY2BLK) = true.
Proof. intros Ho. rewrite (proj2 (Z.leb_le _ _)), (proj2 (Z.ltb_lt _ _)) by lia. done. Qed.

(** ** The steps *)
Lemma loaded_off s b : 0 <= b < 2 ^ 18 ->
  off_block s (loaded s b) b /\ block_is (loaded s b) b (disk_block (disk s) b).
Proof.
  intros Hb. split; [split; try done|split].
  - intros c Hc Hne. unfold cached, loaded. cbn [fmapped]. apply upd_other.
    intros H. apply Hne, diskaddr_inj; (done || lia).
  - intros c o Hc Hne Ho _. unfold loaded. cbn [fmem]. rewrite not_in_block by done.
    destruct (Z.eqb_spec (VPN (diskaddr c + o)) (VPN (diskaddr b))) as [H|]; [|done].
    by apply other_page in H.
  - apply upd_same.
  - intros o Ho _. by apply loaded_content.
Qed.

Lemma copy_block_step s a b f : 0 <= a < 2 ^ 18 -> 0 <= b < 2 ^ 18 ->
  cached s a = true -> block_is s b f ->
  exists s', copy_block (diskaddr a) (diskaddr b) s = Ret tt s' /\ off_block s s' a /\
    block_is s' a f /\ disk s' = disk s /\ pages_left s' = pages_left s.
Proof.
  intros Ha Hb Hc [Hcb Hw].
  eexists. split.
  { unfold copy_block. rewrite (bind_step _ _ _ _ _ (lw_run _ _ Hcb)).
    rewrite (bind_step _ _ _ _ _ (lw_run _ _ Hc)). reflexivity. }
  split; [split; try done|split; [|done]].
  - intros c o Hc' Hne Ho _. cbn [fmem set_fmem]. change BY2PG with BY2BLK.
    by rewrite not_in_block.
  - split; [done|]. intros o Ho Hal. cbn [fmem set_fmem]. change BY2PG with BY2BLK.
    rewrite in_block_words by done. rewrite <- Hw by done. f_equal. lia.
Qed.

Lemma write_block_step s b f : 0 <= b < 2 ^ 18 -> block_is s b f ->
  exists s', write_block b s = Ret tt s' /\ off_block s s' b /\ block_is s' b f /\
    pages_left s' = pages_left s /\
    (forall o, 0 <= o < BY2BLK -> o mod 4 = 0 -> disk s' (b * BY2BLK + o) = f o) /\
    (forall c o, c <> b -> 0 <= o < BY2BLK ->
       disk s' (c * BY2BLK + o) = disk s (c * BY2BLK + o)).
Proof.
  intros Hb [Hc Hw]. eexists. split; [apply write_block_run; (done || lia)|].
  split; [done|]. split; [done|]. split; [done|]. cbn [disk set_disk]. split.
  - intros o Ho Hal. rewrite disk_written_in by done. by apply Hw.
  - intros c o Hne Ho. by apply disk_written_other.
Qed.

Lemma unmap_step s b : 0 <= b < 2 ^ 18 -> cached s b = true ->
  exists s', syscall_mem_unmap (diskaddr b) s = Ret tt s' /\ off_block s s' b /\
    cached s' b = false /\ disk s' = disk s /\ pages_left s' = pages_left s + 1.
Proof.
  intros Hb Hc. eexists. split; [reflexivity|]. split; [split; try done|split; [|split; [done|]]].
  - intros c Hc' Hne. unfold cached. cbn [fmapped set_fmapped set_pages_left]. apply upd_other.
    intros H. apply Hne, diskaddr_inj; (done || lia).
  - apply upd_same.
  - cbn. unfold cached in Hc. by rewrite Hc.
Qed.

Lemma str_written_word str a m x : x + 4 <= a \/ a + Z.of_nat (length str) < x ->
  str_written a str m x = m x.
Proof.
  assert (Hblit : forall c a m, x + 4 <= a \/ a < x -> blit a 1 (fun _ => c) m x = m x).
  { intros c b m' Hx. unfold blit. destruct (Z.ltb_spec b (x + 4)), (Z.ltb_spec x (b + 1)); (done || lia). }
  revert a m. induction str as [|c str IH]; intros a m Hx; cbn [str_written length] in *.
  - apply Hblit. lia.
  - rewrite IH by lia. apply Hblit. lia.
Qed.

Lemma block_start_aligned b : 0 <= b < 2 ^ 19 -> diskaddr b mod 4 = 0.
Proof. intros H. rewrite diskaddr_eq by done. Z.div_mod_to_equations. lia. Qed.

Lemma put_string_step s b str : 0 <= b < 2 ^ 18 -> cached s b = true -> Forall is_char str ->
  Z.of_nat (length str) < BY2BLK ->
  exists s', put_string (diskaddr b) str s = Ret tt s' /\ off_block s s' b /\
    cached s' b = true /\ disk s' = disk s /\ pages_left s' = pages_left s /\
    str_at (fmem s') (diskaddr b) str = true.
Proof.
  intros Hb Hc Hs Hlen. eexists.
  split; [apply (put_string_run _ _ b); repeat split; (done || lia)|].
  split; [|repeat split; [done|by apply str_written_at]]. split; try done.
  intros c o Hc' Hne Ho Hal. cbn [fmem set_fmem]. apply str_written_word.
  rewrite !diskaddr_eq by lia. unfold BY2BLK, BY2PG in *. Z.div_mod_to_equations. lia.
Qed.

(** Two states with the same block hold the same strings in it. *)
Lemma block_str_at s s' b f str : 0 <= b < 2 ^ 18 -> block_is s b f -> block_is s' b f ->
  Z.of_nat (length str) < BY2BLK ->
  str_at (fmem s') (diskaddr b) str = str_at (fmem s) (diskaddr b) str.
Proof.
  intros Hb [_ Hw] [_ Hw'] Hlen. apply str_at_ext. intros i Hi. unfold mem_byte.
  pose proof (block_start_aligned b ltac:(lia)) as Ha.
  assert (Hm : (diskaddr b + i) mod 4 = i mod 4) by (Z.div_mod_to_equations; lia).
  rewrite Hm. replace (diskaddr b + i - i mod 4) with (diskaddr b + (i - i mod 4)) by lia.
  assert (0 <= i - i mod 4 < BY2BLK /\ (i - i mod 4) mod 4 = 0) as [H1 H2]
    by (Z.div_mod_to_equations; lia).
  by rewrite Hw, Hw'.
Qed.

(** ** [check_write_block] leaves the super block as it was *)
Lemma check_write_block_run s f :
  cached s 0 = false -> block_is s 1 f -> bitmap s = 0 -> 0 < pages_left s ->
  exists s', check_write_block s = Ret tt s' /\ super s' = diskaddr 1 /\ bitmap s' = 0 /\
    block_is s' 1 f /\ pages_left s' = pages_left s - 1 /\
    (forall c, 1 < c < 2 ^ 18 -> cached s' c = cached s c) /\ cached s' 0 = true /\
    (forall o, 0 <= o < BY2BLK -> o mod 4 = 0 -> disk s' (1 * BY2BLK + o) = f o) /\
    (forall c o, c <> 1 -> 0 <= o < BY2BLK -> disk s' (c * BY2BLK + o) = disk s (c * BY2BLK + o)).
Proof.
  intros H0 H1 Hbm Hp. unfold check_write_block.
  set (s1 := set_super 0 s). rewrite (bind_step _ _ s tt s1) by done.
  assert (Hr : read_block 0 s1 = Ret (diskaddr 0, 1) (loaded s1 0)).
  { rewrite read_block_load; [|lia|by left|by left|by right]. by rewrite (H0 : cached s1 0 = false). }
  rewrite (bind_step _ _ _ _ _ Hr). destruct (loaded_off s1 0 ltac:(lia)) as [Ho2 [Hc2 _]].
  set (s2 := loaded s1 0) in *.
  assert (H12 : block_is s2 1 f) by (eapply (block_is_off s1); [done|lia|lia|done]).
  destruct (copy_block_step s2 0 1 f ltac:(lia) ltac:(lia) Hc2 H12)
    as (s3 & Hr3 & Ho3 & H03 & Hd3 & Hp3).
  rewrite (bind_step _ _ _ _ _ Hr3).
  assert (H13 : block_is s3 1 f) by (eapply (block_is_off s2); [done|lia|lia|done]).
  destruct (put_string_step s3 1 oops ltac:(lia) (proj1 H13)
    ltac:(repeat constructor; done) ltac:(done)) as (s4 & Hr4 & Ho4 & Hc4 & Hd4 & Hp4 & Hs4).
  rewrite (bind_step _ _ _ _ _ Hr4).
  assert (H04 : block_is s4 0 f) by (eapply (block_is_off s3); [done|lia|lia|done]).
  set (g := fun o => fmem s4 (diskaddr 1 + o)).
  assert (H14 : block_is s4 1 g) by done.
  destruct (write_block_step s4 1 g ltac:(lia) H14) as (s5 & Hr5 & Ho5 & H15 & Hp5 & Hd5 & Hk5).
  rewrite (bind_step _ _ _ _ _ Hr5).
  assert (H05 : block_is s5 0 f) by (eapply (block_is_off s4); [done|lia|lia|done]).
  rewrite (bind_step _ _ _ _ _ (block_is_mapped_run 1 s5)), (proj1 H15), diskaddr_pos by lia.
  rewrite (bind_step _ _ s5 tt s5) by done.
  destruct (unmap_step s5 1 ltac:(lia) (proj1 H15)) as (s6 & Hr6 & Ho6 & Hc6 & Hd6 & Hp6).
  rewrite (bind_step _ _ _ _ _ Hr6).
  assert (H06 : block_is s6 0 f) by (eapply (block_is_off s5); [done|lia|lia|done]).
  rewrite (bind_step _ _ _ _ _ (block_is_mapped_run 1 s6)), Hc6.
  rewrite (bind_step _ _ s6 tt s6) by done.
  assert (Hsup6 : super s6 = 0).
  { by rewrite (ob_super _ _ _ Ho6), (ob_super _ _ _ Ho5), (ob_super _ _ _ Ho4), (ob_super _ _ _ Ho3). }
  assert (Hbm6 : bitmap s6 = 0).
  { by rewrite (ob_bitmap _ _ _ Ho6), (ob_bitmap _ _ _ Ho5), (ob_bitmap _ _ _ Ho4), (ob_bitmap _ _ _ Ho3). }
  assert (Hp6' : pages_left s6 = pages_left s).
  { rewrite Hp6, Hp5, Hp4, Hp3. cbn. lia. }
  assert (Hr7 : read_block 1 s6 = Ret (diskaddr 1, 1) (loaded s6 1)).
  { rewrite read_block_load; [|lia|by left|by left|right; lia]. by rewrite Hc6. }
  rewrite (bind_step _ _ _ _ _ Hr7). destruct (loaded_off s6 1 ltac:(lia)) as [Ho7 H17].
  set (s7 := loaded s6 1) in *.
  assert (H07 : block_is s7 0 f) by (eapply (block_is_off s6); [done|lia|lia|done]).
  assert (H17' : block_is s7 1 g).
  { split; [apply H17|]. intros o Ho Hal. rewrite (proj2 H17) by done. unfold disk_block.
    rewrite Hd6. by apply Hd5. }
  rewrite (bind_step _ _ _ _ _ (string_is_run s7 1 oops (diskaddr 1) ltac:(repeat split; (done || apply H17')))).
  rewrite (block_str_at s4 s7 1 g) by (done || lia). rewrite Hs4.
  rewrite (bind_step _ _ s7 tt s7) by done.
  destruct (copy_block_step s7 1 0 f ltac:(lia) ltac:(lia) (proj1 H17') H07)
    as (s8 & Hr8 & Ho8 & H18 & Hd8 & Hp8).
  rewrite (bind_step _ _ _ _ _ Hr8).
  destruct (write_block_step s8 1 f ltac:(lia) H18) as (s9 & Hr9 & Ho9 & H19 & Hp9 & Hd9 & Hk9).
  rewrite (bind_step _ _ _ _ _ Hr9).
  exists (set_super (diskaddr 1) s9). split; [done|]. split; [done|].
  split; [by rewrite <- Hbm6; cbn; rewrite (ob_bitmap _ _ _ Ho9), (ob_bitmap _ _ _ Ho8)|].
  split; [exact H19|]. split; [cbn; rewrite Hp9, Hp8; cbn; lia|].
  split; [|split; [|split; [exact Hd9|]]].
  - intros c Hc. change (cached (set_super (diskaddr 1) s9) c) with (cached s9 c).
    rewrite (ob_cached _ _ _ Ho9), (ob_cached _ _ _ Ho8), (ob_cached _ _ _ Ho7),
      (ob_cached _ _ _ Ho6), (ob_cached _ _ _ Ho5), (ob_cached _ _ _ Ho4),
      (ob_cached _ _ _ Ho3), (ob_cached _ _ _ Ho2) by lia. done.
  - change (cached s9 0 = true). rewrite (ob_cached _ _ _ Ho9), (ob_cached _ _ _ Ho8) by lia. apply H07.
  - intros c o Hne Ho. cbn [disk set_super]. rewrite Hk9, Hd8 by done. cbn [disk s7 loaded].
    rewrite Hd6, Hk5 by done. by rewrite Hd4, Hd3.
Qed.

(** ** Reading the bitmap *)
Lemma read_blocks_run l s f :
  NoDup l -> (forall i, i ∈ l -> 0 <= i /\ i + 2 < f 4 /\ cached s (i + 2) = false) ->
  f 4 <= 2 ^ 18 -> super s = diskaddr 1 -> bitmap s = 0 -> block_is s 1 f ->
  Z.of_nat (length l) <= pages_left s ->
  exists s', forM l (fun i => let! _ := read_block (i + 2) in ret tt) s = Ret tt s' /\
    super s' = diskaddr 1 /\ bitmap s' = 0 /\ disk s' = disk s /\
    (forall i, i ∈ l -> block_is s' (i + 2) (disk_block (disk s) (i + 2))) /\
    (forall c g, 0 <= c < 2 ^ 18 -> c - 2 ∉ l -> block_is s c g -> block_is s' c g) /\
    pages_left s' = pages_left s - Z.of_nat (length l) /\
    (forall c, 0 <= c < 2 ^ 18 -> c - 2 ∉ l -> cached s' c = cached s c).
Proof.
  revert s. induction l as [|i l IH]; intros s Hnd Hl Hf Hsup Hbm H1 Hp; cbn [forM].
  { exists s. do 4 (split; [done|]). split; [intros i Hi; by apply elem_of_nil in Hi|].
    split; [done|]. split; [cbn; lia|done]. }
  apply NoDup_cons in Hnd as [Hni Hnd].
  destruct (Hl i ltac:(apply elem_of_cons; by left)) as (Hi & Hlt & Hc).
  cbn [length] in Hp. rewrite Nat2Z.inj_succ in Hp.
  assert (Hr : read_block (i + 2) s = Ret (diskaddr (i + 2), 1) (loaded s (i + 2))).
  { rewrite read_block_load; [by rewrite Hc|lia| |by left|right; lia]. right.
    unfold nblocks. rewrite Hsup. unfold s_nblocks. rewrite (proj2 H1) by done. split; [|lia].
    rewrite (VPN_in_block 1); [apply H1|lia|]. rewrite diskaddr_eq by lia.
    unfold BY2BLK, BY2PG. lia. }
  rewrite (bind_step _ _ s tt (loaded s (i + 2))) by (by rewrite (bind_step _ _ _ _ _ Hr)).
  destruct (loaded_off s (i + 2) ltac:(lia)) as [Ho Hb]. set (s1 := loaded s (i + 2)) in *.
  destruct (IH s1) as (s' & Hrun & Hs' & Hbm' & Hd' & Hin & Hkeep & Hpl & Hca); try done.
  - intros j Hj. destruct (Hl j ltac:(apply elem_of_cons; by right)) as (? & ? & Hcj).
    repeat split; try lia. rewrite (ob_cached _ _ _ Ho); [done|lia|]. intros E.
    replace j with i in Hj by lia. done.
  - eapply (block_is_off s); [done|lia|lia|done].
  - cbn. lia.
  - exists s'. do 4 (split; [done|]). split.
    + intros j Hj. destruct (decide (j ∈ l)) as [Hjl|Hjl]; [by apply (Hin j)|].
      apply elem_of_cons in Hj as [->|]; [|done].
      apply Hkeep; [lia| |exact Hb]. by replace (i + 2 - 2) with i by lia.
    + split; [|split].
      * intros c g Hc' Hnot Hg. apply Hkeep; [done| |].
        -- intros ?. apply Hnot, elem_of_cons. by right.
        -- eapply (block_is_off s); [done|done| |done]. intros ->. apply Hnot, elem_of_cons. left. lia.
      * rewrite Hpl. cbn [length]. change (pages_left s1) with (pages_left s - 1). lia.
      * intros c Hcr Hnot. rewrite Hca; [apply (ob_cached _ _ _ Ho)|..]; try done.
        -- intros ->. apply Hnot, elem_of_cons. left. lia.
        -- intros ?. apply Hnot, elem_of_cons. by right.
Qed.

(** Bit [b] of the bitmap on the disk [d]. *)
Definition disk_bit (d : Z -> Z) (b : Z) : bool :=
  Z.testbit (d (2 * BY2BLK + 4 * (b / 32))) (b mod 32).

Lemma cached_bit s d b : 0 <= b < 2 ^ 18 -> bitmap s = diskaddr 2 ->
  block_is s (bitmap_block b) (disk_block d (bitmap_block b)) ->
  free_bit s b = disk_bit d b.
Proof.
  intros Hb Hbm [_ Hw]. unfold free_bit, disk_bit. rewrite Hbm. f_equal.
  unfold bitmap_block in *. change BIT2BLK with 32768 in *.
  assert (0 <= b / 32768 < 8) by (Z.div_mod_to_equations; lia).
  assert (Hrng : 0 <= 4 * (b / 32) - b / 32768 * 4096 < BY2BLK)
    by (unfold BY2BLK, BY2PG; Z.div_mod_to_equations; lia).
  assert (Hal : (4 * (b / 32) - b / 32768 * 4096) mod 4 = 0) by (Z.div_mod_to_equations; lia).
  specialize (Hw _ Hrng Hal). unfold disk_block, bit_word in *. rewrite diskaddr_eq in * by lia.
  unfold BY2BLK, BY2PG in *.
  replace (0x10000000 + 2 * 4096 + 4 * (b / 32)) with
    (0x10000000 + (b / 32768 + 2) * 4096 + (4 * (b / 32) - b / 32768 * 4096)) by lia.
  rewrite Hw. f_equal. lia.
Qed.

Lemma assert_used_run s b : mounted s -> 0 <= b -> (b < nblocks s -> free_bit s b = false) ->
  assert_used b s = Ret tt s.
Proof.
  intros Hm Hb Hf. unfold assert_used.
  rewrite (bind_step _ _ _ _ _ (block_is_free_run _ Hm b Hb)).
  destruct (Z.leb_spec (nblocks s) b); [done|]. by rewrite Hf by lia.
Qed.

Lemma forM_same {A} (l : list A) (body : A -> FM unit) s :
  (forall x, x ∈ l -> body x s = Ret tt s) -> forM l body s = Ret tt s.
Proof.
  induction l as [|x l IH]; intros H; [done|]. cbn [forM].
  rewrite (bind_step _ _ s tt s) by (apply H, elem_of_cons; by left).
  apply IH. intros y Hy. apply H, elem_of_cons. by right.
Qed.

Lemma read_bitmap_run s d :
  let f := disk_block d 1 in
  super s = diskaddr 1 -> bitmap s = 0 -> block_is s 1 f -> 3 <= f 4 <= MAXBLOCKS ->
  (forall c, 1 < c < 2 ^ 18 -> cached s c = false) -> f 4 / BIT2BLK + 1 <= pages_left s ->
  (forall c o, 0 <= o < BY2BLK -> o mod 4 = 0 -> disk s (c * BY2BLK + o) = d (c * BY2BLK + o)) ->
  (forall b, 0 <= b <= f 4 / BIT2BLK + 2 -> disk_bit d b = false) ->
  exists s', read_bitmap s = Ret tt s' /\ mounted s' /\ nblocks s' = f 4 /\ disk s' = disk s /\
    block_is s' 1 f /\ (forall b, 0 <= b < f 4 -> free_bit s' b = disk_bit d b) /\
    pages_left s' = pages_left s - (f 4 / BIT2BLK + 1) /\ cached s' 0 = cached s 0 /\
    (forall c, f 4 / BIT2BLK + 2 < c < 2 ^ 18 -> cached s' c = false).
Proof.
  intros f Hsup Hbm H1 Hn Hunc Hp Hd Hused. rewrite MAXBLOCKS_eq in Hn.
  assert (Hnw : fmem s (s_nblocks (super s)) = f 4).
  { rewrite Hsup. unfold s_nblocks. by rewrite (proj2 H1). }
  assert (Hw : fmapped s (VPN (s_nblocks (super s))) = true).
  { rewrite Hsup. unfold s_nblocks. rewrite (VPN_in_block 1); [apply H1|lia|].
    rewrite diskaddr_eq by lia. unfold BY2BLK, BY2PG. lia. }
  unfold read_bitmap. rewrite (bind_step _ _ s s s) by done.
  rewrite (bind_step _ _ _ _ _ (lw_run _ _ Hw)), Hnw.
  change BIT2BLK with 32768 in *.
  destruct (read_blocks_run (seqZ 0 (f 4 / 32768 + 1)) s f) as (s1 & Hr & Hs1 & Hb1 & Hd1 & Hin & Hkeep & Hpl & Hca);
    try done.
  - apply NoDup_seqZ.
  - intros i Hi. apply elem_of_seqZ in Hi. split; [lia|]. split; [Z.div_mod_to_equations; lia|].
    apply Hunc. Z.div_mod_to_equations. lia.
  - lia.
  - rewrite length_seqZ. Z.div_mod_to_equations. lia.
  - rewrite (bind_step _ _ _ _ _ Hr). set (s2 := set_bitmap (diskaddr 2) s1).
    rewrite (bind_step _ _ s1 tt s2) by done.
    assert (H12 : block_is s2 1 f).
    { apply (Hkeep 1 f); [lia| |done]. rewrite elem_of_seqZ. lia. }
    assert (Hn2 : nblocks s2 = f 4).
    { unfold nblocks. change (super s2) with (super s1). rewrite Hs1. unfold s_nblocks.
      by rewrite (proj2 H12). }
    assert (Hbb : forall b, 0 <= b < f 4 ->
      block_is s2 (bitmap_block b) (disk_block d (bitmap_block b))).
    { intros b Hb. unfold bitmap_block. change BIT2BLK with 32768.
      destruct (Hin (b / 32768)) as [Hc Hwd].
      { apply elem_of_seqZ. split; [Z.div_mod_to_equations; lia|].
        pose proof (Z.div_le_mono b (f 4) 32768 ltac:(lia) ltac:(lia)). lia. }
      split; [exact Hc|]. intros o Ho Hal. change (fmem s2) with (fmem s1).
      rewrite Hwd by done. by apply Hd. }
    assert (Hm2 : mounted s2).
    { split; try rewrite Hn2; try done; [rewrite MAXBLOCKS_eq; lia|apply H12|].
      intros b Hb. by apply Hbb. }
    assert (Hfree : forall b, 0 <= b < f 4 -> free_bit s2 b = disk_bit d b).
    { intros b Hb. apply cached_bit; [lia|done|by apply Hbb]. }
    assert (Hq : 0 <= f 4 / 32768) by (Z.div_mod_to_equations; lia).
    assert (Ha : forall b, 0 <= b <= f 4 / 32768 + 2 -> assert_used b s2 = Ret tt s2).
    { intros b Hb. apply assert_used_run; [done|lia|]. rewrite Hn2. intros Hlt.
      rewrite Hfree by lia. apply Hused. lia. }
    rewrite (bind_step _ _ _ _ _ (Ha 0 ltac:(lia))), (bind_step _ _ _ _ _ (Ha 1 ltac:(lia))).
    exists s2. split; [|split_and!; try done].
    + apply forM_same. intros i Hi. apply elem_of_seqZ in Hi. apply Ha. lia.
    + change (pages_left s2) with (pages_left s1). rewrite Hpl, length_seqZ. lia.
    + apply (Hca 0); [lia|]. rewrite elem_of_seqZ. lia.
    + intros c Hc. change (cached s2 c) with (cached s1 c). rewrite Hca; [apply Hunc; lia|lia|].
      rewrite elem_of_seqZ. lia.
Qed.

(** ** The whole of [fs_init] *)
Lemma fs_init_run s :
  super s = 0 -> bitmap s = 0 -> (forall b, 0 <= b < 2 ^ 18 -> cached s b = false) ->
  let f := disk_block (disk s) 1 in
  f 0 = FS_MAGIC -> 3 <= f 4 <= MAXBLOCKS -> f 4 / BIT2BLK + 3 <= pages_left s ->
  (forall b, 0 <= b <= f 4 / BIT2BLK + 2 -> disk_bit (disk s) b = false) ->
  exists s', fs_init s = Ret tt s' /\ mounted s' /\ nblocks s' = f 4 /\ block_is s' 1 f /\
    (forall b, 0 <= b < f 4 -> free_bit s' b = disk_bit (disk s) b) /\
    (forall c o, 0 <= o < BY2BLK -> o mod 4 = 0 ->
       disk s' (c * BY2BLK + o) = disk s (c * BY2BLK + o)) /\
    pages_left s' = pages_left s - (f 4 / BIT2BLK + 3) /\ cached s' 0 = true /\
    (forall c, f 4 / BIT2BLK + 2 < c < 2 ^ 18 -> cached s' c = false).
Proof.
  intros Hsup Hbm Hunc f Hmagic Hn Hp Hused. rewrite MAXBLOCKS_eq in Hn.
  assert (0 <= f 4 / BIT2BLK) by (change BIT2BLK with 32768; Z.div_mod_to_equations; lia).
  unfold fs_init.
  destruct (loaded_off s 1 ltac:(lia)) as [Ho H1]. fold f in H1.
  set (s1 := set_super (diskaddr 1) (loaded s 1)).
  assert (Hr : read_super s = Ret tt s1).
  { unfold read_super.
    assert (Hb : read_block 1 s = Ret (diskaddr 1, 1) (loaded s 1)).
    { rewrite read_block_load; [by rewrite Hunc by lia|lia|by left|by left|right; lia]. }
    rewrite (bind_step _ _ _ _ _ Hb). cbn [fst]. rewrite (bind_step _ _ _ tt s1) by done.
    assert (Hw : forall o, 0 <= o < BY2BLK -> o mod 4 = 0 -> lw (diskaddr 1 + o) s1 = Ret (f o) s1).
    { intros o Hob Hal. rewrite lw_run.
      - f_equal. by apply H1.
      - rewrite (VPN_in_block 1) by lia. apply H1. }
    unfold s_magic, s_nblocks. pose proof (Hw 0 ltac:(done) ltac:(done)) as Hw0.
    rewrite Z.add_0_r in Hw0. rewrite (bind_step _ _ _ _ _ Hw0), Hmagic. cbn [Z.eqb negb].
    rewrite (bind_step _ _ s1 tt s1) by done.
    rewrite (bind_step _ _ _ _ _ (Hw 4 ltac:(done) ltac:(done))).
    fold MAXBLOCKS. rewrite MAXBLOCKS_eq. by destruct (Z.ltb_spec (2 ^ 18) (f 4)); [lia|]. }
  rewrite (bind_step _ _ _ _ _ Hr).
  destruct (check_write_block_run s1 f) as (s2 & Hr2 & Hs2 & Hb2 & H12 & Hp2 & Hc2 & Hc0 & Hd2 & Hk2);
    [|exact H1|done|cbn; lia|].
  { change (cached (loaded s 1) 0 = false). rewrite (ob_cached _ _ _ Ho) by lia. by apply Hunc. }
  rewrite (bind_step _ _ _ _ _ Hr2).
  assert (Hdisk : forall c o, 0 <= o < BY2BLK -> o mod 4 = 0 ->
    disk s2 (c * BY2BLK + o) = disk s (c * BY2BLK + o)).
  { intros c o Hob Hal. destruct (decide (c = 1)) as [->|Hne]; [by rewrite Hd2|by rewrite Hk2]. }
  destruct (read_bitmap_run s2 (disk s) Hs2 Hb2 H12) as (s3 & Hr3 & Hm3 & Hn3 & Hd3 & H13 & Hf3 & Hp3 & H03 & Hc3).
  - by rewrite MAXBLOCKS_eq.
  - intros c Hc. rewrite Hc2 by done. change (cached (loaded s 1) c = false).
    rewrite (ob_cached _ _ _ Ho) by lia. apply Hunc. lia.
  - rewrite Hp2. change (pages_left s1) with (pages_left s - 1).
    change (disk_block (disk s) 1 4) with (f 4). lia.
  - done.
  - done.
  - exists s3. do 5 (split; [done|]). split; [by rewrite Hd3|].
    split; [|split; [by rewrite H03|exact Hc3]].
    rewrite Hp3, Hp2. change (pages_left s1) with (pages_left s - 1).
    change (disk_block (disk s) 1 4) with (f 4). lia.
Qed.

(** ** Changing one block of a mounted file system *)
Lemma bit_word_split b : 0 <= b < 2 ^ 18 -> exists o,
  bit_word (diskaddr 2) b = diskaddr (bitmap_block b) + o /\ 0 <= o < BY2BLK /\ o mod 4 = 0.
Proof.
  intros Hb. exists (bit_word (diskaddr 2) b - diskaddr (bitmap_block b)).
  pose proof (bit_word_in_block b Hb). pose proof (bitmap_block_range b Hb).
  split; [lia|]. split; [lia|]. unfold bit_word. rewrite !diskaddr_eq by lia.
  Z.div_mod_to_equations. lia.
Qed.

Lemma off_block_mounted s s' b : mounted s -> off_block s s' b -> b <> 1 ->
  (forall x, 0 <= x < nblocks s -> b <> bitmap_block x) ->
  mounted s' /\ nblocks s' = nblocks s /\
  (forall x, 0 <= x < nblocks s -> free_bit s' x = free_bit s x).
Proof.
  intros Hm Ho H1 Hbm. pose proof (m_nblocks _ Hm) as Hn. rewrite MAXBLOCKS_eq in Hn.
  assert (Heq : nblocks s' = nblocks s).
  { unfold nblocks. rewrite (ob_super _ _ _ Ho), (m_super _ Hm). unfold s_nblocks.
    apply (ob_words _ _ _ Ho); (done || lia). }
  split; [|split; [done|]].
  - split; rewrite ?Heq, ?(ob_super _ _ _ Ho), ?(ob_bitmap _ _ _ Ho); try apply Hm.
    + rewrite (ob_cached _ _ _ Ho) by (done || lia). apply Hm.
    + intros x Hx. pose proof (bitmap_block_range x ltac:(lia)).
      rewrite (ob_cached _ _ _ Ho); [by apply Hm|lia|]. intros E. by apply (Hbm x).
  - intros x Hx. unfold free_bit. rewrite (ob_bitmap _ _ _ Ho), (m_bitmap _ Hm).
    destruct (bit_word_split x ltac:(lia)) as (o & -> & Ho1 & Ho2).
    pose proof (bitmap_block_range x ltac:(lia)).
    rewrite (ob_words _ _ _ Ho); try done; [lia|]. intros E. by apply (Hbm x).
Qed.

(** A fresh, zeroed page for block [b]. *)
Lemma mem_alloc_step s b : 0 <= b < 2 ^ 18 -> 0 < pages_left s ->
  exists s', syscall_mem_alloc (diskaddr b) s = Ret 0 s' /\ off_block s s' b /\
    block_is s' b (fun _ => 0) /\ disk s' = disk s /\ pages_left s' = pages_left s - 1.
Proof.
  intros Hb Hp. eexists. split.
  { unfold syscall_mem_alloc. destruct (Z.leb_spec (pages_left s) 0); [lia|reflexivity]. }
  split; [split; try done|split; [split|done]].
  - intros c Hc Hne. unfold cached. cbn [fmapped set_fmapped set_fmem set_pages_left]. apply upd_other.
    intros H. apply Hne, diskaddr_inj; (done || lia).
  - intros c o Hc Hne Ho _. cbn [fmem set_fmem set_pages_left].
    destruct (Z.eqb_spec (VPN (diskaddr c + o)) (VPN (diskaddr b))) as [H|]; [|done].
    by apply other_page in H.
  - apply upd_same.
  - intros o Ho _. cbn [fmem set_fmem set_pages_left].
    rewrite (VPN_in_block b) by lia. by rewrite Z.eqb_refl.
Qed.

Lemma map_block_run s b : 0 <= b < 2 ^ 18 ->
  map_block b s = if cached s b then Ret 0 s else syscall_mem_alloc (diskaddr b) s.
Proof.
  intros Hb. unfold map_block. rewrite (bind_step _ _ _ _ _ (block_is_mapped_run b s)).
  destruct (cached s b); [by rewrite diskaddr_pos by lia|done].
Qed.

Lemma allocated_synced s b o : 0 <= o < BY2BLK ->
  disk (allocated s b) (bitmap_block b * BY2BLK + o) =
  fmem (allocated s b) (diskaddr (bitmap_block b) + o).
Proof. exact (disk_written_in (bit_cleared s b) (bitmap_block b) o). Qed.

(** The bitmap block on the disk, where it is the one in memory. *)
Lemma synced_bit s b : 0 <= b < 2 ^ 18 -> bitmap s = diskaddr 2 ->
  (forall o, 0 <= o < BY2BLK -> disk s (bitmap_block b * BY2BLK + o) =
     fmem s (diskaddr (bitmap_block b) + o)) ->
  disk_bit (disk s) b = free_bit s b.
Proof.
  intros Hb Hbm Hs. unfold free_bit, disk_bit. rewrite Hbm.
  destruct (bit_word_split b Hb) as (o & Hw & Ho & _). rewrite Hw, <- Hs by done. do 2 f_equal.
  pose proof (bitmap_block_range b Hb). unfold bit_word in Hw.
  rewrite !diskaddr_eq in Hw by lia. unfold BY2BLK, BY2PG. lia.
Qed.

Lemma bit_cleared_words s b o c : mounted s -> 0 <= b < nblocks s -> 0 <= c < 2 ^ 18 ->
  c <> bitmap_block b -> 0 <= o < BY2BLK ->
  fmem (allocated s b) (diskaddr c + o) = fmem s (diskaddr c + o).
Proof.
  intros Hm Hb Hc Hne Ho. pose proof (m_nblocks _ Hm) as Hn. rewrite MAXBLOCKS_eq in Hn.
  unfold allocated, bit_cleared. cbn [fmem set_disk set_fmem]. apply upd_other. intros E.
  rewrite (m_bitmap _ Hm) in E. destruct (bit_word_split b ltac:(lia)) as (o' & Hw & Ho' & _).
  rewrite Hw in E. pose proof (bitmap_block_range b ltac:(lia)).
  rewrite !diskaddr_eq in E by lia. unfold BY2BLK, BY2PG in *. apply Hne. lia.
Qed.

Lemma free_bit_allocated s b x : 0 <= b -> 0 <= x ->
  free_bit (allocated s b) x = negb (b =? x) && free_bit s x.
Proof. exact (free_bit_cleared s b x). Qed.
