(* ===== verification/FsProps.v ===== *)
(** * Properties of the file server

    Mounting, the block allocator, write back, and directory lookup. *)
From S2P Require Import Prelude Mmu UserMem Fs FsBlocks FsFiles FsMount.

(** ** Examples: a disk of eight blocks, of which 4 to 7 are free; block 3
    holds the root directory's only block, with one file, "a". *)
Definition ex_disk (x : Z) : Z :=
  if x =? 4096 then FS_MAGIC else if x =? 4100 then 8
  else if x =? 2 * 4096 then 0xF0
  else if x =? 4096 + 8 + 128 then 4096 else if x =? 4096 + 8 + 132 then FTYPE_DIR
  else if x =? 4096 + 8 + 136 then 3
  else if x =? 3 * 4096 then 97 else 0.
Definition ex_start : fsst := mkFs (fun _ => 0) (fun _ => false) 0 0 ex_disk 16.
Definition ex_fs : fsst :=
  match fs_init ex_start with Ret _ s => s | _ => ex_start end.
Definition ex_root : Z := s_root (super ex_fs).


Lemma ex_fs_mounted : mounted ex_fs.
Proof.
  assert (Hn : nblocks ex_fs = 8) by (vm_compute; reflexivity).
  split; [vm_compute; reflexivity..|rewrite Hn, MAXBLOCKS_eq; lia|vm_compute; reflexivity|].
  rewrite Hn. intros b Hb.
  unfold bitmap_block. change BIT2BLK with 32768.
  replace (b / 32768) with 0 by (Z.div_mod_to_equations; lia). vm_compute. reflexivity.
Qed.

(** ** Mounting *)

(** [fs_init] on a valid disk: with the magic number, a size within the
    limits and the blocks below the data marked used, it returns a mounted
    file system whose super block and bitmap are those of the disk, with only
    these and the boot block in the cache, and the disk is what it was,
    although the super block is overwritten and restored on the way. *)
Lemma fs_init_correct s :
  super s = 0 -> bitmap s = 0 -> (forall b, 0 <= b < 2 ^ 18 -> cached s b = false) ->
  let f := disk_block (disk s) 1 in
  f 0 = FS_MAGIC -> 3 <= f 4 <= MAXBLOCKS -> f 4 / BIT2BLK + 3 <= pages_left s ->
  (forall b, 0 <= b <= f 4 / BIT2BLK + 2 -> disk_bit (disk s) b = false) ->
  exists s', fs_init s = Ret tt s' /\ mounted s' /\ nblocks s' = f 4 /\ block_is s' 1 f /\
    (forall b, 0 <= b < f 4 -> free_bit s' b = disk_bit (disk s) b) /\
    (forall c o, 0 <= o < BY2BLK -> o mod 4 = 0 ->
       disk s' (c * BY2BLK + o) = disk s (c * BY2BLK + o)) /\
    pages_left s' = pages_left s - (f 4 / BIT2BLK + 3) /\ cached s' 0 = true /\
    (forall c, f 4 / BIT2BLK + 2 < c < 2 ^ 18 -> cached s' c = false).
Proof. exact (fs_init_run s). Qed.

Lemma fs_init_correct_witness :
  exists s', fs_init ex_start = Ret tt s' /\ mounted s' /\ nblocks s' = 8.
Proof.
  destruct (fs_init_correct ex_start) as (s' & Hr & Hm & Hn & _);
    [reflexivity|reflexivity|intros b _; reflexivity|vm_compute; reflexivity
    |vm_compute; split; discriminate|vm_compute; discriminate| |].
  - intros b Hb. change (disk_block (disk ex_start) 1 4 / BIT2BLK + 2) with 2 in Hb.
    assert (b = 0 \/ b = 1 \/ b = 2) as [-> | [-> | -> ]] by lia; reflexivity.
  - exists s'. split; [exact Hr|]. split; [exact Hm|exact Hn].
Defined.

(** ** Allocation *)

(** [alloc_block] on a mounted file system takes the lowest free block
    from 3 on and caches it: exactly its bit is cleared, and the bitmap block
    on the disk is the one in memory.  A block that was not cached comes
    zeroed; one that was still cached keeps its old contents.  With no free
    block it fails with [-E_NO_DISK] and changes nothing; with no page for
    the cache it fails with [-E_NO_MEM] and the bitmap in memory is what it
    was, but on the disk the block stays marked used. *)
Lemma alloc_block_correct s : mounted s ->
  (exists b s', alloc_block s = Ret b s' /\ 3 <= b < nblocks s /\ free_bit s b = true /\
     (forall x, 3 <= x < b -> free_bit s x = false) /\
     mounted s' /\ nblocks s' = nblocks s /\ cached s' b = true /\
     (forall x, 0 <= x < nblocks s -> free_bit s' x = negb (b =? x) && free_bit s x) /\
     (forall o, 0 <= o < BY2BLK -> o mod 4 = 0 ->
        disk s' (bitmap_block b * BY2BLK + o) = fmem s' (diskaddr (bitmap_block b) + o)) /\
     (b <> bitmap_block b -> forall o, 0 <= o < BY2BLK -> o mod 4 = 0 ->
        fmem s' (diskaddr b + o) = if cached s b then fmem s (diskaddr b + o) else 0)) \/
  ((forall x, 3 <= x < nblocks s -> free_bit s x = false) /\
   alloc_block s = Ret (- E_NO_DISK) s) \/
  (exists b s', alloc_block s = Ret (- E_NO_MEM) s' /\ pages_left s <= 0 /\
     3 <= b < nblocks s /\ free_bit s b = true /\ mounted s' /\
     (forall x, 0 <= x < nblocks s -> free_bit s' x = free_bit s x) /\
     disk_bit (disk s') b = false).
Proof.
  intros Hm. pose proof (m_nblocks _ Hm) as Hn. rewrite MAXBLOCKS_eq in Hn. unfold alloc_block.
  destruct (alloc_block_num_run s Hm) as [(b & Hb & Hf & Hlow & Hr)|[Hall Hr]].
  2: { right; left. split; [done|]. by rewrite (bind_step _ _ _ _ _ Hr). }
  rewrite (bind_step _ _ _ _ _ Hr). destruct (Z.ltb_spec b 0); [lia|].
  destruct (allocated_mounted s Hm b ltac:(lia)) as [Hm1 Hn1].
  pose proof (bitmap_block_range b ltac:(lia)) as Hbb.
  assert (Hf1 : forall x, 0 <= x -> free_bit (allocated s b) x = negb (b =? x) && free_bit s x).
  { intros x Hx. apply free_bit_cleared; lia. }
  pose proof (allocated_synced s b) as Hsync. set (s1 := allocated s b) in *.
  assert (Hd1 : disk_bit (disk s1) b = false).
  { rewrite (synced_bit s1) by (done || lia || apply Hm1). rewrite Hf1 by lia.
    by rewrite Z.eqb_refl. }
  destruct (cached s b) eqn:Hc.
  { left. exists b, s1. rewrite (bind_step _ _ s1 0 s1).
    2: { rewrite map_block_run by lia. by rewrite (Hc : cached s1 b = true). }
    split_and!; try (done || lia).
    - intros x Hx. apply Hf1. lia.
    - intros o Ho _. by apply Hsync.
    - intros Hne o Ho _. rewrite Hc. apply bit_cleared_words; (done || lia). }
  assert (Hnb : forall x, 0 <= x < nblocks s1 -> b <> bitmap_block x).
  { intros x Hx E. pose proof (m_bitmap_cached _ Hm x ltac:(lia)). congruence. }
  destruct (Z.leb_spec (pages_left s) 0) as [Hp|Hp].
  - right; right. exists b, (bit_set s1 b).
    rewrite (bind_step _ _ s1 (- E_NO_MEM) s1).
    2: { rewrite map_block_run by lia. rewrite (Hc : cached s1 b = false).
      unfold syscall_mem_alloc. by rewrite (proj2 (Z.leb_le (pages_left s1) 0)). }
    destruct (mounted_bitmap_write s1 Hm1 b
      (Z.lor (fmem s1 (bit_word (bitmap s1) b)) (bit_of b)) ltac:(lia)) as [Hm2 Hn2].
    change (- E_NO_MEM <? 0) with true. cbv iota.
    rewrite (bind_step _ _ s1 tt (bit_set s1 b)).
    2: { rewrite (free_block_run _ Hm1) by lia.
      rewrite (proj2 (Z.eqb_neq b 0)), (proj2 (Z.leb_gt _ _)) by lia. done. }
    split_and!; try (done || lia). intros x Hx. rewrite free_bit_set, Hf1 by lia.
    destruct (Z.eqb_spec b x) as [->|]; [by rewrite Hf|done].
  - left. destruct (mem_alloc_step s1 b ltac:(lia) Hp) as (s2 & Hr2 & Ho2 & [Hc2 Hz2] & Hd2 & _).
    destruct (off_block_mounted s1 s2 b Hm1 Ho2 ltac:(lia) Hnb) as (Hm2 & Hn2 & Hf2).
    exists b, s2. rewrite (bind_step _ _ s1 0 s2).
    2: { rewrite map_block_run by lia. by rewrite (Hc : cached s1 b = false). }
    split_and!; try (done || lia || congruence).
    + intros x Hx. rewrite Hf2, Hf1 by lia. done.
    + intros o Ho Hal. rewrite Hd2, (ob_words _ _ _ Ho2); try (done || lia).
      * by apply Hsync.
      * intros E. by apply (Hnb b ltac:(lia)).
    + intros _ o Ho Hal. rewrite Hc. by apply Hz2.
Qed.

Lemma alloc_block_correct_witness :
  mounted ex_fs /\ exists r s', alloc_block ex_fs = Ret r s'.
Proof.
  split; [exact ex_fs_mounted|].
  destruct (alloc_block_correct ex_fs ex_fs_mounted)
    as [(b & s' & Hr & _)|[[_ Hr]|(b & s' & Hr & _)]]; eexists _, _; exact Hr.
Defined.

(** [free_block] sets exactly the bit of its block, for a block of the
    disk other than 0, in memory and not on the disk; the file system stays
    mounted, [block_is_free] reads the bit back, and freeing what
    [alloc_block_num] just took restores every bit. *)
Lemma free_block_correct s b : mounted s -> 0 <= b ->
  exists s', free_block b s = Ret tt s' /\ mounted s' /\ nblocks s' = nblocks s /\
    disk s' = disk s /\
    (forall x, 0 <= x -> free_bit s' x =
       ((b =? x) && negb (b =? 0) && (b <? nblocks s)) || free_bit s x) /\
    (0 < b < nblocks s -> block_is_free b s' = Ret true s') /\
    (forall s0, mounted s0 -> alloc_block_num s0 = Ret b s -> 0 < b ->
       forall x, 0 <= x -> free_bit s' x = free_bit s0 x).
Proof.
  intros Hm Hb. exists (if (b =? 0) || (nblocks s <=? b) then s else bit_set s b).
  split; [by apply free_block_run|].
  assert (Hall : forall x, 0 <= x ->
    free_bit (if (b =? 0) || (nblocks s <=? b) then s else bit_set s b) x =
    ((b =? x) && negb (b =? 0) && (b <? nblocks s)) || free_bit s x).
  { intros x Hx. destruct (Z.eqb_spec b 0), (Z.leb_spec (nblocks s) b), (Z.ltb_spec b (nblocks s));
      cbn [orb negb]; rewrite ?andb_false_r, ?andb_true_r; try (done || lia).
    by apply free_bit_set. }
  assert (Hm' : mounted (if (b =? 0) || (nblocks s <=? b) then s else bit_set s b) /\
    nblocks (if (b =? 0) || (nblocks s <=? b) then s else bit_set s b) = nblocks s).
  { destruct (Z.eqb_spec b 0); [done|]. destruct (Z.leb_spec (nblocks s) b); [done|].
    apply mounted_bitmap_write; (done || lia). }
  split; [apply Hm'|]. split; [apply Hm'|]. split; [by destruct (_ || _)|]. split; [exact Hall|].
  split.
  - intros Hlt. rewrite block_is_free_run by (apply Hm' || lia). rewrite (proj2 Hm'), Hall by lia.
    rewrite Z.eqb_refl, (proj2 (Z.leb_gt _ _)), (proj2 (Z.eqb_neq b 0)), (proj2 (Z.ltb_lt _ _)) by lia.
    done.
  - intros s0 Hm0 Ha Hpos x Hx. rewrite Hall by done.
    destruct (alloc_block_num_run s0 Hm0) as [(j & Hj & Hf & _ & Hr)|[_ Hr]]; rewrite Hr in Ha.
    + injection Ha as <- <-. destruct (allocated_mounted s0 Hm0 j ltac:(lia)) as [_ Hn].
      rewrite Hn, (proj2 (Z.eqb_neq j 0)), (proj2 (Z.ltb_lt j _)) by lia.
      rewrite (free_bit_allocated s0 j x) by lia.
      destruct (Z.eqb_spec j x) as [<-|]; [by rewrite Hf|done].
    + injection Ha as <- _. exfalso. clear -Hb. change (0 <= -8) in Hb. lia.
Qed.

Lemma free_block_correct_witness :
  exists s', free_block 3 ex_fs = Ret tt s' /\ free_bit s' 3 = true.
Proof.
  destruct (free_block_correct ex_fs 3 ex_fs_mounted ltac:(lia))
    as (s' & Hr & _ & _ & _ & Hf & _).
  exists s'. split; [exact Hr|]. rewrite (Hf 3 ltac:(lia)).
  replace (nblocks ex_fs) with 8 by (vm_compute; reflexivity). reflexivity.
Defined.

(** ** Write back *)

(** C29. Durability: after [fs_sync] every cached block of the disk has the
    contents of the cache on the disk, the other blocks of the disk are
    untouched, and nothing else changes. *)
Theorem fs_sync_correct s : mounted s ->
  exists d, fs_sync s = Ret tt (set_disk d s) /\
    (forall b, 0 <= b < nblocks s -> cached s b = true -> synced (set_disk d s) b) /\
    (forall b o, 0 <= o < BY2BLK -> nblocks s <= b \/ cached s b = false ->
       d (b * BY2BLK + o) = disk s (b * BY2BLK + o)).
Proof.
  intros Hm. pose proof (m_nblocks _ Hm) as Hn. rewrite MAXBLOCKS_eq in Hn.
  unfold fs_sync. rewrite (bind_step _ _ s s s) by done.
  rewrite (bind_step _ _ _ _ _ (nblocks_run _ Hm)).
  destruct (sync_blocks_run (seqZ 0 (nblocks s)) s) as (d & Hr & Hs & Hk).
  { intros b Hb. apply elem_of_seqZ in Hb. lia. }
  exists d. split; [exact Hr|]. split.
  - intros b Hb. apply Hs, elem_of_seqZ. lia.
  - intros b o Ho Hb. apply Hk; [done|]. rewrite elem_of_seqZ. destruct Hb; [left; lia|by right].
Qed.

Lemma fs_sync_correct_witness :
  exists d, fs_sync ex_fs = Ret tt (set_disk d ex_fs) /\ synced (set_disk d ex_fs) 1.
Proof.
  destruct (fs_sync_correct ex_fs ex_fs_mounted) as (d & Hr & Hs & _).
  exists d. split; [exact Hr|]. apply Hs.
  - replace (nblocks ex_fs) with 8 by (vm_compute; reflexivity). lia.
  - vm_compute. reflexivity.
Defined.

(** Eviction is transparent: writing a used block back, unmapping it and
    reading it again gives the same contents at the same address. *)
Lemma block_reload s b : mounted s -> 0 <= b < nblocks s -> cached s b = true ->
  free_bit s b = false -> b <> 1 -> (forall x, 0 <= x < nblocks s -> b <> bitmap_block x) ->
  0 <= pages_left s ->
  exists s', (write_block b ;! syscall_mem_unmap (diskaddr b) ;! read_block b) s =
      Ret (diskaddr b, 1) s' /\ mounted s' /\ pages_left s' = pages_left s /\
    (forall c o, 0 <= c < 2 ^ 18 -> 0 <= o < BY2BLK -> o mod 4 = 0 ->
       fmem s' (diskaddr c + o) = fmem s (diskaddr c + o)).
Proof.
  intros Hm Hb Hc Hf H1 Hbm Hp. pose proof (m_nblocks _ Hm) as Hn. rewrite MAXBLOCKS_eq in Hn.
  assert (Hw : block_is s b (fun o => fmem s (diskaddr b + o))) by done.
  destruct (write_block_step s b _ ltac:(lia) Hw) as (s1 & Hr1 & Ho1 & [Hc1 Hw1] & Hp1 & Hd1 & _).
  destruct (off_block_mounted s s1 b Hm Ho1 H1 Hbm) as (Hm1 & Hn1 & Hf1).
  destruct (unmap_step s1 b ltac:(lia) Hc1) as (s2 & Hr2 & Ho2 & Hc2 & Hd2 & Hp2).
  destruct (off_block_mounted s1 s2 b Hm1 Ho2 H1) as (Hm2 & Hn2 & Hf2); [by rewrite Hn1|].
  rewrite (bind_step _ _ _ _ _ Hr1), (bind_step _ _ _ _ _ Hr2).
  rewrite (read_block_run s2 b Hm2), Hc2; [|lia|by rewrite Hf2, Hf1 by lia|right; lia].
  destruct (loaded_off s2 b ltac:(lia)) as [Ho3 [_ Hw3]].
  destruct (off_block_mounted s2 _ b Hm2 Ho3 H1) as (Hm3 & _ & _); [by rewrite Hn2, Hn1|].
  eexists. split; [done|]. split; [done|]. split; [cbn; lia|]. intros c o Hcr Ho Hal.
  destruct (decide (c = b)) as [->|Hne].
  - rewrite Hw3 by done. unfold disk_block. rewrite Hd2. by apply Hd1.
  - by rewrite (ob_words _ _ _ Ho3), (ob_words _ _ _ Ho2), (ob_words _ _ _ Ho1).
Qed.

Lemma ex_fs_nblocks : nblocks ex_fs = 8.
Proof. vm_compute. reflexivity. Qed.

Lemma ex_fs_bitmap_block x : 0 <= x < nblocks ex_fs -> bitmap_block x = 2.
Proof.
  rewrite ex_fs_nblocks. intros Hx. unfold bitmap_block. change BIT2BLK with 32768.
  Z.div_mod_to_equations. lia.
Qed.

Lemma block_reload_witness :
  exists s', (write_block 0 ;! syscall_mem_unmap (diskaddr 0) ;! read_block 0) ex_fs =
    Ret (diskaddr 0, 1) s' /\ mounted s'.
Proof.
  destruct (block_reload ex_fs 0 ex_fs_mounted) as (s' & Hr & Hm & _);
    [rewrite ex_fs_nblocks; lia|vm_compute; reflexivity|vm_compute; reflexivity|lia
    |intros x Hx; rewrite (ex_fs_bitmap_block x Hx); lia|vm_compute; discriminate|].
  exists s'. split; [exact Hr|exact Hm].
Defined.

(** ** Paths and directories *)

(** [walk_path] returns on every path whatever [dir_lookup] does, and
    depends only on the elements of the path: it is the resolution of the list
    of names between slashes, one directory after the other from the root, so
    that leading, repeated and trailing slashes are meaningless; the error of
    the last lookup is reported with the directory and the name, any other
    failure without. *)
Lemma walk_path_elements path s :
  walk_path path s = resolve 0 (s_root (super s)) (path_elements path) s.
Proof.
  unfold walk_path. rewrite (bind_step _ _ s s s) by done. rewrite <- path_elements_skip.
  apply walk_from_resolve; [done|apply skip_slash_head].
Qed.

(** A directory of at most [NDIRECT] blocks, all of them in the cache. *)
Definition dir_cached (s : fsst) (dir : Z) : Prop :=
  (exists b, in_block s b dir BY2FILE) /\
  0 <= fmem s (f_size dir) / BY2BLK <= NDIRECT /\
  (forall i, 0 <= i < fmem s (f_size dir) / BY2BLK -> block_ready s (fmem s (f_direct dir i))).

(** [dir_lookup] in a cached directory returns the first slot, block by
    block and slot by slot, whose name is [name], with its [f_dir] set to the
    directory and nothing else changed; with no such slot it returns
    [-E_NOT_FOUND] and changes nothing. *)
Lemma dir_lookup_correct s dir name :
  mounted s -> dir_cached s dir -> Z.of_nat (length name) < MAXNAMELEN ->
  dir_lookup dir name s =
  match List.find (fun f => str_at (fmem s) (f_name f) name)
          (dir_slots s dir (seqZ 0 (fmem s (f_size dir) / BY2BLK))) with
  | Some f => Ret (OK f) (set_fmem (upd (fmem s) (f_dir f) dir) s)
  | None => Ret (Err (- E_NOT_FOUND)) s
  end.
Proof.
  intros Hm ([b Hd] & Hn & Hr) Hlen. unfold dir_lookup.
  rewrite (bind_step _ _ _ _ _ (lw_run _ _ (in_block_mapped s b dir BY2FILE (f_size dir) Hd
    ltac:(unfold f_size, BY2FILE; lia)))).
  apply (dir_lookup_blocks_run s b); try done.
  intros i Hi. apply elem_of_seqZ in Hi. split; [lia|]. apply Hr. lia.
Qed.

(** The example with the root directory's block read in. *)
Definition ex_dirfs : fsst :=
  match read_block 3 ex_fs with Ret _ s => s | _ => ex_fs end.

Lemma ex_dirfs_mounted : mounted ex_dirfs.
Proof.
  assert (Hn : nblocks ex_dirfs = 8) by (vm_compute; reflexivity).
  split; [vm_compute; reflexivity..|rewrite Hn, MAXBLOCKS_eq; lia|vm_compute; reflexivity|].
  rewrite Hn, <- ex_fs_nblocks. intros b Hb. rewrite (ex_fs_bitmap_block b Hb).
  vm_compute. reflexivity.
Qed.

Lemma ex_dirfs_root : dir_cached ex_dirfs (diskaddr 1 + 8).
Proof.
  assert (Hs : fmem ex_dirfs (f_size (diskaddr 1 + 8)) / BY2BLK = 1) by (vm_compute; reflexivity).
  assert (Hb : fmem ex_dirfs (f_direct (diskaddr 1 + 8) 0) = 3) by (vm_compute; reflexivity).
  unfold dir_cached. rewrite Hs. split; [|split].
  - exists 1. repeat split; (lia || (vm_compute; (reflexivity || discriminate))).
  - unfold NDIRECT. lia.
  - intros i Hi. replace i with 0 by lia. rewrite Hb.
    split; [|split; vm_compute; reflexivity].
    replace (nblocks ex_dirfs) with 8 by (vm_compute; reflexivity). lia.
Qed.

Lemma dir_lookup_correct_witness :
  dir_lookup (diskaddr 1 + 8) [98] ex_dirfs = Ret (Err (- E_NOT_FOUND)) ex_dirfs.
Proof.
  rewrite (dir_lookup_correct ex_dirfs (diskaddr 1 + 8) [98] ex_dirfs_mounted ex_dirfs_root);
    [|reflexivity].
  replace (List.find _ _) with (@None Z) by (vm_compute; reflexivity). reflexivity.
Defined.
