(* ===== verification/Serv.v ===== *)
(** * The file server's request loop (fs/serv.c, user/include/fsreq.h, fd.h)

    The server's state is the block layer's, the table of open files and, for
    each page it shares, the number of clients that map it.  The Filefd pages
    lie in the server's memory at [FILEVA]; [pageref] of one counts the
    server's own mapping and the clients'.  A request is its code and the page
    received at [REQVA]; a reply is an entry of the log [sent]. *)
From S2P Require Import Prelude Mmu UserMem Fs.

Definition MAXOPEN : Z := 1024.
Definition FILEVA : Z := 0x60000000.
Definition REQVA : Z := 0x0ffff000.
Definition MAXPATHLEN : Z := 1024.

Definition FSREQ_OPEN : Z := 1.
Definition FSREQ_MAP : Z := 2.
Definition FSREQ_SET_SIZE : Z := 3.
Definition FSREQ_CLOSE : Z := 4.
Definition FSREQ_DIRTY : Z := 5.
Definition FSREQ_REMOVE : Z := 6.
Definition FSREQ_SYNC : Z := 7.

(** [devfile.dev_id], the character f. *)
Definition DEVFILE_ID : Z := 102.

(** Offsets in [struct Filefd]. *)
Definition fd_dev_id (fd : Z) : Z := fd.
Definition fd_offset (fd : Z) : Z := fd + 4.
Definition fd_omode (fd : Z) : Z := fd + 8.
Definition f_fileid (ff : Z) : Z := ff + 12.
Definition f_file (ff : Z) : Z := ff + 16.

Record Open : Type := mkOpen { o_file : Z; o_fileid : Z; o_mode : Z; o_ff : Z }.

(** One [ipc_send]. *)
Record msg : Type := mkMsg { m_to : Z; m_val : Z; m_srcva : Z; m_perm : Z }.

Record srv : Type := mkSrv {
  s_fs : fsst;
  opentab : Z -> Open;
  clients : Z -> Z;      (* by page: mappings in other address spaces *)
  sent : list msg        (* latest first *)
}.
Definition set_s_fs (v : fsst) (s : srv) : srv := mkSrv v (opentab s) (clients s) (sent s).
Definition set_opentab (v : Z -> Open) (s : srv) : srv := mkSrv (s_fs s) v (clients s) (sent s).
Definition set_clients (v : Z -> Z) (s : srv) : srv := mkSrv (s_fs s) (opentab s) v (sent s).
Definition set_sent (v : list msg) (s : srv) : srv := mkSrv (s_fs s) (opentab s) (clients s) v.

Abbreviation SM := (M srv).
Definition fs {A} (m : FM A) : SM A := zoom s_fs set_s_fs m.

Definition set_open (i : Z) (f : Open -> Open) : SM unit :=
  modify (fun s => set_opentab (upd (opentab s) i (f (opentab s i))) s).

(** user/lib/pageref.c on a page of the server. *)
Definition pageref (va : Z) : SM Z :=
  gets (fun s => if fmapped (s_fs s) (VPN va) then 1 + clients s (VPN va) else 0).

(** user/lib/ipc.c: the receiver is waiting for the reply; a page sent is one
    mapping more. *)
Definition ipc_send (whom val srcva perm : Z) : SM unit :=
  modify (fun s =>
    set_sent (mkMsg whom (u32 val) srcva perm :: sent s)
      (if srcva =? 0 then s
       else set_clients (upd (clients s) (VPN srcva) (clients s (VPN srcva) + 1)) s)).

Definition serve_init : SM unit :=
  forM (seqZ 0 MAXOPEN) (fun i =>
    set_open i (fun o => mkOpen (o_file o) i (o_mode o) (u32 (FILEVA + i * BY2PG)))).

(** [memset] of a page. *)
Definition zero_page (va : Z) : FM unit :=
  let! _ := lw va in
  modify (fun s => set_fmem (fun x =>
    if (va <=? x) && (x <? va + BY2PG) then 0 else fmem s x) s).

(** The body of the loop of [open_alloc] at a usable entry, after the page is
    there; the result is the [int] [o_fileid] and the entry. *)
Definition open_take (i : Z) : SM (Z * Z) :=
  set_open i (fun o => mkOpen (o_file o) (u32 (o_fileid o + MAXOPEN)) (o_mode o) (o_ff o)) ;!
  let! s := get in
  fs (zero_page (o_ff (opentab s i))) ;!
  ret (s32 (o_fileid (opentab s i)), i).

Fixpoint open_alloc_from (l : list Z) : SM (Z * Z) :=
  match l with
  | [] => ret (- E_MAX_OPEN, 0)
  | i :: l =>
      let! s := get in
      let! r := pageref (o_ff (opentab s i)) in
      if r =? 0 then
        let! e := fs (syscall_mem_alloc (o_ff (opentab s i))) in
        if e <? 0 then ret (e, 0) else open_take i
      else if r =? 1 then open_take i
      else open_alloc_from l
  end.

(** [open_alloc]: the value returned and, when it is not negative, the entry. *)
Definition open_alloc : SM (Z * Z) := open_alloc_from (seqZ 0 MAXOPEN).

(** [open_lookup]: the entry. *)
Definition open_lookup (envid fileid : Z) : SM (result Z) :=
  let i := fileid mod MAXOPEN in
  let! s := get in
  let! r := pageref (o_ff (opentab s i)) in
  if (r =? 1) || negb (o_fileid (opentab s i) =? fileid) then ret (Err (- E_INVAL))
  else ret (OK i).

(** Reply with an error, or go on. *)
Definition or_reply {A} (envid : Z) (m : SM (result A)) (k : A -> SM unit) : SM unit :=
  let! r := m in
  match r with OK a => k a | Err e => ipc_send envid e 0 0 end.
Definition or_reply_z (envid : Z) (m : SM Z) (k : SM unit) : SM unit :=
  let! r := m in
  if r <? 0 then ipc_send envid r 0 0 else k.

(** [ff->f_file = *f]: 64 words. *)
Definition copy_file (dst src : Z) : FM unit :=
  forM (seqZ 0 64) (fun k => let! w := lw (src + 4 * k) in sw (dst + 4 * k) w).

(** The bytes at the start of the request page up to the terminator; a path
    that is not terminated within the page is a [Fault]. *)
Fixpoint cstring (n : nat) (page : Z -> Z) (o : Z) : SM (list Z) :=
  match n with
  | O => fault
  | S n =>
      if mem_byte page o =? 0 then ret []
      else let! l := cstring n page (o + 1) in ret (mem_byte page o :: l)
  end.
Definition req_path (page : Z -> Z) : SM (list Z) := cstring (Z.to_nat BY2PG) page 0.

Definition serve_open (envid : Z) (rq : Z -> Z) : SM unit :=
  let! a := open_alloc in
  if fst a <? 0 then ipc_send envid (fst a) 0 0
  else
    let i := snd a in
    let! path := req_path rq in
    or_reply envid (fs (file_open path)) (fun f =>
      set_open i (fun o => mkOpen f (o_fileid o) (o_mode o) (o_ff o)) ;!
      let! s := get in
      let ff := o_ff (opentab s i) in
      fs (copy_file (f_file ff) f) ;!
      fs (sw (f_fileid ff) (o_fileid (opentab s i))) ;!
      set_open i (fun o => mkOpen (o_file o) (o_fileid o) (rq MAXPATHLEN) (o_ff o)) ;!
      fs (sw (fd_omode ff) (rq MAXPATHLEN)) ;!
      fs (sw (fd_dev_id ff) DEVFILE_ID) ;!
      ipc_send envid 0 ff (Z.lor PTE_W PTE_LIBRARY)).

Definition serve_map (envid : Z) (rq : Z -> Z) : SM unit :=
  or_reply envid (open_lookup envid (rq 0)) (fun i =>
    let! s := get in
    or_reply envid (fs (file_get_block (o_file (opentab s i)) (rq 4 / BY2BLK))) (fun blk =>
      ipc_send envid 0 blk (Z.lor PTE_W PTE_LIBRARY))).

Definition serve_set_size (envid : Z) (rq : Z -> Z) : SM unit :=
  or_reply envid (open_lookup envid (rq 0)) (fun i =>
    let! s := get in
    or_reply_z envid (fs (file_set_size (o_file (opentab s i)) (rq 4)))
      (ipc_send envid 0 0 0)).

Definition serve_close (envid : Z) (rq : Z -> Z) : SM unit :=
  or_reply envid (open_lookup envid (rq 0)) (fun i =>
    let! s := get in
    fs (file_close (o_file (opentab s i))) ;!
    ipc_send envid 0 0 0).

Definition serve_remove (envid : Z) (rq : Z -> Z) : SM unit :=
  let! path := req_path rq in
  let! r := fs (file_remove path) in
  ipc_send envid r 0 0.

Definition serve_dirty (envid : Z) (rq : Z -> Z) : SM unit :=
  or_reply envid (open_lookup envid (rq 0)) (fun i =>
    let! s := get in
    or_reply_z envid (fs (file_dirty (o_file (opentab s i)) (rq 4)))
      (ipc_send envid 0 0 0)).

Definition serve_sync (envid : Z) : SM unit := fs fs_sync ;! ipc_send envid 0 0 0.

(** One turn of the loop of [serve]. *)
Definition serve (req whom perm : Z) (rq : Z -> Z) : SM unit :=
  if negb (truthy (Z.land perm PTE_V)) then ret tt
  else
    (if req =? FSREQ_OPEN then serve_open whom rq
     else if req =? FSREQ_MAP then serve_map whom rq
     else if req =? FSREQ_SET_SIZE then serve_set_size whom rq
     else if req =? FSREQ_CLOSE then serve_close whom rq
     else if req =? FSREQ_DIRTY then serve_dirty whom rq
     else if req =? FSREQ_REMOVE then serve_remove whom rq
     else if req =? FSREQ_SYNC then serve_sync whom
     else ret tt) ;!
    fs (syscall_mem_unmap REQVA).

(** A client drops a mapping of one of the server's pages, as when it closes a
    descriptor or exits. *)
Definition client_unmaps (va : Z) (s : srv) : srv :=
  set_clients (upd (clients s) (VPN va) (clients s (VPN va) - 1)) s.
