(* ===== verification/ServProps.v ===== *)
(** * Properties of the file server's request loop

    The open file table: identifiers, their freshness, and that no request of
    any client touches an entry another client still uses. *)
From S2P Require Import Prelude Mmu UserMem Fs FsFrame FsBlocks FsProps Serv.

Definition ff_va (i : Z) : Z := FILEVA + i * BY2PG.

(** Entry [i] has its Filefd page at its address and an identifier that
    belongs to it; a page has no negative number of mappings. *)
Definition table_ok (s : srv) : Prop := forall i, 0 <= i < MAXOPEN ->
  o_ff (opentab s i) = ff_va i /\
  0 <= o_fileid (opentab s i) < 2 ^ 32 /\ o_fileid (opentab s i) mod MAXOPEN = i /\
  0 <= clients s (VPN (ff_va i)).

(** Some client has the file of entry [i] open. *)
Definition in_use (s : srv) (i : Z) : Prop :=
  fmapped (s_fs s) (VPN (ff_va i)) = true /\ 1 <= clients s (VPN (ff_va i)).

Lemma ff_va_page i : 0 <= i < MAXOPEN -> VPN (ff_va i) = 0x60000 + i.
Proof.
  change MAXOPEN with 1024. intros H. unfold ff_va, FILEVA, BY2PG. rewrite VPN_div by lia.
  Z.div_mod_to_equations. lia.
Qed.

Lemma ff_va_inj i j : 0 <= i < MAXOPEN -> 0 <= j < MAXOPEN ->
  VPN (ff_va i) = VPN (ff_va j) -> i = j.
Proof. intros Hi Hj. rewrite !ff_va_page by done. lia. Qed.

Lemma mod_open_range n : 0 <= n mod MAXOPEN < MAXOPEN.
Proof. apply Z.mod_pos_bound. done. Qed.

(** The next identifier of an entry belongs to it too, and is another one. *)
Lemma next_id i id : 0 <= id < 2 ^ 32 -> id mod MAXOPEN = i ->
  0 <= u32 (id + MAXOPEN) < 2 ^ 32 /\ u32 (id + MAXOPEN) mod MAXOPEN = i /\
  u32 (id + MAXOPEN) <> id.
Proof.
  intros Hid <-. change MAXOPEN with 1024. split; [apply u32_range|]. unfold u32. split.
  - rewrite <- Znumtheory.Zmod_div_mod by (try lia; by exists (2 ^ 22)).
    replace (id + 1024) with (id + 1 * 1024) by lia. by rewrite Z.mod_add.
  - intros H. Z.div_mod_to_equations. lia.
Qed.

Lemma open_lookup_run envid id s : table_ok s ->
  open_lookup envid id s =
  Ret (let i := id mod MAXOPEN in
       if (fmapped (s_fs s) (VPN (ff_va i)) && (clients s (VPN (ff_va i)) =? 0))
          || negb (o_fileid (opentab s i) =? id)
       then Err (- E_INVAL) else OK i) s.
Proof.
  intros Ht. destruct (Ht _ (mod_open_range id)) as (Hff & _). unfold open_lookup.
  rewrite (bind_step _ _ s s s) by done. rewrite Hff. unfold pageref, bind, gets, ret.
  set (v := VPN _). destruct (fmapped (s_fs s) v); cbn [andb orb].
  - replace (1 + clients s v =? 1) with (clients s v =? 0).
    + by destruct (_ || _).
    + destruct (Z.eqb_spec (clients s v) 0), (Z.eqb_spec (1 + clients s v) 1); (done || lia).
  - by destruct (negb _).
Qed.

(** ** What a request keeps

    [srv_keeps j s s']: the table is still well formed and every entry but [j]
    that was in use is unchanged and in use. *)
Definition srv_keeps (j : Z) (s s' : srv) : Prop :=
  (table_ok s -> table_ok s') /\
  (forall i, 0 <= i < MAXOPEN -> i <> j -> in_use s i ->
     opentab s' i = opentab s i /\ in_use s' i).

Lemma srv_keeps_refl j s : srv_keeps j s s.
Proof. done. Qed.

Lemma srv_keeps_trans j s1 s2 s3 : srv_keeps j s1 s2 -> srv_keeps j s2 s3 -> srv_keeps j s1 s3.
Proof.
  intros [T1 K1] [T2 K2]. split; [auto|]. intros i Hi Hj Hu.
  destruct (K1 i Hi Hj Hu) as [E1 U1], (K2 i Hi Hj U1) as [E2 U2]. split; [congruence|done].
Qed.

#[global] Instance srv_keeps_preorder j : PreOrder (srv_keeps j).
Proof. split; [exact (srv_keeps_refl j)|exact (srv_keeps_trans j)]. Qed.

Lemma srv_keeps_weaken j s s' : srv_keeps (-1) s s' -> srv_keeps j s s'.
Proof. intros [T K]. split; [done|]. intros i Hi _. apply K; lia. Qed.

(** [m] keeps the entries other than [j] when it returns. *)
Definition skeeps {A} (j : Z) (m : SM A) : Prop :=
  forall s a s', m s = Ret a s' -> srv_keeps j s s'.

Lemma skeeps_ret {A} j (a : A) : skeeps j (ret a).
Proof. by intros s b s' [= -> ->]. Qed.

Lemma skeeps_get j : skeeps j get.
Proof. by intros s b s' [= -> ->]. Qed.

Lemma skeeps_fault {A} j : skeeps j (fault (A := A)).
Proof. by intros s b s' [=]. Qed.

Lemma skeeps_bind {A B} j (m : SM A) (k : A -> SM B) :
  skeeps j m -> (forall a, skeeps j (k a)) -> skeeps j (bind m k).
Proof. intros Hm Hk s b s'' (a & s' & H1 & H2)%bind_inv. etransitivity; [by eapply Hm|by eapply Hk]. Qed.

Lemma skeeps_fs {A} j (m : FM A) : keeps m -> skeeps j (fs m).
Proof.
  intros Hm s a s' H. unfold fs, zoom in H. destruct (m (s_fs s)) eqn:E; try done.
  injection H as <- <-. destruct (Hm _ _ _ E) as (_ & _ & Hp). split; [done|].
  intros i Hi _ [Hmap Hc]. split; [done|]. split; [by apply Hp|done].
Qed.

Lemma skeeps_ipc_send j whom v va perm : skeeps j (ipc_send whom v va perm).
Proof.
  intros s a s' [= <- <-]. split.
  { intros Ht i Hi. destruct (Ht i Hi) as (E1 & E2 & E3 & E4).
    destruct (va =? 0); [done|]. do 3 (split; [done|]). cbn [clients set_clients set_sent].
    rewrite upd_case. case_decide as E; [rewrite <- E|]; lia. }
  intros i Hi _ [Hm Hc]. unfold in_use. destruct (va =? 0); [done|]. split; [done|]. split; [done|].
  cbn [clients set_clients set_sent]. rewrite upd_case. case_decide as E; [rewrite <- E|]; lia.
Qed.

Lemma skeeps_pageref j va : skeeps j (pageref va).
Proof. by intros s a s' [= <- <-]. Qed.

Lemma skeeps_set_open j f :
  (forall o, o_ff (f o) = o_ff o) ->
  (forall o, 0 <= o_fileid o < 2 ^ 32 -> 0 <= o_fileid (f o) < 2 ^ 32) ->
  (forall o, 0 <= o_fileid o < 2 ^ 32 -> o_fileid (f o) mod MAXOPEN = o_fileid o mod MAXOPEN) ->
  skeeps j (set_open j f).
Proof.
  intros H1 H2 H3 s a s' [= <- <-]. split.
  - intros Ht i Hi. destruct (Ht i Hi) as (E1 & E2 & E3 & E4). cbn [opentab set_opentab].
    rewrite upd_case. case_decide as Ei; [subst j|done].
    rewrite H1. split; [done|]. split; [by apply H2|]. by rewrite H3.
  - intros i Hi Hne Hu. split; [|done]. cbn. by rewrite upd_other.
Qed.

Create HintDb srv_keeps discriminated.
#[export] Hint Resolve skeeps_ret skeeps_get skeeps_fault skeeps_bind skeeps_fs skeeps_ipc_send
  skeeps_pageref : srv_keeps.

Ltac skeeps_step :=
  match goal with
  | |- forall _, _ => intros ?
  | |- skeeps _ (if ?b then _ else _) => destruct b
  | |- skeeps _ (match ?x with _ => _ end) => destruct x
  | |- skeeps _ (bind _ _) => apply skeeps_bind
  | |- skeeps _ (fs _) => apply skeeps_fs; solve [auto 2 with fs_keeps | keeps_walk]
  | |- skeeps _ (or_reply _ _ _) => unfold or_reply
  | |- skeeps _ (or_reply_z _ _ _) => unfold or_reply_z
  | |- skeeps _ (set_open _ _) => apply skeeps_set_open; done
  | |- skeeps _ _ => solve [auto 2 with srv_keeps]
  end.
Ltac skeeps_walk := repeat skeeps_step.

Lemma skeeps_open_lookup j envid id : skeeps j (open_lookup envid id).
Proof. unfold open_lookup. skeeps_walk. Qed.

Lemma skeeps_req_path j page : skeeps j (req_path page).
Proof.
  unfold req_path. generalize (Z.to_nat BY2PG) as n, 0 as o. induction n as [|n IH]; intros o;
    cbn [cstring]; skeeps_walk.
Qed.
#[export] Hint Resolve skeeps_open_lookup skeeps_req_path : srv_keeps.

Lemma keeps_zero_page va : keeps (zero_page va).
Proof. unfold zero_page. keeps_walk. Qed.
Lemma keeps_copy_file dst src : keeps (copy_file dst src).
Proof. unfold copy_file. keeps_walk. Qed.
#[export] Hint Resolve keeps_zero_page keeps_copy_file : fs_keeps.

(** ** Allocating an entry *)

(** Entry [i] was taken: a new identifier, a zeroed mapped page, nothing else
    changed. *)
Record taken (s : srv) (i : Z) (s' : srv) : Prop := {
  tk_tab : opentab s' = upd (opentab s) i
    (let o := opentab s i in mkOpen (o_file o) (u32 (o_fileid o + MAXOPEN)) (o_mode o) (o_ff o));
  tk_clients : clients s' = clients s;
  tk_sent : sent s' = sent s;
  tk_mapped p : fmapped (s_fs s') p = (p =? VPN (ff_va i)) || fmapped (s_fs s) p;
  tk_zero o : 0 <= o < BY2PG -> fmem (s_fs s') (ff_va i + o) = 0;
  tk_mem x : VPN x <> VPN (ff_va i) -> fmem (s_fs s') x = fmem (s_fs s) x;
  tk_disk : disk (s_fs s') = disk (s_fs s);
  tk_fs : super (s_fs s') = super (s_fs s) /\ bitmap (s_fs s') = bitmap (s_fs s)
}.

Lemma ff_in_page i x : 0 <= i < MAXOPEN -> ff_va i <= x < ff_va i + BY2PG ->
  VPN x = VPN (ff_va i).
Proof.
  intros Hi. rewrite ff_va_page by done. change MAXOPEN with 1024 in Hi.
  unfold ff_va, FILEVA, BY2PG. intros Hx. rewrite VPN_div by lia. Z.div_mod_to_equations. lia.
Qed.

Lemma fs_run {A} (m : FM A) s a f : m (s_fs s) = Ret a f -> fs m s = Ret a (set_s_fs f s).
Proof. intros H. unfold fs, zoom. by rewrite H. Qed.

Lemma open_take_run s i : table_ok s -> 0 <= i < MAXOPEN ->
  fmapped (s_fs s) (VPN (ff_va i)) = true ->
  exists s', open_take i s = Ret (s32 (u32 (o_fileid (opentab s i) + MAXOPEN)), i) s' /\
    taken s i s'.
Proof.
  intros Ht Hi Hm. destruct (Ht i Hi) as (Hff & _ & _). unfold open_take.
  set (s1 := set_opentab (upd (opentab s) i (let o := opentab s i in
    mkOpen (o_file o) (u32 (o_fileid o + MAXOPEN)) (o_mode o) (o_ff o))) s).
  rewrite (bind_step _ _ _ tt s1), (bind_step _ _ s1 s1 s1) by done.
  assert (Ho : opentab s1 i = let o := opentab s i in
    mkOpen (o_file o) (u32 (o_fileid o + MAXOPEN)) (o_mode o) (o_ff o)) by apply upd_same.
  rewrite Ho. cbn [o_ff o_fileid]. rewrite Hff.
  assert (Hz : zero_page (ff_va i) (s_fs s1) = Ret tt (set_fmem (fun x =>
    if (ff_va i <=? x) && (x <? ff_va i + BY2PG) then 0 else fmem (s_fs s) x) (s_fs s1))).
  { unfold zero_page. by rewrite (bind_step _ _ _ _ _ (lw_run _ _ Hm)). }
  rewrite (bind_step _ _ _ _ _ (fs_run _ s1 _ _ Hz)).
  eexists. split; [reflexivity|]. split; try done.
  - intros p. cbn. destruct (Z.eqb_spec p (VPN (ff_va i))) as [->|]; [by rewrite Hm|done].
  - intros o Hob. cbn. by rewrite (proj2 (Z.leb_le _ _)), (proj2 (Z.ltb_lt _ _)) by lia.
  - intros x Hx. cbn. destruct (Z.leb_spec (ff_va i) x), (Z.ltb_spec x (ff_va i + BY2PG)); try done.
    exfalso. by apply Hx, ff_in_page.
Qed.

(** What [pageref] answers for an entry. *)
Lemma pageref_run s i : table_ok s -> 0 <= i < MAXOPEN ->
  pageref (o_ff (opentab s i)) s =
  Ret (if fmapped (s_fs s) (VPN (ff_va i)) then 1 + clients s (VPN (ff_va i)) else 0) s.
Proof. intros Ht Hi. destruct (Ht i Hi) as (-> & _). done. Qed.

Lemma open_alloc_from_run l s : table_ok s ->
  (forall i, i ∈ l -> 0 <= i < MAXOPEN) ->
  (exists l1 i l2 s', l = l1 ++ i :: l2 /\ (forall j, j ∈ l1 -> in_use s j) /\ ~ in_use s i /\
     open_alloc_from l s = Ret (s32 (u32 (o_fileid (opentab s i) + MAXOPEN)), i) s' /\
     taken s i s') \/
  ((forall j, j ∈ l -> in_use s j) /\ open_alloc_from l s = Ret (- E_MAX_OPEN, 0) s) \/
  (exists l1 i l2, l = l1 ++ i :: l2 /\ (forall j, j ∈ l1 -> in_use s j) /\
     fmapped (s_fs s) (VPN (ff_va i)) = false /\ pages_left (s_fs s) <= 0 /\
     open_alloc_from l s = Ret (- E_NO_MEM, 0) s).
Proof.
  intros Ht. induction l as [|i l IH]; intros Hl.
  { right; left. split; [intros j Hj; by apply elem_of_nil in Hj|done]. }
  pose proof (Hl i ltac:(apply elem_of_cons; by left)) as Hi.
  destruct (Ht i Hi) as (_ & _ & _ & Hc). cbn [open_alloc_from].
  rewrite (bind_step _ _ s s s) by done.
  rewrite (bind_step _ _ _ _ _ (pageref_run s i Ht Hi)).
  destruct (fmapped (s_fs s) (VPN (ff_va i))) eqn:Hm.
  - rewrite (proj2 (Z.eqb_neq _ 0)) by lia.
    destruct (Z.eqb_spec (1 + clients s (VPN (ff_va i))) 1) as [H1|H1].
    + left. destruct (open_take_run s i Ht Hi Hm) as (s' & Hr & Htk).
      exists [], i, l, s'. split; [done|]. split; [intros j Hj; by apply elem_of_nil in Hj|].
      split; [intros [_ ?]; lia|]. done.
    + assert (Hu : in_use s i) by (split; [done|lia]).
      assert (Hu1 : forall l1, (forall j, j ∈ l1 -> in_use s j) -> forall j, j ∈ i :: l1 -> in_use s j).
      { intros l1 Hl1 j Hj. apply elem_of_cons in Hj as [->|]; auto. }
      destruct IH as [(l1 & k & l2 & s' & -> & Hl1 & Hk)|[[Hall Hr]|(l1 & k & l2 & -> & Hl1 & Hk)]].
      * intros j Hj. apply Hl, elem_of_cons. by right.
      * left. exists (i :: l1), k, l2, s'. split; [done|]. split; [by apply Hu1|done].
      * right; left. split; [by apply Hu1|done].
      * right; right. exists (i :: l1), k, l2. split; [done|]. split; [by apply Hu1|done].
  - rewrite Z.eqb_refl. destruct (Ht i Hi) as (Hff & _). rewrite Hff.
    assert (Hnil : forall j, j ∈ [] -> in_use s j) by (intros j Hj; by apply elem_of_nil in Hj).
    destruct (Z.leb_spec (pages_left (s_fs s)) 0) as [Hp|Hp].
    + right; right. exists [], i, l. do 4 (split; [done|]).
      assert (Hr : syscall_mem_alloc (ff_va i) (s_fs s) = Ret (- E_NO_MEM) (s_fs s)).
      { unfold syscall_mem_alloc. by rewrite (proj2 (Z.leb_le _ _)). }
      rewrite (bind_step _ _ _ _ _ (fs_run _ s _ _ Hr)). by destruct s.
    + left. eassert (Hr : syscall_mem_alloc (ff_va i) (s_fs s) = Ret 0 _).
      { unfold syscall_mem_alloc. rewrite (proj2 (Z.leb_gt _ _)) by done. reflexivity. }
      rewrite (bind_step _ _ _ _ _ (fs_run _ s _ _ Hr)).
      match goal with |- context [set_s_fs ?f s] => set (s1 := set_s_fs f s) end.
      assert (Hm1 : fmapped (s_fs s1) (VPN (ff_va i)) = true) by apply upd_same.
      destruct (open_take_run s1 i Ht Hi Hm1) as (s' & Hr' & Htk).
      exists [], i, l, s'. do 2 (split; [done|]). split; [intros [? _]; congruence|].
      split; [exact Hr'|]. destruct Htk as [T1 T2 T3 T4 T5 T6 T7 T8]. split; try done.
      * intros p. rewrite T4. cbn. rewrite upd_case.
        destruct (Z.eqb_spec p (VPN (ff_va i))); [done|]. by case_decide.
      * intros x Hx. rewrite T6 by done. cbn. by rewrite (proj2 (Z.eqb_neq _ _)).
Qed.

Lemma taken_table_ok s i s' : table_ok s -> 0 <= i < MAXOPEN -> taken s i s' -> table_ok s'.
Proof.
  intros Ht Hi Htk j Hj. rewrite (tk_tab _ _ _ Htk), (tk_clients _ _ _ Htk), upd_case.
  case_decide as E; [subst j|by apply Ht]. destruct (Ht i Hi) as (E1 & E2 & E3 & E4).
  destruct (next_id i _ E2 E3) as (N1 & N2 & _). done.
Qed.

Lemma taken_keeps s i s' : table_ok s -> 0 <= i < MAXOPEN -> taken s i s' -> srv_keeps i s s'.
Proof.
  intros Ht Hi Htk. split; [intros _; by eapply taken_table_ok|]. intros j Hj Hne [Hm Hc].
  rewrite (tk_tab _ _ _ Htk), upd_other by done. split; [done|]. unfold in_use.
  rewrite (tk_clients _ _ _ Htk), (tk_mapped _ _ _ Htk), Hm, orb_true_r. done.
Qed.

Lemma seq_open i : i ∈ seqZ 0 MAXOPEN -> 0 <= i < MAXOPEN.
Proof. intros H%elem_of_seqZ. lia. Qed.

(** The entries of a prefix of the table are the lower ones. *)
Lemma seq_open_prefix l1 i l2 j : seqZ 0 MAXOPEN = l1 ++ i :: l2 -> 0 <= j < i -> j ∈ l1.
Proof.
  intros H Hj. assert (Hi : l1 !! Z.to_nat j = Some j).
  { assert (Hlen : i = Z.of_nat (length l1)).
    { assert (Hn : (l1 ++ i :: l2) !! length l1 = Some i) by (by rewrite list_lookup_middle).
      rewrite <- H in Hn. apply lookup_seqZ in Hn. lia. }
    rewrite <- (lookup_app_l l1 (i :: l2)) by lia. rewrite <- H.
    apply lookup_seqZ. split; [lia|].
    assert (Hlen2 : Z.of_nat (length (l1 ++ i :: l2)) = MAXOPEN) by (rewrite <- H, length_seqZ; done).
    rewrite length_app in Hlen2. cbn [length] in Hlen2. lia. }
  by eapply list_elem_of_lookup_2.
Qed.

Lemma open_alloc_run s : table_ok s ->
  (exists i s', 0 <= i < MAXOPEN /\ ~ in_use s i /\ (forall j, 0 <= j < i -> in_use s j) /\
     open_alloc s = Ret (s32 (u32 (o_fileid (opentab s i) + MAXOPEN)), i) s' /\ taken s i s') \/
  ((forall j, 0 <= j < MAXOPEN -> in_use s j) /\ open_alloc s = Ret (- E_MAX_OPEN, 0) s) \/
  (exists i, 0 <= i < MAXOPEN /\ (forall j, 0 <= j < i -> in_use s j) /\
     fmapped (s_fs s) (VPN (ff_va i)) = false /\ pages_left (s_fs s) <= 0 /\
     open_alloc s = Ret (- E_NO_MEM, 0) s).
Proof.
  intros Ht. unfold open_alloc.
  destruct (open_alloc_from_run (seqZ 0 MAXOPEN) s Ht seq_open)
    as [(l1 & i & l2 & s' & Hl & Hl1 & Hi)|[[Hall Hr]|(l1 & i & l2 & Hl & Hl1 & Hi)]].
  - left. exists i, s'. split; [apply seq_open; rewrite Hl; apply elem_of_app; right; by left|].
    destruct Hi as (Hu & Hr & Htk). split; [done|]. split; [|done].
    intros j Hj. apply Hl1. by eapply seq_open_prefix.
  - right; left. split; [|done]. intros j Hj. apply Hall, elem_of_seqZ. lia.
  - right; right. exists i. split; [apply seq_open; rewrite Hl; apply elem_of_app; right; by left|].
    split; [|done]. intros j Hj. apply Hl1. by eapply seq_open_prefix.
Qed.

(** ** The requests *)
Lemma serve_open_keeps envid rq s s' : table_ok s -> serve_open envid rq s = Ret tt s' ->
  exists j, ~ (0 <= j < MAXOPEN /\ in_use s j) /\ srv_keeps j s s'.
Proof.
  intros Ht H. unfold serve_open in H. apply bind_inv in H as ([r i] & s1 & Ha & H).
  cbn [fst snd] in H.
  destruct (open_alloc_run s Ht) as [(k & s2 & Hk & Hu & _ & Hr & Htk)|[[_ Hr]|(k & _ & _ & _ & _ & Hr)]];
    rewrite Hr in Ha; injection Ha as <- <- <-.
  - exists k. split; [tauto|]. etransitivity; [by apply taken_keeps|].
    destruct (_ <? 0); [by eapply skeeps_ipc_send|].
    refine ((_ : skeeps k _) _ _ _ H). clear H. skeeps_walk.
  - exists (-1). split; [lia|]. exact (skeeps_ipc_send _ _ _ _ _ _ _ _ H).
  - exists (-1). split; [lia|]. exact (skeeps_ipc_send _ _ _ _ _ _ _ _ H).
Qed.

Lemma skeeps_unmap_reqva j : skeeps j (fs (syscall_mem_unmap REQVA)).
Proof.
  intros s a s' [= <- <-]. split; [done|]. intros i Hi _ [Hm Hc]. split; [done|]. split; [|done].
  cbn. rewrite upd_other; [done|]. rewrite ff_va_page by done. change (VPN REQVA) with 0xffff. lia.
Qed.

Lemma serve_keeps req whom perm rq s s' : table_ok s -> serve req whom perm rq s = Ret tt s' ->
  exists j, ~ (0 <= j < MAXOPEN /\ in_use s j) /\ srv_keeps j s s'.
Proof.
  intros Ht H. unfold serve in H.
  destruct (negb _); [injection H as <-; exists (-1); split; [lia|done]|].
  apply bind_inv in H as ([] & s1 & H1 & H2). apply (skeeps_unmap_reqva (-1)) in H2.
  destruct (req =? FSREQ_OPEN).
  - destruct (serve_open_keeps _ _ _ _ Ht H1) as (j & Hj & K). exists j. split; [done|].
    etransitivity; [exact K|]. by apply srv_keeps_weaken.
  - exists (-1). split; [lia|]. etransitivity; [|exact H2].
    refine ((_ : skeeps (-1) _) _ _ _ H1).
    unfold serve_map, serve_set_size, serve_close, serve_remove, serve_dirty, serve_sync.
    skeeps_walk.
Qed.

(** ** Initialisation *)
Lemma serve_init_run s : (forall p, 0 <= clients s p) ->
  exists s', serve_init s = Ret tt s' /\ table_ok s' /\ s_fs s' = s_fs s /\
    clients s' = clients s /\
    (forall i, 0 <= i < MAXOPEN -> o_fileid (opentab s' i) = i /\
       o_file (opentab s' i) = o_file (opentab s i)).
Proof.
  intros Hc. unfold serve_init.
  assert (Hgen : forall l s, (forall i, i ∈ l -> 0 <= i < MAXOPEN) -> exists s',
    forM l (fun i => set_open i (fun o =>
      mkOpen (o_file o) i (o_mode o) (u32 (FILEVA + i * BY2PG)))) s = Ret tt s' /\
    s_fs s' = s_fs s /\ clients s' = clients s /\
    (forall i, i ∈ l -> o_ff (opentab s' i) = ff_va i /\ o_fileid (opentab s' i) = i) /\
    (forall i, i ∉ l -> opentab s' i = opentab s i) /\
    (forall i, o_file (opentab s' i) = o_file (opentab s i))).
  { clear. induction l as [|i l IH]; intros s Hl; cbn [forM].
    { exists s. do 3 (split; [done|]). split; [intros i Hi; by apply elem_of_nil in Hi|done]. }
    pose proof (Hl i ltac:(apply elem_of_cons; by left)) as Hi.
    set (s1 := set_opentab (upd (opentab s) i (let o := opentab s i in
      mkOpen (o_file o) i (o_mode o) (u32 (FILEVA + i * BY2PG)))) s).
    rewrite (bind_step _ _ _ tt s1) by done.
    destruct (IH s1) as (s' & Hr & Hf & Hcl & Hin & Hout & Hfile).
    { intros j Hj. apply Hl, elem_of_cons. by right. }
    exists s'. split; [done|]. split; [done|]. split; [done|].
    assert (Hne : forall j, j ∉ i :: l -> j <> i /\ j ∉ l).
    { intros j Hj. split; intros ?; apply Hj, elem_of_cons; [by left|by right]. }
    split; [|split].
    - intros j Hj. destruct (decide (j ∈ l)) as [Hjl|Hjl]; [by apply Hin|].
      rewrite Hout by done. apply elem_of_cons in Hj as [->|]; [|done].
      cbn [s1 opentab set_opentab]. rewrite upd_same. cbn. split; [|done].
      unfold ff_va. apply u32_id. change MAXOPEN with 1024 in Hi. unfold FILEVA, BY2PG. lia.
    - intros j Hj. destruct (Hne j Hj). rewrite Hout by done. cbn. by rewrite upd_other.
    - intros j. rewrite Hfile. cbn. rewrite upd_case. by case_decide as E; [subst|]. }
  destruct (Hgen (seqZ 0 MAXOPEN) s seq_open) as (s' & Hr & Hf & Hcl & Hin & _ & Hfile).
  exists s'. split; [done|]. split; [|split; [done|]; split; [done|]].
  - intros i Hi. destruct (Hin i) as [E1 E2]; [apply elem_of_seqZ; lia|].
    rewrite E1, E2, Hcl. change MAXOPEN with 1024 in *. split; [done|]. split; [lia|].
    split; [by apply Z.mod_small|done].
  - intros i Hi. destruct (Hin i) as [E1 E2]; [apply elem_of_seqZ; lia|]. by rewrite E2, Hfile.
Qed.

(** ** Examples: the server on the example disk, before and after client 7
    opens the file "a". *)
Definition state_of {A} (d : srv) (o : outcome srv A) : srv :=
  match o with Ret _ s => s | _ => d end.
Definition returns {A} (o : outcome srv A) : bool :=
  match o with Ret _ _ => true | _ => false end.

Lemma returns_state d (o : outcome srv unit) : returns o = true -> o = Ret tt (state_of d o).
Proof. by destruct o as [[]| | |]. Qed.

Definition ex_boot_srv : srv :=
  mkSrv (FsProps.ex_fs) (fun _ => mkOpen 0 0 0 0) (fun _ => 0) [].
Definition ex_srv : srv := state_of ex_boot_srv (serve_init ex_boot_srv).
(** "a", then the mode O_RDWR. *)
Definition ex_req (o : Z) : Z := if o =? 0 then 97 else if o =? MAXPATHLEN then 2 else 0.
Definition ex_open : srv := state_of ex_srv (serve FSREQ_OPEN 7 PTE_V ex_req ex_srv).

Lemma ex_srv_ok : table_ok ex_srv.
Proof.
  destruct (serve_init_run ex_boot_srv) as (s' & Hr & Ht & _); [done|].
  unfold ex_srv. by rewrite Hr.
Qed.

Lemma ex_open_run : serve FSREQ_OPEN 7 PTE_V ex_req ex_srv = Ret tt ex_open.
Proof. apply returns_state. vm_compute. reflexivity. Qed.

Lemma ex_open_ok : table_ok ex_open /\ in_use ex_open 0.
Proof.
  split.
  - destruct (serve_keeps _ _ _ _ _ _ ex_srv_ok ex_open_run) as (j & _ & Ht & _).
    apply Ht, ex_srv_ok.
  - split; vm_compute; [reflexivity|discriminate].
Qed.

(** C32. No request of any client disturbs the table entry of a file somebody
    has open: while a client maps its Filefd page, every request the server
    completes leaves the entry as it was and its identifier valid, and keeps the
    table well formed.  (The contents of the file are not the subject here.) *)
Theorem serve_keeps_open req whom perm rq s s' :
  table_ok s -> serve req whom perm rq s = Ret tt s' ->
  table_ok s' /\
  (forall i envid, 0 <= i < MAXOPEN -> in_use s i ->
     opentab s' i = opentab s i /\ in_use s' i /\
     open_lookup envid (o_fileid (opentab s i)) s' = Ret (OK i) s').
Proof.
  intros Ht H. destruct (serve_keeps _ _ _ _ _ _ Ht H) as (j & Hj & Ht' & K).
  split; [by apply Ht'|]. intros i envid Hi Hu.
  destruct (K i Hi) as [E Hu']; [intros ->; by apply Hj|done|].
  split; [done|]. split; [done|]. rewrite open_lookup_run by (by apply Ht').
  destruct (Ht i Hi) as (_ & _ & Hid & _). cbv zeta. rewrite Hid, E, Z.eqb_refl.
  destruct Hu' as [_ Hc]. rewrite (proj2 (Z.eqb_neq _ 0)) by lia. by rewrite andb_false_r.
Qed.

Definition ex_again : srv := state_of ex_open (serve FSREQ_OPEN 8 PTE_V ex_req ex_open).

Lemma ex_again_run : serve FSREQ_OPEN 8 PTE_V ex_req ex_open = Ret tt ex_again.
Proof. apply returns_state. vm_compute. reflexivity. Qed.

Lemma serve_keeps_open_witness :
  in_use ex_open 0 /\ opentab ex_again 0 = opentab ex_open 0.
Proof.
  split; [exact (proj2 ex_open_ok)|].
  apply (serve_keeps_open FSREQ_OPEN 8 PTE_V ex_req ex_open ex_again (proj1 ex_open_ok)
           ex_again_run).
  - exact 0.
  - split; [lia|reflexivity].
  - exact (proj2 ex_open_ok).
Defined.

(** [open_alloc] takes the lowest entry no client uses, whose page it maps
    if need be and zeroes: the entry gets a new identifier of its own, the old
    one is refused from then on, the new one is valid as soon as the page has
    been sent to a client, and nothing else changes.  When every entry is in
    use it returns [-E_MAX_OPEN], with no page left [-E_NO_MEM], with nothing
    changed. *)
Lemma open_alloc_correct s : table_ok s ->
  (exists i s', 0 <= i < MAXOPEN /\ ~ in_use s i /\ (forall j, 0 <= j < i -> in_use s j) /\
     (let old := o_fileid (opentab s i) in let new := u32 (old + MAXOPEN) in
      open_alloc s = Ret (s32 new, i) s' /\ taken s i s' /\ table_ok s' /\
      new <> old /\ new mod MAXOPEN = i /\
      (forall envid, open_lookup envid old s' = Ret (Err (- E_INVAL)) s') /\
      (forall envid s'', opentab s'' = opentab s' -> table_ok s'' -> in_use s'' i ->
         open_lookup envid new s'' = Ret (OK i) s''))) \/
  ((forall j, 0 <= j < MAXOPEN -> in_use s j) /\ open_alloc s = Ret (- E_MAX_OPEN, 0) s) \/
  (exists i, 0 <= i < MAXOPEN /\ (forall j, 0 <= j < i -> in_use s j) /\ ~ in_use s i /\
     pages_left (s_fs s) <= 0 /\ open_alloc s = Ret (- E_NO_MEM, 0) s).
Proof.
  intros Ht. destruct (open_alloc_run s Ht)
    as [(i & s' & Hi & Hu & Hlow & Hr & Htk)|[H|(i & Hi & Hlow & Hm & Hp & Hr)]];
    [left|right; by left|right; right].
  2: { exists i. split; [done|]. split; [done|]. split; [intros [? _]; congruence|done]. }
  exists i, s'. do 3 (split; [done|]). cbv zeta. destruct (Ht i Hi) as (_ & Hid & Hmod & _).
  destruct (next_id i _ Hid Hmod) as (N1 & N2 & N3).
  assert (Ht' : table_ok s') by (by eapply taken_table_ok).
  assert (Hnew : o_fileid (opentab s' i) = u32 (o_fileid (opentab s i) + MAXOPEN)).
  { rewrite (tk_tab _ _ _ Htk). cbv zeta. by rewrite upd_same. }
  do 5 (split; [done|]). split.
  - intros envid. rewrite open_lookup_run by done. cbv zeta. rewrite Hmod, Hnew.
    rewrite (proj2 (Z.eqb_neq (u32 _) _)) by done. by rewrite orb_true_r.
  - intros envid s'' Htab Ht'' [_ Hc]. rewrite open_lookup_run by done. cbv zeta.
    rewrite N2, Htab, Hnew, Z.eqb_refl, (proj2 (Z.eqb_neq (clients s'' _) 0)) by lia.
    by rewrite andb_false_r.
Qed.

Lemma open_alloc_correct_witness : exists r s', open_alloc ex_srv = Ret r s'.
Proof.
  destruct (open_alloc_correct ex_srv ex_srv_ok)
    as [(i & s' & _ & _ & _ & Hr & _)|[[_ Hr]|(i & _ & _ & _ & _ & Hr)]];
    eexists _, _; exact Hr.
Defined.

(** A request for an entry that was never opened gets past
    [open_lookup]: its page is not mapped, so its reference count is 0 and not
    1, and its identifier is its index.  [serve_map] then follows the entry's
    null file pointer, and the server faults on any request of any client. *)
Lemma serve_map_unopened s whom rq : table_ok s ->
  let i := rq 0 mod MAXOPEN in
  o_fileid (opentab s i) = rq 0 -> fmapped (s_fs s) (VPN (ff_va i)) = false ->
  o_file (opentab s i) = 0 -> rq 4 / BY2BLK < NDIRECT ->
  fmapped (s_fs s) (VPN (f_direct 0 (rq 4 / BY2BLK))) = false ->
  open_lookup whom (rq 0) s = Ret (OK i) s /\ serve_map whom rq s = Fault.
Proof.
  intros Ht i Hid Hm Hf Hb Hz.
  assert (Hl : open_lookup whom (rq 0) s = Ret (OK i) s).
  { rewrite open_lookup_run by done. cbv zeta. fold i. by rewrite Hid, Hm, Z.eqb_refl. }
  split; [done|]. unfold serve_map, or_reply. rewrite (bind_step _ _ _ _ _ Hl).
  rewrite (bind_step _ _ s s s) by done. rewrite Hf. unfold bind at 1, fs, zoom.
  unfold file_get_block, file_map_block, file_block_walk, try_res.
  rewrite (proj2 (Z.ltb_lt _ _)) by done. unfold bind, ret, lw. by rewrite Hz.
Qed.

Lemma serve_map_unopened_witness : serve_map 7 (fun o => if o =? 0 then 5 else 0) ex_srv = Fault.
Proof.
  apply (serve_map_unopened ex_srv 7 (fun o => if o =? 0 then 5 else 0) ex_srv_ok);
    vm_compute; reflexivity.
Defined.
