(* ===== verification/Ide.v ===== *)
(** * The disk driver (fs/ide.c, include/virtio.h)

    The driver and the virtio device share memory: the queue in the page
    [buf], the transfer buffer [disk_buf] and the byte [disk.status].  Memory
    is bytes by physical address, and the driver reaches it through the page
    table of the file server ([frame]).  The device is a parameter: it answers
    register accesses, and makes a move between two polls of the driver. *)
From S2P Require Import Prelude Mmu UserMem Fs.

Definition VIRTIO0 : Z := 0x10001000.
Definition VIRTIO_MMIO_MAGIC_VALUE : Z := 0x000.
Definition VIRTIO_MMIO_VERSION : Z := 0x004.
Definition VIRTIO_MMIO_DEVICE_ID : Z := 0x008.
Definition VIRTIO_MMIO_VENDOR_ID : Z := 0x00c.
Definition VIRTIO_MMIO_DEVICE_FEATURES : Z := 0x010.
Definition VIRTIO_MMIO_DEVICE_FEATURES_SEL : Z := 0x014.
Definition VIRTIO_MMIO_QUEUE_SEL : Z := 0x030.
Definition VIRTIO_MMIO_QUEUE_NUM_MAX : Z := 0x034.
Definition VIRTIO_MMIO_QUEUE_NUM : Z := 0x038.
Definition VIRTIO_MMIO_QUEUE_READY : Z := 0x044.
Definition VIRTIO_MMIO_QUEUE_NOTIFY : Z := 0x050.
Definition VIRTIO_MMIO_STATUS : Z := 0x070.
Definition VIRTIO_MMIO_QUEUE_DESC_LOW : Z := 0x080.
Definition VIRTIO_MMIO_QUEUE_DESC_HIGH : Z := 0x084.
Definition VIRTIO_MMIO_DRIVER_DESC_LOW : Z := 0x090.
Definition VIRTIO_MMIO_DRIVER_DESC_HIGH : Z := 0x094.
Definition VIRTIO_MMIO_DEVICE_DESC_LOW : Z := 0x0a0.
Definition VIRTIO_MMIO_DEVICE_DESC_HIGH : Z := 0x0a4.
Definition VIRTIO_CONFIG_S_ACKNOWLEDGE : Z := 1.
Definition VIRTIO_CONFIG_S_DRIVER : Z := 2.
Definition VIRTIO_CONFIG_S_DRIVER_OK : Z := 4.
Definition VIRTIO_CONFIG_S_FEATURES_OK : Z := 8.
Definition VIRTIO_BLK_F_RO : Z := 5.
Definition VIRTIO_BLK_F_SCSI : Z := 7.
Definition VIRTIO_BLK_F_CONFIG_WCE : Z := 11.
Definition VIRTIO_BLK_F_MQ : Z := 12.
Definition VIRTIO_F_ANY_LAYOUT : Z := 27.
Definition VIRTIO_RING_F_INDIRECT_DESC : Z := 28.
Definition VIRTIO_RING_F_EVENT_IDX : Z := 29.
Definition NUM : Z := 4.
Definition VRING_DESC_F_NEXT : Z := 1.
Definition VRING_DESC_F_WRITE : Z := 2.
Definition VIRTIO_BLK_T_IN : Z := 0.
Definition VIRTIO_BLK_T_OUT : Z := 1.
Definition VIRTIO_BLK_S_OK : Z := 0.

(** Fields of [struct virtq_desc], [virtq_avail], [virtq_used] and
    [virtio_blk_req]. *)
Definition d_addr (t i : Z) : Z := t + 16 * i.
Definition d_len (t i : Z) : Z := t + 16 * i + 8.
Definition d_flags (t i : Z) : Z := t + 16 * i + 12.
Definition d_next (t i : Z) : Z := t + 16 * i + 14.
Definition a_flags (a : Z) : Z := a.
Definition a_idx (a : Z) : Z := a + 2.
Definition a_ring (a i : Z) : Z := a + 4 + 2 * i.
Definition u_idx (u : Z) : Z := u + 2.
Definition u_id (u i : Z) : Z := u + 4 + 8 * i.
Definition r_type (r : Z) : Z := r.
Definition r_reserved (r : Z) : Z := r + 4.
Definition r_sector (r : Z) : Z := r + 8.
Definition SIZEOF_REQ : Z := 16.

(** Little-endian values of [n] bytes in a memory of bytes. *)
Fixpoint le (n : nat) (m : Z -> Z) (a : Z) : Z :=
  match n with O => 0 | S n => u8 (m a) + 2 ^ 8 * le n m (a + 1) end.
Definition put_le (n : nat) (a v : Z) (m : Z -> Z) : Z -> Z := fun x =>
  if (a <=? x) && (x <? a + Z.of_nat n) then u8 (v / 2 ^ (8 * (x - a))) else m x.

(** What the driver can see and do to the device. *)
Class Virtio : Type := {
  vdev : Type;
  mmio_in : vdev -> Z -> Z;
  mmio_out : vdev -> Z -> Z -> vdev;
  dev_move : vdev * (Z -> Z) -> vdev * (Z -> Z)
}.

Section Ide.
Context `{Virtio} (frame : Z -> Z) (buf disk_buf disk_status : Z).

(** [srv] is the server's cache, for which the driver works; its field [disk]
    is not used here. *)
Record idest : Type := mkIde {
  vmem : Z -> Z;
  dev : vdev;
  disk_desc : Z;
  disk_avail : Z;
  disk_used : Z;
  disk_op : Z;
  used_idx : Z;
  srv : fsst
}.
Definition set_shared (p : vdev * (Z -> Z)) (s : idest) : idest :=
  mkIde (snd p) (fst p) (disk_desc s) (disk_avail s) (disk_used s) (disk_op s) (used_idx s) (srv s).
Definition set_vmem (v : Z -> Z) (s : idest) : idest := set_shared (dev s, v) s.
Definition set_queue (d a u o : Z) (s : idest) : idest :=
  mkIde (vmem s) (dev s) d a u o (used_idx s) (srv s).
Definition set_used_idx (v : Z) (s : idest) : idest :=
  mkIde (vmem s) (dev s) (disk_desc s) (disk_avail s) (disk_used s) (disk_op s) v (srv s).
Definition set_srv (v : fsst) (s : idest) : idest :=
  mkIde (vmem s) (dev s) (disk_desc s) (disk_avail s) (disk_used s) (disk_op s) (used_idx s) v.

Abbreviation IM := (M idest).

Definition VA2PA (va : Z) : Z := Z.lor (frame (VPN va)) (Z.land va 0xFFF).
Definition REG (r : Z) : Z := Z.lor VIRTIO0 r.
Definition MMIO_IN (r : Z) : IM Z := gets (fun s => mmio_in (dev s) (REG r)).
Definition MMIO_OUT (r value : Z) : IM unit :=
  modify (fun s => set_shared (mmio_out (dev s) (REG r) (u32 value), vmem s) s).

(** Accesses of [n] bytes to the driver's variables, none of which crosses a
    page. *)
Definition ldn (n : nat) (va : Z) : IM Z := gets (fun s => le n (vmem s) (VA2PA va)).
Definition stn (n : nat) (va v : Z) : IM unit :=
  modify (fun s => set_vmem (put_le n (VA2PA va) v (vmem s)) s).

Definition halt_unless (b : bool) (msg : string) : IM unit :=
  if b then ret tt else panic msg.

Definition features_mask (f : Z) : Z :=
  fold_left (fun f b => Z.land f (not32 (Z.shiftl 1 b)))
    [VIRTIO_BLK_F_RO; VIRTIO_BLK_F_SCSI; VIRTIO_BLK_F_CONFIG_WCE; VIRTIO_BLK_F_MQ;
     VIRTIO_F_ANY_LAYOUT; VIRTIO_RING_F_EVENT_IDX; VIRTIO_RING_F_INDIRECT_DESC] f.

(** The descriptors of the one chain the driver uses; the flags of the second
    are set by each request. *)
Definition init_chain : IM unit :=
  let! s := get in
  stn 4 (r_reserved (disk_op s)) 0 ;!
  stn 8 (d_addr (disk_desc s) 0) (VA2PA (disk_op s)) ;!
  stn 4 (d_len (disk_desc s) 0) SIZEOF_REQ ;!
  stn 2 (d_flags (disk_desc s) 0) VRING_DESC_F_NEXT ;!
  stn 2 (d_next (disk_desc s) 0) 1 ;!
  stn 8 (d_addr (disk_desc s) 1) (VA2PA disk_buf) ;!
  stn 4 (d_len (disk_desc s) 1) BY2PG ;!
  stn 2 (d_next (disk_desc s) 1) 2 ;!
  stn 8 (d_addr (disk_desc s) 2) (VA2PA disk_status) ;!
  stn 4 (d_len (disk_desc s) 2) 1 ;!
  stn 2 (d_flags (disk_desc s) 2) VRING_DESC_F_WRITE ;!
  stn 2 (d_next (disk_desc s) 2) 0.

(** [memset(buf, 0, BY2PG)] and the pointers into [buf]. *)
Definition init_memory : IM unit :=
  modify (set_queue buf (buf + 1024) (buf + 2048) (buf + 3072)) ;!
  modify (fun s => set_vmem (fun x =>
    if (VA2PA buf <=? x) && (x <? VA2PA buf + BY2PG) then 0 else vmem s x) s) ;!
  let! s := get in
  stn 2 (a_flags (disk_avail s)) 1.

(** Probing the device and negotiating features; the status written last. *)
Definition init_device : IM Z :=
  let! magic := MMIO_IN VIRTIO_MMIO_MAGIC_VALUE in
  let! version := MMIO_IN VIRTIO_MMIO_VERSION in
  let! id := MMIO_IN VIRTIO_MMIO_DEVICE_ID in
  let! vendor := MMIO_IN VIRTIO_MMIO_VENDOR_ID in
  halt_unless ((magic =? 0x74726976) && (version =? 2) && (id =? 2) && (vendor =? 0x554d4551))
    "could not find virtio disk" ;!
  let status := 0 in
  MMIO_OUT VIRTIO_MMIO_STATUS status ;!
  let status := Z.lor status VIRTIO_CONFIG_S_ACKNOWLEDGE in
  MMIO_OUT VIRTIO_MMIO_STATUS status ;!
  let status := Z.lor status VIRTIO_CONFIG_S_DRIVER in
  MMIO_OUT VIRTIO_MMIO_STATUS status ;!
  MMIO_OUT VIRTIO_MMIO_DEVICE_FEATURES_SEL 0 ;!
  let! features := MMIO_IN VIRTIO_MMIO_DEVICE_FEATURES in
  MMIO_OUT VIRTIO_MMIO_DEVICE_FEATURES (features_mask features) ;!
  let status := Z.lor status VIRTIO_CONFIG_S_FEATURES_OK in
  MMIO_OUT VIRTIO_MMIO_STATUS status ;!
  let! status := MMIO_IN VIRTIO_MMIO_STATUS in
  halt_unless (truthy (Z.land status VIRTIO_CONFIG_S_FEATURES_OK))
    "virtio disk FEATURES_OK unset" ;!
  MMIO_OUT VIRTIO_MMIO_QUEUE_SEL 0 ;!
  let! ready := MMIO_IN VIRTIO_MMIO_QUEUE_READY in
  halt_unless (negb (truthy ready)) "virtio disk queue should not be ready" ;!
  let! max := MMIO_IN VIRTIO_MMIO_QUEUE_NUM_MAX in
  halt_unless (negb (max <? NUM)) "virtio disk max queue too short" ;!
  ret status.

Definition init_queue : IM unit :=
  let! s := get in
  MMIO_OUT VIRTIO_MMIO_QUEUE_NUM NUM ;!
  MMIO_OUT VIRTIO_MMIO_QUEUE_DESC_LOW (VA2PA (disk_desc s)) ;!
  MMIO_OUT VIRTIO_MMIO_QUEUE_DESC_HIGH 0 ;!
  MMIO_OUT VIRTIO_MMIO_DRIVER_DESC_LOW (VA2PA (disk_avail s)) ;!
  MMIO_OUT VIRTIO_MMIO_DRIVER_DESC_HIGH 0 ;!
  MMIO_OUT VIRTIO_MMIO_DEVICE_DESC_LOW (VA2PA (disk_used s)) ;!
  MMIO_OUT VIRTIO_MMIO_DEVICE_DESC_HIGH 0 ;!
  MMIO_OUT VIRTIO_MMIO_QUEUE_READY 1.

Definition ide_init : IM unit :=
  let! status := init_device in
  init_memory ;!
  init_queue ;!
  MMIO_OUT VIRTIO_MMIO_STATUS (Z.lor status VIRTIO_CONFIG_S_DRIVER_OK) ;!
  init_chain.

(** [while (disk.used_idx + 1 != disk.used->idx)]: the device moves before
    each test; the sum is an [int]. *)
Fixpoint poll (n : nat) : IM unit :=
  match n with
  | O => fault
  | S n =>
      modify (fun s => set_shared (dev_move (dev s, vmem s)) s) ;!
      let! s := get in
      let! idx := ldn 2 (u_idx (disk_used s)) in
      if negb (used_idx s + 1 =? idx) then poll n else ret tt
  end.

Definition user_assert_ (b : bool) : IM unit := if b then ret tt else panic "assertion failed".

(** The stores of a request up to the notification. *)
Definition submit (secno : Z) (write : bool) : IM unit :=
  let! s := get in
  stn 4 (r_type (disk_op s)) (if write then VIRTIO_BLK_T_OUT else VIRTIO_BLK_T_IN) ;!
  stn 8 (r_sector (disk_op s)) secno ;!
  stn 2 (d_flags (disk_desc s) 1) (if write then 0 else VRING_DESC_F_WRITE) ;!
  (let! f := ldn 2 (d_flags (disk_desc s) 1) in
   stn 2 (d_flags (disk_desc s) 1) (Z.lor f VRING_DESC_F_NEXT)) ;!
  stn 1 disk_status 0xff ;!
  (let! idx := ldn 2 (a_idx (disk_avail s)) in
   stn 2 (a_ring (disk_avail s) (idx mod NUM)) 0) ;!
  (let! idx := ldn 2 (a_idx (disk_avail s)) in
   stn 2 (a_idx (disk_avail s)) (idx + 1)) ;!
  MMIO_OUT VIRTIO_MMIO_QUEUE_NOTIFY 0.

Definition virtio_disk_rw (polls : nat) (secno : Z) (write : bool) : IM unit :=
  submit secno write ;!
  poll polls ;!
  modify (fun s => set_used_idx (u16 (used_idx s + 1)) s) ;!
  let! s := get in
  (let! idx := ldn 2 (u_idx (disk_used s)) in user_assert_ (used_idx s =? idx)) ;!
  (let! id := ldn 4 (u_id (disk_used s) (used_idx s mod NUM)) in user_assert_ (id =? 0)) ;!
  (let! st := ldn 1 disk_status in user_assert_ (st =? VIRTIO_BLK_S_OK)).

(** [memcpy] of a block between [disk_buf] and a page of the cache. *)
Definition from_disk_buf (dst : Z) : IM unit := fun s =>
  if fmapped (srv s) (VPN dst) then
    Ret tt (set_srv (set_fmem
      (blit dst BY2PG (fun k => u8 (vmem s (VA2PA disk_buf + k))) (fmem (srv s))) (srv s)) s)
  else Fault.
Definition to_disk_buf (src : Z) : IM unit := fun s =>
  if fmapped (srv s) (VPN src) then
    Ret tt (set_vmem (fun x =>
      if (VA2PA disk_buf <=? x) && (x <? VA2PA disk_buf + BY2PG)
      then mem_byte (fmem (srv s)) (src + (x - VA2PA disk_buf)) else vmem s x) s)
  else Fault.

(** The values of [i]: the multiples of [SECT2BLK] below [nsecs]. *)
Definition block_steps (nsecs : Z) : list Z :=
  (fun k => k * SECT2BLK) <$> seqZ 0 (nsecs / SECT2BLK).

Definition ide_read (polls : nat) (diskno secno dst nsecs : Z) : IM unit :=
  user_assert_ (nsecs mod SECT2BLK =? 0) ;!
  forM (block_steps nsecs) (fun i =>
    virtio_disk_rw polls (u32 (secno + i)) false ;!
    from_disk_buf (dst + i * BY2SECT)).

Definition ide_write (polls : nat) (diskno secno src nsecs : Z) : IM unit :=
  user_assert_ (nsecs mod SECT2BLK =? 0) ;!
  forM (block_steps nsecs) (fun i =>
    to_disk_buf (src + i * BY2SECT) ;!
    virtio_disk_rw polls (u32 (secno + i)) true).

End Ide.
