(* ===== verification/IdeProps.v ===== *)
(** * The disk driver implements whole-block transfers

    With a device that keeps the protocol of a virtio block device
    ([VirtioBlk]), [ide_init] brings the queue up and [ide_read] and
    [ide_write] are the transfers of Fs.v, until 65535 requests have been
    made. *)
From S2P Require Import Prelude Mmu UserMem Fs FsBlocks Ide.

(** ** Little-endian values in memory *)
Lemma le_ext n m m' a : (forall x, a <= x < a + Z.of_nat n -> u8 (m x) = u8 (m' x)) ->
  le n m a = le n m' a.
Proof.
  revert a. induction n as [|n IH]; intros a Hm; [done|]. cbn [le].
  rewrite Hm by lia. by rewrite (IH (a + 1)) by (intros; apply Hm; lia).
Qed.

Lemma le_range n m a : 0 <= le n m a < 2 ^ (8 * Z.of_nat n).
Proof.
  revert a. induction n as [|n IH]; intros a; [done|]. cbn [le].
  pose proof (Z.mod_pos_bound (m a) (2 ^ 8) ltac:(lia)). specialize (IH (a + 1)).
  replace (8 * Z.of_nat (S n)) with (8 + 8 * Z.of_nat n) by lia.
  rewrite Z.pow_add_r by lia. unfold u8. lia.
Qed.

Lemma le_digits n v a k m :
  (forall j, 0 <= j < Z.of_nat n -> m (a + j) = u8 (v / 2 ^ (8 * (k + j)))) -> 0 <= k ->
  le n m a = v / 2 ^ (8 * k) mod 2 ^ (8 * Z.of_nat n).
Proof.
  revert a k. induction n as [|n IH]; intros a k Hm Hk; cbn [le].
  - by rewrite Z.mod_1_r.
  - pose proof (Hm 0 ltac:(lia)) as H0. rewrite !Z.add_0_r in H0. rewrite H0.
    rewrite (IH (a + 1) (k + 1)); [|intros j Hj|lia].
    + replace (8 * Z.of_nat (S n)) with (8 + 8 * Z.of_nat n) by lia.
      replace (8 * (k + 1)) with (8 * k + 8) by lia.
      rewrite !Z.pow_add_r, <- Z.div_div by lia.
      rewrite Z.rem_mul_r by lia. unfold u8. by rewrite Z.mod_mod by lia.
    + replace (a + 1 + j) with (a + (1 + j)) by lia. rewrite Hm by lia. do 4 f_equal. lia.
Qed.

Lemma le_put_same n a v m : le n (put_le n a v m) a = v mod 2 ^ (8 * Z.of_nat n).
Proof.
  rewrite (le_digits n v a 0); [by rewrite Z.div_1_r| |done]. intros j Hj. unfold put_le.
  destruct (Z.leb_spec a (a + j)), (Z.ltb_spec (a + j) (a + Z.of_nat n)); try lia. cbn.
  by replace (a + j - a) with (0 + j) by lia.
Qed.

Lemma put_le_other n a v m x : x < a \/ a + Z.of_nat n <= x -> put_le n a v m x = m x.
Proof.
  intros Hx. unfold put_le.
  by destruct (Z.leb_spec a x), (Z.ltb_spec x (a + Z.of_nat n)); cbn; (lia || done).
Qed.

Lemma le_put_other n' n a' a v m : a' + Z.of_nat n' <= a \/ a + Z.of_nat n <= a' ->
  le n' (put_le n a v m) a' = le n' m a'.
Proof. intros Ha. apply le_ext. intros x Hx. by rewrite put_le_other by lia. Qed.

#[local] Arguments le : simpl never.
#[local] Arguments put_le : simpl never.

(** ** The protocol of the device *)

(** Areas [a, a + n) that do not overlap. *)
Fixpoint apart (l : list (Z * Z)) : Prop :=
  match l with
  | [] => True
  | p :: l => Forall (fun q => fst p + snd p <= fst q \/ fst q + snd q <= fst p) l /\ apart l
  end.

(** The chain of descriptors [h], [n1], [n2] of the table [t] is a request
    to transfer a block between the disk and [data]. *)
Record chain (m : Z -> Z) (t h n1 n2 hdr data sts : Z) (write : bool) : Prop := {
  ch_ids : 0 <= h < NUM /\ 0 <= n1 < NUM /\ 0 <= n2 < NUM;
  ch_addr : le 8 m (d_addr t h) = hdr;
  ch_len : le 4 m (d_len t h) = SIZEOF_REQ;
  ch_flags : le 2 m (d_flags t h) = VRING_DESC_F_NEXT;
  ch_next : le 2 m (d_next t h) = n1;
  ch_addr1 : le 8 m (d_addr t n1) = data;
  ch_len1 : le 4 m (d_len t n1) = BY2PG;
  ch_flags1 : le 2 m (d_flags t n1) = Z.lor (if write then 0 else VRING_DESC_F_WRITE) VRING_DESC_F_NEXT;
  ch_next1 : le 2 m (d_next t n1) = n2;
  ch_addr2 : le 8 m (d_addr t n2) = sts;
  ch_len2 : le 4 m (d_len t n2) = 1;
  ch_flags2 : le 2 m (d_flags t n2) = VRING_DESC_F_WRITE;
  ch_type : le 4 m (r_type hdr) = if write then VIRTIO_BLK_T_OUT else VIRTIO_BLK_T_IN
}.

(** What the completion of that request does: [idx] is the index of the used
    ring before it. *)
Record completion (m m' : Z -> Z) (disk disk' : Z -> Z) (u idx h data sts pos : Z)
    (write : bool) : Prop := {
  co_idx : le 2 m' (u_idx u) = u16 (idx + 1);
  co_id : le 4 m' (u_id u (idx mod NUM)) = h;
  co_status : u8 (m' sts) = VIRTIO_BLK_S_OK;
  co_data x : 0 <= x < BY2PG ->
    u8 (m' (data + x)) = if write then u8 (m (data + x)) else u8 (disk (pos + x));
  co_frame x : x <> sts -> x < data \/ data + BY2PG <= x ->
    x < u_idx u \/ u_idx u + 2 <= x ->
    x < u_id u (idx mod NUM) \/ u_id u (idx mod NUM) + 8 <= x -> m' x = m x;
  co_disk x : u8 (disk' x) = if write && (pos <=? x) && (x <? pos + BY2PG)
    then u8 (m (data + (x - pos))) else u8 (disk x)
}.

(** A virtio block device of version 2.  [conf] is the last value stored in
    each register since the reset; a request made when the device has
    completed all others completes after some moves, before which the index
    of the used ring stands still. *)
Class VirtioBlk `{Virtio} : Type := {
  conf : vdev -> Z -> Z;
  media : vdev -> Z -> Z;
  capacity : Z;
  conf_out d r v x : conf (mmio_out d r v) x =
    if (r =? REG VIRTIO_MMIO_STATUS) && (v =? 0) then 0 else upd (conf d) r v x;
  media_out d r v : media (mmio_out d r v) = media d;
  in_magic d : mmio_in d (REG VIRTIO_MMIO_MAGIC_VALUE) = 0x74726976;
  in_version d : mmio_in d (REG VIRTIO_MMIO_VERSION) = 2;
  in_id d : mmio_in d (REG VIRTIO_MMIO_DEVICE_ID) = 2;
  in_vendor d : mmio_in d (REG VIRTIO_MMIO_VENDOR_ID) = 0x554d4551;
  in_status d : truthy (Z.land (conf d (REG VIRTIO_MMIO_STATUS)) VIRTIO_CONFIG_S_FEATURES_OK) = true ->
    truthy (Z.land (mmio_in d (REG VIRTIO_MMIO_STATUS)) VIRTIO_CONFIG_S_FEATURES_OK) = true;
  in_ready d : conf d (REG VIRTIO_MMIO_QUEUE_READY) = 0 ->
    mmio_in d (REG VIRTIO_MMIO_QUEUE_READY) = 0;
  in_num_max d : NUM <= mmio_in d (REG VIRTIO_MMIO_QUEUE_NUM_MAX);
  moves d m t a u h n1 n2 hdr data sts write :
    truthy (Z.land (conf d (REG VIRTIO_MMIO_STATUS)) VIRTIO_CONFIG_S_DRIVER_OK) = true ->
    conf d (REG VIRTIO_MMIO_QUEUE_READY) = 1 -> conf d (REG VIRTIO_MMIO_QUEUE_NUM) = NUM ->
    conf d (REG VIRTIO_MMIO_QUEUE_DESC_LOW) = t -> conf d (REG VIRTIO_MMIO_QUEUE_DESC_HIGH) = 0 ->
    conf d (REG VIRTIO_MMIO_DRIVER_DESC_LOW) = a -> conf d (REG VIRTIO_MMIO_DRIVER_DESC_HIGH) = 0 ->
    conf d (REG VIRTIO_MMIO_DEVICE_DESC_LOW) = u -> conf d (REG VIRTIO_MMIO_DEVICE_DESC_HIGH) = 0 ->
    le 2 m (a_idx a) = u16 (le 2 m (u_idx u) + 1) ->
    le 2 m (a_ring a (le 2 m (u_idx u) mod NUM)) = h ->
    chain m t h n1 n2 hdr data sts write ->
    apart [(t, 16 * NUM); (a, 4 + 2 * NUM); (u, 4 + 8 * NUM); (hdr, SIZEOF_REQ); (data, BY2PG); (sts, 1)] ->
    (le 8 m (r_sector hdr) + SECT2BLK) * BY2SECT <= capacity ->
    exists k,
      (forall j, (j < k)%nat -> le 2 (snd (Nat.iter j dev_move (d, m))) (u_idx u) = le 2 m (u_idx u)) /\
      conf (fst (Nat.iter k dev_move (d, m))) = conf d /\
      completion m (snd (Nat.iter k dev_move (d, m))) (media d) (media (fst (Nat.iter k dev_move (d, m))))
        u (le 2 m (u_idx u)) h data sts (le 8 m (r_sector hdr) * BY2SECT) write
}.

(** ** Where the driver's variables lie *)
Section Driver.
Context `{VirtioBlk} (frame : Z -> Z) (buf disk_buf disk_status : Z).

(** [buf] and [disk_buf] are pages of their own, and frames are pages. *)
Record layout : Prop := {
  ly_buf : buf mod BY2PG = 0;
  ly_disk_buf : disk_buf mod BY2PG = 0;
  ly_frame v : frame v mod BY2PG = 0 /\ 0 <= frame v < 2 ^ 32;
  ly_bufs : frame (VPN buf) <> frame (VPN disk_buf);
  ly_status : frame (VPN disk_status) <> frame (VPN buf) /\
    frame (VPN disk_status) <> frame (VPN disk_buf)
}.
Hypothesis Hly : layout.

Abbreviation PA := (VA2PA frame).
Abbreviation B := (VA2PA frame buf).
Abbreviation K := (VA2PA frame disk_buf).
Abbreviation T := (VA2PA frame disk_status).

Lemma VA2PA_eq va : PA va = frame (VPN va) + va mod BY2PG.
Proof using Hly.
  unfold VA2PA. destruct (ly_frame Hly (VPN va)) as [Hf _].
  change 0xFFF with (Z.ones 12). rewrite Z.land_ones by lia. change (2 ^ 12) with BY2PG.
  rewrite <- Z.lxor_lor, Z.add_nocarry_lxor; [done| |].
  all: apply Z.bits_inj'; intros i Hi; rewrite Z.land_spec, Z.bits_0; unfold BY2PG in *;
    change 4096 with (2 ^ 12) in *; destruct (Z.ltb_spec i 12).
  all: try (rewrite (Z.mod_pow2_bits_high va) by lia; by rewrite andb_false_r).
  all: rewrite <- (Z.mod_pow2_bits_low (frame (VPN va)) 12) by lia; by rewrite Hf, Z.bits_0.
Qed.

Lemma page_offset va o : va mod BY2PG = 0 -> 0 <= o < BY2PG -> PA (va + o) = PA va + o.
Proof using Hly.
  intros Hva Ho. rewrite !VA2PA_eq.
  replace ((va + o) mod BY2PG) with o by (unfold BY2PG in *; Z.div_mod_to_equations; lia).
  rewrite Hva. replace (VPN (va + o)) with (VPN va); [lia|].
  unfold VPN, u32, BY2PG in *. rewrite !Z.shiftr_div_pow2 by lia. Z.div_mod_to_equations. lia.
Qed.

(** The areas of the driver do not overlap. *)
Lemma areas : (B + BY2PG <= K \/ K + BY2PG <= B) /\ (T + 1 <= B \/ B + BY2PG <= T) /\
  (T + 1 <= K \/ K + BY2PG <= T) /\
  0 <= B /\ B + BY2PG <= 2 ^ 32 /\ 0 <= K /\ K + BY2PG <= 2 ^ 32 /\ 0 <= T < 2 ^ 32.
Proof using Hly.
  rewrite !VA2PA_eq, (ly_buf Hly), (ly_disk_buf Hly).
  pose proof (ly_bufs Hly). destruct (ly_status Hly).
  destruct (ly_frame Hly (VPN buf)), (ly_frame Hly (VPN disk_buf)), (ly_frame Hly (VPN disk_status)).
  unfold BY2PG in *. Z.div_mod_to_equations. lia.
Qed.

(** ** The state between two requests *)
Abbreviation A := (B + 1024).
Abbreviation U := (B + 2048).
Abbreviation O := (B + 3072).

(** The queue in memory after [idx] requests, modulo 2^16; the flags of the
    second descriptor and the header are of the last request. *)
Record descriptors (m : Z -> Z) : Prop := {
  q_addr : le 8 m (d_addr B 0) = O;
  q_len : le 4 m (d_len B 0) = SIZEOF_REQ;
  q_flags : le 2 m (d_flags B 0) = VRING_DESC_F_NEXT;
  q_next : le 2 m (d_next B 0) = 1;
  q_addr1 : le 8 m (d_addr B 1) = K;
  q_len1 : le 4 m (d_len B 1) = BY2PG;
  q_next1 : le 2 m (d_next B 1) = 2;
  q_addr2 : le 8 m (d_addr B 2) = T;
  q_len2 : le 4 m (d_len B 2) = 1;
  q_flags2 : le 2 m (d_flags B 2) = VRING_DESC_F_WRITE
}.
Record queue_ready (m : Z -> Z) (idx : Z) : Prop := {
  q_descriptors : descriptors m;
  q_avail : le 2 m (a_idx A) = idx;
  q_used : le 2 m (u_idx U) = idx;
  q_ids i : 0 <= i < NUM -> le 4 m (u_id U i) = 0
}.

Record configured (c : Z -> Z) : Prop := {
  cf_ok : truthy (Z.land (c (REG VIRTIO_MMIO_STATUS)) VIRTIO_CONFIG_S_DRIVER_OK) = true;
  cf_ready : c (REG VIRTIO_MMIO_QUEUE_READY) = 1;
  cf_num : c (REG VIRTIO_MMIO_QUEUE_NUM) = NUM;
  cf_desc : c (REG VIRTIO_MMIO_QUEUE_DESC_LOW) = B;
  cf_desc_high : c (REG VIRTIO_MMIO_QUEUE_DESC_HIGH) = 0;
  cf_avail : c (REG VIRTIO_MMIO_DRIVER_DESC_LOW) = A;
  cf_avail_high : c (REG VIRTIO_MMIO_DRIVER_DESC_HIGH) = 0;
  cf_used : c (REG VIRTIO_MMIO_DEVICE_DESC_LOW) = U;
  cf_used_high : c (REG VIRTIO_MMIO_DEVICE_DESC_HIGH) = 0
}.

Record ready (s : idest) : Prop := {
  rd_desc : disk_desc s = buf;
  rd_avail : disk_avail s = buf + 1024;
  rd_used : disk_used s = buf + 2048;
  rd_op : disk_op s = buf + 3072;
  rd_conf : configured (conf (dev s));
  rd_idx : 0 <= used_idx s < 2 ^ 16;
  rd_queue : queue_ready (vmem s) (used_idx s)
}.

(** Accesses to the fields of [buf]. *)
Lemma pa_buf va o : va = buf + o -> 0 <= o < BY2PG -> PA va = B + o.
Proof using Hly. intros -> Ho. by rewrite page_offset by (apply Hly || done). Qed.

Ltac offsets := unfold d_addr, d_len, d_flags, d_next, a_idx, a_flags, a_ring, u_idx, u_id, r_type,
  r_sector, r_reserved, NUM, BY2PG, SIZEOF_REQ in *.
Ltac far := pose proof areas; offsets; change (Z.of_nat 8) with 8; change (Z.of_nat 4) with 4;
  change (Z.of_nat 2) with 2; change (Z.of_nat 1) with 1; Z.div_mod_to_equations; lia.
Ltac mem_step := first [rewrite le_put_same | rewrite le_put_other by far].

(** Memory after the stores of a request. *)
Definition submitted (secno : Z) (write : bool) (idx : Z) (m : Z -> Z) : Z -> Z :=
  let f := if write then 0 else VRING_DESC_F_WRITE in
  let m := put_le 4 (r_type O) (if write then VIRTIO_BLK_T_OUT else VIRTIO_BLK_T_IN) m in
  let m := put_le 8 (r_sector O) secno m in
  let m := put_le 2 (d_flags B 1) f m in
  let m := put_le 2 (d_flags B 1) (Z.lor f VRING_DESC_F_NEXT) m in
  let m := put_le 1 T 0xff m in
  let m := put_le 2 (a_ring A (idx mod NUM)) 0 m in
  put_le 2 (a_idx A) (idx + 1) m.

Lemma descriptors_ext m m' : (forall x, B <= x < B + 48 -> ~ (B + 28 <= x < B + 30) ->
  u8 (m x) = u8 (m' x)) -> descriptors m -> descriptors m'.
Proof using.
  intros Hm []. split;
  match goal with H : le ?n m ?a = ?v |- le ?n m' ?a = ?v =>
    rewrite <- H; apply le_ext; intros x Hx; symmetry; apply Hm; offsets; lia end.
Qed.

Lemma put_other_u8 n a v m x : x < a \/ a + Z.of_nat n <= x -> u8 (m x) = u8 (put_le n a v m x).
Proof using. intros Hx. by rewrite put_le_other. Qed.

Lemma submitted_other secno write idx m x : 0 <= x - B < 2048 \/ 2048 <= x - B < 2200 \/ 0 <= x - K < BY2PG ->
  ~ (B + 28 <= x < B + 30) -> ~ (B + 1026 <= x < B + 1036) ->
  submitted secno write idx m x = m x.
Proof using Hly.
  intros Hx H1 H2. pose proof (Z.mod_pos_bound idx NUM ltac:(done)). unfold submitted.
  by rewrite !put_le_other by far.
Qed.

Lemma submitted_pending secno write idx m :
  queue_ready m idx -> 0 <= idx < 2 ^ 16 -> 0 <= secno < 2 ^ 64 ->
  let m' := submitted secno write idx m in
  chain m' B 0 1 2 O K T write /\
  le 2 m' (a_idx A) = u16 (idx + 1) /\ le 2 m' (u_idx U) = idx /\
  le 2 m' (a_ring A (idx mod NUM)) = 0 /\ le 8 m' (r_sector O) = secno /\
  (forall i, 0 <= i < NUM -> le 4 m' (u_id U i) = 0) /\
  (forall x, 0 <= x < BY2PG -> m' (K + x) = m (K + x)).
Proof using Hly.
  intros [Hd Ha Hu Hids] Hi Hs m'. pose proof (Z.mod_pos_bound idx NUM ltac:(done)).
  assert (Hoth : forall n a, B + 2048 <= a -> a + Z.of_nat n <= B + 2200 -> le n m' a = le n m a).
  { intros n a Hl Hh. apply le_ext. intros x Hx. unfold m'. by rewrite submitted_other by far. }
  assert (Hd' : descriptors m').
  { revert Hd. apply descriptors_ext. intros x Hx Hn. unfold m'. by rewrite submitted_other by far. }
  destruct Hd'. repeat apply conj.
  - split; try done.
    + unfold m', submitted. repeat mem_step. by destruct write.
    + unfold m', submitted. repeat mem_step. by destruct write.
  - unfold m', submitted. by repeat mem_step.
  - rewrite Hoth by far. done.
  - unfold m', submitted. by repeat mem_step.
  - unfold m', submitted. repeat mem_step. by apply Z.mod_small.
  - intros i Hr. rewrite Hoth by far. by apply Hids.
  - intros x Hx. apply submitted_other; far.
Qed.

Lemma submit_run secno write s : ready s ->
  submit frame disk_status secno write s =
  Ret tt (set_shared (mmio_out (dev s) (REG VIRTIO_MMIO_QUEUE_NOTIFY) 0,
                      submitted secno write (used_idx s) (vmem s)) s).
Proof using Hly.
  intros [Hd Ha Hu Ho Hc Hi Hq]. unfold submit, stn, ldn, MMIO_OUT. munfold.
  rewrite Hd, Ha, Ho.
  rewrite (pa_buf (r_type (buf + 3072)) 3072), (pa_buf (r_sector (buf + 3072)) 3080),
    (pa_buf (d_flags buf 1) 28), (pa_buf (a_idx (buf + 1024)) 1026) by far.
  assert (Hring : forall i, 0 <= i < NUM -> PA (a_ring (buf + 1024) i) = a_ring A i).
  { intros i Hr. rewrite (pa_buf _ (1028 + 2 * i)); far. }
  unfold submitted.
  replace (r_type O) with (B + 3072) by far. replace (r_sector O) with (B + 3080) by far.
  replace (d_flags B 1) with (B + 28) by far.
  pose proof (q_avail _ _ Hq) as Hidx. replace (a_idx A) with (B + 1026) in Hidx |- * by far.
  rewrite le_put_same.
  replace ((if write then 0 else VRING_DESC_F_WRITE) mod 2 ^ (8 * Z.of_nat 2))
    with (if write then 0 else VRING_DESC_F_WRITE) by (by destruct write).
  set (m5 := put_le 1 T 255 _).
  assert (Hm5 : le 2 m5 (B + 1026) = used_idx s) by (subst m5; by repeat mem_step).
  pose proof (Z.mod_pos_bound (used_idx s) NUM ltac:(done)) as Hmod.
  rewrite Hm5, Hring by done. rewrite (le_put_other 2 2 (B + 1026)) by far. by rewrite Hm5.
Qed.

(** The polls stop at the first move after which the index has advanced. *)
Lemma poll_run n : forall k s, (1 <= k <= n)%nat -> disk_used s = buf + 2048 ->
  let after j := Nat.iter j dev_move (dev s, vmem s) in
  (forall j, (0 < j < k)%nat -> le 2 (snd (after j)) (u_idx U) <> used_idx s + 1) ->
  le 2 (snd (after k)) (u_idx U) = used_idx s + 1 ->
  poll frame n s = Ret tt (set_shared (after k) s).
Proof using Hly.
  induction n as [|n IH]; intros k s Hk Hu after Hbefore Hk'; [lia|]. cbn [poll].
  set (s1 := set_shared (after 1%nat) s).
  assert (Hs1 : (dev s1, vmem s1) = after 1%nat) by (unfold s1; cbn; by destruct (dev_move _)).
  rewrite (bind_step _ _ s tt s1) by done. rewrite (bind_step _ _ s1 s1 s1) by done.
  rewrite (bind_step _ _ s1 (le 2 (snd (after 1%nat)) (u_idx U)) s1).
  2:{ unfold ldn, gets. do 2 f_equal. replace (disk_used s1) with (buf + 2048) by done.
      rewrite (pa_buf _ 2050) by far. replace (B + 2050) with (u_idx U) by far. done. }
  destruct (decide (k = 1%nat)) as [->|Hk1].
  - rewrite Hk'. replace (used_idx s1) with (used_idx s) by done. by rewrite Z.eqb_refl.
  - replace (used_idx s1) with (used_idx s) by done.
    destruct (Z.eqb_spec (used_idx s + 1) (le 2 (snd (after 1%nat)) (u_idx U))) as [E|_].
    { by destruct (Hbefore 1%nat ltac:(lia)). }
    cbn [negb].
    assert (Hit : forall j, Nat.iter j dev_move (dev s1, vmem s1) = after (S j)).
    { intros j. rewrite Hs1. symmetry. apply (Nat.iter_succ_r j). }
    rewrite (IH (k - 1)%nat s1); [|lia|done| |].
    + rewrite Hit. replace (S (k - 1)) with k by lia. done.
    + intros j Hj. rewrite Hit. apply Hbefore. lia.
    + rewrite Hit. by replace (S (k - 1)) with k by lia.
Qed.

Lemma configured_notify d v : configured (conf d) ->
  configured (conf (mmio_out d (REG VIRTIO_MMIO_QUEUE_NOTIFY) v)).
Proof using.
  intros []. split; rewrite conf_out; change (REG _ =? REG _) with false; cbn [andb];
    by rewrite upd_other.
Qed.

Lemma areas_apart : apart
  [(B, 16 * NUM); (A, 4 + 2 * NUM); (U, 4 + 8 * NUM); (O, SIZEOF_REQ); (K, BY2PG); (T, 1)].
Proof using Hly.
  pose proof areas. cbn [apart]. repeat (split || apply Forall_nil || apply Forall_cons);
    cbn [fst snd]; offsets; lia.
Qed.

(** One request, from a state between requests to the next. *)
Record transferred (secno : Z) (write : bool) (s s' : idest) : Prop := {
  tr_ready : ready s';
  tr_idx : used_idx s' = used_idx s + 1;
  tr_srv : srv s' = srv s;
  tr_buf x : 0 <= x < BY2PG -> u8 (vmem s' (K + x)) =
    if write then u8 (vmem s (K + x)) else u8 (media (dev s) (secno * BY2SECT + x));
  tr_disk x : u8 (media (dev s') x) =
    if write && (secno * BY2SECT <=? x) && (x <? secno * BY2SECT + BY2PG)
    then u8 (vmem s (K + (x - secno * BY2SECT))) else u8 (media (dev s) x)
}.

(** The queue after the completion of a request: that of the next one. *)
Lemma completed_queue m m1 m2 f f' secno idx write :
  queue_ready m idx -> 0 <= idx < 65535 -> 0 <= secno < 2 ^ 64 -> m1 = submitted secno write idx m ->
  completion m1 m2 f f' U idx 0 K T (secno * BY2SECT) write ->
  queue_ready m2 (idx + 1).
Proof using Hly.
  intros Hq Hi Hs Hm1 [Hidx Hid Hst Hdata Hframe _].
  destruct (submitted_pending secno write idx m Hq ltac:(lia) Hs) as (_ & Ha & _ & _ & _ & Hids & _).
  rewrite <- Hm1 in *. pose proof (Z.mod_pos_bound idx NUM ltac:(done)) as Hmod.
  rewrite u16_id in Ha, Hidx by lia.
  assert (Hlow : forall x, B <= x < B + 2048 -> m2 x = m1 x).
  { intros x Hx. apply Hframe; far. }
  split; [|by rewrite <- Ha; apply le_ext; intros x Hx; rewrite Hlow by far|done|].
  - destruct Hq as [Hd _ _ _]. revert Hd. apply descriptors_ext. intros x Hx Hn.
    rewrite Hlow by far. subst m1. by rewrite submitted_other by far.
  - intros i Hr. destruct (decide (i = idx mod NUM)) as [->|Hne]; [done|].
    rewrite <- (Hids i Hr). apply le_ext. intros x Hx. rewrite Hframe; [done|..]; far.
Qed.

Lemma rw_run secno write s : ready s -> used_idx s < 65535 ->
  0 <= secno -> (secno + SECT2BLK) * BY2SECT <= capacity -> secno < 2 ^ 32 ->
  exists n0 s', (forall n, (n0 <= n)%nat ->
    virtio_disk_rw frame disk_status n secno write s = Ret tt s') /\
    transferred secno write s s'.
Proof using Hly.
  intros Hr Hlt Hnn Hcap Hs. pose proof Hr as [Hd Ha Hu Ho Hc Hi Hq].
  set (d1 := mmio_out (dev s) (REG VIRTIO_MMIO_QUEUE_NOTIFY) 0).
  set (m1 := submitted secno write (used_idx s) (vmem s)).
  set (s1 := set_shared (d1, m1) s).
  destruct (submitted_pending secno write _ _ Hq Hi ltac:(lia))
    as (Hch & Hav & Hus & Hri & Hse & Hids & Hdat). fold m1 in Hch, Hav, Hus, Hri, Hse, Hids, Hdat.
  destruct (configured_notify (dev s) 0 Hc) as [C1 C2 C3 C4 C5 C6 C7 C8 C9]. fold d1 in C1, C2, C3, C4, C5, C6, C7, C8, C9.
  destruct (moves d1 m1 B A U 0 1 2 O K T write C1 C2 C3 C4 C5 C6 C7 C8 C9)
    as (k & Hbefore & Hconf & Hco); try done.
  { by rewrite Hus. } { by rewrite Hus. }
  { apply areas_apart. }
  { by rewrite Hse. }
  rewrite Hus, Hse in *. set (p := Nat.iter k dev_move (d1, m1)) in *.
  pose proof (completed_queue _ _ _ _ _ secno (used_idx s) write Hq ltac:(lia) ltac:(lia) eq_refl Hco) as Hq2.
  set (s2 := set_used_idx (used_idx s + 1) (set_shared p s1)).
  assert (Hpoll : forall n, (k <= n)%nat -> poll frame n s1 = Ret tt (set_shared p s1)).
  { intros n Hn. apply (poll_run n k s1); [|done| |].
    - split; [|done]. destruct k; [|lia]. destruct Hco as [Hidx _ _ _ _ _]. subst p. cbn in Hidx.
      rewrite Hus, u16_id in Hidx; lia.
    - intros j Hj. change (used_idx s1) with (used_idx s). rewrite Hbefore by lia. lia.
    - apply Hq2. }
  exists k, s2. split.
  - intros n Hn. unfold virtio_disk_rw.
    rewrite (bind_step _ _ _ _ _ (submit_run secno write s Hr)). fold d1 m1 s1.
    rewrite (bind_step _ _ _ _ _ (Hpoll n Hn)).
    rewrite (bind_step _ _ _ tt s2) by (unfold modify; do 2 f_equal; apply u16_id; cbn; lia).
    destruct Hq2 as [_ _ Hu2 Hi2]. unfold ldn, user_assert_. munfold.
    rewrite Hu, (pa_buf _ 2050) by far. replace (B + 2050) with (u_idx U) by far. rewrite Hu2, Z.eqb_refl.
    pose proof (Z.mod_pos_bound (used_idx s + 1) NUM ltac:(done)).
    rewrite (pa_buf _ (2052 + 8 * ((used_idx s + 1) mod NUM))) by far.
    replace (B + _) with (u_id U ((used_idx s + 1) mod NUM)) by far. rewrite Hi2 by done. cbn [Z.eqb].
    replace (le 1 (vmem s2) T) with (u8 (p.2 T)) by (unfold le; cbn [vmem s2 set_used_idx set_shared]; lia).
    by rewrite (co_status _ _ _ _ _ _ _ _ _ _ _ Hco).
  - split; [|done|done| |].
    + split; try done; [cbn; by rewrite Hconf|cbn; lia].
    + intros x Hx. cbn. rewrite (co_data _ _ _ _ _ _ _ _ _ _ _ Hco x Hx), Hdat by done.
      unfold d1. by rewrite media_out.
    + intros x. cbn. rewrite (co_disk _ _ _ _ _ _ _ _ _ _ _ Hco). unfold d1. rewrite media_out.
      destruct write; [|done]. cbn [andb].
      destruct (Z.leb_spec (secno * BY2SECT) x), (Z.ltb_spec x (secno * BY2SECT + BY2PG)); try done.
      cbn [andb]. rewrite Hdat; [done|lia].
Qed.

(** ** Refinement of the block transfers of Fs.v *)

(** The server's state with the contents of the medium as its disk, in words. *)
Definition abs (s : idest) : fsst :=
  set_disk (fun x => bytes_word (fun j => u8 (media (dev s) (x + j)))) (srv s).

(** The same cache and disk, as words at aligned addresses. *)
Record fs_same (s t : fsst) : Prop := {
  fs_mapped : fmapped s = fmapped t;
  fs_super : super s = super t;
  fs_bitmap : bitmap s = bitmap t;
  fs_left : pages_left s = pages_left t;
  fs_mem x : x mod 4 = 0 -> u32 (fmem s x) = u32 (fmem t x);
  fs_disk x : x mod 4 = 0 -> u32 (disk s x) = u32 (disk t x)
}.

Lemma bytes_word_ext b c : (forall j, 0 <= j < 4 -> b j = c j) -> bytes_word b = bytes_word c.
Proof using. intros Hb. unfold bytes_word. by rewrite !Hb. Qed.

Lemma bytes_word_u32 w : bytes_word (fun j => word_byte w j) = u32 w.
Proof using.
  unfold bytes_word, word_byte, u32. change 0xFF with (Z.ones 8).
  rewrite !Z.land_ones, !Z.shiftr_div_pow2 by lia. cbn -[Z.div Z.modulo].
  Z.div_mod_to_equations. lia.
Qed.

Lemma bytes_word_range b : (forall j, 0 <= j < 4 -> 0 <= b j < 2 ^ 8) -> 0 <= bytes_word b < 2 ^ 32.
Proof using.
  intros Hb. pose proof (Hb 0 ltac:(lia)). pose proof (Hb 1 ltac:(lia)).
  pose proof (Hb 2 ltac:(lia)). pose proof (Hb 3 ltac:(lia)). unfold bytes_word. lia.
Qed.

Lemma u8_range z : 0 <= u8 z < 2 ^ 8.
Proof using. apply Z.mod_pos_bound. lia. Qed.

Lemma u8_small z : 0 <= z < 2 ^ 8 -> u8 z = z.
Proof using. apply Z.mod_small. Qed.

(** A block moved into an aligned page of the cache, word by word. *)
Lemma blit_block a src m x : a mod 4 = 0 -> x mod 4 = 0 ->
  blit a BY2PG src m x =
  if (a <=? x) && (x <? a + BY2PG) then bytes_word (fun j => src (x - a + j)) else m x.
Proof using.
  intros Ha Hx. unfold blit, BY2PG.
  destruct (Z.ltb_spec a (x + 4)), (Z.ltb_spec x (a + 4096)), (Z.leb_spec a x); cbn [andb]; try done;
    try (Z.div_mod_to_equations; lia).
  apply bytes_word_ext. intros j Hj.
  destruct (Z.leb_spec a (x + j)), (Z.ltb_spec (x + j) (a + 4096)); cbn [andb];
    try (Z.div_mod_to_equations; lia). f_equal. lia.
Qed.

Definition related (s : idest) (t : fsst) : Prop := ready s /\ fs_same (abs s) t.

Lemma related_mapped s t x : related s t -> fmapped (srv s) x = fmapped t x.
Proof using. intros [_ [Hm _ _ _ _ _]]. by rewrite <- Hm. Qed.

Lemma read_step s t sec a : related s t -> used_idx s < 65535 ->
  0 <= sec < 2 ^ 32 -> (sec + SECT2BLK) * BY2SECT <= capacity ->
  a mod 4 = 0 -> fmapped t (VPN a) = true ->
  exists n0 s' t', (forall n, (n0 <= n)%nat ->
    (virtio_disk_rw frame disk_status n sec false ;! from_disk_buf frame disk_buf a) s = Ret tt s') /\
    (ide_page a ;! modify (fun s => set_fmem (fun x =>
      if (a <=? x) && (x <? a + BY2PG) then disk s (sec * BY2SECT + (x - a)) else fmem s x) s)) t
      = Ret tt t' /\
    related s' t' /\ used_idx s' = used_idx s + 1 /\ fmapped t' = fmapped t.
Proof using Hly.
  intros Hrel Hlt Hsec Hcap Ha Hmap. pose proof Hrel as [Hr [Hm Hsu Hbi Hle Hmem Hdisk]].
  destruct (rw_run sec false s Hr Hlt) as (n0 & s1 & Hrun & [Hr1 Hi1 Hs1 Hb1 Hd1]); try lia.
  set (s2 := set_srv (set_fmem (blit a BY2PG (fun k => u8 (vmem s1 (K + k))) (fmem (srv s1))) (srv s1)) s1).
  eexists n0, s2, _. split_and!.
  - intros n Hn. rewrite (bind_step _ _ _ _ _ (Hrun n Hn)). unfold from_disk_buf.
    assert (Hmp : fmapped (srv s1) (VPN a) = true) by (by rewrite Hs1, (related_mapped s t)).
    by rewrite Hmp.
  - rewrite (bind_step _ _ t tt t); [done|]. unfold ide_page. by rewrite Hmap.
  - split; [by destruct Hr1; split|]. split; cbn; rewrite ?Hs1; try done.
    + intros x Hx. rewrite blit_block by done. specialize (Hmem x Hx). cbn in Hmem.
      destruct (Z.leb_spec a x), (Z.ltb_spec x (a + BY2PG)); cbn [andb]; try done.
      assert (Hal : (sec * BY2SECT + (x - a)) mod 4 = 0) by (unfold BY2SECT; Z.div_mod_to_equations; lia).
      rewrite <- (Hdisk _ Hal). cbn. f_equal. apply bytes_word_ext. intros j Hj.
      rewrite Hb1 by (unfold BY2PG in *; Z.div_mod_to_equations; lia).
      do 2 f_equal. lia.
    + intros x Hx. rewrite <- (Hdisk x Hx). cbn. f_equal. apply bytes_word_ext. intros j Hj.
      by rewrite Hd1.
  - done.
  - done.
Qed.

Lemma queue_ready_ext m m' idx : (forall x, B <= x < B + BY2PG -> m x = m' x) ->
  queue_ready m idx -> queue_ready m' idx.
Proof using.
  intros Hm [Hd Ha Hu Hi]. split.
  - revert Hd. apply descriptors_ext. intros x Hx _. rewrite Hm by (offsets; lia). done.
  - rewrite <- Ha. apply le_ext. intros x Hx. rewrite Hm by (offsets; lia). done.
  - rewrite <- Hu. apply le_ext. intros x Hx. rewrite Hm by (offsets; lia). done.
  - intros i Hr. rewrite <- (Hi i Hr). apply le_ext. intros x Hx. rewrite Hm by (offsets; lia). done.
Qed.

Lemma write_step s t sec a : related s t -> used_idx s < 65535 ->
  0 <= sec < 2 ^ 32 -> (sec + SECT2BLK) * BY2SECT <= capacity ->
  a mod 4 = 0 -> fmapped t (VPN a) = true ->
  exists n0 s' t', (forall n, (n0 <= n)%nat ->
    (to_disk_buf frame disk_buf a ;! virtio_disk_rw frame disk_status n sec true) s = Ret tt s') /\
    (let d := sec * BY2SECT in
     ide_page a ;! modify (fun s => set_disk (fun x =>
      if (d <=? x) && (x <? d + BY2PG) then fmem s (a + (x - d)) else disk s x) s)) t
      = Ret tt t' /\
    related s' t' /\ used_idx s' = used_idx s + 1 /\ fmapped t' = fmapped t.
Proof using Hly.
  intros Hrel Hlt Hsec Hcap Ha Hmap. pose proof Hrel as [Hr [Hm Hsu Hbi Hle Hmem Hdisk]].
  set (s1 := set_vmem (fun x => if (K <=? x) && (x <? K + BY2PG)
    then mem_byte (fmem (srv s)) (a + (x - K)) else vmem s x) s).
  assert (Hr1 : ready s1).
  { destruct Hr as [? ? ? ? ? ? Hq]. split; try done. revert Hq. apply queue_ready_ext. intros x Hx. cbn.
    destruct areas as [Hk _].
    by destruct (Z.leb_spec K x), (Z.ltb_spec x (K + BY2PG)); cbn; (lia || done). }
  destruct (rw_run sec true s1 Hr1) as (n0 & s2 & Hrun & [Hr2 Hi2 Hs2 Hb2 Hd2]); [done|lia..|].
  eexists n0, s2, _. split_and!.
  - intros n Hn. rewrite (bind_step _ _ s tt s1); [by apply Hrun|].
    unfold to_disk_buf. by rewrite (related_mapped s t _ Hrel), Hmap.
  - rewrite (bind_step _ _ t tt t); [done|]. unfold ide_page. by rewrite Hmap.
  - split; [done|]. split; cbn; rewrite ?Hs2; try done.
    intros x Hx. specialize (Hdisk x Hx). cbn in Hdisk.
    destruct (Z.leb_spec (sec * BY2SECT) x), (Z.ltb_spec x (sec * BY2SECT + BY2PG)); cbn [andb].
    2-4: rewrite <- Hdisk; f_equal; apply bytes_word_ext; intros j Hj; rewrite Hd2;
      destruct (Z.leb_spec (sec * BY2SECT) (x + j)), (Z.ltb_spec (x + j) (sec * BY2SECT + BY2PG));
      cbn [andb]; try done; unfold BY2SECT, BY2PG in *; Z.div_mod_to_equations; lia.
    assert (Hal : (a + (x - sec * BY2SECT)) mod 4 = 0) by (unfold BY2SECT; Z.div_mod_to_equations; lia).
    rewrite <- (Hmem _ Hal). cbn. rewrite <- (bytes_word_u32 (fmem (srv s) _)). rewrite (u32_id (bytes_word _)).
    2:{ apply bytes_word_range. intros. apply u8_range. }
    apply bytes_word_ext. intros j Hj. rewrite Hd2. cbn.
    destruct (Z.leb_spec (sec * BY2SECT) (x + j)); [|lia].
    destruct (Z.ltb_spec (x + j) (sec * BY2SECT + BY2PG)).
    2:{ unfold BY2SECT, BY2PG in *; Z.div_mod_to_equations; lia. }
    cbn [andb]. unfold s1. cbn. destruct (Z.leb_spec K (K + (x + j - sec * BY2SECT))); [|lia].
    destruct (Z.ltb_spec (K + (x + j - sec * BY2SECT)) (K + BY2PG)); [|lia]. cbn [andb].
    unfold mem_byte. rewrite u8_small by apply word_byte_range.
    set (o := a + (x - sec * BY2SECT)) in *.
    replace (a + (K + (x + j - sec * BY2SECT) - K)) with (o + j) by lia.
    replace ((o + j) mod 4) with j by (Z.div_mod_to_equations; lia).
    by replace (o + j - j) with o by lia.
  - done.
  - done.
Qed.

(** A loop of steps that agree is a loop that agrees. *)
Lemma loop_related (cb : nat -> Z -> M idest unit) (ab : Z -> FM unit) mp l : forall s t,
  (forall i s t, i ∈ l -> related s t -> used_idx s < 65535 -> fmapped t = mp ->
     exists n0 s' t', (forall n, (n0 <= n)%nat -> cb n i s = Ret tt s') /\ ab i t = Ret tt t' /\
       related s' t' /\ used_idx s' = used_idx s + 1 /\ fmapped t' = fmapped t) ->
  related s t -> fmapped t = mp -> used_idx s + Z.of_nat (length l) <= 65535 ->
  exists n0 s' t', (forall n, (n0 <= n)%nat -> forM l (cb n) s = Ret tt s') /\ forM l ab t = Ret tt t' /\
    related s' t' /\ used_idx s' = used_idx s + Z.of_nat (length l).
Proof using.
  induction l as [|i l IH]; intros s t Hstep Hrel Hmp Hidx.
  - exists 0%nat, s, t. split_and!; [done|done|done|cbn; lia].
  - cbn [length] in *.
    destruct (Hstep i s t) as (n1 & s1 & t1 & Hc & Ha & Hrel1 & Hi1 & Hm1); [by left|done|lia|done|].
    destruct (IH s1 t1) as (n2 & s2 & t2 & Hc2 & Ha2 & Hrel2 & Hi2); [|done|congruence|lia|].
    { intros i' s' t' Hin. apply Hstep. by right. }
    exists (n1 `max` n2)%nat, s2, t2. split_and!; [| |done|lia].
    + intros n Hn. cbn [forM]. rewrite (bind_step _ _ _ _ _ (Hc n ltac:(lia))). apply Hc2. lia.
    + cbn [forM]. by rewrite (bind_step _ _ _ _ _ Ha).
Qed.

Lemma block_steps_length nsecs : 0 <= nsecs ->
  Z.of_nat (length (block_steps nsecs)) = nsecs / SECT2BLK.
Proof using.
  intros Hn. unfold block_steps. rewrite length_fmap, length_seqZ, Z2Nat.id; [lia|].
  apply Z.div_pos; [lia|done].
Qed.

Lemma block_steps_in nsecs i : nsecs mod SECT2BLK = 0 -> i ∈ block_steps nsecs ->
  0 <= i /\ i + SECT2BLK <= nsecs /\ i mod SECT2BLK = 0.
Proof using.
  unfold block_steps. intros Hn (k & -> & Hk)%list_elem_of_fmap. apply elem_of_seqZ in Hk.
  change SECT2BLK with 8 in *. Z.div_mod_to_equations. lia.
Qed.

(** C30. The disk driver implements the block transfers the file server is built
    on: with a virtio block device that keeps its protocol, from a state between
    requests and as long as no more than 65535 requests have been made since
    [ide_init], [ide_read] and [ide_write] return when the device has had time
    to answer, leave the cache and the medium as the whole-block transfers of
    the model of fs.c do (the same words in every page and every sector), and
    are ready for the next request. *)
Theorem ide_transfers s t secno va nsecs d :
  related s t -> used_idx s + nsecs / SECT2BLK <= 65535 ->
  0 <= secno -> 0 <= nsecs -> nsecs mod SECT2BLK = 0 -> secno + nsecs <= 2 ^ 32 ->
  (secno + nsecs) * BY2SECT <= capacity -> va mod BY2PG = 0 ->
  (forall i, 0 <= i -> i + SECT2BLK <= nsecs -> fmapped t (VPN (va + i * BY2SECT)) = true) ->
  (exists n0 s' t', (forall n, (n0 <= n)%nat ->
      Ide.ide_read frame disk_buf disk_status n d secno va nsecs s = Ret tt s') /\
    Fs.ide_read secno va nsecs t = Ret tt t' /\
    related s' t' /\ used_idx s' = used_idx s + nsecs / SECT2BLK) /\
  (exists n0 s' t', (forall n, (n0 <= n)%nat ->
      Ide.ide_write frame disk_buf disk_status n d secno va nsecs s = Ret tt s') /\
    Fs.ide_write secno va nsecs t = Ret tt t' /\
    related s' t' /\ used_idx s' = used_idx s + nsecs / SECT2BLK).
Proof using Hly.
  intros Hrel Hidx Hsec Hn Hmod Hmax Hcap Hva Hmap.
  rewrite <- (block_steps_length nsecs Hn) in Hidx |- *.
  assert (Hin : forall i, i ∈ block_steps nsecs ->
    u32 (secno + i) = secno + i /\ 0 <= secno + i < 2 ^ 32 /\
    (secno + i + SECT2BLK) * BY2SECT <= capacity /\ (va + i * BY2SECT) mod 4 = 0 /\
    fmapped t (VPN (va + i * BY2SECT)) = true).
  { intros i (H1 & H2 & H3)%(block_steps_in _ _ Hmod).
    change SECT2BLK with 8 in *. unfold BY2SECT, BY2PG in *.
    split_and!; [apply u32_id; lia|lia|lia|lia| |apply Hmap; lia]. Z.div_mod_to_equations. lia. }
  split.
  - edestruct (loop_related (fun n i =>
        virtio_disk_rw frame disk_status n (u32 (secno + i)) false ;!
        from_disk_buf frame disk_buf (va + i * BY2SECT))) as (n0 & s' & t' & Hc & Ha & Hr & Hi);
      [|exact Hrel|reflexivity|exact Hidx|].
    { intros i s1 t1 (Hu & Hb & Hcp & Hal & Hmp)%Hin Hrel1 Hlt Hm. rewrite Hu.
      apply read_step; [done..|by rewrite Hm]. }
    exists n0, s', t'. split_and!; [intros n Hn0|..]; [|..|done|done];
      unfold Ide.ide_read, Fs.ide_read; rewrite Hmod; [by apply Hc|exact Ha].
  - edestruct (loop_related (fun n i =>
        to_disk_buf frame disk_buf (va + i * BY2SECT) ;!
        virtio_disk_rw frame disk_status n (u32 (secno + i)) true)) as (n0 & s' & t' & Hc & Ha & Hr & Hi);
      [|exact Hrel|reflexivity|exact Hidx|].
    { intros i s1 t1 (Hu & Hb & Hcp & Hal & Hmp)%Hin Hrel1 Hlt Hm. rewrite Hu.
      apply write_step; [done..|by rewrite Hm]. }
    exists n0, s', t'. split_and!; [intros n Hn0|..]; [|..|done|done];
      unfold Ide.ide_write, Fs.ide_write; rewrite Hmod; [by apply Hc|exact Ha].
Qed.

(** ** Bringing the device up *)
Definition stored (r v : Z) (s : idest) : idest :=
  set_shared (mmio_out (dev s) (REG r) (u32 v), vmem s) s.

Lemma mmio_out_run {X} r v (k : M idest X) s : (MMIO_OUT r v ;! k) s = k (stored r v s).
Proof using. done. Qed.

Lemma mmio_in_run {X} r (k : Z -> M idest X) s :
  bind (MMIO_IN r) k s = k (mmio_in (dev s) (REG r)) s.
Proof using. done. Qed.

Lemma conf_stored r v s x : REG r <> REG VIRTIO_MMIO_STATUS ->
  conf (dev (stored r v s)) x = upd (conf (dev s)) (REG r) (u32 v) x.
Proof using.
  intros Hr. unfold stored. cbn. rewrite conf_out. by destruct (Z.eqb_spec (REG r) (REG VIRTIO_MMIO_STATUS)).
Qed.

Lemma conf_status v s x :
  conf (dev (stored VIRTIO_MMIO_STATUS v s)) x =
  if u32 v =? 0 then 0 else upd (conf (dev s)) (REG VIRTIO_MMIO_STATUS) (u32 v) x.
Proof using. unfold stored. cbn. by rewrite conf_out, Z.eqb_refl. Qed.

Lemma media_stored r v s : media (dev (stored r v s)) = media (dev s).
Proof using. apply media_out. Qed.

Lemma conf_zero r v s x : REG x <> REG r -> conf (dev s) (REG x) = 0 ->
  conf (dev (stored r v s)) (REG x) = 0.
Proof using.
  intros Hx Hz. unfold stored. cbn. rewrite conf_out, upd_other by done. by destruct (_ && _).
Qed.

Lemma conf_reset s x : conf (dev (stored VIRTIO_MMIO_STATUS 0 s)) x = 0.
Proof using. by rewrite conf_status. Qed.

#[local] Arguments stored : simpl never.

Lemma init_device_run s : exists st d, init_device s = Ret st (set_shared (d, vmem s) s) /\
  media d = media (dev s).
Proof using.
  unfold init_device.
  rewrite !mmio_in_run, in_magic, in_version, in_id, in_vendor. cbn [andb Z.eqb halt_unless].
  rewrite (bind_step _ _ s tt s) by done.
  rewrite !mmio_out_run, mmio_in_run, !mmio_out_run, mmio_in_run.
  set (s1 := stored VIRTIO_MMIO_STATUS (Z.lor _ VIRTIO_CONFIG_S_FEATURES_OK) _).
  rewrite (bind_step _ _ s1 tt s1).
  2:{ unfold halt_unless. rewrite in_status; [done|]. unfold s1. by rewrite conf_status. }
  rewrite mmio_out_run, mmio_in_run, in_ready.
  2:{ repeat (apply conf_reset || (apply conf_zero; [done|])). }
  pose proof (in_num_max (dev (stored VIRTIO_MMIO_QUEUE_SEL 0 s1))) as Hmax.
  cbn [truthy negb halt_unless Z.eqb]. rewrite (bind_step _ _ _ tt (stored VIRTIO_MMIO_QUEUE_SEL 0 s1)) by done.
  rewrite mmio_in_run.
  destruct (Z.ltb_spec (mmio_in (dev (stored VIRTIO_MMIO_QUEUE_SEL 0 s1)) (REG VIRTIO_MMIO_QUEUE_NUM_MAX)) NUM);
    [lia|].
  eexists _, (dev (stored VIRTIO_MMIO_QUEUE_SEL 0 s1)). split; [reflexivity|].
  unfold s1. by rewrite !media_stored.
Qed.

Definition zeroed (m : Z -> Z) : Z -> Z := fun x => if (B <=? x) && (x <? B + BY2PG) then 0 else m x.
Definition init_mem (m : Z -> Z) : Z -> Z :=
  let m := put_le 2 (a_flags A) 1 (zeroed m) in
  let m := put_le 4 (r_reserved O) 0 m in
  let m := put_le 8 (d_addr B 0) O m in
  let m := put_le 4 (d_len B 0) SIZEOF_REQ m in
  let m := put_le 2 (d_flags B 0) VRING_DESC_F_NEXT m in
  let m := put_le 2 (d_next B 0) 1 m in
  let m := put_le 8 (d_addr B 1) K m in
  let m := put_le 4 (d_len B 1) BY2PG m in
  let m := put_le 2 (d_next B 1) 2 m in
  let m := put_le 8 (d_addr B 2) T m in
  let m := put_le 4 (d_len B 2) 1 m in
  let m := put_le 2 (d_flags B 2) VRING_DESC_F_WRITE m in
  put_le 2 (d_next B 2) 0 m.

Lemma le_zero n m a : (forall x, a <= x < a + Z.of_nat n -> m x = 0) -> le n m a = 0.
Proof using.
  revert a. induction n as [|n IH]; intros a Hm; [done|]. unfold le; fold le.
  rewrite Hm, IH by (intros; apply Hm; lia) || lia. done.
Qed.

Lemma init_mem_ready m : queue_ready (init_mem m) 0.
Proof using Hly.
  assert (Hz : forall n a, B <= a -> a + Z.of_nat n <= B + BY2PG -> le n (zeroed m) a = 0).
  { intros n a Ha Hn. apply le_zero. intros x Hx. unfold zeroed.
    destruct (Z.leb_spec B x), (Z.ltb_spec x (B + BY2PG)); cbn [andb]; (lia || done). }
  pose proof areas as (_ & _ & _ & ? & ? & ? & ? & ?). unfold init_mem.
  split; [split|..].
  all: try (repeat mem_step; first [done | apply Z.mod_small; unfold BY2PG in *; lia]).
  - repeat mem_step. apply Hz; far.
  - repeat mem_step. apply Hz; far.
  - intros i Hi. repeat mem_step. apply Hz; far.
Qed.

Definition queued (s : idest) : idest :=
  stored VIRTIO_MMIO_QUEUE_READY 1 (stored VIRTIO_MMIO_DEVICE_DESC_HIGH 0
  (stored VIRTIO_MMIO_DEVICE_DESC_LOW U (stored VIRTIO_MMIO_DRIVER_DESC_HIGH 0
  (stored VIRTIO_MMIO_DRIVER_DESC_LOW A (stored VIRTIO_MMIO_QUEUE_DESC_HIGH 0
  (stored VIRTIO_MMIO_QUEUE_DESC_LOW B (stored VIRTIO_MMIO_QUEUE_NUM NUM s))))))).

Lemma queued_configured st s :
  configured (conf (dev (stored VIRTIO_MMIO_STATUS (Z.lor st VIRTIO_CONFIG_S_DRIVER_OK) (queued s)))).
Proof using Hly.
  pose proof areas as (_ & _ & _ & ? & ? & _).
  assert (Hok : truthy (Z.land (u32 (Z.lor st VIRTIO_CONFIG_S_DRIVER_OK)) VIRTIO_CONFIG_S_DRIVER_OK) = true).
  { change (Z.land _ VIRTIO_CONFIG_S_DRIVER_OK) with (Z.land (u32 (Z.lor st 4)) (2 ^ 2)).
    rewrite truthy_land_bit by lia. unfold u32. by rewrite Z.mod_pow2_bits_low, Z.lor_spec, orb_true_r by lia. }
  assert (Hnz : (u32 (Z.lor st VIRTIO_CONFIG_S_DRIVER_OK) =? 0) = false).
  { destruct (Z.eqb_spec (u32 (Z.lor st VIRTIO_CONFIG_S_DRIVER_OK)) 0) as [E|]; [|done].
    by rewrite E in Hok. }
  unfold BY2PG in *.
  split; rewrite conf_status, Hnz; [by rewrite upd_same|..]; rewrite upd_other by done; unfold queued;
    repeat (rewrite conf_stored by done; first [rewrite upd_same | rewrite upd_other by done]);
    done || (apply u32_id; lia).
Qed.

Lemma pa_field va va' : va - buf = va' - B -> 0 <= va - buf < BY2PG -> PA va = va'.
Proof using Hly. intros He Hr. rewrite (pa_buf va (va - buf)); lia. Qed.

(** [ide_init] brings the driver to the state between requests. *)
Lemma ide_init_correct s : used_idx s = 0 ->
  exists s', ide_init frame buf disk_buf disk_status s = Ret tt s' /\ ready s' /\
    used_idx s' = 0 /\ srv s' = srv s /\ media (dev s') = media (dev s).
Proof using Hly.
  intros Hi. destruct (init_device_run s) as (st & d & Hrun & Hm).
  set (s1 := set_shared (d, vmem s) s) in *.
  set (s2 := set_vmem (put_le 2 (a_flags A) 1 (zeroed (vmem s)))
    (set_queue buf (buf + 1024) (buf + 2048) (buf + 3072) s1)).
  set (s3 := stored VIRTIO_MMIO_STATUS (Z.lor st VIRTIO_CONFIG_S_DRIVER_OK) (queued s2)).
  exists (set_vmem (init_mem (vmem s)) s3). split_and!.
  - unfold ide_init. rewrite (bind_step _ _ _ _ _ Hrun).
    rewrite (bind_step _ _ s1 tt s2).
    2:{ unfold init_memory. munfold. unfold stn. munfold.
        rewrite (pa_buf _ 1024) by far. done. }
    rewrite (bind_step _ _ s2 tt (queued s2)).
    2:{ unfold init_queue. munfold. unfold MMIO_OUT, queued, stored. munfold.
        by rewrite (pa_buf (buf + 1024) 1024), (pa_buf (buf + 2048) 2048) by (done || far). }
    rewrite mmio_out_run. fold s3. unfold init_chain, stn. munfold.
    match goal with |- Ret tt (set_vmem ?M ?s') = _ =>
      change (set_vmem M s') with (set_vmem M s3) end.
    change (disk_desc s3) with buf. change (disk_op s3) with (buf + 3072).
    rewrite (pa_field (r_reserved (buf + 3072)) (r_reserved O)), (pa_field (buf + 3072) O),
      (pa_field (d_addr buf 0) (d_addr B 0)), (pa_field (d_len buf 0) (d_len B 0)),
      (pa_field (d_flags buf 0) (d_flags B 0)), (pa_field (d_next buf 0) (d_next B 0)),
      (pa_field (d_addr buf 1) (d_addr B 1)), (pa_field (d_len buf 1) (d_len B 1)),
      (pa_field (d_next buf 1) (d_next B 1)), (pa_field (d_addr buf 2) (d_addr B 2)),
      (pa_field (d_len buf 2) (d_len B 2)), (pa_field (d_flags buf 2) (d_flags B 2)),
      (pa_field (d_next buf 2) (d_next B 2)) by far.
    change (vmem s3) with (put_le 2 (a_flags A) 1 (zeroed (vmem s))).
    done.
  - split; [done..|apply queued_configured|by change (used_idx _) with (used_idx s); rewrite Hi
      |change (used_idx _) with (used_idx s); rewrite Hi; apply init_mem_ready].
  - done.
  - done.
  - cbn. unfold s3, queued. by rewrite !media_stored.
Qed.
End Driver.

(** ** The request after the 65535th *)

(** [disk.used_idx + 1] is an [int] and [disk.used->idx] a [u_short]. *)
Lemma poll_exhausted `{Virtio} frame n : forall s, used_idx s = 65535 -> poll frame n s = Fault.
Proof.
  induction n as [|n IH]; intros s Hs; [done|]. cbn [poll].
  rewrite (bind_step _ _ s tt (set_shared (dev_move (dev s, vmem s)) s)) by done.
  set (s1 := set_shared _ s). rewrite (bind_step _ _ s1 s1 s1) by done.
  pose proof (le_range 2 (vmem s1) (VA2PA frame (u_idx (disk_used s1)))) as Hle.
  rewrite (bind_step _ _ s1 (le 2 (vmem s1) (VA2PA frame (u_idx (disk_used s1)))) s1) by done.
  change (used_idx s1) with (used_idx s). rewrite Hs.
  destruct (Z.eqb_spec (65535 + 1) (le 2 (vmem s1) (VA2PA frame (u_idx (disk_used s1))))); [lia|].
  by apply IH.
Qed.

Lemma submit_returns `{Virtio} frame st secno write s : exists s',
  submit frame st secno write s = Ret tt s' /\ used_idx s' = used_idx s.
Proof. unfold submit, stn, ldn, MMIO_OUT. munfold. by eexists. Qed.

(** C31. The 65536th request never ends, whatever the device does: with
    [disk.used_idx] at 65535 the loop waits for an index of 65536, which the
    16 bits of [used->idx] cannot hold, so no number of polls is enough. *)
Theorem disk_exhausted `{Virtio} frame st secno write s : used_idx s = 65535 ->
  forall polls, virtio_disk_rw frame st polls secno write s = Fault.
Proof.
  intros Hs polls. destruct (submit_returns frame st secno write s) as (s1 & Hrun & Hi).
  unfold virtio_disk_rw. rewrite (bind_step _ _ _ _ _ Hrun). unfold bind at 1.
  by rewrite poll_exhausted by congruence.
Qed.

(** ** A device *)

(** It serves a request at its first move; registers hold what was stored. *)
Definition ex_move (p : ((Z -> Z) * (Z -> Z)) * (Z -> Z)) : ((Z -> Z) * (Z -> Z)) * (Z -> Z) :=
  let '((c, disk), m) := p in
  let t := c (REG VIRTIO_MMIO_QUEUE_DESC_LOW) in
  let a := c (REG VIRTIO_MMIO_DRIVER_DESC_LOW) in
  let u := c (REG VIRTIO_MMIO_DEVICE_DESC_LOW) in
  let idx := le 2 m (u_idx u) in
  if le 2 m (a_idx a) =? idx then p
  else
    let h := le 2 m (a_ring a (idx mod NUM)) in
    let hdr := le 8 m (d_addr t h) in
    let n1 := le 2 m (d_next t h) in
    let data := le 8 m (d_addr t n1) in
    let sts := le 8 m (d_addr t (le 2 m (d_next t n1))) in
    let pos := le 8 m (r_sector hdr) * BY2SECT in
    let write := negb (le 4 m (r_type hdr) =? VIRTIO_BLK_T_IN) in
    let moved := fun x =>
      if x =? sts then VIRTIO_BLK_S_OK
      else if negb write && (data <=? x) && (x <? data + BY2PG) then disk (pos + (x - data))
      else m x in
    ((c, fun x => if write && (pos <=? x) && (x <? pos + BY2PG) then m (data + (x - pos)) else disk x),
     put_le 4 (u_id u (idx mod NUM)) h (put_le 2 (u_idx u) (idx + 1) moved)).

Definition ex_in (d : (Z -> Z) * (Z -> Z)) (r : Z) : Z :=
  if r =? REG VIRTIO_MMIO_MAGIC_VALUE then 0x74726976
  else if (r =? REG VIRTIO_MMIO_VERSION) || (r =? REG VIRTIO_MMIO_DEVICE_ID) then 2
  else if r =? REG VIRTIO_MMIO_VENDOR_ID then 0x554d4551
  else if r =? REG VIRTIO_MMIO_QUEUE_NUM_MAX then 1024
  else fst d r.

Definition ex_out (d : (Z -> Z) * (Z -> Z)) (r v : Z) : (Z -> Z) * (Z -> Z) :=
  (fun x => if (r =? REG VIRTIO_MMIO_STATUS) && (v =? 0) then 0 else upd (fst d) r v x, snd d).

#[export] Instance ex_virtio : Virtio :=
  {| vdev := (Z -> Z) * (Z -> Z); mmio_in := ex_in; mmio_out := ex_out; dev_move := ex_move |}.

#[export] Program Instance ex_virtio_blk : VirtioBlk :=
  {| conf := fst; media := snd; capacity := 2 ^ 41 |}.
Solve Obligations with (try done).
Next Obligation.
  intros [c disk] m t a u h n1 n2 hdr data sts write _ _ _ Ht _ Ha _ Hu _ Hidx Hh Hch Hap _.
  exists 1%nat. cbn [fst snd] in *.
  destruct Hch as [_ C1 C2 C3 C4 C5 C6 C7 C8 C9 C10 C11 C12].
  pose proof (le_range 2 m (u_idx u)) as Hr. set (idx := le 2 m (u_idx u)) in *.
  pose proof (Z.mod_pos_bound idx NUM ltac:(done)) as Hmod.
  assert (Hh2 : 0 <= h < 2 ^ (8 * Z.of_nat 4)).
  { subst h. pose proof (le_range 2 m (a_ring a (idx mod NUM))). cbn in *. lia. }
  assert (Hne : (le 2 m (a_idx a) =? idx) = false).
  { apply Z.eqb_neq. rewrite Hidx. unfold u16. change (8 * Z.of_nat 2) with 16 in Hr.
    intros E. Z.div_mod_to_equations. lia. }
  assert (Hw : negb (le 4 m (r_type hdr) =? VIRTIO_BLK_T_IN) = write) by (rewrite C12; by destruct write).
  change (Nat.iter 1 _ _) with (ex_move ((c, disk), m)). unfold ex_move.
  rewrite Ht, Ha, Hu. fold idx. rewrite Hne, Hh, C1, C4, C5, C8, C9, Hw.
  split; [intros [|j] Hj; [done|lia]|]. split; [done|]. cbn [fst snd].
  cbn [apart] in Hap. rewrite !Forall_cons in Hap. cbn [fst snd] in Hap. 
  destruct Hap as (_ & _ & (_ & Hud & Hus & _) & _ & (Hds & _) & _).
  clear Hne Hw Ht Ha Hu Hidx Hh C1 C2 C3 C4 C5 C6 C7 C8 C9 C10 C11 C12. clearbody idx.
  split; unfold u_idx, u_id, BY2PG, NUM, SIZEOF_REQ in *.
  - rewrite le_put_other by lia. by rewrite le_put_same.
  - rewrite le_put_same. by apply Z.mod_small.
  - rewrite !put_le_other by lia. by rewrite Z.eqb_refl.
  - intros x Hx. rewrite !put_le_other by lia. destruct (Z.eqb_spec (data + x) sts); [lia|].
    destruct write; [done|]. cbn [negb andb].
    destruct (Z.leb_spec data (data + x)), (Z.ltb_spec (data + x) (data + 4096)); try lia. cbn [andb].
    do 2 f_equal. lia.
  - intros x H1 H2 H3 H4. rewrite !put_le_other by lia. destruct (Z.eqb_spec x sts); [done|].
    destruct (Z.leb_spec data x), (Z.ltb_spec x (data + 4096)); try lia; by rewrite ?andb_false_r, ?andb_true_r.
  - intros x. by destruct (write && _ && _).
Qed.

Definition ex_frame (v : Z) : Z := v mod 2 ^ 20 * BY2PG.
Definition ex_buf : Z := 0x400000.
Definition ex_disk_buf : Z := 0x401000.
Definition ex_status : Z := 0x402010.

Lemma ex_layout : layout ex_frame ex_buf ex_disk_buf ex_status.
Proof.
  split; try done. intros v. unfold ex_frame, BY2PG. split; [by rewrite Z.mod_mul|].
  pose proof (Z.mod_pos_bound v (2 ^ 20) ltac:(done)). lia.
Qed.

Definition ex_cache : fsst := mkFs (fun x => x) (fun _ => true) 0 0 (fun _ => 0) 10.
Definition ex_new : idest :=
  mkIde (fun _ => 0) (fun _ => 0, fun x => x) 0 0 0 0 0 ex_cache.
Definition ex_ready : idest :=
  stored VIRTIO_MMIO_STATUS (Z.lor 11 VIRTIO_CONFIG_S_DRIVER_OK)
    (queued ex_frame ex_buf
      (set_vmem (init_mem ex_frame ex_buf ex_disk_buf ex_status (fun _ => 0))
        (set_queue ex_buf (ex_buf + 1024) (ex_buf + 2048) (ex_buf + 3072) ex_new))).

Lemma ex_ready_ok : ready ex_frame ex_buf ex_disk_buf ex_status ex_ready.
Proof.
  split; [done..|by apply (queued_configured _ _ _ _ ex_layout)|done|].
  apply (init_mem_ready _ _ _ _ ex_layout).
Qed.

Lemma ex_related : related ex_frame ex_buf ex_disk_buf ex_status ex_ready (abs ex_ready).
Proof. split; [apply ex_ready_ok|by split]. Qed.

Lemma ex_init_ready : exists s',
  ide_init ex_frame ex_buf ex_disk_buf ex_status ex_new = Ret tt s' /\
  ready ex_frame ex_buf ex_disk_buf ex_status s'.
Proof.
  destruct (ide_init_correct ex_frame ex_buf ex_disk_buf ex_status ex_layout ex_new)
    as (s' & Hrun & Hr & _); [reflexivity|].
  exists s'. split; [exact Hrun|exact Hr].
Qed.

Lemma ide_transfers_witness : exists n0 s', forall n, (n0 <= n)%nat ->
  Ide.ide_write ex_frame ex_disk_buf ex_status n 0 16 0x10002000 8 ex_ready = Ret tt s'.
Proof.
  destruct (ide_transfers ex_frame ex_buf ex_disk_buf ex_status ex_layout ex_ready (abs ex_ready)
    16 0x10002000 8 0) as (_ & n0 & s' & t' & Hw & _).
  - exact ex_related.
  - vm_compute; discriminate.
  - vm_compute; discriminate.
  - vm_compute; discriminate.
  - reflexivity.
  - vm_compute; discriminate.
  - vm_compute; discriminate.
  - reflexivity.
  - intros; reflexivity.
  - exists n0, s'. exact Hw.
Defined.

Lemma disk_exhausted_witness :
  virtio_disk_rw ex_frame ex_status 100 16 false (set_used_idx 65535 ex_ready) = Fault.
Proof. apply disk_exhausted. reflexivity. Defined.
