(* ===== verification/Elf.v ===== *)
(** * The ELF loader (lib/elfloader.c, include/elf.h)

    An image is the function from an offset to its byte; headers are parsed
    from their offsets.  [elf_load_seg] is generic in the state of its
    [map_page] callback. *)
From S2P Require Import Prelude Mmu UserMem.

Definition EI_NIDENT : Z := 16.
Definition ELFMAG0 : Z := 0x7f.
Definition ELFMAG1 : Z := 0x45.
Definition ELFMAG2 : Z := 0x4c.
Definition ELFMAG3 : Z := 0x46.
Definition PT_LOAD : Z := 1.
Definition PF_X : Z := 1.
Definition PF_W : Z := 2.

Record Elf32_Ehdr : Type := mkEhdr {
  e_ident : Z -> Z; e_type : Z; e_machine : Z; e_version : Z; e_entry : Z; e_phoff : Z;
  e_shoff : Z; e_flags : Z; e_ehsize : Z; e_phentsize : Z; e_phnum : Z; e_shentsize : Z;
  e_shnum : Z; e_shstrndx : Z
}.
Definition SIZEOF_EHDR : Z := 52.

Record Elf32_Phdr : Type := mkPhdr {
  p_type : Z; p_offset : Z; p_vaddr : Z; p_paddr : Z; p_filesz : Z; p_memsz : Z;
  p_flags : Z; p_align : Z
}.

(** [(Elf32_Ehdr * )binary] and [(Elf32_Phdr * )(binary + off)]. *)
Definition ehdr_at (b : Z -> Z) : Elf32_Ehdr :=
  mkEhdr b (le16 b 16) (le16 b 18) (le32 b 20) (le32 b 24) (le32 b 28) (le32 b 32) (le32 b 36)
    (le16 b 40) (le16 b 42) (le16 b 44) (le16 b 46) (le16 b 48) (le16 b 50).
Definition phdr_at (b : Z -> Z) (o : Z) : Elf32_Phdr :=
  mkPhdr (le32 b o) (le32 b (o + 4)) (le32 b (o + 8)) (le32 b (o + 12)) (le32 b (o + 16))
    (le32 b (o + 20)) (le32 b (o + 24)) (le32 b (o + 28)).

Definition elf_from (binary : Z -> Z) (size : Z) : option Elf32_Ehdr :=
  let ehdr := ehdr_at binary in
  if (SIZEOF_EHDR <=? size) && (e_ident ehdr 0 =? ELFMAG0) && (e_ident ehdr 1 =? ELFMAG1) &&
     (e_ident ehdr 2 =? ELFMAG2) && (e_ident ehdr 3 =? ELFMAG3) && (e_type ehdr =? 2)
  then Some ehdr else None.

(** The offsets [ELF_FOREACH_PHDR_OFF] visits. *)
Definition ELF_PHDR_OFFS (ehdr : Elf32_Ehdr) : list Z :=
  (fun k => u32 (e_phoff ehdr + k * e_phentsize ehdr)) <$> seqZ 0 (e_phnum ehdr).

(** [elf_mapper_t] with its [data] argument applied; [src] is an offset into
    the image, [None] is [NULL]. *)
Definition elf_mapper_t (S : Type) : Type := Z -> Z -> Z -> option Z -> Z -> M S Z.

(** One call of [map_page] as a record, for recording mappers and the
    reference definition. *)
Record map_call : Type := mkCall {
  mc_va : Z; mc_offset : Z; mc_perm : Z; mc_src : option Z; mc_len : Z
}.

Definition do_call {S} (map_page : elf_mapper_t S) (c : map_call) : M S Z :=
  map_page (mc_va c) (mc_offset c) (mc_perm c) (mc_src c) (mc_len c).

Section Load.
Context {S : Type} (map_page : elf_mapper_t S).

(** Step 1: the pages with content from the image. *)
Fixpoint load_content (n : nat) (va bin bin_size perm i : Z) (k : Z -> M S Z) : M S Z :=
  if i <? bin_size then
    match n with
    | O => fault
    | Datatypes.S n =>
        let! r := map_page (u32 (va + i)) 0 perm (Some (bin + i)) (Z.min (bin_size - i) BY2PG) in
        if r =? 0 then load_content n va bin bin_size perm (u32 (i + BY2PG)) k else ret r
    end
  else k i.

(** Step 2: the zero pages up to [sgsize]. *)
Fixpoint load_zero (n : nat) (va bin_size sgsize perm i : Z) : M S Z :=
  if i <? sgsize then
    match n with
    | O => fault
    | Datatypes.S n =>
        let! r := map_page (u32 (va + i)) 0 perm None (Z.min (u32 (bin_size - i)) BY2PG) in
        if r =? 0 then load_zero n va bin_size sgsize perm (u32 (i + BY2PG)) else ret r
    end
  else ret 0.

(** The iterations a loop from 0 to [sz] by pages needs. *)
Definition page_fuel (sz : Z) : nat := Z.to_nat (sz / BY2PG + 1).

Definition seg_perm (ph : Elf32_Phdr) : Z :=
  let perm := PTE_V in
  let perm := if truthy (Z.land (p_flags ph) PF_W) then Z.lor perm PTE_W else perm in
  if truthy (Z.land (p_flags ph) PF_X) then Z.lor perm PTE_X else perm.

Definition elf_load_seg (ph : Elf32_Phdr) (bin : Z) : M S Z :=
  let va := p_vaddr ph in
  let bin_size := p_filesz ph in
  let sgsize := p_memsz ph in
  let perm := seg_perm ph in
  let offset := u32 (va - ROUNDDOWN va BY2PG) in
  let rest (i : Z) : M S Z :=
    load_content (page_fuel bin_size) va bin bin_size perm i (fun i =>
      load_zero (page_fuel sgsize) va bin_size sgsize perm i) in
  if negb (offset =? 0) then
    let! r := map_page va offset perm (Some bin) (Z.min bin_size (BY2PG - offset)) in
    if r =? 0 then rest (Z.min bin_size (BY2PG - offset)) else ret r
  else rest 0.
End Load.

(** ** The reference loader

    The pages a segment touches, each loaded once: page [k] starts at offset
    [i] of the segment and holds the image bytes of the segment that fall in
    it, or none. *)
Fixpoint page_starts (n : nat) (i : Z) : list Z :=
  match n with O => [] | Datatypes.S n => i :: page_starts n (i + BY2PG) end.
Definition pages_from (i sz : Z) : list Z := page_starts (Z.to_nat ((sz - i + 4095) / BY2PG)) i.

Definition page_call (ph : Elf32_Phdr) (bin i : Z) : map_call :=
  mkCall (u32 (p_vaddr ph + i)) 0 (seg_perm ph)
    (if i <? p_filesz ph then Some (bin + i) else None)
    (Z.min (u32 (p_filesz ph - i)) BY2PG).

Definition seg_calls (ph : Elf32_Phdr) (bin : Z) : list map_call :=
  let offset := p_vaddr ph mod BY2PG in
  let size := Z.max (p_filesz ph) (p_memsz ph) in
  if offset =? 0 then page_call ph bin <$> pages_from 0 size
  else
    mkCall (p_vaddr ph) offset (seg_perm ph) (Some bin)
      (Z.min (p_filesz ph) (BY2PG - offset))
    :: (page_call ph bin <$> pages_from (BY2PG - offset) size).

(** Run calls in order until one fails. *)
Fixpoint run_calls {S} (map_page : elf_mapper_t S) (l : list map_call) : M S Z :=
  match l with
  | [] => ret 0
  | c :: l => let! r := do_call map_page c in if r =? 0 then run_calls map_page l else ret r
  end.

Lemma pages_from_nil i sz : sz <= i -> pages_from i sz = [].
Proof.
  intros H. unfold pages_from, BY2PG.
  replace (Z.to_nat ((sz - i + 4095) / 4096)) with 0%nat; [done|].
  assert ((sz - i + 4095) / 4096 < 1) by (apply Z.div_lt_upper_bound; lia). lia.
Qed.

Lemma pages_from_cons i sz : i < sz -> pages_from i sz = i :: pages_from (i + BY2PG) sz.
Proof.
  intros H. unfold pages_from, BY2PG.
  assert (1 <= (sz - i + 4095) / 4096) by (apply Z.div_le_lower_bound; lia).
  replace (sz - i + 4095) with (sz - (i + 4096) + 4095 + 1 * 4096) in * by lia.
  rewrite Z.div_add in * by lia.
  rewrite Z2Nat.inj_add by lia. rewrite Nat.add_comm. done.
Qed.

Section Equiv.
Context {S : Type} (map_page : elf_mapper_t S) (ph : Elf32_Phdr) (bin : Z).
Hypothesis Hfs : 0 <= p_filesz ph.
Hypothesis Hbound : Z.max (p_filesz ph) (p_memsz ph) <= 2 ^ 32 - BY2PG.

Lemma load_zero_calls n i s :
  0 <= i -> p_filesz ph <= i -> (p_memsz ph - i) / BY2PG < Z.of_nat n ->
  load_zero map_page n (p_vaddr ph) (p_filesz ph) (p_memsz ph) (seg_perm ph) i s =
  run_calls map_page (page_call ph bin <$> pages_from i (p_memsz ph)) s.
Proof using Hbound.
  revert i s. induction n as [|n IH]; intros i s Hi Hf Hn; cbn [load_zero];
    (destruct (Z.ltb_spec i (p_memsz ph)) as [Hlt|Hge]; [|by rewrite pages_from_nil]).
  - assert (0 <= (p_memsz ph - i) / BY2PG) by (apply Z.div_pos; unfold BY2PG; lia). lia.
  - rewrite pages_from_cons by done. cbn [fmap list_fmap run_calls].
    assert (Hc : do_call map_page (page_call ph bin i) =
      map_page (u32 (p_vaddr ph + i)) 0 (seg_perm ph) None
        (Z.min (u32 (p_filesz ph - i)) BY2PG)).
    { unfold do_call, page_call. cbn. destruct (Z.ltb_spec i (p_filesz ph)); [lia|done]. }
    rewrite Hc. unfold bind. destruct (map_page _ _ _ _ _ s) as [r s1| | |]; try done.
    destruct (r =? 0); [|done]. unfold BY2PG in *. rewrite u32_id by lia. apply IH; [lia..|].
    replace (p_memsz ph - (i + 4096)) with (p_memsz ph - i + (-1) * 4096) by lia.
    rewrite Z.div_add by lia. lia.
Qed.

Lemma zero_after i s :
  0 <= i -> p_filesz ph <= i ->
  load_zero map_page (page_fuel (p_memsz ph)) (p_vaddr ph) (p_filesz ph)
    (p_memsz ph) (seg_perm ph) i s =
  run_calls map_page
    (page_call ph bin <$> pages_from i (Z.max (p_filesz ph) (p_memsz ph))) s.
Proof using Hbound Hfs.
  intros Hi Hf. rewrite load_zero_calls; [|done|done|].
  - destruct (Z.le_gt_cases (p_memsz ph) (p_filesz ph)).
    + rewrite Z.max_l by lia. by rewrite !pages_from_nil by lia.
    + by rewrite Z.max_r by lia.
  - unfold page_fuel, BY2PG. destruct (Z.le_gt_cases 0 (p_memsz ph)).
    + assert ((p_memsz ph - i) / 4096 <= p_memsz ph / 4096) by (apply Z.div_le_mono; lia).
      assert (0 <= p_memsz ph / 4096) by (apply Z.div_pos; lia). lia.
    + assert ((p_memsz ph - i) / 4096 < 0) by (apply Z.div_lt_upper_bound; lia). lia.
Qed.

Lemma load_content_calls n i s :
  0 <= i -> (p_filesz ph - i) / BY2PG < Z.of_nat n ->
  load_content map_page n (p_vaddr ph) bin (p_filesz ph) (seg_perm ph) i
    (fun i => load_zero map_page (page_fuel (p_memsz ph)) (p_vaddr ph) (p_filesz ph)
                (p_memsz ph) (seg_perm ph) i) s =
  run_calls map_page
    (page_call ph bin <$> pages_from i (Z.max (p_filesz ph) (p_memsz ph))) s.
Proof using Hbound Hfs.
  revert i s. induction n as [|n IH]; intros i s Hi Hn; cbn [load_content];
    (destruct (Z.ltb_spec i (p_filesz ph)) as [Hlt|Hge]).
  - assert (0 <= (p_filesz ph - i) / BY2PG) by (apply Z.div_pos; unfold BY2PG; lia). lia.
  - by apply zero_after.
  - rewrite pages_from_cons by lia. cbn [fmap list_fmap run_calls].
    assert (Hc : do_call map_page (page_call ph bin i) =
      map_page (u32 (p_vaddr ph + i)) 0 (seg_perm ph) (Some (bin + i))
        (Z.min (p_filesz ph - i) BY2PG)).
    { unfold do_call, page_call. cbn. destruct (Z.ltb_spec i (p_filesz ph)); [|lia].
      unfold BY2PG in *. by rewrite (u32_id (p_filesz ph - i)) by lia. }
    rewrite Hc. unfold bind. destruct (map_page _ _ _ _ _ s) as [r s1| | |]; try done.
    destruct (r =? 0); [|done]. unfold BY2PG in *. rewrite u32_id by lia. apply IH; [lia|].
    replace (p_filesz ph - (i + 4096)) with (p_filesz ph - i + (-1) * 4096) by lia.
    rewrite Z.div_add by lia. lia.
  - by apply zero_after.
Qed.
End Equiv.

Lemma elf_load_seg_offset va :
  0 <= va < 2 ^ 32 -> u32 (va - ROUNDDOWN va BY2PG) = va mod BY2PG.
Proof.
  intros H. rewrite ROUNDDOWN_page by lia. unfold BY2PG.
  rewrite u32_id; Z.div_mod_to_equations; lia.
Qed.

(** The headers the loader handles as intended: sizes that do not wrap, and,
    when the segment does not start on a page boundary, image content up to
    the end of the first page or nothing beyond the content. *)
Definition seg_ok (ph : Elf32_Phdr) : Prop :=
  0 <= p_vaddr ph < 2 ^ 32 /\ 0 <= p_filesz ph /\
  Z.max (p_filesz ph) (p_memsz ph) <= 2 ^ 32 - BY2PG /\
  (p_vaddr ph mod BY2PG = 0 \/ BY2PG - p_vaddr ph mod BY2PG <= p_filesz ph \/
   p_memsz ph <= p_filesz ph).

Lemma elf_load_seg_calls {S} (map_page : elf_mapper_t S) ph bin s :
  seg_ok ph ->
  elf_load_seg map_page ph bin s = run_calls map_page (seg_calls ph bin) s.
Proof.
  intros (Hva & Hfs & Hb & Hcase). unfold elf_load_seg, seg_calls. cbv zeta.
  rewrite elf_load_seg_offset by done.
  assert (Ho : 0 <= p_vaddr ph mod BY2PG < BY2PG) by (apply Z.mod_pos_bound; done).
  destruct (Z.eqb_spec (p_vaddr ph mod BY2PG) 0) as [H0|Hne]; cbn [negb].
  - apply load_content_calls; [done|done|lia|]. unfold page_fuel. rewrite Z.sub_0_r.
    pose proof (Z.div_pos (p_filesz ph) BY2PG Hfs ltac:(done)). lia.
  - cbn [run_calls]. unfold do_call at 1. cbn [mc_va mc_offset mc_perm mc_src mc_len].
    unfold bind. destruct (map_page _ _ _ _ _ s) as [r s1| | |]; try done.
    destruct (r =? 0); [|done].
    rewrite load_content_calls; [|done|done|lia|].
    + destruct (Z.le_gt_cases (BY2PG - p_vaddr ph mod BY2PG) (p_filesz ph)).
      * by rewrite Z.min_r by lia.
      * rewrite Z.min_l by lia. rewrite !pages_from_nil by lia. done.
    + unfold page_fuel.
      set (i := Z.min _ _). assert (Hi : 0 <= i) by lia.
      assert ((p_filesz ph - i) / BY2PG <= p_filesz ph / BY2PG)
        by (apply Z.div_le_mono; [done|lia]).
      pose proof (Z.div_pos (p_filesz ph) BY2PG Hfs ltac:(done)). lia.
Qed.

(** C5. For every [map_page] callback (whatever its state and effects) and
    every header [seg_ok] admits, [elf_load_seg] performs exactly the
    reference calls: each page of the segment once, in order, with the image
    content that falls in it, stopping with the callback's error at the first
    that fails, and it returns. *)
Theorem elf_load_seg_correct {S} (map_page : elf_mapper_t S) ph bin s :
  seg_ok ph ->
  elf_load_seg map_page ph bin s = run_calls map_page (seg_calls ph bin) s.
Proof. apply elf_load_seg_calls. Qed.

(** A callback that records its calls. *)
Definition record_call : elf_mapper_t (list map_call) := fun va offset perm src len l =>
  Ret 0 (l ++ [mkCall va offset perm src len]).

(** Text of 5000 bytes and 4096 more of bss from 0x400100. *)
Definition ex_ph : Elf32_Phdr := mkPhdr PT_LOAD 0x1000 0x400100 0x400100 5000 9096 (PF_W + PF_X) 0.

Lemma elf_load_seg_correct_witness :
  elf_load_seg record_call ex_ph 0x1000 [] = run_calls record_call (seg_calls ex_ph 0x1000) [] /\
  elf_load_seg record_call ex_ph 0x1000 [] =
    Ret 0 [mkCall 0x400100 0x100 13 (Some 0x1000) 3840;
           mkCall 0x401000 0 13 (Some 0x1F00) 1160;
           mkCall 0x402000 0 13 None 4096].
Proof.
  split; [apply (elf_load_seg_correct record_call ex_ph 0x1000 [])|by vm_compute].
  split_and!; [by vm_compute..|by vm_compute|]. right; left. by vm_compute.
Defined.

(** Outside [seg_ok] the loader departs from the reference: a small segment
    in the middle of a page with zeroed memory after it within the same page
    gets that page mapped a second time, without its content. *)
Lemma elf_load_seg_remaps :
  let ph := mkPhdr PT_LOAD 0x1000 0x400100 0x400100 16 32 PF_W 0 in
  elf_load_seg record_call ph 0x1000 [] =
    Ret 0 [mkCall 0x400100 0x100 5 (Some 0x1000) 16; mkCall 0x400110 0 5 None 0].
Proof. by vm_compute. Qed.

(** [elf_from] accepts exactly the images that hold a whole header with the
    ELF magic and type 2. *)
Lemma elf_from_spec b size :
  (exists e, elf_from b size = Some e) <->
  52 <= size /\ b 0 = 0x7f /\ b 1 = 0x45 /\ b 2 = 0x4c /\ b 3 = 0x46 /\ le16 b 16 = 2.
Proof.
  unfold elf_from, SIZEOF_EHDR, ELFMAG0, ELFMAG1, ELFMAG2, ELFMAG3. cbn [ehdr_at e_ident e_type].
  split.
  - intros [e He]. destruct (_ && _) eqn:H; [|done].
    rewrite !andb_true_iff, !Z.eqb_eq, Z.leb_le in H. tauto.
  - intros (? & -> & -> & -> & -> & ->). destruct (Z.leb_spec 52 size); [by eexists|lia].
Qed.
