(* ===== verification/Env.v ===== *)
(** * Environments (kern/env.c, include/env.h, include/trap.h)

    The kernel state and every operation of env.c but [env_destroy] (Sched.v,
    it calls the scheduler).  An environment is its index in [envs]; the
    memory manager's state is the field [pm], and its operations run on it
    through [kpm]. *)
From S2P Require Import Prelude Queue Mmu Pmap UserMem Elf.

Definition LOG2NENV : Z := 10.
Definition NENV : Z := Z.shiftl 1 LOG2NENV.
Definition ENVX (envid : Z) : Z := Z.land envid (NENV - 1).
Definition ENV_FREE : Z := 0.
Definition ENV_RUNNABLE : Z := 1.
Definition ENV_NOT_RUNNABLE : Z := 2.
Definition NASID : Z := 64.

Record Trapframe : Type := mkTF {
  regs : Z -> Z;
  status : Z;
  badvaddr : Z;
  cause : Z;
  epc : Z
}.

Definition set_regs (v : Z -> Z) (s : Trapframe) : Trapframe :=
  mkTF v (status s) (badvaddr s) (cause s) (epc s).
Definition set_status (v : Z) (s : Trapframe) : Trapframe :=
  mkTF (regs s) v (badvaddr s) (cause s) (epc s).
Definition set_badvaddr (v : Z) (s : Trapframe) : Trapframe :=
  mkTF (regs s) (status s) v (cause s) (epc s).
Definition set_cause (v : Z) (s : Trapframe) : Trapframe :=
  mkTF (regs s) (status s) (badvaddr s) v (epc s).
Definition set_epc (v : Z) (s : Trapframe) : Trapframe :=
  mkTF (regs s) (status s) (badvaddr s) (cause s) v.
Definition SIZEOF_TF : Z := 36 * 4.
Definition set_reg (r v : Z) (tf : Trapframe) : Trapframe := set_regs (upd (regs tf) r v) tf.

(** The two link fields live in the queues of the kernel state. *)
Record Env : Type := mkEnv {
  env_tf : Trapframe;
  env_id : Z;
  env_asid : Z;
  env_parent_id : Z;
  env_status : Z;
  env_pgdir : Z;
  env_pri : Z;
  env_ipc_value : Z;
  env_ipc_from : Z;
  env_ipc_recving : Z;
  env_ipc_dstva : Z;
  env_ipc_perm : Z;
  env_user_tlb_mod_entry : Z;
  env_runs : Z
}.

Definition set_env_tf (v : Trapframe) (s : Env) : Env :=
  mkEnv v (env_id s) (env_asid s) (env_parent_id s) (env_status s) (env_pgdir s) (env_pri s)
    (env_ipc_value s) (env_ipc_from s) (env_ipc_recving s) (env_ipc_dstva s) (env_ipc_perm s)
    (env_user_tlb_mod_entry s) (env_runs s).
Definition set_env_id (v : Z) (s : Env) : Env :=
  mkEnv (env_tf s) v (env_asid s) (env_parent_id s) (env_status s) (env_pgdir s) (env_pri s)
    (env_ipc_value s) (env_ipc_from s) (env_ipc_recving s) (env_ipc_dstva s) (env_ipc_perm s)
    (env_user_tlb_mod_entry s) (env_runs s).
Definition set_env_asid (v : Z) (s : Env) : Env :=
  mkEnv (env_tf s) (env_id s) v (env_parent_id s) (env_status s) (env_pgdir s) (env_pri s)
    (env_ipc_value s) (env_ipc_from s) (env_ipc_recving s) (env_ipc_dstva s) (env_ipc_perm s)
    (env_user_tlb_mod_entry s) (env_runs s).
Definition set_env_parent_id (v : Z) (s : Env) : Env :=
  mkEnv (env_tf s) (env_id s) (env_asid s) v (env_status s) (env_pgdir s) (env_pri s)
    (env_ipc_value s) (env_ipc_from s) (env_ipc_recving s) (env_ipc_dstva s) (env_ipc_perm s)
    (env_user_tlb_mod_entry s) (env_runs s).
Definition set_env_status (v : Z) (s : Env) : Env :=
  mkEnv (env_tf s) (env_id s) (env_asid s) (env_parent_id s) v (env_pgdir s) (env_pri s)
    (env_ipc_value s) (env_ipc_from s) (env_ipc_recving s) (env_ipc_dstva s) (env_ipc_perm s)
    (env_user_tlb_mod_entry s) (env_runs s).
Definition set_env_pgdir (v : Z) (s : Env) : Env :=
  mkEnv (env_tf s) (env_id s) (env_asid s) (env_parent_id s) (env_status s) v (env_pri s)
    (env_ipc_value s) (env_ipc_from s) (env_ipc_recving s) (env_ipc_dstva s) (env_ipc_perm s)
    (env_user_tlb_mod_entry s) (env_runs s).
Definition set_env_pri (v : Z) (s : Env) : Env :=
  mkEnv (env_tf s) (env_id s) (env_asid s) (env_parent_id s) (env_status s) (env_pgdir s) v
    (env_ipc_value s) (env_ipc_from s) (env_ipc_recving s) (env_ipc_dstva s) (env_ipc_perm s)
    (env_user_tlb_mod_entry s) (env_runs s).
Definition set_env_ipc_value (v : Z) (s : Env) : Env :=
  mkEnv (env_tf s) (env_id s) (env_asid s) (env_parent_id s) (env_status s) (env_pgdir s)
    (env_pri s) v (env_ipc_from s) (env_ipc_recving s) (env_ipc_dstva s) (env_ipc_perm s)
    (env_user_tlb_mod_entry s) (env_runs s).
Definition set_env_ipc_from (v : Z) (s : Env) : Env :=
  mkEnv (env_tf s) (env_id s) (env_asid s) (env_parent_id s) (env_status s) (env_pgdir s)
    (env_pri s) (env_ipc_value s) v (env_ipc_recving s) (env_ipc_dstva s) (env_ipc_perm s)
    (env_user_tlb_mod_entry s) (env_runs s).
Definition set_env_ipc_recving (v : Z) (s : Env) : Env :=
  mkEnv (env_tf s) (env_id s) (env_asid s) (env_parent_id s) (env_status s) (env_pgdir s)
    (env_pri s) (env_ipc_value s) (env_ipc_from s) v (env_ipc_dstva s) (env_ipc_perm s)
    (env_user_tlb_mod_entry s) (env_runs s).
Definition set_env_ipc_dstva (v : Z) (s : Env) : Env :=
  mkEnv (env_tf s) (env_id s) (env_asid s) (env_parent_id s) (env_status s) (env_pgdir s)
    (env_pri s) (env_ipc_value s) (env_ipc_from s) (env_ipc_recving s) v (env_ipc_perm s)
    (env_user_tlb_mod_entry s) (env_runs s).
Definition set_env_ipc_perm (v : Z) (s : Env) : Env :=
  mkEnv (env_tf s) (env_id s) (env_asid s) (env_parent_id s) (env_status s) (env_pgdir s)
    (env_pri s) (env_ipc_value s) (env_ipc_from s) (env_ipc_recving s) (env_ipc_dstva s) v
    (env_user_tlb_mod_entry s) (env_runs s).
Definition set_env_user_tlb_mod_entry (v : Z) (s : Env) : Env :=
  mkEnv (env_tf s) (env_id s) (env_asid s) (env_parent_id s) (env_status s) (env_pgdir s)
    (env_pri s) (env_ipc_value s) (env_ipc_from s) (env_ipc_recving s) (env_ipc_dstva s)
    (env_ipc_perm s) v (env_runs s).
Definition set_env_runs (v : Z) (s : Env) : Env :=
  mkEnv (env_tf s) (env_id s) (env_asid s) (env_parent_id s) (env_status s) (env_pgdir s)
    (env_pri s) (env_ipc_value s) (env_ipc_from s) (env_ipc_recving s) (env_ipc_dstva s)
    (env_ipc_perm s) (env_user_tlb_mod_entry s) v.
(** [sizeof(struct Env)]: 36 words of trap frame, 17 words of fields. *)
Definition SIZEOF_ENV : Z := 212.

(** [kstack] is the trap frame below [KSTACKTOP] of the current trap, [cpu]
    the user context the last [env_pop_tf] restored; [cons_in] holds the
    results the next [scancharc] calls return, [cons_out] what was printed and
    [mmio] the device writes, newest first; [timer_set] counts the timer events
    programmed through SBI, [sstatus] is the CSR. *)
Record kst : Type := mkK {
  pm : pmst;
  envs : Z -> Env;
  curenv : option Z;
  env_free_list : LIST;
  env_sched_list : TAILQ;
  base_pgdir : Z;
  asid_bitmap : Z -> Z;
  mkenvid_i : Z;
  sched_count : Z;
  kstack : Trapframe;
  cpu : Trapframe;
  cons_in : list Z;
  cons_out : list Z;
  mmio : list (Z * Z);
  timer_set : Z;
  sstatus : Z
}.

Definition set_pm (v : pmst) (s : kst) : kst :=
  mkK v (envs s) (curenv s) (env_free_list s) (env_sched_list s) (base_pgdir s) (asid_bitmap s)
    (mkenvid_i s) (sched_count s) (kstack s) (cpu s) (cons_in s) (cons_out s) (mmio s)
    (timer_set s) (sstatus s).
Definition set_envs (v : Z -> Env) (s : kst) : kst :=
  mkK (pm s) v (curenv s) (env_free_list s) (env_sched_list s) (base_pgdir s) (asid_bitmap s)
    (mkenvid_i s) (sched_count s) (kstack s) (cpu s) (cons_in s) (cons_out s) (mmio s)
    (timer_set s) (sstatus s).
Definition set_curenv (v : option Z) (s : kst) : kst :=
  mkK (pm s) (envs s) v (env_free_list s) (env_sched_list s) (base_pgdir s) (asid_bitmap s)
    (mkenvid_i s) (sched_count s) (kstack s) (cpu s) (cons_in s) (cons_out s) (mmio s)
    (timer_set s) (sstatus s).
Definition set_env_free_list (v : LIST) (s : kst) : kst :=
  mkK (pm s) (envs s) (curenv s) v (env_sched_list s) (base_pgdir s) (asid_bitmap s) (mkenvid_i
    s) (sched_count s) (kstack s) (cpu s) (cons_in s) (cons_out s) (mmio s) (timer_set s)
    (sstatus s).
Definition set_env_sched_list (v : TAILQ) (s : kst) : kst :=
  mkK (pm s) (envs s) (curenv s) (env_free_list s) v (base_pgdir s) (asid_bitmap s) (mkenvid_i
    s) (sched_count s) (kstack s) (cpu s) (cons_in s) (cons_out s) (mmio s) (timer_set s)
    (sstatus s).
Definition set_base_pgdir (v : Z) (s : kst) : kst :=
  mkK (pm s) (envs s) (curenv s) (env_free_list s) (env_sched_list s) v (asid_bitmap s)
    (mkenvid_i s) (sched_count s) (kstack s) (cpu s) (cons_in s) (cons_out s) (mmio s)
    (timer_set s) (sstatus s).
Definition set_asid_bitmap (v : Z -> Z) (s : kst) : kst :=
  mkK (pm s) (envs s) (curenv s) (env_free_list s) (env_sched_list s) (base_pgdir s) v
    (mkenvid_i s) (sched_count s) (kstack s) (cpu s) (cons_in s) (cons_out s) (mmio s)
    (timer_set s) (sstatus s).
Definition set_mkenvid_i (v : Z) (s : kst) : kst :=
  mkK (pm s) (envs s) (curenv s) (env_free_list s) (env_sched_list s) (base_pgdir s)
    (asid_bitmap s) v (sched_count s) (kstack s) (cpu s) (cons_in s) (cons_out s) (mmio s)
    (timer_set s) (sstatus s).
Definition set_sched_count (v : Z) (s : kst) : kst :=
  mkK (pm s) (envs s) (curenv s) (env_free_list s) (env_sched_list s) (base_pgdir s)
    (asid_bitmap s) (mkenvid_i s) v (kstack s) (cpu s) (cons_in s) (cons_out s) (mmio s)
    (timer_set s) (sstatus s).
Definition set_kstack (v : Trapframe) (s : kst) : kst :=
  mkK (pm s) (envs s) (curenv s) (env_free_list s) (env_sched_list s) (base_pgdir s)
    (asid_bitmap s) (mkenvid_i s) (sched_count s) v (cpu s) (cons_in s) (cons_out s) (mmio s)
    (timer_set s) (sstatus s).
Definition set_cpu (v : Trapframe) (s : kst) : kst :=
  mkK (pm s) (envs s) (curenv s) (env_free_list s) (env_sched_list s) (base_pgdir s)
    (asid_bitmap s) (mkenvid_i s) (sched_count s) (kstack s) v (cons_in s) (cons_out s) (mmio s)
    (timer_set s) (sstatus s).
Definition set_cons_in (v : list Z) (s : kst) : kst :=
  mkK (pm s) (envs s) (curenv s) (env_free_list s) (env_sched_list s) (base_pgdir s)
    (asid_bitmap s) (mkenvid_i s) (sched_count s) (kstack s) (cpu s) v (cons_out s) (mmio s)
    (timer_set s) (sstatus s).
Definition set_cons_out (v : list Z) (s : kst) : kst :=
  mkK (pm s) (envs s) (curenv s) (env_free_list s) (env_sched_list s) (base_pgdir s)
    (asid_bitmap s) (mkenvid_i s) (sched_count s) (kstack s) (cpu s) (cons_in s) v (mmio s)
    (timer_set s) (sstatus s).
Definition set_mmio (v : list (Z * Z)) (s : kst) : kst :=
  mkK (pm s) (envs s) (curenv s) (env_free_list s) (env_sched_list s) (base_pgdir s)
    (asid_bitmap s) (mkenvid_i s) (sched_count s) (kstack s) (cpu s) (cons_in s) (cons_out s) v
    (timer_set s) (sstatus s).
Definition set_timer_set (v : Z) (s : kst) : kst :=
  mkK (pm s) (envs s) (curenv s) (env_free_list s) (env_sched_list s) (base_pgdir s)
    (asid_bitmap s) (mkenvid_i s) (sched_count s) (kstack s) (cpu s) (cons_in s) (cons_out s)
    (mmio s) v (sstatus s).
Definition set_sstatus (v : Z) (s : kst) : kst :=
  mkK (pm s) (envs s) (curenv s) (env_free_list s) (env_sched_list s) (base_pgdir s)
    (asid_bitmap s) (mkenvid_i s) (sched_count s) (kstack s) (cpu s) (cons_in s) (cons_out s)
    (mmio s) (timer_set s) v.

Abbreviation KM := (M kst).

Definition kpm {A} (m : PM A) : KM A := zoom pm set_pm m.

Definition upd_env (e : Z) (f : Env -> Env) : KM unit :=
  modify (fun k => set_envs (upd (envs k) e (f (envs k e))) k).

(** Dereference of a possibly null [struct Env *]. *)
Definition deref (p : option Z) : KM Z := match p with Some e => ret e | None => fault end.
Definition get_curenv : KM Z := let! p := gets curenv in deref p.

Definition free_op (f : LIST -> option LIST) : KM unit := fun k =>
  match f (env_free_list k) with
  | Some q => Ret tt (set_env_free_list q k)
  | None => Fault
  end.
Definition sched_op (f : TAILQ -> option TAILQ) : KM unit := fun k =>
  match f (env_sched_list k) with
  | Some q => Ret tt (set_env_sched_list q k)
  | None => Fault
  end.

(** ** Address space identifiers *)
Definition bit_index (i : Z) : Z := Z.shiftr i 5.
Definition bit_mask (i : Z) : Z := Z.shiftl 1 (Z.land i 31).
Definition asid_used (m : Z -> Z) (i : Z) : bool := truthy (Z.land (m (bit_index i)) (bit_mask i)).

(** [asid_alloc(asid)], from index [i] on. *)
Fixpoint asid_alloc_from (n : nat) (i : Z) : KM (result Z) :=
  match n with
  | O => ret (Err (- E_NO_FREE_ENV))
  | S n =>
      let! m := gets asid_bitmap in
      if negb (asid_used m i) then
        modify (set_asid_bitmap (upd m (bit_index i) (Z.lor (m (bit_index i)) (bit_mask i)))) ;!
        ret (OK i)
      else asid_alloc_from n (i + 1)
  end.
Definition asid_alloc : KM (result Z) := asid_alloc_from (Z.to_nat NASID) 0.

Definition asid_free (i : Z) : KM unit :=
  modify (fun k => set_asid_bitmap
    (upd (asid_bitmap k) (bit_index i)
       (Z.land (asid_bitmap k (bit_index i)) (not32 (bit_mask i)))) k).

(** ** Environment identifiers *)
Definition mkenvid (e : Z) : KM Z :=
  modify (fun k => set_mkenvid_i (u32 (mkenvid_i k + 1)) k) ;!
  let! i := gets mkenvid_i in
  ret (Z.lor (u32 (Z.shiftl i (1 + LOG2NENV))) e).

(** [envid2env(envid, penv, checkperm)]; [OK None] sets [*penv] to a null
    [curenv]. *)
Definition envid2env (envid : Z) (checkperm : bool) : KM (result (option Z)) :=
  let! k := get in
  if envid =? 0 then ret (OK (curenv k))
  else
    let e := ENVX envid in
    if (env_status (envs k e) =? ENV_FREE) || negb (env_id (envs k e) =? envid)
    then ret (Err (- E_BAD_ENV))
    else if checkperm then
      let! c := get_curenv in
      if negb (env_id (envs k e) =? env_id (envs k c)) &&
         negb (env_parent_id (envs k e) =? env_id (envs k c))
      then ret (Err (- E_BAD_ENV))
      else ret (OK (Some e))
    else ret (OK (Some e)).

(** ** Initialisation *)
Definition map_segment (pgdir asid pa va size perm : Z) : KM unit :=
  c_assert (pa mod BY2PG =? 0) ;!
  c_assert (va mod BY2PG =? 0) ;!
  c_assert (size mod BY2PG =? 0) ;!
  forM (c_range 0 size BY2PG) (fun i =>
    let! pp := kpm (pa2page (u32 (pa + i))) in
    let! _ := kpm (page_insert pgdir asid pp (u32 (va + i)) (Z.lor perm (Z.lor PTE_R PTE_V))) in
    ret tt).

(** [for (i = NENV; i >= 0; i--)]; [envs_addr] is the address of [envs]. *)
Definition env_init (envs_addr : Z) : KM unit :=
  modify (fun k => set_env_free_list (LIST_INIT (env_free_list k)) k) ;!
  modify (fun k => set_env_sched_list (TAILQ_INIT (env_sched_list k)) k) ;!
  forM ((fun j => NENV - j) <$> seqZ 0 (NENV + 1)) (fun i =>
    modify (fun k => set_env_free_list (LIST_INSERT_HEAD i (env_free_list k)) k)) ;!
  let! r := kpm page_alloc in
  match r with
  | Err _ => panic "panic_on"
  | OK p =>
      let! s := gets pm in
      kpm (set_ref p (u16 (pp_ref s p + 1))) ;!
      modify (set_base_pgdir (page2kva p)) ;!
      let! b := gets base_pgdir in
      let! pa := PADDR (pages s) in
      map_segment b 0 pa UPAGES (ROUND (u32 (npage s * SIZEOF_PAGE)) BY2PG) (Z.lor PTE_G PTE_U) ;!
      let! pa := PADDR envs_addr in
      map_segment b 0 pa UENVS (ROUND (NENV * SIZEOF_ENV) BY2PG) (Z.lor PTE_G PTE_U) ;!
      kpm (memcpy_words (b + 4 * PDX KSEG0) (kbasepgdir s + 4 * PDX KSEG0) (4 * 512))
  end.

(** ** Creation *)
Definition env_setup_vm (e : Z) : KM Z :=
  tryz! p := kpm page_alloc in
  let! s := gets pm in
  kpm (set_ref p (u16 (pp_ref s p + 1))) ;!
  upd_env e (set_env_pgdir (page2kva p)) ;!
  let! k := get in
  let d := env_pgdir (envs k e) in
  kpm (memcpy_words (d + 4 * PDX UTOP) (base_pgdir k + 4 * PDX UTOP) (4 * (PDX UVPT - PDX UTOP))) ;!
  kpm (memcpy_words (d + 4 * PDX KSEG0) (base_pgdir k + 4 * PDX KSEG0) (4 * 512)) ;!
  ret 0.

Definition env_alloc (parent_id : Z) : KM (result Z) :=
  let! q := gets env_free_list in
  match LIST_FIRST q with
  | None => ret (Err (- E_NO_FREE_ENV))
  | Some e =>
      let! r := env_setup_vm e in
      if negb (r =? 0) then ret (Err r)
      else
        upd_env e (set_env_user_tlb_mod_entry 0) ;!
        upd_env e (set_env_runs 0) ;!
        upd_env e (set_env_parent_id parent_id) ;!
        let! id := mkenvid e in
        upd_env e (set_env_id id) ;!
        let! r := asid_alloc in
        match r with
        | Err r => ret (Err r)
        | OK asid =>
            upd_env e (set_env_asid asid) ;!
            upd_env e (fun v => set_env_tf (set_reg 2 (USTACKTOP - 4 - 4) (env_tf v)) v) ;!
            free_op (LIST_REMOVE e) ;!
            ret (OK e)
        end
  end.

(** [load_icode_mapper]; [image] holds the bytes [src] points into. *)
Definition load_icode_mapper (e : Z) (image : Z -> Z) : elf_mapper_t kst :=
  fun va offset perm src len =>
    tryz! p := kpm page_alloc in
    (match src with
     | Some o => kpm (memcpy_bytes (page2kva p + offset) len (fun j => image (o + j)))
     | None => ret tt
     end) ;!
    let! k := get in
    kpm (page_insert (env_pgdir (envs k e)) (env_asid (envs k e)) p va (Z.lor perm PTE_U)).

Definition load_icode (e : Z) (binary : Z -> Z) (size : Z) : KM unit :=
  match elf_from binary size with
  | None => panic "bad elf"
  | Some ehdr =>
      forM (ELF_PHDR_OFFS ehdr) (fun ph_off =>
        let ph := phdr_at binary ph_off in
        if p_type ph =? PT_LOAD then
          let! r := elf_load_seg (load_icode_mapper e binary) ph (p_offset ph) in
          panic_on r
        else ret tt) ;!
      upd_env e (fun v => set_env_tf (set_epc (e_entry ehdr) (env_tf v)) v)
  end.

Definition env_create (binary : Z -> Z) (size priority : Z) : KM Z :=
  let! r := env_alloc 0 in
  match r with
  | Err _ => fault
  | OK e =>
      upd_env e (set_env_pri priority) ;!
      upd_env e (set_env_status ENV_RUNNABLE) ;!
      load_icode e binary size ;!
      modify (fun k => set_env_sched_list (TAILQ_INSERT_HEAD e (env_sched_list k)) k) ;!
      ret e
  end.

(** ** Destruction *)

(** One iteration of the inner loop of [env_free]. *)
Definition env_free_pte (pgdir asid pdeno pt pteno : Z) : PM unit :=
  let! pte := ld (pt + 4 * pteno) in
  if truthy (Z.land pte PTE_V) then
    page_remove pgdir asid (Z.lor (Z.shiftl pdeno PDSHIFT) (Z.shiftl pteno PGSHIFT))
  else ret tt.

(** One iteration of the outer loop. *)
Definition env_free_pde (pgdir asid pdeno : Z) : PM unit :=
  let! pde := ld (pgdir + 4 * pdeno) in
  if negb (truthy (Z.land pde PTE_V)) then ret tt
  else
    let pa := PTE2PADDR pde in
    let! pt := KADDR pa in
    forM (seqZ 0 (PTX (not32 0) + 1)) (env_free_pte pgdir asid pdeno pt) ;!
    st (pgdir + 4 * pdeno) 0 ;!
    let! p := pa2page pa in
    page_decref p.

(** The part of [env_free] that works on memory. *)
Definition env_free_vm (pgdir asid : Z) : PM unit :=
  forM (seqZ 0 (PDX UTOP)) (env_free_pde pgdir asid) ;!
  let! pa := PADDR pgdir in
  let! p := pa2page pa in
  page_decref p.

Definition env_free (e : Z) : KM unit :=
  let! k := get in
  kpm (env_free_vm (env_pgdir (envs k e)) (env_asid (envs k e))) ;!
  asid_free (env_asid (envs k e)) ;!
  kpm (tlb_invalidate (env_asid (envs k e)) 0) ;!
  upd_env e (set_env_status ENV_FREE) ;!
  modify (fun k => set_env_free_list (LIST_INSERT_HEAD e (env_free_list k)) k) ;!
  sched_op (TAILQ_REMOVE e).

(** ** Running *)

(** kern/env_asm.S: load [satp], restore the registers, return to user mode. *)
Definition env_pop_tf {A} (tf : Trapframe) (asid ppn_pgdir : Z) : KM A :=
  kpm (modify (set_csr_satp (Z.lor (Z.lor 0x80000000 (u32 (Z.shiftl asid 22))) ppn_pgdir))) ;!
  modify (set_cpu tf) ;!
  noreturn.

(** [pre_env_run] is empty without the debug macros. *)
Definition env_run {A} (e : Z) : KM A :=
  let! k := get in
  c_assert (env_status (envs k e) =? ENV_RUNNABLE) ;!
  (match curenv k with
   | Some c => upd_env c (set_env_tf (kstack k))
   | None => ret tt
   end) ;!
  modify (set_curenv (Some e)) ;!
  upd_env e (fun v => set_env_runs (u32 (env_runs v + 1)) v) ;!
  let! k := get in
  kpm (modify (set_cur_pgdir (env_pgdir (envs k e)))) ;!
  env_pop_tf (env_tf (envs k e)) (env_asid (envs k e)) (PPN (env_pgdir (envs k e))).
