(* ===== verification/EnvFree.v ===== *)
(** * Tearing down an address space ([env_free_vm] of kern/env.c)

    The loops of [env_free] give back every page of a user address space: the
    page invariant holds for the remaining directories, whose mappings are
    untouched, and no page is lost. *)
From S2P Require Import Prelude Queue Mmu Pmap PmapFacts PmapInv PmapSpec PmapBoot UserMem Elf Env.

(** No page became unreferenced without being freed. *)
Definition no_leak (s s' : pmst) (fl fl' : list Z) : Prop :=
  forall p, is_page s p -> pp_ref s' p = 0 -> p ∉ fl' -> pp_ref s p = 0 /\ p ∉ fl.

Lemma no_leak_refl s fl : no_leak s s fl fl.
Proof. by intros p. Qed.

Lemma no_leak_trans s1 s2 s3 fl1 fl2 fl3 :
  npage s2 = npage s1 -> no_leak s1 s2 fl1 fl2 -> no_leak s2 s3 fl2 fl3 -> no_leak s1 s3 fl1 fl3.
Proof.
  intros Hn H1 H2 p Hp Hr Hf. apply H1; [done| |]; apply (H2 p); try done;
    unfold is_page in *; by rewrite Hn.
Qed.

Lemma no_leak_decref s s' fl p :
  pp_ref s' = upd (pp_ref s) p (pp_ref s p - 1) ->
  no_leak s s' fl (if pp_ref s p =? 1 then p :: fl else fl).
Proof.
  intros Hr q Hq H0 Hf. rewrite Hr, upd_case in H0. case_decide as Hd.
  - subst q. exfalso. apply Hf. destruct (Z.eqb_spec (pp_ref s p) 1); [|lia].
    by apply elem_of_cons; left.
  - split; [done|]. intros Hin. apply Hf. destruct (_ =? 1); [|done]. by apply elem_of_cons; right.
Qed.

(** ** Removing an empty table from its directory *)
Lemma pm_inv_drop_table boot D fl s d i t :
  pm_inv boot D fl s -> d ∈ D -> 0 <= i < NUPDE ->
  valid (pde s d i) = true -> epage (pde s d i) = t ->
  (forall j, 0 <= j < 1024 -> valid (mem s (page2pa t + 4 * j)) = false) ->
  let s' := set_mem (upd (mem s) (page2pa d + 4 * i) 0) s in
  pm_inv (upd boot t (boot t + 1)) D fl s' /\ tables s D ≡ₚ t :: tables s' D /\
  (forall d' i', d' ∈ D -> 0 <= i' < NUPDE -> (d', i') <> (d, i) -> pde s' d' i' = pde s d' i') /\
  (forall x, x ∈ slots s' D -> mem s' x = mem s x) /\ valid (pde s' d i) = false.
Proof.
  intros I Hd Hi Hv He Hz s'. pose proof (inv_ram _ _ _ _ I) as Hram. pose proof NUPDE_bound as HN.
  set (a := page2pa d + 4 * i) in *.
  assert (Hdp : is_page s d) by (by apply (inv_dir_page _ _ _ _ I)).
  assert (Hpde : forall d' i', d' ∈ D -> 0 <= i' < NUPDE -> (d', i') <> (d, i) ->
            pde s' d' i' = pde s d' i').
  { intros d' i' Hd' Hi' Hne. unfold pde, s'; cbn. apply upd_other. intros Heq.
    apply (frame_inj s Hram) in Heq as [-> ->]; [done| |done|lia|lia].
    by apply (inv_dir_page _ _ _ _ I). }
  assert (Hnone : valid (pde s' d i) = false)
    by (unfold pde, s'; cbn; fold a; by rewrite upd_same).
  assert (HD : NoDup D) by (pose proof (inv_dirs _ _ _ _ I) as H; by apply NoDup_app in H as [? _]).
  assert (Ht : tables s D ≡ₚ t :: tables s' D).
  { apply (omap_new _ _ _ (d, i)); [by apply NoDup_dslots|by apply elem_of_dslots| | |].
    - unfold table_of; cbn [fst snd]. by rewrite Hnone.
    - unfold table_of; cbn [fst snd]. by rewrite Hv, He.
    - intros [d' i'] [Hd' Hi']%elem_of_dslots Hne. unfold table_of.
      cbn [fst snd]. by rewrite Hpde. }
  assert (HDt : D ++ tables s D ≡ₚ t :: (D ++ tables s' D))
    by (rewrite Ht; by rewrite Permutation_middle).
  assert (Hs : slots s D ≡ₚ table_entries t ++ slots s' D)
    by (unfold slots, entries; by rewrite Ht).
  assert (Hsub : forall x, x ∈ slots s' D -> x ∈ slots s D)
    by (intros x Hx; rewrite Hs; apply elem_of_app; by right).
  assert (Hmem : forall x, x ∈ slots s D -> mem s' x = mem s x).
  { intros x Hx. unfold s'; cbn. apply upd_other. intros ->.
    apply (slot_not_pde _ _ _ _ I a d i Hx Hd); [lia|done]. }
  pose proof (inv_dirs _ _ _ _ I) as Hnd. rewrite HDt in Hnd. apply NoDup_cons in Hnd as [Htn Hnd].
  split_and!; try done; [|by intros x Hx; apply Hmem, Hsub].
  destruct I. constructor; try done.
  - intros p Hp. apply inv_dirs_page. rewrite HDt. apply elem_of_cons; by right.
  - intros x Hx. rewrite Hmem by (by apply Hsub). intros Hvx.
    destruct (inv_mapped x (Hsub x Hx) Hvx) as [Hp Hn].
    split; [done|]. intros Hin. apply Hn. rewrite HDt. apply elem_of_cons; by right.
  - intros p Hp.
    pose proof (cnt_perm (maps s p) _ _ Hs) as Hc. rewrite cnt_app in Hc.
    rewrite (cnt_zero (maps s p) (table_entries t)) in Hc.
    2: { intros x (j & -> & Hj)%list_elem_of_fmap. apply elem_of_seqZ in Hj.
         unfold maps. by rewrite Hz by lia. }
    rewrite (cnt_ext (maps s' p) (maps s p) (slots s' D))
      by (intros x Hx; unfold maps; by rewrite Hmem by (by apply Hsub)).
    pose proof (owns_perm _ _ HDt p p eq_refl) as Ho. rewrite owns_cons in Ho by exact Htn.
    change (pp_ref s' p) with (pp_ref s p). rewrite inv_ref, Hc, Ho by exact Hp.
    destruct (decide (p = t)) as [->|Hne].
    + rewrite bool_decide_eq_true_2, upd_same by reflexivity. cbn [Z.b2z]. lia.
    + rewrite bool_decide_eq_false_2, upd_other by exact Hne. cbn [Z.b2z]. lia.
Qed.

(** The views of two states with the same directory entry and slots agree. *)
Lemma entry_same s s' d va :
  pde s' d (PDX va) = pde s d (PDX va) ->
  (forall a, pte_addr s d va = Some a -> mem s' a = mem s a) ->
  entry s' d va = entry s d va.
Proof.
  intros Hp Hm. assert (Ha : pte_addr s' d va = pte_addr s d va).
  { unfold pte_addr. change (mem s' (pde_addr d va)) with (pde s' d (PDX va)).
    change (mem s (pde_addr d va)) with (pde s d (PDX va)). by rewrite Hp. }
  unfold entry. rewrite Ha. destruct (pte_addr s d va) as [a|]; [|done]. by rewrite Hm.
Qed.

(** ** Dropping a directory with no tables *)
Lemma pm_inv_drop_dir boot D fl s d :
  pm_inv boot (d :: D) fl s ->
  (forall i, 0 <= i < NUPDE -> valid (pde s d i) = false) ->
  pm_inv (upd boot d (boot d + 1)) D fl s /\ tables s (d :: D) = tables s D.
Proof.
  intros I Hz. pose proof (tables_empty_dir s d D Hz) as Ht. split; [|done].
  destruct I. unfold slots in *. rewrite Ht in *.
  rewrite <- app_comm_cons in inv_dirs. apply NoDup_cons in inv_dirs as [Hdn Hnd].
  constructor; try done.
  - intros p Hp. apply inv_dirs_page, elem_of_cons. by right.
  - intros a Ha Hv. destruct (inv_mapped a Ha Hv) as [Hp Hn]. split; [done|].
    intros Hin. apply Hn, elem_of_cons. by right.
  - intros p Hp. rewrite inv_ref by done. rewrite <- app_comm_cons, owns_cons by exact Hdn.
    unfold slots. destruct (decide (p = d)) as [->|Hne].
    + rewrite bool_decide_eq_true_2, upd_same by done. cbn [Z.b2z]. lia.
    + rewrite bool_decide_eq_false_2, upd_other by done. cbn [Z.b2z]. lia.
Qed.

(** ** Indices of the addresses the loops build *)
Definition idx_va (i j : Z) : Z := Z.lor (Z.shiftl i PDSHIFT) (Z.shiftl j PGSHIFT).

Lemma idx_va_eq i j : 0 <= i -> 0 <= j < 1024 -> idx_va i j = i * 2 ^ 22 + j * 2 ^ 12.
Proof.
  intros Hi Hj. unfold idx_va, PDSHIFT, PGSHIFT. rewrite !Z.shiftl_mul_pow2 by lia.
  apply (lor_low _ _ 22); [lia| |lia]. by rewrite Z.mod_mul.
Qed.

Lemma idx_va_PDX i j : 0 <= i < 1024 -> 0 <= j < 1024 -> PDX (idx_va i j) = i.
Proof.
  intros Hi Hj. rewrite idx_va_eq by lia. rewrite PDX_div by lia.
  rewrite Z.add_comm, Z.div_add, Z.div_small by lia. lia.
Qed.

Lemma idx_va_PTX i j : 0 <= i < 1024 -> 0 <= j < 1024 -> PTX (idx_va i j) = j.
Proof.
  intros Hi Hj. rewrite idx_va_eq by lia. rewrite PTX_div by lia.
  replace (i * 2 ^ 22 + j * 2 ^ 12) with ((i * 1024 + j) * 2 ^ 12) by lia.
  rewrite Z.div_mul by lia. rewrite Z.add_comm, Z.mod_add by lia. by rewrite Z.mod_small by lia.
Qed.

Lemma same_slot_idx d i j d' va' :
  0 <= i < 1024 -> 0 <= j < 1024 ->
  same_slot d (idx_va i j) d' va' <-> d = d' /\ PDX va' = i /\ PTX va' = j.
Proof. intros Hi Hj. unfold same_slot. rewrite idx_va_PDX, idx_va_PTX by done. naive_solver. Qed.

(** ** The inner loop *)

(** [s'] is [s] with the entries of the user addresses in [Q] cleared. *)
Record cleared (D : list Z) (Q : Z -> Z -> Prop) (s s' : pmst) (fl fl' : list Z) : Prop := {
  cl_pa : forall d va, d ∈ D -> PDX va < NUPDE -> pte_addr s' d va = pte_addr s d va;
  cl_tab : tables s' D = tables s D;
  cl_np : npage s' = npage s;
  cl_leak : no_leak s s' fl fl';
  cl_none : forall d va, d ∈ D -> PDX va < NUPDE -> Q d va -> entry s' d va = None;
  cl_same : forall d va, d ∈ D -> PDX va < NUPDE -> ~ Q d va -> entry s' d va = entry s d va
}.

Lemma cleared_refl D (Q : Z -> Z -> Prop) s fl :
  (forall d va, d ∈ D -> PDX va < NUPDE -> Q d va -> entry s d va = None) -> cleared D Q s s fl fl.
Proof. intros H. split; try done. Qed.

Lemma cleared_trans D (Q1 Q2 Q : Z -> Z -> Prop) s1 s2 s3 fl1 fl2 fl3 :
  (forall d va, Q d va <-> Q1 d va \/ Q2 d va) ->
  (forall d va, Q2 d va \/ ~ Q2 d va) ->
  cleared D Q1 s1 s2 fl1 fl2 -> cleared D Q2 s2 s3 fl2 fl3 -> cleared D Q s1 s3 fl1 fl3.
Proof.
  intros HQ Hdec [A1 B1 C1 L1 N1 S1] [A2 B2 C2 L2 N2 S2]. split.
  - intros d va Hd Hva. by rewrite A2, A1.
  - by rewrite B2.
  - by rewrite C2.
  - by eapply no_leak_trans.
  - intros d va Hd Hva H%HQ. destruct (Hdec d va) as [H2|H2]; [by apply N2|].
    rewrite S2 by done. apply N1; tauto.
  - intros d va Hd Hva H. rewrite HQ in H. rewrite S2, S1 by tauto. done.
Qed.

Lemma page_remove_cleared boot D fl s d va asid :
  pm_inv boot D fl s -> (forall p, 0 <= boot p) -> d ∈ D -> PDX va < NUPDE ->
  exists s' fl', page_remove (page2pa d) asid va s = Ret tt s' /\ pm_inv boot D fl' s' /\
    cleared D (same_slot d va) s s' fl fl'.
Proof.
  intros I Hb Hd Hva.
  destruct (page_remove_inv _ _ _ _ d va asid I Hb Hd Hva)
    as (s' & fl' & Hrun & I' & He & Ho & Hpa & Ht & Hn & Hm).
  exists s', fl'. split_and!; try done. split; try done.
  - destruct (entry s d va) as [e|].
    + destruct Hm as [Hr ->]. by apply no_leak_decref.
    + destruct Hm as [-> ->]. apply no_leak_refl.
  - intros d' va' Hd' Hva' (<- & Hx & Hy). unfold entry, pte_addr, pde_addr in He |- *.
    by rewrite <- Hx, <- Hy.
Qed.

Section Loops.
Context (boot : Z -> Z) (Hboot : forall p, 0 <= boot p) (D : list Z) (d asid : Z) (Hd : d ∈ D).

Definition pte_set (i : Z) (l : list Z) (d' va' : Z) : Prop :=
  d = d' /\ PDX va' = i /\ PTX va' ∈ l.

Lemma free_pte_cleared fl s i j pt :
  pm_inv boot D fl s -> 0 <= i < NUPDE -> 0 <= j < 1024 ->
  pte_addr s d (idx_va i j) = Some (pt + 4 * j) ->
  exists s' fl', env_free_pte (page2pa d) asid i pt j s = Ret tt s' /\ pm_inv boot D fl' s' /\
    cleared D (pte_set i [j]) s s' fl fl'.
Proof using Hboot Hd.
  intros I Hi Hj Ha. pose proof NUPDE_bound as HN.
  assert (Hx : PDX (idx_va i j) < NUPDE) by (rewrite idx_va_PDX by lia; lia).
  pose proof (pte_addr_slot _ _ _ _ I d _ _ Hd Hx Ha) as Hs.
  unfold env_free_pte. rewrite (bind_step _ _ _ _ _ (ld_ok s _ (slot_in_ram _ _ _ _ I _ Hs))).
  fold (valid (mem s (pt + 4 * j))).
  assert (HQ : forall d' va', pte_set i [j] d' va' <-> same_slot d (idx_va i j) d' va').
  { intros d' va'. unfold pte_set. rewrite same_slot_idx by lia.
    by rewrite list_elem_of_singleton. }
  destruct (valid (mem s (pt + 4 * j))) eqn:Hv.
  - destruct (page_remove_cleared boot D fl s d (idx_va i j) asid I Hboot Hd Hx)
      as (s' & fl' & Hrun & I' & [A B C L N S]).
    exists s', fl'. split_and!; try done. split; try done.
    + intros d' va' Hd' Hva' HQ'. apply N; try done. by apply HQ.
    + intros d' va' Hd' Hva' HQ'. apply S; try done. by rewrite <- HQ.
  - exists s, fl. split_and!; try done. apply cleared_refl.
    intros d' va' _ _ (<- & Hx' & Hy')%HQ.
    unfold entry. replace (pte_addr s d va') with (Some (pt + 4 * j)); [by rewrite Hv|].
    rewrite <- Ha. unfold pte_addr, pde_addr. by rewrite Hx', Hy'.
Qed.

Lemma pte_set_dec i l d' va' : pte_set i l d' va' \/ ~ pte_set i l d' va'.
Proof.
  unfold pte_set. destruct (decide (d = d')), (decide (PDX va' = i)), (decide (PTX va' ∈ l));
    tauto.
Qed.

Lemma free_ptes_cleared i pt l : forall fl s,
  pm_inv boot D fl s -> 0 <= i < NUPDE -> (forall j, j ∈ l -> 0 <= j < 1024) ->
  (forall j, 0 <= j < 1024 -> pte_addr s d (idx_va i j) = Some (pt + 4 * j)) ->
  exists s' fl', forM l (env_free_pte (page2pa d) asid i pt) s = Ret tt s' /\
    pm_inv boot D fl' s' /\ cleared D (pte_set i l) s s' fl fl'.
Proof using Hboot Hd.
  induction l as [|j l IH]; intros fl s I Hi Hl Ha; cbn [forM].
  - exists s, fl. split_and!; try done. apply cleared_refl.
    intros d' va' _ _ (_ & _ & H). by apply elem_of_nil in H.
  - pose proof NUPDE_bound as HN.
    assert (Hj : 0 <= j < 1024) by (apply Hl, elem_of_cons; by left).
    destruct (free_pte_cleared fl s i j pt I Hi Hj (Ha j Hj)) as (s1 & fl1 & Hr1 & I1 & C1).
    rewrite (bind_step _ _ _ _ _ Hr1).
    destruct (IH fl1 s1 I1 Hi) as (s2 & fl2 & Hr2 & I2 & C2).
    + intros x Hx. apply Hl, elem_of_cons. by right.
    + intros x Hx. rewrite (cl_pa _ _ _ _ _ _ C1); [by apply Ha|done|].
      rewrite idx_va_PDX by lia. lia.
    + exists s2, fl2. split_and!; try done.
      eapply cleared_trans; [|apply (pte_set_dec i l)|exact C1|exact C2].
      intros d' va'. unfold pte_set. rewrite elem_of_cons, list_elem_of_singleton. tauto.
Qed.

(** ** One directory entry *)
Record pde_freed (i : Z) (s s' : pmst) (fl fl' : list Z) : Prop := {
  pf_np : npage s' = npage s;
  pf_leak : no_leak s s' fl fl';
  pf_tab : forall x, x ∈ tables s' D -> x ∈ tables s D;
  pf_none : valid (pde s' d i) = false;
  pf_pde : forall i', 0 <= i' < NUPDE -> i' <> i -> valid (pde s' d i') = valid (pde s d i');
  pf_same : forall d' va, d' ∈ D -> d' <> d -> PDX va < NUPDE -> entry s' d' va = entry s d' va
}.

Lemma pte_addr_valid s i : 0 <= i < 1024 ->
  valid (pde s d i) = match pte_addr s d (idx_va i 0) with Some _ => true | None => false end.
Proof.
  intros Hi. unfold pte_addr. change (mem s (pde_addr d (idx_va i 0)))
    with (pde s d (PDX (idx_va i 0))). rewrite idx_va_PDX by lia.
  by destruct (valid (pde s d i)).
Qed.

Lemma free_table_run fl s i :
  pm_inv boot D fl s -> 0 <= i < NUPDE -> valid (pde s d i) = true ->
  let t := epage (pde s d i) in
  exists s' fl', forM (seqZ 0 1024) (env_free_pte (page2pa d) asid i (page2pa t)) s = Ret tt s' /\
    pm_inv boot D fl' s' /\ cleared D (pte_set i (seqZ 0 1024)) s s' fl fl' /\
    valid (pde s' d i) = true /\ epage (pde s' d i) = t /\
    (forall j, 0 <= j < 1024 -> valid (mem s' (page2pa t + 4 * j)) = false).
Proof using Hboot Hd.
  intros I Hi Hv t. pose proof NUPDE_bound as HN. pose proof (inv_ram _ _ _ _ I) as Hram.
  assert (Htab : forall s0 fl0, pm_inv boot D fl0 s0 -> valid (pde s0 d i) = true ->
    is_page s0 (epage (pde s0 d i)) /\ forall j, 0 <= j < 1024 ->
      pte_addr s0 d (idx_va i j) = Some (page2pa (epage (pde s0 d i)) + 4 * j)).
  { intros s0 fl0 I0 Hv0.
    assert (Htp : is_page s0 (epage (pde s0 d i))).
    { apply (inv_table_page _ _ _ _ I0), elem_of_tables. exists d, i. split_and!; (done || lia). }
    split; [done|]. intros j Hj.
    unfold pte_addr. change (mem s0 (pde_addr d (idx_va i j)))
      with (pde s0 d (PDX (idx_va i j))). rewrite idx_va_PDX, idx_va_PTX, Hv0 by lia.
    rewrite (PTE2PADDR_epage s0 (inv_ram _ _ _ _ I0)) by apply Htp. done. }
  destruct (Htab s fl I Hv) as [Htp Ha]. fold t in Htp, Ha.
  destruct (free_ptes_cleared i (page2pa t) (seqZ 0 1024) fl s I Hi) as (s1 & fl1 & Hr & I1 & C1);
    [by intros j Hj%elem_of_seqZ; lia|exact Ha|].
  exists s1, fl1.
  assert (Hpa : forall j, 0 <= j < 1024 ->
    pte_addr s1 d (idx_va i j) = Some (page2pa t + 4 * j)).
  { intros j Hj. rewrite (cl_pa _ _ _ _ _ _ C1); [by apply Ha|done|].
    rewrite idx_va_PDX by lia. lia. }
  assert (Hv1 : valid (pde s1 d i) = true)
    by (rewrite pte_addr_valid, Hpa by lia; done).
  destruct (Htab s1 fl1 I1 Hv1) as [Htp1 Ha1].
  split_and!; try done.
  - pose proof (Hpa 0 ltac:(lia)) as H0. rewrite Ha1 in H0 by lia. injection H0 as H0.
    unfold is_page in Htp. rewrite <- (cl_np _ _ _ _ _ _ C1) in Htp.
    apply (frame_inj s1 (inv_ram _ _ _ _ I1) _ _ 0 0) in H0 as [H0 _]; try done; lia.
  - intros j Hj. assert (Hn : entry s1 d (idx_va i j) = None).
    { apply (cl_none _ _ _ _ _ _ C1); [done|rewrite idx_va_PDX by lia; lia|].
      unfold pte_set. rewrite idx_va_PDX, idx_va_PTX, elem_of_seqZ by lia. split_and!; (done || lia). }
    unfold entry in Hn. rewrite Hpa in Hn by done. by destruct (valid (mem s1 _)).
Qed.
Lemma KADDR_table s e : ram_ok s -> epage e < npage s ->
  KADDR (PTE2PADDR e) s = Ret (page2pa (epage e)) s.
Proof using.
  intros Hram He. unfold KADDR. fold (epage e).
  destruct (Z.leb_spec (npage s) (epage e)); [lia|]. by rewrite (PTE2PADDR_epage s Hram).
Qed.

(** Unlinking the empty table [t] and dropping its reference. *)
Lemma unlink_table_run fl s i t :
  pm_inv boot D fl s -> 0 <= i < NUPDE -> valid (pde s d i) = true -> epage (pde s d i) = t ->
  (forall j, 0 <= j < 1024 -> valid (mem s (page2pa t + 4 * j)) = false) ->
  exists s' fl', (st (page2pa d + 4 * i) 0 ;! page_decref t) s = Ret tt s' /\
    pm_inv boot D fl' s' /\ pde_freed i s s' fl fl'.
Proof using Hboot Hd.
  intros I Hi Hv Ht Hz. pose proof NUPDE_bound as HN. pose proof (inv_ram _ _ _ _ I) as Hram.
  assert (HtT : t ∈ tables s D)
    by (apply elem_of_tables; exists d, i; split_and!; (done || lia)).
  assert (Htp : is_page s t) by (by apply (inv_table_page _ _ _ _ I)).
  assert (Htf : t ∉ fl).
  { intros Hin. destruct (free_unreferenced _ _ _ _ I t Hin (Hboot t)) as [Hno _].
    apply Hno, elem_of_app. by right. }
  assert (Hin : in_ram s (page2pa d + 4 * i) = true)
    by (apply in_ram_entry; [done|by apply (inv_dir_page _ _ _ _ I)|lia]).
  destruct (pm_inv_drop_table _ _ _ _ d i t I Hd Hi Hv Ht Hz) as (I2 & Htab & Hpde & Hmem & Hn).
  set (s2 := set_mem _ _) in *. rewrite (bind_step _ _ _ _ _ (st_ok s _ 0 Hin)).
  assert (Hr : 1 <= pp_ref s2 t).
  { rewrite (inv_ref _ _ _ _ I2) by done. rewrite upd_same. specialize (Hboot t).
    pose proof (cnt_nonneg (maps s2 t) (slots s2 D)). pose proof (owns_range (D ++ tables s2 D) t).
    lia. }
  destruct (page_decref_inv _ _ _ _ t I2 Htf Htp Hr)
    as (s3 & fl3 & Hrun & I3 & Hfl & Hm3 & Hn3 & Hr3 & _).
  exists s3, fl3. split; [exact Hrun|]. split.
  { eapply pm_inv_boot_ext; [|exact I3]. intros p _. rewrite !upd_case.
    destruct (decide (p = t)) as [->|]; [|done]. rewrite decide_True by done. lia. }
  assert (Hpd3 : forall d' i', pde s3 d' i' = pde s2 d' i')
    by (intros d' i'; unfold pde; by rewrite Hm3).
  split.
  - by rewrite Hn3.
  - rewrite Hfl. apply (no_leak_decref s2). done.
  - intros x. rewrite (tables_ext s2 s3 D) by (intros; apply Hpd3). rewrite Htab.
    intros Hx. apply elem_of_cons. by right.
  - by rewrite Hpd3.
  - intros i' Hi' Hne. rewrite Hpd3, Hpde; [done|done|done|congruence].
  - intros d' va Hd' Hne Hva. pose proof (PDX_range va).
    assert (Hp' : pde s2 d' (PDX va) = pde s d' (PDX va))
      by (apply Hpde; [done|lia|congruence]).
    apply entry_same; [by rewrite Hpd3|]. intros a Ha. rewrite Hm3. apply Hmem.
    eapply (pte_addr_slot _ _ _ _ I2 d' va a Hd' Hva). rewrite <- Ha. unfold pte_addr.
    change (mem s2 (pde_addr d' va)) with (pde s2 d' (PDX va)).
    change (mem s (pde_addr d' va)) with (pde s d' (PDX va)). by rewrite Hp'.
Qed.

Lemma free_pde_run fl s i :
  pm_inv boot D fl s -> 0 <= i < NUPDE ->
  exists s' fl', env_free_pde (page2pa d) asid i s = Ret tt s' /\
    pm_inv boot D fl' s' /\ pde_freed i s s' fl fl'.
Proof using Hboot Hd.
  intros I Hi. pose proof NUPDE_bound as HN. pose proof (inv_ram _ _ _ _ I) as Hram.
  assert (Hin : in_ram s (page2pa d + 4 * i) = true)
    by (apply in_ram_entry; [done|by apply (inv_dir_page _ _ _ _ I)|lia]).
  unfold env_free_pde. rewrite (bind_step _ _ _ _ _ (ld_ok s _ Hin)).
  change (mem s (page2pa d + 4 * i)) with (pde s d i). fold (valid (pde s d i)).
  destruct (valid (pde s d i)) eqn:Hv; cbn [negb].
  2: { exists s, fl. split_and!; try done. }
  assert (Htp : is_page s (epage (pde s d i))).
  { apply (inv_table_page _ _ _ _ I), elem_of_tables. exists d, i. split_and!; (done || lia). }
  rewrite (bind_step _ _ _ _ _ (KADDR_table s _ Hram (proj2 Htp))).
  change (PTX (not32 0) + 1) with 1024.
  destruct (free_table_run fl s i I Hi Hv) as (s1 & fl1 & Hr1 & I1 & C1 & Hv1 & Ht1 & Hz1).
  rewrite (bind_step _ _ _ _ _ Hr1).
  destruct (unlink_table_run fl1 s1 i _ I1 Hi Hv1 Ht1 Hz1) as (s2 & fl2 & Hr2 & I2 & F).
  exists s2, fl2. split; [|split; [done|]].
  - rewrite <- Hr2. unfold bind. destruct (st _ 0 s1) as [[] s'| | |] eqn:Hst; try done.
    assert (Hn' : npage s' = npage s).
    { unfold st in Hst. destruct (in_ram s1 _); [|done]. injection Hst as <-. cbn.
      apply (cl_np _ _ _ _ _ _ C1). }
    rewrite pa2page_ok; [done| |]; [unfold ram_ok; by rewrite Hn'|rewrite Hn'; apply Htp].
  - destruct F as [Fn Fl Ft Fz Fp Fs]. split; try done.
    + rewrite Fn. apply (cl_np _ _ _ _ _ _ C1).
    + eapply no_leak_trans; [apply (cl_np _ _ _ _ _ _ C1)|apply (cl_leak _ _ _ _ _ _ C1)|done].
    + intros x Hx%Ft. by rewrite <- (cl_tab _ _ _ _ _ _ C1).
    + intros i' Hi' Hne. rewrite Fp by done. rewrite !pte_addr_valid by lia.
      rewrite (cl_pa _ _ _ _ _ _ C1); [done|done|]. rewrite idx_va_PDX; lia.
    + intros d' va Hd' Hne Hva. rewrite Fs by done. apply (cl_same _ _ _ _ _ _ C1); try done.
      intros (Heq & _). congruence.
Qed.

(** ** All of them *)
Lemma free_pdes_run l : forall fl s,
  pm_inv boot D fl s -> (forall i, i ∈ l -> 0 <= i < NUPDE) ->
  exists s' fl', forM l (env_free_pde (page2pa d) asid) s = Ret tt s' /\
    pm_inv boot D fl' s' /\ npage s' = npage s /\ no_leak s s' fl fl' /\
    (forall x, x ∈ tables s' D -> x ∈ tables s D) /\
    (forall i, 0 <= i < NUPDE -> valid (pde s' d i) = (if decide (i ∈ l) then false
                                                     else valid (pde s d i))) /\
    (forall d' va, d' ∈ D -> d' <> d -> PDX va < NUPDE -> entry s' d' va = entry s d' va).
Proof using Hboot Hd.
  induction l as [|i l IH]; intros fl s I Hl; cbn [forM].
  - exists s, fl. split_and!; try done.
  - assert (Hi : 0 <= i < NUPDE) by (apply Hl, elem_of_cons; by left).
    destruct (free_pde_run fl s i I Hi) as (s1 & fl1 & Hr1 & I1 & F).
    rewrite (bind_step _ _ _ _ _ Hr1).
    destruct (IH fl1 s1 I1) as (s2 & fl2 & Hr2 & I2 & Hn2 & Hl2 & Ht2 & Hv2 & Hs2);
      [intros x Hx; apply Hl, elem_of_cons; by right|].
    destruct F as [Fn Fl Ft Fz Fp Fs].
    exists s2, fl2. split_and!; try done.
    + by rewrite Hn2.
    + by eapply no_leak_trans.
    + intros x Hx%Ht2. by apply Ft.
    + intros x Hx. rewrite Hv2 by done. destruct (decide (x ∈ l)) as [Hin|Hni].
      * rewrite decide_True; [done|]. apply elem_of_cons; by right.
      * destruct (decide (x = i)) as [->|Hne].
        -- rewrite decide_True; [done|]. apply elem_of_cons; by left.
        -- rewrite decide_False; [by apply Fp|]. rewrite elem_of_cons. tauto.
    + intros d' va Hd' Hne Hva. rewrite Hs2 by done. by apply Fs.
Qed.
End Loops.

Lemma env_free_vm_run boot D fl s d asid :
  pm_inv boot (d :: D) fl s -> (forall p, 0 <= boot p) ->
  exists s' fl', env_free_vm (page2pa d) asid s = Ret tt s' /\ pm_inv boot D fl' s' /\
    npage s' = npage s /\ no_leak s s' fl fl' /\
    (forall x, x ∈ tables s' D -> x ∈ tables s (d :: D)) /\
    (forall d' va, d' ∈ D -> PDX va < NUPDE -> entry s' d' va = entry s d' va).
Proof.
  intros I Hb. pose proof (inv_ram _ _ _ _ I) as Hram.
  assert (Hd : d ∈ d :: D) by (apply elem_of_cons; by left).
  assert (HdD : d ∉ D).
  { pose proof (inv_dirs _ _ _ _ I) as Hnd. rewrite <- app_comm_cons in Hnd.
    apply NoDup_cons in Hnd as [Hn _]. rewrite elem_of_app in Hn. tauto. }
  assert (Hdp : is_page s d) by (by apply (inv_dir_page _ _ _ _ I)).
  destruct (free_pdes_run boot Hb (d :: D) d asid Hd (seqZ 0 (PDX UTOP)) fl s I)
    as (s1 & fl1 & Hr1 & I1 & Hn1 & Hl1 & Hti1 & Hv1 & Hs1).
  { intros i Hi%elem_of_seqZ. unfold NUPDE. lia. }
  unfold env_free_vm. rewrite (bind_step _ _ _ _ _ Hr1).
  destruct (pm_inv_drop_dir _ _ _ _ _ I1) as [I2 Ht2].
  { intros i Hi. rewrite Hv1 by done. rewrite decide_True; [done|].
    apply elem_of_seqZ. unfold NUPDE in Hi. lia. }
  assert (Hram1 : ram_ok s1) by (unfold ram_ok; by rewrite Hn1).
  assert (Hdp1 : is_page s1 d) by (unfold is_page; by rewrite Hn1).
  rewrite (bind_step _ _ _ _ _ (PADDR_page s1 Hram1 d Hdp1 s1)).
  rewrite (bind_step _ _ _ _ _ (pa2page_page s1 Hram1 d Hdp1)).
  assert (Hdf : d ∉ fl1).
  { intros Hin. destruct (free_unreferenced _ _ _ _ I1 d Hin (Hb d)) as [Hno _].
    apply Hno, elem_of_app. by left. }
  assert (Hr : 1 <= pp_ref s1 d).
  { rewrite (inv_ref _ _ _ _ I2) by done. rewrite upd_same. specialize (Hb d).
    pose proof (cnt_nonneg (maps s1 d) (slots s1 D)). pose proof (owns_range (D ++ tables s1 D) d).
    lia. }
  destruct (page_decref_inv _ _ _ _ d I2 Hdf Hdp1 Hr)
    as (s2 & fl2 & Hrun & I3 & Hfl & Hm2 & Hn2 & Hr2 & _).
  exists s2, fl2. split_and!; try done.
  - eapply pm_inv_boot_ext; [|exact I3]. intros p _. rewrite !upd_case.
    destruct (decide (p = d)) as [->|]; [|done]. rewrite decide_True by done. lia.
  - by rewrite Hn2.
  - eapply no_leak_trans; [exact Hn1|exact Hl1|]. rewrite Hfl. by apply no_leak_decref.
  - intros x Hx. apply Hti1. rewrite Ht2.
    by rewrite (tables_ext s1 s2 D) in Hx by (intros; unfold pde; by rewrite Hm2).
  - intros d' va Hd' Hva. rewrite <- (Hs1 d' va); [|apply elem_of_cons; by right|by intros ->|done].
    unfold entry, pte_addr. by rewrite Hm2.
Qed.

(** Every slot is the entry of some user address. *)
Lemma slot_pte_addr boot D fl s a :
  pm_inv boot D fl s -> a ∈ slots s D ->
  exists d va, d ∈ D /\ 0 <= va < UTOP /\ PDX va < NUPDE /\ pte_addr s d va = Some a.
Proof.
  intros I (t & j & Ht & Hj & ->)%elem_of_entries. pose proof NUPDE_bound as HN.
  apply elem_of_tables in Ht as (d & i & Hd & Hi & Hv & He).
  assert (Htp : is_page s t)
    by (apply (inv_table_page _ _ _ _ I), elem_of_tables; exists d, i; split_and!; (done || lia)).
  exists d, (idx_va i j). rewrite idx_va_PDX by lia. split_and!; try done; try lia.
  - rewrite idx_va_eq by lia. lia.
  - rewrite idx_va_eq by lia. unfold NUPDE in Hi. change (PDX UTOP) with 509 in Hi.
    unfold UTOP, UENVS, UPAGES, UVPT, ULIM, PDMAP. lia.
  - unfold pte_addr. change (mem s (pde_addr d (idx_va i j))) with (pde s d (PDX (idx_va i j))).
    rewrite idx_va_PDX, idx_va_PTX, Hv by lia. subst t.
    by rewrite (PTE2PADDR_epage s (inv_ram _ _ _ _ I) _ (proj2 Htp)).
Qed.

(** A page mapped by no user address is mapped by no slot. *)
Lemma unmapped_cnt boot D fl s p :
  pm_inv boot D fl s ->
  (forall d va, d ∈ D -> 0 <= va < UTOP -> mapped_page s d va <> Some p) ->
  cnt (maps s p) (slots s D) = 0.
Proof.
  intros I H. apply cnt_zero. intros a Ha.
  destruct (slot_pte_addr _ _ _ _ _ I Ha) as (d & va & Hd & Hva & _ & Hpa).
  specialize (H d va Hd Hva). unfold mapped_page, entry in H. rewrite Hpa in H. unfold maps.
  destruct (valid (mem s a)); [|done]. cbn in H. cbn [andb].
  destruct (Z.eqb_spec (epage (mem s a)) p); [by subst|done].
Qed.
