(* ===== verification/Sched.v ===== *)
(** * The scheduler (kern/sched.c) and [env_destroy] (kern/env.c)

    [schedule] against an abstract round-robin scheduler on a list of
    runnable environments. *)
From S2P Require Import Prelude Queue Mmu Pmap PmapFacts PmapInv PmapSpec PmapBoot UserMem Elf Env.

Definition env_runnable (k : kst) (e : Z) : bool := env_status (envs k e) =? ENV_RUNNABLE.

(** [schedule(yield)]; [count] is an [int]. *)
Definition schedule {A} (yield : bool) : KM A :=
  let! k := get in
  let runnable := match curenv k with Some c => env_runnable k c | None => false end in
  let! e :=
    (if yield || (sched_count k =? 0) || negb runnable then
      (match curenv k with
       | Some c =>
           if runnable then sched_op (TAILQ_REMOVE c) ;! sched_op (TAILQ_INSERT_TAIL c)
           else ret tt
       | None => ret tt
       end) ;!
      let! q := gets env_sched_list in
      match TAILQ_FIRST q with
      | None => panic "No runnable env to schedule!"
      | Some e =>
          modify (fun k => set_sched_count (s32 (env_pri (envs k e))) k) ;!
          ret e
      end
    else get_curenv) in
  modify (fun k => set_sched_count (s32 (sched_count k - 1)) k) ;!
  env_run e.

(** [env_destroy] returns only when [e] is not the running environment. *)
Definition env_destroy (e : Z) : KM unit :=
  env_free e ;!
  let! k := get in
  if bool_decide (curenv k = Some e) then
    modify (set_curenv None) ;!
    schedule true
  else ret tt.

(** ** The abstract scheduler

    The runnable environments in queue order, the running one, and the
    slices it has left. *)
Record asched : Type := mkAS { a_queue : list Z; a_cur : option Z; a_count : Z }.

Definition rotate (c : Z) (q : list Z) : list Z := filter (.≠ c) q ++ [c].

Definition astep (pri : Z -> Z) (yield : bool) (a : asched) : option asched :=
  let running := match a_cur a with Some c => bool_decide (c ∈ a_queue a) | None => false end in
  if yield || (a_count a =? 0) || negb running then
    let q := match a_cur a with
             | Some c => if running then rotate c (a_queue a) else a_queue a
             | None => a_queue a
             end in
    match q with
    | [] => None
    | e :: _ => Some (mkAS q (Some e) (pri e - 1))
    end
  else Some (mkAS (a_queue a) (a_cur a) (a_count a - 1)).

(** The scheduler's state in the kernel: the queue holds exactly the
    RUNNABLE environments, whose priorities are positive [int]s. *)
Record sched_inv (k : kst) (q : list Z) : Prop := {
  si_rep : tailq_rep (env_sched_list k) q;
  si_run : forall e, e ∈ q <-> 0 <= e < NENV /\ env_status (envs k e) = ENV_RUNNABLE;
  si_pri : forall e, e ∈ q -> 1 <= env_pri (envs k e) < 2 ^ 31;
  si_cur : forall c, curenv k = Some c -> 0 <= c < NENV;
  si_count : 0 <= sched_count k < 2 ^ 31
}.

Definition abs (k : kst) (q : list Z) : asched := mkAS q (curenv k) (sched_count k).

(** ** [env_run] *)
Definition saved_envs (k : kst) : Z -> Env :=
  match curenv k with
  | Some c => upd (envs k) c (set_env_tf (kstack k) (envs k c))
  | None => envs k
  end.
Definition run_envs (e : Z) (k : kst) : Z -> Env :=
  upd (saved_envs k) e (set_env_runs (u32 (env_runs (saved_envs k e) + 1)) (saved_envs k e)).

Definition satp_of (v : Env) : Z :=
  Z.lor (Z.lor 0x80000000 (u32 (Z.shiftl (env_asid v) 22))) (PPN (env_pgdir v)).

Definition run_state (e : Z) (k : kst) : kst :=
  let v := run_envs e k e in
  set_cpu (env_tf v)
    (set_pm (set_csr_satp (satp_of v) (set_cur_pgdir (env_pgdir v) (pm k)))
       (set_curenv (Some e) (set_envs (run_envs e k) k))).

Lemma env_run_eq {A} e k :
  env_status (envs k e) = ENV_RUNNABLE -> @env_run A e k = Noret (run_state e k).
Proof.
  intros H. unfold env_run, bind at 1, get. cbv beta iota. rewrite H, Z.eqb_refl.
  unfold c_assert. rewrite bind_ret_l. unfold run_state, run_envs, saved_envs, satp_of.
  destruct k as [p ev [c|] fl sl bp ab mi sc ks cp ci co mm tm ss]; reflexivity.
Qed.

(** The fields [env_run] leaves alone. *)
Lemma run_envs_fields e k x :
  env_status (run_envs e k x) = env_status (envs k x) /\
  env_pri (run_envs e k x) = env_pri (envs k x) /\
  env_pgdir (run_envs e k x) = env_pgdir (envs k x) /\
  env_asid (run_envs e k x) = env_asid (envs k x) /\
  env_id (run_envs e k x) = env_id (envs k x) /\
  env_parent_id (run_envs e k x) = env_parent_id (envs k x) /\
  env_ipc_recving (run_envs e k x) = env_ipc_recving (envs k x) /\
  env_tf (run_envs e k x) =
    (if decide (curenv k = Some x) then kstack k else env_tf (envs k x)).
Proof.
  unfold run_envs, saved_envs. destruct (curenv k) as [c|]; repeat (rewrite upd_case);
    repeat case_decide; simplify_eq; cbn; rewrite ?upd_same; cbn; try done;
    repeat (rewrite upd_other by congruence); done.
Qed.

(** ** [schedule] *)
Lemma sched_op_ok f k q :
  f (env_sched_list k) = Some q -> sched_op f k = Ret tt (set_env_sched_list q k).
Proof. intros H. unfold sched_op. by rewrite H. Qed.

Lemma filter_ne_notin c (q : list Z) : c ∉ q -> filter (.≠ c) q = q.
Proof.
  induction q as [|x q IH]; intros Hc; [done|]. rewrite not_elem_of_cons in Hc.
  rewrite filter_cons, decide_True by (intros ->; tauto). f_equal. apply IH. tauto.
Qed.

Lemma filter_ne_mid c (l1 l2 : list Z) :
  NoDup (l1 ++ c :: l2) -> filter (.≠ c) (l1 ++ c :: l2) = l1 ++ l2.
Proof.
  intros Hnd. apply NoDup_mid in Hnd as (_ & _ & H1 & H2 & _).
  rewrite filter_app, filter_cons, decide_False by (intros H; by apply H).
  by rewrite !filter_ne_notin.
Qed.

Lemma elem_of_rotate c q x : c ∈ q -> x ∈ rotate c q <-> x ∈ q.
Proof.
  intros Hc. unfold rotate. rewrite elem_of_app, list_elem_of_filter, list_elem_of_singleton.
  destruct (decide (x = c)) as [->|]; naive_solver.
Qed.

(** Moving a queued element to the tail. *)
Lemma tailq_rotate q l c :
  tailq_rep q l -> c ∈ l ->
  exists q1 q2, TAILQ_REMOVE c q = Some q1 /\ TAILQ_INSERT_TAIL c q1 = Some q2 /\
    tailq_rep q2 (rotate c l).
Proof.
  intros H (l1 & l2 & ->)%list_elem_of_split. pose proof (proj1 H) as Hnd.
  destruct (tailq_remove _ _ c l1 l2 H eq_refl) as (q1 & Hq1 & Hr1 & _).
  assert (Hc : c ∉ l1 ++ l2)
    by (apply NoDup_mid in Hnd as (_ & _ & ? & ? & _); rewrite elem_of_app; tauto).
  destruct (tailq_insert_tail _ _ c Hr1 Hc) as (q2 & Hq2 & Hr2 & _).
  exists q1, q2. unfold rotate. by rewrite filter_ne_mid.
Qed.

Section Schedule.
Context (k : kst) (q : list Z) (I : sched_inv k q).

Lemma cur_running :
  match curenv k with Some c => env_runnable k c | None => false end =
  match curenv k with Some c => bool_decide (c ∈ q) | None => false end.
Proof using I.
  destruct (curenv k) as [c|] eqn:Hc; [|done]. unfold env_runnable.
  pose proof (si_run _ _ I c). pose proof (si_cur _ _ I c Hc).
  destruct (Z.eqb_spec (env_status (envs k c)) ENV_RUNNABLE); symmetry;
    [apply bool_decide_eq_true_2|apply bool_decide_eq_false_2]; naive_solver.
Qed.

(** Running [e] from the queue [q'] with [n] slices left. *)
Definition run_from (qs : TAILQ) (e n : Z) : kst :=
  run_state e (set_sched_count n (set_env_sched_list qs k)).

Lemma run_from_inv qs q' e n :
  tailq_rep qs q' -> (forall x, x ∈ q' <-> x ∈ q) -> e ∈ q -> 0 <= n < 2 ^ 31 ->
  sched_inv (run_from qs e n) q' /\ abs (run_from qs e n) q' = mkAS q' (Some e) n.
Proof using I.
  intros Hr Hq He Hn. split; [|done]. unfold run_from. split; cbn; try done.
  - intros x. rewrite Hq, (si_run _ _ I).
    by destruct (run_envs_fields e (set_sched_count n (set_env_sched_list qs k)) x) as [-> _].
  - intros x Hx. apply Hq in Hx. pose proof (si_pri _ _ I x Hx) as Hp.
    destruct (run_envs_fields e (set_sched_count n (set_env_sched_list qs k)) x)
      as (_ & -> & _). exact Hp.
  - intros c [= <-]. by apply (si_run _ _ I) in He as [? _].
Qed.

Lemma schedule_eq {A} yield :
  match astep (fun e => env_pri (envs k e)) yield (abs k q) with
  | None => exists msg, @schedule A yield k = Panic msg k
  | Some a => exists qs e, @schedule A yield k = Noret (run_from qs e (a_count a)) /\
      a_cur a = Some e /\ e ∈ q /\ tailq_rep qs (a_queue a) /\
      (forall x, x ∈ a_queue a <-> x ∈ q) /\ 0 <= a_count a < 2 ^ 31
  end.
Proof using I.
  remember (@schedule A yield k) as o eqn:Ho.
  unfold schedule, bind at 1, get in Ho. cbv beta iota zeta in Ho.
  unfold astep. cbn [abs a_queue a_cur a_count].
  rewrite cur_running in Ho. pose proof (si_count _ _ I) as Hcnt.
  set (running := match curenv k with Some c => bool_decide (c ∈ q) | None => false end) in Ho |- *.
  destruct (yield || (sched_count k =? 0) || negb running) eqn:Hsw.
  - assert (Hrot : exists qs, tailq_rep qs
        (match curenv k with Some c => if running then rotate c q else q | None => q end) /\
      (match curenv k with
       | Some c => if running then sched_op (TAILQ_REMOVE c) ;! sched_op (TAILQ_INSERT_TAIL c)
                   else ret tt
       | None => ret tt end) k = Ret tt (set_env_sched_list qs k)).
    { assert (Hsame : set_env_sched_list (env_sched_list k) k = k) by (by destruct k).
      subst running. destruct (curenv k) as [c|] eqn:Hc.
      - case_bool_decide as Hin.
        + destruct (tailq_rotate _ _ c (si_rep _ _ I) Hin) as (q1 & q2 & H1 & H2 & Hr).
          exists q2. split; [done|]. rewrite (bind_step _ _ _ _ _ (sched_op_ok _ _ _ H1)). cbv beta.
          apply (sched_op_ok _ (set_env_sched_list q1 k) q2 H2).
        + exists (env_sched_list k). rewrite Hsame. split; [apply (si_rep _ _ I)|done].
      - exists (env_sched_list k). rewrite Hsame. split; [apply (si_rep _ _ I)|done]. }
    set (q' := match curenv k with Some c => _ | None => q end) in Hrot |- *.
    assert (Hq' : forall x, x ∈ q' <-> x ∈ q).
    { intros x. subst q' running. destruct (curenv k) as [c|]; [|done].
      case_bool_decide; [by apply elem_of_rotate|done]. }
    destruct Hrot as (qs & Hr & Hrun). rewrite bind_assoc, (bind_step _ _ _ _ _ Hrun) in Ho.
    pose proof (tailq_rep_first _ _ Hr) as Hf. unfold bind, gets in Ho. cbn [env_sched_list set_env_sched_list] in Ho.
    rewrite Hf in Ho. destruct q' as [|e l'] eqn:Hqe; cbn [head] in Ho.
    + exists "No runnable env to schedule!". rewrite Ho. unfold panic.
      assert (Hq0 : q = []) by (destruct q as [|x ?]; [done|];
        specialize (Hq' x); rewrite elem_of_cons, elem_of_nil in Hq'; tauto).
      assert (Hrf : running = false).
      { subst running. destruct (curenv k) as [c|]; [|done].
        apply bool_decide_eq_false_2. rewrite Hq0. apply not_elem_of_nil. }
      rewrite Hrf in Hrun. assert (Hk : set_env_sched_list qs k = k);
        [|by rewrite Hk].
      destruct (curenv k); injection Hrun; done.
    + assert (He : e ∈ q) by (apply Hq', elem_of_cons; by left).
      pose proof (si_pri _ _ I e He) as Hp.
      exists qs, e. cbn [a_count a_cur a_queue]. split_and!; try done; try lia.
      rewrite Ho. unfold modify, ret. cbn [envs set_env_sched_list sched_count set_sched_count].
      rewrite (s32_small (env_pri (envs k e))) by lia. rewrite s32_small by lia.
      rewrite env_run_eq by (cbn; by apply (si_run _ _ I) in He as [_ ?]).
      unfold run_from. by destruct k.
  - rewrite !orb_false_iff, Z.eqb_neq, negb_false_iff in Hsw. destruct Hsw as [[_ Hne] Hrun].
    subst running. destruct (curenv k) as [c|] eqn:Hc; [|done].
    apply bool_decide_eq_true_1 in Hrun.
    assert (Hg : get_curenv k = Ret c k) by (unfold get_curenv, bind, gets; by rewrite Hc).
    rewrite (bind_step _ _ _ _ _ Hg) in Ho.
    exists (env_sched_list k), c. cbn [a_count a_cur a_queue].
    split_and!; try done; try lia; [|apply (si_rep _ _ I)].
    rewrite Ho. unfold bind, modify. rewrite s32_small by lia.
    rewrite env_run_eq by (cbn; by apply (si_run _ _ I) in Hrun as [_ ?]).
    unfold run_from. by f_equal; destruct k.
Qed.
End Schedule.

Lemma run_from_fields k qs e n x :
  env_pri (envs (run_from k qs e n) x) = env_pri (envs k x) /\
  env_status (envs (run_from k qs e n) x) = env_status (envs k x).
Proof.
  by destruct (run_envs_fields e (set_sched_count n (set_env_sched_list qs k)) x)
    as (H1 & H2 & _).
Qed.

(** ** Fairness of the abstract scheduler *)
Fixpoint aticks (n : nat) (pri : Z -> Z) (a : asched) : option asched :=
  match n with
  | O => Some a
  | S n => match astep pri false a with Some a' => aticks n pri a' | None => None end
  end.

Definition total (pri : Z -> Z) (l : list Z) : Z := foldr (fun x n => pri x + n) 0 l.

Lemma total_cons pri x l : total pri (x :: l) = pri x + total pri l.
Proof. done. Qed.

Lemma total_app pri l1 l2 : total pri (l1 ++ l2) = total pri l1 + total pri l2.
Proof. induction l1 as [|x l1 IH]; cbn; [done|]. fold (total pri) in *. unfold total in *. lia. Qed.

Lemma total_nonneg pri l : (forall x, x ∈ l -> 0 <= pri x) -> 0 <= total pri l.
Proof.
  induction l as [|x l IH]; intros H; cbn; [lia|].
  pose proof (H x ltac:(by apply elem_of_cons; left)).
  assert (0 <= total pri l) by (apply IH; intros y Hy; apply H; by apply elem_of_cons; right).
  unfold total in *. lia.
Qed.

Lemma total_filter pri (P : Z -> Prop) `{!forall x, Decision (P x)} l :
  (forall x, x ∈ l -> 0 <= pri x) -> total pri (filter P l) <= total pri l.
Proof.
  induction l as [|x l IH]; intros Hl; [done|]. rewrite filter_cons.
  pose proof (Hl x ltac:(by apply elem_of_cons; left)).
  assert (total pri (filter P l) <= total pri l)
    by (apply IH; intros y Hy; apply Hl; by apply elem_of_cons; right).
  case_decide; cbn; unfold total in *; lia.
Qed.

Lemma aticks_add n m pri a :
  aticks (n + m) pri a =
  match aticks n pri a with Some a' => aticks m pri a' | None => None end.
Proof.
  revert a. induction n as [|n IH]; intros a; [done|]. cbn. by destruct (astep pri false a).
Qed.

(** The running environment keeps the CPU until its slices are used up. *)
Lemma aticks_slices n pri q c :
  c ∈ q -> aticks n pri (mkAS q (Some c) (Z.of_nat n)) = Some (mkAS q (Some c) 0).
Proof.
  intros Hc. induction n as [|n IH]; [done|]. cbn [aticks].
  unfold astep at 1. cbn [a_queue a_cur a_count]. rewrite bool_decide_eq_true_2 by done.
  destruct (Z.eqb_spec (Z.of_nat (S n)) 0); [lia|]. cbn [orb negb].
  replace (Z.of_nat (S n) - 1) with (Z.of_nat n) by lia. done.
Qed.

(** From a switch with queue [q'], the environment after [l1] runs once those
    of [l1] have used their slices. *)
Lemma aticks_reach pri a l1 : forall l2 e c,
  a_cur a = Some c -> c ∈ a_queue a -> a_count a = 0 -> NoDup (a_queue a) ->
  (forall x, x ∈ a_queue a -> 1 <= pri x) ->
  rotate c (a_queue a) = l1 ++ e :: l2 ->
  exists n a', aticks n pri a = Some a' /\ a_cur a' = Some e /\
    Z.of_nat n = total pri l1 + 1.
Proof.
  revert a. induction l1 as [|x l1 IH]; intros a l2 e c Hc Hin Hz Hnd Hp Hrot.
  - exists 1%nat. eexists. cbn [aticks]. unfold astep. rewrite Hc, Hz.
    rewrite bool_decide_eq_true_2 by done. cbn [Z.eqb orb negb]. by rewrite Hrot.
  - assert (Hx : x ∈ a_queue a)
      by (apply (elem_of_rotate c); [done|]; rewrite Hrot; apply elem_of_cons; by left).
    assert (Hin' : x ∈ rotate c (a_queue a)) by (by apply elem_of_rotate).
    pose proof (Hp x Hx) as Hpx.
    set (a1 := mkAS (rotate c (a_queue a)) (Some x) 0).
    assert (Hnd' : NoDup (rotate c (a_queue a))).
    { unfold rotate. apply NoDup_app. split_and!; [by apply NoDup_filter| |apply NoDup_singleton].
      intros y [Hy _]%list_elem_of_filter Hy'%list_elem_of_singleton. done. }
    assert (Hrun : aticks (Z.to_nat (pri x)) pri a = Some a1).
    { replace (Z.to_nat (pri x)) with (S (Z.to_nat (pri x - 1))) by lia. cbn [aticks].
      unfold astep. rewrite Hc, Hz. rewrite bool_decide_eq_true_2 by done.
      cbn [Z.eqb orb negb]. unfold a1. clear -Hrot Hin' Hpx.
      destruct (rotate c (a_queue a)) as [|y q]; [done|]. injection Hrot as -> _.
      pose proof (aticks_slices (Z.to_nat (pri x - 1)) pri (x :: q) x Hin') as Hs.
      by rewrite Z2Nat.id in Hs by lia. }
    assert (Hrot1 : rotate x (a_queue a1) = l1 ++ e :: (l2 ++ [x])).
    { unfold a1. cbn [a_queue]. unfold rotate at 1. rewrite Hrot in Hnd' |- *.
      pose proof (filter_ne_mid x [] (l1 ++ e :: l2) Hnd') as Hf. cbn [app] in Hf.
      rewrite <- app_comm_cons, Hf. by rewrite <- app_assoc. }
    destruct (IH a1 (l2 ++ [x]) e x eq_refl Hin' eq_refl Hnd') as (n & a' & Hn & Hcur & Htot).
    + intros y Hy. apply Hp, (elem_of_rotate c); [done|]. exact Hy.
    + exact Hrot1.
    + exists (Z.to_nat (pri x) + n)%nat, a'. rewrite aticks_add, Hrun.
      split_and!; try done. cbn. unfold total in *. lia.
Qed.

(** From any state whose running environment is runnable, every runnable
    environment gets the CPU within its slices and everyone's. *)
Lemma aticks_fair pri a c e :
  a_cur a = Some c -> c ∈ a_queue a -> NoDup (a_queue a) -> 0 <= a_count a ->
  (forall x, x ∈ a_queue a -> 1 <= pri x) -> e ∈ a_queue a ->
  exists n a', aticks n pri a = Some a' /\ a_cur a' = Some e /\
    1 <= Z.of_nat n <= a_count a + total pri (a_queue a) + 1.
Proof.
  intros Hc Hin Hnd Hcnt Hp He.
  assert (Hpre : aticks (Z.to_nat (a_count a)) pri a = Some (mkAS (a_queue a) (Some c) 0)).
  { destruct a as [q cur n]. cbn in *. subst cur.
    pose proof (aticks_slices (Z.to_nat n) pri q c Hin) as H. by rewrite Z2Nat.id in H by lia. }
  assert (Hr : e ∈ rotate c (a_queue a)) by (by apply elem_of_rotate).
  apply list_elem_of_split in Hr as (l1 & l2 & Hrot).
  destruct (aticks_reach pri (mkAS (a_queue a) (Some c) 0) l1 l2 e c) as (n & a' & Hn & Hcur & Ht);
    try done.
  assert (H0 : forall x, x ∈ a_queue a -> 0 <= pri x) by (intros x Hx; specialize (Hp x Hx); lia).
  assert (Hl1 : total pri l1 <= total pri (a_queue a)).
  { pose proof (total_app pri l1 (e :: l2)) as Happ. rewrite <- Hrot in Happ.
    unfold rotate in Happ. rewrite total_app in Happ.
    rewrite !total_cons in Happ.
    assert (0 <= total pri l2).
    { apply total_nonneg. intros x Hx. apply H0. apply (elem_of_rotate c); [done|].
      rewrite Hrot. apply elem_of_app; right. by apply elem_of_cons; right. }
    assert (1 <= pri e) by (apply Hp; done).
    apply list_elem_of_split in Hin as (m1 & m2 & Hq). rewrite Hq in Happ, Hnd |- *.
    rewrite filter_ne_mid in Happ by done.
    rewrite !total_app, total_cons in *. change (total pri []) with 0 in Happ. lia. }
  assert (0 <= total pri l1).
  { apply total_nonneg. intros x Hx. apply H0, (elem_of_rotate c); [done|].
    rewrite Hrot. by apply elem_of_app; left. }
  exists (Z.to_nat (a_count a) + n)%nat, a'. rewrite aticks_add, Hpre. split_and!; (done || lia).
Qed.

(** ** Properties *)

(** C8. [schedule] implements the abstract round-robin scheduler: on a state
    whose queue holds exactly the RUNNABLE environments it panics, with the
    state unchanged, when the abstract scheduler has nobody to run; otherwise
    it never returns, the environment the abstract scheduler picks is
    current, the queue and the slice count are the abstract ones and the
    invariant holds. *)
Theorem schedule_refines {A} yield k q :
  sched_inv k q ->
  match astep (fun e => env_pri (envs k e)) yield (abs k q) with
  | None => exists msg, @schedule A yield k = Panic msg k
  | Some a => exists k', @schedule A yield k = Noret k' /\ sched_inv k' (a_queue a) /\
      abs k' (a_queue a) = a /\
      (forall x, env_pri (envs k' x) = env_pri (envs k x) /\
                 env_status (envs k' x) = env_status (envs k x))
  end.
Proof.
  intros I. pose proof (@schedule_eq k q I A yield) as H.
  destruct (astep _ yield (abs k q)) as [a|]; [|done].
  destruct H as (qs & e & Hrun & Hc & He & Hr & Hq & Hn).
  destruct (run_from_inv k q I qs (a_queue a) e (a_count a) Hr Hq He Hn) as [I' Ha].
  exists (run_from k qs e (a_count a)). split_and!; try done.
  - rewrite Ha. destruct a as [aq ac an]. cbn in *. by rewrite Hc.
  - apply run_from_fields.
Qed.

(** [n] timer interrupts in a row. *)
Fixpoint ticks (n : nat) (k : kst) : option kst :=
  match n with
  | O => Some k
  | S n => match @schedule unit false k with Noret k' => ticks n k' | _ => None end
  end.

Lemma aticks_ext n pri pri' a :
  (forall x, pri x = pri' x) -> aticks n pri a = aticks n pri' a.
Proof.
  intros H. revert a. induction n as [|n IH]; intros a; [done|]. cbn.
  assert (Hs : astep pri false a = astep pri' false a).
  { unfold astep. destruct (_ || _); [|done].
    destruct (match a_cur a with Some c => _ | None => _ end); [done|]. by rewrite H. }
  rewrite Hs. by destruct (astep pri' false a).
Qed.

Lemma ticks_aticks n k q a' :
  sched_inv k q -> aticks n (fun e => env_pri (envs k e)) (abs k q) = Some a' ->
  exists k', ticks n k = Some k' /\ sched_inv k' (a_queue a') /\ abs k' (a_queue a') = a'.
Proof.
  revert k q. induction n as [|n IH]; intros k q I; cbn [ticks aticks].
  - intros [= <-]. by exists k.
  - pose proof (@schedule_eq k q I unit false) as H.
    destruct (astep _ false (abs k q)) as [a|]; [|done]. intros Hn.
    destruct H as (qs & e & -> & Hc & He & Hr & Hq & Hcnt).
    destruct (run_from_inv k q I qs (a_queue a) e (a_count a) Hr Hq He Hcnt) as [I' Ha].
    apply (IH _ (a_queue a) I'). rewrite Ha. destruct a as [aq ac an]. cbn in Hc. subst ac.
    rewrite <- Hn. apply aticks_ext. intros x. apply run_from_fields.
Qed.

(** C9. No starvation, while the timer is all that calls the scheduler: under
    the scheduler's invariant (its queue holds exactly the RUNNABLE environments,
    their priorities are from 1 to 2^31 - 1) and with the running environment
    runnable, every runnable environment [e] gets the CPU within a bounded number
    of timer interrupts, the slices left plus everyone's slices plus one.  The
    kernel does not check priorities, and an environment of priority 0 is never
    preempted (finding at kern/sched.c:40). *)
Theorem schedule_fair k q c e :
  sched_inv k q -> curenv k = Some c -> c ∈ q -> e ∈ q ->
  exists n k', ticks n k = Some k' /\ curenv k' = Some e /\
    1 <= Z.of_nat n <= sched_count k + total (fun x => env_pri (envs k x)) q + 1.
Proof.
  intros I Hc Hin He.
  destruct (aticks_fair (fun x => env_pri (envs k x)) (abs k q) c e) as (n & a' & Hn & Hcur & Hb);
    try done.
  - apply (proj1 (si_rep _ _ I)).
  - apply (si_count _ _ I).
  - intros x Hx. apply (si_pri _ _ I x Hx).
  - destruct (ticks_aticks n k q a' I Hn) as (k' & Hk & _ & Ha).
    cbn [abs a_queue a_count] in Hb. exists n, k'.
    split; [done|]. split; [|exact Hb]. by rewrite <- Hcur, <- Ha.
Qed.

(** Three runnable environments of priorities 1, 2, 1; the first is running. *)
Definition ex_env (st pri : Z) : Env :=
  mkEnv (mkTF (fun _ => 0) 0 0 0 0) 0 0 0 st 0 pri 0 0 0 0 0 0 0.
Definition ex_tailq (l : list Z) : TAILQ :=
  foldl (fun q e => default q (TAILQ_INSERT_TAIL e q))
    (TAILQ_INIT (mkTAILQ (mkLIST None (fun _ => LE_ZERO)) NULLC)) l.
Definition ex_tf : Trapframe := mkTF (fun r => r) 0 0 0 0x400000.
Definition ex_kst : kst :=
  mkK ex_vm (fun e => if e =? 0 then ex_env ENV_RUNNABLE 1
                      else if e =? 1 then ex_env ENV_RUNNABLE 2
                      else if e =? 2 then ex_env ENV_RUNNABLE 1 else ex_env ENV_FREE 0)
    (Some 0) (mkLIST None (fun _ => LE_ZERO)) (ex_tailq [0; 1; 2]) 0 (fun _ => 0) 0 1
    ex_tf ex_tf [] [] [] 0 0.

Lemma ex_tailq_rep l : NoDup l -> tailq_rep (ex_tailq l) l.
Proof.
  unfold ex_tailq. set (q0 := TAILQ_INIT _).
  assert (H0 : tailq_rep q0 []) by apply tailq_rep_init.
  assert (forall l' l q, tailq_rep q l' -> NoDup (l' ++ l) ->
    tailq_rep (foldl (fun q e => default q (TAILQ_INSERT_TAIL e q)) q l) (l' ++ l)) as Hgen;
    [|intros Hnd; by apply (Hgen [])].
  clear. intros l' l. revert l'. induction l as [|e l IH]; intros l' q Hq Hnd; cbn.
  - by rewrite app_nil_r.
  - destruct (tailq_insert_tail q l' e Hq) as (q' & -> & Hq' & _).
    { apply NoDup_app in Hnd as (_ & Hd & _). intros Hin. apply (Hd e Hin).
      by apply elem_of_cons; left. }
    cbn. rewrite (cons_middle e l' l), app_assoc in *. by apply IH.
Qed.

Lemma ex_kst_inv : sched_inv ex_kst [0; 1; 2].
Proof.
  split.
  - apply ex_tailq_rep. by apply (bool_decide_unpack _).
  - intros e. rewrite !elem_of_cons, elem_of_nil. unfold ex_kst, ex_env; cbn [envs].
    change NENV with 1024. change ENV_RUNNABLE with 1. change ENV_FREE with 0.
    destruct (Z.eqb_spec e 0); [cbn [env_status]; intuition lia|].
    destruct (Z.eqb_spec e 1); [cbn [env_status]; intuition lia|].
    destruct (Z.eqb_spec e 2); cbn [env_status]; intuition lia.
  - intros e. rewrite !elem_of_cons, elem_of_nil.
    intros [-> | [-> | [-> | []]]]; by vm_compute.
  - intros c [= <-]. by vm_compute.
  - by vm_compute.
Qed.

Lemma schedule_refines_witness :
  match astep (fun e => env_pri (envs ex_kst e)) true (abs ex_kst [0; 1; 2]) with
  | None => exists msg, @schedule unit true ex_kst = Panic msg ex_kst
  | Some a => exists k', @schedule unit true ex_kst = Noret k' /\ sched_inv k' (a_queue a) /\
      abs k' (a_queue a) = a /\
      (forall x, env_pri (envs k' x) = env_pri (envs ex_kst x) /\
                 env_status (envs k' x) = env_status (envs ex_kst x))
  end /\
  astep (fun e => env_pri (envs ex_kst e)) true (abs ex_kst [0; 1; 2])
    = Some (mkAS [1; 2; 0] (Some 1) 1).
Proof. split; [exact (schedule_refines true ex_kst [0; 1; 2] ex_kst_inv)|by vm_compute]. Defined.

Lemma schedule_fair_witness :
  exists n k', ticks n ex_kst = Some k' /\ curenv k' = Some 2 /\
    1 <= Z.of_nat n <= sched_count ex_kst + total (fun x => env_pri (envs ex_kst x)) [0; 1; 2] + 1.
Proof.
  apply (schedule_fair ex_kst [0; 1; 2] 0 2).
  - exact ex_kst_inv.
  - done.
  - by apply (bool_decide_unpack _).
  - by apply (bool_decide_unpack _).
Defined.

(** C10. Context switching: running [e] from the trap of [c] never returns,
    saves the trap frame in [c], restores [e]'s registers, enters [e]'s
    address space (page directory and ASID in [satp]) and leaves every other
    environment's context alone; and whatever trap frame [tf] the next trap
    leaves, running [c] again resumes it with exactly the frame saved. *)
Theorem env_run_context {A} e c k tf :
  curenv k = Some c -> c <> e ->
  env_status (envs k e) = ENV_RUNNABLE -> env_status (envs k c) = ENV_RUNNABLE ->
  exists k1, @env_run A e k = Noret k1 /\
    curenv k1 = Some e /\ cpu k1 = env_tf (envs k e) /\ env_tf (envs k1 c) = kstack k /\
    (forall x, x <> c -> env_tf (envs k1 x) = env_tf (envs k x)) /\
    cur_pgdir (pm k1) = env_pgdir (envs k e) /\ csr_satp (pm k1) = satp_of (envs k e) /\
    exists k2, @env_run A c (set_kstack tf k1) = Noret k2 /\
      curenv k2 = Some c /\ cpu k2 = kstack k /\ env_tf (envs k2 e) = tf /\
      cur_pgdir (pm k2) = env_pgdir (envs k c).
Proof.
  intros Hc Hne He Hst. exists (run_state e k).
  destruct (run_envs_fields e k e) as (Hs & _ & Hpg & Ha & _ & _ & _ & Ht).
  destruct (run_envs_fields e k c) as (Hsc & _ & Hpgc & _ & _ & _ & _ & Htc).
  rewrite Hc in Ht, Htc. rewrite decide_False in Ht by congruence.
  rewrite decide_True in Htc by done.
  split_and!; try done.
  - by apply env_run_eq.
  - intros x Hx. destruct (run_envs_fields e k x) as (_ & _ & _ & _ & _ & _ & _ & Htx).
    rewrite Hc, decide_False in Htx by congruence. exact Htx.
  - cbn. unfold satp_of. by rewrite Hpg, Ha.
  - exists (run_state c (set_kstack tf (run_state e k))).
    destruct (run_envs_fields c (set_kstack tf (run_state e k)) c)
      as (_ & _ & Hpg2 & _ & _ & _ & _ & Ht2).
    destruct (run_envs_fields c (set_kstack tf (run_state e k)) e)
      as (_ & _ & _ & _ & _ & _ & _ & Ht3).
    cbn [curenv set_kstack run_state set_cpu set_pm set_curenv] in Ht2, Ht3.
    rewrite decide_False in Ht2 by congruence. rewrite decide_True in Ht3 by done.
    split_and!; try done.
    + apply env_run_eq. cbn. by rewrite Hsc.
    + change (env_tf (run_envs c (set_kstack tf (run_state e k)) c) = kstack k).
      by rewrite Ht2.
    + change (env_pgdir (run_envs c (set_kstack tf (run_state e k)) c) = env_pgdir (envs k c)).
      by rewrite Hpg2.
Qed.

Lemma env_run_context_witness :
  exists k1, @env_run unit 1 ex_kst = Noret k1 /\
    curenv k1 = Some 1 /\ cpu k1 = env_tf (envs ex_kst 1) /\
    env_tf (envs k1 0) = kstack ex_kst /\
    (forall x, x <> 0 -> env_tf (envs k1 x) = env_tf (envs ex_kst x)) /\
    cur_pgdir (pm k1) = env_pgdir (envs ex_kst 1) /\ csr_satp (pm k1) = satp_of (envs ex_kst 1) /\
    exists k2, @env_run unit 0 (set_kstack ex_tf k1) = Noret k2 /\
      curenv k2 = Some 0 /\ cpu k2 = kstack ex_kst /\ env_tf (envs k2 1) = ex_tf /\
      cur_pgdir (pm k2) = env_pgdir (envs ex_kst 0).
Proof. by apply env_run_context. Defined.
