(* ===== verification/EnvFacts.v ===== *)
(** * Identifiers and address spaces of environments

    What [asid_alloc], [mkenvid] and [envid2env] compute, and the relation
    between the environments and the page invariant. *)
From S2P Require Import Prelude Queue Mmu Pmap PmapFacts PmapInv.
From S2P Require Import PmapSpec PmapBoot UserMem Elf Env Sched.

(** ** Running a memory operation in the kernel state *)
Lemma kpm_ret {A} (m : PM A) k a s : m (pm k) = Ret a s -> kpm m k = Ret a (set_pm s k).
Proof. intros H. unfold kpm, zoom. by rewrite H. Qed.

Lemma set_pm_same k : set_pm (pm k) k = k.
Proof. by destruct k. Qed.

Lemma kpm_same {A} (m : PM A) k a : m (pm k) = Ret a (pm k) -> kpm m k = Ret a k.
Proof. intros H. rewrite (kpm_ret _ _ _ _ H). by rewrite set_pm_same. Qed.

Lemma upd_env_run e f k :
  upd_env e f k = Ret tt (set_envs (upd (envs k) e (f (envs k e))) k).
Proof. done. Qed.

Lemma deref_run (e : Z) k : deref (Some e) k = Ret e k.
Proof. done. Qed.

Lemma get_curenv_run c k : curenv k = Some c -> get_curenv k = Ret c k.
Proof. intros H. unfold get_curenv, bind, gets. by rewrite H. Qed.

(** ** [envid2env] *)

(** The environment an id denotes for the caller, if the caller may use it. *)
Definition target (k : kst) (envid : Z) (checkperm : bool) : option Z :=
  if envid =? 0 then curenv k
  else
    let e := ENVX envid in
    if (env_status (envs k e) =? ENV_FREE) || negb (env_id (envs k e) =? envid) then None
    else if checkperm then
      match curenv k with
      | Some c =>
          if (env_id (envs k c) =? envid) || (env_parent_id (envs k e) =? env_id (envs k c))
          then Some e else None
      | None => None
      end
    else Some e.

Lemma envid2env_target envid checkperm k c :
  curenv k = Some c ->
  envid2env envid checkperm k =
  Ret (match target k envid checkperm with
       | Some e => OK (Some e) | None => Err (- E_BAD_ENV) end) k.
Proof.
  intros Hc. unfold envid2env, target, bind at 1, get. cbv beta iota. rewrite Hc.
  destruct (envid =? 0); [done|].
  destruct (env_status (envs k (ENVX envid)) =? ENV_FREE); [done|]. cbn [orb].
  destruct (Z.eqb_spec (env_id (envs k (ENVX envid))) envid) as [Hid|]; [|done]. cbn [negb].
  destruct checkperm; [|done]. rewrite (bind_step _ _ _ _ _ (get_curenv_run _ _ Hc)).
  rewrite Hid. rewrite (Z.eqb_sym envid).
  destruct (env_id (envs k c) =? envid); cbn [negb andb orb]; [done|].
  by destruct (env_parent_id _ =? _).
Qed.

Lemma ENVX_range envid : 0 <= ENVX envid < NENV.
Proof.
  unfold ENVX, NENV, LOG2NENV. change (Z.shiftl 1 10 - 1) with (Z.ones 10).
  rewrite Z.land_ones by lia. apply Z.mod_pos_bound. done.
Qed.

(** The target is the caller, or a live environment with the id asked for;
    with [checkperm] it is the caller itself or one of its children. *)
Lemma target_spec k envid checkperm c e :
  curenv k = Some c -> target k envid checkperm = Some e ->
  (envid = 0 /\ e = c) \/
  (envid <> 0 /\ e = ENVX envid /\ env_status (envs k e) <> ENV_FREE /\
   env_id (envs k e) = envid /\
   (checkperm = true ->
      env_id (envs k c) = envid \/ env_parent_id (envs k e) = env_id (envs k c))).
Proof.
  intros Hc. unfold target. rewrite Hc. destruct (Z.eqb_spec envid 0) as [|H0].
  { intros [= <-]. by left. }
  destruct (Z.eqb_spec (env_status (envs k (ENVX envid))) ENV_FREE) as [|Hs]; [done|].
  destruct (Z.eqb_spec (env_id (envs k (ENVX envid))) envid) as [Hid|]; [|done].
  cbn [orb negb]. destruct checkperm.
  - destruct (Z.eqb_spec (env_id (envs k c)) envid);
      [|destruct (Z.eqb_spec (env_parent_id (envs k (ENVX envid))) (env_id (envs k c))); [|done]];
      cbn [orb]; intros [= <-]; right; split_and!; auto.
  - intros [= <-]. right. split_and!; done.
Qed.

(** ** [mkenvid] *)
Lemma mkenvid_run e k :
  mkenvid e k =
  let i := u32 (mkenvid_i k + 1) in
  Ret (Z.lor (u32 (Z.shiftl i 11)) e) (set_mkenvid_i i k).
Proof. done. Qed.

Lemma mkenvid_ENVX i e : 0 <= e < NENV -> ENVX (Z.lor (u32 (Z.shiftl i 11)) e) = e.
Proof.
  intros He. unfold ENVX. change (NENV - 1) with (Z.ones 10). change NENV with 1024 in He.
  rewrite Z.land_lor_distr_l. rewrite !Z.land_ones by lia. rewrite (Z.mod_small e) by lia.
  unfold u32. rewrite Z.shiftl_mul_pow2 by lia.
  replace ((i * 2 ^ 11) mod 2 ^ 32 mod 2 ^ 10) with 0; [done|].
  rewrite <- Znumtheory.Zmod_div_mod by (try lia; by exists (2 ^ 22)).
  replace (i * 2 ^ 11) with (2 * i * 2 ^ 10) by lia. by rewrite Z.mod_mul.
Qed.

(** Ids are distinct until the counter has gone round 2^21 values, and
    nonzero unless it is a multiple of 2^21. *)
Lemma mkenvid_value i e : 0 <= e < NENV -> 0 <= i ->
  Z.lor (u32 (Z.shiftl i 11)) e = (i mod 2 ^ 21) * 2 ^ 11 + e.
Proof.
  intros He Hi. change NENV with 1024 in He. unfold u32. rewrite Z.shiftl_mul_pow2 by lia.
  replace (2 ^ 32) with (2 ^ 21 * 2 ^ 11) by lia. rewrite Z.mul_mod_distr_r by lia.
  apply (lor_low _ _ 11); [lia| |lia]. by rewrite Z.mod_mul.
Qed.

(** ** Address space identifiers *)
Lemma bit_mask_testbit i : 0 <= i -> bit_mask i = 2 ^ (i mod 32).
Proof.
  intros Hi. unfold bit_mask. change 31 with (Z.ones 5). rewrite Z.land_ones by lia.
  change (2 ^ 5) with 32. rewrite Z.shiftl_mul_pow2; [by rewrite Z.mul_1_l|apply Z.mod_pos_bound; lia].
Qed.

Lemma asid_used_testbit m i : 0 <= i -> asid_used m i = Z.testbit (m (i / 32)) (i mod 32).
Proof.
  intros Hi. unfold asid_used, bit_index. rewrite Z.shiftr_div_pow2 by lia.
  change (2 ^ 5) with 32. rewrite bit_mask_testbit by done.
  apply truthy_land_bit, Z.mod_pos_bound. lia.
Qed.

Definition set_asid (m : Z -> Z) (i : Z) : Z -> Z :=
  upd m (bit_index i) (Z.lor (m (bit_index i)) (bit_mask i)).
Definition clear_asid (m : Z -> Z) (i : Z) : Z -> Z :=
  upd m (bit_index i) (Z.land (m (bit_index i)) (not32 (bit_mask i))).

Lemma bit_index_div i : bit_index i = i / 32.
Proof. unfold bit_index. by rewrite Z.shiftr_div_pow2 by lia. Qed.

Lemma asid_used_set m i j : 0 <= i -> 0 <= j ->
  asid_used (set_asid m i) j = (i =? j) || asid_used m j.
Proof.
  intros Hi Hj. rewrite !asid_used_testbit by done. unfold set_asid.
  rewrite bit_index_div, bit_mask_testbit, upd_case by done. case_decide as Hd.
  - rewrite <- Hd, testbit_set_bit by (apply Z.mod_pos_bound; lia). by rewrite same_word_bit.
  - destruct (Z.eqb_spec i j); [by subst|done].
Qed.

Lemma asid_used_clear m i j : 0 <= i -> 0 <= j ->
  asid_used (clear_asid m i) j = negb (i =? j) && asid_used m j.
Proof.
  intros Hi Hj. rewrite !asid_used_testbit by done. unfold clear_asid.
  rewrite bit_index_div, bit_mask_testbit, upd_case by done. case_decide as Hd.
  - rewrite <- Hd, testbit_clear_bit by (apply Z.mod_pos_bound; lia). by rewrite same_word_bit.
  - destruct (Z.eqb_spec i j); [by subst|done].
Qed.

(** [asid_alloc] takes the lowest free identifier. *)
Lemma asid_alloc_from_spec n i k :
  0 <= i ->
  (exists j, i <= j < i + Z.of_nat n /\ asid_used (asid_bitmap k) j = false /\
     (forall x, i <= x < j -> asid_used (asid_bitmap k) x = true) /\
     asid_alloc_from n i k = Ret (OK j) (set_asid_bitmap (set_asid (asid_bitmap k) j) k)) \/
  ((forall x, i <= x < i + Z.of_nat n -> asid_used (asid_bitmap k) x = true) /\
   asid_alloc_from n i k = Ret (Err (- E_NO_FREE_ENV)) k).
Proof.
  revert i. induction n as [|n IH]; intros i Hi.
  { right. split; [lia|done]. }
  cbn [asid_alloc_from]. unfold bind at 1 3, gets. cbv beta iota.
  destruct (asid_used (asid_bitmap k) i) eqn:Hu; cbn [negb].
  - destruct (IH (i + 1) ltac:(lia)) as [(j & Hj & Hf & Hlow & Hrun)|[Hall Hrun]].
    + left. exists j. split_and!; try done; try lia. intros x Hx.
      destruct (decide (x = i)) as [->|]; [done|]. apply Hlow. lia.
    + right. split; [|done]. intros x Hx.
      destruct (decide (x = i)) as [->|]; [done|]. apply Hall. lia.
  - left. exists i. split_and!; try done; lia.
Qed.
