(* ===== verification/EnvProps.v ===== *)
(** * What the environment operations guarantee

    Identifiers, creation and destruction of environments (kern/env.c). *)
From S2P Require Import Prelude Queue Mmu Pmap PmapFacts PmapInv PmapSpec.
From S2P Require Import PmapBoot UserMem Elf Env EnvFree Sched EnvFacts.

(** ** Writes outside the user part of the page tables *)
Lemma pm_inv_mem boot D fl s m :
  pm_inv boot D fl s ->
  (forall d i, d ∈ D -> 0 <= i < NUPDE -> m (page2pa d + 4 * i) = mem s (page2pa d + 4 * i)) ->
  (forall a, a ∈ slots s D -> m a = mem s a) ->
  pm_inv boot D fl (set_mem m s) /\ tables (set_mem m s) D = tables s D /\
  (forall d va, d ∈ D -> PDX va < NUPDE -> entry (set_mem m s) d va = entry s d va).
Proof.
  intros I Hp Hm. assert (Ht : tables (set_mem m s) D = tables s D)
    by (apply tables_ext; intros; by apply Hp).
  split_and!; [|done|].
  - assert (Hs : slots (set_mem m s) D = slots s D) by (unfold slots; by rewrite Ht).
    destruct I. constructor; rewrite ?Hs, ?Ht; try done; cbn.
    + intros a Ha. rewrite Hm by done. by apply inv_mapped.
    + intros p Hpp. rewrite inv_ref by done. do 2 f_equal. apply cnt_ext. intros a Ha.
      unfold maps; cbn. by rewrite Hm.
  - intros d va Hd Hva. by apply (view_frame boot D fl s (set_mem m s) I).
Qed.

(** Word copies into the kernel part of a directory. *)
Lemma copy_range_out s d i n src m p j :
  ram_ok s -> is_page s d -> is_page s p -> 0 <= i -> i + n <= 1024 -> 0 <= j < 1024 ->
  (p <> d \/ j < i) ->
  copy_range (page2pa d + 4 * i) src (4 * n) m (page2pa p + 4 * j) = m (page2pa p + 4 * j).
Proof.
  intros Hram Hd Hp Hi Hn Hj Hor. unfold copy_range. rewrite !(page2pa_eq s) by done.
  destruct (Z.leb_spec (KSEG0 + d * 4096 + 4 * i) (KSEG0 + p * 4096 + 4 * j)); [|done].
  destruct (Z.ltb_spec (KSEG0 + p * 4096 + 4 * j) (KSEG0 + d * 4096 + 4 * i + 4 * n)); [|done].
  exfalso. assert (p = d) by lia. subst p. lia.
Qed.

Lemma upper_copy_inv boot D fl s d i n src :
  pm_inv boot D fl s -> d ∈ D -> NUPDE <= i -> 0 <= n -> i + n <= 1024 ->
  let s' := set_mem (copy_range (page2pa d + 4 * i) src (4 * n) (mem s)) s in
  pm_inv boot D fl s' /\ tables s' D = tables s D /\
  (forall d' va, d' ∈ D -> PDX va < NUPDE -> entry s' d' va = entry s d' va).
Proof.
  intros I Hd Hi Hn0 Hn. pose proof NUPDE_bound as HN. pose proof (inv_ram _ _ _ _ I) as Hram.
  pose proof (inv_dir_page _ _ _ _ I d Hd) as Hdp.
  assert (0 <= i) by (unfold NUPDE in Hi; pose proof (PDX_range UTOP); lia).
  apply pm_inv_mem; [done| |].
  - intros d' j Hd' Hj. apply (copy_range_out s); try done; try lia.
    by apply (inv_dir_page _ _ _ _ I).
  - intros a (t & j & Ht & Hj & ->)%elem_of_entries.
    apply (copy_range_out s); try done; [by apply (inv_table_page _ _ _ _ I)|].
    left. intros ->. pose proof (inv_dirs _ _ _ _ I) as Hnd.
    apply NoDup_app in Hnd as (_ & Hnd & _). by apply (Hnd d Hd).
Qed.

(** ** [env_setup_vm] *)
Definition same_but_envs (k k' : kst) : Prop :=
  curenv k' = curenv k /\ env_free_list k' = env_free_list k /\
  env_sched_list k' = env_sched_list k /\ asid_bitmap k' = asid_bitmap k /\
  mkenvid_i k' = mkenvid_i k /\ base_pgdir k' = base_pgdir k /\
  sched_count k' = sched_count k /\ kstack k' = kstack k.

(** Memory after the page [t] has become a directory with the kernel part of
    [base]. *)
Definition new_dir_mem (base t : Z) (m : Z -> Z) : Z -> Z :=
  copy_range (page2pa t + 4 * PDX KSEG0) (base + 4 * PDX KSEG0) (4 * 512)
    (copy_range (page2pa t + 4 * PDX UTOP) (base + 4 * PDX UTOP) (4 * (PDX UVPT - PDX UTOP))
      (zero_range (page2pa t) BY2PG m)).

Lemma env_setup_vm_run boot D t fl e k :
  pm_inv boot D (t :: fl) (pm k) -> (forall p, 0 <= boot p) ->
  exists k', env_setup_vm e k = Ret 0 k' /\ pm_inv boot (t :: D) fl (pm k') /\
    envs k' = upd (envs k) e (set_env_pgdir (page2pa t) (envs k e)) /\ same_but_envs k k' /\
    npage (pm k') = npage (pm k) /\ t ∉ D /\ is_page (pm k) t /\
    (forall va, 0 <= va < UTOP -> entry (pm k') t va = None) /\
    (forall d va, d ∈ D -> PDX va < NUPDE -> entry (pm k') d va = entry (pm k) d va) /\
    mem (pm k') = new_dir_mem (base_pgdir k) t (mem (pm k)) /\
    tables (pm k') (t :: D) = tables (pm k) D.
Proof.
  intros I Hb. pose proof (inv_ram _ _ _ _ I) as Hram.
  destruct (new_dir_inv _ _ _ _ _ I Hb) as (s1 & Hal & I2 & Ht2 & Hn2 & He2 & Hz2 & Hr0 & HtD & Htp).
  assert (Hs1 : pp_ref s1 t = 0 /\ mem s1 = zero_range (page2pa t) BY2PG (mem (pm k))).
  { destruct (page_alloc_cons _ _ _ (inv_free _ _ _ _ I)) as (q & _ & Hal').
    rewrite Hal' in Hal. injection Hal as <-. done. }
  destruct Hs1 as [Hr1 Hm1].
  set (s2 := set_pp_ref (upd (pp_ref s1) t 1) s1) in *.
  assert (Htin : t ∈ t :: D) by (apply elem_of_cons; by left).
  pose proof (upper_copy_inv boot (t :: D) fl s2 t (PDX UTOP) (PDX UVPT - PDX UTOP)
    (base_pgdir k + 4 * PDX UTOP) I2 Htin) as (I3 & Ht3 & He3); [by vm_compute..|].
  set (s3 := set_mem _ s2) in *.
  pose proof (upper_copy_inv boot (t :: D) fl s3 t (PDX KSEG0) 512
    (base_pgdir k + 4 * PDX KSEG0) I3 Htin) as (I4 & Ht4 & He4); [by vm_compute..|].
  set (s4 := set_mem _ s3) in *.
  exists (set_envs (upd (envs k) e (set_env_pgdir (page2pa t) (envs k e))) (set_pm s4 k)).
  split; [|split; [exact I4|split; [reflexivity|split; [by repeat split|split; [exact Hn2|
    split; [exact HtD|split; [exact Htp|split; [|split; [|split]]]]]]]]].
  - unfold env_setup_vm, try_z. rewrite (bind_step _ _ _ _ _ (kpm_ret page_alloc k _ _ Hal)).
    rewrite (bind_step _ _ _ _ _ (eq_refl : gets pm (set_pm s1 k) = Ret s1 _)). rewrite Hr1.
    change (u16 (0 + 1)) with 1.
    rewrite (bind_step _ _ _ _ _ (kpm_ret (set_ref t 1) (set_pm s1 k) tt s2 eq_refl)).
    rewrite (bind_step _ _ _ _ _ (upd_env_run _ _ _)).
    rewrite (bind_step _ _ _ _ _ (eq_refl : get _ = Ret _ _)). cbv zeta.
    cbn [envs set_envs set_pm]. rewrite upd_same. cbn [env_pgdir set_env_pgdir base_pgdir].
    change (4 * 512) with (4 * Z.of_nat 512).
    erewrite bind_step; [|apply kpm_ret; reflexivity].
    erewrite bind_step; [|apply kpm_ret; reflexivity].
    by destruct k.
  - intros va Hva. destruct (user_PDX va Hva) as [Hx _]. pose proof (PDX_range va).
    change (entry s4 t va = None). rewrite He4, He3 by done. unfold entry, pte_addr.
    change (mem s2 (pde_addr t va)) with (pde s2 t (PDX va)). by rewrite Hz2.
  - intros d va Hd Hva. assert (Hd' : d ∈ t :: D) by (apply elem_of_cons; by right).
    change (entry s4 d va = entry (pm k) d va). by rewrite He4, He3, He2.
  - unfold new_dir_mem. by rewrite <- Hm1.
  - change (tables s4 (t :: D) = tables (pm k) D). by rewrite Ht4, Ht3.
Qed.

(** What [env_alloc] sets up on success: environment [e] with directory [t]
    and ASID [a]. *)
Record env_made (D : list Z) (parent e t a : Z) (k k' : kst) : Prop := {
  em_id : env_id (envs k' e) = (u32 (mkenvid_i k + 1) mod 2 ^ 21) * 2 ^ 11 + e;
  em_envx : ENVX (env_id (envs k' e)) = e;
  em_parent : env_parent_id (envs k' e) = parent;
  em_asid : env_asid (envs k' e) = a;
  em_pgdir : env_pgdir (envs k' e) = page2pa t;
  em_runs : env_runs (envs k' e) = 0 /\ env_user_tlb_mod_entry (envs k' e) = 0;
  em_sp : regs (env_tf (envs k' e)) 2 = USTACKTOP - 8;
  em_status : env_status (envs k' e) = env_status (envs k e);
  em_fresh : 0 <= a < NASID /\ asid_used (asid_bitmap k) a = false;
  em_bitmap : forall j, 0 <= j ->
    asid_used (asid_bitmap k') j = (a =? j) || asid_used (asid_bitmap k) j;
  em_empty : forall va, 0 <= va < UTOP -> entry (pm k') t va = None;
  em_frame : forall d va, d ∈ D -> 0 <= va < UTOP -> entry (pm k') d va = entry (pm k) d va;
  em_others : forall x, x <> e -> envs k' x = envs k x;
  em_same : env_sched_list k' = env_sched_list k /\ curenv k' = curenv k /\
            kstack k' = kstack k;
  em_next : mkenvid_i k' = u32 (mkenvid_i k + 1) /\ base_pgdir k' = base_pgdir k;
  em_mem : mem (pm k') = new_dir_mem (base_pgdir k) t (mem (pm k));
  em_pages : npage (pm k') = npage (pm k) /\ tables (pm k') (t :: D) = tables (pm k) D
}.


(** The fields [env_alloc] fills in before it takes an ASID. *)
Definition fill_env (e parent_id : Z) {A} (K : KM A) : KM A :=
  upd_env e (set_env_user_tlb_mod_entry 0) ;!
  upd_env e (set_env_runs 0) ;!
  upd_env e (set_env_parent_id parent_id) ;!
  let! id := mkenvid e in
  upd_env e (set_env_id id) ;! K.

Lemma fill_env_run {A} e parent k :
  0 <= e < NENV -> 0 <= mkenvid_i k ->
  exists k', (forall K : KM A, fill_env e parent K k = K k') /\
    env_id (envs k' e) = (u32 (mkenvid_i k + 1) mod 2 ^ 21) * 2 ^ 11 + e /\
    env_parent_id (envs k' e) = parent /\ env_runs (envs k' e) = 0 /\
    env_user_tlb_mod_entry (envs k' e) = 0 /\ env_pgdir (envs k' e) = env_pgdir (envs k e) /\
    env_status (envs k' e) = env_status (envs k e) /\ env_tf (envs k' e) = env_tf (envs k e) /\
    (forall x, x <> e -> envs k' x = envs k x) /\ pm k' = pm k /\
    asid_bitmap k' = asid_bitmap k /\ env_free_list k' = env_free_list k /\
    env_sched_list k' = env_sched_list k /\ curenv k' = curenv k /\ kstack k' = kstack k /\
    mkenvid_i k' = u32 (mkenvid_i k + 1) /\ base_pgdir k' = base_pgdir k.
Proof.
  intros He Hi. eexists. split; [intros K; reflexivity|].
  cbn [envs set_envs set_mkenvid_i mkenvid_i]. rewrite !upd_same.
  split_and!; try done.
  - cbn [env_id set_env_id]. change (1 + LOG2NENV) with 11.
    apply mkenvid_value; [done|]. pose proof (u32_range (mkenvid_i k + 1)). lia.
  - intros x Hx. by rewrite !upd_other.
Qed.

(** Taking the ASID and leaving the free list. *)
Definition take_asid (e a : Z) : KM (result Z) :=
  upd_env e (set_env_asid a) ;!
  upd_env e (fun v => set_env_tf (set_reg 2 (USTACKTOP - 4 - 4) (env_tf v)) v) ;!
  free_op (LIST_REMOVE e) ;!
  ret (OK e).

Lemma take_asid_run e a fel k :
  list_rep (env_free_list k) (e :: fel) ->
  exists k', take_asid e a k = Ret (OK e) k' /\ list_rep (env_free_list k') fel /\
    env_id (envs k' e) = env_id (envs k e) /\ env_parent_id (envs k' e) = env_parent_id (envs k e) /\
    env_runs (envs k' e) = env_runs (envs k e) /\
    env_user_tlb_mod_entry (envs k' e) = env_user_tlb_mod_entry (envs k e) /\
    env_pgdir (envs k' e) = env_pgdir (envs k e) /\ env_status (envs k' e) = env_status (envs k e) /\
    env_asid (envs k' e) = a /\ regs (env_tf (envs k' e)) 2 = USTACKTOP - 8 /\
    (forall x, x <> e -> envs k' x = envs k x) /\ pm k' = pm k /\
    asid_bitmap k' = asid_bitmap k /\ env_sched_list k' = env_sched_list k /\
    curenv k' = curenv k /\ kstack k' = kstack k /\
    mkenvid_i k' = mkenvid_i k /\ base_pgdir k' = base_pgdir k.
Proof.
  intros Hf. destruct (list_remove _ _ e [] fel Hf eq_refl) as (q & Hq & Hr & _).
  eexists. split.
  - unfold take_asid. do 2 rewrite (bind_step _ _ _ _ _ (upd_env_run _ _ _)).
    unfold bind, free_op. cbn [env_free_list set_envs]. rewrite Hq. reflexivity.
  - cbn [envs set_envs env_free_list set_env_free_list]. rewrite !upd_same.
    split_and!; try done. intros x Hx. by rewrite !upd_other.
Qed.

Lemma env_alloc_run boot D t fl e fel k parent :
  pm_inv boot D (t :: fl) (pm k) -> (forall p, 0 <= boot p) ->
  list_rep (env_free_list k) (e :: fel) -> 0 <= e < NENV -> 0 <= mkenvid_i k ->
  (exists a k', env_alloc parent k = Ret (OK e) k' /\ pm_inv boot (t :: D) fl (pm k') /\
     list_rep (env_free_list k') fel /\ env_made D parent e t a k k') \/
  ((forall a, 0 <= a < NASID -> asid_used (asid_bitmap k) a = true) /\
   exists k', env_alloc parent k = Ret (Err (- E_NO_FREE_ENV)) k' /\
     pm_inv boot (t :: D) fl (pm k') /\ env_free_list k' = env_free_list k).
Proof.
  intros I Hb Hfe He Hi.
  destruct (env_setup_vm_run boot D t fl e k I Hb)
    as (k1 & Hr1 & I1 & Hv1 & (Hc1 & Hf1 & Hs1 & Ha1 & Hm1 & Hbs1 & _ & Hk1) & Hn1 & _ & _ & Hz1 & Ho1 & Hme1 & Ht1).
  destruct (fill_env_run (A := result Z) e parent k1 He ltac:(by rewrite Hm1))
    as (k2 & Hr2 & Hid & Hpar & Hrn & Htm & Hpg & Hst & _ & Hot2 & Hp2 & Ha2 & Hf2 & Hs2 & Hc2 & Hk2 & Hi2 & Hbs2).
  assert (Hrun : env_alloc parent k =
    bind asid_alloc (fun r => match r with
      | Err r => ret (Err r) | OK asid => take_asid e asid end) k2).
  { rewrite <- Hr2. unfold env_alloc, bind at 1, gets. cbv beta iota.
    rewrite (list_rep_first _ _ Hfe). cbn [head]. rewrite (bind_step _ _ _ _ _ Hr1). done. }
  rewrite Hrun. unfold asid_alloc.
  destruct (asid_alloc_from_spec (Z.to_nat NASID) 0 k2 ltac:(lia)) as
    [(a & Ha & Hfree & _ & Hal)|[Hall Hal]]; rewrite (bind_step _ _ _ _ _ Hal).
  - left. set (k3 := set_asid_bitmap _ k2).
    destruct (take_asid_run e a fel k3) as
      (k4 & Hr4 & Hfl4 & Hid4 & Hpar4 & Hrn4 & Htm4 & Hpg4 & Hst4 & Has4 & Hsp4 & Hot4 & Hp4 & Hb4
       & Hs4 & Hc4 & Hk4 & Hi4 & Hbs4).
    { unfold k3. cbn [env_free_list set_asid_bitmap]. by rewrite Hf2, Hf1. }
    change (pm k3) with (pm k2) in Hp4. change (envs k3) with (envs k2) in *.
    change (env_sched_list k3) with (env_sched_list k2) in Hs4.
    change (curenv k3) with (curenv k2) in Hc4. change (kstack k3) with (kstack k2) in Hk4.
    change (asid_bitmap k3) with (set_asid (asid_bitmap k2) a) in Hb4.
    change (mkenvid_i k3) with (mkenvid_i k2) in Hi4. change (base_pgdir k3) with (base_pgdir k2) in Hbs4.
    exists a, k4. split; [exact Hr4|]. split; [by rewrite Hp4, Hp2|]. split; [exact Hfl4|].
    rewrite Ha2, Ha1 in Hfree, Hb4.
    split.
    + by rewrite Hid4, Hid, Hm1.
    + rewrite Hid4, Hid. rewrite <- mkenvid_value by (done || apply u32_range). by apply mkenvid_ENVX.
    + by rewrite Hpar4.
    + done.
    + rewrite Hpg4, Hpg, Hv1. by rewrite upd_same.
    + by rewrite Hrn4, Htm4.
    + done.
    + rewrite Hst4, Hst, Hv1. by rewrite upd_same.
    + split; [|done]. change (Z.of_nat (Z.to_nat NASID)) with 64 in Ha. change NASID with 64. lia.
    + intros j Hj. rewrite Hb4. apply asid_used_set; lia.
    + intros va Hva. rewrite Hp4, Hp2. by apply Hz1.
    + intros d va Hd Hva. rewrite Hp4, Hp2. apply Ho1; [done|]. by apply user_PDX.
    + intros x Hx. rewrite Hot4, Hot2, Hv1 by done. by apply upd_other.
    + by rewrite Hs4, Hs2, Hs1, Hc4, Hc2, Hc1, Hk4, Hk2, Hk1.
    + by rewrite Hi4, Hi2, Hm1, Hbs4, Hbs2, Hbs1.
    + by rewrite Hp4, Hp2.
    + by rewrite Hp4, Hp2.
  - right. split.
    + intros a Ha. rewrite <- Ha1, <- Ha2. apply Hall. exact Ha.
    + exists k2. split; [done|]. split; [by rewrite Hp2|]. by rewrite Hf2, Hf1.
Qed.

(** A page only the torn down address space mapped is free afterwards. *)
Lemma freed_page boot D d fl fl' s s' va p :
  pm_inv boot (d :: D) fl s -> (forall p, 0 <= boot p) -> pm_inv boot D fl' s' ->
  npage s' = npage s -> no_leak s s' fl fl' ->
  (forall x, x ∈ tables s' D -> x ∈ tables s (d :: D)) ->
  (forall d' va, d' ∈ D -> PDX va < NUPDE -> entry s' d' va = entry s d' va) ->
  0 <= va < UTOP -> mapped_page s d va = Some p -> boot p = 0 ->
  (forall d' va', d' ∈ D -> 0 <= va' < UTOP -> mapped_page s d' va' <> Some p) ->
  p ∈ fl'.
Proof.
  intros I Hb I' Hn Hl Ht He Hva Hm H0 Hother. destruct (user_PDX va Hva) as [Hx _].
  assert (Hd : d ∈ d :: D) by (apply elem_of_cons; by left).
  unfold mapped_page in Hm. destruct (entry s d va) as [e|] eqn:Hent; [|done].
  injection Hm as Hm. cbn in Hm.
  destruct (entry_mapped _ _ _ _ I d va e Hd Hx Hent) as (_ & _ & _ & _ & _ & Hp & Hu).
  destruct (mapped_ref _ _ _ _ I d va e Hd Hx Hb Hent) as [Hr _]. rewrite Hm in *.
  assert (Hz : pp_ref s' p = 0).
  { rewrite (inv_ref _ _ _ _ I') by (unfold is_page in *; by rewrite Hn).
    rewrite (unmapped_cnt _ _ _ _ p I').
    - rewrite H0. unfold owns. rewrite bool_decide_eq_false_2; [done|].
      intros Hin. apply Hu. apply elem_of_app in Hin as [Hin|Hin]; apply elem_of_app.
      + left. apply elem_of_cons. by right.
      + right. by apply Ht.
    - intros d' va' Hd' Hva'. destruct (user_PDX va' Hva') as [Hx' _].
      unfold mapped_page. rewrite He by done. by apply Hother. }
  destruct (decide (p ∈ fl')) as [|Hf]; [done|]. destruct (Hl p Hp Hz Hf). lia.
Qed.

(** ** Properties *)

(** C11. [env_alloc]: with no free environment or no free page it fails with
    the state unchanged; otherwise it takes the first free environment and a
    zeroed page as its directory: the new id carries the environment's index
    in its low bits, the ASID was unused and is the only one newly marked,
    the user address space is empty, and no other environment or mapping
    changes.  When all ASIDs are taken it fails too, but the directory page
    stays allocated (it remains a directory of the invariant that no
    environment uses).  The first free environment has to be one of the array:
    [env_init] also puts the index NENV, one past it, on the list (finding at
    kern/env.c:169), but last, behind the 1024 others, where the 64 ASIDs are
    taken long before it comes first. *)
Theorem env_alloc_correct boot D fl fel k parent :
  pm_inv boot D fl (pm k) -> (forall p, 0 <= boot p) -> list_rep (env_free_list k) fel ->
  (forall e, head fel = Some e -> 0 <= e < NENV) -> 0 <= mkenvid_i k ->
  match fel, fl with
  | [], _ => env_alloc parent k = Ret (Err (- E_NO_FREE_ENV)) k
  | _ :: _, [] => env_alloc parent k = Ret (Err (- E_NO_MEM)) k
  | e :: fel', t :: fl' =>
      (exists a k', env_alloc parent k = Ret (OK e) k' /\ pm_inv boot (t :: D) fl' (pm k') /\
         list_rep (env_free_list k') fel' /\ env_made D parent e t a k k') \/
      ((forall a, 0 <= a < NASID -> asid_used (asid_bitmap k) a = true) /\
       exists k', env_alloc parent k = Ret (Err (- E_NO_FREE_ENV)) k' /\
         pm_inv boot (t :: D) fl' (pm k') /\ env_free_list k' = env_free_list k)
  end.
Proof.
  intros I Hb Hf Hr Hi. destruct fel as [|e fel]; [|destruct fl as [|t fl]].
  - unfold env_alloc, bind, gets. by rewrite (list_rep_first _ _ Hf).
  - unfold env_alloc, bind at 1, gets. cbv beta iota. rewrite (list_rep_first _ _ Hf). cbn [head].
    unfold env_setup_vm, try_z, bind.
    by rewrite (kpm_same _ _ _ (page_alloc_empty _ (inv_free _ _ _ _ I))).
  - apply env_alloc_run; try done. by apply Hr.
Qed.

(** Environment 0 lives in the address space of the example machine,
    environment 3 is free. *)
Definition ex_live : kst :=
  set_env_free_list (LIST_INSERT_HEAD 3 (LIST_INIT (env_free_list ex_kst)))
    (set_envs (upd (envs ex_kst) 0 (set_env_pgdir (page2pa ex_dir) (envs ex_kst 0))) ex_kst).

Lemma ex_live_free : list_rep (env_free_list ex_live) [3].
Proof. apply (list_insert_head _ [] 3); [apply list_rep_init|by apply not_elem_of_nil]. Qed.

Lemma env_alloc_correct_witness :
  (exists a k', env_alloc 7 ex_live = Ret (OK 3) k' /\
     pm_inv ex_refs [ex_page; ex_dir] ex_free1 (pm k') /\ list_rep (env_free_list k') [] /\
     env_made [ex_dir] 7 3 ex_page a ex_live k') \/
  ((forall a, 0 <= a < NASID -> asid_used (asid_bitmap ex_live) a = true) /\
   exists k', env_alloc 7 ex_live = Ret (Err (- E_NO_FREE_ENV)) k' /\
     pm_inv ex_refs [ex_page; ex_dir] ex_free1 (pm k') /\
     env_free_list k' = env_free_list ex_live).
Proof.
  apply (env_alloc_correct ex_refs [ex_dir] ex_free [3] ex_live 7).
  - exact ex_vm_inv.
  - exact ex_refs_nonneg.
  - exact ex_live_free.
  - by intros e [= <-].
  - by vm_compute.
Defined.

(** C12. [env_free] of a queued environment always returns: its address space
    is gone from the invariant, every page only it mapped is free, the
    mappings of the other address spaces are untouched, its ASID is the only
    one released, it leaves the scheduling queue and heads the free list. *)
Theorem env_free_correct boot D d fl q fel e k :
  pm_inv boot (d :: D) fl (pm k) -> (forall p, 0 <= boot p) ->
  env_pgdir (envs k e) = page2pa d -> 0 <= env_asid (envs k e) ->
  tailq_rep (env_sched_list k) q -> e ∈ q -> list_rep (env_free_list k) fel -> e ∉ fel ->
  exists k' fl', env_free e k = Ret tt k' /\ pm_inv boot D fl' (pm k') /\
    env_status (envs k' e) = ENV_FREE /\ (forall x, x <> e -> envs k' x = envs k x) /\
    list_rep (env_free_list k') (e :: fel) /\
    tailq_rep (env_sched_list k') (filter (.≠ e) q) /\
    (forall j, 0 <= j -> asid_used (asid_bitmap k') j =
       negb (env_asid (envs k e) =? j) && asid_used (asid_bitmap k) j) /\
    (forall d' va, d' ∈ D -> 0 <= va < UTOP -> entry (pm k') d' va = entry (pm k) d' va) /\
    (forall va p, 0 <= va < UTOP -> mapped_page (pm k) d va = Some p -> boot p = 0 ->
       (forall d' va', d' ∈ D -> 0 <= va' < UTOP -> mapped_page (pm k) d' va' <> Some p) ->
       p ∈ fl').
Proof.
  intros I Hb Hpg Ha Hq (l1 & l2 & ->)%list_elem_of_split Hf Hef.
  destruct (env_free_vm_run boot D fl (pm k) d (env_asid (envs k e)) I Hb)
    as (s' & fl' & Hrun & I' & Hn & Hl & Ht & He).
  destruct (tailq_remove _ _ e l1 l2 Hq eq_refl) as (q' & Hrm & Hq' & _).
  set (a := env_asid (envs k e)) in *.
  set (k' := set_env_sched_list q'
    (set_env_free_list (LIST_INSERT_HEAD e (env_free_list k))
      (set_envs (upd (envs k) e (set_env_status ENV_FREE (envs k e)))
        (set_asid_bitmap (clear_asid (asid_bitmap k) a)
          (set_pm (set_tlb_log ((a, 0) :: tlb_log s') s') k))))).
  exists k', fl'. split.
  { unfold env_free, bind at 1, get. cbv beta iota. rewrite Hpg. fold a.
    rewrite (bind_step _ _ _ _ _ (kpm_ret _ _ _ _ Hrun)).
    unfold asid_free, kpm, zoom, tlb_invalidate, upd_env, modify, bind, sched_op.
    cbn [pm set_pm envs set_envs env_free_list set_env_free_list env_sched_list set_asid_bitmap
         asid_bitmap]. rewrite Hrm. unfold k', clear_asid. by destruct k. }
  split_and!.
  - by apply pm_inv_tlb.
  - cbn. by rewrite upd_same.
  - intros x Hx. cbn. by apply upd_other.
  - by apply (list_insert_head _ _ e Hf).
  - cbn [env_sched_list set_env_sched_list k'].
    by rewrite (filter_ne_mid e l1 l2 (proj1 Hq)).
  - intros j Hj. by apply asid_used_clear.
  - intros d' va Hd' Hva. apply He; [done|by apply user_PDX].
  - intros va p Hva Hm H0 Ho. by apply (freed_page boot D d fl fl' (pm k) s' va p).
Qed.

Lemma env_free_correct_witness :
  exists k' fl', env_free 0 ex_live = Ret tt k' /\ pm_inv ex_refs [] fl' (pm k') /\
    env_status (envs k' 0) = ENV_FREE /\ (forall x, x <> 0 -> envs k' x = envs ex_live x) /\
    list_rep (env_free_list k') [0; 3] /\
    tailq_rep (env_sched_list k') (filter (.≠ 0) [0; 1; 2]) /\
    (forall j, 0 <= j -> asid_used (asid_bitmap k') j =
       negb (env_asid (envs ex_live 0) =? j) && asid_used (asid_bitmap ex_live) j) /\
    (forall d' va, d' ∈ [] -> 0 <= va < UTOP -> entry (pm k') d' va = entry (pm ex_live) d' va) /\
    (forall va p, 0 <= va < UTOP -> mapped_page (pm ex_live) ex_dir va = Some p ->
       ex_refs p = 0 ->
       (forall d' va', d' ∈ [] -> 0 <= va' < UTOP -> mapped_page (pm ex_live) d' va' <> Some p) ->
       p ∈ fl').
Proof.
  apply (env_free_correct ex_refs [] ex_dir ex_free [0; 1; 2] [3] 0 ex_live).
  - exact ex_vm_inv.
  - exact ex_refs_nonneg.
  - done.
  - done.
  - exact (si_rep _ _ ex_kst_inv).
  - by apply (bool_decide_unpack _).
  - exact ex_live_free.
  - by apply (bool_decide_unpack _).
Defined.

(** The environments an id gives the caller [c] access to. *)
Definition accessible (k : kst) (c envid : Z) (checkperm : bool) (e : Z) : Prop :=
  (envid = 0 /\ e = c) \/
  (envid <> 0 /\ e = ENVX envid /\ env_status (envs k e) <> ENV_FREE /\
   env_id (envs k e) = envid /\
   (checkperm = true ->
      env_id (envs k c) = envid \/ env_parent_id (envs k e) = env_id (envs k c))).

Lemma target_complete k envid checkperm c e :
  curenv k = Some c -> accessible k c envid checkperm e -> target k envid checkperm = Some e.
Proof.
  intros Hc [[-> ->]|(H0 & -> & Hs & Hid & Hp)]; unfold target; rewrite Hc; [done|].
  destruct (Z.eqb_spec envid 0); [done|].
  destruct (Z.eqb_spec (env_status (envs k (ENVX envid))) ENV_FREE); [done|].
  rewrite Hid, Z.eqb_refl. cbn [orb negb]. destruct checkperm; [|done].
  destruct (Hp eq_refl) as [->| ->]; rewrite Z.eqb_refl; [done|]. by rewrite orb_true_r.
Qed.

(** C13. [envid2env] changes nothing; it yields environment [e] exactly when
    the id denotes [e] to the caller: the caller itself for 0, otherwise the
    live environment whose full id matches and, with [checkperm], which is
    the caller or its child; in every other case it returns [-E_BAD_ENV]. *)
Theorem envid2env_correct envid checkperm k c :
  curenv k = Some c ->
  (forall e, envid2env envid checkperm k = Ret (OK (Some e)) k <->
             accessible k c envid checkperm e) /\
  ((forall e, ~ accessible k c envid checkperm e) ->
   envid2env envid checkperm k = Ret (Err (- E_BAD_ENV)) k).
Proof.
  intros Hc. rewrite (envid2env_target _ _ _ _ Hc). split.
  - intros e. split.
    + intros H. apply (target_spec _ _ _ _ _ Hc).
      destruct (target k envid checkperm); [|done]. by injection H as ->.
    + intros H. by rewrite (target_complete _ _ _ _ _ Hc H).
  - intros Hno. destruct (target k envid checkperm) as [e|] eqn:Ht; [|done].
    exfalso. by apply (Hno e), (target_spec _ _ _ _ _ Hc).
Qed.

Lemma envid2env_correct_witness :
  (forall e, envid2env 0 true ex_kst = Ret (OK (Some e)) ex_kst <-> accessible ex_kst 0 0 true e) /\
  ((forall e, ~ accessible ex_kst 0 0 true e) ->
   envid2env 0 true ex_kst = Ret (Err (- E_BAD_ENV)) ex_kst).
Proof. by apply envid2env_correct. Defined.

(** [asid_alloc] hands out the lowest unused identifier below [NASID]
    and marks exactly that one, or fails with the bitmap unchanged when all
    are used; [asid_free] unmarks exactly its argument, so that freeing what
    was just allocated restores every bit. *)
Lemma asid_alloc_free k :
  (exists a k1, asid_alloc k = Ret (OK a) k1 /\ 0 <= a < NASID /\
     asid_used (asid_bitmap k) a = false /\
     (forall x, 0 <= x < a -> asid_used (asid_bitmap k) x = true) /\
     (forall j, 0 <= j -> asid_used (asid_bitmap k1) j = (a =? j) || asid_used (asid_bitmap k) j) /\
     exists k2, asid_free a k1 = Ret tt k2 /\
       forall j, 0 <= j -> asid_used (asid_bitmap k2) j = asid_used (asid_bitmap k) j) \/
  ((forall x, 0 <= x < NASID -> asid_used (asid_bitmap k) x = true) /\
   asid_alloc k = Ret (Err (- E_NO_FREE_ENV)) k).
Proof.
  unfold asid_alloc.
  destruct (asid_alloc_from_spec (Z.to_nat NASID) 0 k ltac:(lia)) as
    [(a & Ha & Hf & Hlow & Hal)|[Hall Hal]]; rewrite Hal.
  - left. change (0 + Z.of_nat (Z.to_nat NASID)) with NASID in Ha.
    exists a. eexists. split; [reflexivity|]. split_and!; try (done || lia).
    + intros j Hj. apply asid_used_set; lia.
    + eexists. split; [reflexivity|]. intros j Hj.
      change (asid_used (clear_asid (set_asid (asid_bitmap k) a) a) j =
              asid_used (asid_bitmap k) j).
      rewrite asid_used_clear, asid_used_set by lia.
      destruct (Z.eqb_spec a j) as [<-|]; [by rewrite Hf|done].
  - right. split; [|done]. intros x Hx. apply Hall. exact Hx.
Qed.

(** ** Where the code departs from its intent *)

(** [env_free] removes the environment from the scheduling queue whether or
    not it is in it: for one that never was (a child [sys_exofork] made and
    its parent destroys before it ran) the macro writes through null. *)
Lemma env_free_never_queued :
  let k := set_envs (upd (envs ex_live) 5
    (set_env_pgdir (page2pa ex_dir) (ex_env ENV_NOT_RUNNABLE 1))) ex_live in
  match env_free 5 k with Fault => true | _ => false end = true.
Proof. by vm_compute. Qed.

(** The loop of [env_init] starts at [NENV]: the free list it builds also
    holds an element past the end of [envs]. *)
Lemma env_init_out_of_bounds :
  let ids := (fun j => NENV - j) <$> seqZ 0 (NENV + 1) in
  In NENV ids /\ length ids = 1025%nat.
Proof. split; [left; by vm_compute|by vm_compute]. Qed.
