(* ===== verification/KernMap.v ===== *)
(** * Kernel mappings

    [map_segment] fills the part of the template directory above the user
    part; the pages involved belong to no address space, so all that matters
    of memory management is which pages are free and how often the others are
    referenced. *)
From S2P Require Import Prelude Queue Mmu Pmap PmapFacts PmapInv PmapSpec PmapFrame.
From S2P Require Import UserMem Elf Env EnvFree Sched EnvFacts.

Definition free_inv (fl : list Z) (s : pmst) : Prop := pm_inv (pp_ref s) [] fl s.

Lemma free_inv_intro boot fl s : pm_inv boot [] fl s -> free_inv fl s.
Proof.
  intros I. eapply pm_inv_boot_ext; [|exact I]. intros p Hp. rewrite (inv_ref _ _ _ _ I p Hp).
  change (boot p = 0 + 0 + boot p). lia.
Qed.

Lemma free_inv_mem fl s m : free_inv fl s -> free_inv fl (set_mem m s).
Proof.
  intros I. destruct I. split; try done; cbn.
  intros a Ha. by apply elem_of_nil in Ha.
Qed.

Lemma free_inv_ref fl s p v : free_inv fl s -> p ∉ fl -> 0 <= v < 2 ^ 16 ->
  free_inv fl (set_pp_ref (upd (pp_ref s) p v) s).
Proof. intros I Hp Hv. eapply free_inv_intro, pm_inv_set_ref; done. Qed.

Lemma free_inv_alloc fl p s : free_inv (p :: fl) s ->
  exists s', page_alloc s = Ret (OK p) s' /\ free_inv fl s' /\ npage s' = npage s /\
    pp_ref s' = pp_ref s /\ pp_ref s p = 0 /\ is_page s p /\ p ∉ fl /\
    (forall j, 0 <= j < 1024 -> mem s' (page2pa p + 4 * j) = 0) /\
    (forall r j, is_page s r -> r <> p -> 0 <= j < 1024 ->
       mem s' (page2pa r + 4 * j) = mem s (page2pa r + 4 * j)).
Proof.
  intros I. pose proof (inv_free_ref _ _ _ _ I p ltac:(set_solver)) as Hr.
  destruct (page_alloc_cons _ _ _ (inv_free _ _ _ _ I)) as (q & Hq & Hal).
  destruct (pm_inv_alloc _ _ _ _ _ _ I ltac:(lia) Hq) as (I' & _ & Hf & Hp & _ & _ & Hfr & Hz & _).
  eexists. split; [exact Hal|]. split_and!; try done.
Qed.

(** The table [T] serves entry [c] of the directory [b]. *)
Record ktable (s : pmst) (b c T : Z) : Prop := {
  kt_dir : is_page s b;
  kt_page : is_page s T;
  kt_index : 0 <= c < 1024;
  kt_pde : pde s b c = pte_of (page2pa T) PTE_V
}.

Lemma ktable_addr s b T va : ram_ok s -> ktable s b (PDX va) T ->
  pte_addr s b va = Some (page2pa T + 4 * PTX va).
Proof.
  intros Hram K. unfold pte_addr, pde_addr. change (mem s _) with (pde s b (PDX va)).
  destruct (table_pte s T Hram (kt_page _ _ _ _ K)) as (Hv & Ha & _).
  by rewrite (kt_pde _ _ _ _ K), Hv, Ha.
Qed.

Definition leaf (p perm : Z) : Z := pte_of (page2pa p) (Z.lor perm PTE_LEAF).

Lemma leaf_entry s p perm : ram_ok s -> is_page s p -> 0 <= perm < 1024 ->
  valid (leaf p perm) = true /\ epage (leaf p perm) = p /\ PTE_BITS (leaf p perm) = Z.lor perm PTE_LEAF.
Proof.
  intros Hram Hp Hperm. pose proof (leaf_perm_range perm Hperm) as Hl. unfold leaf.
  destruct (page2pa_range s Hram p Hp) as (? & ? & _ & _). unfold KSEG0 in *.
  split; [|split; [by apply (epage_pte_of s)|apply PTE_BITS_pte_of; lia]].
  unfold valid. rewrite pte_of_flag by (by vm_compute). apply PTE_LEAF_valid.
Qed.

(** Filling an empty entry of the table. *)
Lemma insert_kernel fl s b T va pp perm asid :
  free_inv fl s -> ktable s b (PDX va) T -> va < ULIM ->
  mem s (page2pa T + 4 * PTX va) = 0 ->
  is_page s pp -> pp ∉ fl -> pp_ref s pp < 2 ^ 16 - 1 ->
  exists s', page_insert (page2pa b) asid pp va perm s = Ret 0 s' /\ free_inv fl s' /\
    npage s' = npage s /\ pp_ref s' = upd (pp_ref s) pp (pp_ref s pp + 1) /\
    mem s' = upd (mem s) (page2pa T + 4 * PTX va) (leaf pp perm).
Proof.
  intros I K Hul Hz Hp Hf Hr. pose proof (inv_ram _ _ _ _ I) as Hram.
  pose proof (ktable_addr s b T va Hram K) as Ha. pose proof (kt_dir _ _ _ _ K) as Hbp.
  pose proof (inv_ref16 _ _ _ _ I pp Hp) as H16.
  pose proof (in_ram_entry s Hram T _ (kt_page _ _ _ _ K) (PTX_range va)) as Hin.
  rewrite page_insert_new; [|done|done|by rewrite Ha; intros a [= <-]|done|].
  2: { unfold entry. rewrite Ha, Hz. done. }
  unfold insert_new. rewrite (bind_step _ _ _ _ _ (pgdir_walk_existing s Hram b va _ Hbp Ha)).
  rewrite (bind_step get _ s _ _ eq_refl), u16_id by lia.
  rewrite (bind_step _ _ _ _ _ (set_ref_run pp _ s)).
  set (s1 := set_pp_ref _ s). rewrite (bind_step _ _ _ _ _ (PADDR2PTE_page s Hram pp Hp s1)).
  rewrite <- Z.lor_assoc. change (Z.lor (page2pa pp / 4096 * 1024) _) with (leaf pp perm).
  rewrite (bind_step _ _ _ _ _ (st_ok s1 _ _ Hin)).
  eexists. split; [reflexivity|]. split_and!; try done.
  apply (pm_inv_tlb _ [] fl (set_mem _ s1)), (free_inv_mem fl s1).
  apply free_inv_ref; [done|done|lia].
Qed.

(** ** [map_segment] within one page table *)
Lemma mod_0_small q : (q * 4096) mod 4096 = 0.
Proof. by apply Z.mod_mul. Qed.

Lemma c_range_pages n : 0 <= n -> c_range 0 (n * BY2PG) BY2PG = (fun k => 0 + k * BY2PG) <$> seqZ 0 n.
Proof.
  intros Hn. unfold c_range, BY2PG. do 2 f_equal.
  symmetry. apply Z.div_unique with 4095; lia.
Qed.

Section Segment.
Context (b va0 q n perm asid : Z) (k : kst).
Context (Hal : va0 mod PDMAP = 0) (Hva : 0 <= va0) (Hul : va0 + PDMAP <= ULIM).
Context (Hn : 0 <= n <= 1024).

Let c : Z := va0 / PDMAP.

Lemma seg_indices j : 0 <= j < 1024 ->
  u32 (va0 + j * BY2PG) = va0 + j * BY2PG /\ PDX (va0 + j * BY2PG) = c /\ PTX (va0 + j * BY2PG) = j.
Proof using Hal Hva Hul.
  intros Hj. unfold ULIM, PDMAP, BY2PG, c in *.
  pose proof (Z.div_mod va0 (4 * 1024 * 1024) ltac:(lia)) as Hdm. rewrite Hal in Hdm.
  set (i := va0 / _) in *. rewrite PDX_div, PTX_div, u32_id by lia. split_and!; [done|..].
  - symmetry; apply Z.div_unique with (j * 4096); [left|]; change (2 ^ 22) with 4194304; lia.
  - replace (va0 + j * 4096) with ((i * 1024 + j) * 4096) by lia.
    change (2 ^ 12) with 4096. rewrite Z.div_mul by lia.
    rewrite Z.add_comm, Z.mod_add, Z.mod_small; lia.
Qed.

Let perm' : Z := Z.lor perm (Z.lor PTE_R PTE_V).

(** The physical pages the segment maps. *)
Definition seg_pages (fl : list Z) (s : pmst) : Prop := forall j, 0 <= j < n ->
  is_page s (q + j) /\ q + j ∉ fl /\ pp_ref s (q + j) < 2 ^ 16 - 1.

Definition seg_body (pa i : Z) : KM unit :=
  let! pp := kpm (pa2page (u32 (pa + i))) in
  let! _ := kpm (page_insert (page2pa b) asid pp (u32 (va0 + i)) perm') in
  ret tt.

(** The first [m] pages are mapped. *)
Record seg_mapped (fl : list Z) (s : pmst) (T m : Z) (s' : pmst) : Prop := {
  sm_inv : free_inv fl s';
  sm_npage : npage s' = npage s;
  sm_ref : forall p, pp_ref s' p = pp_ref s p + Z.b2z ((q <=? p) && (p <? q + m));
  sm_leaf : forall j, 0 <= j < m -> mem s' (page2pa T + 4 * j) = leaf (q + j) perm';
  sm_zero : forall j, m <= j < 1024 -> mem s' (page2pa T + 4 * j) = 0;
  sm_frame : forall r j, is_page s r -> r <> T -> 0 <= j < 1024 ->
    mem s' (page2pa r + 4 * j) = mem s (page2pa r + 4 * j)
}.

Lemma seg_mapped_start fl s T : free_inv fl s ->
  (forall j, 0 <= j < 1024 -> mem s (page2pa T + 4 * j) = 0) -> seg_mapped fl s T 0 s.
Proof using.
  clear c. intros I Hz. split; try done; [|lia]. intros p.
  destruct (Z.leb_spec q p), (Z.ltb_spec p (q + 0)); cbn; lia.
Qed.

Lemma seg_body_run fl s T i s1 : ktable s b c T -> b <> T -> seg_pages fl s ->
  ram_ok s -> 0 <= q -> 0 <= i < n -> seg_mapped fl s T i s1 ->
  exists s', seg_body (page2pa q) (0 + i * BY2PG) (set_pm s1 k) = Ret tt (set_pm s' k) /\
    seg_mapped fl s T (i + 1) s'.
Proof using Hal Hva Hul Hn.
  intros [Kb Kp Kc Kpde] HbT Hsp Hram Hq Hi M. destruct (Hsp i Hi) as (Hp & Hpf & Hpr).
  destruct (seg_indices i ltac:(lia)) as (Hu & Hx & Ht). rewrite Z.add_0_l.
  assert (Hpa : u32 (page2pa q + i * BY2PG) = page2pa (q + i)).
  { assert (is_page s q) by (unfold is_page in *; lia).
    rewrite !(page2pa_eq s Hram) by done. unfold BY2PG, KSEG0, is_page, ram_ok in *. rewrite u32_id; lia. }
  assert (Hram1 : ram_ok s1) by (unfold ram_ok; by rewrite (sm_npage _ _ _ _ _ M)).
  assert (Hpg1 : forall r, is_page s r -> is_page s1 r)
    by (intros r; unfold is_page; by rewrite (sm_npage _ _ _ _ _ M)).
  destruct (insert_kernel fl s1 b T (va0 + i * BY2PG) (q + i) perm' asid) as (s' & Hrun & I' & Hn' & Hr' & Hm').
  - apply (sm_inv _ _ _ _ _ M).
  - rewrite Hx. split; [auto..|done|]. unfold pde. by rewrite (sm_frame _ _ _ _ _ M).
  - unfold PDMAP, BY2PG in *. lia.
  - rewrite Ht. apply (sm_zero _ _ _ _ _ M). lia.
  - auto.
  - done.
  - rewrite (sm_ref _ _ _ _ _ M). destruct (Z.ltb_spec (q + i) (q + i)); [lia|].
    rewrite andb_false_r. cbn. lia.
  - rewrite Ht in Hm'. exists s'. split.
    + unfold seg_body. rewrite Hpa, Hu.
      rewrite (bind_step _ _ _ _ _ (kpm_ret _ (set_pm s1 k) _ s1 (pa2page_page s1 Hram1 _ (Hpg1 _ Hp)))).
      rewrite (bind_step _ _ _ _ _ (kpm_ret _ (set_pm s1 (set_pm s1 k)) _ _ Hrun)). by destruct k.
    + split; [done|by rewrite Hn', (sm_npage _ _ _ _ _ M)|..].
      * intros p. rewrite Hr', upd_case. case_decide as Hpi.
        -- rewrite (sm_ref _ _ _ _ _ M). subst p.
           destruct (Z.leb_spec q (q + i)), (Z.ltb_spec (q + i) (q + i)), (Z.ltb_spec (q + i) (q + (i + 1)));
             cbn; lia.
        -- rewrite (sm_ref _ _ _ _ _ M). f_equal. f_equal. destruct (Z.leb_spec q p); [|done]. cbn.
           destruct (Z.ltb_spec p (q + i)), (Z.ltb_spec p (q + (i + 1))); try done; lia.
      * intros j Hj. rewrite Hm', upd_case. case_decide as E.
        -- replace j with i by lia. done.
        -- apply (sm_leaf _ _ _ _ _ M). assert (j <> i) by (intros ->; done). lia.
      * intros j Hj. rewrite Hm', upd_other by lia. apply (sm_zero _ _ _ _ _ M). lia.
      * intros r j Hr HrT Hj. rewrite Hm', upd_other; [by apply (sm_frame _ _ _ _ _ M)|]. intros E.
        by apply (frame_inj s Hram) in E as [-> _]; [| | | |lia].
Qed.

(** The table of the segment, from the first free page. *)
Lemma new_ktable fl s T : free_inv (T :: fl) s -> is_page s b -> b <> T ->
  0 <= c < 1024 -> valid (pde s b c) = false -> exists s',
  (forall va, PDX va = c -> pgdir_walk (page2pa b) va true s = Ret (OK (Some (page2pa T + 4 * PTX va))) s') /\
  free_inv fl s' /\ ktable s' b c T /\ npage s' = npage s /\ T ∉ fl /\
  pp_ref s' = upd (pp_ref s) T 1 /\
  (forall j, 0 <= j < 1024 -> mem s' (page2pa T + 4 * j) = 0) /\
  (forall r j, is_page s r -> r <> T -> 0 <= j < 1024 -> r <> b \/ j <> c ->
     mem s' (page2pa r + 4 * j) = mem s (page2pa r + 4 * j)).
Proof using.
  clear perm'. intros I Hb HbT Hc Hv. pose proof (inv_ram _ _ _ _ I) as Hram.
  destruct (free_inv_alloc _ _ _ I) as (s1 & Hal1 & I1 & Hn1 & Hr1 & Hr0 & HT & HTf & Hz & Hfr).
  eexists. split; [intros va Hx|].
  { rewrite (walk_create_exec s b va T s1 Hram Hb HT Hn1 Hal1); [|unfold pte_addr, pde_addr; rewrite Hx].
    - rewrite Hx. reflexivity.
    - by change (mem s (page2pa b + 4 * c)) with (pde s b c); rewrite Hv. }
  set (s2 := set_pp_ref _ s1). pose proof (free_inv_ref fl s1 T 1 I1 HTf ltac:(lia)) as I2. fold s2 in I2.
  assert (Hne : forall r j, is_page s r -> 0 <= j < 1024 -> r <> b \/ j <> c ->
            page2pa r + 4 * j <> page2pa b + 4 * c).
  { intros r j Hr Hj Hor E. apply (frame_inj s Hram) in E as [-> ->]; [|done..]. by destruct Hor. }
  split_and!; [by apply free_inv_mem| |done|done|by cbn; rewrite Hr1|..].
  - split; [by unfold is_page in *; cbn; rewrite Hn1..|done|]. unfold pde. cbn. by rewrite upd_same.
  - intros j Hj. cbn. rewrite upd_other; [by apply Hz|]. apply Hne; [done|done|left; congruence].
  - intros r j Hr HrT Hj Hor. cbn. rewrite upd_other by (by apply Hne). by apply Hfr.
Qed.

(** Creating the table first makes no difference to [page_insert]. *)
Lemma page_insert_table fl s s' T va pp perm0 : ram_ok s -> is_page s b ->
  valid (pde s b c) = false -> PDX va = c -> va < ULIM ->
  pgdir_walk (page2pa b) va true s = Ret (OK (Some (page2pa T + 4 * PTX va))) s' ->
  free_inv fl s' -> ktable s' b c T -> mem s' (page2pa T + 4 * PTX va) = 0 ->
  page_insert (page2pa b) asid pp va perm0 s = page_insert (page2pa b) asid pp va perm0 s'.
Proof using.
  clear perm'. intros Hram Hb Hv Hx Hlt Hw I' K Hz. pose proof (inv_ram _ _ _ _ I') as Hram'.
  assert (Hnone : pte_addr s b va = None).
  { unfold pte_addr, pde_addr. rewrite Hx. change (mem s (page2pa b + 4 * c)) with (pde s b c). by rewrite Hv. }
  rewrite <- Hx in K. pose proof (ktable_addr s' b T va Hram' K) as Ha.
  rewrite page_insert_new; [|done|done|by rewrite Hnone|done|by unfold entry; rewrite Hnone].
  rewrite (page_insert_new b va s').
  - unfold insert_new. rewrite (bind_step _ _ _ _ _ Hw).
    by rewrite (bind_step _ _ _ _ _ (pgdir_walk_existing s' Hram' b va _ (kt_dir _ _ _ _ K) Ha)).
  - done.
  - apply (kt_dir _ _ _ _ K).
  - rewrite Ha. intros a [= <-]. apply in_ram_entry; [done|apply (kt_page _ _ _ _ K)|apply PTX_range].
  - done.
  - unfold entry. by rewrite Ha, Hz.
Qed.

(** What [map_segment] does to a directory without a table for the segment. *)
Record segment_mapped (fl : list Z) (T : Z) (s s' : pmst) : Prop := {
  sg_inv : free_inv fl s';
  sg_npage : npage s' = npage s;
  sg_table : ktable s' b c T;
  sg_ref : forall p, pp_ref s' p = upd (pp_ref s) T 1 p + Z.b2z ((q <=? p) && (p <? q + n));
  sg_leaf : forall j, 0 <= j < n -> mem s' (page2pa T + 4 * j) = leaf (q + j) perm';
  sg_frame : forall r j, is_page s r -> r <> T -> 0 <= j < 1024 -> r <> b \/ j <> c ->
    mem s' (page2pa r + 4 * j) = mem s (page2pa r + 4 * j)
}.

(** The table exists from the first page on. *)
Lemma segment_first fl s s1 T : ram_ok s -> is_page s b -> valid (pde s b c) = false ->
  1 <= n -> is_page s q -> npage s1 = npage s -> free_inv fl s1 -> ktable s1 b c T ->
  pgdir_walk (page2pa b) va0 true s = Ret (OK (Some (page2pa T + 4 * PTX va0))) s1 ->
  (forall j, 0 <= j < 1024 -> mem s1 (page2pa T + 4 * j) = 0) ->
  forM (seqZ 0 n) (fun i => seg_body (page2pa q) (0 + i * BY2PG)) (set_pm s k) =
  forM (seqZ 0 n) (fun i => seg_body (page2pa q) (0 + i * BY2PG)) (set_pm s1 k).
Proof using Hal Hva Hul.
  intros Hram Hb Hv H1 Hpq Hn1 I1 K1 Hw Hz1. pose proof (inv_ram _ _ _ _ I1) as Hram1.
  destruct (seg_indices 0 ltac:(lia)) as (Hu0 & Hx0 & Ht0). rewrite Z.mul_0_l, Z.add_0_r in *.
  rewrite seqZ_cons by lia. cbn [forM]. unfold seg_body at 1 3.
  rewrite Z.mul_0_l, Z.add_0_l, !Z.add_0_r, Hu0.
  rewrite (u32_id (page2pa q)) by (destruct (page2pa_range s Hram q Hpq); unfold KSEG0 in *; lia).
  rewrite !bind_assoc.
  rewrite (bind_step _ _ _ _ _ (kpm_ret _ (set_pm s k) _ s (pa2page_page s Hram q Hpq))).
  rewrite (bind_step _ _ (set_pm s1 k) _ _ (kpm_ret _ (set_pm s1 k) _ s1
    (pa2page_page s1 Hram1 q ltac:(unfold is_page; by rewrite Hn1)))).
  rewrite !bind_assoc. unfold bind at 1 3. unfold kpm at 1 2, zoom. cbn [pm set_pm].
  assert (Hz0 : mem s1 (page2pa T + 4 * PTX va0) = 0) by (rewrite Ht0; apply Hz1; lia).
  assert (Hlt : va0 < ULIM) by (unfold PDMAP in *; lia).
  by rewrite (page_insert_table fl s s1 T va0 q perm' Hram Hb Hv Hx0 Hlt Hw I1 K1 Hz0).
Qed.

Lemma map_segment_run fl s T : free_inv (T :: fl) s -> is_page s b -> b <> T ->
  valid (pde s b c) = false -> 0 <= q -> 1 <= n -> seg_pages (T :: fl) s ->
  exists s', map_segment (page2pa b) asid (page2pa q) va0 (n * BY2PG) perm (set_pm s k) =
    Ret tt (set_pm s' k) /\ segment_mapped fl T s s'.
Proof using Hal Hva Hul Hn.
  intros I Hb HbT Hv Hq H1 Hsp. pose proof (inv_ram _ _ _ _ I) as Hram.
  destruct (seg_indices 0 ltac:(lia)) as (Hu0 & Hx0 & Ht0). rewrite Z.mul_0_l, Z.add_0_r in *.
  assert (Hc : 0 <= c < 1024) by (rewrite <- Hx0; apply PDX_range).
  destruct (new_ktable fl s T I Hb HbT Hc Hv) as (s1 & Hw & I1 & K1 & Hn1 & HTf & Hr1 & Hz1 & Hf1).
  assert (Hpq : is_page s q) by (destruct (Hsp 0 ltac:(lia)) as [Hp _]; by rewrite Z.add_0_r in Hp).
  assert (Hram1 : ram_ok s1) by (unfold ram_ok; by rewrite Hn1).
  pose proof (segment_first fl s s1 T Hram Hb Hv H1 Hpq Hn1 I1 K1 (Hw va0 Hx0) Hz1) as Hfirst.
  assert (Hsp1 : seg_pages fl s1).
  { intros j Hj. destruct (Hsp j Hj) as (Hp & Hpf & Hpr). rewrite elem_of_cons in Hpf.
    split; [unfold is_page; by rewrite Hn1|]. rewrite Hr1, upd_other by tauto. tauto. }
  destruct (forM_seqZ (fun m k' => exists s', k' = set_pm s' k /\ seg_mapped fl s1 T m s')
    (fun i => seg_body (page2pa q) (0 + i * BY2PG)) 0 n (set_pm s1 k) ltac:(lia)) as (k' & Hrun & s' & -> & M).
  - intros i ? Hi (s2 & -> & M).
    destruct (seg_body_run fl s1 T i s2 K1 HbT Hsp1 Hram1 Hq ltac:(lia) M) as (s3 & Hr3 & M3).
    exists (set_pm s3 k). split; [exact Hr3|by exists s3].
  - exists s1. split; [done|by apply seg_mapped_start].
  - exists s'. split; [|split].
    + unfold map_segment. rewrite c_range_pages by lia.
      destruct (page2pa_range s Hram q Hpq) as (_ & _ & Hmod & _).
      assert (Hm0 : va0 mod BY2PG = 0).
      { unfold PDMAP, BY2PG in *. apply Z.mod_divide; [lia|]. apply Z.mod_divide in Hal; [|lia].
        destruct Hal as [x ->]. exists (x * 1024). lia. }
      unfold BY2PG in *. rewrite Hmod, Hm0, mod_0_small.
      do 3 rewrite (bind_step (c_assert true) _ _ tt _ eq_refl).
      rewrite forM_fmap. rewrite <- Hrun, <- Hfirst. reflexivity.
    + apply (sm_inv _ _ _ _ _ M).
    + by rewrite (sm_npage _ _ _ _ _ M).
    + destruct K1 as [Kb Kp Kc Kpde]. split; [by unfold is_page in *; rewrite (sm_npage _ _ _ _ _ M)..|done|].
      unfold pde. by rewrite (sm_frame _ _ _ _ _ M).
    + intros p. by rewrite (sm_ref _ _ _ _ _ M), Hr1, Z.add_0_l.
    + intros j Hj. by apply (sm_leaf _ _ _ _ _ M).
    + intros r j Hr HrT Hj Hor. rewrite (sm_frame _ _ _ _ _ M) by (done || (unfold is_page; by rewrite Hn1)).
      by apply Hf1.
Qed.
End Segment.
