(* ===== verification/LoadProps.v ===== *)
(** * Loading an executable image into an environment

    [load_icode] maps one fresh page for every page a segment touches, with
    the bytes of the image that fall in it: the environment sees the segments
    of the image, zeroed where the file has no bytes, and nothing else. *)
From S2P Require Import Prelude Queue Mmu Pmap PmapFacts PmapInv PmapSpec PmapFrame PmapBoot.
From S2P Require Import UserMem Elf Env EnvFree Sched EnvFacts EnvProps.

(** ** Memory as an environment sees it *)

(** The byte at user address [va] under directory [d]. *)
Definition user_byte (s : pmst) (d va : Z) : option Z :=
  e ← entry s d va; Some (mem_byte (mem s) (page2pa (epage e) + va mod BY2PG)).

Lemma mem_byte_page s m p x : ram_ok s -> is_page s p -> 0 <= x < BY2PG ->
  mem_byte m (page2pa p + x) = word_byte (m (page2pa p + 4 * (x / 4))) (x mod 4).
Proof.
  intros Hram Hp Hx. unfold mem_byte. destruct (page2pa_range s Hram p Hp) as (_ & _ & Hm & _).
  assert (Hm4 : page2pa p mod 4 = 0).
  { pose proof (Z.div_mod (page2pa p) 4096 ltac:(lia)) as Hd. rewrite Hm in Hd.
    rewrite Hd. replace (4096 * (page2pa p / 4096) + 0) with (page2pa p / 4096 * 1024 * 4) by lia.
    by rewrite Z.mod_mul. }
  assert (Hxm : (page2pa p + x) mod 4 = x mod 4) by (rewrite Z.add_mod, Hm4, Z.add_0_l, Z.mod_mod; lia).
  rewrite Hxm. do 2 f_equal. pose proof (Z.div_mod x 4). lia.
Qed.

Lemma same_page_entry s d va va' : 0 <= va < 2 ^ 32 -> 0 <= va' < 2 ^ 32 ->
  va / BY2PG = va' / BY2PG -> entry s d va = entry s d va'.
Proof.
  intros H H' He. unfold BY2PG in He.
  assert (Hx : PDX va = PDX va').
  { rewrite !PDX_div by done. replace (2 ^ 22) with (4096 * 1024) by lia.
    by rewrite <- !Z.div_div, He by lia. }
  assert (Ht : PTX va = PTX va') by (rewrite !PTX_div by done; change (2 ^ 12) with 4096; by rewrite He).
  unfold entry, pte_addr, pde_addr. by rewrite Hx, Ht.
Qed.

(** User addresses of different pages are in different slots. *)
Lemma other_address d d' va va' : 0 <= va < 2 ^ 32 -> 0 <= va' < 2 ^ 32 ->
  d' <> d \/ va / BY2PG <> va' / BY2PG -> ~ same_slot d va d' va'.
Proof.
  intros H H' Hor (-> & Hx & Ht). destruct Hor as [?|Hne]; [done|]. by apply Hne, page_of_indices.
Qed.

Lemma user_range va : 0 <= va < UTOP -> 0 <= va < 2 ^ 32.
Proof. unfold UTOP, UENVS, UPAGES, UVPT, ULIM, PDMAP. lia. Qed.

(** A page mapped in one of the directories is out of reach of the frame
    condition's writes. *)
Lemma user_byte_evolves boot D fl s D' fl' s' d va :
  pm_inv boot D fl s -> (forall p, 0 <= boot p) -> d ∈ D -> 0 <= va < UTOP ->
  evolves D fl s D' fl' s' -> entry s' d va = entry s d va ->
  user_byte s' d va = user_byte s d va.
Proof.
  intros I Hb Hd Hva E He. unfold user_byte. rewrite He. destruct (entry s d va) as [e|] eqn:Hen; [|done].
  destruct (user_PDX va Hva) as [Hx _].
  destruct (entry_mapped _ _ _ _ I d va e Hd Hx Hen) as (_ & _ & _ & _ & _ & Hp & Hno).
  destruct (mapped_ref _ _ _ _ I d va e Hd Hx Hb Hen) as [_ Hnf].
  cbn [mbind option_bind]. f_equal. pose proof (inv_ram _ _ _ _ I) as Hram.
  pose proof (Z.mod_pos_bound va BY2PG ltac:(done)) as Hm.
  rewrite !(mem_byte_page s) by done. f_equal. apply (ev_mem _ _ _ _ _ _ E).
  rewrite not_elem_of_app in Hno. destruct Hno as [HnD HnT].
  split; [done|]. split; [unfold BY2PG in *; Z.div_mod_to_equations; lia|]. by split_and!.
Qed.

(** ** One call of the mapper *)
Definition byte_image (image : Z -> Z) : Prop := forall x, 0 <= image x < 2 ^ 8.

(** The byte at offset [x] of the page a call maps. *)
Definition call_byte (image : Z -> Z) (c : map_call) (x : Z) : Z :=
  match mc_src c with
  | Some o => if (mc_offset c <=? x) && (x <? mc_offset c + mc_len c) then image (o + (x - mc_offset c)) else 0
  | None => 0
  end.

Definition call_vpn (c : map_call) : Z := mc_va c / BY2PG.

Definition call_ok (c : map_call) : Prop :=
  0 <= mc_va c < UTOP /\ 0 <= mc_perm c < 1024 /\
  (is_Some (mc_src c) -> 0 <= mc_offset c /\ mc_offset c + mc_len c <= BY2PG).

Lemma word_byte_0 j : word_byte 0 j = 0.
Proof. unfold word_byte. by rewrite Z.shiftr_0_l. Qed.

(** [memcpy] into a page that is neither a directory nor a table. *)
Lemma blit_page boot D fl s p off len src :
  pm_inv boot D fl s -> is_page s p -> p ∉ D ++ tables s D -> 0 <= off -> off + len <= BY2PG ->
  (forall x, 0 <= src x < 2 ^ 8) ->
  let s' := set_mem (blit (page2pa p + off) len src (mem s)) s in
  pm_inv boot D fl s' /\ tables s' D = tables s D /\
  (forall d va, d ∈ D -> PDX va < NUPDE -> entry s' d va = entry s d va) /\
  (forall r j, is_page s r -> r <> p -> 0 <= j < 1024 ->
     mem s' (page2pa r + 4 * j) = mem s (page2pa r + 4 * j)) /\
  (forall x, 0 <= x < BY2PG -> mem_byte (mem s') (page2pa p + x) =
     if (off <=? x) && (x <? off + len) then src (x - off) else mem_byte (mem s) (page2pa p + x)).
Proof.
  intros I Hp Hn Ho Hl Hsrc s'. pose proof (inv_ram _ _ _ _ I) as Hram.
  assert (Hfr : forall r j, is_page s r -> r <> p -> 0 <= j < 1024 ->
            mem s' (page2pa r + 4 * j) = mem s (page2pa r + 4 * j)).
  { intros r j Hr Hne Hj. unfold s'; cbn. unfold blit.
    rewrite !(page2pa_eq s Hram) by done. unfold BY2PG in Hl.
    destruct (Z.ltb_spec (KSEG0 + p * 4096 + off) (KSEG0 + r * 4096 + 4 * j + 4)); [|done].
    destruct (Z.ltb_spec (KSEG0 + r * 4096 + 4 * j) (KSEG0 + p * 4096 + off + len)); [|done].
    exfalso. assert (p = r) by lia. by subst. }
  apply not_elem_of_app in Hn as [HnD HnT].
  destruct (pm_inv_mem boot D fl s (mem s') I) as (I' & Ht & He).
  - intros d i Hd Hi. pose proof NUPDE_bound. apply Hfr; [by apply (inv_dir_page _ _ _ _ I)|by intros ->|lia].
  - intros a (t & j & Ht & Hj & ->)%elem_of_entries.
    apply Hfr; [by apply (inv_table_page _ _ _ _ I)|by intros ->|done].
  - split_and!; try done. intros x Hx. unfold s'; cbn. rewrite blit_byte by (intros; apply Hsrc).
    destruct (Z.leb_spec (page2pa p + off) (page2pa p + x)), (Z.leb_spec off x),
      (Z.ltb_spec (page2pa p + x) (page2pa p + off + len)), (Z.ltb_spec x (off + len));
      cbn [andb]; try lia; f_equal; lia.
Qed.

Section Mapper.
Context (boot : Z -> Z) (D : list Z) (d e : Z) (image : Z -> Z).
Context (Hb : forall p, 0 <= boot p) (Hd : d ∈ D) (Himg : byte_image image).

(** What [mapper_run] and its iteration keep: the invariant, the pages left,
    and the frame. *)
Record loads (n : nat) (s : pmst) (fl : list Z) (s' : pmst) (fl' : list Z) : Prop := {
  ld_inv : pm_inv boot D fl' s';
  ld_evolves : evolves D fl s D fl' s';
  ld_free : (length fl <= n + length fl')%nat
}.

(** A fresh page with the bytes of the call: the first part of the mapper. *)
Definition fill_page (c : map_call) (p : Z) : KM unit :=
  match mc_src c with
  | Some o => kpm (memcpy_bytes (page2kva p + mc_offset c) (mc_len c) (fun j => image (o + j)))
  | None => ret tt
  end.

Lemma fill_page_run c p fl s k :
  call_ok c -> pm_inv boot D fl s -> is_page s p -> p ∉ D ++ tables s D ->
  (forall i, 0 <= i < 1024 -> mem s (page2pa p + 4 * i) = 0) ->
  exists s', fill_page c p (set_pm s k) = Ret tt (set_pm s' k) /\
    pm_inv boot D fl s' /\ tables s' D = tables s D /\ npage s' = npage s /\ pp_ref s' = pp_ref s /\
    (forall d va, d ∈ D -> PDX va < NUPDE -> entry s' d va = entry s d va) /\
    (forall r j, is_page s r -> r <> p -> 0 <= j < 1024 ->
       mem s' (page2pa r + 4 * j) = mem s (page2pa r + 4 * j)) /\
    (forall x, 0 <= x < BY2PG -> mem_byte (mem s') (page2pa p + x) = call_byte image c x).
Proof using Himg.
  intros (_ & _ & Hsrc) I Hp Hn Hz. unfold fill_page, call_byte.
  pose proof (inv_ram _ _ _ _ I) as Hram.
  assert (Hzb : forall x, 0 <= x < BY2PG -> mem_byte (mem s) (page2pa p + x) = 0).
  { intros x Hx. rewrite (mem_byte_page s) by done. rewrite Hz; [apply word_byte_0|].
    unfold BY2PG in Hx. Z.div_mod_to_equations. lia. }
  destruct (mc_src c) as [o|]; [|exists s; by split_and!].
  destruct (Hsrc (ex_intro _ o eq_refl)) as [Ho Hl].
  destruct (blit_page boot D fl s p (mc_offset c) (mc_len c) (fun j => image (o + j)) I Hp Hn Ho Hl)
    as (I' & Ht & He & Hfr & Hby); [intros x; apply Himg|].
  eexists. split; [|split; [exact I'|split; [exact Ht|do 2 (split; [done|]); split; [exact He|split; [exact Hfr|]]]]].
  - unfold page2kva. by destruct k.
  - intros x Hx. rewrite Hby by done. by destruct (_ && _); [|apply Hzb].
Qed.

Lemma mapper_run c fl k :
  call_ok c -> pm_inv boot D fl (pm k) -> env_pgdir (envs k e) = page2pa d ->
  entry (pm k) d (mc_va c) = None -> (2 <= length fl)%nat ->
  exists s' fl', do_call (load_icode_mapper e image) c k = Ret 0 (set_pm s' k) /\
    loads 2 (pm k) fl s' fl' /\ others_same (pm k) s' D d (mc_va c) /\
    exists p, mapped_as s' d (mc_va c) p (Z.lor (mc_perm c) PTE_U) /\
      forall x, 0 <= x < BY2PG -> mem_byte (mem s') (page2pa p + x) = call_byte image c x.
Proof using Hb Hd Himg.
  intros Hc I Hpg Hnone Hlen. destruct fl as [|p fl]; [cbn in Hlen; lia|].
  destruct (user_PDX _ (proj1 Hc)) as [Hx Hul].
  destruct (page_alloc_cons _ p fl (inv_free _ _ _ _ I)) as (q & Hq & Hal).
  pose proof (evolves_alloc _ _ _ _ _ _ I (Hb p) Hq) as E1.
  destruct (pm_inv_alloc _ _ _ _ _ _ I (Hb p) Hq)
    as (I1 & Ht1 & Hpf & Hpp & Hpn & _ & Hfr1 & Hz1 & Hr1 & Hn1 & Hr0).
  pose proof (alloc_views _ _ _ _ _ _ I (Hb p) Hq) as He1.
  set (s1 := set_mem _ _) in *.
  destruct (fill_page_run c p fl s1 k Hc I1 Hpp) as (s2 & Hrun2 & I2 & Ht2 & Hn2 & Hr2 & He2 & Hfr2 & Hby);
    [by rewrite Ht1|done|].
  assert (Hmp : mappable D fl s2 p).
  { split; [unfold is_page; by rewrite Hn2|done|by rewrite Ht2, Ht1|].
    rewrite Hr2, Hr1, Hr0. lia. }
  destruct (insert_unmapped boot D d (mc_va c) Hb Hd Hx fl s2 (env_asid (envs k e)) p (Z.lor (mc_perm c) PTE_U))
    as (s3 & fl3 & Hrun3 & I3 & Hm3 & Ho3 & E3 & Hl3); try done.
  - by rewrite He2, (proj2 (He1 _ _ Hd Hx)).
  - apply (lor_lt_pow2 _ _ 10); [lia|apply Hc|unfold PTE_U; lia].
  - cbn in Hlen. lia.
  - exists s3, fl3. split_and!.
    + unfold do_call, load_icode_mapper, try_z.
      rewrite (bind_step _ _ _ _ _ (kpm_ret page_alloc k _ _ Hal)).
      fold (fill_page c p). rewrite (bind_step _ _ _ _ _ Hrun2).
      rewrite (bind_step get _ _ _ _ eq_refl). cbn [envs set_pm]. rewrite Hpg.
      rewrite (kpm_ret _ (set_pm s2 k) _ _ Hrun3). by destruct k.
    + split; [done| |cbn in *; lia]. eapply evolves_trans; [|exact E3].
      apply evolves_mem; [by rewrite Hn2|set_solver|done|intros r; rewrite Ht2, Ht1; by left|].
      intros r j Ho. rewrite <- (ev_mem _ _ _ _ _ _ E1 r j Ho).
      destruct Ho as (Hr & Hj & Hf & _). apply Hfr2; [done|set_solver|done].
    + intros d' va' Hd' Hva' Hns. rewrite Ho3, He2 by done. by apply He1.
    + exists p. split; [done|]. intros x Hxx. rewrite <- Hby by done.
      rewrite !(mem_byte_page s2 _ p x (inv_ram _ _ _ _ I2)) by (done || apply Hmp).
      f_equal. apply (ev_mem _ _ _ _ _ _ E3).
      pose proof (mp_user _ _ _ _ Hmp) as Hu. rewrite not_elem_of_app in Hu.
      split; [apply Hmp|split; [unfold BY2PG in *; Z.div_mod_to_equations; lia|]].
      by split_and!; [apply Hmp|apply Hu|intros ?; by destruct Hu].
Qed.
Lemma loads_trans n m s fl s1 fl1 s2 fl2 :
  loads n s fl s1 fl1 -> loads m s1 fl1 s2 fl2 -> loads (n + m) s fl s2 fl2.
Proof using.
  intros [I1 E1 L1] [I2 E2 L2]. split; [done|by eapply evolves_trans|lia].
Qed.

(** The page of a call holds its bytes, with its permissions. *)
Definition call_done (s : pmst) (c : map_call) : Prop :=
  (exists p, mapped_as s d (mc_va c) p (Z.lor (mc_perm c) PTE_U)) /\
  forall va, 0 <= va < UTOP -> va / BY2PG = call_vpn c ->
    user_byte s d va = Some (call_byte image c (va mod BY2PG)).

(** The other pages of the directories keep their entries. *)
Definition untouched (s s' : pmst) (vpns : list Z) : Prop := forall d' va,
  d' ∈ D -> 0 <= va < UTOP -> d' <> d \/ va / BY2PG ∉ vpns -> entry s' d' va = entry s d' va.

Lemma others_untouched s s' c : 0 <= mc_va c < UTOP ->
  others_same s s' D d (mc_va c) -> untouched s s' [call_vpn c].
Proof using.
  intros Hc Ho d' va Hd' Hva Hor. destruct (user_PDX va Hva) as [Hx _].
  apply Ho; [done|done|]. apply other_address; [by apply user_range..|].
  destruct Hor as [?|Hni]; [by left|right]. intros Heq. apply Hni. unfold call_vpn. rewrite Heq.
  by apply list_elem_of_singleton.
Qed.

Lemma call_mapped s c p : 0 <= mc_va c < UTOP ->
  mapped_as s d (mc_va c) p (Z.lor (mc_perm c) PTE_U) ->
  (forall x, 0 <= x < BY2PG -> mem_byte (mem s) (page2pa p + x) = call_byte image c x) ->
  call_done s c.
Proof using.
  intros Hc (en & Hen & Hep & Hbits) Hby. split; [by exists p, en|].
  intros va Hva Hpg. unfold user_byte.
  rewrite (same_page_entry s d va (mc_va c)) by (done || by apply user_range).
  rewrite Hen. cbn [mbind option_bind]. rewrite Hep. f_equal. apply Hby, Z.mod_pos_bound. done.
Qed.

(** A finished call stays finished. *)
Lemma call_done_kept n s fl s' fl' vpns c :
  pm_inv boot D fl s -> loads n s fl s' fl' -> untouched s s' vpns ->
  0 <= mc_va c < UTOP -> call_vpn c ∉ vpns -> call_done s c -> call_done s' c.
Proof using Hb Hd.
  intros I [I' E _] Hu Hc Hni [(p & en & Hen & Hrest) Hby]. split.
  - exists p, en. split; [|done]. by rewrite Hu by (done || by right).
  - intros va Hva Hpg. rewrite <- Hby by done.
    apply (user_byte_evolves boot D fl s D fl' s'); try done.
    apply Hu; [done|done|right]. by rewrite Hpg.
Qed.

Lemma run_calls_loads cs : forall fl k,
  Forall call_ok cs -> NoDup (call_vpn <$> cs) -> pm_inv boot D fl (pm k) ->
  env_pgdir (envs k e) = page2pa d -> Forall (fun c => entry (pm k) d (mc_va c) = None) cs ->
  (2 * length cs <= length fl)%nat ->
  exists s' fl', run_calls (load_icode_mapper e image) cs k = Ret 0 (set_pm s' k) /\
    loads (2 * length cs) (pm k) fl s' fl' /\ untouched (pm k) s' (call_vpn <$> cs) /\
    Forall (call_done s') cs.
Proof using Hb Hd Himg.
  induction cs as [|c cs IH]; intros fl k Hok Hnd I Hpg Hnone Hlen.
  { exists (pm k), fl. split_and!; try done; [by rewrite set_pm_same|].
    split; [done|apply evolves_refl|lia]. }
  apply Forall_cons in Hok as [Hc Hok]. apply Forall_cons in Hnone as [Hn Hnone].
  cbn [fmap list_fmap] in Hnd. apply NoDup_cons in Hnd as [Hni Hnd]. cbn [length] in Hlen.
  destruct (mapper_run c fl k Hc I Hpg Hn ltac:(lia)) as (s1 & fl1 & Hrun & L1 & Ho & p & Hm & Hby).
  pose proof (others_untouched _ _ _ (proj1 Hc) Ho) as Hu1.
  pose proof (call_mapped _ _ _ (proj1 Hc) Hm Hby) as Hd1.
  destruct (IH fl1 (set_pm s1 k)) as (s2 & fl2 & Hrun2 & L2 & Hu2 & Hd2);
    [done|done|apply L1|done| |destruct L1; lia|].
  { rewrite Forall_forall in Hok, Hnone. apply Forall_forall. intros c' Hc'. cbn [pm set_pm].
    rewrite Hu1; [by apply Hnone|done|apply Hok; done|right].
    intros Hv%list_elem_of_singleton. apply Hni. rewrite <- Hv. by apply (list_elem_of_fmap_2 call_vpn). }
  exists s2, fl2. split_and!.
  - cbn [run_calls]. rewrite (bind_step _ _ _ _ _ Hrun). cbn [Z.eqb]. rewrite Hrun2. by destruct k.
  - replace (2 * length (c :: cs))%nat with (2 + 2 * length cs)%nat by (cbn; lia).
    by eapply loads_trans.
  - intros d' va Hd' Hva Hor. cbn [fmap list_fmap] in Hor. rewrite not_elem_of_cons in Hor.
    rewrite Hu2 by (done || tauto). apply Hu1; [done|done|].
    destruct Hor as [?|[Hne _]]; [by left|right; by rewrite list_elem_of_singleton].
  - apply Forall_cons. split; [|done].
    by apply (call_done_kept _ _ _ _ _ _ c (ld_inv _ _ _ _ _ L1) L2 Hu2 (proj1 Hc)).
Qed.
End Mapper.

(** ** The pages and bytes of a segment *)

(** The page numbers [seg_calls] maps: those from the first byte of the
    segment to its last, and at least one when it starts within a page. *)
Definition seg_size (ph : Elf32_Phdr) : Z := Z.max (p_filesz ph) (p_memsz ph).
Definition seg_vpns (ph : Elf32_Phdr) : list Z :=
  let o := p_vaddr ph mod BY2PG in
  seqZ (p_vaddr ph / BY2PG) (Z.max (Z.b2z (negb (o =? 0))) ((o + seg_size ph + 4095) / BY2PG)).

(** The byte the pages of the segment hold at [va]. *)
Definition seg_byte (image : Z -> Z) (ph : Elf32_Phdr) (va : Z) : Z :=
  if (p_vaddr ph <=? va) && (va <? p_vaddr ph + p_filesz ph)
  then image (p_offset ph + (va - p_vaddr ph)) else 0.

(** A segment that lies in user space. *)
Definition seg_fits (ph : Elf32_Phdr) : Prop :=
  seg_ok ph /\ p_vaddr ph < UTOP /\ p_vaddr ph + seg_size ph <= UTOP.

Lemma page_starts_seqZ n i : page_starts n i = (fun k => i + k * BY2PG) <$> seqZ 0 (Z.of_nat n).
Proof.
  revert i. induction n as [|n IH]; intros i; [done|]. cbn [page_starts].
  rewrite seqZ_cons, IH by lia. cbn [fmap list_fmap]. f_equal; [lia|].
  replace (Z.pred (Z.of_nat (S n))) with (Z.of_nat n) by lia.
  change (Z.succ 0) with (0 + 1). rewrite <- (fmap_add_seqZ 1 0), <- list_fmap_compose.
  apply list_fmap_ext. intros _ k _. unfold compose. lia.
Qed.

Lemma elem_of_pages_from i sz x :
  x ∈ pages_from i sz -> exists k, 0 <= k /\ x = i + k * BY2PG /\ x < sz.
Proof.
  unfold pages_from. rewrite page_starts_seqZ. intros (k & -> & Hk)%list_elem_of_fmap.
  apply elem_of_seqZ in Hk. exists k. unfold BY2PG in *.
  assert (k < (sz - i + 4095) / 4096) by lia.
  pose proof (Z.mul_div_le (sz - i + 4095) 4096). lia.
Qed.

Lemma page_calls_vpns ph bin i : seg_fits ph -> 0 <= i -> (p_vaddr ph + i) mod BY2PG = 0 ->
  call_vpn <$> (page_call ph bin <$> pages_from i (seg_size ph)) =
  seqZ ((p_vaddr ph + i) / BY2PG) ((seg_size ph - i + 4095) / BY2PG).
Proof.
  intros ([Hva _] & _ & Hfit) Hi Hal. rewrite <- list_fmap_compose. unfold pages_from.
  rewrite page_starts_seqZ, <- list_fmap_compose.
  destruct (Z.le_gt_cases 0 ((seg_size ph - i + 4095) / BY2PG)) as [H0|Hneg].
  2: { rewrite (seqZ_nil _ ((_ + 4095) / BY2PG)) by lia. by replace (Z.to_nat _) with 0%nat by lia. }
  rewrite Z2Nat.id by done.
  rewrite <- (Z.add_0_r ((p_vaddr ph + i) / BY2PG)), <- fmap_add_seqZ.
  apply list_fmap_ext. intros n k Hk%list_elem_of_lookup_2. apply elem_of_seqZ in Hk.
  unfold compose, call_vpn, page_call. cbn [mc_va].
  pose proof (Z.mul_div_le (seg_size ph - i + 4095) 4096 ltac:(lia)).
  unfold BY2PG in *. rewrite u32_id.
  - replace (p_vaddr ph + (i + k * 4096)) with (p_vaddr ph + i + k * 4096) by lia.
    rewrite Z.div_add by lia. lia.
  - unfold UTOP, UENVS, UPAGES, UVPT, ULIM, PDMAP in *. lia.
Qed.

Lemma seg_calls_vpns ph bin : seg_fits ph -> call_vpn <$> seg_calls ph bin = seg_vpns ph.
Proof.
  intros Hf. pose proof Hf as ((Hva & Hfs & _) & _ & _). unfold seg_calls, seg_vpns. fold (seg_size ph).
  assert (Hsz : 0 <= seg_size ph) by (unfold seg_size; lia).
  pose proof (Z.mod_pos_bound (p_vaddr ph) BY2PG ltac:(done)) as Ho.
  pose proof (Z.div_mod (p_vaddr ph) BY2PG ltac:(done)) as Hdm.
  set (o := p_vaddr ph mod BY2PG) in *.
  destruct (Z.eqb_spec o 0) as [H0|Hne]; cbn [negb Z.b2z].
  - rewrite page_calls_vpns; [|done|lia|by rewrite Z.add_0_r].
    rewrite Z.max_r by (apply Z.div_pos; [lia|done]). f_equal; f_equal; lia.
  - cbn [fmap list_fmap].
    assert (Hal : (p_vaddr ph + (BY2PG - o)) / BY2PG = p_vaddr ph / BY2PG + 1 /\
                  (p_vaddr ph + (BY2PG - o)) mod BY2PG = 0).
    { replace (p_vaddr ph + (BY2PG - o)) with ((p_vaddr ph / BY2PG + 1) * BY2PG) by (unfold BY2PG in *; lia).
      split; [by apply Z.div_mul|by apply Z.mod_mul]. }
    destruct Hal as [Hal1 Hal2]. rewrite page_calls_vpns, Hal1 by (done || lia).
    replace (seg_size ph - (BY2PG - o) + 4095) with (o + seg_size ph + 4095 + (-1) * BY2PG) by lia.
    rewrite Z.div_add by done.
    assert (1 <= (o + seg_size ph + 4095) / BY2PG)
      by (apply Z.div_le_lower_bound; unfold BY2PG in *; lia).
    rewrite Z.max_r by lia. rewrite (seqZ_cons (p_vaddr ph / BY2PG)) by lia.
    cbn [call_vpn mc_va]. f_equal.
Qed.

Lemma seg_perm_range ph : 0 <= seg_perm ph < 1024.
Proof. unfold seg_perm. destruct (truthy _), (truthy _); by vm_compute. Qed.

(** Membership in the calls of a segment: the partial first page or a whole
    one. *)
Lemma seg_calls_cases ph bin c : c ∈ seg_calls ph bin ->
  (p_vaddr ph mod BY2PG <> 0 /\
   c = mkCall (p_vaddr ph) (p_vaddr ph mod BY2PG) (seg_perm ph) (Some bin)
         (Z.min (p_filesz ph) (BY2PG - p_vaddr ph mod BY2PG))) \/
  exists i, 0 <= i < seg_size ph /\ (p_vaddr ph + i) mod BY2PG = 0 /\ c = page_call ph bin i.
Proof.
  unfold seg_calls. fold (seg_size ph).
  pose proof (Z.mod_pos_bound (p_vaddr ph) BY2PG ltac:(done)) as Ho.
  pose proof (Z.div_mod (p_vaddr ph) BY2PG ltac:(done)) as Hdm.
  assert (Hpages : forall i0, 0 <= i0 -> (p_vaddr ph + i0) mod BY2PG = 0 ->
    c ∈ page_call ph bin <$> pages_from i0 (seg_size ph) ->
    exists i, 0 <= i < seg_size ph /\ (p_vaddr ph + i) mod BY2PG = 0 /\ c = page_call ph bin i).
  { intros i0 H0 Hal (i & -> & Hi)%list_elem_of_fmap.
    apply elem_of_pages_from in Hi as (k & Hk & -> & Hlt). exists (i0 + k * BY2PG).
    split; [unfold BY2PG in *; lia|]. split; [|done].
    rewrite Z.add_assoc, Z.mod_add by done. done. }
  destruct (Z.eqb_spec (p_vaddr ph mod BY2PG) 0) as [H0|Hne].
  - intros Hc. right. apply (Hpages 0); [done|by rewrite Z.add_0_r|done].
  - intros [->|Hc]%elem_of_cons; [by left|right].
    apply (Hpages (BY2PG - p_vaddr ph mod BY2PG)); [lia| |done].
    replace (p_vaddr ph + (BY2PG - p_vaddr ph mod BY2PG)) with ((p_vaddr ph / BY2PG + 1) * BY2PG) by lia.
    by apply Z.mod_mul.
Qed.

Lemma seg_calls_ok ph bin c : seg_fits ph -> c ∈ seg_calls ph bin ->
  call_ok c /\ mc_perm c = seg_perm ph.
Proof.
  intros ((Hva & Hfs & Hb & _) & Hlt & Hfit) Hc. pose proof (seg_perm_range ph).
  pose proof (Z.mod_pos_bound (p_vaddr ph) BY2PG ltac:(done)) as Ho.
  apply seg_calls_cases in Hc as [[Hne ->]|(i & Hi & Hal & ->)]; split; try done.
  - split; [cbn; lia|split; [done|]]. intros _. cbn [mc_offset mc_len]. lia.
  - unfold page_call. split; [|split; [done|]]; cbn [mc_va mc_offset mc_len].
    + unfold UTOP, UENVS, UPAGES, UVPT, ULIM, PDMAP in *. rewrite u32_id by lia. lia.
    + intros _. lia.
Qed.

(** The bytes of the calls are the bytes of the segment. *)
Lemma seg_calls_byte image ph c va : seg_fits ph -> c ∈ seg_calls ph (p_offset ph) ->
  0 <= va -> va / BY2PG = call_vpn c -> call_byte image c (va mod BY2PG) = seg_byte image ph va.
Proof.
  intros ((Hva & Hfs & Hb & _) & Hlt & Hfit) Hc H0 Hpg.
  pose proof (Z.div_mod va BY2PG ltac:(done)) as Hdm.
  pose proof (Z.mod_pos_bound va BY2PG ltac:(done)) as Hx.
  apply seg_calls_cases in Hc as [[Hne ->]|(i & Hi & Hal & ->)]; unfold call_byte, seg_byte, call_vpn in *.
  - cbn [mc_src mc_offset mc_len mc_va] in *.
    pose proof (Z.div_mod (p_vaddr ph) BY2PG ltac:(done)) as Hdp.
    pose proof (Z.mod_pos_bound (p_vaddr ph) BY2PG ltac:(done)) as Ho.
    set (x := va mod BY2PG) in *. set (o := p_vaddr ph mod BY2PG) in *. rewrite Hpg in Hdm.
    destruct (Z.leb_spec o x), (Z.leb_spec (p_vaddr ph) va); cbn [andb]; try (done || lia).
    destruct (Z.ltb_spec x (o + Z.min (p_filesz ph) (BY2PG - o))), (Z.ltb_spec va (p_vaddr ph + p_filesz ph));
      try (done || lia). f_equal. lia.
  - unfold page_call in *. cbn [mc_src mc_offset mc_len mc_va] in *.
    rewrite u32_id in Hpg by (unfold UTOP, UENVS, UPAGES, UVPT, ULIM, PDMAP in *; lia).
    pose proof (Z.div_mod (p_vaddr ph + i) BY2PG ltac:(done)) as Hdp. rewrite Hal, <- Hpg in Hdp.
    set (x := va mod BY2PG) in *.
    destruct (Z.leb_spec (p_vaddr ph) va); [|lia]. cbn [andb].
    destruct (Z.ltb_spec i (p_filesz ph)); [|by destruct (Z.ltb_spec va (p_vaddr ph + p_filesz ph)); [lia|]].
    rewrite u32_id by (unfold seg_size, BY2PG in *; lia).
    destruct (Z.leb_spec 0 x); [|lia]. cbn [andb].
    destruct (Z.ltb_spec x (0 + Z.min (p_filesz ph - i) BY2PG)), (Z.ltb_spec va (p_vaddr ph + p_filesz ph));
      try (done || lia). f_equal. lia.
Qed.

(** ** [load_icode] *)

(** The segments [load_icode] loads. *)
Definition segments (binary : Z -> Z) (ehdr : Elf32_Ehdr) : list Elf32_Phdr :=
  filter (fun ph => p_type ph = PT_LOAD) (phdr_at binary <$> ELF_PHDR_OFFS ehdr).

(** The address space an image describes. *)
Definition image_view (binary : Z -> Z) (segs : list Elf32_Phdr) (va : Z) : option Z :=
  (fun ph => seg_byte binary ph va) <$> head (filter (fun ph => va / BY2PG ∈ seg_vpns ph) segs).

Definition image_vpns (segs : list Elf32_Phdr) : list Z := segs ≫= seg_vpns.

(** An executable the loader handles: the segments are in user space and no
    two of them share a page. *)
Record image_ok (binary : Z -> Z) (size : Z) (ehdr : Elf32_Ehdr) : Prop := {
  img_elf : elf_from binary size = Some ehdr;
  img_bytes : byte_image binary;
  img_fits : Forall seg_fits (segments binary ehdr);
  img_pages : NoDup (image_vpns (segments binary ehdr))
}.

Lemma run_calls_app {S} (map_page : elf_mapper_t S) l1 l2 k k' :
  run_calls map_page (l1 ++ l2) k = Ret 0 k' ->
  exists k1, run_calls map_page l1 k = Ret 0 k1 /\ run_calls map_page l2 k1 = Ret 0 k'.
Proof.
  revert k. induction l1 as [|c l1 IH]; intros k H; [by exists k|].
  cbn [app run_calls] in *. unfold bind in *. destruct (do_call map_page c k) as [r k1| | |]; try done.
  destruct (r =? 0) eqn:E; [by apply IH|]. unfold ret in H. simplify_eq.
Qed.

Definition segs_calls (segs : list Elf32_Phdr) : list map_call :=
  segs ≫= fun ph => seg_calls ph (p_offset ph).

Lemma segments_run e binary offs : forall k k',
  Forall seg_fits (filter (fun ph => p_type ph = PT_LOAD) (phdr_at binary <$> offs)) ->
  run_calls (load_icode_mapper e binary)
    (segs_calls (filter (fun ph => p_type ph = PT_LOAD) (phdr_at binary <$> offs))) k = Ret 0 k' ->
  forM offs (fun ph_off =>
    let ph := phdr_at binary ph_off in
    if p_type ph =? PT_LOAD then
      let! r := elf_load_seg (load_icode_mapper e binary) ph (p_offset ph) in
      panic_on r
    else ret tt) k = Ret tt k'.
Proof.
  induction offs as [|off offs IH]; intros k k' Hf Hrun; [by injection Hrun as <-|].
  cbn [forM fmap list_fmap] in *. cbv zeta. rewrite filter_cons in Hrun, Hf.
  destruct (Z.eqb_spec (p_type (phdr_at binary off)) PT_LOAD) as [Ht|Ht].
  - rewrite decide_True in Hrun, Hf by done. apply Forall_cons in Hf as [Hf1 Hf].
    unfold segs_calls in Hrun. cbn [mbind list_bind] in Hrun.
    apply run_calls_app in Hrun as (k1 & H1 & H2).
    rewrite bind_assoc, (bind_step _ _ _ 0 k1); [by apply IH|].
    rewrite elf_load_seg_calls by apply Hf1. exact H1.
  - rewrite decide_False in Hrun, Hf by done. by apply IH.
Qed.

Lemma segs_calls_vpns segs : Forall seg_fits segs -> call_vpn <$> segs_calls segs = image_vpns segs.
Proof.
  unfold segs_calls, image_vpns. induction 1 as [|ph segs Hf _ IH]; [done|].
  cbn [mbind list_bind]. by rewrite fmap_app, IH, seg_calls_vpns.
Qed.

Lemma elem_of_segs_calls segs c :
  c ∈ segs_calls segs <-> exists ph, ph ∈ segs /\ c ∈ seg_calls ph (p_offset ph).
Proof. unfold segs_calls. rewrite list_elem_of_bind. naive_solver. Qed.

(** The address space [d] shows the segments, with the permissions their
    headers ask for. *)
Record shows (s : pmst) (d : Z) (binary : Z -> Z) (segs : list Elf32_Phdr) : Prop := {
  sh_bytes : forall va, 0 <= va < UTOP -> user_byte s d va = image_view binary segs va;
  sh_perms : forall ph va, ph ∈ segs -> 0 <= va < UTOP -> va / BY2PG ∈ seg_vpns ph ->
    exists p, mapped_as s d va p (Z.lor (seg_perm ph) PTE_U)
}.

Section Load.
Context (boot : Z -> Z) (D : list Z) (d e : Z) (binary : Z -> Z).
Context (Hb : forall p, 0 <= boot p) (Hd : d ∈ D).

Definition empty_space (s : pmst) : Prop := forall va, 0 <= va < UTOP -> entry s d va = None.

Lemma calls_shows s s' segs : Forall seg_fits segs -> empty_space s ->
  untouched D d s s' (image_vpns segs) -> Forall (call_done d binary s') (segs_calls segs) ->
  shows s' d binary segs.
Proof using Hb Hd.
  intros Hf Hnone Hu Hdone. rewrite Forall_forall in Hf; rewrite Forall_forall in Hdone.
  assert (Hcall : forall ph va, ph ∈ segs -> va / BY2PG ∈ seg_vpns ph -> exists c,
            c ∈ segs_calls segs /\ c ∈ seg_calls ph (p_offset ph) /\ va / BY2PG = call_vpn c).
  { intros ph va Hph Hin. rewrite <- (seg_calls_vpns ph (p_offset ph)) in Hin by auto.
    apply list_elem_of_fmap in Hin as (c & -> & Hc). exists c.
    split_and!; [by apply elem_of_segs_calls; exists ph|done|done]. }
  split.
  - intros va Hva. unfold image_view.
    destruct (filter (fun ph => va / BY2PG ∈ seg_vpns ph) segs) as [|ph l] eqn:Hfil; cbn [head fmap option_fmap option_map].
    + unfold user_byte. rewrite Hu, Hnone; [done|done|done|done|right].
      intros (ph & Hin & Hph)%list_elem_of_bind.
      assert (Hno : ph ∈ filter (fun ph => va / BY2PG ∈ seg_vpns ph) segs) by (by apply list_elem_of_filter).
      rewrite Hfil in Hno. by apply elem_of_nil in Hno.
    + assert (Hin : ph ∈ filter (fun ph => va / BY2PG ∈ seg_vpns ph) segs) by (rewrite Hfil; set_solver).
      apply list_elem_of_filter in Hin as [Hin Hph]. destruct (Hcall ph va Hph Hin) as (c & Hcs & Hc & Hpg).
      rewrite (proj2 (Hdone c Hcs) va Hva Hpg). f_equal.
      apply (seg_calls_byte _ _ _ _ (Hf ph Hph) Hc); [lia|done].
  - intros ph va Hph Hva Hin. destruct (Hcall ph va Hph Hin) as (c & Hcs & Hc & Hpg).
    destruct (Hdone c Hcs) as [(p & en & Hen & Hrest) _].
    destruct (seg_calls_ok _ _ _ (Hf ph Hph) Hc) as [[Hcva _] <-]. exists p, en. split; [|done].
    by rewrite (same_page_entry s' d va (mc_va c)) by (done || by apply user_range).
Qed.

Lemma load_icode_run size ehdr fl k :
  image_ok binary size ehdr -> pm_inv boot D fl (pm k) -> env_pgdir (envs k e) = page2pa d ->
  empty_space (pm k) ->
  let segs := segments binary ehdr in
  let n := (2 * length (image_vpns segs))%nat in
  (n <= length fl)%nat ->
  exists s' fl',
    load_icode e binary size k =
      Ret tt (set_envs (upd (envs k) e (set_env_tf (set_epc (e_entry ehdr) (env_tf (envs k e))) (envs k e)))
                (set_pm s' k)) /\
    loads boot D n (pm k) fl s' fl' /\ untouched D d (pm k) s' (image_vpns segs) /\
    shows s' d binary segs.
Proof using Hb Hd.
  intros [Helf Himg Hfit Hnd] I Hpg Hnone segs n Hlen. fold segs in Hfit, Hnd.
  pose proof (segs_calls_vpns segs Hfit) as Hvp. pose proof Hfit as Hfit'. rewrite Forall_forall in Hfit'.
  assert (Hok : Forall call_ok (segs_calls segs)).
  { apply Forall_forall. intros c (ph & Hph & Hc)%elem_of_segs_calls. by eapply seg_calls_ok; [apply Hfit'|]. }
  assert (Hl : length (segs_calls segs) = length (image_vpns segs)) by (by rewrite <- Hvp, length_fmap).
  destruct (run_calls_loads boot D d e binary Hb Hd Himg (segs_calls segs) fl k)
    as (s' & fl' & Hrun & L & Hu & Hdone); [done|by rewrite Hvp|done|done| |unfold n in Hlen; lia|].
  { eapply Forall_impl; [exact Hok|]. intros c Hc. apply Hnone, Hc. }
  rewrite Hvp in Hu. rewrite Hl in L. exists s', fl'. split_and!; try done.
  - unfold load_icode. rewrite Helf.
    rewrite (bind_step _ _ _ _ _ (segments_run e binary _ _ _ Hfit Hrun)).
    unfold upd_env, modify. by cbn [envs set_pm].
  - by apply (calls_shows (pm k)).
Qed.
End Load.

(** C7. [load_icode] on an environment with an empty address space, for an
    executable whose segments lie in user space, share no page and satisfy
    [seg_ok] (one that starts inside a page has content up to the end of that
    page or no zeroed memory behind it: otherwise its first page is mapped twice
    and its bytes are lost, lemma [elf_load_seg_remaps]), and with two free pages
    for each page of the image: it returns; the program counter is the entry
    point; at every user address the environment reads what the image describes
    (the file's bytes, zeros up to the end of the segment and in the rest of its
    pages, nothing elsewhere), each page with the permissions its header asks
    for; the address spaces of the others and all memory outside free pages and
    page tables are as they were, and the page invariant holds again. *)
Theorem load_icode_correct boot D d e binary size ehdr fl k :
  (forall p, 0 <= boot p) -> d ∈ D -> image_ok binary size ehdr ->
  pm_inv boot D fl (pm k) -> env_pgdir (envs k e) = page2pa d -> empty_space d (pm k) ->
  (2 * length (image_vpns (segments binary ehdr)) <= length fl)%nat ->
  exists k' fl', load_icode e binary size k = Ret tt k' /\
    epc (env_tf (envs k' e)) = e_entry ehdr /\ (forall x, x <> e -> envs k' x = envs k x) /\
    (forall va, 0 <= va < UTOP -> user_byte (pm k') d va = image_view binary (segments binary ehdr) va) /\
    (forall ph va, ph ∈ segments binary ehdr -> 0 <= va < UTOP -> va / BY2PG ∈ seg_vpns ph ->
       exists p, mapped_as (pm k') d va p (Z.lor (seg_perm ph) PTE_U)) /\
    (forall d' va, d' ∈ D -> d' <> d -> 0 <= va < UTOP -> user_byte (pm k') d' va = user_byte (pm k) d' va) /\
    pm_inv boot D fl' (pm k') /\ evolves D fl (pm k) D fl' (pm k').
Proof.
  intros Hb Hd O I Hpg He Hlen.
  destruct (load_icode_run boot D d e binary Hb Hd size ehdr fl k O I Hpg He Hlen)
    as (s' & fl' & Hrun & [I' E _] & Hu & [Sb Sp]).
  eexists _, fl'. split; [exact Hrun|]. cbn [pm envs set_envs set_pm]. rewrite upd_same.
  split; [done|]. split; [intros x Hx; by apply upd_other|]. split; [exact Sb|]. split; [exact Sp|].
  split; [|by split]. intros d' va Hd' Hne Hva.
  apply (user_byte_evolves boot D fl _ D fl'); try done. apply Hu; [done|done|by left].
Qed.

(** A small executable: one segment of 84 bytes of text and zeros up to 5000,
    at 0x400000. *)
Definition ex_words : list Z :=
  [0x7f; 0x45; 0x4c; 0x46; 1; 1; 1; 0; 0; 0; 0; 0; 0; 0; 0; 0;
   2; 0; 243; 0; 1; 0; 0; 0; 84; 0; 64; 0; 52; 0; 0; 0; 0; 0; 0; 0; 0; 0; 0; 0;
   52; 0; 32; 0; 1; 0; 0; 0; 0; 0; 0; 0;
   1; 0; 0; 0; 0; 0; 0; 0; 0; 0; 64; 0; 0; 0; 64; 0; 84; 0; 0; 0; 136; 19; 0; 0; 5; 0; 0; 0; 0; 16; 0; 0].
Definition ex_elf : Z -> Z := fun x => if 0 <=? x then nth (Z.to_nat x) ex_words 0 else 0.
Definition ex_ehdr : Elf32_Ehdr := ehdr_at ex_elf.

Lemma ex_elf_bytes : byte_image ex_elf.
Proof.
  intros x. unfold ex_elf. destruct (0 <=? x); [|lia].
  assert (Hall : Forall (fun v => 0 <= v < 2 ^ 8) ex_words)
    by (apply (bool_decide_unpack _); by vm_compute).
  destruct (nth_in_or_default (Z.to_nat x) ex_words 0) as [Hin| ->]; [|lia].
  rewrite Forall_forall in Hall. by apply Hall, list_elem_of_In.
Qed.

Lemma ex_elf_ok : image_ok ex_elf 84 ex_ehdr.
Proof.
  split.
  - by vm_compute.
  - exact ex_elf_bytes.
  - apply Forall_cons. split; [|by apply Forall_nil]. split; [|by vm_compute].
    split; [by vm_compute|]. split; [by vm_compute|]. split; [by vm_compute|left; by vm_compute].
  - apply (bool_decide_unpack _). by vm_compute.
Qed.

Lemma ex_vm_empty : empty_space ex_dir ex_vm.
Proof.
  intros va Hva. destruct (new_dir_inv _ _ _ _ _ ex_boot_inv ex_refs_nonneg) as (s1 & Hal & _ & _ & _ & _ & Hz & _).
  assert (Hvm : ex_vm = set_pp_ref (upd (pp_ref s1) ex_dir 1) s1).
  { unfold ex_vm, run. by rewrite (bind_step _ _ _ _ _ Hal). }
  rewrite Hvm. unfold entry, pte_addr, pde_addr.
  change (mem _ (page2pa ex_dir + 4 * PDX va)) with (pde (set_pp_ref (upd (pp_ref s1) ex_dir 1) s1) ex_dir (PDX va)).
  rewrite Hz by apply PDX_range. done.
Qed.

Lemma load_icode_correct_witness :
  exists k' fl', load_icode 0 ex_elf 84 ex_live = Ret tt k' /\
    epc (env_tf (envs k' 0)) = 0x400054 /\ (forall x, x <> 0 -> envs k' x = envs ex_live x) /\
    (forall va, 0 <= va < UTOP -> user_byte (pm k') ex_dir va = image_view ex_elf (segments ex_elf ex_ehdr) va) /\
    (forall ph va, ph ∈ segments ex_elf ex_ehdr -> 0 <= va < UTOP -> va / BY2PG ∈ seg_vpns ph ->
       exists p, mapped_as (pm k') ex_dir va p (Z.lor (seg_perm ph) PTE_U)) /\
    (forall d' va, d' ∈ [ex_dir] -> d' <> ex_dir -> 0 <= va < UTOP ->
       user_byte (pm k') d' va = user_byte (pm ex_live) d' va) /\
    pm_inv ex_refs [ex_dir] fl' (pm k') /\ evolves [ex_dir] ex_free (pm ex_live) [ex_dir] fl' (pm k').
Proof.
  apply (load_icode_correct ex_refs [ex_dir] ex_dir 0 ex_elf 84 ex_ehdr ex_free ex_live).
  - exact ex_refs_nonneg.
  - apply elem_of_cons. by left.
  - exact ex_elf_ok.
  - exact ex_vm_inv.
  - reflexivity.
  - exact ex_vm_empty.
  - apply Nat.leb_le. vm_compute. reflexivity.
Defined.
