(* ===== verification/CreateProps.v ===== *)
(** * Creating an environment from an executable

    [env_create] puts a fresh environment at the head of the scheduling queue:
    its address space shows the segments of the image and, above the user part,
    what the template directory shows; every other environment keeps its
    memory. *)
From S2P Require Import Prelude Queue Mmu Pmap PmapFacts PmapInv PmapSpec PmapFrame PmapBoot.
From S2P Require Import UserMem Elf Env EnvFree Sched EnvFacts EnvProps LoadProps.

Lemma copy_range_in dst src n m x : dst <= x < dst + n -> copy_range dst src n m x = m (x - dst + src).
Proof.
  intros H. unfold copy_range. destruct (Z.leb_spec dst x), (Z.ltb_spec x (dst + n)); (done || lia).
Qed.

Lemma UVPT_indices : NUPDE = 509 /\ PDX UTOP = 509 /\ PDX UVPT = 511 /\ PDX KSEG0 = 512.
Proof. by vm_compute. Qed.

(** The page [t] made a directory: nothing outside it changes, and above the
    user part it has the entries of [base]. *)
Lemma new_dir_evolves boot D t fl s s' base :
  pm_inv boot D (t :: fl) s -> npage s' = npage s -> tables s' (t :: D) = tables s D ->
  mem s' = new_dir_mem base t (mem s) -> evolves D (t :: fl) s (t :: D) fl s'.
Proof.
  intros I Hn Ht Hm. pose proof (inv_ram _ _ _ _ I) as Hram.
  destruct UVPT_indices as (HN & H1 & H2 & H3).
  assert (Htp : is_page s t) by (apply (inv_free_page _ _ _ _ I); set_solver).
  split; [done|set_solver|set_solver|rewrite Ht; by left|].
  intros r j (Hr & Hj & Hf & _). rewrite Hm. unfold new_dir_mem. rewrite H1, H2, H3.
  assert (Hrt : r <> t) by set_solver.
  rewrite (copy_range_out s t 512 512), (copy_range_out s t 509 (511 - 509)) by (done || lia || by left).
  by apply zero_range_out with s.
Qed.

Lemma new_dir_upper s t b m j : ram_ok s -> is_page s t -> is_page s b -> b <> t ->
  PDX UTOP <= j < PDX UVPT ->
  new_dir_mem (page2pa b) t m (page2pa t + 4 * j) = m (page2pa b + 4 * j).
Proof.
  intros Hram Ht Hbp Hne Hj. destruct UVPT_indices as (_ & H1 & H2 & H3). unfold new_dir_mem.
  rewrite H1, H2 in Hj. rewrite H1, H2, H3.
  rewrite (copy_range_out s t 512 512) by (done || lia || right; lia).
  rewrite copy_range_in by lia.
  replace (page2pa t + 4 * j - (page2pa t + 4 * 509) + (page2pa b + 4 * 509)) with (page2pa b + 4 * j) by lia.
  apply zero_range_out with s; try done; lia.
Qed.

Section Create.
Context (boot : Z -> Z) (D : list Z) (b : Z) (Hb : forall p, 0 <= boot p).

(** What [env_create] makes of environment [e], directory [t], with [n] pages
    at most. *)
Record env_created (t e pri n : Z) (binary : Z -> Z) (ehdr : Elf32_Ehdr)
    (fl fl' : list Z) (k k' : kst) : Prop := {
  ec_inv : pm_inv boot (t :: D) fl' (pm k');
  ec_evolves : evolves D (t :: fl) (pm k) (t :: D) fl' (pm k');
  ec_free : Z.of_nat (length fl) <= n + Z.of_nat (length fl');
  ec_id : env_id (envs k' e) = (u32 (mkenvid_i k + 1) mod 2 ^ 21) * 2 ^ 11 + e;
  ec_fields : env_parent_id (envs k' e) = 0 /\ env_status (envs k' e) = ENV_RUNNABLE /\
    env_pri (envs k' e) = pri /\ env_pgdir (envs k' e) = page2pa t;
  ec_start : epc (env_tf (envs k' e)) = e_entry ehdr /\ regs (env_tf (envs k' e)) 2 = USTACKTOP - 8;
  ec_shows : shows (pm k') t binary (segments binary ehdr);
  ec_upper : forall j, PDX UTOP <= j < PDX UVPT -> pde (pm k') t j = mem (pm k) (page2pa b + 4 * j);
  ec_frame : forall d va, d ∈ D -> 0 <= va < UTOP -> entry (pm k') d va = entry (pm k) d va;
  ec_asid : exists a, 0 <= a < NASID /\ asid_used (asid_bitmap k) a = false /\
    env_asid (envs k' e) = a /\
    forall j, 0 <= j -> asid_used (asid_bitmap k') j = (a =? j) || asid_used (asid_bitmap k) j;
  ec_others : forall x, x <> e -> envs k' x = envs k x;
  ec_rest : mkenvid_i k' = u32 (mkenvid_i k + 1) /\ base_pgdir k' = base_pgdir k /\ curenv k' = curenv k
}.

(** The two assignments between [env_alloc] and [load_icode]. *)
Lemma start_env_run {A} e pri k : exists E,
  (forall K : KM A, (upd_env e (set_env_pri pri) ;! upd_env e (set_env_status ENV_RUNNABLE) ;! K) k =
     K (set_envs E k)) /\
  E e = set_env_status ENV_RUNNABLE (set_env_pri pri (envs k e)) /\
  (forall x, x <> e -> E x = envs k x).
Proof using.
  eexists. split; [intros K; reflexivity|]. cbn [envs set_envs]. rewrite !upd_same.
  split; [done|]. intros x Hx. by rewrite !upd_other.
Qed.

(** [env_create] once the environment is allocated as [k1]. *)
Lemma env_create_loaded t fl e a l k k1 binary size ehdr pri :
  env_alloc 0 k = Ret (OK e) k1 -> env_made D 0 e t a k k1 -> pm_inv boot (t :: D) fl (pm k1) ->
  tailq_rep (env_sched_list k) l -> e ∉ l -> image_ok binary size ehdr ->
  let n := (2 * length (image_vpns (segments binary ehdr)))%nat in
  (n <= length fl)%nat ->
  exists E s' fl' q, env_create binary size pri k =
      Ret e (set_env_sched_list q (set_envs E (set_pm s' k1))) /\
    loads boot (t :: D) n (pm k1) fl s' fl' /\
    untouched (t :: D) t (pm k1) s' (image_vpns (segments binary ehdr)) /\
    shows s' t binary (segments binary ehdr) /\ tailq_rep q (e :: l) /\
    E e = set_env_tf (set_epc (e_entry ehdr) (env_tf (envs k1 e)))
            (set_env_status ENV_RUNNABLE (set_env_pri pri (envs k1 e))) /\
    (forall x, x <> e -> E x = envs k1 x).
Proof using Hb.
  intros Hal M I1 Hq Hel Himg n Hlen.
  destruct (start_env_run (A := Z) e pri k1) as (E & HE & HEe & HEx).
  destruct (load_icode_run boot (t :: D) t e binary Hb ltac:(set_solver) size ehdr fl (set_envs E k1) Himg I1)
    as (s' & fl' & Hld & L & Hu & Hsh); [| |done|].
  { cbn [envs set_envs]. rewrite HEe. apply (em_pgdir _ _ _ _ _ _ _ M). }
  { intros va Hva. by apply (em_empty _ _ _ _ _ _ _ M). }
  destruct (tailq_insert_head _ _ e Hq Hel) as [Hq' _].
  rewrite <- (proj1 (em_same _ _ _ _ _ _ _ M)) in Hq'.
  eexists _, s', fl', _. split; [|split_and!; [exact L|exact Hu|exact Hsh|exact Hq'|..]].
  - unfold env_create. rewrite (bind_step _ _ _ _ _ Hal), HE.
    rewrite (bind_step _ _ _ _ _ Hld). cbn [envs set_envs]. reflexivity.
  - by rewrite upd_same, HEe.
  - intros x Hx. rewrite upd_other by done. by apply HEx.
Qed.

Lemma env_create_run t fl e fel l k binary size ehdr pri :
  pm_inv boot D (t :: fl) (pm k) -> base_pgdir k = page2pa b -> is_page (pm k) b -> b <> t ->
  list_rep (env_free_list k) (e :: fel) -> 0 <= e < NENV -> 0 <= mkenvid_i k ->
  (exists a, 0 <= a < NASID /\ asid_used (asid_bitmap k) a = false) ->
  tailq_rep (env_sched_list k) l -> e ∉ l -> image_ok binary size ehdr ->
  let n := (2 * length (image_vpns (segments binary ehdr)))%nat in
  (n <= length fl)%nat ->
  exists k' fl', env_create binary size pri k = Ret e k' /\
    env_created t e pri (Z.of_nat n) binary ehdr fl fl' k k' /\
    list_rep (env_free_list k') fel /\ tailq_rep (env_sched_list k') (e :: l).
Proof using Hb.
  intros I Hbase Hbp Hbt Hfe He Hi (a0 & Ha0 & Hau) Hq Hel Himg n Hlen.
  destruct (env_alloc_run boot D t fl e fel k 0 I Hb Hfe He Hi)
    as [(a & k1 & Hal & I1 & Hfe1 & M)|[Hall _]]; [|by rewrite Hall in Hau].
  destruct (env_create_loaded t fl e a l k k1 binary size ehdr pri Hal M I1 Hq Hel Himg Hlen)
    as (E & s' & fl' & q & Hrun & [I' E' L'] & Hu & Hsh & Hq' & HEe & HEx).
  destruct M as [Mid _ Mpar Masid Mpg _ Msp _ Mfr Mbit Mem Mfra Moth [_ [Mcur _]] [Mnx Mbs] Mme [Mnp Mtb]].
  eexists _, fl'. split; [exact Hrun|]. split; [|by split].
  pose proof (new_dir_evolves _ _ _ _ _ _ _ I Mnp Mtb Mme) as E1.
  split; cbn [pm envs set_env_sched_list set_envs set_pm]; rewrite ?HEe; try done.
  - by eapply evolves_trans.
  - lia.
  - intros j Hj. pose proof (inv_free_page _ _ _ _ I t ltac:(set_solver)) as Htp.
    destruct UVPT_indices as (HN & H1 & H2 & _).
    rewrite <- (new_dir_upper (pm k) t b _ j (inv_ram _ _ _ _ I) Htp Hbp Hbt Hj), <- Hbase, <- Mme.
    unfold pde. apply (ev_mem _ _ _ _ _ _ E').
    pose proof (inv_dirs _ _ _ _ I1) as (_ & Hnt & _)%NoDup_app. rewrite H1, H2 in Hj.
    split; [by unfold is_page in *; rewrite Mnp|split; [lia|split; [|split]]].
    + intros Hin. destruct (free_unreferenced _ _ _ _ I1 t Hin (Hb t)) as (Hno & _). set_solver.
    + apply Hnt. set_solver.
    + lia.
  - intros d va Hd Hva. rewrite <- Mfra by done. apply Hu; [set_solver|done|left].
    intros ->. destruct (free_unreferenced _ _ _ _ I t ltac:(set_solver) (Hb t)) as (Hno & _).
    apply Hno, elem_of_app. by left.
  - destruct Mfr as [Hra Hfa]. exists a. by repeat split; try apply Hra; try apply Mbit.
  - intros x Hx. rewrite HEx by done. by apply Moth.
Qed.
End Create.
