(* ===== verification/Pipe.v ===== *)
(** * Pipes under interleaving (user/lib/pipe.c, dup of fd.c, duppage of fork.c)

    A pipe is a ring of bytes in a page that the reader's and the writer's
    environments share, so [pipe_read] and [pipe_write] are threads here: each
    step makes one access to the shared page, and the steps of the two
    interleave as the timer chooses.  The private accesses between two shared
    ones belong to the step that follows or precedes them.

    The second half is [_pipe_is_closed], which compares reference counts that
    other environments change one page at a time while they close an end,
    duplicate it or fork. *)
From S2P Require Import Prelude.

Definition BY2PIPE : Z := 32.

Record Pipe : Type := mkPipe { p_rpos : Z; p_wpos : Z; p_buf : Z -> Z }.
Definition set_rpos (v : Z) (p : Pipe) : Pipe := mkPipe v (p_wpos p) (p_buf p).
Definition set_wpos (v : Z) (p : Pipe) : Pipe := mkPipe (p_rpos p) v (p_buf p).
Definition set_buf (i v : Z) (p : Pipe) : Pipe :=
  mkPipe (p_rpos p) (p_wpos p) (upd (p_buf p) i v).

(** [p->p_buf[(p->p_wpos++) % BY2PIPE] = wbuf[i]] moves a byte and advances a
    position, and C leaves open which of the two stores (in the reader, which
    of the load and the store) comes first. *)
Inductive order : Type := TransferFirst | AdvanceFirst.

(** Where [pipe_read(fd, vbuf, n)] is: at the test of the inner loop with [i]
    bytes read, about to ask [_pipe_is_closed], about to move a byte, or
    between the two accesses of the move, which use the position [pos]. *)
Inductive rpc : Type :=
| R_idle
| R_test (i n : Z)
| R_empty (i n : Z)
| R_byte (i n : Z)
| R_second (i n pos : Z).

Inductive wpc : Type :=
| W_idle
| W_test (i : Z) (l : list Z)
| W_full (i : Z) (l : list Z)
| W_byte (i : Z) (l : list Z)
| W_second (i : Z) (l : list Z) (pos : Z).

(** [r_got] is what the calls have stored in their buffers, [r_rets] the calls
    that have returned, each with its [n] and its result. *)
Record reader : Type := mkR { r_pc : rpc; r_got : list Z; r_rets : list (Z * Z) }.
Record writer : Type := mkW { w_pc : wpc; w_put : list Z; w_rets : list (Z * Z) }.

Record world : Type := mkWorld {
  ring : Pipe; rd : reader; wr : writer; r_open : bool; w_open : bool
}.

(** One step of [pipe_read]; [closed] is what [_pipe_is_closed] (below)
    answers. *)
Definition pipe_read (ord : order) (closed : bool) (p : Pipe) (r : reader) : option (Pipe * reader) :=
  let goto pc := mkR pc (r_got r) (r_rets r) in
  let take pos pc := mkR pc (r_got r ++ [p_buf p (pos mod BY2PIPE)]) (r_rets r) in
  match r_pc r with
  | R_idle => None
  | R_test i n =>
      if i <? n then
        if p_wpos p <=? p_rpos p then Some (p, goto (R_empty i n)) else Some (p, goto (R_byte i n))
      else Some (p, mkR R_idle (r_got r) ((n, n) :: r_rets r))
  | R_empty i n =>
      if (0 <? i) || closed then Some (p, mkR R_idle (r_got r) ((n, i) :: r_rets r))
      else Some (p, goto (R_test i n))
  | R_byte i n =>
      let pos := p_rpos p in
      match ord with
      | TransferFirst => Some (p, take pos (R_second i n pos))
      | AdvanceFirst => Some (set_rpos (u32 (pos + 1)) p, goto (R_second i n pos))
      end
  | R_second i n pos =>
      match ord with
      | TransferFirst => Some (set_rpos (u32 (pos + 1)) p, goto (R_test (i + 1) n))
      | AdvanceFirst => Some (p, take pos (R_test (i + 1) n))
      end
  end.

(** One step of [pipe_write]. *)
Definition pipe_write (ord : order) (closed : bool) (p : Pipe) (w : writer) : option (Pipe * writer) :=
  let goto pc := mkW pc (w_put w) (w_rets w) in
  let byte i l := u8 (l !!! Z.to_nat i) in
  match w_pc w with
  | W_idle => None
  | W_test i l =>
      let n := Z.of_nat (length l) in
      if i <? n then
        if BY2PIPE <=? u32 (p_wpos p - p_rpos p) then Some (p, goto (W_full i l))
        else Some (p, goto (W_byte i l))
      else Some (p, mkW W_idle (w_put w) ((n, n) :: w_rets w))
  | W_full i l =>
      if closed then Some (p, mkW W_idle (w_put w) ((Z.of_nat (length l), i) :: w_rets w))
      else Some (p, goto (W_test i l))
  | W_byte i l =>
      let pos := p_wpos p in
      match ord with
      | TransferFirst => Some (set_buf (pos mod BY2PIPE) (byte i l) p, goto (W_second i l pos))
      | AdvanceFirst => Some (set_wpos (u32 (pos + 1)) p, goto (W_second i l pos))
      end
  | W_second i l pos =>
      let w' := mkW (W_test (i + 1) l) (w_put w ++ [byte i l]) (w_rets w) in
      match ord with
      | TransferFirst => Some (set_wpos (u32 (pos + 1)) p, w')
      | AdvanceFirst => Some (set_buf (pos mod BY2PIPE) (byte i l) p, w')
      end
  end.

(** [_pipe_is_closed]: [pageref] of the caller's [Fd] page, that is the holders
    of its end, against [pageref] of the ring's page, the holders of both.  Here
    one environment holds each end while it is open; how the counts move when
    ends are closed, duplicated and inherited is the second half of the file. *)
Definition fd_refs (open : bool) : Z := Z.b2z open.
Definition pipe_refs (s : world) : Z := fd_refs (r_open s) + fd_refs (w_open s).
Definition _pipe_is_closed (open : bool) (s : world) : bool := fd_refs open =? pipe_refs s.

(** What can happen next: a call, a step of one side, or the close of an end
    whose owner is not inside a call. *)
Inductive event : Type :=
| Read (n : Z) | Write (l : list Z) | StepR | StepW | CloseR | CloseW.

Definition step (ord : order) (e : event) (s : world) : option world :=
  match e with
  | Read n =>
      match r_pc (rd s) with
      | R_idle =>
          if r_open s && (0 <=? n) && (n <? 2 ^ 31) then
            Some (mkWorld (ring s) (mkR (R_test 0 n) (r_got (rd s)) (r_rets (rd s))) (wr s)
                    (r_open s) (w_open s))
          else None
      | _ => None
      end
  | Write l =>
      match w_pc (wr s) with
      | W_idle =>
          if w_open s && (Z.of_nat (length l) <? 2 ^ 31) then
            Some (mkWorld (ring s) (rd s) (mkW (W_test 0 l) (w_put (wr s)) (w_rets (wr s)))
                    (r_open s) (w_open s))
          else None
      | _ => None
      end
  | StepR =>
      match pipe_read ord (_pipe_is_closed (r_open s) s) (ring s) (rd s) with
      | Some (p, r) => Some (mkWorld p r (wr s) (r_open s) (w_open s))
      | None => None
      end
  | StepW =>
      match pipe_write ord (_pipe_is_closed (w_open s) s) (ring s) (wr s) with
      | Some (p, w) => Some (mkWorld p (rd s) w (r_open s) (w_open s))
      | None => None
      end
  | CloseR =>
      match r_pc (rd s) with
      | R_idle => Some (mkWorld (ring s) (rd s) (wr s) false (w_open s))
      | _ => None
      end
  | CloseW =>
      match w_pc (wr s) with
      | W_idle => Some (mkWorld (ring s) (rd s) (wr s) (r_open s) false)
      | _ => None
      end
  end.

Fixpoint run (ord : order) (l : list event) (s : world) : option world :=
  match l with
  | [] => Some s
  | e :: l => match step ord e s with Some s => run ord l s | None => None end
  end.

(** A pipe as [pipe] makes it, in a zeroed page. *)
Definition fresh : world :=
  mkWorld (mkPipe 0 0 (fun _ => 0)) (mkR R_idle [] []) (mkW W_idle [] []) true true.

Definition reach (ord : order) (s : world) : Prop := exists l, run ord l fresh = Some s.

(** ** Is the other end closed?

    [n_fd x] is [pageref] of the [Fd] page of the end [x], [n_pg] that of the
    page of the ring, [holds e x] the descriptors of [x] that environment [e]
    has, and [runs] the environments' [env_runs]. *)
Inductive pend : Type := RD | WR.
#[global] Instance pend_eq_dec : EqDecision pend.
Proof. solve_decision. Defined.
Definition other (x : pend) : pend := match x with RD => WR | WR => RD end.

(** What an environment is in the middle of: [pipe_close] and [dup] after the
    first of their two page operations, the copy of a descriptor to a child by
    [fork] likewise, and [_pipe_is_closed] with the values it has read. *)
Inductive epc : Type :=
| E_run
| E_close (x : pend)
| E_dup (x : pend)
| E_fork (x : pend) (child : Z)
| C_runs (x : pend)
| C_fd (x : pend) (runs : Z)
| C_pg (x : pend) (runs fd_ref : Z)
| C_test (x : pend) (runs fd_ref pipe_ref : Z).

Record refs : Type := mkRefs {
  n_fd : pend -> Z;
  n_pg : Z;
  holds : Z -> pend -> Z;
  pc : Z -> epc;
  runs : Z -> Z;
  cur : Z;
  answers : list (Z * pend * bool)
}.

Definition add_fd (x : pend) (d : Z) (s : refs) : refs :=
  mkRefs (fun y => if decide (y = x) then n_fd s y + d else n_fd s y)
    (n_pg s) (holds s) (pc s) (runs s) (cur s) (answers s).
Definition add_pg (d : Z) (s : refs) : refs :=
  mkRefs (n_fd s) (n_pg s + d) (holds s) (pc s) (runs s) (cur s) (answers s).
Definition add_hold (e : Z) (x : pend) (d : Z) (s : refs) : refs :=
  mkRefs (n_fd s) (n_pg s)
    (upd (holds s) e (fun y => if decide (y = x) then holds s e y + d else holds s e y))
    (pc s) (runs s) (cur s) (answers s).
Definition goto (c : epc) (s : refs) : refs :=
  mkRefs (n_fd s) (n_pg s) (holds s) (upd (pc s) (cur s) c) (runs s) (cur s) (answers s).
Definition answer (x : pend) (b : bool) (s : refs) : refs :=
  mkRefs (n_fd s) (n_pg s) (holds s) (pc s) (runs s) (cur s) ((cur s, x, b) :: answers s).

(** [fork] copies pages in the order of their addresses, and descriptors lie
    below the data: [FdFirst].  [dup] maps the data first. *)
Inductive fork_order : Type := FdFirst | PageFirst.

Inductive action : Type :=
| Switch (e : Z)               (* the scheduler runs [e] *)
| Close (x : pend) | Dup (x : pend) | Fork (x : pend) (child : Z) | Ask (x : pend)
| Go.                          (* the next step of what the environment is doing *)

(** [pipe_close], [dup], the two [duppage]s of [fork], and [_pipe_is_closed]. *)
Definition go (ord : fork_order) (s : refs) : refs :=
  let e := cur s in
  match pc s e with
  | E_run => s
  | E_close x => goto E_run (add_pg (-1) s)
  | E_dup x => goto E_run (add_hold e x 1 (add_fd x 1 s))
  | E_fork x child =>
      goto E_run (add_hold child x 1
        (match ord with FdFirst => add_pg 1 s | PageFirst => add_fd x 1 s end))
  | C_runs x => goto (C_fd x (u32 (runs s e))) s
  | C_fd x r => goto (C_pg x r (n_fd s x)) s
  | C_pg x r fd_ref => goto (C_test x r fd_ref (n_pg s)) s
  | C_test x r fd_ref pipe_ref =>
      if r =? u32 (runs s e) then goto E_run (answer x (fd_ref =? pipe_ref) s)
      else goto (C_runs x) s
  end.

Definition NENVS : Z := 1024.
Definition is_env (e : Z) : bool := (0 <=? e) && (e <? NENVS).

Definition act (ord : fork_order) (a : action) (s : refs) : option refs :=
  let e := cur s in
  match a with
  | Switch e => if is_env e then
      Some (mkRefs (n_fd s) (n_pg s) (holds s) (pc s) (upd (runs s) e (runs s e + 1)) e (answers s))
      else None
  | Go => Some (go ord s)
  | Close x =>
      match pc s e with
      | E_run => if 0 <? holds s e x
                 then Some (goto (E_close x) (add_hold e x (-1) (add_fd x (-1) s))) else None
      | _ => None
      end
  | Dup x =>
      match pc s e with
      | E_run => if 0 <? holds s e x then Some (goto (E_dup x) (add_pg 1 s)) else None
      | _ => None
      end
  | Fork x child =>
      match pc s e with
      | E_run => if (0 <? holds s e x) && is_env child
                 then Some (goto (E_fork x child)
                        (match ord with FdFirst => add_fd x 1 s | PageFirst => add_pg 1 s end))
                 else None
      | _ => None
      end
  | Ask x =>
      match pc s e with
      | E_run => if 0 <? holds s e x then Some (goto (C_runs x) s) else None
      | _ => None
      end
  end.

Fixpoint acts (ord : fork_order) (l : list action) (s : refs) : option refs :=
  match l with
  | [] => Some s
  | a :: l => match act ord a s with Some s => acts ord l s | None => None end
  end.

(** After [pipe] in environment [e]. *)
Definition piped (e : Z) : refs :=
  mkRefs (fun _ => 1) 2 (fun e' _ => if e' =? e then 1 else 0) (fun _ => E_run) (fun _ => 0) e [].

Definition forks (a : action) : Prop := match a with Fork _ _ => True | _ => False end.
