(* ===== verification/PipeProps.v ===== *)
(** * Properties of pipes

    The bytes of a pipe keep their order whatever the interleaving when a byte
    is moved before its position is advanced, the ring never overflows in
    either order, and an end that [_pipe_is_closed] reports closed is closed
    for ever, as long as no environment forks. *)
From S2P Require Import Prelude Pipe.

Lemma u32_mod32 z : u32 z mod BY2PIPE = z mod BY2PIPE.
Proof.
  unfold u32, BY2PIPE. symmetry. apply Znumtheory.Zmod_div_mod; [lia|lia|].
  by exists (2 ^ 27).
Qed.

Lemma u32_succ z : u32 (u32 z + 1) = u32 (z + 1).
Proof. unfold u32. by rewrite Zplus_mod_idemp_l. Qed.

Lemma u32_sub a b : u32 (u32 a - u32 b) = u32 (a - b).
Proof. unfold u32. by rewrite Zminus_mod_idemp_l, Zminus_mod_idemp_r. Qed.

(** ** The positions *)

Definition r_ready (ord : order) (c : rpc) : bool :=
  match c, ord with
  | R_byte _ _, _ => true
  | R_second _ _ _, TransferFirst => true
  | _, _ => false
  end.
Definition w_ready (ord : order) (c : wpc) : bool :=
  match c, ord with
  | W_byte _ _, _ => true
  | W_second _ _ _, TransferFirst => true
  | _, _ => false
  end.
(** Bytes moved before their position is advanced, minus those moved after. *)
Definition r_ahead (ord : order) (c : rpc) : Z :=
  match c, ord with
  | R_second _ _ _, TransferFirst => 1
  | R_second _ _ _, AdvanceFirst => -1
  | _, _ => 0
  end.
Definition w_ahead (ord : order) (c : wpc) : Z :=
  match c, ord with W_second _ _ _, AdvanceFirst => -1 | _, _ => 0 end.
Definition r_at (ord : order) (c : rpc) (R : Z) : Prop :=
  match c, ord with
  | R_second _ _ pos, TransferFirst => pos = u32 R
  | R_second _ _ pos, AdvanceFirst => pos = u32 (R - 1)
  | _, _ => True
  end.
Definition w_at (ord : order) (c : wpc) (W : Z) : Prop :=
  match c, ord with
  | W_second _ _ pos, TransferFirst => pos = u32 W
  | W_second _ _ pos, AdvanceFirst => pos = u32 (W - 1)
  | _, _ => True
  end.

(** [R] and [W] are the positions without their wrap-around. *)
Record ring_inv (ord : order) (s : world) (R W : Z) : Prop := {
  ri_r : p_rpos (ring s) = u32 R;
  ri_w : p_wpos (ring s) = u32 W;
  ri_le : 0 <= R <= W;
  ri_cap : W <= R + BY2PIPE;
  ri_rb : r_ready ord (r_pc (rd s)) = true -> R < W;
  ri_wb : w_ready ord (w_pc (wr s)) = true -> W < R + BY2PIPE;
  ri_rat : r_at ord (r_pc (rd s)) R;
  ri_wat : w_at ord (w_pc (wr s)) W;
  ri_got : Z.of_nat (length (r_got (rd s))) = R + r_ahead ord (r_pc (rd s));
  ri_put : Z.of_nat (length (w_put (wr s))) = W + w_ahead ord (w_pc (wr s))
}.

Lemma fresh_ring ord : ring_inv ord fresh 0 0.
Proof. constructor; done. Qed.

(** The goals left by a change of position. *)
Ltac ring_solve :=
  repeat match goal with H : true = true -> _ |- _ => specialize (H eq_refl) end;
  first
    [ done
    | lia
    | apply u32_succ
    | rewrite length_app; cbn; lia
    | f_equal; lia ].

(** A call or a close leaves the rest as it is. *)
Ltac idle_solve :=
  first
    [ assumption
    | done
    | match goal with
      | H : r_pc _ = _ |- _ => rewrite H in *
      | H : w_pc _ = _ |- _ => rewrite H in *
      end; (assumption || done) ].

Lemma ring_read ord closed s R W p r : ring_inv ord s R W ->
  pipe_read ord closed (ring s) (rd s) = Some (p, r) ->
  exists R', ring_inv ord (mkWorld p r (wr s) (r_open s) (w_open s)) R' W.
Proof.
  intros [] Hs. destruct s as [[rp wp bf] [c got rets] [wc put wrets] ro wo]. cbn in *.
  subst rp wp. unfold pipe_read in Hs. cbn in Hs.
  destruct c; cbn in *; try done.
  - destruct (i <? n); [|simplify_eq; exists R; by constructor].
    destruct (Z.leb_spec (u32 W) (u32 R)); simplify_eq; exists R; constructor; cbn; try done.
    intros _. destruct (decide (R = W)) as [-> |]; [lia|]. lia.
  - destruct ((0 <? i) || closed); simplify_eq; exists R; by constructor.
  - destruct ord; simplify_eq; [exists R|exists (R + 1)]; constructor; cbn; ring_solve.
  - destruct ord; simplify_eq; [exists (R + 1)|exists R]; constructor; cbn; ring_solve.
Qed.

Lemma ring_write ord closed s R W p w : ring_inv ord s R W ->
  pipe_write ord closed (ring s) (wr s) = Some (p, w) ->
  exists W', ring_inv ord (mkWorld p (rd s) w (r_open s) (w_open s)) R W'.
Proof.
  intros [] Hs. destruct s as [[rp wp bf] [c got rets] [wc put wrets] ro wo]. cbn in *.
  subst rp wp. unfold pipe_write in Hs. cbn in Hs. rewrite u32_sub in Hs.
  destruct wc; cbn in *; try done.
  - destruct (i <? Z.of_nat (length l)); [|simplify_eq; exists W; by constructor].
    rewrite u32_id in Hs by (unfold BY2PIPE in *; split; lia).
    destruct (Z.leb_spec BY2PIPE (W - R)); simplify_eq; exists W; constructor; cbn; try done.
    lia.
  - destruct closed; simplify_eq; exists W; by constructor.
  - destruct ord; simplify_eq; [exists W|exists (W + 1)]; constructor; cbn; ring_solve.
  - destruct ord; simplify_eq; [exists (W + 1)|exists W]; constructor; cbn; ring_solve.
Qed.

Lemma ring_step ord e s s' R W : ring_inv ord s R W -> step ord e s = Some s' ->
  exists R' W', ring_inv ord s' R' W'.
Proof.
  intros Hi Hs. destruct e; cbn in Hs.
  3: { destruct (pipe_read _ _ _ _) as [[p r]|] eqn:E; [|done]. simplify_eq.
       destruct (ring_read _ _ _ _ _ _ _ Hi E) as [R' ?]. by exists R', W. }
  3: { destruct (pipe_write _ _ _ _) as [[p w]|] eqn:E; [|done]. simplify_eq.
       destruct (ring_write _ _ _ _ _ _ _ Hi E) as [W' ?]. by exists R, W'. }
  all: exists R, W; destruct Hi; step_cases Hs; try done;
    constructor; cbn; idle_solve.
Qed.

(** ** The bytes, when a byte is moved first *)

Definition moved (s : world) : Z :=
  Z.of_nat (length (r_got (rd s))) - r_ahead TransferFirst (r_pc (rd s)).
Definition put (s : world) : Z := Z.of_nat (length (w_put (wr s))).

Record fifo_inv (s : world) : Prop := {
  fi_data : forall k, moved s <= k < put s ->
    p_buf (ring s) (k mod BY2PIPE) = w_put (wr s) !!! Z.to_nat k;
  fi_got : r_got (rd s) = take (length (r_got (rd s))) (w_put (wr s));
  fi_sec : match w_pc (wr s) with
           | W_second i l _ => p_buf (ring s) (put s mod BY2PIPE) = u8 (l !!! Z.to_nat i)
           | _ => True
           end
}.

Lemma take_snoc {A} (l g : list A) x :
  g = take (length g) l -> l !! length g = Some x ->
  g ++ [x] = take (length g + 1) l.
Proof.
  intros Hg Hx. rewrite Nat.add_1_r, (take_S_r _ _ x) by done.
  by rewrite <- Hg.
Qed.

Lemma moved_ring s R W : ring_inv TransferFirst s R W -> moved s = R /\ put s = W.
Proof.
  intros [? ? ? ? ? ? ? ? Hg Hp]. unfold moved, put. split; [lia|].
  destruct (w_pc (wr s)); cbn in Hp; lia.
Qed.

Lemma fifo_read s R W closed p r : ring_inv TransferFirst s R W -> fifo_inv s ->
  pipe_read TransferFirst closed (ring s) (rd s) = Some (p, r) ->
  fifo_inv (mkWorld p r (wr s) (r_open s) (w_open s)).
Proof.
  intros Hi [Hd Hg Hw] Hs. destruct (moved_ring _ _ _ Hi) as [HR HW]. destruct Hi.
  destruct s as [[rp wp bf] [c got rets] [wc pu wrets] ro wo].
  unfold moved, put, pipe_read in *. cbn in *.
  destruct c; cbn in *; step_cases Hs; try done; constructor;
    unfold moved, put; cbn; rewrite ?length_app; cbn; try done; try (by intros; apply Hd; lia).
  specialize (ri_rb0 eq_refl). apply take_snoc; [done|].
  rewrite u32_mod32, Hd by lia. rewrite Z.sub_0_r, Nat2Z.id.
  apply list_lookup_lookup_total_lt. lia.
Qed.

Lemma fifo_write s R W closed p w : ring_inv TransferFirst s R W -> fifo_inv s ->
  pipe_write TransferFirst closed (ring s) (wr s) = Some (p, w) ->
  fifo_inv (mkWorld p (rd s) w (r_open s) (w_open s)).
Proof.
  intros Hi [Hd Hg Hw] Hs. destruct (moved_ring _ _ _ Hi) as [HR HW].
  pose proof (ri_le _ _ _ _ Hi) as Hle. pose proof (ri_wb _ _ _ _ Hi) as Hwb.
  pose proof (ri_w _ _ _ _ Hi) as Hwp. pose proof (ri_got _ _ _ _ Hi) as Hgot. clear Hi.
  destruct s as [[rp wp bf] [c got rets] [wc pu wrets] ro wo].
  unfold moved, put, pipe_write in *. cbn in *.
  destruct wc; cbn in *; step_cases Hs; try done; constructor; unfold moved, put; cbn; try done.
  - intros k Hk. specialize (Hwb eq_refl). rewrite upd_other; [apply Hd; lia|].
    rewrite u32_mod32. unfold BY2PIPE in *. intros Heq. Z.div_mod_to_equations. lia.
  - rewrite u32_mod32. apply upd_same.
  - intros k Hk. rewrite length_app in Hk. cbn in Hk.
    destruct (decide (k = Z.of_nat (length pu))) as [-> |Hne].
    + rewrite Hw, Nat2Z.id. by rewrite list_lookup_total_middle.
    + rewrite lookup_total_app_l by lia. apply Hd. lia.
  - assert (length got <= length pu)%nat by (rewrite Hg, length_take; lia).
    by rewrite take_app_le by lia.
Qed.

Lemma fifo_step e s s' R W : ring_inv TransferFirst s R W -> fifo_inv s ->
  step TransferFirst e s = Some s' -> fifo_inv s'.
Proof.
  intros Hi Hf Hs. destruct e; cbn in Hs.
  3: { destruct (pipe_read _ _ _ _) as [[p r]|] eqn:E; [|done]. simplify_eq.
       by apply (fifo_read _ _ _ _ _ _ Hi Hf E). }
  3: { destruct (pipe_write _ _ _ _) as [[p w]|] eqn:E; [|done]. simplify_eq.
       by apply (fifo_write _ _ _ _ _ _ Hi Hf E). }
  all: destruct Hf; unfold moved, put in *; step_cases Hs; try done;
    constructor; unfold moved, put; cbn; idle_solve.
Qed.

(** ** The results of the calls *)

Definition results (l : list (Z * Z)) : Z := foldr (fun c t => snd c + t) 0 l.

(** How many bytes the call under way has moved. *)
Definition r_cur (ord : order) (c : rpc) : Z :=
  match c with
  | R_idle => 0
  | R_test i _ | R_empty i _ | R_byte i _ => i
  | R_second i _ _ => match ord with TransferFirst => i + 1 | AdvanceFirst => i end
  end.
Definition w_cur (c : wpc) : Z :=
  match c with
  | W_idle => 0
  | W_test i _ | W_full i _ | W_byte i _ | W_second i _ _ => i
  end.
Definition r_within (c : rpc) : Prop :=
  match c with
  | R_idle => True
  | R_test i n => 0 <= i <= n
  | R_empty i n | R_byte i n | R_second i n _ => 0 <= i < n
  end.
Definition w_within (c : wpc) : Prop :=
  match c with
  | W_idle => True
  | W_test i l => 0 <= i <= Z.of_nat (length l)
  | W_full i l | W_byte i l | W_second i l _ => 0 <= i < Z.of_nat (length l)
  end.

(** A read returns between 0 and [n] bytes, and none of [n > 0] only when the
    writer has closed; a write returns less than [n] only when the reader
    has. *)
Definition read_ok (s : world) (c : Z * Z) : Prop :=
  0 <= snd c <= fst c /\ (snd c = 0 -> 0 < fst c -> w_open s = false).
Definition write_ok (s : world) (c : Z * Z) : Prop :=
  0 <= snd c <= fst c /\ (snd c < fst c -> r_open s = false).

Record calls_inv (ord : order) (s : world) : Prop := {
  ci_got : Z.of_nat (length (r_got (rd s))) = results (r_rets (rd s)) + r_cur ord (r_pc (rd s));
  ci_put : Z.of_nat (length (w_put (wr s))) = results (w_rets (wr s)) + w_cur (w_pc (wr s));
  ci_rin : r_within (r_pc (rd s));
  ci_win : w_within (w_pc (wr s));
  ci_reads : Forall (read_ok s) (r_rets (rd s));
  ci_writes : Forall (write_ok s) (w_rets (wr s))
}.

(** The counts agree exactly when the other end has no holder. *)
Lemma reader_sees_closed s : _pipe_is_closed (r_open s) s = negb (w_open s).
Proof. unfold _pipe_is_closed, pipe_refs, fd_refs. by destruct (r_open s), (w_open s). Qed.
Lemma writer_sees_closed s : _pipe_is_closed (w_open s) s = negb (r_open s).
Proof. unfold _pipe_is_closed, pipe_refs, fd_refs. by destruct (r_open s), (w_open s). Qed.

Lemma calls_read ord s p r : calls_inv ord s ->
  pipe_read ord (_pipe_is_closed (r_open s) s) (ring s) (rd s) = Some (p, r) ->
  calls_inv ord (mkWorld p r (wr s) (r_open s) (w_open s)).
Proof.
  rewrite reader_sees_closed.
  intros [] Hs. destruct s as [rg [c got rets] w ro wo]. unfold pipe_read in Hs. cbn in *.
  destruct c; cbn in *; step_cases Hs; try done; constructor; cbn; rewrite ?length_app; cbn;
    try done; try lia; try (constructor; [|done]); try (split; cbn; lia).
  split; cbn; [lia|]. intros -> _. by destruct wo.
Qed.

Lemma calls_write ord s p w : calls_inv ord s ->
  pipe_write ord (_pipe_is_closed (w_open s) s) (ring s) (wr s) = Some (p, w) ->
  calls_inv ord (mkWorld p (rd s) w (r_open s) (w_open s)).
Proof.
  rewrite writer_sees_closed.
  intros [] Hs. destruct s as [rg r [c pu rets] ro wo]. unfold pipe_write in Hs. cbn in *.
  destruct c; cbn in *; step_cases Hs; try done; constructor; cbn; rewrite ?length_app; cbn;
    try done; try lia; try (constructor; [|done]); try (split; cbn; lia).
  split; cbn; [lia|]. intros _. by destruct ro.
Qed.

Lemma calls_step ord e s s' : calls_inv ord s -> step ord e s = Some s' -> calls_inv ord s'.
Proof.
  intros Hi Hs. destruct e; cbn in Hs.
  3: { destruct (pipe_read _ _ _ _) as [[p r]|] eqn:E; [|done]. simplify_eq. by apply calls_read. }
  3: { destruct (pipe_write _ _ _ _) as [[p w]|] eqn:E; [|done]. simplify_eq. by apply calls_write. }
  all: destruct Hi; step_cases Hs; try done; constructor; cbn; try idle_solve; try lia.
  - eapply Forall_impl; [done|]. intros c [? ?]. by split.
  - eapply Forall_impl; [done|]. intros c [? ?]. by split.
Qed.

(** ** Whole runs *)

Lemma run_ring ord l s s' : (exists R W, ring_inv ord s R W) -> run ord l s = Some s' ->
  exists R W, ring_inv ord s' R W.
Proof.
  revert s. induction l as [|e l IH]; intros s H Hs; cbn in Hs; [by simplify_eq|].
  destruct (step ord e s) as [s1|] eqn:E; [|done]. destruct H as (R & W & H).
  eapply IH; [|done]. by eapply ring_step.
Qed.

Lemma run_calls ord l s s' : calls_inv ord s -> run ord l s = Some s' -> calls_inv ord s'.
Proof.
  revert s. induction l as [|e l IH]; intros s H Hs; cbn in Hs; [by simplify_eq|].
  destruct (step ord e s) as [s1|] eqn:E; [|done].
  eapply IH; [|done]. by eapply calls_step.
Qed.

Lemma run_fifo l s s' : (exists R W, ring_inv TransferFirst s R W) -> fifo_inv s ->
  run TransferFirst l s = Some s' -> fifo_inv s'.
Proof.
  revert s. induction l as [|e l IH]; intros s Hi Hf Hs; cbn in Hs; [by simplify_eq|].
  destruct (step TransferFirst e s) as [s1|] eqn:E; [|done]. destruct Hi as (R & W & Hi).
  eapply IH; [| |done]; [by eapply ring_step|by eapply fifo_step].
Qed.

Lemma fresh_calls ord : calls_inv ord fresh.
Proof. by constructor. Qed.

Lemma fresh_fifo : fifo_inv fresh.
Proof. constructor; try done. unfold moved, put. cbn. lia. Qed.

(** C33. A pipe is a queue: when a byte is moved before its position is
    advanced, then whatever the interleaving of one reader and one writer and
    however often the positions wrap, the bytes the reads have stored are, in
    order, the first of those the writes have taken, and at most 32 are under
    way. *)
Theorem pipe_fifo s : reach TransferFirst s ->
  r_got (rd s) `prefix_of` w_put (wr s) /\
  put s - Z.of_nat (length (r_got (rd s))) <= BY2PIPE.
Proof.
  intros [l Hl].
  destruct (run_ring TransferFirst l _ s ltac:(by exists 0, 0; apply fresh_ring) Hl)
    as (R & W & Hi).
  pose proof (run_fifo l _ s ltac:(by exists 0, 0; apply fresh_ring) fresh_fifo Hl) as Hf.
  destruct (moved_ring _ _ _ Hi) as [HR HW]. split.
  - rewrite (fi_got _ Hf). exists (drop (length (r_got (rd s))) (w_put (wr s))).
    by rewrite take_drop.
  - pose proof (ri_cap _ _ _ _ Hi). pose proof (ri_got _ _ _ _ Hi).
    destruct (r_pc (rd s)); cbn in *; lia.
Qed.

(** C34. In either order of the two stores and whatever the interleaving, the
    writer is never more than 32 bytes ahead of the reader nor behind it,
    modulo 2^32; the results of the calls add up to the bytes moved, no call
    returns more than was asked, a read of [n > 0] bytes returns 0 only
    after the writer has closed, and a write returns less than asked only after
    the reader has closed. *)
Theorem pipe_bounds ord s : reach ord s ->
  0 <= u32 (p_wpos (ring s) - p_rpos (ring s)) <= BY2PIPE /\
  Z.of_nat (length (r_got (rd s))) = results (r_rets (rd s)) + r_cur ord (r_pc (rd s)) /\
  put s = results (w_rets (wr s)) + w_cur (w_pc (wr s)) /\
  Forall (read_ok s) (r_rets (rd s)) /\ Forall (write_ok s) (w_rets (wr s)).
Proof.
  intros [l Hl].
  destruct (run_ring ord l _ s ltac:(by exists 0, 0; apply fresh_ring) Hl) as (R & W & []).
  destruct (run_calls ord l _ s (fresh_calls ord) Hl). split; [|done].
  rewrite ri_r0, ri_w0, u32_sub, u32_id; unfold BY2PIPE in *; lia.
Qed.

Definition ex_events : list event :=
  [Read 2; Write [5; 6; 7]; StepR; StepW; StepW; StepR; StepR; StepW; StepW; StepR; StepR; StepW;
   StepR; StepR; StepW; StepR; StepR].
Definition ex_world (ord : order) : world := default fresh (run ord ex_events fresh).

Lemma ex_world_reach ord : reach ord (ex_world ord).
Proof.
  exists ex_events. unfold ex_world. destruct (run ord ex_events fresh) eqn:E; [done|].
  destruct ord; vm_compute in E; done.
Qed.

Lemma pipe_fifo_witness :
  r_got (rd (ex_world TransferFirst)) = [5; 6] /\
  prefix [5; 6] (w_put (wr (ex_world TransferFirst))).
Proof.
  assert (H : r_got (rd (ex_world TransferFirst)) = [5; 6]) by (vm_compute; reflexivity).
  split; [exact H|]. rewrite <- H. apply (pipe_fifo _ (ex_world_reach TransferFirst)).
Defined.

Lemma pipe_bounds_witness :
  Forall (read_ok (ex_world AdvanceFirst)) [(2, 2)] /\ w_rets (wr (ex_world AdvanceFirst)) = [].
Proof.
  assert (H : r_rets (rd (ex_world AdvanceFirst)) = [(2, 2)]) by (vm_compute; reflexivity).
  split; [|vm_compute; reflexivity]. rewrite <- H.
  apply (pipe_bounds AdvanceFirst _ (ex_world_reach AdvanceFirst)).
Defined.

(** Advancing a position first breaks the queue: the reader takes a byte of the
    ring the writer has not stored yet. *)
Lemma advance_first_race : exists s, reach AdvanceFirst s /\
  r_got (rd s) = [0] /\ w_put (wr s) = [].
Proof.
  assert (H : exists s, run AdvanceFirst [Write [7]; StepW; StepW; Read 1; StepR; StepR; StepR] fresh = Some s /\
    r_got (rd s) = [0] /\ w_put (wr s) = []) by (vm_compute; eexists; done).
  destruct H as (s & Hs & H). exists s. split; [by eexists|done].
Qed.

(** A read can report the end of the data with data in the pipe: the writer
    writes and closes between the test for emptiness and [_pipe_is_closed]. *)
Lemma eof_race : exists s, reach TransferFirst s /\
  r_rets (rd s) = [(1, 0)] /\ w_put (wr s) = [7].
Proof.
  assert (H : exists s, run TransferFirst [Read 1; StepR; Write [7]; StepW; StepW; StepW; StepW;
    CloseW; StepR] fresh = Some s /\ r_rets (rd s) = [(1, 0)] /\ w_put (wr s) = [7])
    by (vm_compute; eexists; done).
  destruct H as (s & Hs & H). exists s. split; [by eexists|done].
Qed.

(** Past a wrap-around of the writer's position the reader finds the pipe
    empty. *)
Lemma read_after_wrap closed b got rets n : 0 < n ->
  pipe_read TransferFirst closed (mkPipe (2 ^ 32 - 1) (u32 (2 ^ 32)) b) (mkR (R_test 0 n) got rets) =
  Some (mkPipe (2 ^ 32 - 1) (u32 (2 ^ 32)) b, mkR (R_empty 0 n) got rets).
Proof. intros H. unfold pipe_read. cbn. destruct (Z.ltb_spec 0 n); [done|lia]. Qed.
