(* ===== verification/PipeClosed.v ===== *)
(** * The answer of [_pipe_is_closed]

    An invariant on the reference counts while any number of environments
    close, duplicate and test the ends of one pipe: the page of the ring has at
    least as many mappings as the two [Fd] pages together.  [env_runs] makes
    the two counts of a test a consistent pair. *)
From S2P Require Import Prelude Pipe.

Lemma is_env_iff e : is_env e = true <-> e ∈ seqZ 0 NENVS.
Proof.
  rewrite elem_of_seqZ. unfold is_env. rewrite andb_true_iff, Z.leb_le, Z.ltb_lt. lia.
Qed.

(** ** Sums over the environments *)

Definition zsum (f : Z -> Z) : Z := foldr (fun e t => f e + t) 0 (seqZ 0 NENVS).

Lemma foldr_sum_ext (f g : Z -> Z) l : (forall e, e ∈ l -> g e = f e) ->
  foldr (fun e t => g e + t) 0 l = foldr (fun e t => f e + t) 0 l.
Proof.
  induction l as [|a l IH]; intros H; cbn; [done|]. rewrite IH, H by set_solver. done.
Qed.

Lemma foldr_sum_upd (f g : Z -> Z) e d l : NoDup l -> e ∈ l -> g e = f e + d ->
  (forall e', e' <> e -> g e' = f e') ->
  foldr (fun e t => g e + t) 0 l = foldr (fun e t => f e + t) 0 l + d.
Proof.
  intros Hnd. induction Hnd as [|a l Ha Hnd IH]; intros He Hg Ho; [by apply elem_of_nil in He|].
  cbn. apply elem_of_cons in He as [-> |He].
  - rewrite Hg, (foldr_sum_ext f g) by (intros e' ?; apply Ho; congruence). lia.
  - rewrite IH, Ho by (done || congruence). lia.
Qed.

Lemma zsum_ext f g : (forall e, g e = f e) -> zsum g = zsum f.
Proof. intros H. by apply foldr_sum_ext. Qed.

Lemma zsum_upd f g e d : is_env e = true -> g e = f e + d ->
  (forall e', e' <> e -> g e' = f e') -> zsum g = zsum f + d.
Proof.
  intros He. apply foldr_sum_upd; [apply NoDup_seqZ|by apply is_env_iff].
Qed.

Lemma zsum_ge f e : (forall e, 0 <= f e) -> is_env e = true -> f e <= zsum f.
Proof.
  intros Hf He%is_env_iff. unfold zsum. revert He. generalize (seqZ 0 NENVS) as l.
  assert (Hs : forall l, 0 <= foldr (fun e t => f e + t) 0 l).
  { intros l. induction l as [|a l IH]; cbn; [done|]. specialize (Hf a). lia. }
  intros l. induction l as [|a l IH]; intros He; [by apply elem_of_nil in He|].
  apply elem_of_cons in He as [-> |He]; cbn; [specialize (Hs l)|specialize (IH He); specialize (Hf a)]; lia.
Qed.

Lemma zsum_nonneg f : (forall e, 0 <= f e) -> 0 <= zsum f.
Proof. intros Hf. pose proof (zsum_ge f 0 Hf eq_refl). specialize (Hf 0). lia. Qed.

Lemma zsum_0 f : (forall e, is_env e = true -> f e = 0) -> zsum f = 0.
Proof.
  intros Hf. unfold zsum. rewrite (foldr_sum_ext (fun _ => 0)) by (intros e ?%is_env_iff; auto).
  generalize (seqZ 0 NENVS). intros l. induction l; cbn; [done|lia].
Qed.

(** ** The invariant *)

(** A page mapping without a descriptor: between the two steps of a close, of a
    [dup] or of a fork that maps the data first. *)
Definition extra (c : epc) : Z :=
  match c with E_close _ | E_dup _ | E_fork _ _ => 1 | _ => 0 end.

Definition forking (c : epc) : Prop := match c with E_fork _ _ => True | _ => False end.

(** What a test has read is current while its environment has not been run
    again. *)
Definition fresh_reads (s : refs) (e : Z) : Prop :=
  match pc s e with
  | C_fd _ r => 0 <= r <= runs s e
  | C_pg x r f => 0 <= r <= runs s e /\ (cur s = e -> r = runs s e -> f = n_fd s x)
  | C_test x r f g =>
      0 <= r <= runs s e /\ (cur s = e -> r = runs s e -> f = n_fd s x /\ g = n_pg s)
  | E_dup x => 1 <= holds s e x
  | E_fork x child => 1 <= holds s e x /\ is_env child = true
  | _ => True
  end.

Record refs_inv (ord : fork_order) (s : refs) : Prop := {
  rv_cur : is_env (cur s) = true;
  rv_runs : forall e, 0 <= runs s e;
  rv_holds : forall e x, 0 <= holds s e x;
  rv_fd : forall x, n_fd s x = zsum (fun e => holds s e x);
  rv_pg : n_pg s = n_fd s RD + n_fd s WR + zsum (fun e => extra (pc s e));
  rv_order : ord = FdFirst -> forall e, ~ forking (pc s e);
  rv_reads : forall e, is_env e = true -> fresh_reads s e;
  rv_answers : forall e x, (e, x, true) ∈ answers s -> n_fd s (other x) = 0
}.

Lemma piped_inv ord e : is_env e = true -> refs_inv ord (piped e).
Proof.
  intros He. constructor; cbn; try done.
  - intros e' x. by destruct (e' =? e).
  - intros x. rewrite (zsum_upd (fun _ => 0) _ e 1); [|done|by rewrite Z.eqb_refl|].
    + by rewrite zsum_0.
    + intros e' Hne. by apply Z.eqb_neq in Hne as ->.
  - auto.
  - intros e' x H. by apply elem_of_nil in H.
Qed.

Lemma holds_pos ord s e x : refs_inv ord s -> is_env e = true -> 1 <= holds s e x -> 1 <= n_fd s x.
Proof.
  intros Hi He Hh. rewrite (rv_fd _ _ Hi).
  pose proof (zsum_ge (fun e => holds s e x) e (fun e => rv_holds _ _ Hi e x) He). cbn in *. lia.
Qed.

Lemma extra_goto s c : is_env (cur s) = true ->
  zsum (fun e => extra (pc (goto c s) e)) =
  zsum (fun e => extra (pc s e)) + (extra c - extra (pc s (cur s))).
Proof.
  intros He. apply (zsum_upd _ _ (cur s)); [done| |]; cbn.
  - rewrite upd_same. lia.
  - intros e' Hne. by rewrite upd_other.
Qed.

Lemma goto_inv ord s s1 c : refs_inv ord s ->
  cur s1 = cur s -> runs s1 = runs s -> pc s1 = pc s ->
  (forall e x, 0 <= holds s1 e x) ->
  (forall e x, e <> cur s -> holds s e x <= holds s1 e x) ->
  (forall x, n_fd s1 x = zsum (fun e => holds s1 e x)) ->
  n_pg s1 = n_fd s1 RD + n_fd s1 WR + zsum (fun e => extra (pc s e))
            + (extra c - extra (pc s (cur s))) ->
  (ord = FdFirst -> ~ forking c) ->
  fresh_reads (goto c s1) (cur s) ->
  (forall e x, (e, x, true) ∈ answers s1 -> n_fd s1 (other x) = 0) ->
  refs_inv ord (goto c s1).
Proof.
  intros [Hc Hr Hh Hf Hp Ho Hrd Ha] Ec Er Ep Hh1 Hho Hf1 Hp1 Ho1 Hrd1 Ha1. constructor.
  - cbn. by rewrite Ec.
  - cbn. by rewrite Er.
  - done.
  - done.
  - rewrite extra_goto by (by rewrite Ec). rewrite Ep, Ec. cbn [goto n_pg n_fd]. lia.
  - intros E e. cbn. rewrite upd_case. case_decide; [auto|]. rewrite Ep. auto.
  - intros e He. destruct (decide (e = cur s)) as [-> |Hne]; [done|].
    specialize (Hrd e He). unfold fresh_reads in *. cbn. rewrite upd_other by congruence.
    rewrite Ep, Er, Ec. specialize (Hho e). destruct (pc s e); try done; try intuition congruence.
    + specialize (Hho x Hne). lia.
    + specialize (Hho x Hne). split; [lia|]. intuition.
  - done.
Qed.

(** The holdings of one environment change by [d] together with the count. *)
Lemma hold_sum s e x d y : is_env e = true ->
  (forall y, n_fd s y = zsum (fun e => holds s e y)) ->
  (if decide (y = x) then n_fd s y + d else n_fd s y) =
  zsum (fun e' => upd (holds s) e (fun y => if decide (y = x) then holds s e y + d else holds s e y) e' y).
Proof.
  intros He Hf. rewrite (zsum_upd (fun e => holds s e y) _ e (if decide (y = x) then d else 0)).
  - rewrite Hf. case_decide; lia.
  - done.
  - rewrite upd_same. case_decide; lia.
  - intros e' Hne. by rewrite upd_other.
Qed.

Lemma add_hold_ge s e x d e' y : -1 <= d -> (d = -1 -> 1 <= holds s e x) ->
  (forall e x, 0 <= holds s e x) ->
  0 <= upd (holds s) e (fun y => if decide (y = x) then holds s e y + d else holds s e y) e' y.
Proof.
  intros Hd Hm Hh. rewrite upd_case. case_decide; [|done]. pose proof (Hh e y).
  case_decide; [|lia]. subst. destruct (decide (d = -1)) as [E|]; [specialize (Hm E)|]; lia.
Qed.

Lemma add_hold_mono s e x d e' y : 0 <= d \/ e' <> e ->
  holds s e' y <= upd (holds s) e (fun y => if decide (y = x) then holds s e y + d else holds s e y) e' y.
Proof. intros H. rewrite upd_case. repeat case_decide; subst; lia. Qed.

Ltac use_inv Hi :=
  pose proof (rv_cur _ _ Hi) as Hc; pose proof (rv_holds _ _ Hi) as Hh;
  pose proof (rv_fd _ _ Hi) as Hf; pose proof (rv_pg _ _ Hi) as Hp;
  pose proof (rv_answers _ _ Hi) as Ha;
  pose proof (rv_reads _ _ Hi _ Hc) as Hrd; unfold fresh_reads in Hrd.

(** A descriptor of [x] gained by [e] or lost, with the mapping of its page. *)
Lemma hold_inv ord s e x d c : refs_inv ord s -> is_env e = true ->
  -1 <= d -> (d = -1 -> e = cur s /\ 1 <= holds s e x) ->
  (0 < d -> 1 <= n_fd s x) ->
  d = extra (pc s (cur s)) - extra c ->
  ~ forking c -> (forall s', pc s' (cur s) = c -> fresh_reads s' (cur s)) ->
  refs_inv ord (goto c (add_hold e x d (add_fd x d s))).
Proof.
  intros Hi He Hd Hm Hp1 Hx Hk Hc1. use_inv Hi. apply (goto_inv _ s); try done.
  - intros e' y. cbn. apply add_hold_ge; [done|intros E; by apply Hm|done].
  - intros e' y Hne. cbn. apply add_hold_mono.
    destruct (decide (d = -1)) as [E|]; [right; destruct (Hm E); congruence|lia].
  - intros y. cbn. by apply hold_sum.
  - cbn. rewrite Hp. destruct x; repeat case_decide; try congruence; lia.
  - apply Hc1. cbn. by rewrite upd_same.
  - intros e' y Hin. cbn. specialize (Ha e' y Hin). case_decide as E; [|done]. subst x.
    destruct (decide (d = -1)) as [Ed|];
      [|destruct (decide (d = 0)); [lia|specialize (Hp1 ltac:(lia)); lia]].
    destruct (Hm Ed) as [-> H1]. pose proof (holds_pos _ _ _ _ Hi Hc H1). lia.
Qed.

(** A step that changes no count. *)
Lemma read_inv ord s c : refs_inv ord s -> extra c = extra (pc s (cur s)) -> ~ forking c ->
  fresh_reads (goto c s) (cur s) -> refs_inv ord (goto c s).
Proof.
  intros Hi Hx Hk Hr. use_inv Hi. apply (goto_inv _ s); try done. rewrite Hp. lia.
Qed.

(** The page of the ring mapped once more or less. *)
Lemma page_inv ord s d c : refs_inv ord s -> d = extra c - extra (pc s (cur s)) ->
  (ord = FdFirst -> ~ forking c) -> fresh_reads (goto c (add_pg d s)) (cur s) ->
  refs_inv ord (goto c (add_pg d s)).
Proof.
  intros Hi Hx Hk Hr. use_inv Hi. apply (goto_inv _ s); try done. cbn. lia.
Qed.

Lemma go_inv ord s : refs_inv ord s -> (forall e, runs s e < 2 ^ 32) -> refs_inv ord (go ord s).
Proof.
  intros Hi Hb. use_inv Hi. unfold go.
  assert (Hu : u32 (runs s (cur s)) = runs s (cur s))
    by (apply u32_id; split; [apply (rv_runs _ _ Hi)|done]).
  pose proof (rv_runs _ _ Hi (cur s)) as H0.
  destruct (pc s (cur s)) as [|x|x|x child|x|x r|x r f|x r f g] eqn:E; [done| | | | | | |].
  - apply page_inv; [done|by rewrite E|by intros _ []|]. unfold fresh_reads. cbn. by rewrite upd_same.
  - apply hold_inv; try done; [intros _; exact (holds_pos _ _ _ _ Hi Hc Hrd)|by rewrite E|by intros []|].
    intros s' Hs. unfold fresh_reads. by rewrite Hs.
  - destruct ord; [by destruct (rv_order _ _ Hi eq_refl (cur s)); rewrite E|].
    destruct Hrd as [Hx1 Hx2].
    apply hold_inv; try done; [intros _; exact (holds_pos _ _ _ _ Hi Hc Hx1)|by rewrite E|by intros []|].
    intros s' Hs. unfold fresh_reads. by rewrite Hs.
  - rewrite Hu. apply read_inv; [done|by rewrite E|by intros []|].
    unfold fresh_reads. cbn. rewrite upd_same. lia.
  - apply read_inv; [done|by rewrite E|by intros []|]. unfold fresh_reads. cbn.
    rewrite upd_same. auto.
  - apply read_inv; [done|by rewrite E|by intros []|]. unfold fresh_reads. cbn.
    rewrite upd_same. destruct Hrd as [? Hrd]. split; [done|]. intros Hcc Hrr. by split; [apply Hrd|].
  - rewrite Hu. destruct (Z.eqb_spec r (runs s (cur s))) as [-> |Hne].
    + destruct Hrd as [_ Hrd]. destruct (Hrd eq_refl eq_refl) as [-> ->].
      apply (goto_inv _ s); try done.
      * rewrite E. cbn. lia.
      * by intros _ [].
      * unfold fresh_reads. cbn. by rewrite upd_same.
      * intros e y. cbn. rewrite elem_of_cons. intros [Heq|Hin]; [|by eapply Ha].
        injection Heq as -> -> Hq%eq_sym%Z.eqb_eq.
        pose proof (zsum_nonneg (fun e => extra (pc s e)) ltac:(intros e'; cbn; destruct (pc s e'); cbn; lia)).
        assert (Hn : forall z, 0 <= n_fd s z)
          by (intros z; rewrite Hf; apply zsum_nonneg; intros e'; apply Hh).
        pose proof (Hn RD). pose proof (Hn WR). destruct x; cbn; lia.
    + apply read_inv; [done|by rewrite E|by intros []|]. unfold fresh_reads. cbn. by rewrite upd_same.
Qed.

Definition allowed (ord : fork_order) (a : action) : Prop := ord = PageFirst \/ ~ forks a.

Lemma switch_inv ord e s : refs_inv ord s -> is_env e = true ->
  (forall e', upd (runs s) e (runs s e + 1) e' < 2 ^ 32) ->
  refs_inv ord (mkRefs (n_fd s) (n_pg s) (holds s) (pc s) (upd (runs s) e (runs s e + 1)) e (answers s)).
Proof.
  intros Hi He Hb. destruct Hi. constructor; cbn; try done.
  - intros e'. rewrite upd_case. specialize (rv_runs0 e'). case_decide; subst; lia.
  - intros e' He'. specialize (rv_reads0 e' He'). unfold fresh_reads in *. cbn.
    rewrite upd_case. case_decide as E; [subst|]; destruct (pc s _); try done; try intuition lia.
Qed.

Lemma act_inv ord a s s' : refs_inv ord s -> allowed ord a -> act ord a s = Some s' ->
  (forall e, runs s' e < 2 ^ 32) -> refs_inv ord s'.
Proof.
  intros Hi Hal Hs Hb. use_inv Hi. destruct a; cbn in Hs.
  - destruct (is_env e) eqn:He; [|done]. simplify_eq. by apply switch_inv.
  - destruct (pc s (cur s)) eqn:E; try done. destruct (Z.ltb_spec 0 (holds s (cur s) x)); [|done].
    simplify_eq. apply (hold_inv _ _ _ _ (-1)); try done; [intros _; split; [done|lia]|by rewrite E|by intros []|].
    intros s' Hs. unfold fresh_reads. by rewrite Hs.
  - destruct (pc s (cur s)) eqn:E; try done. destruct (Z.ltb_spec 0 (holds s (cur s) x)); [|done].
    simplify_eq. apply page_inv; [done|by rewrite E|by intros _ []|].
    unfold fresh_reads. cbn. rewrite upd_same. lia.
  - destruct Hal as [-> |[]]; [|done].
    destruct (pc s (cur s)) eqn:E; try done. destruct (Z.ltb_spec 0 (holds s (cur s) x)); [|done].
    destruct (is_env child) eqn:Ech; [|done].
    simplify_eq/=. apply page_inv; [done|by rewrite E|done|].
    unfold fresh_reads. cbn. rewrite upd_same. split; [lia|done].
  - destruct (pc s (cur s)) eqn:E; try done. destruct (Z.ltb_spec 0 (holds s (cur s) x)); [|done].
    simplify_eq. apply read_inv; [done|by rewrite E|by intros []|].
    unfold fresh_reads. cbn. by rewrite upd_same.
  - simplify_eq. apply go_inv; [done|]. intros e. specialize (Hb e). unfold go in Hb.
    destruct (pc s (cur s)); try destruct ord; cbn in Hb; try done.
    all: destruct (_ =? _); done.
Qed.

Lemma act_runs ord a s s' e : act ord a s = Some s' -> runs s e <= runs s' e.
Proof.
  destruct a; cbn; intros Hs; step_cases Hs; try done; cbn; try lia.
  - rewrite upd_case. case_decide; subst; lia.
  - by destruct ord.
  - unfold go. destruct (pc s (cur s)); try case_match; done.
Qed.

Lemma acts_runs ord l s s' e : acts ord l s = Some s' -> runs s e <= runs s' e.
Proof.
  revert s. induction l as [|a l IH]; intros s Hs; cbn in Hs; [by simplify_eq|].
  destruct (act ord a s) as [s1|] eqn:E; [|done].
  etrans; [by eapply act_runs|by apply IH].
Qed.

Lemma acts_inv ord l s s' : refs_inv ord s -> Forall (allowed ord) l -> acts ord l s = Some s' ->
  (forall e, runs s' e < 2 ^ 32) -> refs_inv ord s'.
Proof.
  intros Hi Hl Hs Hb. revert s Hi Hs.
  induction Hl as [|a l Ha Hl IH]; intros s Hi Hs; cbn in Hs; [by simplify_eq|].
  destruct (act ord a s) as [s1|] eqn:E; [|done].
  eapply IH; [|done]. eapply act_inv; [done..|].
  intros e. specialize (Hb e). pose proof (acts_runs _ _ _ _ e Hs). lia.
Qed.

Lemma ask_now ord s x : refs_inv ord s -> (forall e, pc s e = E_run) -> 0 < holds s (cur s) x ->
  exists s', acts ord [Ask x; Go; Go; Go; Go] s = Some s' /\
    answers s' = (cur s, x, n_fd s (other x) =? 0) :: answers s.
Proof.
  intros Hi Hq Hx. cbn. rewrite Hq. destruct (Z.ltb_spec 0 (holds s (cur s) x)); [|lia].
  unfold go. cbn. rewrite !upd_same. cbn. rewrite !upd_same. cbn. rewrite !upd_same. cbn.
  rewrite !upd_same. cbn. rewrite Z.eqb_refl. eexists. split; [done|]. cbn.
  use_inv Hi. rewrite Hp, (zsum_0 (fun e => extra (pc s e))) by (intros e _; by rewrite Hq).
  do 2 f_equal. destruct x; cbn;
    [destruct (Z.eqb_spec (n_fd s WR) 0) | destruct (Z.eqb_spec (n_fd s RD) 0)];
    first [apply Z.eqb_eq | apply Z.eqb_neq]; lia.
Qed.

(** C35. Whatever environments close and duplicate the ends of a pipe in
    whatever interleaving, as long as none forks (or fork mapped the data
    before the descriptor) and none is switched to 2^32 times: an end of which
    [_pipe_is_closed] ever said that the other end is closed has no holder of
    the other end, then and for ever; and asked while no environment is in the
    middle of an operation, it says so exactly when there is none. *)
Theorem pipe_closed_correct ord e0 l s : is_env e0 = true ->
  Forall (allowed ord) l -> acts ord l (piped e0) = Some s -> (forall e, runs s e < 2 ^ 32) ->
  (forall e x, (e, x, true) ∈ answers s -> forall e', is_env e' = true -> holds s e' (other x) = 0) /\
  (forall x, (forall e, pc s e = E_run) -> 0 < holds s (cur s) x ->
    exists s' b, acts ord [Ask x; Go; Go; Go; Go] s = Some s' /\
      answers s' = (cur s, x, b) :: answers s /\
      (b = true <-> forall e', is_env e' = true -> holds s e' (other x) = 0)).
Proof.
  intros He Hl Hs Hb. pose proof (acts_inv _ _ _ _ (piped_inv ord e0 He) Hl Hs Hb) as Hi.
  assert (Hz : forall y, n_fd s y = 0 <-> forall e', is_env e' = true -> holds s e' y = 0).
  { intros y. rewrite (rv_fd _ _ Hi). split; [|apply zsum_0]. intros Hy e' He'.
    pose proof (zsum_ge (fun e => holds s e y) e' (fun e => rv_holds _ _ Hi e y) He').
    pose proof (rv_holds _ _ Hi e' y). cbn in *. lia. }
  split.
  - intros e x Hin. apply Hz. by eapply rv_answers.
  - intros x Hq Hx. destruct (ask_now ord s x Hi Hq Hx) as (s' & Hr & Hans).
    eexists s', _. split; [done|]. split; [done|]. by rewrite Z.eqb_eq, Hz.
Qed.

(** Environment 1 closes the writing end and asks. *)
Definition ex_closing : list action := [Switch 1; Close WR; Go; Ask RD; Go; Go; Go; Go].

Lemma pipe_closed_correct_witness : exists s, acts FdFirst ex_closing (piped 1) = Some s /\
  (1, RD, true) ∈ answers s /\ holds s 1 WR = 0.
Proof.
  assert (H : exists s, acts FdFirst ex_closing (piped 1) = Some s /\
    answers s = [(1, RD, true)] /\ runs s = upd (fun _ => 0) 1 1)
    by (eexists; split; [vm_compute; reflexivity|split; vm_compute; reflexivity]).
  destruct H as (s & Hs & Ha & Hr). exists s. split; [exact Hs|].
  assert (Hin : (1, RD, true) ∈ answers s) by (rewrite Ha; apply list_elem_of_here).
  split; [exact Hin|].
  refine (proj1 (pipe_closed_correct FdFirst 1 ex_closing s eq_refl _ Hs _) 1 RD Hin 1 eq_refl).
  - unfold ex_closing. rewrite !Forall_cons, Forall_nil. repeat split; right; intros [].
  - intros e. rewrite Hr, upd_case. destruct (decide (e = 1)); lia.
Defined.

(** With the order of fork.c a reader is told that the pipe is closed while
    environment 1 holds the writing end: environment 0, one of two readers, has
    mapped the descriptor into its child and not yet the data. *)
Lemma fork_race : exists s, acts FdFirst
    [Fork RD 1; Go; Fork WR 1; Go; Close WR; Go; Fork RD 2; Go; Fork RD 3;
     Switch 2; Ask RD; Go; Go; Go; Go] (piped 0) = Some s /\
  answers s = [(2, RD, true)] /\ holds s 1 WR = 1.
Proof. eexists. split; [vm_compute; reflexivity|by vm_compute]. Qed.
