(* ===== verification/Syscall.v ===== *)
(** * System calls (kern/syscall_all.c, include/syscall.h)

    Every handler, the table and [do_syscall].  A handler that does not
    return is [Noret]; [void_ret] is what register a0 holds after a handler
    declared [void], [dev_read] the answer of a device register. *)
From S2P Require Import Prelude Queue Mmu Pmap UserMem Elf Env Sched.

(** ** Numbers, in the order of the enumeration *)
Definition SYS_putchar : Z := 0.
Definition SYS_print_cons : Z := 1.
Definition SYS_getenvid : Z := 2.
Definition SYS_yield : Z := 3.
Definition SYS_env_destroy : Z := 4.
Definition SYS_set_tlb_mod_entry : Z := 5.
Definition SYS_mem_alloc : Z := 6.
Definition SYS_mem_map : Z := 7.
Definition SYS_mem_unmap : Z := 8.
Definition SYS_exofork : Z := 9.
Definition SYS_set_env_status : Z := 10.
Definition SYS_set_trapframe : Z := 11.
Definition SYS_panic : Z := 12.
Definition SYS_ipc_try_send : Z := 13.
Definition SYS_ipc_recv : Z := 14.
Definition SYS_cgetc : Z := 15.
Definition SYS_write_dev : Z := 16.
Definition SYS_read_dev : Z := 17.
Definition MAX_SYSNO : Z := 18.

(** ** Console *)
Definition printcharc (ch : Z) : KM unit := modify (fun k => set_cons_out (u8 ch :: cons_out k) k).

Definition sys_putchar (c : Z) : KM unit := printcharc c.

Definition sys_print_cons (s num : Z) : KM Z :=
  if (UTOP <? u32 (s + num)) || (UTOP <=? s) || (u32 (s + num) <? s) then ret (- E_INVAL)
  else
    forM (seqZ 0 num) (fun i => let! b := kpm (user_lb (s + i)) in printcharc b) ;!
    ret 0.

(** [while ((ch = scancharc()) == 0)]: with no character the kernel keeps
    polling and nothing else runs. *)
Fixpoint cgetc_loop (l : list Z) : KM Z :=
  match l with
  | [] => modify (set_cons_in []) ;! noreturn
  | ch :: l => if ch =? 0 then cgetc_loop l else modify (set_cons_in l) ;! ret ch
  end.
Definition sys_cgetc : KM Z :=
  let! l := gets cons_in in
  let! ch := cgetc_loop l in
  ret (if ch <? 0 then 0 else ch).

(** ** Environments *)
Definition sys_getenvid : KM Z :=
  let! c := get_curenv in
  let! k := get in
  ret (env_id (envs k c)).

Definition sys_yield : KM Z := schedule true.

Definition sys_env_destroy (envid : Z) : KM Z :=
  tryz! p := envid2env envid true in
  let! e := deref p in
  env_destroy e ;!
  ret 0.

Definition sys_set_tlb_mod_entry (envid func : Z) : KM Z :=
  tryz! p := envid2env envid true in
  let! env := deref p in
  upd_env env (set_env_user_tlb_mod_entry func) ;!
  ret 0.

(** ** Memory *)
Definition is_illegal_va (va : Z) : bool := (va <? UTEMP) || (UTOP <=? va).
Definition is_illegal_va_range (va len : Z) : bool :=
  if len =? 0 then false
  else (u32 (va + len) <? va) || (va <? UTEMP) || (UTOP <? u32 (va + len)).

Definition sys_mem_alloc (envid va perm : Z) : KM Z :=
  if is_illegal_va va then ret (- E_INVAL)
  else
    tryz! p := envid2env envid true in
    tryz! pp := kpm page_alloc in
    let! env := deref p in
    let! k := get in
    kpm (page_insert (env_pgdir (envs k env)) (env_asid (envs k env)) pp va (Z.lor perm PTE_U)).

Definition sys_mem_map (srcid srcva dstid dstva perm : Z) : KM Z :=
  if is_illegal_va srcva || is_illegal_va dstva then ret (- E_INVAL)
  else
    tryz! srcp := envid2env srcid true in
    tryz! dstp := envid2env dstid true in
    let! srcenv := deref srcp in
    let! k := get in
    let! r := kpm (page_lookup (env_pgdir (envs k srcenv)) srcva) in
    match r with
    | None => ret (- E_INVAL)
    | Some (pp, _) =>
        let! dstenv := deref dstp in
        kpm (page_insert (env_pgdir (envs k dstenv)) (env_asid (envs k dstenv)) pp dstva
               (Z.lor perm PTE_U))
    end.

Definition sys_mem_unmap (envid va : Z) : KM Z :=
  if is_illegal_va va then ret (- E_INVAL)
  else
    tryz! p := envid2env envid true in
    let! e := deref p in
    let! k := get in
    kpm (page_remove (env_pgdir (envs k e)) (env_asid (envs k e)) va) ;!
    ret 0.

(** ** Fork *)
Definition sys_exofork : KM Z :=
  let! c := get_curenv in
  let! k := get in
  tryz! e := env_alloc (env_id (envs k c)) in
  let! k := get in
  upd_env e (set_env_tf (kstack k)) ;!
  upd_env e (fun v => set_env_tf (set_reg 10 0 (env_tf v)) v) ;!
  upd_env e (set_env_status ENV_NOT_RUNNABLE) ;!
  upd_env e (set_env_pri (env_pri (envs k c))) ;!
  let! k := get in
  ret (env_id (envs k e)).

Definition sys_set_env_status (envid status : Z) : KM Z :=
  if negb (status =? ENV_RUNNABLE) && negb (status =? ENV_NOT_RUNNABLE) then ret (- E_INVAL)
  else
    tryz! p := envid2env envid true in
    let! env := deref p in
    let! k := get in
    (if negb (env_status (envs k env) =? status) then
       if status =? ENV_RUNNABLE then sched_op (TAILQ_INSERT_TAIL env)
       else sched_op (TAILQ_REMOVE env)
     else ret tt) ;!
    upd_env env (set_env_status status) ;!
    ret 0.

(** [n] consecutive words of user memory. *)
Fixpoint read_words (n : nat) (va : Z) : PM (list Z) :=
  match n with
  | O => ret []
  | S n =>
      let! w := user_lw va in
      let! l := read_words n (u32 (va + 4)) in
      ret (w :: l)
  end.
Definition tf_of_words (l : list Z) : Trapframe :=
  mkTF (fun r => nth (Z.to_nat r) l 0) (nth 32 l 0) (nth 33 l 0) (nth 34 l 0) (nth 35 l 0).
Definition words_of_tf (tf : Trapframe) : list Z :=
  (regs tf <$> seqZ 0 32) ++ [status tf; badvaddr tf; cause tf; epc tf].

Definition sys_set_trapframe (envid tf : Z) : KM Z :=
  if is_illegal_va_range tf SIZEOF_TF then ret (- E_INVAL)
  else
    tryz! p := envid2env envid true in
    let! k := get in
    let! l := kpm (read_words 36 tf) in
    if bool_decide (p = curenv k) then
      modify (set_kstack (tf_of_words l)) ;!
      kpm (user_lw (u32 (tf + 4 * 10)))
    else
      let! env := deref p in
      upd_env env (set_env_tf (tf_of_words l)) ;!
      ret 0.

Definition sys_panic (msg : Z) : KM Z := panic "user panic".

(** ** Inter-process communication *)
Definition sys_ipc_recv (dstva : Z) : KM Z :=
  if negb (dstva =? 0) && is_illegal_va dstva then ret (- E_INVAL)
  else
    let! c := get_curenv in
    upd_env c (set_env_ipc_recving 1) ;!
    upd_env c (set_env_ipc_dstva dstva) ;!
    upd_env c (set_env_status ENV_NOT_RUNNABLE) ;!
    sched_op (TAILQ_REMOVE c) ;!
    modify (fun k => set_kstack (set_reg 10 0 (kstack k)) k) ;!
    schedule true.

Definition sys_ipc_try_send (envid value srcva perm : Z) : KM Z :=
  if truthy srcva && is_illegal_va srcva then ret (- E_INVAL)
  else
    tryz! p := envid2env envid false in
    let! e := deref p in
    let! k := get in
    if negb (truthy (env_ipc_recving (envs k e))) then ret (- E_IPC_NOT_RECV)
    else
      let! c := get_curenv in
      upd_env e (set_env_ipc_value value) ;!
      upd_env e (set_env_ipc_from (env_id (envs k c))) ;!
      upd_env e (set_env_ipc_perm (Z.lor (Z.lor (Z.lor PTE_U PTE_R) PTE_V) perm)) ;!
      upd_env e (set_env_ipc_recving 0) ;!
      upd_env e (set_env_status ENV_RUNNABLE) ;!
      sched_op (TAILQ_INSERT_TAIL e) ;!
      if negb (srcva =? 0) then
        let! k := get in
        let! r := kpm (page_lookup (env_pgdir (envs k c)) srcva) in
        match r with
        | None => ret (- E_INVAL)
        | Some (p, _) =>
            try0 (kpm (page_insert (env_pgdir (envs k e)) (env_asid (envs k e)) p
                         (env_ipc_dstva (envs k e)) (Z.lor perm PTE_U)))
              (ret 0)
        end
      else ret 0.

Section Devices.
Context (dev_read : Z -> Z) (void_ret : Z).

Definition dev_ok (va : Z) : bool := negb ((va <? 0x10000000) || (0x10400000 <=? va)).
Definition dev_addr (va : Z) : Z := Z.lor KMMIO (Z.land va 0x3FFFFF).

Definition sys_write_dev (va value : Z) : KM unit :=
  if negb (dev_ok va) then ret tt
  else modify (fun k => set_mmio ((dev_addr va, value) :: mmio k) k).

Definition sys_read_dev (va : Z) : KM Z :=
  if negb (dev_ok va) then ret (u32 (-1)) else ret (dev_read (dev_addr va)).

(** [syscall_table[sysno](arg1, ..., arg5)] *)
Definition syscall_table (sysno arg1 arg2 arg3 arg4 arg5 : Z) : KM Z :=
  if sysno =? SYS_putchar then sys_putchar arg1 ;! ret void_ret
  else if sysno =? SYS_print_cons then sys_print_cons arg1 arg2
  else if sysno =? SYS_getenvid then sys_getenvid
  else if sysno =? SYS_yield then sys_yield
  else if sysno =? SYS_env_destroy then sys_env_destroy arg1
  else if sysno =? SYS_set_tlb_mod_entry then sys_set_tlb_mod_entry arg1 arg2
  else if sysno =? SYS_mem_alloc then sys_mem_alloc arg1 arg2 arg3
  else if sysno =? SYS_mem_map then sys_mem_map arg1 arg2 arg3 arg4 arg5
  else if sysno =? SYS_mem_unmap then sys_mem_unmap arg1 arg2
  else if sysno =? SYS_exofork then sys_exofork
  else if sysno =? SYS_set_env_status then sys_set_env_status arg1 arg2
  else if sysno =? SYS_set_trapframe then sys_set_trapframe arg1 arg2
  else if sysno =? SYS_panic then sys_panic arg1
  else if sysno =? SYS_ipc_try_send then sys_ipc_try_send arg1 arg2 arg3 arg4
  else if sysno =? SYS_ipc_recv then sys_ipc_recv arg1
  else if sysno =? SYS_cgetc then sys_cgetc
  else if sysno =? SYS_write_dev then sys_write_dev arg1 arg2 ;! ret void_ret
  else sys_read_dev arg1.

(** [do_syscall(tf)] with [tf] the frame on the kernel stack. *)
Definition do_syscall : KM unit :=
  let! k := get in
  let sysno := s32 (regs (kstack k) 10) in
  if (sysno <? 0) || (MAX_SYSNO <=? sysno) then
    modify (fun k => set_kstack (set_reg 10 (u32 (- E_NO_SYS)) (kstack k)) k)
  else
    modify (fun k => set_kstack (set_epc (u32 (epc (kstack k) + 4)) (kstack k)) k) ;!
    let! r := syscall_table sysno (regs (kstack k) 11) (regs (kstack k) 12)
                (regs (kstack k) 13) (regs (kstack k) 14) (regs (kstack k) 15) in
    modify (fun k => set_kstack (set_reg 10 (u32 r) (kstack k)) k).
End Devices.
