(* ===== verification/SyscallProps.v ===== *)
(** * What the system calls guarantee *)
From S2P Require Import Prelude Queue Mmu Pmap PmapFacts PmapInv PmapSpec PmapBoot.
From S2P Require Import PmapProps UserMem Elf Env EnvFree Sched EnvFacts EnvProps Syscall.

(** ** Memory *)
Lemma user_perm perm : 0 <= perm < 1024 -> 0 <= Z.lor perm PTE_U < 1024.
Proof. intros H. apply (lor_lt_pow2 _ _ 10); try lia. by vm_compute. Qed.

(** Pages taken from the allocator keep every mapping. *)
Lemma alloc_view boot D p fl s q :
  pm_inv boot D (p :: fl) s -> (forall p, 0 <= boot p) -> list_rep q fl ->
  let s1 := set_mem (zero_range (page2pa p) BY2PG (mem s)) (set_page_free_list q s) in
  forall d va, d ∈ D -> PDX va < NUPDE -> entry s1 d va = entry s d va.
Proof.
  intros I Hb Hq s1 d va Hd Hva.
  destruct (pm_inv_alloc _ _ _ _ _ _ I (Hb p) Hq)
    as (_ & _ & _ & _ & [HD HT]%not_elem_of_app & _ & Hfr & _).
  apply (view_frame _ _ _ _ s1 I); [| |done|done].
  - intros d' i Hd' Hi. pose proof NUPDE_bound.
    apply Hfr; [by apply (inv_dir_page _ _ _ _ I)|by intros ->|lia].
  - intros a (r & j & Hr & Hj & ->)%elem_of_entries.
    apply Hfr; [by apply (inv_table_page _ _ _ _ I)|by intros ->|done].
Qed.

(** A page allocated and mapped, as [sys_mem_alloc] does. *)
Lemma alloc_insert_run boot D fl s d va asid perm :
  pm_inv boot D fl s -> (forall p, 0 <= boot p) -> d ∈ D -> 0 <= va < UTOP -> 0 <= perm < 1024 ->
  let m := tryz! pp := page_alloc in page_insert (page2pa d) asid pp va perm in
  (exists p s' fl', m s = Ret 0 s' /\ pm_inv boot D fl' s' /\ p ∈ fl /\
     mapped_as s' d va p perm /\ others_same s s' D d va /\ pp_ref s' p =
       1 + (if decide (mapped_page s d va = Some p) then -1 else 0)) \/
  ((length fl <= 1)%nat /\ exists s' fl', m s = Ret (- E_NO_MEM) s' /\ pm_inv boot D fl' s' /\
     forall d' va', d' ∈ D -> PDX va' < NUPDE -> entry s' d' va' = entry s d' va').
Proof.
  intros I Hb Hd Hva Hperm m. destruct (user_PDX va Hva) as [Hx _]. destruct fl as [|p fl1].
  { right. split; [cbn; lia|]. exists s, []. unfold m, try_z, bind.
    by rewrite (page_alloc_empty _ (inv_free _ _ _ _ I)). }
  destruct (page_alloc_cons _ _ _ (inv_free _ _ _ _ I)) as (q & Hq & Hal).
  destruct (fresh_mappable _ _ _ _ _ _ I Hb Hal) as (fl1' & [= <-] & I1 & Hm & Hr).
  pose proof (alloc_view boot D p fl1 s q I Hb Hq) as Hv. cbv zeta in Hv.
  assert (Hp0 : pp_ref s p = 0) by (apply (inv_free_ref _ _ _ _ I), elem_of_cons; by left).
  unfold m, try_z. rewrite (bind_step _ _ _ _ _ Hal).
  destruct (page_insert_inv boot D fl1 _ d va asid p perm I1 Hb Hd Hva Hm Hperm)
    as [(s' & fl' & Hrun & [I' Hmap Ho Hr'])|(Hrun & -> & _)].
  - left. exists p, s', fl'. split; [done|].
    split_and!; try done; [by apply elem_of_cons; left| |].
    + intros d' va' Hd' Hva' Hns. by rewrite Ho, Hv.
    + rewrite Hr'. unfold mapped_page. rewrite Hv by done. rewrite Hr, Hp0. repeat case_decide; (lia || done).
  - right. split; [cbn; lia|]. eexists _, []. split; [exact Hrun|]. by split.
Qed.

(** A page on the free list is mapped nowhere. *)
Lemma free_not_mapped boot D fl s d va p :
  pm_inv boot D fl s -> (forall p, 0 <= boot p) -> d ∈ D -> PDX va < NUPDE -> p ∈ fl ->
  mapped_page s d va <> Some p.
Proof.
  intros I Hb Hd Hx Hp Hm. unfold mapped_page in Hm.
  destruct (entry s d va) as [e|] eqn:He; [|done]. injection Hm as Hm. cbn in Hm.
  destruct (mapped_ref _ _ _ _ I d va e Hd Hx Hb He) as [_ Hf]. by rewrite Hm in Hf.
Qed.

(** Every environment the caller may name has its directory in [D]. *)
Definition spaces (k : kst) (D : list Z) : Prop :=
  forall envid e, target k envid true = Some e ->
    exists d, d ∈ D /\ env_pgdir (envs k e) = page2pa d.

Lemma legal_user va : is_illegal_va va = false -> 0 <= va < UTOP.
Proof.
  unfold is_illegal_va. intros H. assert (0 <= UTEMP) by (by vm_compute). lia.
Qed.

Lemma envid2env_step {B} envid k c e (K : option Z -> KM B) F :
  curenv k = Some c -> target k envid true = Some e ->
  bind (envid2env envid true) (fun r => match r with OK a => K a | Err x => F x end) k
  = K (Some e) k.
Proof.
  intros Hc Ht. rewrite (bind_step _ _ _ _ _ (envid2env_target _ _ _ _ Hc)). by rewrite Ht.
Qed.

Lemma envid2env_fail {B} envid k c (K : option Z -> KM B) F :
  curenv k = Some c -> target k envid true = None ->
  bind (envid2env envid true) (fun r => match r with OK a => K a | Err x => F x end) k
  = F (- E_BAD_ENV) k.
Proof.
  intros Hc Ht. rewrite (bind_step _ _ _ _ _ (envid2env_target _ _ _ _ Hc)). by rewrite Ht.
Qed.

(** The handler reaches the allocator and [page_insert]. *)
Lemma sys_mem_alloc_run k c envid va perm e d s' r :
  curenv k = Some c -> target k envid true = Some e -> env_pgdir (envs k e) = page2pa d ->
  is_illegal_va va = false ->
  (tryz! pp := page_alloc in page_insert (page2pa d) (env_asid (envs k e)) pp va (Z.lor perm PTE_U)) (pm k)
    = Ret r s' ->
  sys_mem_alloc envid va perm k = Ret r (set_pm s' k).
Proof.
  intros Hc Ht Hpg Hill H. unfold sys_mem_alloc. rewrite Hill. unfold try_z in *.
  rewrite (envid2env_step _ _ _ _ _ _ Hc Ht). unfold bind at 1 in H. unfold bind at 1. unfold kpm at 1, zoom.
  destruct (page_alloc (pm k)) as [[pp|x] s1| | |]; try done.
  - rewrite (bind_step _ _ _ _ _ (deref_run _ _)).
    unfold bind, get. cbn [envs set_pm]. rewrite Hpg. unfold kpm, zoom. cbn [pm set_pm].
    rewrite H. by destruct k.
  - by injection H as <- <-.
Qed.

(** [sys_mem_alloc], on every branch: an address outside
    [UTEMP, UTOP) is refused with [-E_INVAL]; an environment the caller may
    not touch with [-E_BAD_ENV]; otherwise a page that was free is mapped at
    [va] of the target alone with the requested permissions and a count of
    one, every other mapping of every environment unchanged, or with at most
    one page left [-E_NO_MEM] is returned and no mapping changes.  Nothing but
    the memory manager's state changes. *)
Lemma sys_mem_alloc_correct boot D fl k c envid va perm :
  pm_inv boot D fl (pm k) -> (forall p, 0 <= boot p) -> curenv k = Some c -> spaces k D ->
  0 <= perm < 1024 ->
  if is_illegal_va va then sys_mem_alloc envid va perm k = Ret (- E_INVAL) k
  else
    match target k envid true with
    | None => sys_mem_alloc envid va perm k = Ret (- E_BAD_ENV) k
    | Some e =>
        exists d, d ∈ D /\ env_pgdir (envs k e) = page2pa d /\
        ((exists p s' fl', sys_mem_alloc envid va perm k = Ret 0 (set_pm s' k) /\
            pm_inv boot D fl' s' /\ p ∈ fl /\ mapped_as s' d va p (Z.lor perm PTE_U) /\
            others_same (pm k) s' D d va /\ pp_ref s' p = 1) \/
         ((length fl <= 1)%nat /\ exists s' fl',
            sys_mem_alloc envid va perm k = Ret (- E_NO_MEM) (set_pm s' k) /\
            pm_inv boot D fl' s' /\
            forall d' va', d' ∈ D -> PDX va' < NUPDE -> entry s' d' va' = entry (pm k) d' va'))
    end.
Proof.
  intros I Hb Hc Hsp Hperm. unfold sys_mem_alloc.
  destruct (is_illegal_va va) eqn:Hill; [done|]. apply legal_user in Hill as Hva.
  destruct (user_PDX va Hva) as [Hx _].
  destruct (target k envid true) as [e|] eqn:Ht.
  2: { unfold try_z at 1. by rewrite (envid2env_fail _ _ _ _ _ Hc Ht). }
  destruct (Hsp envid e Ht) as (d & Hd & Hpg). exists d. split; [done|]. split; [done|].
  assert (Heq : forall s' r, _ -> sys_mem_alloc envid va perm k = Ret r (set_pm s' k))
    by (intros s' r; by apply (sys_mem_alloc_run k c envid va perm e d)).
  unfold sys_mem_alloc in Heq. rewrite Hill in Heq.
  destruct (alloc_insert_run boot D fl (pm k) d va (env_asid (envs k e)) (Z.lor perm PTE_U) I Hb Hd
    Hva (user_perm _ Hperm)) as [(p & s' & fl' & Hrun & I' & Hp & Hm & Ho & Hr)|
    (Hlen & s' & fl' & Hrun & I' & Ho)].
  - left. exists p, s', fl'. split; [by apply Heq|]. split_and!; try done.
    rewrite Hr. rewrite decide_False; [done|]. by eapply free_not_mapped.
  - right. split; [done|]. exists s', fl'. split; [by apply Heq|]. by split.
Qed.

(** The example machine's environment 0 asks for a page. *)
Lemma ex_live_spaces : spaces ex_live [ex_dir].
Proof.
  intros envid e Ht. destruct (target_spec ex_live envid true 0 e eq_refl Ht)
    as [[_ ->]|(Hne & He & Hs & Hid & _)].
  - exists ex_dir. split; [by apply elem_of_cons; left|done].
  - exfalso. apply Hne. rewrite <- Hid. unfold ex_live, ex_kst, ex_env.
    cbn [envs set_env_free_list set_envs]. rewrite upd_case. case_decide; [done|].
    repeat (destruct (_ =? _)); done.
Qed.

Lemma sys_mem_alloc_correct_witness :
  if is_illegal_va 0x400000 then sys_mem_alloc 0 0x400000 PTE_W ex_live = Ret (- E_INVAL) ex_live
  else
    match target ex_live 0 true with
    | None => sys_mem_alloc 0 0x400000 PTE_W ex_live = Ret (- E_BAD_ENV) ex_live
    | Some e =>
        exists d, d ∈ [ex_dir] /\ env_pgdir (envs ex_live e) = page2pa d /\
        ((exists p s' fl', sys_mem_alloc 0 0x400000 PTE_W ex_live = Ret 0 (set_pm s' ex_live) /\
            pm_inv ex_refs [ex_dir] fl' s' /\ p ∈ ex_free /\
            mapped_as s' d 0x400000 p (Z.lor PTE_W PTE_U) /\
            others_same (pm ex_live) s' [ex_dir] d 0x400000 /\ pp_ref s' p = 1) \/
         ((length ex_free <= 1)%nat /\ exists s' fl',
            sys_mem_alloc 0 0x400000 PTE_W ex_live = Ret (- E_NO_MEM) (set_pm s' ex_live) /\
            pm_inv ex_refs [ex_dir] fl' s' /\
            forall d' va', d' ∈ [ex_dir] -> PDX va' < NUPDE ->
              entry s' d' va' = entry (pm ex_live) d' va'))
    end.
Proof.
  apply (sys_mem_alloc_correct ex_refs [ex_dir] ex_free ex_live 0).
  - exact ex_vm_inv.
  - exact ex_refs_nonneg.
  - done.
  - exact ex_live_spaces.
  - by vm_compute.
Defined.

(** Looking a user address up in the kernel state. *)
Lemma kpm_lookup boot D fl k d va :
  pm_inv boot D fl (pm k) -> d ∈ D -> PDX va < NUPDE ->
  exists a, kpm (page_lookup (page2pa d) va) k =
    Ret (match entry (pm k) d va with Some e => Some (epage e, a) | None => None end) k.
Proof.
  intros I Hd Hx. pose proof (lookup_ok _ _ _ _ I d va Hd Hx) as Hl. unfold entry in *.
  destruct (pte_addr (pm k) d va) as [a|]; [exists a|exists 0]; rewrite (kpm_same _ _ _ Hl);
    [by destruct (valid _)|done].
Qed.

(** Sharing the page mapped at one user address at another one. *)
Lemma share_run boot D fl s d va e d' va' asid perm :
  pm_inv boot D fl s -> (forall p, 0 <= boot p) -> d ∈ D -> PDX va < NUPDE ->
  entry s d va = Some e -> pp_ref s (epage e) < 2 ^ 16 - 1 ->
  d' ∈ D -> 0 <= va' < UTOP -> 0 <= perm < 1024 ->
  (exists s' fl', page_insert (page2pa d') asid (epage e) va' perm s = Ret 0 s' /\
     pm_inv boot D fl' s' /\ mapped_as s' d' va' (epage e) perm /\ others_same s s' D d' va') \/
  (page_insert (page2pa d') asid (epage e) va' perm s = Ret (- E_NO_MEM) s /\ fl = []).
Proof.
  intros I Hb Hd Hx He Hr Hd' Hva' Hperm.
  destruct (entry_mapped _ _ _ _ I d va e Hd Hx He) as (_ & _ & _ & _ & _ & Hp & Hu).
  destruct (mapped_ref _ _ _ _ I d va e Hd Hx Hb He) as [_ Hf].
  destruct (page_insert_inv boot D fl s d' va' asid (epage e) perm I Hb Hd' Hva')
    as [(s' & fl' & Hrun & [I' Hm Ho _])|(Hrun & ? & _)]; [by split|done| |by right].
  left. by exists s', fl'.
Qed.

(** C14. [sys_mem_map] on every branch, under the page invariant over the
    directories of all environments, for permissions below 1024 and pages with
    fewer than 65535 references: illegal addresses give [-E_INVAL], environments
    out of reach [-E_BAD_ENV], an unmapped source [-E_INVAL], all with the state
    unchanged; otherwise the page mapped at the source is now mapped at the
    destination with the requested permissions and PTE_U, and no other mapping
    changes, or, with no page for a table, [-E_NO_MEM] is returned and nothing
    changes.  The kernel checks neither bound, though the permissions come from
    the user: see [page_insert] and the findings at kern/pmap.c:264 and :263. *)
Theorem sys_mem_map_correct boot D fl k c srcid srcva dstid dstva perm :
  pm_inv boot D fl (pm k) -> (forall p, 0 <= boot p) -> curenv k = Some c -> spaces k D ->
  0 <= perm < 1024 -> (forall p, is_page (pm k) p -> pp_ref (pm k) p < 2 ^ 16 - 1) ->
  let run := sys_mem_map srcid srcva dstid dstva perm k in
  if is_illegal_va srcva || is_illegal_va dstva then run = Ret (- E_INVAL) k
  else
    match target k srcid true, target k dstid true with
    | Some es, Some ed =>
        exists ds dd, ds ∈ D /\ env_pgdir (envs k es) = page2pa ds /\
          dd ∈ D /\ env_pgdir (envs k ed) = page2pa dd /\
          match mapped_page (pm k) ds srcva with
          | None => run = Ret (- E_INVAL) k
          | Some p =>
              (exists s' fl', run = Ret 0 (set_pm s' k) /\ pm_inv boot D fl' s' /\
                 mapped_as s' dd dstva p (Z.lor perm PTE_U) /\
                 others_same (pm k) s' D dd dstva) \/
              (run = Ret (- E_NO_MEM) k /\ fl = [])
          end
    | _, _ => run = Ret (- E_BAD_ENV) k
    end.
Proof.
  intros I Hb Hc Hsp Hperm Href run. remember run as o eqn:Ho. subst run.
  unfold sys_mem_map in Ho.
  destruct (is_illegal_va srcva) eqn:Hs; [done|]. destruct (is_illegal_va dstva) eqn:Hdv; [done|].
  apply legal_user in Hs, Hdv. destruct (user_PDX srcva Hs) as [Hx _]. cbn [orb] in Ho |- *.
  unfold try_z in Ho.
  destruct (target k srcid true) as [es|] eqn:Hts.
  2: { by rewrite (envid2env_fail _ _ _ _ _ Hc Hts) in Ho. }
  rewrite (envid2env_step _ _ _ _ _ _ Hc Hts) in Ho.
  destruct (target k dstid true) as [ed|] eqn:Htd.
  2: { by rewrite (envid2env_fail _ _ _ _ _ Hc Htd) in Ho. }
  rewrite (envid2env_step _ _ _ _ _ _ Hc Htd) in Ho.
  destruct (Hsp _ _ Hts) as (ds & Hds & Hps). destruct (Hsp _ _ Htd) as (dd & Hdd & Hpd).
  exists ds, dd. split_and!; try done.
  rewrite (bind_step _ _ _ _ _ (deref_run _ _)) in Ho.
  rewrite (bind_step _ _ _ _ _ (eq_refl : get k = Ret k k)) in Ho. rewrite Hps in Ho.
  destruct (kpm_lookup boot D fl k ds srcva I Hds Hx) as (a & Hl).
  rewrite (bind_step _ _ _ _ _ Hl) in Ho. unfold mapped_page.
  destruct (entry (pm k) ds srcva) as [e|] eqn:He; cbn [fmap option_fmap option_map]; [|done].
  rewrite (bind_step _ _ _ _ _ (deref_run _ _)), Hpd in Ho.
  destruct (entry_mapped _ _ _ _ I ds srcva e Hds Hx He) as (_ & _ & _ & _ & _ & Hp & _).
  destruct (share_run boot D fl (pm k) ds srcva e dd dstva (env_asid (envs k ed))
    (Z.lor perm PTE_U) I Hb Hds Hx He (Href _ Hp) Hdd Hdv (user_perm _ Hperm))
    as [(s' & fl' & Hrun & I' & Hm & Hoth)|[Hrun Hfl]].
  - left. exists s', fl'. split_and!; try done. rewrite Ho. by apply kpm_ret.
  - right. split; [|done]. rewrite Ho. by apply kpm_same.
Qed.

Lemma ex_vm_refs p : is_page ex_vm p -> pp_ref ex_vm p < 2 ^ 16 - 1.
Proof.
  intros Hp. rewrite (inv_ref _ _ _ _ ex_vm_inv) by done.
  assert (Hs : slots ex_vm [ex_dir] = []) by (by vm_compute). rewrite Hs.
  pose proof (owns_range ([ex_dir] ++ tables ex_vm [ex_dir]) p).
  unfold ex_refs, boot_refs. cbn [cnt foldr]. destruct (p <? n_used ex_raw); lia.
Qed.

Lemma ex_live_refs p : is_page (pm ex_live) p -> pp_ref (pm ex_live) p < 2 ^ 16 - 1.
Proof. exact (ex_vm_refs p). Qed.

Lemma sys_mem_map_correct_witness :
  let run := sys_mem_map 0 0x400000 0 0x500000 PTE_W ex_live in
  if is_illegal_va 0x400000 || is_illegal_va 0x500000 then run = Ret (- E_INVAL) ex_live
  else
    match target ex_live 0 true, target ex_live 0 true with
    | Some es, Some ed =>
        exists ds dd, ds ∈ [ex_dir] /\ env_pgdir (envs ex_live es) = page2pa ds /\
          dd ∈ [ex_dir] /\ env_pgdir (envs ex_live ed) = page2pa dd /\
          match mapped_page (pm ex_live) ds 0x400000 with
          | None => run = Ret (- E_INVAL) ex_live
          | Some p =>
              (exists s' fl', run = Ret 0 (set_pm s' ex_live) /\ pm_inv ex_refs [ex_dir] fl' s' /\
                 mapped_as s' dd 0x500000 p (Z.lor PTE_W PTE_U) /\
                 others_same (pm ex_live) s' [ex_dir] dd 0x500000) \/
              (run = Ret (- E_NO_MEM) ex_live /\ ex_free = [])
          end
    | _, _ => run = Ret (- E_BAD_ENV) ex_live
    end.
Proof.
  apply (sys_mem_map_correct ex_refs [ex_dir] ex_free ex_live 0).
  - exact ex_vm_inv.
  - exact ex_refs_nonneg.
  - done.
  - exact ex_live_spaces.
  - by vm_compute.
  - exact ex_live_refs.
Defined.

(** ** Scheduling state *)

(** [sched_inv] depends on the queue, the statuses and the priorities only. *)
Lemma sched_inv_frame k k' q :
  sched_inv k q -> env_sched_list k' = env_sched_list k -> curenv k' = curenv k ->
  sched_count k' = sched_count k ->
  (forall e, env_status (envs k' e) = env_status (envs k e) /\
             env_pri (envs k' e) = env_pri (envs k e)) ->
  sched_inv k' q.
Proof.
  intros [Hr Hq Hp Hc Hn] Hs Hcur Hcnt He. split.
  - by rewrite Hs.
  - intros e. rewrite Hq. by destruct (He e) as [-> _].
  - intros e Hin. destruct (He e) as [_ ->]. by apply Hp.
  - intros c. rewrite Hcur. apply Hc.
  - by rewrite Hcnt.
Qed.

(** Environment [e] leaves the queue. *)
Lemma sched_inv_block k k' q q' e :
  sched_inv k q -> env_status (envs k' e) <> ENV_RUNNABLE ->
  tailq_rep (env_sched_list k') q' -> (forall x, x ∈ q' <-> x ∈ q /\ x <> e) ->
  curenv k' = curenv k -> sched_count k' = sched_count k ->
  (forall x, x <> e -> env_status (envs k' x) = env_status (envs k x) /\
                       env_pri (envs k' x) = env_pri (envs k x)) ->
  sched_inv k' q'.
Proof.
  intros [Hr Hq Hp Hc Hn] Hst Hr' Hq' Hcur Hcnt He. split.
  - done.
  - intros x. rewrite Hq', Hq. destruct (decide (x = e)) as [->|Hne]; [tauto|].
    destruct (He x Hne) as [-> _]. tauto.
  - intros x [Hin Hne]%Hq'. destruct (He x Hne) as [_ ->]. by apply Hp.
  - intros c. rewrite Hcur. apply Hc.
  - by rewrite Hcnt.
Qed.

(** Environment [e] joins it. *)
Lemma sched_inv_wake k k' q q' e :
  sched_inv k q -> 0 <= e < NENV -> env_status (envs k' e) = ENV_RUNNABLE ->
  1 <= env_pri (envs k' e) < 2 ^ 31 ->
  tailq_rep (env_sched_list k') q' -> (forall x, x ∈ q' <-> x ∈ q \/ x = e) ->
  curenv k' = curenv k -> sched_count k' = sched_count k ->
  (forall x, x <> e -> env_status (envs k' x) = env_status (envs k x) /\
                       env_pri (envs k' x) = env_pri (envs k x)) ->
  sched_inv k' q'.
Proof.
  intros [Hr Hq Hp Hc Hn] Hrange Hst Hpri Hr' Hq' Hcur Hcnt He. split.
  - done.
  - intros x. rewrite Hq', Hq. destruct (decide (x = e)) as [->|Hne]; [tauto|].
    destruct (He x Hne) as [-> _]. tauto.
  - intros x [Hin| ->]%Hq'; [|done]. destruct (decide (x = e)) as [->|Hne]; [done|].
    destruct (He x Hne) as [_ ->]. by apply Hp.
  - intros c. rewrite Hcur. apply Hc.
  - by rewrite Hcnt.
Qed.

Lemma remove_run k q e :
  tailq_rep (env_sched_list k) q -> e ∈ q ->
  exists qs, sched_op (TAILQ_REMOVE e) k = Ret tt (set_env_sched_list qs k) /\
    tailq_rep qs (filter (.≠ e) q).
Proof.
  intros Hr (l1 & l2 & ->)%list_elem_of_split.
  destruct (tailq_remove _ _ e l1 l2 Hr eq_refl) as (qs & Hq & Hr' & _).
  exists qs. split; [by apply sched_op_ok|]. by rewrite (filter_ne_mid _ _ _ (proj1 Hr)).
Qed.

Lemma insert_run k q e :
  tailq_rep (env_sched_list k) q -> e ∉ q ->
  exists qs, sched_op (TAILQ_INSERT_TAIL e) k = Ret tt (set_env_sched_list qs k) /\
    tailq_rep qs (q ++ [e]).
Proof.
  intros Hr He. destruct (tailq_insert_tail _ _ e Hr He) as (qs & Hq & Hr' & _).
  exists qs. split; [by apply sched_op_ok|done].
Qed.

Lemma elem_of_filter_ne e (q : list Z) x : x ∈ filter (.≠ e) q <-> x ∈ q /\ x <> e.
Proof. rewrite list_elem_of_filter. tauto. Qed.

Lemma elem_of_snoc e (q : list Z) x : x ∈ q ++ [e] <-> x ∈ q \/ x = e.
Proof. by rewrite elem_of_app, list_elem_of_singleton. Qed.

Lemma target_range k q envid cp c e :
  sched_inv k q -> curenv k = Some c -> target k envid cp = Some e -> 0 <= e < NENV.
Proof.
  intros I Hc Ht. destruct (target_spec _ _ _ _ _ Hc Ht) as [[_ ->]|(_ & -> & _)].
  - by apply (si_cur _ _ I).
  - apply ENVX_range.
Qed.

(** The queue after the status of [e] is set to [status]. *)
Definition requeue (q : list Z) (e status : Z) : list Z :=
  if bool_decide (e ∈ q) then if status =? ENV_RUNNABLE then q else filter (.≠ e) q
  else if status =? ENV_RUNNABLE then q ++ [e] else q.

Definition set_status_body (k : kst) (e status : Z) : KM Z :=
  (if negb (env_status (envs k e) =? status) then
     if status =? ENV_RUNNABLE then sched_op (TAILQ_INSERT_TAIL e)
     else sched_op (TAILQ_REMOVE e)
   else ret tt) ;!
  upd_env e (set_env_status status) ;!
  ret 0.

Definition set_status_post (k k' : kst) (q : list Z) (e status : Z) : Prop :=
  env_status (envs k' e) = status /\ sched_inv k' (requeue q e status) /\
  (forall x, x <> e -> envs k' x = envs k x) /\ pm k' = pm k.

Lemma set_runnable_run k q e :
  sched_inv k q -> 0 <= e < NENV -> 1 <= env_pri (envs k e) < 2 ^ 31 ->
  exists k', set_status_body k e ENV_RUNNABLE k = Ret 0 k' /\
    set_status_post k k' q e ENV_RUNNABLE.
Proof.
  intros I He Hpri. pose proof (si_run _ _ I e) as Hq.
  unfold set_status_body, set_status_post, requeue. rewrite Z.eqb_refl.
  destruct (Z.eqb_spec (env_status (envs k e)) ENV_RUNNABLE) as [Hs|Hs]; cbn [negb].
  - rewrite bind_ret_l, (bind_step _ _ _ _ _ (upd_env_run _ _ _)).
    eexists. split; [reflexivity|]. rewrite bool_decide_eq_true_2 by tauto.
    cbn [envs set_envs pm]. rewrite upd_same.
    split_and!; [done| |intros x Hx; by apply upd_other|done].
    apply (sched_inv_frame k); try done. intros x. cbn. rewrite upd_case.
    destruct (decide (x = e)) as [->|]; done.
  - assert (Hni : e ∉ q) by tauto.
    destruct (insert_run k q e (si_rep _ _ I) Hni) as (qs & Hop & Hr).
    rewrite (bind_step _ _ _ _ _ Hop), (bind_step _ _ _ _ _ (upd_env_run _ _ _)).
    eexists. split; [reflexivity|]. rewrite bool_decide_eq_false_2 by done.
    cbn [envs set_envs pm set_env_sched_list]. rewrite upd_same.
    split_and!; [done| |intros x Hx; by apply upd_other|done].
    apply (sched_inv_wake k _ q _ e); try done; cbn.
    + by rewrite upd_same.
    + by rewrite upd_same.
    + intros x. apply elem_of_snoc.
    + intros x Hx. by rewrite upd_other.
Qed.

Lemma set_blocked_run k q e :
  sched_inv k q -> 0 <= e < NENV ->
  env_status (envs k e) = ENV_RUNNABLE \/ env_status (envs k e) = ENV_NOT_RUNNABLE ->
  exists k', set_status_body k e ENV_NOT_RUNNABLE k = Ret 0 k' /\
    set_status_post k k' q e ENV_NOT_RUNNABLE.
Proof.
  intros I He Hst. pose proof (si_run _ _ I e) as Hq.
  unfold set_status_body, set_status_post, requeue.
  change (ENV_NOT_RUNNABLE =? ENV_RUNNABLE) with false. cbv iota.
  destruct (Z.eqb_spec (env_status (envs k e)) ENV_NOT_RUNNABLE) as [Hs|Hs]; cbn [negb].
  - rewrite bind_ret_l, (bind_step _ _ _ _ _ (upd_env_run _ _ _)).
    eexists. split; [reflexivity|].
    rewrite bool_decide_eq_false_2 by (rewrite Hq, Hs; by intros [_ H]).
    cbn [envs set_envs pm]. rewrite upd_same.
    split_and!; [done| |intros x Hx; by apply upd_other|done].
    apply (sched_inv_frame k); try done. intros x. cbn. rewrite upd_case.
    destruct (decide (x = e)) as [->|]; done.
  - destruct Hst as [Hst|]; [|done]. assert (Hin : e ∈ q) by tauto.
    destruct (remove_run k q e (si_rep _ _ I) Hin) as (qs & Hop & Hr).
    rewrite (bind_step _ _ _ _ _ Hop), (bind_step _ _ _ _ _ (upd_env_run _ _ _)).
    eexists. split; [reflexivity|]. rewrite bool_decide_eq_true_2 by done.
    cbn [envs set_envs pm set_env_sched_list]. rewrite upd_same.
    split_and!; [done| |intros x Hx; by apply upd_other|done].
    apply (sched_inv_block k _ q _ e); try done; cbn.
    + by rewrite upd_same.
    + intros x. apply elem_of_filter_ne.
    + intros x Hx. by rewrite upd_other.
Qed.

(** [sys_set_env_status]: a status other than RUNNABLE and NOT_RUNNABLE
    gives [-E_INVAL], an environment out of reach [-E_BAD_ENV]; otherwise the
    status is set, the environment joins the tail of the queue, leaves it or
    keeps its place according to its old and new status, and the queue again
    holds exactly the RUNNABLE environments. *)
Lemma sys_set_env_status_correct k q c envid status :
  sched_inv k q -> curenv k = Some c ->
  (forall e, target k envid true = Some e -> 1 <= env_pri (envs k e) < 2 ^ 31 /\
     (env_status (envs k e) = ENV_RUNNABLE \/ env_status (envs k e) = ENV_NOT_RUNNABLE)) ->
  if (status =? ENV_RUNNABLE) || (status =? ENV_NOT_RUNNABLE) then
    match target k envid true with
    | None => sys_set_env_status envid status k = Ret (- E_BAD_ENV) k
    | Some e => exists k', sys_set_env_status envid status k = Ret 0 k' /\
        env_status (envs k' e) = status /\ sched_inv k' (requeue q e status) /\
        (forall x, x <> e -> envs k' x = envs k x) /\ pm k' = pm k
    end
  else sys_set_env_status envid status k = Ret (- E_INVAL) k.
Proof.
  intros I Hc Hok. remember (sys_set_env_status envid status k) as o eqn:Ho.
  unfold sys_set_env_status in Ho. rewrite <- negb_orb in Ho.
  destruct ((status =? ENV_RUNNABLE) || (status =? ENV_NOT_RUNNABLE)) eqn:Hval; [|done].
  cbn [negb] in Ho. unfold try_z in Ho. destruct (target k envid true) as [e|] eqn:Ht.
  2: { by rewrite (envid2env_fail _ _ _ _ _ Hc Ht) in Ho. }
  rewrite (envid2env_step _ _ _ _ _ _ Hc Ht), (bind_step _ _ _ _ _ (deref_run _ _)) in Ho.
  rewrite (bind_step _ _ _ _ _ (eq_refl : get k = Ret k k)) in Ho.
  pose proof (target_range _ _ _ _ _ _ I Hc Ht) as He. destruct (Hok e eq_refl) as [Hp Hs].
  apply orb_true_iff in Hval as [->%Z.eqb_eq| ->%Z.eqb_eq].
  - destruct (set_runnable_run k q e I He Hp) as (k' & Hrun & Hpost).
    exists k'. split; [by rewrite Ho|exact Hpost].
  - destruct (set_blocked_run k q e I He Hs) as (k' & Hrun & Hpost).
    exists k'. split; [by rewrite Ho|exact Hpost].
Qed.

Lemma sys_set_env_status_correct_witness :
  if (ENV_NOT_RUNNABLE =? ENV_RUNNABLE) || (ENV_NOT_RUNNABLE =? ENV_NOT_RUNNABLE) then
    match target ex_kst 0 true with
    | None => sys_set_env_status 0 ENV_NOT_RUNNABLE ex_kst = Ret (- E_BAD_ENV) ex_kst
    | Some e => exists k', sys_set_env_status 0 ENV_NOT_RUNNABLE ex_kst = Ret 0 k' /\
        env_status (envs k' e) = ENV_NOT_RUNNABLE /\
        sched_inv k' (requeue [0; 1; 2] e ENV_NOT_RUNNABLE) /\
        (forall x, x <> e -> envs k' x = envs ex_kst x) /\ pm k' = pm ex_kst
    end
  else sys_set_env_status 0 ENV_NOT_RUNNABLE ex_kst = Ret (- E_INVAL) ex_kst.
Proof.
  apply (sys_set_env_status_correct ex_kst [0; 1; 2] 0).
  - exact ex_kst_inv.
  - done.
  - intros e [= <-]. split; [by vm_compute|by left].
Defined.

(** ** Inter-process communication *)
Lemma run_envs_ipc e k x :
  env_ipc_dstva (run_envs e k x) = env_ipc_dstva (envs k x) /\
  env_ipc_value (run_envs e k x) = env_ipc_value (envs k x) /\
  env_ipc_from (run_envs e k x) = env_ipc_from (envs k x) /\
  env_ipc_perm (run_envs e k x) = env_ipc_perm (envs k x).
Proof.
  unfold run_envs, saved_envs. destruct (curenv k) as [c|]; repeat (rewrite upd_case);
    repeat case_decide; simplify_eq; cbn; rewrite ?upd_same; cbn; try done;
    repeat (rewrite upd_other by congruence); done.
Qed.

(** The environment [c] as it waits for a message at [dstva]. *)
Definition waiting (k : kst) (c dstva : Z) : Prop :=
  env_status (envs k c) = ENV_NOT_RUNNABLE /\ env_ipc_recving (envs k c) = 1 /\
  env_ipc_dstva (envs k c) = dstva.

Lemma recv_prefix k q c dstva :
  sched_inv k q -> curenv k = Some c -> c ∈ q ->
  exists k1, (forall K : KM Z, (upd_env c (set_env_ipc_recving 1) ;!
      upd_env c (set_env_ipc_dstva dstva) ;!
      upd_env c (set_env_status ENV_NOT_RUNNABLE) ;!
      sched_op (TAILQ_REMOVE c) ;!
      modify (fun k => set_kstack (set_reg 10 0 (kstack k)) k) ;! K) k = K k1) /\
    sched_inv k1 (filter (.≠ c) q) /\ curenv k1 = Some c /\ waiting k1 c dstva /\
    kstack k1 = set_reg 10 0 (kstack k) /\ (forall x, x <> c -> envs k1 x = envs k x).
Proof.
  intros I Hc Hin.
  set (ev := upd (upd (upd (envs k) c (set_env_ipc_recving 1 (envs k c))) c
    (set_env_ipc_dstva dstva (upd (envs k) c (set_env_ipc_recving 1 (envs k c)) c))) c
    (set_env_status ENV_NOT_RUNNABLE (upd (upd (envs k) c (set_env_ipc_recving 1 (envs k c))) c
    (set_env_ipc_dstva dstva (upd (envs k) c (set_env_ipc_recving 1 (envs k c)) c)) c))).
  destruct (remove_run (set_envs ev k) q c (si_rep _ _ I) Hin) as (qs & Hop & Hr).
  eexists. split.
  { intros K. do 3 rewrite (bind_step _ _ _ _ _ (upd_env_run _ _ _)).
    etransitivity; [exact (bind_step (sched_op (TAILQ_REMOVE c)) _ (set_envs ev k) _ _ Hop)|].
    reflexivity. }
  cbn [env_sched_list set_kstack set_env_sched_list set_envs envs curenv kstack].
  assert (Hev : forall x, x <> c -> ev x = envs k x)
    by (intros x Hx; unfold ev; by rewrite !upd_other).
  split_and!; try done.
  - apply (sched_inv_block k _ q _ c); try done; cbn.
    + unfold ev. by rewrite upd_same.
    + intros x. apply elem_of_filter_ne.
    + intros x Hx. by rewrite Hev.
  - unfold waiting. cbn. unfold ev. by rewrite !upd_same.
Qed.

(** [sys_ipc_recv] with a destination that is 0 or legal never returns:
    the caller waits at [dstva], out of the queue, with its saved a0 set to 0
    for the moment it is resumed, and the next queued environment runs; with
    nobody else runnable the kernel panics.  An illegal destination gives
    [-E_INVAL] with nothing changed. *)
Lemma sys_ipc_recv_correct k q c dstva :
  sched_inv k q -> curenv k = Some c -> c ∈ q ->
  if negb (dstva =? 0) && is_illegal_va dstva then sys_ipc_recv dstva k = Ret (- E_INVAL) k
  else
    match filter (.≠ c) q with
    | [] => exists msg k', sys_ipc_recv dstva k = Panic msg k'
    | e :: _ => exists k', sys_ipc_recv dstva k = Noret k' /\ curenv k' = Some e /\
        sched_inv k' (filter (.≠ c) q) /\ waiting k' c dstva /\
        env_tf (envs k' c) = set_reg 10 0 (kstack k) /\ cpu k' = env_tf (envs k e)
    end.
Proof.
  intros I Hc Hin. remember (sys_ipc_recv dstva k) as o eqn:Ho. unfold sys_ipc_recv in Ho.
  destruct (negb (dstva =? 0) && is_illegal_va dstva); [done|].
  rewrite (bind_step _ _ _ _ _ (get_curenv_run _ _ Hc)) in Ho.
  destruct (recv_prefix k q c dstva I Hc Hin) as (k1 & Hrun & I1 & Hc1 & Hw & Hk & Hoth).
  rewrite Hrun in Ho. pose proof (@schedule_eq k1 _ I1 Z true) as Hs.
  unfold astep in Hs. cbn [abs a_queue a_cur a_count orb] in Hs. rewrite Hc1 in Hs.
  rewrite (bool_decide_eq_false_2 (c ∈ filter _ _)) in Hs
    by (rewrite elem_of_filter_ne; by intros [_ ?]).
  destruct (filter (.≠ c) q) as [|e q1] eqn:Hq.
  { destruct Hs as (msg & Hs). exists msg, k1. by rewrite Ho. }
  destruct Hs as (qs & e' & Hs & He & Hein & Hr & Hqq & Hn). cbn [a_cur a_queue a_count] in *.
  injection He as <-.
  assert (Hec : e <> c).
  { assert (Hef : e ∈ filter (.≠ c) q) by (rewrite Hq; by apply elem_of_cons; left).
    by apply (elem_of_filter_ne c q e) in Hef as [_ ?]. }
  destruct (run_from_inv k1 _ I1 qs (e :: q1) e _ Hr Hqq Hein Hn) as [I' Ha].
  set (k2 := set_sched_count (env_pri (envs k1 e) - 1) (set_env_sched_list qs k1)) in *.
  destruct (run_envs_fields e k2 c) as (Hst & _ & _ & _ & _ & _ & Hrc & Htf).
  destruct (run_envs_ipc e k2 c) as (Hdv & _).
  destruct (run_envs_fields e k2 e) as (_ & _ & _ & _ & _ & _ & _ & Htf2).
  change (curenv k2) with (curenv k1) in Htf, Htf2. rewrite Hc1 in Htf, Htf2.
  rewrite decide_True in Htf by done. rewrite decide_False in Htf2 by congruence.
  destruct Hw as (Hw1 & Hw2 & Hw3).
  eexists. split; [rewrite Ho; exact Hs|]. split_and!; [done|exact I'| | |].
  - unfold waiting, run_from. fold k2. cbn [envs run_state set_cpu set_pm set_curenv set_envs].
    rewrite Hst, Hrc, Hdv. by split_and!.
  - change (env_tf (run_envs e k2 c) = set_reg 10 0 (kstack k)). by rewrite Htf, <- Hk.
  - change (env_tf (run_envs e k2 e) = env_tf (envs k e)). rewrite Htf2.
    change (envs k2 e) with (envs k1 e). by rewrite Hoth.
Qed.

Lemma sys_ipc_recv_correct_witness :
  if negb (0x400000 =? 0) && is_illegal_va 0x400000
  then sys_ipc_recv 0x400000 ex_kst = Ret (- E_INVAL) ex_kst
  else
    match filter (.≠ 0) [0; 1; 2] with
    | [] => exists msg k', sys_ipc_recv 0x400000 ex_kst = Panic msg k'
    | e :: _ => exists k', sys_ipc_recv 0x400000 ex_kst = Noret k' /\ curenv k' = Some e /\
        sched_inv k' (filter (.≠ 0) [0; 1; 2]) /\ waiting k' 0 0x400000 /\
        env_tf (envs k' 0) = set_reg 10 0 (kstack ex_kst) /\ cpu k' = env_tf (envs ex_kst e)
    end.
Proof.
  apply sys_ipc_recv_correct.
  - exact ex_kst_inv.
  - done.
  - by apply (bool_decide_unpack _).
Defined.

(** The message as [e] finds it, the rest of [e] and everyone else as before. *)
Record delivered (k k' : kst) (c e value perm : Z) : Prop := {
  dl_value : env_ipc_value (envs k' e) = value;
  dl_from : env_ipc_from (envs k' e) = env_id (envs k c);
  dl_perm : env_ipc_perm (envs k' e) = Z.lor (Z.lor (Z.lor PTE_U PTE_R) PTE_V) perm;
  dl_recving : env_ipc_recving (envs k' e) = 0;
  dl_status : env_status (envs k' e) = ENV_RUNNABLE;
  dl_dst : env_ipc_dstva (envs k' e) = env_ipc_dstva (envs k e);
  dl_space : env_pgdir (envs k' e) = env_pgdir (envs k e) /\
             env_asid (envs k' e) = env_asid (envs k e);
  dl_tf : env_tf (envs k' e) = env_tf (envs k e) /\ env_pri (envs k' e) = env_pri (envs k e);
  dl_others : forall x, x <> e -> envs k' x = envs k x
}.

Lemma send_prefix k q c e value perm :
  sched_inv k q -> 0 <= e < NENV -> env_status (envs k e) = ENV_NOT_RUNNABLE ->
  1 <= env_pri (envs k e) < 2 ^ 31 ->
  exists k1, (forall K : KM Z, (upd_env e (set_env_ipc_value value) ;!
      upd_env e (set_env_ipc_from (env_id (envs k c))) ;!
      upd_env e (set_env_ipc_perm (Z.lor (Z.lor (Z.lor PTE_U PTE_R) PTE_V) perm)) ;!
      upd_env e (set_env_ipc_recving 0) ;!
      upd_env e (set_env_status ENV_RUNNABLE) ;!
      sched_op (TAILQ_INSERT_TAIL e) ;! K) k = K k1) /\
    sched_inv k1 (q ++ [e]) /\ delivered k k1 c e value perm /\ pm k1 = pm k /\
    curenv k1 = curenv k.
Proof.
  intros I He Hst Hpri. assert (Hni : e ∉ q) by (rewrite (si_run _ _ I), Hst; by intros [_ H]).
  set (run := fun K : KM Z => (upd_env e (set_env_ipc_value value) ;!
      upd_env e (set_env_ipc_from (env_id (envs k c))) ;!
      upd_env e (set_env_ipc_perm (Z.lor (Z.lor (Z.lor PTE_U PTE_R) PTE_V) perm)) ;!
      upd_env e (set_env_ipc_recving 0) ;!
      upd_env e (set_env_status ENV_RUNNABLE) ;! K) k).
  assert (Hrun : exists k0, (forall K, run K = K k0) /\ delivered k k0 c e value perm /\
    pm k0 = pm k /\ curenv k0 = curenv k /\ env_sched_list k0 = env_sched_list k /\
    sched_count k0 = sched_count k).
  { eexists. split; [intros K; reflexivity|]. split_and!; try done.
    split; cbn [envs set_envs]; rewrite ?upd_same; try done.
    intros x Hx. by rewrite !upd_other. }
  destruct Hrun as (k0 & Hrun & Hd & Hp & Hc & Hs & Hn).
  assert (Hr0 : tailq_rep (env_sched_list k0) q) by (rewrite Hs; apply (si_rep _ _ I)).
  destruct (insert_run k0 q e Hr0 Hni) as (qs & Hop & Hr).
  exists (set_env_sched_list qs k0). split_and!; try done.
  - intros K. specialize (Hrun (sched_op (TAILQ_INSERT_TAIL e) ;! K)). unfold run in Hrun.
    rewrite Hrun. by rewrite (bind_step _ _ _ _ _ Hop).
  - apply (sched_inv_wake k _ q _ e); try done; cbn.
    + apply (dl_status _ _ _ _ _ _ Hd).
    + destruct (dl_tf _ _ _ _ _ _ Hd) as [_ ->]. done.
    + intros x. apply elem_of_snoc.
    + intros x Hx. by rewrite (dl_others _ _ _ _ _ _ Hd).
  - by destruct Hd; split.
Qed.


(** Environment 4 waits for a page at 0x500000. *)
Definition ex_wait : kst :=
  set_envs (upd (envs ex_live) 4
    (mkEnv ex_tf 0x1804 1 0 ENV_NOT_RUNNABLE (page2pa ex_dir) 1 0 0 1 0x500000 0 0 0)) ex_live.

Lemma ex_wait_inv : sched_inv ex_wait [0; 1; 2].
Proof.
  apply (sched_inv_block ex_kst _ [0; 1; 2] _ 4); try done.
  - exact ex_kst_inv.
  - exact (si_rep _ _ ex_kst_inv).
  - intros x. rewrite !elem_of_cons, elem_of_nil. lia.
  - intros x Hx. unfold ex_wait, ex_live.
    cbn [envs set_envs set_env_free_list]. rewrite upd_other by done. rewrite upd_case.
    destruct (decide (x = 0)) as [->|]; done.
Qed.

