(* ===== verification/Traps.v ===== *)
(** * Exceptions and interrupts (kern/traps.c, kern/trapentry.S)

    [trap] is one trap from user mode: the entry code saves the interrupted
    context in the frame below [KSTACKTOP], [traps_dispatch] runs, and, when
    it returns, the frame is restored. *)
From S2P Require Import Prelude Queue Mmu Pmap UserMem Elf Env Sched Syscall.

(** include/riscv.h *)
Definition IRQ_S_TIMER : Z := 5.
Definition CAUSE_USER_ECALL : Z := 0x8.
Definition CAUSE_FAULT_FETCH : Z := 0xc.
Definition CAUSE_FAULT_LOAD : Z := 0xd.
Definition CAUSE_FAULT_STORE : Z := 0xf.
Definition SSTATUS_SIE : Z := 0x2.
Definition SSTATUS_SPP : Z := 0x100.

(** Programs the next timer event (kern/kclock.c, an SBI call). *)
Definition clock_set_next_event : KM unit := modify (fun k => set_timer_set (timer_set k + 1) k).
Definition clear_sstatus (bits : Z) : KM unit :=
  modify (fun k => set_sstatus (Z.land (sstatus k) (not32 bits)) k).

Definition interrupt_handler : KM unit :=
  let! k := get in
  let cause := Z.land (cause (kstack k)) 0x7FFFFFFF in
  if cause =? IRQ_S_TIMER then
    clock_set_next_event ;!
    (if cur_pgdir (pm k) =? 0 then clear_sstatus SSTATUS_SPP else ret tt) ;!
    schedule false
  else panic "unhandled intr".

Definition normal_page_fault : KM unit :=
  let! k := get in
  kpm (_do_tlb_refill (badvaddr (kstack k))
         (Z.shiftr (Z.land (csr_satp (pm k)) 0x7FFFFFFF) 22)).

(** [res] of [query_vpt]: the address of the entry asked for, if any. *)
Definition vpt_entry (pgdir va : Z) : KM (option Z) :=
  if (UVPT <=? va) && (va <? ULIM) then ret (Some (pgdir + 4 * PTX va))
  else if va <? UVPT then
    let! r := kpm (pgdir_walk pgdir va false) in
    ret (match r with OK p => p | Err _ => None end)
  else panic "trying to fetch kernel space vpt".

Definition query_vpt : KM unit :=
  let! k := get in
  let tf := kstack k in
  let! instr := kpm (user_lw (epc tf)) in
  (if negb (Z.land instr 0x7F =? 0x03) then panic "user querying vpt not using LW" else ret tt) ;!
  (if negb (Z.land (Z.shiftr instr 12) 0x7 =? 0x2) then panic "user querying vpt not using LW"
   else ret tt) ;!
  (if cur_pgdir (pm k) =? 0 then panic "cur_pgdir is NULL" else ret tt) ;!
  let va := u32 (Z.shiftl (badvaddr tf) 10) in
  let! res := vpt_entry (cur_pgdir (pm k)) va in
  let! v := (match res with Some a => kpm (ld a) | None => ret 0 end) in
  modify (fun k => set_kstack (set_reg (Z.land (Z.shiftr instr 7) 0x1F) v (kstack k)) k) ;!
  modify (fun k => set_kstack (set_epc (u32 (epc (kstack k) + 4)) (kstack k)) k).

(** Write [l] to consecutive words of user memory. *)
Fixpoint write_words (va : Z) (l : list Z) : PM unit :=
  match l with
  | [] => ret tt
  | w :: l => user_sw va w ;! write_words (u32 (va + 4)) l
  end.

Definition user_mod : KM unit :=
  let! k := get in
  let tmp_tf := kstack k in
  let sp := if (regs tmp_tf 2 <? USTACKTOP) || (UXSTACKTOP <=? regs tmp_tf 2)
            then UXSTACKTOP else regs tmp_tf 2 in
  let sp := u32 (sp - SIZEOF_TF) in
  modify (fun k => set_kstack (set_reg 2 sp (kstack k)) k) ;!
  kpm (write_words sp (words_of_tf tmp_tf)) ;!
  let! c := get_curenv in
  let! k := get in
  if truthy (env_user_tlb_mod_entry (envs k c)) then
    modify (fun k => set_kstack (set_reg 10 sp (kstack k)) k) ;!
    modify (fun k => set_kstack (set_epc (env_user_tlb_mod_entry (envs k c)) (kstack k)) k)
  else panic "TLB Mod but no user handler registered".

Section Dispatch.
Context (dev_read : Z -> Z) (void_ret : Z).

Definition exception_handler : KM unit :=
  let! k := get in
  let tf := kstack k in
  if cause tf =? CAUSE_FAULT_FETCH then panic "unknown instr"
  else if cause tf =? CAUSE_USER_ECALL then do_syscall dev_read void_ret
  else if cause tf =? CAUSE_FAULT_LOAD then
    if (UVPT <=? badvaddr tf) && (badvaddr tf <? ULIM) then query_vpt else normal_page_fault
  else if cause tf =? CAUSE_FAULT_STORE then
    let! r := kpm (pgdir_walk (cur_pgdir (pm k)) (badvaddr tf) false) in
    match r with
    | OK (Some tmp) =>
        let! e := kpm (ld tmp) in
        if truthy (Z.land e PTE_V) && negb (truthy (Z.land e PTE_W)) then user_mod
        else normal_page_fault
    | _ => normal_page_fault
    end
  else panic "unhandled exception".

Definition traps_dispatch : KM unit :=
  let! k := get in
  if 0x80000000 <=? cause (kstack k) then interrupt_handler else exception_handler.

(** [exc_gen_entry] and [ret_from_exception]. *)
Definition trap (scause sbadaddr : Z) : KM unit :=
  modify (fun k => set_kstack
    (mkTF (regs (cpu k)) (sstatus k) sbadaddr scause (epc (cpu k))) k) ;!
  traps_dispatch ;!
  modify (fun k => set_cpu (kstack k) k).
End Dispatch.
