(* ===== verification/Types.v ===== *)
(** * Types of the kernel's data

    C's types as predicates: a word is 32 bits, a reference count 16, a
    register holds a word, a [struct Page *] is a page of the machine and a
    [struct Env *] an element of [envs] (or the one after the last that
    [env_init] puts on the free list).  [well_typed] is the judgement that a
    computation preserves the types of the state and gives a value of its
    type, whatever way it ends; its rules follow the monad, and [typed] applies
    them.  The operations of the kernel are taken one by one. *)
From S2P Require Import Prelude Queue Mmu Pmap UserMem Elf Env Sched Syscall Traps.

(** ** The judgement *)
Definition well_typed {S A} (I : S -> Prop) (T : A -> Prop) (m : M S A) : Prop := forall s, I s ->
  match m s with
  | Ret a s' => T a /\ I s'
  | Panic _ s' => I s'
  | Noret s' => I s'
  | Fault => True
  end.

Definition any {A} (a : A) : Prop := True.

(** A result with an out parameter: a negative error code or a [T]. *)
Definition is_int (r : Z) : Prop := - 2 ^ 31 <= r < 2 ^ 32.
Definition res {A} (T : A -> Prop) (r : result A) : Prop :=
  match r with OK a => T a | Err e => is_int e end.
Definition opt {A} (T : A -> Prop) (o : option A) : Prop :=
  match o with Some a => T a | None => True end.

Section Rules.
Context {S : Type} (I : S -> Prop).

Lemma wt_weaken {A} (T T' : A -> Prop) (m : M S A) :
  well_typed I T m -> (forall a, T a -> T' a) -> well_typed I T' m.
Proof using. intros Hm HT s Hs. specialize (Hm s Hs). destruct (m s); naive_solver. Qed.

Lemma wt_ret {A} (T : A -> Prop) a : T a -> well_typed I T (ret a).
Proof using. by intros Ha s Hs. Qed.

Lemma wt_panic {A} (T : A -> Prop) msg : well_typed I T (panic msg).
Proof using. by intros s Hs. Qed.

Lemma wt_fault {A} (T : A -> Prop) : well_typed I T fault.
Proof using. by intros s Hs. Qed.

Lemma wt_noreturn {A} (T : A -> Prop) : well_typed I T noreturn.
Proof using. by intros s Hs. Qed.

Lemma wt_bind {A B} (T : A -> Prop) (U : B -> Prop) (m : M S A) k :
  well_typed I T m -> (forall a, T a -> well_typed I U (k a)) -> well_typed I U (bind m k).
Proof using.
  intros Hm Hk s Hs. specialize (Hm s Hs). unfold bind. destruct (m s) as [a s'|msg s'| |s']; try done.
  destruct Hm as [Ha Hs']. by apply Hk.
Qed.

Lemma wt_get {B} (U : B -> Prop) (k : S -> M S B) :
  (forall s, I s -> well_typed I U (k s)) -> well_typed I U (bind get k).
Proof using. intros Hk s Hs. by apply (Hk s Hs s). Qed.

Lemma wt_gets {A B} (U : B -> Prop) (f : S -> A) (k : A -> M S B) :
  (forall s, I s -> well_typed I U (k (f s))) -> well_typed I U (bind (gets f) k).
Proof using. intros Hk s Hs. by apply (Hk s Hs s). Qed.

Lemma wt_modify f : (forall s, I s -> I (f s)) -> well_typed I any (modify f).
Proof using. intros Hf s Hs. split; [done|by apply Hf]. Qed.

Lemma wt_c_assert b : well_typed I any (c_assert b).
Proof using. by destruct b; intros s Hs. Qed.

Lemma wt_panic_on r : well_typed I any (panic_on r).
Proof using. unfold panic_on. by destruct (r =? 0); intros s Hs. Qed.

Lemma wt_try_z {A} (T : A -> Prop) (m : M S (result A)) k :
  well_typed I (res T) m -> (forall a, T a -> well_typed I is_int (k a)) -> well_typed I is_int (try_z m k).
Proof using.
  intros Hm Hk. apply (wt_bind (res T)); [done|]. intros [a|e] Ha; [by apply Hk|by apply wt_ret].
Qed.

Lemma wt_try_res {A B} (T : A -> Prop) (U : B -> Prop) (m : M S (result A)) k :
  well_typed I (res T) m -> (forall a, T a -> well_typed I (res U) (k a)) -> well_typed I (res U) (try_res m k).
Proof using.
  intros Hm Hk. apply (wt_bind (res T)); [done|]. intros [a|e] Ha; [by apply Hk|by apply wt_ret].
Qed.

Lemma wt_try0 (m k : M S Z) : well_typed I is_int m -> well_typed I is_int k -> well_typed I is_int (try0 m k).
Proof using.
  intros Hm Hk. apply (wt_bind is_int); [done|]. intros r Hr. by destruct (r =? 0); [|apply wt_ret].
Qed.

Lemma wt_forM {A} (l : list A) body :
  (forall x, x ∈ l -> well_typed I any (body x)) -> well_typed I any (forM l body).
Proof using.
  induction l as [|x l IH]; intros Hb; cbn [forM]; [by apply wt_ret|].
  apply (wt_bind any); [apply Hb; by apply list_elem_of_here|]. intros _ _. apply IH.
  intros y Hy. apply Hb. by apply list_elem_of_further.
Qed.
End Rules.

Create HintDb typed discriminated.
#[export] Hint Resolve wt_panic wt_fault wt_noreturn wt_c_assert wt_panic_on : typed.
#[export] Hint Unfold any : typed.

(** One step of the judgement; what is left are values and state changes. *)
Ltac typed_step :=
  match goal with
  | H : res _ (OK _) |- _ => cbn [res] in H
  | H : res _ (Err _) |- _ => cbn [res] in H
  | H : opt _ (Some _) |- _ => cbn [opt] in H
  | |- well_typed _ _ (bind get _) => apply wt_get; intros ? ?
  | |- well_typed _ _ (bind (gets _) _) => apply wt_gets; intros ? ?
  | |- well_typed _ _ (let _ := _ in _) => cbv zeta
  | |- well_typed _ _ (ret _) => apply wt_ret
  | |- well_typed _ _ (bind (modify _) _) =>
      apply (wt_bind _ any); [apply wt_modify; intros ? ?|intros ? _]
  | |- well_typed _ _ (bind (forM _ _) _) => apply (wt_bind _ any); [apply wt_forM; intros ? ?|intros ? _]
  | |- well_typed _ _ (modify _) => apply wt_modify; intros ? ?
  | |- well_typed _ _ (forM _ _) => apply wt_forM; intros ? ?
  | |- well_typed _ _ (if ?b then _ else _) => destruct b
  | |- well_typed _ _ (match ?x with _ => _ end) => destruct x
  | |- well_typed _ _ (try_z _ _) => eapply wt_try_z; [solve [eauto with typed]|intros ? ?]
  | |- well_typed _ _ (try_res _ _) => eapply wt_try_res; [solve [eauto with typed]|intros ? ?]
  | |- well_typed _ _ (try0 _ _) => apply wt_try0
  | |- well_typed _ _ (bind (if _ then _ else _) _) => apply (wt_bind _ any); [|intros ? _]
  | |- well_typed _ _ (bind _ _) => eapply wt_bind; [solve [eauto with typed]|intros ? ?]
  | |- well_typed _ _ _ => solve [eauto with typed]
  | |- any _ => exact I
  | |- res _ (OK _) => cbn [res]
  | |- res _ (Err _) => cbn [res]
  | |- opt _ (Some _) => cbn [opt]
  | |- opt _ None => exact I
  | |- is_int _ => solve [eauto with typed]
  | |- is_u32 _ => solve [eauto with typed]
  end.
Ltac typed := repeat typed_step.

(** ** Words *)
Lemma word_u32 z : is_u32 (u32 z).
Proof. apply u32_range. Qed.

Lemma word_land_l a b : is_u32 a -> is_u32 (Z.land a b).
Proof.
  intros [H0 H1]. split; [apply Z.land_nonneg; by left|].
  destruct (decide (Z.land a b = 0)) as [->|Hne]; [done|].
  assert (0 <= Z.land a b) by (apply Z.land_nonneg; by left).
  apply Z.log2_lt_pow2; [lia|]. destruct (decide (a = 0)) as [->|]; [by rewrite Z.land_0_l in Hne|].
  destruct (Z.leb_spec 0 b) as [Hb|Hb].
  - pose proof (Z.log2_land a b H0 Hb). assert (Z.log2 a < 32) by (apply Z.log2_lt_pow2; lia). lia.
  - assert (Hm : Z.land a b = Z.land a (b mod 2 ^ 32)).
    { rewrite <- Z.land_ones, (Z.land_comm b), Z.land_assoc, Z.land_ones, Z.mod_small by lia. done. }
    rewrite Hm in *. pose proof (Z.mod_pos_bound b (2 ^ 32) ltac:(lia)).
    pose proof (Z.log2_land a (b mod 2 ^ 32) H0 ltac:(lia)).
    assert (Z.log2 a < 32) by (apply Z.log2_lt_pow2; lia). lia.
Qed.

Lemma word_lor a b : is_u32 a -> is_u32 b -> is_u32 (Z.lor a b).
Proof. apply (lor_lt_pow2 a b 32). lia. Qed.

Lemma word_not32 a : is_u32 (not32 a).
Proof. unfold is_u32, not32. pose proof (u32_range a). lia. Qed.

Lemma word_shiftr a n : is_u32 a -> 0 <= n -> is_u32 (Z.shiftr a n).
Proof.
  intros [H0 H1] Hn. rewrite Z.shiftr_div_pow2 by done. pose proof (Z.pow_pos_nonneg 2 n ltac:(lia) Hn).
  split; [by apply Z.div_pos; lia|]. apply Z.le_lt_trans with a; [|done].
  apply Z.div_le_upper_bound; nia.
Qed.

Lemma word_bit i : is_u32 (Z.shiftl 1 (Z.land i 31)).
Proof.
  change 31 with (Z.ones 5). rewrite Z.land_ones by lia.
  pose proof (Z.mod_pos_bound i (2 ^ 5) ltac:(lia)). rewrite shiftl_1_pow by lia.
  split; [apply Z.pow_nonneg; lia|apply Z.pow_lt_mono_r; lia].
Qed.

Lemma int_word z : is_u32 z -> is_int z.
Proof. unfold is_u32, is_int. lia. Qed.

Lemma int_err e : 0 <= e < 14 -> is_int (- e).
Proof. unfold is_int. lia. Qed.

#[export] Hint Resolve word_u32 word_land_l word_lor word_not32 int_word : typed.
#[export] Hint Extern 1 (is_u32 _) => by split : typed.
#[export] Hint Extern 1 (is_int _) => by split : typed.
#[export] Hint Extern 2 (0 <= _ < _) => lia : typed.

(** ** Lists whose pointers stay in their array *)
Definition cell_in (P : Z -> Prop) (c : cell) : Prop := match c with NEXT e => P e | _ => True end.

Record list_in (P : Z -> Prop) (q : LIST) : Prop := {
  li_first : opt P (lh_first q);
  li_next : forall e, opt P (le_next (links q e));
  li_prev : forall e, cell_in P (le_prev (links q e))
}.
Definition tailq_in (P : Z -> Prop) (q : TAILQ) : Prop := list_in P (tq q) /\ cell_in P (tqh_last q).

Section Lists.
Context (P : Z -> Prop).

Lemma set_first_in v q : list_in P q -> opt P v -> list_in P (set_first v q).
Proof using. by intros [] Hv. Qed.

Lemma set_next_in e v q : list_in P q -> opt P v -> list_in P (set_next e v q).
Proof using.
  intros [Hf Hn Hp] Hv. split; [done| |]; intros x; cbn; rewrite upd_case; case_decide; try done; apply Hp.
Qed.

Lemma set_prev_in e c q : list_in P q -> cell_in P c -> list_in P (set_prev e c q).
Proof using.
  intros [Hf Hn Hp] Hv. split; [done| |]; intros x; cbn; rewrite upd_case; case_decide; try done; apply Hn.
Qed.

Lemma fix_prev_in n c q : list_in P q -> cell_in P c -> list_in P (fix_prev n c q).
Proof using. intros Hq Hc. destruct n; [by apply set_prev_in|done]. Qed.

Lemma store_in c v q q' : list_in P q -> opt P v -> store c v q = Some q' -> list_in P q'.
Proof using.
  intros Hq Hv H. destruct c; [done| |]; injection H as <-; [by apply set_first_in|by apply set_next_in].
Qed.

Lemma insert_head_in e q : list_in P q -> P e -> list_in P (LIST_INSERT_HEAD e q).
Proof using.
  intros Hq He. apply set_prev_in; [|done]. apply set_first_in; [|done].
  apply fix_prev_in; [|done]. apply set_next_in; [done|]. apply Hq.
Qed.

Lemma remove_in e q q' : list_in P q -> LIST_REMOVE e q = Some q' -> list_in P q'.
Proof using.
  intros Hq. unfold LIST_REMOVE. apply store_in.
  - apply fix_prev_in; [done|apply Hq].
  - apply (li_next _ _ (fix_prev_in _ _ q Hq (li_prev _ _ Hq e))).
Qed.

Lemma tailq_insert_tail_in e q q' : tailq_in P q -> P e -> TAILQ_INSERT_TAIL e q = Some q' -> tailq_in P q'.
Proof using.
  intros [Hq Hl] He. unfold TAILQ_INSERT_TAIL. destruct (store _ _ _) as [l|] eqn:Hs; [|done].
  intros [= <-]. split; [|done]. apply (store_in _ (Some e) _ _) in Hs; [done| |done].
  apply set_prev_in; [|done]. by apply set_next_in.
Qed.

Lemma tailq_remove_in e q q' : tailq_in P q -> TAILQ_REMOVE e q = Some q' -> tailq_in P q'.
Proof using.
  intros [Hq Hl]. unfold TAILQ_REMOVE. set (q1 := fix_prev_or_last _ _ _).
  assert (H1 : tailq_in P q1).
  { unfold q1, fix_prev_or_last. destruct (TAILQ_NEXT e q); split; try done.
    - apply set_prev_in; [done|apply Hq].
    - cbn. apply Hq. }
  destruct (store _ _ _) as [l|] eqn:Hs; [|done]. intros [= <-]. split; [|apply H1].
  eapply store_in; [apply H1| |exact Hs]. apply (proj1 H1).
Qed.
End Lists.
#[export] Hint Resolve insert_head_in : typed.

(** ** The memory manager *)
Record pm_typed (N : Z) (s : pmst) : Prop := {
  pt_npage : npage s = N;
  pt_cur : is_u32 (cur_pgdir s);
  pt_satp : is_u32 (csr_satp s);
  pt_free : list_in (fun p => 0 <= p < N) (page_free_list s);
  pt_ref : forall p, 0 <= pp_ref s p < 2 ^ 16;
  pt_mem : forall a, is_u32 (mem s a)
}.

Section Pages.
Context (N : Z).
Abbreviation I := (pm_typed N).
Abbreviation page := (fun p => 0 <= p < N).

Lemma ld_typed a : well_typed I is_u32 (ld a).
Proof using. intros s Hs. unfold ld. destruct (in_ram s a); [|done]. split; [apply Hs|done]. Qed.

Lemma st_typed a v : is_u32 v -> well_typed I any (st a v).
Proof using.
  intros Hv s Hs. unfold st. destruct (in_ram s a); [|done]. split; [done|]. destruct Hs.
  split; try done. intros x. cbn. rewrite upd_case. by case_decide.
Qed.

Lemma set_mem_typed s m : I s -> (forall a, is_u32 (m a)) -> I (set_mem m s).
Proof using. by intros [] Hm. Qed.

Lemma memset0_typed a n : well_typed I any (memset0 a n).
Proof using.
  apply wt_modify. intros s Hs. apply set_mem_typed; [done|]. intros x. unfold zero_range.
  destruct (_ && _); [done|apply Hs].
Qed.

Lemma memcpy_words_typed dst src n : well_typed I any (memcpy_words dst src n).
Proof using.
  apply wt_modify. intros s Hs. apply set_mem_typed; [done|]. intros x. unfold copy_range.
  destruct (_ && _); apply Hs.
Qed.

Lemma set_ref_typed p v : 0 <= v < 2 ^ 16 -> well_typed I any (set_ref p v).
Proof using.
  intros Hv. apply wt_modify. intros s []. split; try done.
  intros x. cbn. rewrite upd_case. by case_decide.
Qed.

Lemma tlb_invalidate_typed asid va : well_typed I any (tlb_invalidate asid va).
Proof using. apply wt_modify. by intros s []. Qed.

Lemma pa2page_typed pa : well_typed I page (pa2page pa).
Proof using.
  intros s Hs. unfold pa2page. pose proof (u32_range (PPN pa - PPNOFFSET)).
  destruct (Z.leb_spec (npage s) (u32 (PPN pa - PPNOFFSET))); [done|].
  split; [|done]. rewrite (pt_npage _ _ Hs) in *. lia.
Qed.

Lemma page2kva_typed p : is_u32 (page2kva p).
Proof using. apply word_u32. Qed.

Lemma KADDR_typed pa : is_u32 pa -> well_typed I is_u32 (KADDR pa).
Proof using. intros Hpa s Hs. unfold KADDR. by destruct (_ <=? _). Qed.

Lemma PADDR2PTE_typed pa : well_typed I is_u32 (PADDR2PTE pa).
Proof using. unfold PADDR2PTE. typed. apply word_land_l, word_shiftr; [apply word_u32|lia]. Qed.

Lemma PADDR_typed pa : well_typed I is_u32 (PADDR pa).
Proof using. unfold PADDR. typed. Qed.

Lemma free_list_op_typed f :
  (forall q q', list_in page q -> f q = Some q' -> list_in page q') -> well_typed I any (free_list_op f).
Proof using.
  intros Hf s Hs. unfold free_list_op. destruct (f _) as [q|] eqn:E; [|done]. split; [done|].
  pose proof (Hf _ _ (pt_free _ _ Hs) E). by destruct Hs.
Qed.

#[local] Hint Resolve ld_typed st_typed memset0_typed memcpy_words_typed set_ref_typed
  tlb_invalidate_typed pa2page_typed KADDR_typed PADDR2PTE_typed PADDR_typed u16_range : typed.

Lemma page_alloc_typed : well_typed I (res page) page_alloc.
Proof using.
  unfold page_alloc. apply wt_gets. intros s Hs. pose proof (li_first _ _ (pt_free _ _ Hs)) as Hf.
  unfold LIST_FIRST. destruct (lh_first _) as [p|]; [|by apply wt_ret].
  apply (wt_bind _ any); [apply free_list_op_typed; intros q q'; apply remove_in|]. intros _ _.
  typed. exact Hf.
Qed.

Lemma free_head_typed s p : I s -> page p ->
  I (set_page_free_list (LIST_INSERT_HEAD p (page_free_list s)) s).
Proof using. intros [] Hp. split; try done. by apply insert_head_in. Qed.

Lemma page_free_typed p : page p -> well_typed I any (page_free p).
Proof using. intros Hp. unfold page_free. typed. by apply free_head_typed. Qed.
#[local] Hint Resolve page_alloc_typed page_free_typed : typed.

Lemma page_decref_typed p : page p -> well_typed I any (page_decref p).
Proof using. intros Hp. unfold page_decref. typed. Qed.
#[local] Hint Resolve page_decref_typed : typed.

Lemma pgdir_walk_typed pgdir va create : well_typed I (res any) (pgdir_walk pgdir va create).
Proof using. unfold pgdir_walk. typed; done. Qed.
#[local] Hint Resolve pgdir_walk_typed : typed.

Lemma page_lookup_typed pgdir va : well_typed I (opt (fun r => page (fst r))) (page_lookup pgdir va).
Proof using. unfold page_lookup. typed; done. Qed.
#[local] Hint Resolve page_lookup_typed : typed.

Lemma page_remove_typed pgdir asid va : well_typed I any (page_remove pgdir asid va).
Proof using. unfold page_remove. typed. Qed.
#[local] Hint Resolve page_remove_typed : typed.

Lemma insert_new_typed pgdir asid pp va perm : is_u32 perm -> well_typed I is_int (insert_new pgdir asid pp va perm).
Proof using. intros Hp. unfold insert_new. typed. Qed.
#[local] Hint Resolve insert_new_typed : typed.

Lemma page_insert_typed pgdir asid pp va perm : is_u32 perm -> well_typed I is_int (page_insert pgdir asid pp va perm).
Proof using. intros Hp. unfold page_insert. typed. Qed.
#[local] Hint Resolve page_insert_typed : typed.

Lemma do_tlb_refill_typed va asid : well_typed I any (_do_tlb_refill va asid).
Proof using. unfold _do_tlb_refill, passive_alloc. typed. Qed.
End Pages.

#[export] Hint Resolve page2kva_typed ld_typed st_typed memset0_typed memcpy_words_typed set_ref_typed
  tlb_invalidate_typed pa2page_typed KADDR_typed PADDR_typed u16_range page_alloc_typed
  page_free_typed page_decref_typed pgdir_walk_typed page_lookup_typed page_remove_typed
  page_insert_typed do_tlb_refill_typed : typed.

(** ** User memory *)
Lemma word_byte_u32 w j : is_u32 (word_byte w j).
Proof. pose proof (word_byte_range w j). unfold is_u32. lia. Qed.

Lemma word_of_bytes b : (forall j, 0 <= b j < 2 ^ 8) -> is_u32 (bytes_word b).
Proof. intros Hb. pose proof (Hb 0); pose proof (Hb 1); pose proof (Hb 2); pose proof (Hb 3). unfold is_u32, bytes_word. lia. Qed.

Section User.
Context (N : Z).
Abbreviation I := (pm_typed N).

Lemma memcpy_bytes_typed dst n src :
  (forall j, 0 <= src j < 2 ^ 8) -> well_typed I any (memcpy_bytes dst n src).
Proof using.
  intros Hsrc. apply wt_modify. intros s Hs. apply set_mem_typed; [done|]. intros x. unfold blit.
  destruct (_ && _); [|apply Hs]. apply word_of_bytes. intros j.
  destruct (_ && _); [apply Hsrc|apply word_byte_range].
Qed.

Lemma mmu_pte_typed va : well_typed I (opt is_u32) (mmu_pte va).
Proof using. unfold mmu_pte. typed. by destruct (_ =? _). Qed.
#[local] Hint Resolve mmu_pte_typed : typed.

Lemma user_pa_typed va perm : well_typed I any (user_pa va perm).
Proof using. unfold user_pa. typed. Qed.
#[local] Hint Resolve user_pa_typed : typed.

Lemma user_lb_typed va : well_typed I (fun b => 0 <= b < 2 ^ 8) (user_lb va).
Proof using. unfold user_lb. typed. apply word_byte_range. Qed.
#[local] Hint Resolve user_lb_typed : typed.

Lemma user_lw_typed va : well_typed I is_u32 (user_lw va).
Proof using. unfold user_lw. typed. cbv beta in *. unfold is_u32. lia. Qed.

Lemma user_sb_typed va v : well_typed I any (user_sb va v).
Proof using.
  unfold user_sb. typed. apply memcpy_bytes_typed. intros _.
  change 0xFF with (Z.ones 8). rewrite Z.land_ones by lia. apply Z.mod_pos_bound. lia.
Qed.
#[local] Hint Resolve user_lw_typed user_sb_typed : typed.

Lemma user_sw_typed va v : well_typed I any (user_sw va v).
Proof using. unfold user_sw. typed. Qed.
#[local] Hint Resolve user_sw_typed : typed.

Lemma read_words_typed n va : well_typed I (Forall is_u32) (read_words n va).
Proof using.
  revert va. induction n as [|n IH]; intros va; cbn [read_words]; [by apply wt_ret|].
  apply (wt_bind _ is_u32); [apply user_lw_typed|]. intros w Hw.
  eapply wt_bind; [apply IH|]. intros l Hl. apply wt_ret. by constructor.
Qed.

Lemma write_words_typed va l : well_typed I any (write_words va l).
Proof using. revert va. induction l as [|w l IH]; intros va; cbn [write_words]; typed; apply IH. Qed.
End User.
#[export] Hint Resolve user_lb_typed user_lw_typed read_words_typed write_words_typed : typed.

(** ** Environments and the kernel state *)
Record tf_typed (t : Trapframe) : Prop := {
  tt_regs : forall r, is_u32 (regs t r);
  tt_status : is_u32 (status t);
  tt_badvaddr : is_u32 (badvaddr t);
  tt_cause : is_u32 (cause t);
  tt_epc : is_u32 (epc t)
}.

Record env_typed (v : Env) : Prop := {
  et_tf : tf_typed (env_tf v);
  et_id : is_u32 (env_id v);
  et_asid : 0 <= env_asid v < NASID;
  et_parent : is_u32 (env_parent_id v);
  et_status : ENV_FREE <= env_status v <= ENV_NOT_RUNNABLE;
  et_pgdir : is_u32 (env_pgdir v);
  et_pri : is_u32 (env_pri v);
  et_value : is_u32 (env_ipc_value v);
  et_from : is_u32 (env_ipc_from v);
  et_recving : 0 <= env_ipc_recving v <= 1;
  et_dstva : is_u32 (env_ipc_dstva v);
  et_perm : is_u32 (env_ipc_perm v);
  et_entry : is_u32 (env_user_tlb_mod_entry v);
  et_runs : is_u32 (env_runs v)
}.

(** A [struct Env *] of the kernel: an element of [envs], or the one past its end,
    which [env_init] (kern/env.c:169) puts on the free list, too. *)
Definition env_ptr (e : Z) : Prop := 0 <= e <= NENV.
Definition c_int (z : Z) : Prop := - 2 ^ 31 <= z < 2 ^ 31.

Record k_typed (N : Z) (k : kst) : Prop := {
  kt_pm : pm_typed N (pm k);
  kt_envs : forall e, env_typed (envs k e);
  kt_curenv : opt env_ptr (curenv k);
  kt_free : list_in env_ptr (env_free_list k);
  kt_sched : tailq_in env_ptr (env_sched_list k);
  kt_base : is_u32 (base_pgdir k);
  kt_asids : forall i, is_u32 (asid_bitmap k i);
  kt_mkenvid : is_u32 (mkenvid_i k);
  kt_count : c_int (sched_count k);
  kt_kstack : tf_typed (kstack k);
  kt_cpu : tf_typed (cpu k);
  kt_in : Forall c_int (cons_in k);
  kt_out : Forall (fun c => 0 <= c < 2 ^ 8) (cons_out k);
  kt_mmio : Forall (fun w => is_u32 (fst w) /\ is_u32 (snd w)) (mmio k);
  kt_sstatus : is_u32 (sstatus k)
}.

Lemma set_regs_typed t r v : tf_typed t -> is_u32 v -> tf_typed (set_reg r v t).
Proof. intros [] Hv. split; try done. intros x. cbn. rewrite upd_case. by case_decide. Qed.

Lemma set_epc_typed t v : tf_typed t -> is_u32 v -> tf_typed (set_epc v t).
Proof. by intros []. Qed.

Lemma c_int_s32 z : c_int (s32 z).
Proof. unfold c_int, s32. pose proof (u32_range z). destruct (Z.ltb_spec (u32 z) (2 ^ 31)); lia. Qed.

Lemma ENVX_ptr envid : env_ptr (ENVX envid).
Proof.
  unfold env_ptr, ENVX. change (NENV - 1) with (Z.ones 10). change NENV with 1024.
  rewrite Z.land_ones by lia. pose proof (Z.mod_pos_bound envid (2 ^ 10) ltac:(lia)). lia.
Qed.

Lemma env_ptr_u32 e : env_ptr e -> is_u32 e.
Proof. unfold env_ptr, is_u32. change NENV with 1024. lia. Qed.

Section Envs.
Context (N : Z).
Abbreviation I := (k_typed N).

Lemma kpm_typed {A} (T : A -> Prop) (m : PM A) : well_typed (pm_typed N) T m -> well_typed I T (kpm m).
Proof using.
  intros Hm k Hk. specialize (Hm (pm k) (kt_pm _ _ Hk)). unfold kpm, zoom.
  destruct (m (pm k)) as [a s|msg s| |s]; try done; [split; [apply Hm|destruct Hm as [_ Hm]]|..];
    by destruct Hk.
Qed.

Lemma upd_env_typed e f : (forall v, env_typed v -> env_typed (f v)) -> well_typed I any (upd_env e f).
Proof using.
  intros Hf. apply wt_modify. intros k []. split; try done.
  intros x. cbn. rewrite upd_case. case_decide; [by apply Hf|done].
Qed.

Lemma deref_typed p : opt env_ptr p -> well_typed I env_ptr (deref p).
Proof using. intros Hp. destruct p; [by apply wt_ret|by apply wt_fault]. Qed.

Lemma get_curenv_typed : well_typed I env_ptr get_curenv.
Proof using. unfold get_curenv. apply wt_gets. intros k Hk. apply deref_typed, Hk. Qed.

Lemma free_op_typed f :
  (forall q q', list_in env_ptr q -> f q = Some q' -> list_in env_ptr q') -> well_typed I any (free_op f).
Proof using.
  intros Hf k Hk. unfold free_op. destruct (f _) as [q|] eqn:E; [|done]. split; [done|].
  pose proof (Hf _ _ (kt_free _ _ Hk) E). by destruct Hk.
Qed.

Lemma sched_op_typed f :
  (forall q q', tailq_in env_ptr q -> f q = Some q' -> tailq_in env_ptr q') -> well_typed I any (sched_op f).
Proof using.
  intros Hf k Hk. unfold sched_op. destruct (f _) as [q|] eqn:E; [|done]. split; [done|].
  pose proof (Hf _ _ (kt_sched _ _ Hk) E). by destruct Hk.
Qed.

Lemma sched_remove_typed e : well_typed I any (sched_op (TAILQ_REMOVE e)).
Proof using. apply sched_op_typed. intros q q'. apply tailq_remove_in. Qed.

Lemma sched_insert_typed e : env_ptr e -> well_typed I any (sched_op (TAILQ_INSERT_TAIL e)).
Proof using. intros He. apply sched_op_typed. intros q q' Hq. by apply tailq_insert_tail_in. Qed.
End Envs.
#[export] Hint Resolve kpm_typed deref_typed get_curenv_typed sched_remove_typed sched_insert_typed
  kt_envs kt_kstack kt_cpu et_tf et_id et_parent et_pgdir et_pri et_entry et_dstva tt_regs tt_status tt_epc
  tt_badvaddr tt_cause ENVX_ptr env_ptr_u32 set_regs_typed set_epc_typed c_int_s32 : typed.
#[export] Hint Extern 2 (ENV_FREE <= _ <= _) =>
  unfold ENV_FREE, ENV_NOT_RUNNABLE, ENV_RUNNABLE in *; lia : typed.
(** A field update of an environment or of the kernel state. *)
#[export] Hint Extern 1 (well_typed _ _ (upd_env _ _)) =>
  apply upd_env_typed; intros ? []; split; cbn; try done; eauto with typed : typed.

(** An update of the kernel state. *)
Ltac state_typed :=
  match goal with
  | H : k_typed _ ?s |- k_typed _ ?g =>
      match g with context [s] => destruct H; split; cbn; try done; solve [eauto with typed] end
  end.

Ltac ktyped := repeat first [typed_step | state_typed].

(** ** Creation, scheduling and destruction *)
Section Kernel.
Context (N : Z).
Abbreviation I := (k_typed N).

Lemma asid_alloc_from_typed n : forall i, 0 <= i -> i + Z.of_nat n <= NASID ->
  well_typed I (res (fun a => 0 <= a < NASID)) (asid_alloc_from n i).
Proof using.
  induction n as [|n IH]; intros i Hi Hn; cbn [asid_alloc_from]; [typed|].
  apply wt_gets. intros k Hk. destruct (negb _); [|apply IH; lia].
  typed; [|unfold NASID in *; lia]. destruct Hk, H. split; try done. intros x. cbn. rewrite upd_case.
  case_decide; [|done]. apply word_lor; [done|]. unfold bit_mask. apply word_bit.
Qed.

Lemma asid_alloc_typed : well_typed I (res (fun a => 0 <= a < NASID)) asid_alloc.
Proof using. by apply asid_alloc_from_typed. Qed.

Lemma asid_free_typed i : well_typed I any (asid_free i).
Proof using.
  apply wt_modify. intros k []. split; try done. intros x. cbn. rewrite upd_case.
  case_decide; [|done]. by apply word_land_l.
Qed.

Lemma mkenvid_typed e : env_ptr e -> well_typed I is_u32 (mkenvid e).
Proof using.
  intros He. unfold mkenvid. typed. state_typed.
Qed.

Lemma envid2env_typed envid b : well_typed I (res (opt env_ptr)) (envid2env envid b).
Proof using.
  unfold envid2env. apply wt_get. intros k Hk. pose proof (ENVX_ptr envid).
  destruct (envid =? 0); [apply wt_ret, Hk|]. typed; done.
Qed.
#[local] Hint Resolve asid_alloc_typed asid_free_typed mkenvid_typed envid2env_typed : typed.

Lemma base_pgdir_typed k v : I k -> is_u32 v -> I (set_base_pgdir v k).
Proof using. by intros [] Hv. Qed.

Lemma env_setup_vm_typed e : well_typed I is_int (env_setup_vm e).
Proof using. unfold env_setup_vm. typed. Qed.
#[local] Hint Resolve env_setup_vm_typed : typed.

Lemma remove_free_typed e : well_typed I any (free_op (LIST_REMOVE e)).
Proof using. apply free_op_typed. intros q q'. apply remove_in. Qed.
#[local] Hint Resolve remove_free_typed : typed.

Lemma env_alloc_typed parent : is_u32 parent -> well_typed I (res env_ptr) (env_alloc parent).
Proof using.
  intros Hp. unfold env_alloc. apply wt_gets. intros k Hk.
  pose proof (li_first _ _ (kt_free _ _ Hk)) as Hf. unfold LIST_FIRST.
  destruct (lh_first _) as [e|]; typed. exact Hf.
Qed.

Lemma env_free_vm_typed pgdir asid : well_typed (pm_typed N) any (env_free_vm pgdir asid).
Proof using. unfold env_free_vm, env_free_pde, env_free_pte. typed. Qed.
#[local] Hint Resolve env_free_vm_typed : typed.

Lemma free_env_typed k e : I k -> env_ptr e -> I (set_env_free_list (LIST_INSERT_HEAD e (env_free_list k)) k).
Proof using. intros [] He. split; try done. by apply insert_head_in. Qed.

Lemma env_free_typed e : env_ptr e -> well_typed I any (env_free e).
Proof using. intros He. unfold env_free. typed. by apply free_env_typed. Qed.
#[local] Hint Resolve env_free_typed : typed.

Lemma env_pop_tf_typed {A} (T : A -> Prop) tf asid ppn :
  tf_typed tf -> is_u32 ppn -> well_typed I T (env_pop_tf tf asid ppn).
Proof using.
  intros Ht Hp. unfold env_pop_tf. apply (wt_bind _ any).
  - apply kpm_typed, wt_modify. intros s []. split; try done. cbn. eauto with typed.
  - intros _ _. typed. by destruct H.
Qed.
#[local] Hint Resolve env_pop_tf_typed : typed.

Lemma env_run_typed {A} (T : A -> Prop) e : env_ptr e -> well_typed I T (env_run e).
Proof using.
  intros He. unfold env_run. apply wt_get. intros k Hk. apply (wt_bind _ any); [typed|].
  intros _ _. apply (wt_bind _ any).
  { destruct Hk. destruct (curenv k); typed. }
  intros _ _. apply (wt_bind _ any); [apply wt_modify; by intros s []|].
  intros _ _. apply (wt_bind _ any); [typed|].
  intros _ _. apply wt_get. intros k' Hk'. pose proof (kt_envs _ _ Hk' e) as Hv.
  apply (wt_bind _ any); [|intros _ _; apply env_pop_tf_typed; [apply Hv|]].
  - apply kpm_typed, wt_modify. intros s []. split; try done. apply Hv.
  - apply word_shiftr; [apply word_u32|lia].
Qed.
#[local] Hint Resolve env_run_typed : typed.

Lemma schedule_typed {A} (T : A -> Prop) yield : well_typed I T (schedule yield).
Proof using.
  unfold schedule. apply wt_get. intros k Hk. pose proof (kt_curenv _ _ Hk) as Hc.
  apply (wt_bind _ env_ptr).
  - destruct (_ || _); [|typed]. apply (wt_bind _ any).
    + destruct (curenv k); [|typed]. destruct (env_runnable k z); typed.
    + intros _ _. apply wt_gets. intros k' Hk'.
      pose proof (li_first _ _ (proj1 (kt_sched _ _ Hk'))) as Hf. unfold TAILQ_FIRST.
      destruct (lh_first _); typed; [|exact Hf]. state_typed.
  - intros e He. typed. state_typed.
Qed.
#[local] Hint Resolve schedule_typed : typed.

Lemma env_destroy_typed e : env_ptr e -> well_typed I any (env_destroy e).
Proof using. intros He. unfold env_destroy. typed. state_typed. Qed.
End Kernel.
#[export] Hint Resolve asid_alloc_typed asid_free_typed mkenvid_typed envid2env_typed env_alloc_typed
  env_run_typed schedule_typed env_destroy_typed : typed.


(** ** System calls *)
Section Calls.
Context (N : Z) (dev_read : Z -> Z) (void_ret : Z).
Context (Hdev : forall a, is_u32 (dev_read a)) (Hvoid : is_u32 void_ret).
Abbreviation I := (k_typed N).

Lemma printcharc_typed c : well_typed I any (printcharc c).
Proof using.
  apply wt_modify. intros k []. split; cbn; try done. constructor; [|done]. apply Z.mod_pos_bound. lia.
Qed.
#[local] Hint Resolve printcharc_typed : typed.

Lemma sys_print_cons_typed s num : well_typed I is_int (sys_print_cons s num).
Proof using. unfold sys_print_cons. typed. Qed.

Lemma cgetc_loop_typed l : Forall c_int l -> well_typed I c_int (cgetc_loop l).
Proof using.
  induction 1 as [|c l Hc Hl IH]; cbn [cgetc_loop]; [typed; state_typed|].
  typed; [state_typed|done].
Qed.

Lemma sys_cgetc_typed : well_typed I is_int sys_cgetc.
Proof using.
  apply wt_gets. intros k Hk. apply (wt_bind _ c_int); [apply cgetc_loop_typed, Hk|].
  intros c Hc. apply wt_ret. unfold is_int, c_int in *. destruct (c <? 0); lia.
Qed.

Lemma sys_getenvid_typed : well_typed I is_int sys_getenvid.
Proof using. unfold sys_getenvid. typed. Qed.

Lemma sys_env_destroy_typed envid : well_typed I is_int (sys_env_destroy envid).
Proof using. unfold sys_env_destroy. typed. Qed.

Lemma sys_set_tlb_mod_entry_typed envid func : is_u32 func -> well_typed I is_int (sys_set_tlb_mod_entry envid func).
Proof using. intros Hf. unfold sys_set_tlb_mod_entry. typed. Qed.

Lemma sys_mem_alloc_typed envid va perm : is_u32 perm -> well_typed I is_int (sys_mem_alloc envid va perm).
Proof using. intros Hp. unfold sys_mem_alloc. typed. Qed.

Lemma sys_mem_map_typed srcid srcva dstid dstva perm :
  is_u32 perm -> well_typed I is_int (sys_mem_map srcid srcva dstid dstva perm).
Proof using. intros Hp. unfold sys_mem_map. typed. Qed.

Lemma sys_mem_unmap_typed envid va : well_typed I is_int (sys_mem_unmap envid va).
Proof using. unfold sys_mem_unmap. typed. Qed.

Lemma sys_exofork_typed : well_typed I is_int sys_exofork.
Proof using. unfold sys_exofork. typed. Qed.

Lemma sys_set_env_status_typed envid status : well_typed I is_int (sys_set_env_status envid status).
Proof using.
  unfold sys_set_env_status.
  destruct (Z.eqb_spec status ENV_RUNNABLE), (Z.eqb_spec status ENV_NOT_RUNNABLE);
    cbn [negb andb]; typed.
Qed.

Lemma tf_of_words_typed l : Forall is_u32 l -> tf_typed (tf_of_words l).
Proof using.
  intros Hl. assert (Hn : forall n, is_u32 (nth n l 0)).
  { intros n. destruct (nth_in_or_default n l 0) as [Hin| -> ]; [|done].
    rewrite Forall_forall in Hl. by apply Hl, list_elem_of_In. }
  split; [intros r|..]; apply Hn.
Qed.
#[local] Hint Resolve tf_of_words_typed : typed.

Lemma sys_set_trapframe_typed envid tf : well_typed I is_int (sys_set_trapframe envid tf).
Proof using.
  unfold sys_set_trapframe. typed; [state_typed|].
  apply (wt_weaken _ is_u32); [eauto with typed|apply int_word].
Qed.

Lemma sys_ipc_recv_typed dstva : is_u32 dstva -> well_typed I is_int (sys_ipc_recv dstva).
Proof using. intros Hd. unfold sys_ipc_recv. ktyped. Qed.

Lemma sys_ipc_try_send_typed envid value srcva perm :
  is_u32 value -> is_u32 perm -> well_typed I is_int (sys_ipc_try_send envid value srcva perm).
Proof using. intros Hv Hp. unfold sys_ipc_try_send. ktyped. Qed.

Lemma sys_write_dev_typed va value : is_u32 value -> well_typed I any (sys_write_dev va value).
Proof using.
  intros Hv. unfold sys_write_dev. destruct (negb _); [by apply wt_ret|].
  apply wt_modify. intros k []. split; cbn; try done. constructor; [|done]. split; [|done].
  apply word_lor; [done|]. change 0x3FFFFF with (Z.ones 22). rewrite Z.land_ones by lia.
  pose proof (Z.mod_pos_bound va (2 ^ 22) ltac:(lia)). unfold is_u32. cbn [fst]. lia.
Qed.

Lemma sys_read_dev_typed va : well_typed I is_int (sys_read_dev dev_read va).
Proof using Hdev. unfold sys_read_dev. typed. Qed.

Lemma sys_putchar_typed c : well_typed I any (sys_putchar c).
Proof using. apply printcharc_typed. Qed.

Lemma sys_yield_typed : well_typed I is_int sys_yield.
Proof using. apply schedule_typed. Qed.

Lemma sys_panic_typed msg : well_typed I is_int (sys_panic msg).
Proof using. apply wt_panic. Qed.
#[local] Hint Resolve sys_write_dev_typed sys_read_dev_typed sys_putchar_typed sys_print_cons_typed
  sys_cgetc_typed sys_getenvid_typed sys_env_destroy_typed sys_set_tlb_mod_entry_typed
  sys_mem_alloc_typed sys_mem_map_typed sys_mem_unmap_typed sys_exofork_typed
  sys_set_env_status_typed sys_set_trapframe_typed sys_ipc_recv_typed sys_ipc_try_send_typed
  sys_yield_typed sys_panic_typed : typed.

Lemma syscall_table_typed sysno a1 a2 a3 a4 a5 :
  is_u32 a1 -> is_u32 a2 -> is_u32 a3 -> is_u32 a4 -> is_u32 a5 ->
  well_typed I is_int (syscall_table dev_read void_ret sysno a1 a2 a3 a4 a5).
Proof using Hdev Hvoid. intros. unfold syscall_table. typed. Qed.
#[local] Hint Resolve syscall_table_typed : typed.

Lemma do_syscall_typed : well_typed I any (do_syscall dev_read void_ret).
Proof using Hdev Hvoid.
  unfold do_syscall. ktyped.
  eapply wt_bind; [apply syscall_table_typed; eauto with typed|intros r Hr; ktyped].
Qed.
#[local] Hint Resolve do_syscall_typed : typed.

(** ** Traps *)
Lemma clear_sstatus_typed bits : well_typed I any (clear_sstatus bits).
Proof using. unfold clear_sstatus. ktyped. Qed.

Lemma clock_typed : well_typed I any clock_set_next_event.
Proof using. unfold clock_set_next_event. ktyped. Qed.
#[local] Hint Resolve clear_sstatus_typed clock_typed : typed.

Lemma interrupt_handler_typed : well_typed I any interrupt_handler.
Proof using. unfold interrupt_handler. ktyped. Qed.

Lemma normal_page_fault_typed : well_typed I any normal_page_fault.
Proof using. unfold normal_page_fault. ktyped. Qed.

Lemma vpt_entry_typed pgdir va : well_typed I any (vpt_entry pgdir va).
Proof using. unfold vpt_entry. ktyped. Qed.
#[local] Hint Resolve interrupt_handler_typed normal_page_fault_typed vpt_entry_typed : typed.

Lemma query_vpt_typed : well_typed I any query_vpt.
Proof using.
  unfold query_vpt. ktyped. apply (wt_bind _ is_u32); [ktyped|]. intros v Hv. ktyped.
Qed.

Lemma user_mod_typed : well_typed I any user_mod.
Proof using. unfold user_mod. ktyped. Qed.
#[local] Hint Resolve query_vpt_typed user_mod_typed : typed.

Lemma traps_dispatch_typed : well_typed I any (traps_dispatch dev_read void_ret).
Proof using Hdev Hvoid. unfold traps_dispatch, exception_handler. ktyped. Qed.

Lemma trap_well_typed scause sbadaddr : is_u32 scause -> is_u32 sbadaddr ->
  well_typed I any (trap dev_read void_ret scause sbadaddr).
Proof using Hdev Hvoid.
  intros Hc Hb. unfold trap. apply (wt_bind _ any); [apply wt_modify|].
  - intros k Hk. pose proof (kt_sstatus _ _ Hk). destruct (kt_cpu _ _ Hk), Hk. split; cbn; try done.
  - intros _ _. apply (wt_bind _ any); [apply traps_dispatch_typed|]. intros _ _. ktyped.
Qed.
End Calls.

(** Every word the kernel keeps stays a word, whatever the trap: from a state in
    which memory, the trap frames, the registers and the fields of all
    environments are 32-bit words, reference counts 16-bit, characters 8-bit and
    statuses and identifiers of address spaces in their ranges, in which the
    links of the list of pages are pages and those of the two lists of
    environments indices of [envs] or the one after its end ([env_ptr]), every
    trap leaves such a state, also when it panics or does not return.  What
    device registers and [void] handlers leave in a register is a word. *)
Lemma trap_types dev_read void_ret N scause sbadaddr k :
  (forall a, is_u32 (dev_read a)) -> is_u32 void_ret -> is_u32 scause -> is_u32 sbadaddr ->
  k_typed N k ->
  match trap dev_read void_ret scause sbadaddr k with
  | Ret _ k' | Panic _ k' | Noret k' => k_typed N k'
  | Fault => True
  end.
Proof.
  intros Hd Hv Hc Hb Hk.
  pose proof (trap_well_typed N dev_read void_ret Hd Hv scause sbadaddr Hc Hb k Hk) as H.
  by destruct (trap dev_read void_ret scause sbadaddr k) as [? ? | | |]; [destruct H|..].
Qed.

(** Environment 0, with id 5, asks for its id. *)
Definition ex_flat (w : Z) : Trapframe := mkTF (fun _ => w) w w w w.
Definition ex_caller : kst :=
  mkK (mkPm 0 16 0 0 0 0 (mkLIST None (fun _ => LE_ZERO)) (fun _ => 0) (fun _ => 0) [] 0 true)
    (fun _ => mkEnv (ex_flat 0) 5 0 0 ENV_RUNNABLE 0 1 0 0 0 0 0 0 0)
    (Some 0) (mkLIST None (fun _ => LE_ZERO)) (mkTAILQ (mkLIST None (fun _ => LE_ZERO)) HEAD)
    0 (fun _ => 0) 0 1 (ex_flat 0) (ex_flat SYS_getenvid) [] [] [] 0 0.

Lemma ex_tf_typed w : is_u32 w -> tf_typed (ex_flat w).
Proof. intros Hw. by split. Qed.

Lemma ex_caller_typed : k_typed 16 ex_caller.
Proof.
  split; cbn; try done; try by apply ex_tf_typed.
Qed.

Lemma trap_types_witness :
  match trap (fun _ => 7) 0 CAUSE_USER_ECALL 0 ex_caller with
  | Ret _ k' | Panic _ k' | Noret k' => k_typed 16 k'
  | Fault => True
  end /\
  match trap (fun _ => 7) 0 CAUSE_USER_ECALL 0 ex_caller with
  | Ret _ k' => regs (cpu k') 10 = 5
  | _ => False
  end.
Proof.
  split; [|by vm_compute].
  by apply (trap_types (fun _ => 7) 0 16 CAUSE_USER_ECALL 0 ex_caller), ex_caller_typed.
Defined.
