(* ===== verification/Confine.v ===== *)
(** * What a trap leaves alone

    A trap taken while one environment runs must not disturb the others: the
    record of an environment [e] that the running one has no right to stays as
    it is, whatever the trap.  [spares e] is a judgement on computations of the
    kernel, with a rule for each construct; the permission check of [envid2env]
    is what discharges it in the handlers. *)
From S2P Require Import Prelude Queue Mmu Pmap UserMem Elf Env Sched Syscall Traps.

(** The state a computation leaves, whether it returns to its caller, panics or
    leaves for user mode. *)
Definition leaves {A} (o : outcome kst A) (k' : kst) : Prop :=
  match o with Ret _ s | Panic _ s | Noret s => s = k' | Fault => False end.

(** Everything in the record of [e] but the count of its runs. *)
Definition untouched (e : Z) (k k' : kst) : Prop :=
  set_env_runs 0 (envs k' e) = set_env_runs 0 (envs k e).

Lemma untouched_refl e k : untouched e k k.
Proof. done. Qed.

Lemma untouched_trans e k1 k2 k3 : untouched e k1 k2 -> untouched e k2 k3 -> untouched e k1 k3.
Proof. unfold untouched. congruence. Qed.

Create HintDb confine.

Section Spares.
Context (e : Z).

(** While another environment runs, [m] leaves [e] alone, and when it returns
    still another environment runs. *)
Definition spares {A} (m : KM A) : Prop := forall k, curenv k <> Some e ->
  match m k with
  | Ret _ k' => untouched e k k' /\ curenv k' <> Some e
  | Panic _ k' | Noret k' => untouched e k k'
  | Fault => True
  end.

Lemma spares_bind {A B} (m : KM A) (f : A -> KM B) :
  spares m -> (forall a, spares (f a)) -> spares (bind m f).
Proof.
  intros Hm Hf k Hc. specialize (Hm k Hc). unfold bind. destruct (m k) as [a k1| | |]; try done.
  destruct Hm as [Hu Hc1]. specialize (Hf a k1 Hc1).
  destruct (f a k1) as [b k2| | |]; try done; [destruct Hf as [? ?]; split; [|done]|..];
    by eapply untouched_trans.
Qed.

Lemma spares_ret {A} (a : A) : spares (ret a).
Proof. by intros k Hc. Qed.
Lemma spares_panic {A} msg : spares (@panic kst A msg).
Proof. by intros k Hc. Qed.
Lemma spares_fault {A} : spares (@fault kst A).
Proof. by intros k Hc. Qed.
Lemma spares_noreturn {A} : spares (@noreturn kst A).
Proof. by intros k Hc. Qed.
Lemma spares_get : spares get.
Proof. by intros k Hc. Qed.
Lemma spares_gets {A} (f : kst -> A) : spares (gets f).
Proof. by intros k Hc. Qed.
Lemma spares_deref p : spares (deref p).
Proof. by destruct p; intros k Hc. Qed.

Lemma spares_kpm {A} (m : PM A) : spares (kpm m).
Proof. intros k Hc. unfold kpm, zoom. by destruct (m (pm k)). Qed.

(** A change of the state outside the records and [curenv]. *)
Lemma spares_modify f : (forall k, envs (f k) = envs k /\ curenv (f k) = curenv k) -> spares (modify f).
Proof.
  intros Hf k Hc. cbn. destruct (Hf k) as [He Hr]. unfold untouched. by rewrite He, Hr.
Qed.

Lemma spares_sched_op f : spares (sched_op f).
Proof. intros k Hc. unfold sched_op. by destruct (f (env_sched_list k)). Qed.
Lemma spares_free_op f : spares (free_op f).
Proof. intros k Hc. unfold free_op. by destruct (f (env_free_list k)). Qed.

Lemma spares_upd_env x f : x <> e -> spares (upd_env x f).
Proof. intros Hx k Hc. cbn. split; [|done]. unfold untouched. cbn. by rewrite upd_other. Qed.

Lemma spares_run x n : spares (upd_env x (fun v => set_env_runs (n v) v)).
Proof.
  intros k Hc. cbn. split; [|done]. unfold untouched. cbn. rewrite upd_case. by case_decide; subst.
Qed.

Lemma spares_curenv {A} (f : Z -> KM A) : (forall c, c <> e -> spares (f c)) -> spares (bind get_curenv f).
Proof.
  intros Hf k Hc. unfold get_curenv, bind, gets. destruct (curenv k) as [c|] eqn:E; [|done].
  cbn. apply (Hf c); congruence.
Qed.

Lemma spares_get_curenv : spares get_curenv.
Proof. intros k Hc. unfold get_curenv, bind, gets. destruct (curenv k) as [c|] eqn:E; [|done]. by cbn; rewrite E. Qed.

Lemma spares_forM {A} (l : list A) f : (forall x, spares (f x)) -> spares (forM l f).
Proof. intros Hf. induction l; [apply spares_ret|]. by apply spares_bind. Qed.
End Spares.

#[export] Hint Resolve spares_ret spares_panic spares_fault spares_noreturn spares_get spares_gets
  spares_deref spares_get_curenv spares_kpm spares_sched_op spares_free_op spares_run spares_forM : confine.
#[export] Hint Resolve spares_upd_env : confine.
#[export] Hint Extern 2 (spares _ (modify _)) => apply spares_modify; by intros [] : confine.

(** Breaks a computation at its binds and cases. *)
Ltac spare :=
  repeat first
    [ progress cbv beta zeta
    | match goal with
      | |- spares _ (bind get_curenv _) => apply spares_curenv; intros ? ?
      | |- spares _ (bind _ _) => apply spares_bind; [|intros ?]
      | |- spares _ (try_z _ _) => unfold try_z
      | |- spares _ (try0 _ _) => unfold try0
      | |- spares _ (panic_on _) => unfold panic_on
      | |- spares _ (c_assert _) => unfold c_assert
      | |- spares _ (match ?x with _ => _ end) => destruct x
      | |- spares _ (if ?b then _ else _) => destruct b
      end
    | by auto with confine ].

(** ** Environments *)
Section Envs.
Context (e : Z).

(** [env_run] saves the context of the running environment, and it counts the
    run of the next. *)
Lemma env_run_spares {A} x : spares e (@env_run A x).
Proof.
  intros k Hc. destruct (Z.eqb_spec (env_status (envs k x)) ENV_RUNNABLE) as [H|H].
  - rewrite env_run_eq by done. unfold untouched. cbn. unfold run_envs. rewrite upd_case.
    assert (Hs : saved_envs k e = envs k e).
    { unfold saved_envs. destruct (curenv k) as [c|]; [|done]. apply upd_other. congruence. }
    case_decide as Hx; [subst x; cbn|]; by rewrite Hs.
  - unfold env_run, bind at 1, get. cbv beta iota. apply Z.eqb_neq in H as ->. done.
Qed.

Hint Resolve env_run_spares : confine.

Lemma schedule_spares {A} yield : spares e (@schedule A yield).
Proof. unfold schedule. spare. Qed.
Hint Resolve schedule_spares : confine.

Lemma env_free_spares x : x <> e -> spares e (env_free x).
Proof. intros Hx. unfold env_free. spare. Qed.

Lemma env_destroy_spares x : x <> e -> spares e (env_destroy x).
Proof.
  intros Hx. unfold env_destroy. apply spares_bind; [by apply env_free_spares|]. intros _.
  spare.
Qed.

(** [env_alloc] writes only the record it takes off the free list. *)
Lemma asid_alloc_spares : spares e asid_alloc.
Proof.
  unfold asid_alloc. generalize 0. induction (Z.to_nat NASID) as [|n IH]; intros i;
    cbn [asid_alloc_from]; spare.
Qed.

Lemma env_setup_vm_spares x : x <> e -> spares e (env_setup_vm x).
Proof. intros Hx. unfold env_setup_vm. spare. Qed.
Hint Resolve asid_alloc_spares env_setup_vm_spares env_destroy_spares : confine.

(** What [spares] asks of one run. *)
Definition left_alone {A} (k : kst) (o : outcome kst A) : Prop :=
  match o with
  | Ret _ k' => untouched e k k' /\ curenv k' <> Some e
  | Panic _ k' | Noret k' => untouched e k k'
  | Fault => True
  end.

(** [env_alloc] writes only the record it takes off the free list. *)
Lemma env_alloc_left_alone p k : curenv k <> Some e -> LIST_FIRST (env_free_list k) <> Some e ->
  left_alone k (env_alloc p k).
Proof.
  intros Hc Hf. unfold env_alloc, bind at 1, gets. destruct (LIST_FIRST (env_free_list k)) as [x|]; [|done].
  assert (Hx : x <> e) by congruence. revert Hc. generalize k.
  match goal with |- forall k, _ -> left_alone k (?m k) => change (spares e m) end.
  unfold mkenvid. spare.
Qed.

Lemma env_alloc_first p k x k' : env_alloc p k = Ret (OK x) k' -> LIST_FIRST (env_free_list k) = Some x.
Proof.
  unfold env_alloc, bind at 1, gets. destruct (LIST_FIRST (env_free_list k)) as [y|]; [|done].
  intros (r & k1 & _ & H)%bind_inv. destruct (negb (r =? 0)); [done|].
  do 3 (apply bind_inv in H as (? & ? & _ & H)). apply bind_inv in H as (id & k2 & _ & H).
  apply bind_inv in H as (? & ? & _ & H). apply bind_inv in H as ([a|r'] & k3 & _ & H); [|done].
  do 3 (apply bind_inv in H as (? & ? & _ & H)). by injection H as ->.
Qed.
End Envs.

(** ** System calls *)
Section Calls.
Context (c e : Z).

(** The running environment [c] has no right to [e]: it is another one, no
    child of [c], not waiting for a message, and not the next to be created. *)
Record no_right (k : kst) : Prop := {
  nr_cur : curenv k = Some c;
  nr_other : e <> c /\ env_id (envs k e) <> env_id (envs k c);
  nr_parent : env_parent_id (envs k e) <> env_id (envs k c);
  nr_deaf : env_ipc_recving (envs k e) = 0;
  nr_used : LIST_FIRST (env_free_list k) <> Some e
}.

Definition confined {A} (m : KM A) : Prop := forall k, no_right k -> left_alone e k (m k).

Lemma no_right_cur k : no_right k -> curenv k <> Some e.
Proof. intros [Hc [Hn _] _ _ _]. congruence. Qed.

Lemma spares_confined {A} (m : KM A) : spares e m -> confined m.
Proof. intros H k Hk. by apply H, no_right_cur. Qed.

Lemma confined_get {A} (f : kst -> KM A) :
  (forall k, no_right k -> left_alone e k (f k k)) -> confined (bind get f).
Proof. intros H k Hk. by apply H. Qed.

(** A checked id never denotes [e]. *)
Lemma confined_check id (f : option Z -> KM Z) :
  (forall p, p <> Some e -> confined (f p)) -> confined (try_z (envid2env id true) f).
Proof.
  intros Hf k Hk. pose proof (no_right_cur _ Hk) as Hc. unfold try_z, bind at 1, envid2env, bind at 1, get.
  destruct (id =? 0); [by apply Hf|].
  destruct (_ || _); [done|]. unfold get_curenv, bind, gets. destruct Hk as [Hr [Hn Hi] Hp Hd Hu].
  rewrite Hr. cbn [deref]. unfold ret.
  destruct (_ && _) eqn:E; [done|]. apply Hf; [|by split].
  intros [= Hx]. rewrite Hx in E. apply andb_false_iff in E as [E|E]; apply negb_false_iff, Z.eqb_eq in E; done.
Qed.

Lemma confined_id id (f : option Z -> KM Z) :
  (forall p, confined (f p)) -> confined (try_z (envid2env id false) f).
Proof.
  intros Hf k Hk. pose proof (no_right_cur _ Hk) as Hc. unfold try_z, bind at 1, envid2env, bind at 1, get.
  destruct (id =? 0); [by apply Hf|]. destruct (_ || _); [done|]. by apply Hf.
Qed.

Lemma confined_deref {A} p (f : Z -> KM A) :
  (forall x, p = Some x -> confined (f x)) -> confined (bind (deref p) f).
Proof. intros Hf k Hk. destruct p; [|done]. by apply Hf. Qed.

(** After the check, the handlers work on the environment it gave. *)
Ltac confine_step :=
  repeat first
    [ match goal with
      | |- confined (try_z (envid2env _ true) _) => apply confined_check; intros ? ?
      | |- confined (bind (deref ?p) _) => apply confined_deref; intros ? ->
      | |- confined (if ?b then _ else _) => destruct b
      end
    | apply spares_confined; spare; fail ].

Lemma upd_target x f : Some x <> Some e -> spares e (upd_env x f).
Proof. intros Hx. apply spares_upd_env. congruence. Qed.
Lemma destroy_target x : Some x <> Some e -> spares e (env_destroy x).
Proof. intros Hx. apply env_destroy_spares. congruence. Qed.
Hint Resolve upd_target destroy_target schedule_spares : confine.

Lemma print_cons_spares a b : spares e (sys_print_cons a b).
Proof. unfold sys_print_cons, printcharc. spare. apply spares_forM. intros x. spare. Qed.

Lemma cgetc_spares : spares e sys_cgetc.
Proof.
  unfold sys_cgetc. apply spares_bind; [apply spares_gets|]. intros l.
  apply spares_bind; [|intros ch; spare]. induction l as [|ch l IH]; cbn [cgetc_loop]; spare.
Qed.

Lemma ipc_recv_spares va : spares e (sys_ipc_recv va).
Proof. unfold sys_ipc_recv. spare. Qed.

Lemma exofork_confined : confined sys_exofork.
Proof.
  intros k Hk. pose proof (no_right_cur _ Hk) as Hc. unfold sys_exofork, get_curenv.
  rewrite bind_assoc. unfold bind at 1, gets. rewrite (nr_cur _ Hk). cbn [deref].
  rewrite bind_ret_l. unfold bind at 1, get. unfold try_z.
  pose proof (env_alloc_left_alone e (env_id (envs k c)) k Hc (nr_used _ Hk)) as Ha.
  unfold bind at 1. destruct (env_alloc _ k) as [[x|r] k1| | |] eqn:E; try done.
  apply env_alloc_first in E. assert (Hx : x <> e) by (pose proof (nr_used _ Hk); congruence).
  destruct Ha as [Hu Hc1]. revert k1 Hc1 Hu. intros k1 Hc1 Hu.
  match goal with |- left_alone _ _ (?m k1) => assert (Hm : spares e m) by spare; specialize (Hm k1 Hc1);
    destruct (m k1) as [a k2| | |]; try done end.
  - destruct Hm as [Hm1 ?]. split; [by eapply untouched_trans|done].
  - by eapply untouched_trans.
  - by eapply untouched_trans.
Qed.

Lemma ipc_try_send_confined id v va perm : confined (sys_ipc_try_send id v va perm).
Proof.
  unfold sys_ipc_try_send. destruct (_ && _); [by apply spares_confined, spares_ret|].
  apply confined_id. intros p. apply confined_deref. intros x ->. apply confined_get. intros k Hk.
  destruct (truthy (env_ipc_recving (envs k x))) eqn:E; cbn [negb]; [|by split; [|apply no_right_cur]].
  assert (Hx : x <> e) by (intros ->; by rewrite (nr_deaf _ Hk) in E).
  apply spares_confined; [|done]. spare.
Qed.

Lemma set_trapframe_confined id tf : confined (sys_set_trapframe id tf).
Proof.
  unfold sys_set_trapframe. destruct (is_illegal_va_range _ _); [by apply spares_confined, spares_ret|].
  apply confined_check. intros p Hp. apply spares_confined.
  apply spares_bind; [spare|]. intros k. apply spares_bind; [spare|]. intros l.
  destruct (bool_decide _); [spare|]. destruct p as [x|]; [|by intros k1 Hk1].
  change (spares e (upd_env x (set_env_tf (tf_of_words l)) ;! ret 0)). spare.
Qed.

Lemma syscall_confined dev_read void_ret n a1 a2 a3 a4 a5 :
  confined (syscall_table dev_read void_ret n a1 a2 a3 a4 a5).
Proof.
  unfold syscall_table. repeat case_match; try (apply exofork_confined || apply ipc_try_send_confined || apply set_trapframe_confined);
    first [by apply spares_confined, print_cons_spares|by apply spares_confined, cgetc_spares
      |by apply spares_confined, ipc_recv_spares|idtac].
  all:
    unfold sys_putchar, printcharc, sys_getenvid, sys_yield, sys_env_destroy, sys_set_tlb_mod_entry,
      sys_mem_alloc, sys_mem_map, sys_mem_unmap, sys_set_env_status, sys_panic,
      sys_write_dev, sys_read_dev, dev_ok.
  all: by confine_step.
Qed.

(** ** Traps *)
Lemma no_right_same k k' : envs k' = envs k -> curenv k' = curenv k ->
  env_free_list k' = env_free_list k -> no_right k -> no_right k'.
Proof. intros He Hc Hf []. split; rewrite ?He, ?Hc, ?Hf; done. Qed.

Lemma confined_modify {A} f (m : KM A) :
  (forall k, envs (f k) = envs k /\ curenv (f k) = curenv k /\ env_free_list (f k) = env_free_list k) ->
  confined m -> confined (modify f ;! m).
Proof.
  intros Hf Hm k Hk. destruct (Hf k) as (He & Hc & Hl). unfold bind, modify.
  specialize (Hm (f k) (no_right_same _ _ He Hc Hl Hk)). unfold left_alone, untouched in *.
  by rewrite He in Hm.
Qed.

Lemma confined_bind {A B} (m : KM A) (f : A -> KM B) :
  confined m -> (forall a, spares e (f a)) -> confined (bind m f).
Proof.
  intros Hm Hf k Hk. specialize (Hm k Hk). unfold bind. destruct (m k) as [a k1| | |]; try done.
  destruct Hm as [Hu Hc]. specialize (Hf a k1 Hc).
  destruct (f a k1) as [b k2| | |]; try done; [destruct Hf as [? ?]; split; [|done]|..];
    by eapply untouched_trans.
Qed.

Lemma do_syscall_confined dev_read void_ret : confined (do_syscall dev_read void_ret).
Proof.
  unfold do_syscall. apply confined_get. intros k Hk. cbv zeta.
  revert Hk. generalize (kstack k). intros tf. revert k.
  match goal with |- forall k, _ -> left_alone e k (?m k) => change (confined m) end.
  destruct (_ || _); [apply spares_confined; spare|].
  apply confined_modify; [by intros []|]. apply confined_bind; [apply syscall_confined|]. intros r. spare.
Qed.

Lemma page_fault_spares : spares e normal_page_fault.
Proof. unfold normal_page_fault. spare. Qed.
Lemma vpt_spares : spares e query_vpt.
Proof. unfold query_vpt, vpt_entry. spare. Qed.
Lemma user_mod_spares : spares e user_mod.
Proof. unfold user_mod. spare. Qed.
Hint Resolve page_fault_spares vpt_spares user_mod_spares : confine.

Lemma interrupt_spares : spares e interrupt_handler.
Proof. unfold interrupt_handler, clock_set_next_event, clear_sstatus. spare. Qed.

Lemma dispatch_confined dev_read void_ret : confined (traps_dispatch dev_read void_ret).
Proof.
  unfold traps_dispatch. apply confined_get. intros k Hk. destruct (_ <=? _).
  { exact (spares_confined _ interrupt_spares k Hk). }
  unfold exception_handler. revert k Hk.
  match goal with |- forall k, _ -> left_alone e k (?m k) => change (confined m) end.
  apply confined_get. intros k Hk. cbv zeta. destruct (_ =? _); [by apply (spares_confined (panic _) (spares_panic e _))|].
  destruct (_ =? _); [by apply do_syscall_confined|].
  apply (spares_confined (A := unit)); [|done]. spare.
Qed.
End Calls.


(** Environment 0 runs and asks to destroy environment 1, no child of its own. *)
Definition ex_frame (n a1 : Z) : Trapframe :=
  mkTF (fun r => if r =? 10 then n else if r =? 11 then a1 else 0) 0 0 0 0x400000.
Definition ex_other_env (id parent : Z) : Env :=
  mkEnv (ex_frame 0 0) id 0 parent ENV_RUNNABLE 0 1 0 0 0 0 0 0 0.
Definition ex_pair : kst :=
  mkK (mkPm 0 16 0 0 0 0 (mkLIST None (fun _ => LE_ZERO)) (fun _ => 0) (fun _ => 0) [] 0 true)
    (fun e => if e =? 0 then ex_other_env 2048 0 else ex_other_env 4097 0)
    (Some 0) (mkLIST (Some 2) (fun _ => LE_ZERO)) (mkTAILQ (mkLIST None (fun _ => LE_ZERO)) HEAD)
    0 (fun _ => 0) 0 1 (ex_frame 0 0) (ex_frame SYS_env_destroy 4097) [] [] [] 0 0.

