(* ===== verification/TrapsProps.v ===== *)
(** * What traps guarantee *)
From S2P Require Import Prelude Queue Mmu Pmap PmapFacts PmapInv PmapSpec PmapBoot PmapProps.
From S2P Require Import UserMem Elf Env EnvFree Sched EnvFacts EnvProps Syscall SyscallProps Traps.

(** The frame a trap saves. *)
Definition trap_frame (k : kst) (scause sbadaddr : Z) : Trapframe :=
  mkTF (regs (cpu k)) (sstatus k) sbadaddr scause (epc (cpu k)).

Lemma trap_run dev vr scause sbadaddr k :
  trap dev vr scause sbadaddr k =
  (traps_dispatch dev vr ;! modify (fun k => set_cpu (kstack k) k))
    (set_kstack (trap_frame k scause sbadaddr) k).
Proof. done. Qed.

(** [normal_page_fault] in the state of a trap. *)
Lemma page_fault_run boot D fl k d va :
  pm_inv boot D fl (pm k) -> (forall p, 0 <= boot p) -> d ∈ D -> cur_pgdir (pm k) = page2pa d ->
  badvaddr (kstack k) = va -> 0 <= va < UTOP ->
  match entry (pm k) d va with
  | Some _ => normal_page_fault k = Ret tt k
  | None =>
      if refused_zone va then exists msg, normal_page_fault k = Panic msg k
      else
        (exists p s' fl', normal_page_fault k = Ret tt (set_pm s' k) /\ pm_inv boot D fl' s' /\
           p ∈ fl /\ mapped_as s' d va p (Z.lor PTE_W PTE_U) /\ others_same (pm k) s' D d va /\
           pp_ref s' p = 1) \/
        ((length fl <= 1)%nat /\ exists msg k', normal_page_fault k = Panic msg k')
  end.
Proof.
  intros I Hb Hd Hc Hbad Hva.
  set (asid := Z.shiftr (Z.land (csr_satp (pm k)) 0x7FFFFFFF) 22).
  assert (Hn : normal_page_fault k = kpm (_do_tlb_refill va asid) k)
    by (unfold normal_page_fault, bind, get; by rewrite Hbad).
  rewrite Hn. pose proof (do_tlb_refill_run boot D fl (pm k) d va asid I Hb Hd Hc Hva) as H.
  destruct (entry (pm k) d va); [by apply kpm_same|].
  unfold kpm, zoom. destruct (refused_zone va).
  - destruct H as (msg & ->). exists msg. by destruct k.
  - destruct H as [(p & s' & fl' & -> & I' & Hp & Hm & Ho & Hr)|(Hl & msg & s' & ->)];
      [left; by exists p, s', fl'|right; split; [done|by eexists _, _]].
Qed.

(** What a served fault at [va] makes of memory: nothing when the address is
    mapped, else one page of the free list, writable by the user. *)
Definition fault_page (D fl : list Z) (d va : Z) (s s' : pmst) : Prop :=
  match entry s d va with
  | Some _ => s' = s
  | None => exists p, p ∈ fl /\ mapped_as s' d va p (Z.lor PTE_W PTE_U) /\
      pp_ref s' p = 1 /\ others_same s s' D d va
  end.



Lemma sched_inv_set_pm k q s : sched_inv k q -> sched_inv (set_pm s k) q.
Proof. intros []. by constructor. Qed.

(** C18. A timer interrupt of a running environment [c] reprograms the timer,
    saves [c]'s interrupted context whole and runs the environment the
    round-robin scheduler picks, with that environment's saved context
    restored ([c]'s own when it keeps the CPU). *)
Theorem timer_preempts dev vr k q c sbadaddr :
  sched_inv k q -> curenv k = Some c -> c ∈ q -> cur_pgdir (pm k) <> 0 ->
  exists a k' e, astep (fun e => env_pri (envs k e)) false (abs k q) = Some a /\
    trap dev vr (0x80000000 + IRQ_S_TIMER) sbadaddr k = Noret k' /\
    a_cur a = Some e /\ abs k' (a_queue a) = a /\ sched_inv k' (a_queue a) /\
    timer_set k' = timer_set k + 1 /\
    env_tf (envs k' c) = trap_frame k (0x80000000 + IRQ_S_TIMER) sbadaddr /\
    cpu k' = (if decide (e = c) then trap_frame k (0x80000000 + IRQ_S_TIMER) sbadaddr
              else env_tf (envs k e)).
Proof.
  intros I Hc Hin Hpg. rewrite trap_run. set (tf := trap_frame _ _ _).
  set (k1 := set_timer_set (timer_set k + 1) (set_kstack tf k)).
  assert (Hdisp : forall k', @schedule unit false k1 = Noret k' ->
    (traps_dispatch dev vr ;! modify (fun k => set_cpu (kstack k) k)) (set_kstack tf k) = Noret k').
  { intros k' Hs. unfold traps_dispatch, interrupt_handler, bind at 1 2, get. cbv beta iota.
    change (0x80000000 <=? cause (kstack (set_kstack tf k))) with true. cbv iota.
    unfold bind at 1, get. cbv beta iota zeta.
    change (Z.land (cause (kstack (set_kstack tf k))) 0x7FFFFFFF =? IRQ_S_TIMER) with true. cbv iota.
    unfold clock_set_next_event, modify at 1, bind at 1 2.
    change (cur_pgdir (pm (set_kstack tf k))) with (cur_pgdir (pm k)).
    destruct (Z.eqb_spec (cur_pgdir (pm k)) 0); [done|].
    unfold ret. fold k1. change (set_timer_set _ _) with k1. by rewrite Hs. }
  assert (I1 : sched_inv k1 q) by (by apply (sched_inv_frame k)).
  pose proof (@schedule_eq k1 q I1 unit false) as Hs.
  change (fun e => env_pri (envs k1 e)) with (fun e => env_pri (envs k e)) in Hs.
  change (abs k1 q) with (abs k q) in Hs.
  destruct (astep _ false (abs k q)) as [a|] eqn:Ha.
  2: { exfalso. unfold astep in Ha. cbn [abs a_queue a_cur a_count] in Ha. rewrite Hc in Ha.
       rewrite bool_decide_eq_true_2 in Ha by done. destruct (_ || _); [|done].
       unfold rotate in Ha. by destruct (filter (.≠ c) q). }
  destruct Hs as (qs & e & Hs & Hcur & Hein & Hr & Hqq & Hn).
  destruct (run_from_inv k1 q I1 qs (a_queue a) e (a_count a) Hr Hqq Hein Hn) as [I' Habs].
  exists a, (run_from k1 qs e (a_count a)), e. split; [done|]. split; [by apply Hdisp|].
  split; [done|]. set (k2 := set_sched_count (a_count a) (set_env_sched_list qs k1)).
  destruct (run_envs_fields e k2 c) as (_ & _ & _ & _ & _ & _ & _ & Htf).
  destruct (run_envs_fields e k2 e) as (_ & _ & _ & _ & _ & _ & _ & Htf2).
  change (curenv k2) with (curenv k) in Htf, Htf2. rewrite Hc in Htf, Htf2.
  rewrite decide_True in Htf by done.
  split_and!; try done.
  - rewrite Habs. destruct a; cbn in *; by rewrite Hcur.
  - change (env_tf (run_envs e k2 e) = (if decide (e = c) then tf else env_tf (envs k e))).
    rewrite Htf2. repeat case_decide; (done || congruence).
Qed.

Lemma timer_preempts_witness :
  let k := set_pm (set_cur_pgdir (page2pa ex_dir) ex_vm) ex_kst in
  exists a k' e, astep (fun e => env_pri (envs k e)) false (abs k [0; 1; 2]) = Some a /\
    trap (fun _ => 0) 0 (0x80000000 + IRQ_S_TIMER) 0 k = Noret k' /\
    a_cur a = Some e /\ abs k' (a_queue a) = a /\ sched_inv k' (a_queue a) /\
    timer_set k' = timer_set k + 1 /\
    env_tf (envs k' 0) = trap_frame k (0x80000000 + IRQ_S_TIMER) 0 /\
    cpu k' = (if decide (e = 0) then trap_frame k (0x80000000 + IRQ_S_TIMER) 0
              else env_tf (envs k e)).
Proof.
  apply timer_preempts.
  - apply sched_inv_set_pm. exact ex_kst_inv.
  - done.
  - by apply (bool_decide_unpack _).
  - by vm_compute.
Defined.

(** ** Where the code departs from its intent *)

(** A bad system call number is answered before the program counter is moved
    past the [ecall], and [-E_NO_SYS] is itself a bad number: the trap returns
    to the same instruction with a bad number again. *)
Lemma bad_syscall_loops dev vr k :
  let sysno := s32 (regs (cpu k) 10) in
  (sysno <? 0) || (MAX_SYSNO <=? sysno) = true ->
  exists k', trap dev vr CAUSE_USER_ECALL 0 k = Ret tt k' /\ epc (cpu k') = epc (cpu k) /\
    let sysno' := s32 (regs (cpu k') 10) in (sysno' <? 0) || (MAX_SYSNO <=? sysno') = true.
Proof.
  intros sysno Hbad. rewrite trap_run. set (k0 := set_kstack _ k).
  exists (set_cpu (set_reg 10 (u32 (- E_NO_SYS)) (kstack k0))
           (set_kstack (set_reg 10 (u32 (- E_NO_SYS)) (kstack k0)) k0)).
  split; [|split; [done|by vm_compute]].
  unfold traps_dispatch, bind at 1 2, get. cbv beta iota.
  change (0x80000000 <=? cause (kstack k0)) with false. cbv iota.
  unfold exception_handler, bind at 1, get. cbv beta iota zeta.
  change (cause (kstack k0)) with CAUSE_USER_ECALL.
  change (CAUSE_USER_ECALL =? CAUSE_FAULT_FETCH) with false.
  change (CAUSE_USER_ECALL =? CAUSE_USER_ECALL) with true. cbv iota.
  unfold do_syscall, bind at 1, get. cbv beta iota zeta.
  change (s32 (regs (kstack k0) 10)) with sysno. rewrite Hbad. reflexivity.
Qed.
