(* ===== verification/Init.v ===== *)
(** * Start of the kernel and its messages (init/init.c, kern/printk.c, kern/panic.c)

    The hart has three registers that only the start-up code writes; the rest
    of the state is the kernel's.  The images the kernel is linked with, the
    addresses the linker chooses and the size of memory are arguments. *)
From S2P Require Import Prelude Queue Mmu Pmap UserMem Print Elf Env Sched Syscall Traps.

(** ** Messages *)
Definition outputk : fmt_callback_t kst := fun buf => forM buf printcharc.
Definition printk (fmt : list Z) (ap : list va_arg) : KM unit := vprintfmt outputk fmt ap.

(** The registers [_panic] prints. *)
Record panic_regs : Type := mkRegs {
  pr_sp : Z; pr_ra : Z; pr_badva : Z; pr_status : Z; pr_cause : Z; pr_epc : Z
}.

(** [curenv] as the pointer it is; [envs] starts at [envs_addr]. *)
Definition env_addr (envs_addr : Z) (e : option Z) : Z :=
  match e with Some e => envs_addr + e * SIZEOF_ENV | None => 0 end.

(** The message of [_panic] in a debug build; [envs_addr] is not null. *)
Definition panic_message (envs_addr : Z) (r : panic_regs) (file : list Z) (line : Z)
    (func fmt : list Z) (ap : list va_arg) : KM unit :=
  printk (chars "panic at %s:%d (%s): ") [VStr file; VInt line; VStr func] ;!
  vprintfmt outputk fmt ap ;!
  printk (newline ++ chars "ra:    %08x  sp:  %08x  Status: %08x" ++ newline ++
          chars "Cause: %08x  EPC: %08x  BadVA:  %08x" ++ newline)
    [VInt (pr_ra r); VInt (pr_sp r); VInt (pr_status r); VInt (pr_cause r); VInt (pr_epc r); VInt (pr_badva r)] ;!
  let! k := get in
  let c := env_addr envs_addr (curenv k) in
  (if KERNBASE <=? c then
     let! e := deref (curenv k) in
     printk (chars "curenv:    %x (id = 0x%x, off = %d)" ++ newline)
       [VInt c; VInt (env_id (envs k e)); VInt e]
   else if truthy c then printk (chars "curenv:    %x (invalid)" ++ newline) [VInt c]
   else printk (chars "curenv:    NULL" ++ newline) []) ;!
  let d := cur_pgdir (pm k) in
  if KERNBASE <=? d then printk (chars "cur_pgdir: %x" ++ newline) [VInt d]
  else if truthy d then printk (chars "cur_pgdir: %x (invalid)" ++ newline) [VInt d]
  else printk (chars "cur_pgdir: NULL" ++ newline) [VInt d].

(** SBI does not return from a shutdown. *)
Definition halt {A} : KM A := noreturn.

(** [_panic]: both ways to end, the loop and the shutdown, do not return. *)
Definition _panic (debug : bool) (envs_addr : Z) (r : panic_regs) (file : list Z) (line : Z)
    (func fmt : list Z) (ap : list va_arg) : KM unit :=
  (if debug then panic_message envs_addr r file line func fmt ap else ret tt) ;!
  halt.

(** ** Start *)
Record hart : Type := mkHart { kern : kst; sie : Z; stvec : Z; sscratch : Z }.
Definition set_kern (v : kst) (h : hart) : hart := mkHart v (sie h) (stvec h) (sscratch h).
Definition set_sie (v : Z) (h : hart) : hart := mkHart (kern h) v (stvec h) (sscratch h).
Definition set_stvec (v : Z) (h : hart) : hart := mkHart (kern h) (sie h) v (sscratch h).
Definition set_sscratch (v : Z) (h : hart) : hart := mkHart (kern h) (sie h) (stvec h) v.
Definition kernel {A} (m : KM A) : M hart A := zoom kern set_kern m.

Definition MIP_STIP : Z := Z.shiftl 1 IRQ_S_TIMER.

Definition kclock_init : M hart unit :=
  modify (fun h => set_sie (Z.lor (sie h) MIP_STIP) h) ;!
  kernel clock_set_next_event.

Definition idt_init (exc_gen_entry : Z) : M hart unit :=
  modify (set_sscratch 0) ;!
  modify (set_stvec exc_gen_entry) ;!
  kernel (modify (fun k => set_sstatus (Z.lor (sstatus k) SSTATUS_SIE) k)).

(** An executable as [bintoc] links it in: [binary_x_start], [binary_x_size]. *)
Record linked : Type := mkLinked { binary_start : Z -> Z; binary_size : Z }.

Definition ENV_CREATE_PRIORITY (x : linked) (y : Z) : KM Z :=
  env_create (binary_start x) (binary_size x) y.
Definition ENV_CREATE (x : linked) : KM Z := ENV_CREATE_PRIORITY x 1.

(** What the linker and the machine decide: [end] and the end of the bss, the
    address of [envs], the trap entry, the size of memory [query_mem_size]
    reads from the device tree. *)
Record layout : Type := mkLayout {
  mem_size : Z; kend : Z; bss_end : Z; envs_addr : Z; exc_gen_entry : Z
}.

(** The last loop waits for the first timer interrupt. *)
Definition rv32_init (l : layout) (user_icode fs_serv : linked) : M hart unit :=
  kernel (kpm (riscv_detect_memory (mem_size l))) ;!
  kernel (kpm (riscv_vm_init (kend l) (bss_end l))) ;!
  kernel (kpm page_init) ;!
  kernel (env_init (envs_addr l)) ;!
  kernel (ENV_CREATE user_icode) ;!
  kernel (ENV_CREATE fs_serv) ;!
  kclock_init ;!
  idt_init (exc_gen_entry l) ;!
  noreturn.
