(* ===== verification/InitProps.v ===== *)
(** * The system after start-up

    The chain of initialisers of [rv32_init], from memory that is all free to
    two environments that wait for the first timer interrupt. *)
From S2P Require Import Prelude Queue Mmu Pmap PmapFacts PmapInv PmapSpec PmapFrame PmapBoot.
From S2P Require Import UserMem Print Stdio Elf Env EnvFree Sched EnvFacts EnvProps KernMap LoadProps CreateProps.
From S2P Require Import Syscall Traps Init.

(** ** Messages *)

(** [printk] puts the formatted text on the console. *)
Lemma outputk_run l k : exists k', outputk l k = Ret tt k' /\
  reverse (cons_out k') = reverse (cons_out k) ++ (u8 <$> l) /\ pm k' = pm k /\ curenv k' = curenv k.
Proof.
  unfold outputk. revert k. induction l as [|c l IH]; intros k; cbn [forM].
  - exists k. by rewrite app_nil_r.
  - destruct (IH (set_cons_out (u8 c :: cons_out k) k)) as (k' & Hr & Ht & Hp & Hc).
    exists k'. split; [exact Hr|]. split; [|done].
    rewrite Ht. cbn [cons_out set_cons_out]. by rewrite reverse_cons, <- app_assoc.
Qed.

Lemma printk_text fmt ap k :
  match vprintfmt collect fmt ap [] with
  | Ret _ text => exists k', printk fmt ap k = Ret tt k' /\
      reverse (cons_out k') = reverse (cons_out k) ++ (u8 <$> text)
  | _ => printk fmt ap k = Fault
  end.
Proof.
  set (R := fun (log : list Z) (k' : kst) => reverse (cons_out k') = reverse (cons_out k) ++ (u8 <$> log)).
  assert (Hout : forall l log c, R log c -> exists c', outputk l c = Ret tt c' /\ R (log ++ l) c').
  { intros l log c Hc. destruct (outputk_run l c) as (c' & Hr & Ht & _). exists c'. split; [done|].
    unfold R in *. by rewrite Ht, Hc, fmap_app, app_assoc. }
  assert (H0 : R [] k) by (unfold R; by rewrite app_nil_r).
  pose proof (step_vprintfmt outputk R Hout fmt ap [] k H0) as Hs. unfold printk.
  destruct (vprintfmt collect fmt ap []) as [[] text| | |]; try done.
Qed.

(** ** Memory before [page_init] *)
Definition rup (x : Z) : Z := (x + 4095) / 4096 * 4096.

Lemma rup_bounds x : x <= rup x < x + 4096.
Proof. unfold rup. Z.div_mod_to_equations. lia. Qed.

Lemma rup_mod x : rup x mod 4096 = 0.
Proof. unfold rup. by apply Z.mod_mul. Qed.

Lemma alloc_run kend n clear s :
  let f := if freemem s =? 0 then kend else freemem s in
  KSEG0 <= f -> 0 <= n -> memsize s <= 0x20000000 -> rup f + n < KSEG0 + memsize s ->
  exists m, alloc kend n BY2PG clear s = Ret (rup f) (set_mem m (set_freemem (rup f + n) s)).
Proof.
  intros f Hf Hn Hms Hfit. pose proof (rup_bounds f). unfold KSEG0 in *.
  unfold alloc, KSEG0. rewrite (bind_step (gets _) _ s _ _ eq_refl), (bind_step (modify _) _ s _ _ eq_refl).
  fold f. set (s1 := set_freemem f s).
  rewrite (bind_step (gets _) _ s1 _ _ eq_refl), (bind_step (modify _) _ s1 _ _ eq_refl).
  change (freemem s1) with f. rewrite ROUND_page by lia. fold (rup f). set (s2 := set_freemem (rup f) s1).
  rewrite (bind_step (gets _) _ s2 _ _ eq_refl), (bind_step (modify _) _ s2 _ _ eq_refl).
  change (freemem s2) with (rup f). rewrite (u32_id (rup f + n)) by lia. set (s3 := set_freemem _ s2).
  rewrite (bind_step get _ s3 _ _ eq_refl). change (freemem s3) with (rup f + n).
  change (memsize s3) with (memsize s). rewrite u32_id by lia.
  destruct (Z.leb_spec (memsize s) (rup f + n - 0x80000000)); [lia|].
  rewrite (bind_step (panic_on 0) _ _ tt _ eq_refl).
  destruct clear; eexists; [reflexivity|]. rewrite (bind_step (ret tt) _ _ tt _ eq_refl).
  instantiate (1 := mem s). by destruct s.
Qed.

(** A loop of stores within memory. *)
Lemma st_loop {A} (l : list A) (f : A -> Z) (g : A -> PM Z) s :
  (forall x, x ∈ l -> in_ram s (f x) = true /\ forall s', exists v, g x s' = Ret v s') ->
  exists m, forM l (fun x => let! v := g x in st (f x) (Z.lor v 239)) s = Ret tt (set_mem m s).
Proof.
  revert s. induction l as [|x l IH]; intros s H; cbn [forM].
  - exists (mem s). by destruct s.
  - destruct (H x ltac:(set_solver)) as [Hin Hg]. destruct (Hg s) as [v Hv].
    rewrite bind_assoc, (bind_step _ _ _ _ _ Hv), (bind_step _ _ _ _ _ (st_ok s _ _ Hin)).
    destruct (IH (set_mem (upd (mem s) (f x) (Z.lor v 239)) s)) as (m & Hm).
    + intros y Hy. apply H. set_solver.
    + exists m. rewrite Hm. by destruct s.
Qed.

(** The pages the boot allocator uses: the array of [struct Page], then the
    page directory of the kernel. *)
Section Layout.
Context (l : layout).

Definition n_pages : Z := mem_size l / BY2PG.
Definition pages_addr : Z := rup (kend l).
Definition kdir_addr : Z := rup (pages_addr + n_pages * SIZEOF_PAGE).
Definition boot_end : Z := kdir_addr + BY2PG.

(** A machine the kernel fits: at most the 512 MB below the devices, in whole
    pages, with the kernel's image at the bottom. *)
Record layout_ok : Prop := {
  lo_mem : 0 < mem_size l <= 0x20000000 /\ mem_size l mod BY2PG = 0;
  lo_bss : 0 <= bss_end l /\ bss_end l + BY2PG * 16 <= KSTACKTOP;
  lo_envs : KSEG0 <= envs_addr l /\ envs_addr l mod BY2PG = 0 /\
            envs_addr l + NENV * SIZEOF_ENV <= kend l;
  lo_fits : boot_end < KSEG0 + mem_size l
}.
Context (Hl : layout_ok).

Lemma layout_bounds :
  0 < n_pages <= 0x20000 /\ mem_size l = n_pages * BY2PG /\
  KSEG0 <= kend l <= pages_addr /\ pages_addr + n_pages * SIZEOF_PAGE <= kdir_addr /\
  boot_end < KSEG0 + n_pages * BY2PG.
Proof using Hl.
  destruct Hl as [[Hm0 Hm] _ (He1 & _ & He2) Hf].
  assert (Hms : mem_size l = n_pages * BY2PG).
  { unfold n_pages. pose proof (Z.div_mod (mem_size l) BY2PG ltac:(done)). lia. }
  change (NENV * SIZEOF_ENV) with 217088 in He2. unfold KSEG0 in *.
  pose proof (rup_bounds (kend l)). pose proof (rup_bounds (pages_addr + n_pages * SIZEOF_PAGE)).
  unfold kdir_addr, pages_addr, BY2PG in *. lia.
Qed.

(** What [riscv_vm_init] leaves for [page_init]. *)
Record vm_ready (s : pmst) : Prop := {
  vr_npage : npage s = n_pages;
  vr_freemem : freemem s = boot_end;
  vr_ref : forall p, pp_ref s p = 0;
  vr_pages : pages s = pages_addr;
  vr_kdir : kbasepgdir s = kdir_addr
}.

Definition kernel_map : Z -> PM unit := fun i =>
  let! pte := PADDR2PTE i in
  st (kdir_addr + 4 * PDX i)
     (Z.lor pte (Z.lor PTE_G (Z.lor PTE_A (Z.lor PTE_D (Z.lor PTE_R (Z.lor PTE_W (Z.lor PTE_X PTE_V))))))).

Lemma kdir_in_ram s i : npage s = n_pages -> in_ram s (kdir_addr + 4 * PDX i) = true.
Proof using Hl.
  intros Hn. destruct layout_bounds as (Hnp & _ & Hk & Hp & Hb). pose proof (PDX_range i) as Hx.
  unfold KSEG0, BY2PG in *.
  set (b := kdir_addr / 4096 - 0x80000).
  pose proof (Z.div_mod kdir_addr 4096 ltac:(lia)) as Hd.
  assert (Hm : kdir_addr mod 4096 = 0) by apply rup_mod. rewrite Hm in Hd.
  unfold boot_end, BY2PG, SIZEOF_PAGE in *.
  assert (Hb' : is_page s b) by (unfold is_page; rewrite Hn; subst b; lia).
  assert (Hram : ram_ok s) by (unfold ram_ok; lia).
  replace kdir_addr with (page2pa b); [by apply in_ram_entry|].
  rewrite (page2pa_eq s Hram b Hb'). unfold KSEG0. subst b. lia.
Qed.

Lemma kernel_map_run s : npage s = n_pages ->
  exists m, forM (c_range KSEG0 (KSEG0 + mem_size l) PDMAP) kernel_map s = Ret tt (set_mem m s).
Proof using Hl.
  intros Hn. apply (st_loop _ (fun i => kdir_addr + 4 * PDX i) PADDR2PTE). intros i Hi.
  split; [by apply kdir_in_ram|]. intros s'. unfold c_range in Hi.
  apply list_elem_of_fmap in Hi as (k & -> & Hk). apply elem_of_seqZ in Hk.
  destruct (lo_mem Hl) as [Hm _]. unfold KSEG0, PDMAP in *.
  replace (2147483648 + mem_size l - 2147483648) with (mem_size l) in Hk by lia.
  assert (k <= 128) by (Z.div_mod_to_equations; lia).
  unfold PADDR2PTE. rewrite u32_id by lia. unfold KSEG0.
  destruct (Z.ltb_spec (2147483648 + k * (4 * 1024 * 1024)) 2147483648); [lia|by eexists].
Qed.

Lemma alloc_pages_run s : freemem s = 0 -> memsize s = mem_size l ->
  exists m, alloc (kend l) (n_pages * SIZEOF_PAGE) BY2PG true s =
    Ret pages_addr (set_mem m (set_freemem (pages_addr + n_pages * SIZEOF_PAGE) s)).
Proof using Hl.
  intros Hf Hm. destruct layout_bounds as (Hnp & Hms & Hk & Hp & Hb). destruct (lo_mem Hl) as [Hmb _].
  pose proof (alloc_run (kend l) (n_pages * SIZEOF_PAGE) true s) as Hr. cbv zeta in Hr.
  rewrite Hf in Hr. cbn [Z.eqb] in Hr. fold pages_addr in Hr.
  apply Hr; [lia|unfold SIZEOF_PAGE; lia|lia|unfold boot_end, BY2PG in *; lia].
Qed.

Lemma alloc_kdir_run s : freemem s = pages_addr + n_pages * SIZEOF_PAGE -> memsize s = mem_size l ->
  exists m, alloc (kend l) BY2PG BY2PG true s = Ret kdir_addr (set_mem m (set_freemem boot_end s)).
Proof using Hl.
  intros Hf Hm. destruct layout_bounds as (Hnp & Hms & Hk & Hp & Hb). destruct (lo_mem Hl) as [Hmb _].
  assert (Hnz : freemem s =? 0 = false).
  { apply Z.eqb_neq. rewrite Hf. unfold KSEG0, SIZEOF_PAGE in *. lia. }
  pose proof (alloc_run (kend l) BY2PG true s) as Hr. cbv zeta in Hr.
  rewrite Hnz, Hf in Hr. fold kdir_addr in Hr.
  apply Hr; [unfold SIZEOF_PAGE, KSEG0 in *; lia|done|lia|unfold boot_end in *; lia].
Qed.

Lemma vm_init_run s : freemem s = 0 -> exists s',
  (riscv_detect_memory (mem_size l) ;! riscv_vm_init (kend l) (bss_end l)) s = Ret tt s' /\ vm_ready s'.
Proof using Hl.
  intros Hf. destruct layout_bounds as (Hnp & _ & _). destruct (lo_bss Hl) as [Hb0 Hbss].
  set (s0 := set_npage (mem_size l / BY2PG) (set_memsize (mem_size l) s)).
  rewrite (bind_step (riscv_detect_memory _) _ s tt s0 eq_refl). unfold riscv_vm_init.
  rewrite (u32_id (bss_end l + BY2PG * 16)) by (unfold BY2PG, KSTACKTOP in *; lia).
  rewrite (proj2 (Z.leb_le _ _) Hbss).
  rewrite (bind_step (c_assert true) _ s0 tt s0 eq_refl), (bind_step (gets npage) _ s0 _ _ eq_refl).
  change (npage s0) with n_pages. rewrite (u32_id (n_pages * SIZEOF_PAGE)) by (unfold SIZEOF_PAGE; lia).
  destruct (alloc_pages_run s0 Hf eq_refl) as [m1 H1]. rewrite (bind_step _ _ _ _ _ H1).
  rewrite (bind_step (modify _) _ _ _ _ eq_refl). set (s2 := set_pages _ _).
  destruct (alloc_kdir_run s2 eq_refl eq_refl) as [m2 H2]. rewrite (bind_step _ _ _ _ _ H2).
  rewrite (bind_step (modify _) _ _ _ _ eq_refl). set (s3 := set_kbasepgdir _ _).
  rewrite (bind_step (gets memsize) _ s3 _ _ eq_refl). change (memsize s3) with (mem_size l).
  destruct (kernel_map_run s3 eq_refl) as [m3 H3]. rewrite (bind_step _ _ _ _ _ H3).
  rewrite (bind_step _ _ _ _ _ (st_ok _ _ _ (kdir_in_ram (set_mem m3 s3) KMMIO eq_refl))).
  eexists. split; [reflexivity|]. by split.
Qed.

(** ** [page_init] *)

(** The first page the boot allocator did not use; the free list is the pages
    from there on, the last one first. *)
Definition n_boot : Z := boot_end / BY2PG - PPNOFFSET.
Definition free_pages : list Z := reverse (seqZ n_boot (n_pages - n_boot)).

Lemma boot_end_pages : boot_end = KSEG0 + n_boot * BY2PG /\ 0 <= n_boot <= n_pages.
Proof using Hl.
  destruct layout_bounds as (Hnp & Hms & Hk & Hp & Hb).
  assert (Hm : boot_end mod 4096 = 0).
  { unfold boot_end, kdir_addr, BY2PG. rewrite <- (Z.mul_1_l 4096) at 1. rewrite Z.mod_add by lia. apply rup_mod. }
  pose proof (Z.div_mod boot_end 4096 ltac:(lia)) as Hd. rewrite Hm in Hd.
  unfold n_boot, PPNOFFSET, KSEG0, BY2PG in *.
  assert (0x80000000 <= boot_end) by (unfold boot_end, BY2PG, SIZEOF_PAGE in *; lia). lia.
Qed.

Lemma elem_of_free_pages p : p ∈ free_pages <-> n_boot <= p < n_pages.
Proof using. unfold free_pages. rewrite elem_of_reverse, elem_of_seqZ. lia. Qed.

(** The references the kernel itself holds: one to each page the boot allocator
    used, and as the kernel's arrays are mapped one to each page on the way and
    one to each table. *)
Definition boot_ref (p : Z) : Z := Z.b2z (p <? n_boot).
Definition with_page (r : Z -> Z) (b p : Z) : Z := r p + Z.b2z (p =? b).
Definition with_array (r : Z -> Z) (T q n p : Z) : Z :=
  with_page r T p + Z.b2z ((q <=? p) && (p <? q + n)).

(** Memory after [page_init] and after each mapping of the kernel's arrays:
    the pages below [n_boot] are in use, and all references are the kernel's. *)
Record pages_ready (r : Z -> Z) (fl : list Z) (s : pmst) : Prop := {
  pr_inv : free_inv fl s;
  pr_npage : npage s = n_pages;
  pr_used : forall p, 0 <= p < n_boot -> p ∉ fl;
  pr_ref : forall p, is_page s p -> pp_ref s p = r p
}.

Lemma page_init_run s : vm_ready s -> exists s',
  page_init s = Ret tt s' /\ pages_ready boot_ref free_pages s' /\ pages s' = pages_addr.
Proof using Hl.
  intros [Hn Hf Hr Hp Hk]. destruct layout_bounds as (Hnp & _). destruct boot_end_pages as [He Hb].
  assert (Hu : n_used s = n_boot).
  { unfold n_used. rewrite Hf, He. unfold n_boot, BY2PG, KSEG0, PPNOFFSET in *. rewrite He.
    Z.div_mod_to_equations. lia. }
  destruct (page_init_inv s) as (s' & Hrun & I & Hn' & _ & Hr' & Hp' & _).
  - unfold ram_ok. lia.
  - rewrite Hf, He, Hn. unfold BY2PG. lia.
  - rewrite Hf, He. unfold KSEG0, BY2PG. lia.
  - done.
  - exists s'. split; [done|]. split; [|by rewrite Hp']. split.
    + eapply free_inv_intro. unfold free_pages. rewrite <- Hn, <- Hu. exact I.
    + by rewrite Hn'.
    + intros p Hpb. rewrite elem_of_free_pages. lia.
    + intros p Hpp. rewrite Hr' by (unfold is_page in *; lia).
      unfold boot_refs, boot_ref. rewrite Hu. by destruct (p <? n_boot).
Qed.

(** ** [env_init] *)
Definition page_number (a : Z) : Z := a / BY2PG - PPNOFFSET.
Definition n_upages : Z := rup (n_pages * SIZEOF_PAGE) / BY2PG.
Definition n_uenvs : Z := NENV * SIZEOF_ENV / BY2PG.
Definition U_PERM : Z := Z.lor (Z.lor PTE_G PTE_U) (Z.lor PTE_R PTE_V).

(** All references but those of address spaces, once the arrays are mapped. *)
Definition kernel_refs (b T1 T2 : Z) : Z -> Z :=
  with_array (with_array (with_page boot_ref b) T1 (page_number pages_addr) n_upages)
    T2 (page_number (envs_addr l)) n_uenvs.

(** The template directory [b]: its tables [T1] and [T2] map the arrays. *)
Record template (fl : list Z) (s : pmst) (b T1 T2 : Z) : Prop := {
  tp_ready : pages_ready (kernel_refs b T1 T2) fl s;
  tp_apart : NoDup [b; T1; T2] /\ b ∉ fl /\ T1 ∉ fl /\ T2 ∉ fl;
  tp_upages : ktable s b (UPAGES / PDMAP) T1;
  tp_uenvs : ktable s b (UENVS / PDMAP) T2;
  tp_upages_leaf : forall j, 0 <= j < n_upages ->
    mem s (page2pa T1 + 4 * j) = leaf (page_number pages_addr + j) U_PERM;
  tp_uenvs_leaf : forall j, 0 <= j < n_uenvs ->
    mem s (page2pa T2 + 4 * j) = leaf (page_number (envs_addr l) + j) U_PERM
}.

(** The pages of the two arrays. *)
Lemma array_pages : 
  page2pa (page_number pages_addr) = pages_addr /\ 0 <= page_number pages_addr /\
  page_number pages_addr + n_upages <= n_boot /\ 1 <= n_upages <= 1024 /\
  page2pa (page_number (envs_addr l)) = envs_addr l /\ 0 <= page_number (envs_addr l) /\
  page_number (envs_addr l) + n_uenvs <= n_boot.
Proof using Hl.
  destruct layout_bounds as (Hnp & Hms & Hk & Hp & Hb). destruct boot_end_pages as [He Hbn].
  destruct (lo_envs Hl) as (Ha1 & Ha2 & Ha3).
  assert (Hpm : pages_addr mod 4096 = 0) by apply rup_mod.
  pose proof (Z.div_mod pages_addr 4096 ltac:(lia)) as Hd1. rewrite Hpm in Hd1.
  pose proof (Z.div_mod (envs_addr l) 4096 ltac:(lia)) as Hd2. unfold BY2PG in Ha2. rewrite Ha2 in Hd2.
  assert (Hn1 : n_upages * 4096 = rup (n_pages * 12)).
  { unfold n_upages, SIZEOF_PAGE, BY2PG, rup. by rewrite Z.div_mul. }
  pose proof (rup_bounds (n_pages * 12)) as Hr1.
  pose proof (rup_bounds (pages_addr + n_pages * SIZEOF_PAGE)) as Hr2. fold kdir_addr in Hr2.
  pose proof (rup_mod (pages_addr + n_pages * SIZEOF_PAGE)) as Hr3. fold kdir_addr in Hr3.
  pose proof (Z.div_mod kdir_addr 4096 ltac:(lia)) as Hd3. rewrite Hr3 in Hd3.
  change (NENV * SIZEOF_ENV) with 217088 in Ha3. change n_uenvs with 53.
  unfold boot_end, page_number, SIZEOF_PAGE, BY2PG, KSEG0, PPNOFFSET in *.
  assert (Hpg : forall x, 0 <= x < n_boot -> page2pa x = 0x80000000 + x * 4096).
  { intros x Hx. apply (page2pa_eq (set_npage n_pages ex_raw)); unfold ram_ok, is_page; cbn; lia. }
  split_and!; try lia; rewrite Hpg by lia; lia.
Qed.

(** Mapping [n] pages from [a] through the free page [T] keeps memory ready. *)
Lemma map_array_run r fl s T b va0 a n k :
  pages_ready r (T :: fl) s -> (forall p, r p < 100) -> is_page s b -> b ∉ T :: fl ->
  va0 mod PDMAP = 0 -> 0 <= va0 -> va0 + PDMAP <= ULIM -> 1 <= n <= 1024 ->
  page2pa (page_number a) = a -> 0 <= page_number a -> page_number a + n <= n_boot ->
  valid (pde s b (va0 / PDMAP)) = false ->
  exists s', map_segment (page2pa b) 0 a va0 (n * BY2PG) (Z.lor PTE_G PTE_U) (set_pm s k) =
      Ret tt (set_pm s' k) /\ pages_ready (with_array r T (page_number a) n) fl s' /\
    segment_mapped b va0 (page_number a) n (Z.lor PTE_G PTE_U) fl T s s'.
Proof using Hl.
  intros [I Hnp Hbt Href] Hr Hb Hbf Hal H0 Hul Hn Ha Hq Hqn Hv. destruct boot_end_pages as [_ Hbn].
  destruct (map_segment_run b va0 (page_number a) n (Z.lor PTE_G PTE_U) 0 k Hal H0 Hul ltac:(lia) fl s T)
    as (s' & Hrun & M); try done; [set_solver|lia| |].
  { intros j Hj. assert (Hpj : is_page s (page_number a + j)) by (unfold is_page; rewrite Hnp; lia).
    rewrite Href by done. pose proof (Hr (page_number a + j)). split_and!; [done|apply Hbt; lia|lia]. }
  rewrite Ha in Hrun. exists s'. split; [done|]. split; [|done]. split; [apply M|by rewrite (sg_npage _ _ _ _ _ _ _ _ _ M)|..].
  - intros p Hp. pose proof (Hbt p Hp) as Hpf. rewrite elem_of_cons in Hpf. tauto.
  - intros p Hp. assert (Hp' : is_page s p) by (unfold is_page in *; by rewrite (sg_npage _ _ _ _ _ _ _ _ _ M) in Hp).
    rewrite (sg_ref _ _ _ _ _ _ _ _ _ M), upd_case. unfold with_array, with_page.
    case_decide as HT; [|apply Z.eqb_neq in HT as ->; rewrite Href by done; cbn; lia].
    subst p. rewrite Z.eqb_refl, <- Href by done. by rewrite (inv_free_ref _ _ _ _ I) by set_solver.
Qed.

(** Both arrays. *)
Lemma map_arrays_run fl s b T1 T2 k :
  pages_ready (with_page boot_ref b) (T1 :: T2 :: fl) s -> is_page s b -> b ∉ T1 :: T2 :: fl ->
  (forall j, 0 <= j < 1024 -> mem s (page2pa b + 4 * j) = 0) -> exists s1 s2,
  map_segment (page2pa b) 0 pages_addr UPAGES (n_upages * BY2PG) (Z.lor PTE_G PTE_U) (set_pm s k) =
    Ret tt (set_pm s1 k) /\
  map_segment (page2pa b) 0 (envs_addr l) UENVS (n_uenvs * BY2PG) (Z.lor PTE_G PTE_U) (set_pm s1 k) =
    Ret tt (set_pm s2 k) /\ template fl s2 b T1 T2.
Proof using Hl.
  intros R Hb Hbf Hz. destruct array_pages as (Hp1 & Hq1 & Hn1 & Hn1' & Hp2 & Hq2 & Hn2).
  assert (Hc1 : 0 <= UPAGES / PDMAP < 1024 /\ 0 <= UENVS / PDMAP < 1024 /\ UENVS / PDMAP <> UPAGES / PDMAP)
    by (by vm_compute).
  destruct Hc1 as (Hc1 & Hc2 & Hc12).
  assert (Hlt : forall r T q n M, (forall p, r p < M) -> forall p, with_array r T q n p < M + 2).
  { intros r T q n M H p. specialize (H p). unfold with_array, with_page. destruct (p =? T), (_ && _); cbn; lia. }
  assert (H0 : forall p, with_page boot_ref b p < 3).
  { intros p. unfold with_page, boot_ref. destruct (_ <? _), (_ =? _); cbn; lia. }
  destruct (map_array_run (with_page boot_ref b) (T2 :: fl) s T1 b UPAGES pages_addr n_upages k R
    ltac:(intros p; specialize (H0 p); lia) Hb Hbf)
    as (s1 & Hr1 & R1 & M1); try done; [unfold pde; by rewrite Hz|].
  pose proof (pr_inv _ _ _ R) as I. pose proof (pr_inv _ _ _ R1) as I1.
  destruct (free_inv_alloc _ _ _ I) as (_ & _ & _ & _ & _ & _ & HT1 & HT1f & _).
  destruct (free_inv_alloc _ _ _ I1) as (_ & _ & _ & _ & _ & _ & HT2 & HT2f & _).
  pose proof (sg_npage _ _ _ _ _ _ _ _ _ M1) as Hnp1.
  assert (Hpg : forall p, is_page s p -> is_page s1 p) by (intros p; unfold is_page; by rewrite Hnp1).
  destruct (map_array_run _ fl s1 T2 b UENVS (envs_addr l) n_uenvs k R1
    ltac:(intros p; pose proof (Hlt _ T1 (page_number pages_addr) n_upages 3 H0 p); lia) (Hpg b Hb))
    as (s2 & Hr2 & R2 & M2); try done; [set_solver| |].
  { unfold pde. rewrite (sg_frame _ _ _ _ _ _ _ _ _ M1); [by rewrite Hz|done|set_solver|done|by right]. }
  exists s1, s2. do 2 (split; [done|]). destruct (sg_table _ _ _ _ _ _ _ _ _ M1) as [_ KT1 _ Kpde].
  pose proof (sg_npage _ _ _ _ _ _ _ _ _ M2) as Hnp2.
  split; [done| | |apply M2| |intros j Hj; by apply (sg_leaf _ _ _ _ _ _ _ _ _ M2)].
  - split; [|set_solver]. apply NoDup_cons. split; [set_solver|]. apply NoDup_cons.
    split; [set_solver|apply NoDup_singleton].
  - split; [by unfold is_page in *; rewrite Hnp2, Hnp1|by unfold is_page in *; rewrite Hnp2|done|].
    unfold pde. rewrite (sg_frame _ _ _ _ _ _ _ _ _ M2); [done|by apply Hpg|set_solver|done|right; done].
  - intros j Hj. rewrite (sg_frame _ _ _ _ _ _ _ _ _ M2); [|done|set_solver|lia|left; set_solver].
    by apply (sg_leaf _ _ _ _ _ _ _ _ _ M1).
Qed.

(** The page of the template directory. *)
Lemma new_base_run fl s b : pages_ready boot_ref (b :: fl) s -> exists s1,
  page_alloc s = Ret (OK b) s1 /\ pp_ref s1 b = 0 /\ npage s1 = npage s /\ pages s1 = pages s /\
  let s2 := set_pp_ref (upd (pp_ref s1) b 1) s1 in
  pages_ready (with_page boot_ref b) fl s2 /\ is_page s2 b /\ b ∉ fl /\
  (forall j, 0 <= j < 1024 -> mem s2 (page2pa b + 4 * j) = 0).
Proof using.
  intros [I Hn Hbt Href]. destruct (free_inv_alloc _ _ _ I) as (s1 & Hal & I1 & Hn1 & Hr1 & Hr0 & Hp & Hf & Hz & _).
  exists s1. split; [done|]. split; [by rewrite Hr1|]. split; [done|]. split.
  { destruct (page_alloc_cons _ _ _ (inv_free _ _ _ _ I)) as (q & _ & Hal').
    rewrite Hal' in Hal. by injection Hal as <-. }
  intros s2. split; [|split; [unfold is_page in *; cbn; by rewrite Hn1|by split]]. split.
  - apply free_inv_ref; [done|done|lia].
  - cbn. by rewrite Hn1.
  - intros p Hpb. pose proof (Hbt p Hpb) as Hpf. rewrite elem_of_cons in Hpf. tauto.
  - intros p Hpp. cbn. rewrite upd_case, Hr1. unfold with_page.
    assert (Hpp' : is_page s p) by (unfold is_page in *; cbn in Hpp; by rewrite Hn1 in Hpp).
    case_decide as Hpb; [|apply Z.eqb_neq in Hpb as ->; rewrite Href by done; cbn; lia].
    subst p. by rewrite Z.eqb_refl, <- Href, Hr0.
Qed.

(** Copying the kernel's entries into the template. *)
Lemma template_copy fl s b T1 T2 src : template fl s b T1 T2 ->
  template fl (set_mem (copy_range (page2pa b + 4 * PDX KSEG0) src (4 * 512) (mem s)) s) b T1 T2.
Proof using Hl.
  intros [[I Hn Hbt Href] Hap K1 K2 L1 L2]. pose proof (inv_ram _ _ _ _ I) as Hram.
  destruct UVPT_indices as (_ & _ & _ & H3).
  assert (Hout : forall p j, is_page s p -> 0 <= j < 1024 -> p <> b \/ j < 512 ->
    copy_range (page2pa b + 4 * PDX KSEG0) src (4 * 512) (mem s) (page2pa p + 4 * j) = mem s (page2pa p + 4 * j)).
  { intros p j Hp Hj Hor. rewrite H3. apply (copy_range_out s); try (done || lia); apply (kt_dir _ _ _ _ K1). }
  assert (Hc : UPAGES / PDMAP < 512 /\ UENVS / PDMAP < 512) by (by vm_compute).
  destruct Hap as (Hnd & Hbf & HT). pose proof Hnd as (Hb1 & _)%NoDup_cons.
  pose proof Hnd as (_ & (Hb2 & _)%NoDup_cons)%NoDup_cons.
  destruct K1 as [Kb KT1 Kc1 Kp1], K2 as [_ KT2 Kc2 Kp2].
  split; [split; [by apply free_inv_mem|done|done|done]|by split|..].
  - split; try done. unfold pde. cbn. by rewrite Hout by (done || (right; apply Hc)).
  - split; try done. unfold pde. cbn. by rewrite Hout by (done || (right; apply Hc)).
  - intros j Hj. cbn. rewrite Hout; [by apply L1|done|destruct array_pages as (_ & _ & _ & ? & _); lia|left; set_solver].
  - intros j Hj. cbn. rewrite Hout; [by apply L2|done|change n_uenvs with 53 in Hj; lia|left; set_solver].
Qed.

Lemma array_addrs : ULIM <= pages_addr < 2 ^ 32 /\ ULIM <= envs_addr l < 2 ^ 32.
Proof using Hl.
  destruct layout_bounds as (Hnp & Hms & Hk & Hp & Hbe). destruct (lo_envs Hl) as (He1 & He2 & He3).
  change (NENV * SIZEOF_ENV) with 217088 in He3.
  unfold ULIM, KSEG0, boot_end, SIZEOF_PAGE, BY2PG in *. lia.
Qed.

Lemma env_lists_run k : exists q, list_rep q (seqZ 0 (NENV + 1)) /\
  forall {A} (K : KM A),
  (modify (fun k => set_env_free_list (LIST_INIT (env_free_list k)) k) ;!
   modify (fun k => set_env_sched_list (TAILQ_INIT (env_sched_list k)) k) ;!
   forM ((fun j => NENV - j) <$> seqZ 0 (NENV + 1)) (fun i =>
     modify (fun k => set_env_free_list (LIST_INSERT_HEAD i (env_free_list k)) k)) ;! K) k =
  K (set_env_free_list q (set_env_sched_list (TAILQ_INIT (env_sched_list k)) k)).
Proof using.
  set (k1 := set_env_sched_list (TAILQ_INIT (env_sched_list k)) (set_env_free_list (LIST_INIT (env_free_list k)) k)).
  assert (Hl' : reverse ((fun j => NENV - j) <$> seqZ 0 (NENV + 1)) = seqZ 0 (NENV + 1)) by (by vm_compute).
  destruct (forM_insert_head env_free_list set_env_free_list ((fun j => NENV - j) <$> seqZ 0 (NENV + 1)))
    with (s := k1) (l0 := @nil Z) as (q & Hq & Hrun); [done|done|by intros []|apply list_rep_init| |].
  - rewrite app_nil_r. rewrite <- reverse_Permutation, Hl'. apply NoDup_seqZ.
  - rewrite app_nil_r, Hl' in Hq. exists q. split; [done|]. intros A K.
    unfold bind at 1 2, modify at 1 2. fold k1. by rewrite (bind_step _ _ _ _ _ Hrun).
Qed.

Lemma PADDR_run {S} a (s : S) : ULIM <= a < 2 ^ 32 -> PADDR a s = Ret a s.
Proof using.
  intros Ha. unfold PADDR. rewrite u32_id by (unfold ULIM in *; lia).
  by destruct (Z.ltb_spec a ULIM); [lia|].
Qed.

(** The state between [env_init] and the first environment. *)
Record env_ready (fl : list Z) (b T1 T2 : Z) (k k' : kst) : Prop := {
  er_template : template fl (pm k') b T1 T2;
  er_base : base_pgdir k' = page2pa b;
  er_free : list_rep (env_free_list k') (seqZ 0 (NENV + 1));
  er_sched : tailq_rep (env_sched_list k') [];
  er_rest : envs k' = envs k /\ asid_bitmap k' = asid_bitmap k /\ mkenvid_i k' = mkenvid_i k /\
    curenv k' = curenv k /\ timer_set k' = timer_set k /\ sstatus k' = sstatus k
}.

Lemma env_init_run fl b T1 T2 k : pages_ready boot_ref (b :: T1 :: T2 :: fl) (pm k) ->
  pages (pm k) = pages_addr ->
  exists k', env_init (envs_addr l) k = Ret tt k' /\ env_ready fl b T1 T2 k k'.
Proof using Hl.
  intros R Hpa. destruct layout_bounds as (Hnp & _). destruct array_addrs as [Hpr Her].
  destruct (env_lists_run k) as (q & Hq & Hlists). set (k1 := set_env_free_list q _) in *.
  destruct (new_base_run _ _ _ R) as (s1 & Hal & Hr0 & Hn1 & Hp1 & R2 & Hb2 & Hbf & Hz2).
  set (s2 := set_pp_ref (upd (pp_ref s1) b 1) s1) in *. set (k2 := set_base_pgdir (page2pa b) k1).
  destruct (map_arrays_run fl s2 b T1 T2 k2 R2 Hb2 Hbf Hz2) as (s3 & s4 & Hm1 & Hm2 & TP).
  exists (set_pm (set_mem (copy_range (page2pa b + 4 * PDX KSEG0) (kbasepgdir s2 + 4 * PDX KSEG0) (4 * 512)
            (mem s4)) s4) k2).
  split; [|split; [by apply template_copy|done|exact Hq|apply tailq_rep_init|done]].
  unfold env_init. rewrite Hlists. rewrite (bind_step _ _ _ _ _ (kpm_ret page_alloc k1 _ _ Hal)).
  rewrite (bind_step (gets pm) _ (set_pm s1 k1) _ _ eq_refl). cbn [pm set_pm]. rewrite Hr0.
  change (u16 (0 + 1)) with 1. rewrite (bind_step _ _ _ _ _ (kpm_ret (set_ref b 1) (set_pm s1 k1) tt s2 eq_refl)).
  rewrite (bind_step (modify _) _ _ _ _ eq_refl). change (page2kva b) with (page2pa b).
  change (set_base_pgdir (page2pa b) (set_pm s2 (set_pm s1 k1))) with (set_pm s2 k2).
  rewrite (bind_step (gets base_pgdir) _ (set_pm s2 k2) _ _ eq_refl).
  change (base_pgdir (set_pm s2 k2)) with (page2pa b). rewrite Hp1, Hpa, Hn1.
  rewrite (bind_step _ _ _ _ _ (PADDR_run pages_addr (set_pm s2 k2) Hpr)).
  rewrite (pr_npage _ _ _ R).
  assert (Hsz : ROUND (u32 (n_pages * SIZEOF_PAGE)) BY2PG = n_upages * BY2PG).
  { unfold n_upages, SIZEOF_PAGE. rewrite u32_id by lia. rewrite ROUND_page by lia.
    unfold rup, BY2PG. by rewrite Z.div_mul. }
  rewrite Hsz, (bind_step _ _ _ _ _ Hm1).
  rewrite (bind_step _ _ _ _ _ (PADDR_run (envs_addr l) (set_pm s3 k2) Her)).
  change (ROUND (NENV * SIZEOF_ENV) BY2PG) with (n_uenvs * BY2PG).
  rewrite (bind_step _ _ _ _ _ Hm2). unfold kpm, zoom, memcpy_words, modify. reflexivity.
Qed.

(** ** The two environments *)

(** The arrays of the kernel as the address space [t] shows them: read only. *)
Definition window (s : pmst) (t : Z) : Prop :=
  (forall j, 0 <= j < n_upages -> mapped_as s t (UPAGES + j * BY2PG) (page_number pages_addr + j) U_PERM) /\
  (forall j, 0 <= j < n_uenvs -> mapped_as s t (UENVS + j * BY2PG) (page_number (envs_addr l) + j) U_PERM).

Lemma window_mapped s t T va0 p n : ram_ok s -> ktable s t (va0 / PDMAP) T ->
  va0 mod PDMAP = 0 -> 0 <= va0 -> va0 + PDMAP <= ULIM -> n <= 1024 ->
  (forall j, 0 <= j < n -> mem s (page2pa T + 4 * j) = leaf (p + j) U_PERM /\ is_page s (p + j)) ->
  forall j, 0 <= j < n -> mapped_as s t (va0 + j * BY2PG) (p + j) U_PERM.
Proof using.
  intros Hram K Hal H0 Hul Hn Hm j Hj. destruct (Hm j Hj) as [Hlf Hp].
  destruct (seg_indices va0 Hal H0 Hul j ltac:(lia)) as (_ & Hx & Ht).
  destruct (leaf_entry s (p + j) U_PERM Hram Hp) as (Hv & He & Hbits); [by vm_compute|].
  rewrite <- Hx in K. pose proof (ktable_addr s t T _ Hram K) as Ha.
  exists (leaf (p + j) U_PERM). split_and!; [|done|done].
  unfold entry. rewrite Ha, Ht, Hlf, Hv. done.
Qed.

(** A directory with the template's entries, while the template's tables are
    as they were. *)
Lemma window_intro fl s b T1 T2 D' fl' s' t : template fl s b T1 T2 ->
  evolves [] fl s D' fl' s' -> is_page s' t ->
  (forall j, PDX UTOP <= j < PDX UVPT -> pde s' t j = mem s (page2pa b + 4 * j)) -> window s' t.
Proof using Hl.
  intros [[I Hn Hbt Href] (_ & _ & Hf1 & Hf2) K1 K2 L1 L2] E Ht Hpde.
  destruct array_pages as (_ & Hq1 & Hn1 & Hn1' & _ & Hq2 & Hn2). destruct boot_end_pages as [_ Hbn].
  pose proof (ev_npage _ _ _ _ _ _ E) as Hn'. pose proof (inv_ram _ _ _ _ I) as Hram.
  assert (Hram' : ram_ok s') by (unfold ram_ok; by rewrite Hn').
  assert (Hpg : forall p, is_page s p -> is_page s' p) by (intros p; unfold is_page; by rewrite Hn').
  assert (Hidx : PDX UTOP <= UPAGES / PDMAP < PDX UVPT /\ PDX UTOP <= UENVS / PDMAP < PDX UVPT) by (by vm_compute).
  destruct K1 as [Kb KT1 Kc1 Kp1], K2 as [_ KT2 Kc2 Kp2].
  assert (Hout : forall T j, is_page s T -> T ∉ fl -> 0 <= j < 1024 ->
            mem s' (page2pa T + 4 * j) = mem s (page2pa T + 4 * j)).
  { intros T j HT HTf Hj. apply (ev_mem _ _ _ _ _ _ E). split; [done|split; [done|split; [done|]]].
    split; [by intros ?%elem_of_nil|by intros ?%elem_of_nil]. }
  split; [apply (window_mapped s' t T1)|apply (window_mapped s' t T2)]; try done.
  - split; [done|by apply Hpg|done|]. rewrite Hpde by apply Hidx. exact Kp1.
  - lia.
  - intros j Hj. split; [rewrite Hout by (done || lia); by apply L1|apply Hpg; unfold is_page; lia].
  - split; [done|by apply Hpg|done|]. rewrite Hpde by apply Hidx. exact Kp2.
  - intros j Hj. change n_uenvs with 53 in *.
    split; [rewrite Hout by (done || lia); by apply L2|apply Hpg; unfold is_page; lia].
Qed.

(** An environment made from the executable [x], ready to run. *)
Record started (k : kst) (e id t : Z) (x : linked) (ehdr : Elf32_Ehdr) : Prop := {
  sd_id : env_id (envs k e) = id;
  sd_fields : env_parent_id (envs k e) = 0 /\ env_status (envs k e) = ENV_RUNNABLE /\
    env_pri (envs k e) = 1 /\ env_pgdir (envs k e) = page2pa t;
  sd_start : epc (env_tf (envs k e)) = e_entry ehdr /\ regs (env_tf (envs k e)) 2 = USTACKTOP - 8;
  sd_shows : shows (pm k) t (binary_start x) (segments (binary_start x) ehdr);
  sd_window : window (pm k) t
}.

(** Creating another environment leaves a started one as it is. *)
Lemma started_kept boot D b0 t e pri n binary ehdr' fl fl' k k' e0 id t0 x ehdr :
  pm_inv boot D (t :: fl) (pm k) -> (forall p, 0 <= boot p) -> t0 ∈ D -> e0 <> e ->
  env_created boot D b0 t e pri n binary ehdr' fl fl' k k' ->
  started k e0 id t0 x ehdr -> window (pm k') t0 -> started k' e0 id t0 x ehdr.
Proof using.
  intros I Hb Ht0 Hne C [Sid Sf Sst [Sb Sp] _] Hw.
  pose proof (ec_others _ _ _ _ _ _ _ _ _ _ _ _ _ C e0 Hne) as He.
  pose proof (ec_evolves _ _ _ _ _ _ _ _ _ _ _ _ _ C) as E.
  pose proof (ec_frame _ _ _ _ _ _ _ _ _ _ _ _ _ C) as Hfr.
  split; rewrite ?He; try done. split.
  - intros va Hva. rewrite <- Sb by done. apply (user_byte_evolves boot D (t :: fl) (pm k) (t :: D) fl'); auto.
  - intros ph va Hph Hva Hin. destruct (Sp ph va Hph Hva Hin) as (p & en & Hen & Hrest).
    exists p, en. split; [|done]. by rewrite Hfr.
Qed.

Lemma created_started boot D b0 t e n x ehdr fl fl' k k' :
  env_created boot D b0 t e 1 n (binary_start x) ehdr fl fl' k k' -> window (pm k') t ->
  started k' e ((u32 (mkenvid_i k + 1) mod 2 ^ 21) * 2 ^ 11 + e) t x ehdr.
Proof using. intros [] Hw. by split. Qed.

Definition image_pages (x : linked) (ehdr : Elf32_Ehdr) : nat :=
  length (image_vpns (segments (binary_start x) ehdr)).

Section Creation.
Context (boot : Z -> Z) (fl0 : list Z) (s0 : pmst) (b T1 T2 : Z).
Context (Hb : forall p, 0 <= boot p) (TP : template fl0 s0 b T1 T2).

(** After some environments have been created: one directory, one ASID and one
    number for each. *)
Record creating (D fl : list Z) (k : kst) : Prop := {
  cr_inv : pm_inv boot D fl (pm k);
  cr_evolves : evolves [] fl0 s0 D fl (pm k);
  cr_base : base_pgdir k = page2pa b;
  cr_next : mkenvid_i k = Z.of_nat (length D);
  cr_asids : exists used, length used = length D /\
    forall j, 0 <= j -> asid_used (asid_bitmap k) j = bool_decide (j ∈ used)
}.

Lemma unused_asid D fl k : creating D fl k -> (length D < 64)%nat ->
  exists a, 0 <= a < NASID /\ asid_used (asid_bitmap k) a = false.
Proof using.
  intros [_ _ _ _ (used & Hlen & Hu)] HD.
  destruct (decide (Forall (fun a => a ∈ used) (seqZ 0 NASID))) as [Hall|Hn].
  - exfalso. rewrite Forall_forall in Hall.
    assert (Hs : seqZ 0 NASID ⊆+ used) by (by apply NoDup_submseteq; [apply NoDup_seqZ|]).
    apply submseteq_length in Hs. rewrite length_seqZ in Hs. change (Z.to_nat NASID) with 64%nat in Hs. lia.
  - apply not_Forall_Exists, Exists_exists in Hn as (a & Ha & Hna); [|apply _].
    apply elem_of_seqZ in Ha. exists a. split; [lia|]. rewrite Hu by lia. by apply bool_decide_eq_false_2.
Qed.

(** The template is out of the environments' reach. *)
Lemma template_outside D fl k : creating D fl k ->
  is_page (pm k) b /\ b ∉ fl /\ b ∉ D /\
  forall j, 0 <= j < 1024 -> mem (pm k) (page2pa b + 4 * j) = mem s0 (page2pa b + 4 * j).
Proof using TP.
  intros C. pose proof (cr_evolves _ _ _ C) as E. destruct (tp_apart _ _ _ _ _ TP) as (_ & Hbf & _).
  pose proof (kt_dir _ _ _ _ (tp_upages _ _ _ _ _ TP)) as Hbp. split_and!.
  - unfold is_page in *. by rewrite (ev_npage _ _ _ _ _ _ E).
  - intros H. by apply Hbf, (ev_free _ _ _ _ _ _ E).
  - intros H. destruct (ev_dirs _ _ _ _ _ _ E b H) as [[]%elem_of_nil|?]. done.
  - intros j Hj. apply (ev_mem _ _ _ _ _ _ E). split; [done|split; [done|split; [done|]]].
    split; [rewrite tables_nil; apply not_elem_of_nil|intros []%elem_of_nil].
Qed.

Lemma create_next D t fl e fel q k x ehdr :
  creating D (t :: fl) k -> (length D < 64)%nat -> 0 <= e < NENV ->
  list_rep (env_free_list k) (e :: fel) -> tailq_rep (env_sched_list k) q -> e ∉ q ->
  image_ok (binary_start x) (binary_size x) ehdr -> (2 * image_pages x ehdr <= length fl)%nat ->
  exists k' fl', ENV_CREATE x k = Ret e k' /\ creating (t :: D) fl' k' /\
    started k' e (Z.of_nat (S (length D)) * 2 ^ 11 + e) t x ehdr /\
    list_rep (env_free_list k') fel /\ tailq_rep (env_sched_list k') (e :: q) /\
    (length fl <= 2 * image_pages x ehdr + length fl')%nat /\
    env_created boot D b t e 1 (Z.of_nat (2 * image_pages x ehdr)) (binary_start x) ehdr fl fl' k k'.
Proof using Hl Hb TP.
  intros C HD He Hf Hq Heq O Hroom. pose proof C as [I E Hbase Hnx (used & Hul & Hu)].
  destruct (template_outside _ _ _ C) as (Hbp & Hbf & HbD & Hbm). rewrite elem_of_cons in Hbf.
  destruct (env_create_run boot D b Hb t fl e fel q k _ _ ehdr 1 I Hbase Hbp ltac:(tauto) Hf He
    ltac:(lia) (unused_asid _ _ _ C HD) Hq Heq O Hroom) as (k' & fl' & Hrun & EC & Hf' & Hq').
  fold (image_pages x ehdr) in EC.
  destruct (ec_asid _ _ _ _ _ _ _ _ _ _ _ _ _ EC) as (a & Ha & _ & _ & Hbit).
  destruct (ec_rest _ _ _ _ _ _ _ _ _ _ _ _ _ EC) as (Hnx' & Hbase' & _).
  assert (C' : creating (t :: D) fl' k').
  { split; [exact (ec_inv _ _ _ _ _ _ _ _ _ _ _ _ _ EC)|exact (evolves_trans _ _ _ _ _ _ _ _ _ E (ec_evolves _ _ _ _ _ _ _ _ _ _ _ _ _ EC))|by rewrite Hbase'| |].
    - rewrite Hnx', Hnx. cbn [length]. rewrite u32_id by lia. lia.
    - exists (a :: used). split; [cbn; lia|]. intros j Hj. rewrite Hbit, Hu by done.
      destruct (Z.eqb_spec a j) as [->|Hne]; cbn [orb].
      + symmetry. apply bool_decide_eq_true_2, elem_of_cons. by left.
      + apply bool_decide_ext. rewrite elem_of_cons. naive_solver. }
  exists k', fl'. split; [exact Hrun|]. split; [exact C'|]. split; [|split; [done|split; [done|split; [|exact EC]]]].
  - replace (Z.of_nat (S (length D))) with (u32 (mkenvid_i k + 1) mod 2 ^ 21).
    + eapply created_started; [exact EC|]. destruct UVPT_indices as (_ & H1 & H2 & _).
      apply (window_intro fl0 s0 b T1 T2 (t :: D) fl'); [done|exact (cr_evolves _ _ _ C')| |].
      * apply (inv_dir_page _ _ _ _ (cr_inv _ _ _ C')), elem_of_cons. by left.
      * intros j Hj. rewrite (ec_upper _ _ _ _ _ _ _ _ _ _ _ _ _ EC j Hj). apply Hbm. lia.
    + rewrite Hnx, u32_id by lia. rewrite Z.mod_small; lia.
  - pose proof (ec_free _ _ _ _ _ _ _ _ _ _ _ _ _ EC). lia.
Qed.
End Creation.

(** What the two environments find when the first timer interrupt comes. *)
Record two_started (x1 x2 : linked) (eh1 eh2 : Elf32_Ehdr) (b T1 T2 : Z) (k : kst) (t1 t2 : Z)
    (fl : list Z) : Prop := {
  ts_inv : pm_inv (kernel_refs b T1 T2) [t2; t1] fl (pm k);
  ts_kept : forall p, is_page (pm k) p -> 1 <= kernel_refs b T1 T2 p -> p ∉ fl;
  ts_first : started k 0 2048 t1 x1 eh1;
  ts_second : started k 1 4097 t2 x2 eh2;
  ts_sched : tailq_rep (env_sched_list k) [1; 0];
  ts_free : list_rep (env_free_list k) (seqZ 2 (NENV - 1))
}.

(** The first of the two windows survives the second creation. *)
Lemma window_kept boot fl0 s0 b T1 T2 t1 t2 fl fl' n x ehdr k k' :
  (forall p, 0 <= boot p) -> template fl0 s0 b T1 T2 ->
  creating boot fl0 s0 b [t1] (t2 :: fl) k -> creating boot fl0 s0 b [t2; t1] fl' k' ->
  env_created boot [t1] b t2 1 1 n (binary_start x) ehdr fl fl' k k' ->
  (forall j, PDX UTOP <= j < PDX UVPT -> pde (pm k) t1 j = mem s0 (page2pa b + 4 * j)) ->
  window (pm k') t1.
Proof using Hl.
  intros Hb TP C C' EC Hpde. destruct UVPT_indices as (HN & H1 & H2 & _).
  assert (Ht1 : is_page (pm k) t1) by (apply (inv_dir_page _ _ _ _ (cr_inv _ _ _ _ _ _ _ C)), elem_of_cons; by left).
  pose proof (ec_evolves _ _ _ _ _ _ _ _ _ _ _ _ _ EC) as E.
  apply (window_intro fl0 s0 b T1 T2 [t2; t1] fl'); [done|exact (cr_evolves _ _ _ _ _ _ _ C')| |].
  - unfold is_page in *. by rewrite (ev_npage _ _ _ _ _ _ E).
  - intros j Hj. rewrite <- Hpde by done. apply (ev_mem _ _ _ _ _ _ E). rewrite H1, H2 in Hj.
    pose proof (inv_dirs _ _ _ _ (cr_inv _ _ _ _ _ _ _ C)) as (_ & Hnt & _)%NoDup_app.
    split; [done|split; [lia|split; [|split; [apply Hnt, elem_of_cons; by left|lia]]]].
    intros Hin. destruct (free_unreferenced _ _ _ _ (cr_inv _ _ _ _ _ _ _ C) t1 Hin (Hb t1)) as (Hno & _).
    apply Hno, elem_of_app. left. apply elem_of_cons. by left.
Qed.

Lemma env_indices : seqZ 0 (NENV + 1) = 0 :: 1 :: seqZ 2 (NENV - 1).
Proof using. by vm_compute. Qed.

Lemma kernel_refs_nonneg b T1 T2 p : 0 <= kernel_refs b T1 T2 p.
Proof using.
  unfold kernel_refs, with_array, with_page, boot_ref.
  repeat (match goal with |- context [Z.b2z ?x] => destruct x end; cbn [Z.b2z]); lia.
Qed.

Lemma create_both_run fl b T1 T2 k0 k x1 x2 eh1 eh2 :
  env_ready fl b T1 T2 k0 k -> (forall j, asid_bitmap k0 j = 0) -> mkenvid_i k0 = 0 ->
  image_ok (binary_start x1) (binary_size x1) eh1 -> image_ok (binary_start x2) (binary_size x2) eh2 ->
  (2 * image_pages x1 eh1 + 2 * image_pages x2 eh2 + 2 <= length fl)%nat ->
  exists k1 k2 t1 t2 fl', ENV_CREATE x1 k = Ret 0 k1 /\ ENV_CREATE x2 k1 = Ret 1 k2 /\
    two_started x1 x2 eh1 eh2 b T1 T2 k2 t1 t2 fl'.
Proof using Hl.
  intros [TP Hbase Hfree Hsched (_ & Hbm & Hmk & _)] Hz Hmk0 O1 O2 Hlen.
  destruct fl as [|t1 fl]; [cbn in Hlen; lia|]. pose proof (tp_ready _ _ _ _ _ TP) as [I0 Hnp Hbt Href].
  set (boot := kernel_refs b T1 T2).
  assert (Hb : forall p, 0 <= boot p) by apply kernel_refs_nonneg.
  assert (C0 : creating boot (t1 :: fl) (pm k) b [] (t1 :: fl) k).
  { split; [|apply evolves_refl|done|by rewrite Hmk|].
    - eapply pm_inv_boot_ext; [|exact I0]. exact Href.
    - exists []. split; [done|]. intros j Hj. rewrite asid_used_testbit, Hbm, Hz by done. apply Z.bits_0. }
  rewrite env_indices in Hfree. cbn [length] in Hlen.
  destruct (create_next boot _ _ b T1 T2 Hb TP [] t1 fl 0 _ [] k x1 eh1 C0 ltac:(cbn; lia) ltac:(done) Hfree Hsched
    ltac:(apply not_elem_of_nil) O1 ltac:(lia)) as (k1 & fl1 & Hr1 & C1 & S1 & Hf1 & Hq1 & Hl1 & EC1).
  destruct fl1 as [|t2 fl1]; [cbn in Hl1; lia|]. cbn [length] in Hl1.
  destruct (create_next boot _ _ b T1 T2 Hb TP [t1] t2 fl1 1 _ [0] k1 x2 eh2 C1 ltac:(cbn; lia) ltac:(done) Hf1 Hq1
    ltac:(by intros ?%list_elem_of_singleton) O2 ltac:(lia)) as (k2 & fl2 & Hr2 & C2 & S2 & Hf2 & Hq2 & _ & EC2).
  exists k1, k2, t1, t2, fl2. split; [exact Hr1|]. split; [exact Hr2|]. split; [|..|exact Hq2|exact Hf2].
  - exact (cr_inv _ _ _ _ _ _ _ C2).
  - intros p Hp Hr Hf. pose proof (cr_inv _ _ _ _ _ _ _ C2) as I2. fold boot in Hr.
    pose proof (inv_ref _ _ _ _ I2 p Hp) as He. rewrite (inv_free_ref _ _ _ _ I2 p Hf) in He.
    pose proof (cnt_nonneg (maps (pm k2) p) (slots (pm k2) [t2; t1])).
    pose proof (owns_range ([t2; t1] ++ tables (pm k2) [t2; t1]) p). lia.
  - apply (started_kept boot [t1] b t2 1 1 (Z.of_nat (2 * image_pages x2 eh2)) (binary_start x2) eh2 fl1 fl2 k1 k2 0 2048 t1 x1 eh1);
      [exact (cr_inv _ _ _ _ _ _ _ C1)|done|apply elem_of_cons; by left|done|exact EC2|exact S1|].
    apply (window_kept boot _ _ b T1 T2 t1 t2 fl1 fl2 _ _ _ _ _ Hb TP C1 C2 EC2).
    apply (ec_upper _ _ _ _ _ _ _ _ _ _ _ _ _ EC1).
  - exact S2.
Qed.
End Layout.

(** ** The whole of [rv32_init] *)

(** Nothing has run on this hart: the kernel's variables are zero. *)
Record cold (k : kst) : Prop := {
  cold_freemem : freemem (pm k) = 0;
  cold_asids : forall j, asid_bitmap k j = 0;
  cold_envid : mkenvid_i k = 0
}.

Lemma kernel_run {A} (m : KM A) h a k' : m (kern h) = Ret a k' -> kernel m h = Ret a (set_kern k' h).
Proof. intros H. unfold kernel, zoom. by rewrite H. Qed.

Lemma init_memory_run l k : layout_ok l -> freemem (pm k) = 0 -> exists s1 s2 s3,
  kpm (riscv_detect_memory (mem_size l)) k = Ret tt (set_pm s1 k) /\
  kpm (riscv_vm_init (kend l) (bss_end l)) (set_pm s1 k) = Ret tt (set_pm s2 k) /\
  kpm page_init (set_pm s2 k) = Ret tt (set_pm s3 k) /\
  pages_ready l (boot_ref l) (free_pages l) s3 /\ pages s3 = pages_addr l.
Proof.
  intros Hl Hf. destruct (vm_init_run l Hl (pm k) Hf) as (s2 & Hr2 & R2).
  destruct (page_init_run l Hl s2 R2) as (s3 & Hr3 & R3 & Hp3).
  set (s1 := set_npage (mem_size l / BY2PG) (set_memsize (mem_size l) (pm k))).
  change (riscv_vm_init (kend l) (bss_end l) s1 = Ret tt s2) in Hr2.
  exists s1, s2, s3. split; [reflexivity|]. split; [|split; [|done]].
  - rewrite (kpm_ret _ (set_pm s1 k) _ s2 Hr2). by destruct k.
  - rewrite (kpm_ret _ (set_pm s2 k) _ s3 Hr3). by destruct k.
Qed.

Lemma free_pages_cons l n : layout_ok l -> (3 + n <= Z.to_nat (n_pages l - n_boot l))%nat ->
  exists fl, free_pages l = n_pages l - 1 :: n_pages l - 2 :: n_pages l - 3 :: fl /\ (n <= length fl)%nat.
Proof.
  intros Hl Hn. assert (Hlen : length (free_pages l) = Z.to_nat (n_pages l - n_boot l))
    by (unfold free_pages; by rewrite length_reverse, length_seqZ).
  assert (Hat : forall i, (i < 3)%nat -> free_pages l !! i = Some (n_pages l - 1 - Z.of_nat i)).
  { intros i Hi. unfold free_pages in *. rewrite length_reverse, length_seqZ in Hlen.
    rewrite reverse_lookup by (rewrite length_seqZ; lia).
    rewrite length_seqZ. rewrite lookup_seqZ_lt by lia. f_equal. lia. }
  pose proof (Hat 0%nat ltac:(lia)) as H0. pose proof (Hat 1%nat ltac:(lia)) as H1.
  pose proof (Hat 2%nat ltac:(lia)) as H2.
  destruct (free_pages l) as [|b [|T1 [|T2 fl]]]; cbn in Hlen; try lia.
  cbn in H0, H1, H2. injection H0 as ->. injection H1 as ->. injection H2 as ->.
  exists fl. split; [do 3 (f_equal; try lia)|lia].
Qed.

(** C6. [rv32_init] from power-up, on any machine the kernel fits and with
    memory for the two executables (segments in user space, sharing no page, of
    the kind [seg_ok] that [elf_load_seg] loads): every initialiser returns and
    the hart waits in the final loop with the timer interrupt enabled and the
    trap vector set.  Environments 0 and 1, with ids 2048 and 4097, are runnable
    and queued, the second first, each at the entry point of its image in an
    address space that shows exactly that image and, read only, the kernel's
    arrays of pages and environments.  All reference counts are exact: one for
    each entry of the two address spaces that maps the page, one for a directory
    or table of theirs, and those the kernel holds ([kernel_refs]: to each page
    the boot allocator used, the template directory and its two tables, and one
    to each page of an array for its window).  No page the kernel holds is free. *)
Theorem rv32_init_correct l x1 x2 eh1 eh2 h :
  layout_ok l -> cold (kern h) ->
  image_ok (binary_start x1) (binary_size x1) eh1 -> image_ok (binary_start x2) (binary_size x2) eh2 ->
  (2 * image_pages x1 eh1 + 2 * image_pages x2 eh2 + 5 <= Z.to_nat (n_pages l - n_boot l))%nat ->
  exists h' t1 t2 fl, rv32_init l x1 x2 h = Noret h' /\
    two_started l x1 x2 eh1 eh2 (n_pages l - 1) (n_pages l - 2) (n_pages l - 3) (kern h') t1 t2 fl /\
    Z.testbit (sie h') IRQ_S_TIMER = true /\ Z.testbit (sstatus (kern h')) 1 = true /\
    stvec h' = exc_gen_entry l /\ sscratch h' = 0.
Proof.
  intros Hl [Hfm Has Hid] O1 O2 Hroom.
  destruct (free_pages_cons l (2 * image_pages x1 eh1 + 2 * image_pages x2 eh2 + 2) Hl ltac:(lia))
    as (fl & Hfl & Hlen).
  set (b := n_pages l - 1) in *. set (T1 := n_pages l - 2) in *. set (T2 := n_pages l - 3) in *.
  destruct (init_memory_run l (kern h) Hl Hfm) as (s1 & s2 & s3 & H1 & H2 & H3 & R3 & Hp3).
  rewrite Hfl in R3.
  destruct (env_init_run l Hl fl b T1 T2 (set_pm s3 (kern h)) R3 Hp3) as (k4 & H4 & R4).
  destruct (create_both_run l Hl fl b T1 T2 _ k4 x1 x2 eh1 eh2 R4 Has Hid O1 O2 Hlen)
    as (k5 & k6 & t1 & t2 & fl' & H5 & H6 & TS).
  set (k7 := set_sstatus (Z.lor (sstatus k6) SSTATUS_SIE) (set_timer_set (timer_set k6 + 1) k6)).
  exists (mkHart k7 (Z.lor (sie h) MIP_STIP) (exc_gen_entry l) 0), t1, t2, fl'.
  split; [|split; [|split_and!; try done]].
  - unfold rv32_init. rewrite (bind_step _ _ _ _ _ (kernel_run _ h _ _ H1)).
    rewrite (bind_step _ _ _ _ _ (kernel_run _ (set_kern _ h) _ _ H2)).
    rewrite (bind_step _ _ _ _ _ (kernel_run _ (set_kern _ (set_kern _ h)) _ _ H3)).
    rewrite (bind_step _ _ _ _ _ (kernel_run _ (set_kern _ (set_kern _ (set_kern _ h))) _ _ H4)).
    erewrite bind_step; [|by apply kernel_run].
    erewrite bind_step; [|by apply kernel_run]. reflexivity.
  - destruct TS as [Ti Tk [] [] Tq Tf]. split; try done; by split.
  - cbn [sie]. by rewrite Z.lor_spec, orb_true_r.
  - cbn [kern sstatus set_sstatus k7]. by rewrite Z.lor_spec, orb_true_r.
Qed.

(** 64 MB of memory, a kernel of 3 MB, and the same small program twice. *)
Definition ex_layout : layout := mkLayout 0x4000000 0x80300000 0x802ff000 0x80280000 0x80200100.
Definition ex_program : linked := mkLinked ex_elf 84.
Definition ex_hart : hart :=
  mkHart (set_curenv None (set_asid_bitmap (fun _ => 0) (set_mkenvid_i 0 (set_pm (set_freemem 0 ex_raw) ex_live)))) 0 0 1.

Lemma rv32_init_correct_witness :
  exists h' t1 t2 fl, rv32_init ex_layout ex_program ex_program ex_hart = Noret h' /\
    two_started ex_layout ex_program ex_program ex_ehdr ex_ehdr 16383 16382 16381 (kern h') t1 t2 fl /\
    Z.testbit (sie h') IRQ_S_TIMER = true /\ Z.testbit (sstatus (kern h')) 1 = true /\
    stvec h' = 0x80200100 /\ sscratch h' = 0.
Proof.
  apply (rv32_init_correct ex_layout ex_program ex_program ex_ehdr ex_ehdr ex_hart).
  - split; [by vm_compute|split; [done|by vm_compute]|split; [done|by vm_compute]|by vm_compute].
  - by split.
  - exact ex_elf_ok.
  - exact ex_elf_ok.
  - apply Nat.leb_le. vm_compute. reflexivity.
Defined.
