(* ===== verification/User.v ===== *)
(** * What a user program sees of the kernel (user/include/lib.h,
    user/lib/syscall_lib.c, user/lib/pageref.c, user/lib/wait.c)

    A user library function runs on the kernel state with its environment as
    [curenv]: a system call is the kernel's handler, a dereference goes through
    the address space in [satp] (UserMem.v), and the windows [vpt] and [vpd]
    through the load fault that [query_vpt] serves.  [user_panic], which prints
    and ends the environment, is the outcome [Panic]. *)
From S2P Require Import Prelude Queue Mmu Pmap UserMem Elf Env Sched Syscall Traps.

(** The devices behind [sys_read_dev], and the result register after a system
    call that returns nothing. *)
Class Board : Type := { board_read : Z -> Z; board_void : Z }.

Definition user_panic {A} (msg : string) : KM A := panic msg.
Definition user_assert (b : bool) : KM unit := if b then ret tt else user_panic "assertion failed".

(** Loads and stores of the running environment. *)
Definition load (va : Z) : KM Z := kpm (user_lw va).
Definition store (va v : Z) : KM unit := kpm (user_sw va v).
Definition loadb (va : Z) : KM Z := kpm (user_lb va).
Definition storeb (va v : Z) : KM unit := kpm (user_sb va v).

(** [memcpy] between user addresses, byte by byte from the first (see
    [CString.memcpy_correct]). *)
Definition user_memcpy (dst src n : Z) : KM unit :=
  forM (seqZ 0 n) (fun i => let! b := loadb (src + i) in storeb (dst + i) b).

(** The value [query_vpt] delivers for a load at [badvaddr]. *)
Definition vpt_load (badvaddr : Z) : KM Z :=
  let! k := get in
  let! res := vpt_entry (cur_pgdir (pm k)) (u32 (Z.shiftl badvaddr 10)) in
  match res with Some a => kpm (ld a) | None => ret 0 end.
Definition vpt (n : Z) : KM Z := vpt_load (u32 (UVPT + 4 * n)).
Definition vpd (n : Z) : KM Z := vpt_load (u32 (UVPT + Z.shiftl (PDX UVPT) PGSHIFT + 4 * n)).

(** The kernel's arrays, mapped at [UENVS] and [UPAGES]. *)
Definition env : KM Env := let! c := get_curenv in gets (fun k => envs k c).
Definition envs_at (i : Z) : KM Env := gets (fun k => envs k i).
Definition pages_ref (i : Z) : KM Z := gets (fun k => pp_ref (pm k) i).

Definition pageref (v : Z) : KM Z :=
  let! pde := vpd (PDX v) in
  if negb (truthy (Z.land pde PTE_V)) then ret 0
  else
    let! pte := vpt (VPN v) in
    if negb (truthy (Z.land pte PTE_V)) then ret 0
    else pages_ref (u32 (PPN (PTE2PADDR pte) - PPNOFFSET)).

Section Stubs.
Context `{Board}.

(** [ecall] with the number in [a0] and the arguments in [a1] to [a5]; the
    result as an [int]. *)
Definition msyscall (sysno arg1 arg2 arg3 arg4 arg5 : Z) : KM Z :=
  let! r := syscall_table board_read board_void sysno arg1 arg2 arg3 arg4 arg5 in
  ret (s32 r).

Definition syscall_putchar (ch : Z) : KM unit := msyscall SYS_putchar ch 0 0 0 0 ;! ret tt.
Definition syscall_print_cons (str num : Z) : KM Z := msyscall SYS_print_cons str num 0 0 0.
Definition syscall_getenvid : KM Z := let! r := msyscall SYS_getenvid 0 0 0 0 0 in ret (u32 r).
Definition syscall_yield : KM unit := msyscall SYS_yield 0 0 0 0 0 ;! ret tt.
Definition syscall_env_destroy (envid : Z) : KM Z := msyscall SYS_env_destroy envid 0 0 0 0.
Definition syscall_set_tlb_mod_entry (envid func : Z) : KM Z :=
  msyscall SYS_set_tlb_mod_entry envid func 0 0 0.
Definition syscall_mem_alloc (envid va perm : Z) : KM Z := msyscall SYS_mem_alloc envid va perm 0 0.
Definition syscall_mem_map (srcid srcva dstid dstva perm : Z) : KM Z :=
  msyscall SYS_mem_map srcid srcva dstid dstva perm.
Definition syscall_mem_unmap (envid va : Z) : KM Z := msyscall SYS_mem_unmap envid va 0 0 0.
Definition syscall_exofork : KM Z := msyscall SYS_exofork 0 0 0 0 0.
Definition syscall_set_env_status (envid status : Z) : KM Z :=
  msyscall SYS_set_env_status envid status 0 0 0.
Definition syscall_set_trapframe (envid tf : Z) : KM Z :=
  msyscall SYS_set_trapframe envid tf 0 0 0.
Definition syscall_panic (msg : Z) : KM unit :=
  msyscall SYS_panic msg 0 0 0 0 ;! user_panic "SYS_panic returned".
Definition syscall_ipc_try_send (envid value srcva perm : Z) : KM Z :=
  msyscall SYS_ipc_try_send envid value srcva perm 0.
Definition syscall_ipc_recv (dstva : Z) : KM Z := msyscall SYS_ipc_recv dstva 0 0 0 0.
Definition syscall_cgetc : KM Z := msyscall SYS_cgetc 0 0 0 0 0.
Definition syscall_write_dev (va value : Z) : KM unit :=
  msyscall SYS_write_dev va value 0 0 0 ;! ret tt.
Definition syscall_read_dev (va : Z) : KM Z :=
  let! r := msyscall SYS_read_dev va 0 0 0 0 in ret (u32 r).

(** One turn of the loop of [wait]: [syscall_yield] gives the processor away
    and the test is made again when the environment is next run. *)
Definition wait (envid : Z) : KM unit :=
  let! e := envs_at (ENVX envid) in
  if (env_id e =? envid) && negb (env_status e =? ENV_FREE) then syscall_yield else ret tt.
End Stubs.
