(* ===== verification/UserFacts.v ===== *)
(** * Loads and stores of a user program

    In an address space that is installed, a load from a mapped address reads
    the physical page its entry names and a store writes it; nothing else of the
    kernel's state changes.  [page_update] is the effect of stores on a page. *)
From S2P Require Import Prelude Queue Mmu Pmap PmapFacts PmapInv PmapSpec PmapFrame PmapBoot.
From S2P Require Import UserMem Elf Env EnvFree Sched EnvFacts EnvProps LoadProps Syscall Traps User.

Lemma pm_inv_csr_satp boot D fl s x : pm_inv boot D fl s -> pm_inv boot D fl (set_csr_satp x s).
Proof. intros []. by constructor. Qed.

(** The address space [satp] selects. *)
Definition satp_dir (s : pmst) (d : Z) : Prop :=
  u32 (Z.shiftl (Z.land (csr_satp s) 0x3FFFFF) 12) = page2pa d.

(** [va] is mapped to page [p] with the permission [perm]. *)
Definition accessible (s : pmst) (d va p perm : Z) : Prop :=
  exists e, entry s d va = Some e /\ epage e = p /\ Z.land e perm <> 0.

Lemma bytes_word_bytes w : bytes_word (word_byte w) = u32 w.
Proof.
  unfold bytes_word, word_byte, u32. change 0xFF with (Z.ones 8).
  rewrite !Z.land_ones, !Z.shiftr_div_pow2 by lia. cbn [Z.mul]. Z.div_mod_to_equations. lia.
Qed.

Lemma bytes_word_cong b b' : (forall j, 0 <= j < 4 -> b j = b' j) -> bytes_word b = bytes_word b'.
Proof. intros H. unfold bytes_word. by rewrite !H. Qed.

(** The word of a page that an offset falls in. *)
Lemma page_word_addr s p x : ram_ok s -> is_page s p -> 0 <= x < BY2PG ->
  page2pa p + x - (page2pa p + x) mod 4 = page2pa p + 4 * (x / 4) /\ (page2pa p + x) mod 4 = x mod 4.
Proof.
  intros Hram Hp Hx. destruct (page2pa_range s Hram p Hp) as (_ & _ & Hm & _).
  assert (H : page2pa p mod 4 = 0) by (Z.div_mod_to_equations; lia).
  assert (Hmod : (page2pa p + x) mod 4 = x mod 4) by (rewrite Z.add_mod, H, Z.add_0_l, Z.mod_mod; lia).
  split; [|done]. rewrite Hmod. pose proof (Z.div_mod x 4). lia.
Qed.

Lemma page_word_in_ram s p x : ram_ok s -> is_page s p -> 0 <= x < BY2PG ->
  in_ram s (page2pa p + 4 * (x / 4)) = true.
Proof.
  intros Hram Hp Hx. apply in_ram_entry; [done|done|]. unfold BY2PG in Hx. Z.div_mod_to_equations. lia.
Qed.

(** ** Words *)
Definition page_word (s : pmst) (p x : Z) : Z := u32 (mem s (page2pa p + 4 * (x / 4))).

Lemma word_address va j : 0 <= va < UTOP -> va mod 4 = 0 -> 0 <= j < 4 ->
  0 <= va + j < UTOP /\ (va + j) mod BY2PG = va mod BY2PG + j /\ (va + j) / BY2PG = va / BY2PG.
Proof. change UTOP with 0x7f400000. unfold BY2PG. intros. Z.div_mod_to_equations. lia. Qed.

Lemma accessible_word s d va p perm j : 0 <= va < UTOP -> va mod 4 = 0 -> 0 <= j < 4 ->
  accessible s d va p perm -> accessible s d (va + j) p perm.
Proof.
  intros Hva Ha Hj (e & He & H). exists e. split; [|done]. rewrite <- He.
  destruct (word_address va j Hva Ha Hj) as (Hu & _ & Hd'). by apply same_page_entry; [apply user_range..|].
Qed.

Lemma word_bytes s p x : ram_ok s -> is_page s p -> 0 <= x < BY2PG -> x mod 4 = 0 ->
  page_word s p x = bytes_word (fun j => mem_byte (mem s) (page2pa p + (x + j))).
Proof.
  intros Hram Hp Hx H4. unfold page_word. rewrite <- bytes_word_bytes. apply bytes_word_cong. intros j Hj.
  rewrite (mem_byte_page s) by (try done; unfold BY2PG in *; Z.div_mod_to_equations; lia).
  f_equal; [do 3 f_equal|]; Z.div_mod_to_equations; lia.
Qed.

Definition put_word (s : pmst) (p off v : Z) : Z -> Z := fun x =>
  if (off <=? x) && (x <? off + 4) then word_byte v (x - off) else mem_byte (mem s) (page2pa p + x).

Lemma land_word_byte v j : Z.land (word_byte v j) 0xFF = word_byte v j.
Proof. unfold word_byte. rewrite <- Z.land_assoc. done. Qed.

Section Space.
Context (boot : Z -> Z) (D fl : list Z) (d : Z) (Hd : d ∈ D).

Record installed (s : pmst) : Prop := {
  in_inv : pm_inv boot D fl s;
  in_cur : cur_pgdir s = page2pa d;
  in_satp : satp_dir s d
}.

Lemma mmu_pte_run s va : installed s -> PDX va < NUPDE -> mmu_pte va s = Ret (entry s d va) s.
Proof using Hd.
  intros [I _ Hs] Hva. unfold mmu_pte. rewrite (bind_step get _ s s s eq_refl). rewrite Hs.
  pose proof (inv_ram _ _ _ _ I) as Hram. pose proof (inv_dir_page _ _ _ _ I d Hd) as Hp.
  rewrite (bind_step (ld _) _ _ _ _ (ld_ok s (page2pa d + 4 * PDX va)
    ltac:(apply in_ram_entry; [done|done|apply PDX_range]))).
  unfold entry. destruct (pte_addr s d va) as [a|] eqn:Ha.
  - pose proof (pte_addr_slot _ _ _ _ I d va a Hd Hva Ha) as Hsl.
    unfold pte_addr, pde_addr in Ha. unfold valid, truthy in *.
    destruct (Z.land (mem s (page2pa d + 4 * PDX va)) PTE_V =? 0) eqn:Hv; [done|].
    cbn [negb] in Ha. injection Ha as Ha. rewrite Ha.
    rewrite (bind_step (ld _) _ _ _ _ (ld_ok s a (slot_in_ram _ _ _ _ I a Hsl))).
    by destruct (Z.land (mem s a) PTE_V =? 0).
  - unfold pte_addr, pde_addr, valid, truthy in Ha. by destruct (_ =? 0).
Qed.

Lemma accessible_page s va p perm : installed s -> 0 <= va < UTOP -> accessible s d va p perm ->
  is_page s p /\ p ∉ D ++ tables s D.
Proof using Hd.
  intros [I _ _] Hva (e & He & <- & _). destruct (user_PDX va Hva) as [Hx _].
  by destruct (entry_mapped _ _ _ _ I d va e Hd Hx He) as (_ & _ & _ & _ & _ & ? & ?).
Qed.

Lemma user_pa_run s va p perm : installed s -> 0 <= va < UTOP -> accessible s d va p perm ->
  user_pa va perm s = Ret (page2pa p + va mod BY2PG) s.
Proof using Hd.
  intros Hs Hva Ha. destruct (accessible_page s va p perm Hs Hva Ha) as [Hp _].
  destruct Ha as (e & He & <- & Hperm). destruct (user_PDX va Hva) as [Hx _].
  unfold user_pa. rewrite (bind_step _ _ _ _ _ (mmu_pte_run s va Hs Hx)), He.
  destruct (Z.eqb_spec (Z.land e perm) 0); [done|].
  rewrite (PTE2PADDR_epage s) by (apply Hp || apply (inv_ram _ _ _ _ (in_inv _ Hs))).
  by rewrite u32_id by (by apply user_range).
Qed.

Lemma user_lb_run s va p : installed s -> 0 <= va < UTOP -> accessible s d va p PTE_R ->
  user_lb va s = Ret (mem_byte (mem s) (page2pa p + va mod BY2PG)) s.
Proof using Hd.
  intros Hs Hva Ha. destruct (accessible_page s va p _ Hs Hva Ha) as [Hp _].
  pose proof (inv_ram _ _ _ _ (in_inv _ Hs)) as Hram.
  pose proof (Z.mod_pos_bound va BY2PG ltac:(done)) as Hm. unfold user_lb.
  rewrite (bind_step _ _ _ _ _ (user_pa_run s va p PTE_R Hs Hva Ha)).
  destruct (page_word_addr s p (va mod BY2PG) Hram Hp Hm) as [Hw Hb]. rewrite Hw, Hb.
  rewrite (bind_step _ _ _ _ _ (ld_ok _ _ (page_word_in_ram s p _ Hram Hp Hm))).
  unfold ret. by rewrite (mem_byte_page s).
Qed.

(** ** Stores *)

(** The bytes of page [p] become [b], all other words of memory stay. *)
Record page_update (s : pmst) (p : Z) (b : Z -> Z) (s' : pmst) : Prop := {
  pu_eq : exists m, s' = set_mem m s;
  pu_inv : pm_inv boot D fl s';
  pu_tables : tables s' D = tables s D;
  pu_entry : forall d' va, d' ∈ D -> PDX va < NUPDE -> entry s' d' va = entry s d' va;
  pu_other : forall r j, is_page s r -> r <> p -> 0 <= j < 1024 ->
    mem s' (page2pa r + 4 * j) = mem s (page2pa r + 4 * j);
  pu_bytes : forall x, 0 <= x < BY2PG -> mem_byte (mem s') (page2pa p + x) = b x
}.

Lemma pu_installed s p b s' : installed s -> page_update s p b s' -> installed s'.
Proof using. intros [I Hc Hs] [[m ->] I' _ _ _ _]. by split. Qed.

Lemma pu_accessible s p b s' va q perm : page_update s p b s' -> 0 <= va < UTOP ->
  accessible s d va q perm -> accessible s' d va q perm.
Proof using Hd.
  intros U Hva (e & He & Hp & Hb). destruct (user_PDX va Hva) as [Hx _].
  exists e. by rewrite (pu_entry _ _ _ _ U).
Qed.

Lemma pu_is_page s p b s' q : page_update s p b s' -> is_page s' q <-> is_page s q.
Proof using. intros [[m ->] _ _ _ _ _]. done. Qed.

Lemma pu_trans s p b s1 b' s2 :
  page_update s p b s1 -> page_update s1 p b' s2 -> page_update s p b' s2.
Proof using.
  intros U1 U2. destruct (pu_eq _ _ _ _ U1) as [m1 E1], (pu_eq _ _ _ _ U2) as [m2 E2]. split.
  - exists m2. by rewrite E2, E1.
  - apply (pu_inv _ _ _ _ U2).
  - by rewrite (pu_tables _ _ _ _ U2), (pu_tables _ _ _ _ U1).
  - intros d' va Hd' Hva. by rewrite (pu_entry _ _ _ _ U2), (pu_entry _ _ _ _ U1).
  - intros r j Hr Hne Hj. rewrite (pu_other _ _ _ _ U2), (pu_other _ _ _ _ U1); try done.
    by rewrite (pu_is_page _ _ _ _ _ U1).
  - apply (pu_bytes _ _ _ _ U2).
Qed.

Lemma pu_ext s p b b' s' : (forall x, 0 <= x < BY2PG -> b x = b' x) ->
  page_update s p b s' -> page_update s p b' s'.
Proof using. intros H [? ? ? ? ? Hb]. split; try done. intros x Hx. by rewrite <- H, Hb. Qed.

(** The byte at another page. *)
Lemma pu_other_byte s p b s' r x : page_update s p b s' -> ram_ok s -> is_page s r -> r <> p ->
  0 <= x < BY2PG -> mem_byte (mem s') (page2pa r + x) = mem_byte (mem s) (page2pa r + x).
Proof using.
  intros U Hram Hr Hne Hx. rewrite !(mem_byte_page s) by done. f_equal. apply (pu_other _ _ _ _ U); try done.
  unfold BY2PG in Hx. Z.div_mod_to_equations. lia.
Qed.

Definition put_byte (s : pmst) (p off v : Z) : Z -> Z := fun x =>
  if x =? off then v else mem_byte (mem s) (page2pa p + x).

Lemma user_sb_run s va v p : installed s -> 0 <= va < UTOP -> accessible s d va p PTE_W ->
  exists s', user_sb va v s = Ret tt s' /\ page_update s p (put_byte s p (va mod BY2PG) (Z.land v 0xFF)) s'.
Proof using Hd.
  intros Hs Hva Ha. destruct (accessible_page s va p _ Hs Hva Ha) as [Hp Hno].
  pose proof (in_inv _ Hs) as I. pose proof (inv_ram _ _ _ _ I) as Hram.
  pose proof (Z.mod_pos_bound va BY2PG ltac:(done)) as Hm. unfold user_sb.
  rewrite (bind_step _ _ _ _ _ (user_pa_run s va p PTE_W Hs Hva Ha)).
  destruct (page_word_addr s p (va mod BY2PG) Hram Hp Hm) as [-> _].
  rewrite (bind_step _ _ _ _ _ (ld_ok _ _ (page_word_in_ram s p _ Hram Hp Hm))).
  assert (Hv : 0 <= Z.land v 0xFF < 2 ^ 8).
  { change 0xFF with (Z.ones 8). rewrite Z.land_ones by lia. apply Z.mod_pos_bound. lia. }
  destruct (blit_page boot D fl s p (va mod BY2PG) 1 (fun _ => Z.land v 0xFF) I Hp Hno ltac:(lia) ltac:(lia)
    (fun _ => Hv)) as (I' & Ht & He & Ho & Hb).
  eexists. split; [reflexivity|]. split; try done; [by eexists|].
  intros x Hx. rewrite Hb by done. unfold put_byte.
  destruct (Z.leb_spec (va mod BY2PG) x), (Z.ltb_spec x (va mod BY2PG + 1)), (Z.eqb_spec x (va mod BY2PG));
    cbn [andb]; done || lia.
Qed.

(** ** Loads and stores of words *)
Lemma user_lw_run s va p : installed s -> 0 <= va < UTOP -> va mod 4 = 0 -> accessible s d va p PTE_R ->
  user_lw va s = Ret (page_word s p (va mod BY2PG)) s.
Proof using Hd.
  intros Hs Hva H4 Ha. destruct (accessible_page s va p _ Hs Hva Ha) as [Hp _].
  pose proof (inv_ram _ _ _ _ (in_inv _ Hs)) as Hram.
  assert (Hb : forall j, 0 <= j < 4 ->
            user_lb (va + j) s = Ret (mem_byte (mem s) (page2pa p + (va mod BY2PG + j))) s).
  { intros j Hj. destruct (word_address va j Hva H4 Hj) as (Hu & Hm & _).
    rewrite <- Hm. apply user_lb_run; try done. by apply accessible_word. }
  unfold user_lw. pose proof (Hb 0 ltac:(lia)) as Hb0. rewrite Z.add_0_r in Hb0.
  rewrite (bind_step _ _ _ _ _ Hb0), (bind_step _ _ _ _ _ (Hb 1 ltac:(lia))).
  rewrite (bind_step _ _ _ _ _ (Hb 2 ltac:(lia))), (bind_step _ _ _ _ _ (Hb 3 ltac:(lia))).
  assert (Hm4 : va mod BY2PG mod 4 = 0) by (unfold BY2PG; Z.div_mod_to_equations; lia).
  unfold ret. rewrite (word_bytes s p) by (done || by apply Z.mod_pos_bound).
  unfold bytes_word. by rewrite Z.add_0_r.
Qed.

Lemma user_sw_run s va v p : installed s -> 0 <= va < UTOP -> va mod 4 = 0 -> accessible s d va p PTE_W ->
  exists s', user_sw va v s = Ret tt s' /\ page_update s p (put_word s p (va mod BY2PG) v) s'.
Proof using Hd.
  intros Hs Hva H4 Ha. set (off := va mod BY2PG).
  set (P := fun i s' => page_update s p
    (fun x => if (off <=? x) && (x <? off + i) then word_byte v (x - off)
              else mem_byte (mem s) (page2pa p + x)) s').
  destruct (forM_seqZ P (fun j => user_sb (va + j) (word_byte v j)) 0 4 s) as (s' & Hr & HP); [lia| | |by exists s'].
  - intros i s1 Hi U. destruct (word_address va i Hva H4 ltac:(lia)) as (Hu & Hm & _).
    destruct (user_sb_run s1 (va + i) (word_byte v i) p) as (s2 & Hr & U2);
      [by eapply pu_installed|done| |].
    { eapply pu_accessible; [exact U|done|]. by apply accessible_word; [..|lia|]. }
    exists s2. split; [done|]. eapply pu_ext; [|by eapply pu_trans]. intros x Hx. cbv beta.
    unfold put_byte. rewrite Hm, land_word_byte, (pu_bytes _ _ _ _ U) by done. fold off.
    destruct (Z.eqb_spec x (off + i)) as [Hxe|], (Z.leb_spec off x), (Z.ltb_spec x (off + i)),
      (Z.ltb_spec x (off + (i + 1))); cbn [andb]; try done; try lia.
    f_equal. lia.
  - split; try done; [by exists (mem s); destruct s|apply Hs|].
    intros x Hx. destruct (Z.leb_spec off x), (Z.ltb_spec x (off + 0)); cbn [andb]; done || lia.
Qed.

(** The words of the page after a store. *)
Lemma put_word_word s p off v s' x : ram_ok s -> is_page s p -> 0 <= x < BY2PG -> x mod 4 = 0 ->
  off mod 4 = 0 -> page_update s p (put_word s p off v) s' ->
  page_word s' p x = if x =? off then u32 v else page_word s p x.
Proof using.
  intros Hram Hp Hx H4 Ho U.
  rewrite (word_bytes s' p x) by (try done; destruct (pu_eq _ _ _ _ U) as [m ->]; done).
  rewrite (bytes_word_cong _ (fun j => put_word s p off v (x + j))).
  2: { intros j Hj. apply (pu_bytes _ _ _ _ U). unfold BY2PG in *. Z.div_mod_to_equations. lia. }
  destruct (Z.eqb_spec x off) as [->|Hne].
  - rewrite <- bytes_word_bytes. apply bytes_word_cong. intros j Hj. unfold put_word.
    destruct (Z.leb_spec off (off + j)), (Z.ltb_spec (off + j) (off + 4)); cbn [andb]; try lia. f_equal. lia.
  - rewrite (word_bytes s p x) by done. apply bytes_word_cong. intros j Hj. unfold put_word.
    destruct (Z.leb_spec off (x + j)), (Z.ltb_spec (x + j) (off + 4)); cbn [andb]; try done.
    exfalso. Z.div_mod_to_equations. lia.
Qed.
End Space.
