(* ===== verification/ExSpace.v ===== *)
(** * Small machines for examples

    Machines built from the example of PmapBoot.v by mapping fresh pages and
    storing words, whose invariant follows from the lemmas about these steps. *)
From S2P Require Import Prelude Queue Mmu Pmap PmapFacts PmapInv PmapSpec PmapFrame PmapBoot PmapProps.
From S2P Require Import UserMem Elf Env EnvFree Sched EnvFacts EnvProps LoadProps Syscall SyscallProps Traps User UserFacts.

(** A fresh page at [va]; a word stored at [va]. *)
Definition map_fresh (va : Z) (s : pmst) : pmst :=
  PmapBoot.run (tryz! pp := page_alloc in page_insert (page2pa ex_dir) 0 pp va (Z.lor PTE_W PTE_U)) s.
Definition poke (va v : Z) (s : pmst) : pmst := PmapBoot.run (user_sw va v) s.

(** The example of PmapBoot.v with its address space installed. *)
Definition ex_space0 : pmst := set_cur_pgdir (page2pa ex_dir) (set_csr_satp (page2pa ex_dir / BY2PG) ex_vm).

(** A machine of the example whose page invariant holds. *)
Definition sound (s : pmst) : Prop := exists fl, pm_inv ex_refs [ex_dir] fl s.

Lemma map_fresh_sound va s : 0 <= va < UTOP -> sound s -> sound (map_fresh va s).
Proof.
  intros Hva [fl I]. unfold map_fresh, PmapBoot.run.
  destruct (alloc_insert_run ex_refs [ex_dir] fl s ex_dir va 0 (Z.lor PTE_W PTE_U) I ex_refs_nonneg
    ltac:(by apply list_elem_of_here) Hva ltac:(by vm_compute))
    as [(p & s' & fl' & -> & I' & _)|(_ & s' & fl' & -> & I' & _)]; by exists fl'.
Qed.

Lemma poke_sound va v p s : 0 <= va < UTOP -> va mod 4 = 0 -> cur_pgdir s = page2pa ex_dir ->
  satp_dir s ex_dir -> accessible s ex_dir va p PTE_W -> sound s -> sound (poke va v s).
Proof.
  intros Hva H4 Hc Hs Ha [fl I]. unfold poke.
  destruct (user_sw_run ex_refs [ex_dir] fl ex_dir ltac:(by apply list_elem_of_here) s va v p
    ltac:(by split) Hva H4 Ha) as (s' & Hr & U).
  unfold PmapBoot.run. rewrite Hr. exists fl. apply (pu_inv _ _ _ _ _ _ _ U).
Qed.

Lemma ex_accessible s va p perm e : entry s ex_dir va = Some e -> epage e = p ->
  (Z.land e perm =? 0) = false -> accessible s ex_dir va p perm.
Proof. intros He Hp Hl. exists e. split_and!; [done..|]. by apply Z.eqb_neq. Qed.

Ltac on_space := by vm_compute.
Ltac mapped := eapply ex_accessible; [on_space|try reflexivity; on_space|on_space].

Lemma ex_space0_sound : sound ex_space0.
Proof. exists ex_free. apply pm_inv_cur_pgdir, pm_inv_csr_satp, ex_vm_inv. Qed.

(** An installed machine from a sound one. *)
Lemma sound_installed s : sound s -> cur_pgdir s = page2pa ex_dir -> satp_dir s ex_dir ->
  exists fl, installed ex_refs [ex_dir] fl ex_dir s.
Proof. intros [fl I] Hc Hs. by exists fl. Qed.
