(* ===== verification/Fork.v ===== *)
(** * User-level fork (user/lib/fork.c)

    Copy-on-write [fork] over the system calls, and the handler [cow_entry] of
    stores to a copy-on-write page. *)
From S2P Require Import Prelude Queue Mmu Pmap UserMem Elf Env Sched Syscall Traps User.

Section Fork.
Context `{Board}.

(** [tf] is the address of the frame [user_mod] pushed; [badvaddr] is its
    34th word.  The last system call restores the frame, so control goes back
    to the faulting store. *)
Definition cow_entry (tf : Z) : KM unit :=
  let! va := load (tf + 4 * 33) in
  let! pte := vpt (VPN va) in
  let perm := PTE_BITS pte in
  (if negb (truthy (Z.land perm PTE_COW)) then user_panic "page doesn't have PTE_COW flag"
   else ret tt) ;!
  let perm := Z.lor (Z.land perm (not32 PTE_COW)) PTE_W in
  syscall_mem_alloc 0 UCOW PTE_W ;!
  let va := ROUNDDOWN va BY2PG in
  user_memcpy UCOW va BY2PG ;!
  syscall_mem_map 0 UCOW 0 va perm ;!
  syscall_mem_unmap 0 UCOW ;!
  syscall_set_trapframe 0 tf ;!
  (if is_illegal_va_range tf SIZEOF_TF then user_panic "syscall_set_trapframe returned"
   else ret tt).

Definition duppage (envid vpn : Z) : KM unit :=
  let! pte := vpt vpn in
  let perm := PTE_BITS pte in
  let addr := u32 (Z.shiftl vpn PGSHIFT) in
  if negb (truthy (Z.land perm PTE_W)) || truthy (Z.land perm PTE_LIBRARY) then
    syscall_mem_map 0 addr envid addr perm ;! ret tt
  else
    let perm := Z.lor (Z.land perm (not32 PTE_W)) PTE_COW in
    syscall_mem_map 0 addr envid addr perm ;!
    syscall_mem_map 0 addr 0 addr perm ;!
    ret tt.

(** The body of the inner loop of [fork] for page [j] of table [i]. *)
Definition dup_one (child i j : Z) : KM unit :=
  let vpn := Z.lor (Z.shiftl i 10) j in
  if vpn <? VPN USTACKTOP then
    let! pte := vpt vpn in
    if truthy (Z.land pte PTE_V) then duppage child vpn else ret tt
  else ret tt.

(** Step 3 of [fork]. *)
Definition dup_space (child : Z) : KM unit :=
  forM (seqZ 0 (PDX (ROUND USTACKTOP PDMAP))) (fun i =>
    let! pde := vpd i in
    if truthy (Z.land pde PTE_V) then forM (seqZ 0 1024) (dup_one child i) else ret tt).

(** [fork] in the parent, where [cow] is the address of [cow_entry].  The
    child's return from [syscall_exofork], with 0, happens when the scheduler
    first runs it. *)
Definition fork (cow : Z) : KM Z :=
  let! e := env in
  let! r := (if negb (env_user_tlb_mod_entry e =? cow) then syscall_set_tlb_mod_entry 0 cow
             else ret 0) in
  if negb (r =? 0) then ret r
  else
    let! r := syscall_exofork in
    let child := u32 r in
    if child =? 0 then ret 0
    else
      dup_space child ;!
      syscall_set_tlb_mod_entry child cow ;!
      syscall_set_env_status child ENV_RUNNABLE ;!
      ret (s32 child).
End Fork.
