(* ===== verification/ForkProps.v ===== *)
(** * Copy-on-write fork

    [duppage] shares one page between parent and child and leaves it writable
    in neither, unless it is a library page; [dup_space], the loop of [fork],
    does so for every page of the parent, and for nothing else. *)
From S2P Require Import Prelude Queue Mmu Pmap PmapFacts PmapInv PmapSpec PmapBoot PmapProps.
From S2P Require Import UserMem Elf Env EnvFree Sched EnvFacts EnvProps Syscall SyscallProps.
From S2P Require Import Traps User Fork.

(** ** What the page operations leave alone *)

Definition stays {A} (m : PM A) : Prop := forall s r s', m s = Ret r s' ->
  cur_pgdir s' = cur_pgdir s /\ csr_satp s' = csr_satp s /\ npage s' = npage s.

Create HintDb pm_stays discriminated.

Lemma stays_ret {A} (a : A) : stays (ret a).
Proof. by intros s r s' [= _ ->]. Qed.
Lemma stays_get : stays get.
Proof. by intros s r s' [= _ ->]. Qed.
Lemma stays_gets {A} (f : pmst -> A) : stays (gets f).
Proof. by intros s r s' [= _ <-]. Qed.
Lemma stays_bind {A B} (m : PM A) (k : A -> PM B) :
  stays m -> (forall a, stays (k a)) -> stays (bind m k).
Proof.
  intros Hm Hk s r s'' (a & s' & H1 & H2)%bind_inv.
  destruct (Hm _ _ _ H1) as (? & ? & ?), (Hk _ _ _ _ H2) as (? & ? & ?).
  split_and!; congruence.
Qed.
Lemma stays_panic {A} msg : stays (panic (A := A) msg).
Proof. by intros s r s' [=]. Qed.
Lemma stays_fault {A} : stays (fault (A := A)).
Proof. by intros s r s' [=]. Qed.
Lemma stays_ld a : stays (ld a).
Proof. intros s r s' H. unfold ld in H. destruct (in_ram s a); by simplify_eq. Qed.
Lemma stays_st a v : stays (st a v).
Proof. intros s r s' H. unfold st in H. destruct (in_ram s a); by simplify_eq. Qed.
Lemma stays_set_ref p v : stays (set_ref p v).
Proof. by intros s r s' [= <- <-]. Qed.
Lemma stays_tlb asid va : stays (tlb_invalidate asid va).
Proof. by intros s r s' [= <- <-]. Qed.
Lemma stays_memset a n : stays (memset0 a n).
Proof. by intros s r s' [= <- <-]. Qed.
Lemma stays_free_op f : stays (free_list_op f).
Proof. intros s r s' H. unfold free_list_op in H. destruct (f _); by simplify_eq. Qed.
Lemma stays_free_list (f : pmst -> LIST) : stays (modify (fun s => set_page_free_list (f s) s)).
Proof. by intros s r s' [= <- <-]. Qed.
Lemma stays_assert b : stays (c_assert b).
Proof. unfold c_assert. destruct b; [apply stays_ret|apply stays_panic]. Qed.

#[export] Hint Resolve stays_ret stays_get stays_gets stays_bind stays_panic stays_fault stays_ld
  stays_st stays_set_ref stays_tlb stays_memset stays_free_op stays_free_list stays_assert : pm_stays.

Ltac stays_walk :=
  repeat match goal with
  | |- forall _, _ => intros ?
  | |- stays (if ?b then _ else _) => destruct b
  | |- stays (match ?x with _ => _ end) => destruct x
  | |- stays (try_res _ _) => apply stays_bind
  | |- stays (bind _ _) => apply stays_bind
  | _ => solve [auto with pm_stays]
  end.

Lemma stays_pa2page a : stays (pa2page a).
Proof. intros s r s' H. unfold pa2page in H. cbv zeta in H. case_match; by simplify_eq. Qed.
Lemma stays_PADDR2PTE a : stays (PADDR2PTE a).
Proof. unfold PADDR2PTE. cbv zeta. stays_walk. Qed.
#[export] Hint Resolve stays_pa2page stays_PADDR2PTE : pm_stays.
Lemma stays_page_alloc : stays page_alloc.
Proof. unfold page_alloc. stays_walk. Qed.
Lemma stays_page_free p : stays (page_free p).
Proof. unfold page_free. stays_walk. Qed.
#[export] Hint Resolve stays_page_alloc stays_page_free : pm_stays.
Lemma stays_page_decref p : stays (page_decref p).
Proof. unfold page_decref. stays_walk. Qed.
Lemma stays_pgdir_walk d va c : stays (pgdir_walk d va c).
Proof. unfold pgdir_walk. stays_walk. Qed.
#[export] Hint Resolve stays_page_decref stays_pgdir_walk : pm_stays.
Lemma stays_page_lookup d va : stays (page_lookup d va).
Proof. unfold page_lookup. stays_walk. Qed.
Lemma stays_insert_new d asid p va perm : stays (insert_new d asid p va perm).
Proof. unfold insert_new. stays_walk. Qed.
#[export] Hint Resolve stays_page_lookup stays_insert_new : pm_stays.
Lemma stays_page_remove d asid va : stays (page_remove d asid va).
Proof. unfold page_remove. stays_walk. Qed.
#[export] Hint Resolve stays_page_remove : pm_stays.
Lemma stays_page_insert d asid p va perm : stays (page_insert d asid p va perm).
Proof. unfold page_insert. stays_walk. Qed.
#[export] Hint Resolve stays_page_insert : pm_stays.

(** ** Reading the page table through the window *)

Lemma entry_no_table s d va : valid (pde s d (PDX va)) = false -> entry s d va = None.
Proof. unfold pde, entry, pte_addr, pde_addr. by intros ->. Qed.

Lemma vpt_addr n : 0 <= n < 2 ^ 20 -> u32 (Z.shiftl (u32 (UVPT + 4 * n)) 10) = n * 4096.
Proof.
  intros Hn. rewrite Z.shiftl_mul_pow2 by lia. unfold u32. rewrite Zmult_mod_idemp_l.
  replace ((UVPT + 4 * n) * 2 ^ 10) with (n * 4096 + 511 * 2 ^ 32) by (unfold UVPT, ULIM, PDMAP; lia).
  rewrite Z.mod_add, Z.mod_small; lia.
Qed.

Lemma vpd_addr i : 0 <= i < 1024 ->
  u32 (Z.shiftl (u32 (UVPT + Z.shiftl (PDX UVPT) PGSHIFT + 4 * i)) 10) = UVPT + i * 4096.
Proof.
  intros Hi. rewrite Z.shiftl_mul_pow2 by lia. unfold u32 at 1 2. rewrite Zmult_mod_idemp_l.
  change (Z.shiftl (PDX UVPT) PGSHIFT) with (511 * 4096).
  replace ((UVPT + 511 * 4096 + 4 * i) * 2 ^ 10) with (UVPT + i * 4096 + 511 * 2 ^ 32)
    by (unfold UVPT, ULIM, PDMAP; lia).
  rewrite Z.mod_add, Z.mod_small; unfold UVPT, ULIM, PDMAP; lia.
Qed.

Section Windows.
Context (boot : Z -> Z) (D fl : list Z) (k : kst) (d : Z).
Context (I : pm_inv boot D fl (pm k)) (Hd : d ∈ D) (Hcur : cur_pgdir (pm k) = page2pa d).

Lemma vpt_run n : 0 <= n * 4096 < UTOP ->
  exists v, vpt n k = Ret v k /\
    entry (pm k) d (n * 4096) = if valid v then Some v else None.
Proof using I Hd Hcur.
  intros Hn. destruct (user_PDX _ Hn) as [Hx _]. pose proof (inv_ram _ _ _ _ I) as Hram.
  assert (Hlt : n * 4096 < UVPT) by (unfold UTOP, UENVS, UPAGES, UVPT, ULIM, PDMAP in *; lia).
  assert (Hn' : 0 <= n < 2 ^ 20) by (unfold UVPT, ULIM, PDMAP in *; lia).
  unfold vpt, vpt_load. rewrite vpt_addr by done.
  rewrite (bind_step _ _ _ _ _ (eq_refl : get k = Ret k k)).
  unfold vpt_entry. destruct (Z.leb_spec UVPT (n * 4096)); [lia|]. cbn [andb].
  destruct (Z.ltb_spec (n * 4096) UVPT); [|lia]. rewrite Hcur, bind_assoc.
  rewrite (bind_step _ _ _ _ _ (kpm_same _ _ _
    (pgdir_walk_lookup (pm k) Hram d (n * 4096) (inv_dir_page _ _ _ _ I d Hd)))).
  unfold entry. destruct (pte_addr (pm k) d (n * 4096)) as [a|] eqn:Ha.
  - exists (mem (pm k) a). split; [|done].
    rewrite (bind_step _ _ _ _ _ (eq_refl : ret (Some a) k = Ret (Some a) k)).
    apply kpm_same, ld_ok. eapply slot_in_ram; [done|]. by eapply pte_addr_slot.
  - by exists 0.
Qed.

Lemma vpd_run i : 0 <= i < 1024 -> vpd i k = Ret (pde (pm k) d i) k.
Proof using I Hd Hcur.
  intros Hi. unfold vpd, vpt_load. rewrite vpd_addr by done.
  rewrite (bind_step _ _ _ _ _ (eq_refl : get k = Ret k k)). unfold vpt_entry.
  destruct (Z.leb_spec UVPT (UVPT + i * 4096)); [|lia].
  destruct (Z.ltb_spec (UVPT + i * 4096) ULIM); [|unfold UVPT, ULIM, PDMAP in *; lia]. cbn [andb].
  rewrite (bind_step _ _ _ _ _ (eq_refl : ret _ k = Ret _ k)), Hcur.
  replace (PTX (UVPT + i * 4096)) with i.
  - apply kpm_same, ld_ok, in_ram_entry; [apply (inv_ram _ _ _ _ I)|by apply (inv_dir_page _ _ _ _ I)|done].
  - rewrite PTX_div by (unfold UVPT, ULIM, PDMAP; lia).
    replace (UVPT + i * 4096) with ((511 * 1024 + i) * 4096) by (unfold UVPT, ULIM, PDMAP; lia).
    rewrite Z.div_mul by lia. rewrite Z.add_comm, Z.mod_add by lia. by rewrite Z.mod_small.
Qed.
End Windows.

(** ** The two ways [duppage] uses [page_insert] *)

Section Insert.
Context (boot : Z -> Z) (D fl : list Z) (s : pmst) (d va : Z).
Context (I : pm_inv boot D fl s) (Hd : d ∈ D) (Hva : 0 <= va < UTOP).

(** On an address that is not mapped. *)
Lemma page_insert_fresh asid pp perm : entry s d va = None ->
  page_insert (page2pa d) asid pp va perm s = insert_new (page2pa d) asid pp va perm s.
Proof using I Hd Hva.
  intros He. destruct (user_PDX va Hva) as [Hx Hu]. pose proof (inv_ram _ _ _ _ I) as Hram.
  unfold page_insert. destruct (Z.leb_spec ULIM va); [lia|].
  rewrite (bind_step _ _ _ _ _ (pgdir_walk_lookup s Hram d va (inv_dir_page _ _ _ _ I d Hd))).
  unfold entry in He. destruct (pte_addr s d va) as [a|] eqn:Ha; [|done].
  rewrite (bind_step _ _ _ _ _ (ld_ok s a (slot_in_ram _ _ _ _ I a (pte_addr_slot _ _ _ _ I d va a Hd Hx Ha)))).
  fold (valid (mem s a)). by destruct (valid (mem s a)).
Qed.

(** On the page the address is already mapped to. *)
Lemma page_insert_same asid e perm : entry s d va = Some e -> 0 <= perm < 1024 ->
  exists s', page_insert (page2pa d) asid (epage e) va perm s = Ret 0 s' /\
    pm_inv boot D fl s' /\ mapped_as s' d va (epage e) perm /\ others_same s s' D d va /\
    pp_ref s' = pp_ref s.
Proof using I Hd Hva.
  intros He Hperm. destruct (user_PDX va Hva) as [Hx Hu]. pose proof (inv_ram _ _ _ _ I) as Hram.
  destruct (entry_mapped _ _ _ _ I d va e Hd Hx He) as (a & Ha & Hs & Hm & Hv & [_ Hep] & _).
  destruct (reflag_inv _ _ _ _ d va a e asid perm I Hd Hx Ha He Hperm) as (s' & Hrun & H).
  exists s'. split; [|done]. rewrite <- Hrun.
  unfold page_insert. destruct (Z.leb_spec ULIM va); [lia|].
  rewrite (bind_step _ _ _ _ _ (pgdir_walk_lookup s Hram d va (inv_dir_page _ _ _ _ I d Hd))), Ha.
  rewrite (bind_step _ _ _ _ _ (ld_ok s a (slot_in_ram _ _ _ _ I a Hs))), Hm.
  fold (valid e). rewrite Hv, (bind_step _ _ _ _ _ (pa2page_ok s Hram _ Hep)).
  by rewrite Z.eqb_refl.
Qed.
End Insert.

(** ** [syscall_mem_map] of a mapped page *)

Section Map.
Context `{Board} (boot : Z -> Z) (D fl : list Z) (k : kst) (c : Z).
Context (I : pm_inv boot D fl (pm k)) (Hb : forall p, 0 <= boot p) (Hc : curenv k = Some c).

(** The stub reaches [page_insert] on the page mapped at the source. *)
Lemma mem_map_run srcid srcva dstid dstva perm es ed ds dd e r s' :
  is_illegal_va srcva = false -> is_illegal_va dstva = false ->
  target k srcid true = Some es -> target k dstid true = Some ed ->
  ds ∈ D -> env_pgdir (envs k es) = page2pa ds -> env_pgdir (envs k ed) = page2pa dd ->
  entry (pm k) ds srcva = Some e -> 
  page_insert (page2pa dd) (env_asid (envs k ed)) (epage e) dstva (Z.lor perm PTE_U) (pm k) = Ret r s' ->
  syscall_mem_map srcid srcva dstid dstva perm k = Ret (s32 r) (set_pm s' k).
Proof using I Hc.
  intros Hs Hdv Hts Htd Hds Hps Hpd He Hrun. unfold syscall_mem_map, msyscall.
  change (syscall_table board_read board_void SYS_mem_map srcid srcva dstid dstva perm)
    with (sys_mem_map srcid srcva dstid dstva perm).
  assert (Hr : sys_mem_map srcid srcva dstid dstva perm k = Ret r (set_pm s' k)).
  { unfold sys_mem_map. rewrite Hs, Hdv. cbn [orb]. apply legal_user in Hs.
    destruct (user_PDX srcva Hs) as [Hx _]. unfold try_z.
    rewrite (envid2env_step _ _ _ _ _ _ Hc Hts), (envid2env_step _ _ _ _ _ _ Hc Htd).
    rewrite (bind_step _ _ _ _ _ (deref_run _ _)).
    rewrite (bind_step _ _ _ _ _ (eq_refl : get k = Ret k k)), Hps.
    destruct (kpm_lookup boot D fl k ds srcva I Hds Hx) as (a & Hl). rewrite He in Hl.
    rewrite (bind_step _ _ _ _ _ Hl), (bind_step _ _ _ _ _ (deref_run _ _)), Hpd.
    by apply kpm_ret. }
  by rewrite (bind_step _ _ _ _ _ Hr).
Qed.
End Map.

(** ** [duppage] *)

(** The permissions [duppage] gives: a page that is private and writable becomes
    copy-on-write. *)
Definition shared_perm (perm : Z) : bool :=
  negb (truthy (Z.land perm PTE_W)) || truthy (Z.land perm PTE_LIBRARY).
Definition cow_perm (perm : Z) : Z :=
  if shared_perm perm then perm else Z.lor (Z.land perm (not32 PTE_W)) PTE_COW.

Lemma PTE_BITS_range e : 0 <= PTE_BITS e < 1024.
Proof.
  unfold PTE_BITS. change 0x3FF with (Z.ones 10). rewrite Z.land_ones by lia.
  apply Z.mod_pos_bound. lia.
Qed.

Lemma cow_perm_range perm : 0 <= perm < 1024 -> 0 <= cow_perm perm < 1024.
Proof.
  intros H. unfold cow_perm. destruct (shared_perm perm); [done|].
  apply (lor_lt_pow2 _ _ 10); [lia| |by vm_compute].
  replace perm with (Z.land perm (Z.ones 10)) by (rewrite Z.land_ones, Z.mod_small; lia).
  rewrite <- Z.land_assoc, (Z.land_comm (Z.ones 10)), Z.land_assoc, Z.land_ones by lia.
  apply Z.mod_pos_bound. lia.
Qed.

(** The parent's entry [e] after [duppage]. *)
Definition parent_entry (s : pmst) (d va e : Z) : Prop :=
  if shared_perm (PTE_BITS e) then entry s d va = Some e
  else mapped_as s d va (epage e) (Z.lor (cow_perm (PTE_BITS e)) PTE_U).

Record dup_post (boot : Z -> Z) (D : list Z) (s s' : pmst) (fl fl' : list Z) (dp dc va e : Z) : Prop := {
  dup_inv : pm_inv boot D fl' s';
  dup_child : mapped_as s' dc va (epage e) (Z.lor (cow_perm (PTE_BITS e)) PTE_U);
  dup_parent : parent_entry s' dp va e;
  dup_others : forall d' va', d' ∈ D -> PDX va' < NUPDE ->
    ~ same_slot dp va d' va' -> ~ same_slot dc va d' va' -> entry s' d' va' = entry s d' va';
  dup_free : (length fl <= S (length fl'))%nat;
  dup_ref : forall q, pp_ref s' q <= pp_ref s q + 1;
  dup_stays : cur_pgdir s' = cur_pgdir s /\ csr_satp s' = csr_satp s /\ npage s' = npage s
}.

Lemma duppage_run `{Board} boot D fl k c ch child dp dc n e :
  pm_inv boot D fl (pm k) -> (forall p, 0 <= boot p) -> curenv k = Some c ->
  env_pgdir (envs k c) = page2pa dp -> cur_pgdir (pm k) = page2pa dp -> dp ∈ D ->
  target k child true = Some ch -> env_pgdir (envs k ch) = page2pa dc -> dc ∈ D -> dp <> dc ->
  UTEMP <= n * 4096 < UTOP ->
  entry (pm k) dp (n * 4096) = Some e -> entry (pm k) dc (n * 4096) = None ->
  pp_ref (pm k) (epage e) < 2 ^ 16 - 1 -> fl <> [] ->
  exists s' fl', duppage child n k = Ret tt (set_pm s' k) /\
    dup_post boot D (pm k) s' fl fl' dp dc (n * 4096) e.
Proof.
  intros I Hb Hc Hpp Hcur Hdp Ht Hpc Hdc Hne Hn He Hnone Href Hfl.
  assert (H0 : 0 <= n * 4096 < UTOP) by (assert (0 <= UTEMP) by (by vm_compute); lia).
  destruct (user_PDX _ H0) as [Hx _].
  assert (Hlegal : is_illegal_va (n * 4096) = false) by (unfold is_illegal_va; lia).
  destruct (vpt_run boot D fl k dp I Hdp Hcur n H0) as (v & Hv & Hev).
  rewrite He in Hev. destruct (valid v); [|done]. injection Hev as <-.
  unfold duppage. rewrite (bind_step _ _ _ _ _ Hv). cbv zeta.
  assert (Haddr : u32 (Z.shiftl n PGSHIFT) = n * 4096).
  { rewrite Z.shiftl_mul_pow2 by (unfold PGSHIFT; lia). change (2 ^ PGSHIFT) with 4096.
    apply u32_id. unfold UTOP, UENVS, UPAGES, UVPT, ULIM, PDMAP in *. lia. }
  rewrite Haddr. pose proof (cow_perm_range _ (PTE_BITS_range e)) as Hcp.
  destruct (entry_mapped _ _ _ _ I dp _ e Hdp Hx He) as (_ & _ & _ & _ & _ & Hp & Hu).
  destruct (mapped_ref _ _ _ _ I dp _ e Hdp Hx Hb He) as [_ Hf].
  destruct (insert_new_full boot D fl (pm k) dc (n * 4096) (env_asid (envs k ch)) (epage e)
    (Z.lor (cow_perm (PTE_BITS e)) PTE_U) I Hb Hdc Hx Hnone)
    as [(s1 & fl1 & Hrun1 & I1 & Hm1 & Ho1 & _ & Hl1 & Hr1 & _)|(_ & ? & _)];
    [by split|by apply user_perm| |done].
  rewrite <- (page_insert_fresh boot D fl (pm k) dc _ I Hdc H0) in Hrun1 by done.
  pose proof (mem_map_run boot D fl k c I Hc 0 _ child _ (cow_perm (PTE_BITS e)) c ch dp dc e _ _
    Hlegal Hlegal Hc Ht Hdp Hpp Hpc He Hrun1) as Hmap1.
  pose proof (stays_page_insert _ _ _ _ _ _ _ _ Hrun1) as Hst1.
  assert (He1 : entry s1 dp (n * 4096) = Some e).
  { rewrite Ho1; [done|done|done|]. by intros [-> _]. }
  unfold cow_perm in Hmap1. fold (shared_perm (PTE_BITS e)).
  destruct (shared_perm (PTE_BITS e)) eqn:Hsh.
  - exists s1, fl1. split; [by rewrite (bind_step _ _ _ _ _ Hmap1)|]. split; try done.
    + by unfold parent_entry; rewrite Hsh.
    + intros d' va' Hd' Hva' _ Hns. by apply Ho1.
  - rewrite (bind_step _ _ _ _ _ Hmap1).
    destruct (page_insert_same boot D fl1 s1 dp (n * 4096) I1 Hdp H0 (env_asid (envs k c)) e
      (Z.lor (cow_perm (PTE_BITS e)) PTE_U) He1 (user_perm _ Hcp))
      as (s2 & Hrun2 & I2 & Hm2 & Ho2 & Hr2).
    pose proof (mem_map_run boot D fl1 (set_pm s1 k) c I1 Hc 0 _ 0 _ (cow_perm (PTE_BITS e)) c c dp dp e _ _
      Hlegal Hlegal Hc Hc Hdp Hpp Hpp He1 Hrun2) as Hmap2.
    unfold cow_perm in Hmap2. rewrite Hsh in Hmap2.
    pose proof (stays_page_insert _ _ _ _ _ _ _ _ Hrun2) as Hst2.
    exists s2, fl1. split; [rewrite (bind_step _ _ _ _ _ Hmap2); by destruct k|].
    assert (Hdiff : ~ same_slot dp (n * 4096) dc (n * 4096)) by (intros [? _]; congruence).
    split; try done.
    + destruct Hm1 as (ec & Hec & ?). exists ec. split; [|done]. by rewrite Ho2.
    + unfold parent_entry. by rewrite Hsh.
    + intros d' va' Hd' Hva' Hn1 Hn2. rewrite Ho2 by done. by apply Ho1.
    + intros q. by rewrite Hr2.
    + destruct Hst1 as (? & ? & ?), Hst2 as (? & ? & ?). split_and!; congruence.
Qed.

(** A page below [UTEMP]: both mappings are refused and the results ignored. *)
Lemma mem_map_refused `{Board} srcid va dstid perm k : va < UTEMP ->
  syscall_mem_map srcid va dstid va perm k = Ret (s32 (- E_INVAL)) k.
Proof.
  intros Hva. unfold syscall_mem_map, msyscall.
  change (syscall_table board_read board_void SYS_mem_map srcid va dstid va perm)
    with (sys_mem_map srcid va dstid va perm).
  assert (Hr : sys_mem_map srcid va dstid va perm k = Ret (- E_INVAL) k).
  { unfold sys_mem_map, is_illegal_va. by destruct (Z.ltb_spec va UTEMP); [|lia]. }
  by rewrite (bind_step _ _ _ _ _ Hr).
Qed.

Lemma duppage_refused `{Board} boot D fl k dp child n :
  pm_inv boot D fl (pm k) -> dp ∈ D -> cur_pgdir (pm k) = page2pa dp ->
  0 <= n * 4096 < UTEMP -> duppage child n k = Ret tt k.
Proof.
  intros I Hdp Hcur Hn. assert (H0 : 0 <= n * 4096 < UTOP) by (assert (UTEMP < UTOP) by (by vm_compute); lia).
  destruct (vpt_run boot D fl k dp I Hdp Hcur n H0) as (v & Hv & _).
  unfold duppage. rewrite (bind_step _ _ _ _ _ Hv). cbv zeta.
  assert (Haddr : u32 (Z.shiftl n PGSHIFT) = n * 4096).
  { rewrite Z.shiftl_mul_pow2 by (unfold PGSHIFT; lia). change (2 ^ PGSHIFT) with 4096.
    apply u32_id. unfold UTEMP in Hn. unfold UTOP, UENVS, UPAGES, UVPT, ULIM, PDMAP in *. lia. }
  rewrite Haddr. destruct (_ || _); repeat rewrite (bind_step _ _ _ _ _ (mem_map_refused _ _ _ _ k (proj2 Hn))); done.
Qed.

(** ** The loop of [fork] *)

(** How many of the pages below [n] a map has. *)
Fixpoint count (f : Z -> bool) (n : nat) : nat :=
  match n with
  | O => O
  | S n => (count f n + if f (Z.of_nat n) then 1 else 0)%nat
  end.

Lemma count_le f n m : (n <= m)%nat -> (count f n <= count f m)%nat.
Proof. induction 1; cbn; lia. Qed.

(** The number of pages [fork] looks at. *)
Definition NUPAGE : Z := VPN USTACKTOP.

(** Page [v] of the child is a copy-on-write image of that of the parent as it
    was in [s0]; a page below [UTEMP] is left out. *)
Definition page_copied (s0 s : pmst) (dp dc v : Z) : Prop :=
  match entry s0 dp (v * 4096) with
  | None => entry s dp (v * 4096) = None /\ entry s dc (v * 4096) = None
  | Some e =>
      if v * 4096 <? UTEMP then
        entry s dp (v * 4096) = Some e /\ entry s dc (v * 4096) = None
      else
        mapped_as s dc (v * 4096) (epage e) (Z.lor (cow_perm (PTE_BITS e)) PTE_U) /\
        parent_entry s dp (v * 4096) e
  end.

Lemma page_slot d d' v w : 0 <= v * 4096 < UTOP -> 0 <= w * 4096 < UTOP ->
  same_slot d (v * 4096) d' (w * 4096) -> d = d' /\ v = w.
Proof.
  intros Hv Hw (-> & Hp & Ht). split; [done|].
  assert (UTOP < 2 ^ 32) by (by vm_compute).
  pose proof (page_of_indices (v * 4096) (w * 4096) ltac:(lia) ltac:(lia) Hp Ht) as Hq.
  by rewrite !Z.div_mul in Hq by lia.
Qed.

Lemma NUPAGE_range v : 0 <= v < NUPAGE -> 0 <= v * 4096 < UTOP.
Proof. intros Hv. change NUPAGE with 521214 in Hv. change UTOP with 0x7f400000. lia. Qed.

Section Loop.
Context `{Board} (boot : Z -> Z) (D fl0 : list Z) (k0 : kst) (c ch child dp dc : Z).
Context (Hb : forall p, 0 <= boot p) (I0 : pm_inv boot D fl0 (pm k0)) (Hc : curenv k0 = Some c).
Context (Hpp : env_pgdir (envs k0 c) = page2pa dp) (Hcur : cur_pgdir (pm k0) = page2pa dp).
Context (Hdp : dp ∈ D) (Ht : target k0 child true = Some ch).
Context (Hpc : env_pgdir (envs k0 ch) = page2pa dc) (Hdc : dc ∈ D) (Hne : dp <> dc).

Definition has_page (v : Z) : bool := bool_decide (is_Some (entry (pm k0) dp (v * 4096))).
Definition pages_below (n : Z) : nat := count has_page (Z.to_nat n).

(** The child is empty, and there is memory for every page table and room in
    every reference count. *)
Context (Hempty : forall v, 0 <= v * 4096 < UTOP -> entry (pm k0) dc (v * 4096) = None).
Context (Hfree : (pages_below NUPAGE <= length fl0)%nat).
Context (Hrefs : forall q, is_page (pm k0) q ->
  pp_ref (pm k0) q + Z.of_nat (pages_below NUPAGE) < 2 ^ 16).

(** The pages below [n] are done and the others untouched. *)
Record copied_below (n : Z) (k : kst) : Prop := {
  cb_pm : k = set_pm (pm k) k0;
  cb_inv : exists fl, pm_inv boot D fl (pm k) /\ (length fl0 <= pages_below n + length fl)%nat;
  cb_stays : cur_pgdir (pm k) = cur_pgdir (pm k0) /\ csr_satp (pm k) = csr_satp (pm k0) /\
             npage (pm k) = npage (pm k0);
  cb_ref : forall q, pp_ref (pm k) q <= pp_ref (pm k0) q + Z.of_nat (pages_below n);
  cb_done : forall v, 0 <= v < n -> page_copied (pm k0) (pm k) dp dc v;
  cb_todo : forall v, n <= v -> v * 4096 < UTOP ->
    entry (pm k) dp (v * 4096) = entry (pm k0) dp (v * 4096) /\ entry (pm k) dc (v * 4096) = None;
  cb_others : forall d va, d ∈ D -> d <> dp -> d <> dc -> PDX va < NUPDE ->
    entry (pm k) d va = entry (pm k0) d va
}.

Lemma copied_0 : copied_below 0 k0.
Proof using All.
  constructor; try done.
  - by destruct k0.
  - exists fl0. split; [done|]. unfold pages_below. cbn. lia.
  - intros q. cbn. lia.
  - intros v Hv. lia.
  - intros v Hv Hv'. split; [done|]. apply Hempty. lia.
Qed.

Lemma pages_below_succ n : 0 <= n ->
  pages_below (n + 1) = (pages_below n + if has_page n then 1 else 0)%nat.
Proof using All.
  intros Hn. unfold pages_below. replace (Z.to_nat (n + 1)) with (S (Z.to_nat n)) by lia.
  cbn. by rewrite Z2Nat.id by lia.
Qed.

(** A page the parent does not have. *)
Lemma copied_skip n k : 0 <= n < NUPAGE -> copied_below n k ->
  entry (pm k0) dp (n * 4096) = None -> copied_below (n + 1) k.
Proof using All.
  intros Hn [Hk [fl [I Hl]] Hs Hr Hd Htd Ho] He. pose proof (NUPAGE_range n Hn).
  assert (Hp : pages_below (n + 1) = pages_below n).
  { rewrite pages_below_succ by lia. unfold has_page. rewrite He. cbn. lia. }
  constructor; try done; rewrite ?Hp; try done.
  - by exists fl.
  - intros v Hv. destruct (decide (v = n)) as [-> |]; [|apply Hd; lia].
    unfold page_copied. rewrite He. destruct (Htd n) as [-> ->]; try lia. done.
  - intros v Hv. apply Htd. lia.
Qed.

(** A page the parent has below [UTEMP]. *)
Lemma copied_low n k e : 0 <= n < NUPAGE -> n * 4096 < UTEMP -> copied_below n k ->
  entry (pm k0) dp (n * 4096) = Some e ->
  duppage child n k = Ret tt k /\ copied_below (n + 1) k.
Proof using All.
  intros Hn Hlow [Hk [fl [I Hl]] Hs Hr Hd Htd Ho] He. pose proof (NUPAGE_range n Hn).
  split; [by eapply duppage_refused; [exact I|exact Hdp|destruct Hs as [-> _]|lia]|].
  assert (Hp : pages_below (n + 1) = S (pages_below n)).
  { rewrite pages_below_succ by lia. unfold has_page. rewrite He. cbn. lia. }
  constructor; try done; rewrite ?Hp.
  - exists fl. split; [done|lia].
  - intros q. specialize (Hr q). lia.
  - intros v Hv. destruct (decide (v = n)) as [-> |]; [|apply Hd; lia].
    unfold page_copied. rewrite He. destruct (Htd n) as [-> ->]; try lia.
    by destruct (Z.ltb_spec (n * 4096) UTEMP); [|lia].
  - intros v Hv. apply Htd. lia.
Qed.

(** A page the parent has above. *)
Lemma copied_page n k e : 0 <= n < NUPAGE -> UTEMP <= n * 4096 -> copied_below n k ->
  entry (pm k0) dp (n * 4096) = Some e ->
  exists k', duppage child n k = Ret tt k' /\ copied_below (n + 1) k'.
Proof using All.
  intros Hn Hhigh [Hk [fl [I Hl]] Hs Hr Hd Htd Ho] He. pose proof (NUPAGE_range n Hn) as Hva.
  assert (Hp : pages_below (n + 1) = S (pages_below n)).
  { rewrite pages_below_succ by lia. unfold has_page. rewrite He. cbn. lia. }
  assert (Hmax : (pages_below (n + 1) <= pages_below NUPAGE)%nat) by (apply count_le; lia).
  destruct (user_PDX _ Hva) as [Hx _].
  destruct (Htd n ltac:(lia) ltac:(lia)) as [Hen Hcn]. rewrite He in Hen.
  destruct (entry_mapped _ _ _ _ I dp _ e Hdp Hx Hen) as (_ & _ & _ & _ & _ & Hpg & _).
  assert (Hpg0 : is_page (pm k0) (epage e)) by (unfold is_page in *; by destruct Hs as (_ & _ & <-)).
  specialize (Hrefs _ Hpg0) as Hrb. pose proof (Hr (epage e)) as Hre.
  destruct (duppage_run boot D fl k c ch child dp dc n e) as (s' & fl' & Hrun & Hpost); try done.
  - by rewrite Hk.
  - by rewrite Hk.
  - destruct Hs as [-> _]. done.
  - by rewrite Hk.
  - by rewrite Hk.
  - lia.
  - lia.
  - intros ->. cbn in Hl. lia.
  - exists (set_pm s' k). split; [done|]. destruct Hpost. constructor; cbn [pm set_pm]; rewrite ?Hp.
    + rewrite Hk. done.
    + exists fl'. split; [done|]. lia.
    + destruct Hs as (? & ? & ?), dup_stays0 as (? & ? & ?). split_and!; congruence.
    + intros q. specialize (Hr q). specialize (dup_ref0 q). lia.
    + intros v Hv. destruct (decide (v = n)) as [-> |Hvn].
      * unfold page_copied. rewrite He. by destruct (Z.ltb_spec (n * 4096) UTEMP); [lia|].
      * pose proof (NUPAGE_range v ltac:(lia)) as Hv4. destruct (user_PDX _ Hv4) as [Hvx _].
        assert (Hsame : forall d, d ∈ D -> entry s' d (v * 4096) = entry (pm k) d (v * 4096)).
        { intros d Hdd. apply dup_others0; [done|done| |]; intros Hss;
            apply page_slot in Hss as [_ ?]; try done; congruence. }
        specialize (Hd v ltac:(lia)). unfold page_copied, parent_entry, mapped_as in *.
        by rewrite !Hsame.
    + intros v Hv Hv'. destruct (user_PDX (v * 4096) ltac:(lia)) as [Hvx _].
      rewrite !dup_others0; try done; try (intros Hss; apply page_slot in Hss as [_ ?]; lia).
      apply Htd; lia.
    + intros d va Hdd Hd1 Hd2 Hvx. rewrite dup_others0; [by apply Ho|done|done| |];
        intros [? _]; congruence.
Qed.

Lemma dup_one_step i j k : 0 <= i -> 0 <= j < 1024 ->
  copied_below (Z.min NUPAGE (i * 1024 + j)) k ->
  exists k', dup_one child i j k = Ret tt k' /\ copied_below (Z.min NUPAGE (i * 1024 + (j + 1))) k'.
Proof using All.
  intros Hi Hj Hk. unfold dup_one. cbv zeta.
  assert (Hv : Z.lor (Z.shiftl i 10) j = i * 1024 + j).
  { rewrite Z.shiftl_mul_pow2 by lia. apply (lor_low _ _ 10); [lia| |lia]. by apply Z.mod_mul. }
  rewrite Hv. fold NUPAGE. destruct (Z.ltb_spec (i * 1024 + j) NUPAGE) as [Hlt|Hge].
  2: { exists k. split; [done|]. rewrite Z.min_l in Hk by lia. by rewrite Z.min_l by lia. }
  rewrite Z.min_r in Hk by lia. rewrite Z.min_r by lia. set (n := i * 1024 + j) in *.
  replace (i * 1024 + (j + 1)) with (n + 1) by lia.
  assert (Hn : 0 <= n < NUPAGE) by lia. pose proof (NUPAGE_range n Hn) as Hva.
  pose proof Hk as [_ [fl [I _]] Hs _ _ Htd _].
  destruct (vpt_run boot D fl k dp I Hdp ltac:(by destruct Hs as [-> _]) n Hva) as (v & Hvr & Hev).
  rewrite (bind_step _ _ _ _ _ Hvr). fold (valid v).
  destruct (Htd n ltac:(lia) ltac:(lia)) as [Hen _]. rewrite Hen in Hev.
  destruct (valid v).
  - destruct (Z.lt_ge_cases (n * 4096) UTEMP); [|by eapply copied_page].
    exists k. by eapply copied_low.
  - exists k. split; [done|]. by apply copied_skip.
Qed.

(** A missing table is 1024 missing pages. *)
Lemma copied_hole i k : 0 <= i < NUPDE -> valid (pde (pm k) dp i) = false ->
  copied_below (Z.min NUPAGE (i * 1024)) k -> copied_below (Z.min NUPAGE (i * 1024 + 1024)) k.
Proof using All.
  intros Hi Hv Hk.
  assert (Hj : forall j, 0 <= j -> j <= 1024 -> copied_below (Z.min NUPAGE (i * 1024 + j)) k).
  { apply (natlike_ind (fun j => j <= 1024 -> copied_below (Z.min NUPAGE (i * 1024 + j)) k));
      [by rewrite Z.add_0_r|].
    intros j Hj IH Hj'. specialize (IH ltac:(lia)).
    destruct (Z.le_gt_cases NUPAGE (i * 1024 + j)).
    { rewrite Z.min_l in IH by lia. by rewrite Z.min_l by lia. }
    rewrite Z.min_r in IH by lia. rewrite Z.min_r by lia.
    replace (i * 1024 + Z.succ j) with (i * 1024 + j + 1) by lia.
    pose proof (NUPAGE_range (i * 1024 + j) ltac:(lia)) as Hva.
    apply copied_skip; [lia|done|].
    destruct (cb_todo _ _ IH (i * 1024 + j) ltac:(lia) ltac:(lia)) as [<- _].
    assert (UTOP < 2 ^ 32) by (by vm_compute).
    assert (Hx : PDX ((i * 1024 + j) * 4096) = i).
    { rewrite PDX_div by lia. replace ((i * 1024 + j) * 4096) with (j * 4096 + i * 2 ^ 22) by lia.
      rewrite Z.div_add, Z.div_small by lia. lia. }
    apply entry_no_table. by rewrite Hx. }
  apply Hj; lia.
Qed.

Lemma dup_space_run : exists k', dup_space child k0 = Ret tt k' /\ copied_below NUPAGE k'.
Proof using All.
  unfold dup_space. change (PDX (ROUND USTACKTOP PDMAP)) with NUPDE.
  destruct (forM_seqZ (fun i k => copied_below (Z.min NUPAGE (i * 1024)) k)
    (fun i => let! pde := vpd i in
       if truthy (Z.land pde PTE_V) then forM (seqZ 0 1024) (dup_one child i) else ret tt) 0 NUPDE k0)
    as (k' & Hrun & Hk'); [by vm_compute| |exact copied_0|].
  - intros i k Hi Hk. change NUPDE with 509 in Hi. rewrite Z.add_0_l in Hi.
    destruct (cb_inv _ _ Hk) as [fl [I _]]. destruct (cb_stays _ _ Hk) as [Hsc _].
    rewrite (bind_step _ _ _ _ _ (vpd_run boot D fl k dp I Hdp ltac:(by rewrite Hsc) i ltac:(lia))).
    fold (valid (pde (pm k) dp i)). replace ((i + 1) * 1024) with (i * 1024 + 1024) by lia.
    destruct (valid (pde (pm k) dp i)) eqn:Hv.
    + destruct (forM_seqZ (fun j k => copied_below (Z.min NUPAGE (i * 1024 + j)) k)
        (dup_one child i) 0 1024 k) as (k1 & Hr1 & Hk1); [lia| |by rewrite Z.add_0_r|by exists k1].
      intros j k2 Hj. apply dup_one_step; lia.
    + exists k. split; [done|]. apply copied_hole; [by change NUPDE with 509|done|done].
  - exists k'. split; [done|]. rewrite Z.add_0_l in Hk'. change (NUPDE * 1024) with 521216 in Hk'.
    by change NUPAGE with 521214 in *.
Qed.
End Loop.

(** A page the child may write is a library page of the parent. *)
Lemma cow_writable perm :
  truthy (Z.land (Z.lor (Z.lor (cow_perm perm) PTE_U) PTE_LEAF) PTE_W) = true ->
  truthy (Z.land perm PTE_LIBRARY) = true.
Proof.
  rewrite <- Z.lor_assoc, Z.land_lor_distr_l. change (Z.land (Z.lor PTE_U PTE_LEAF) PTE_W) with 0.
  rewrite Z.lor_0_r. unfold cow_perm, shared_perm.
  destruct (truthy (Z.land perm PTE_W)) eqn:Hw; cbn [negb orb]; [|by rewrite Hw].
  destruct (truthy (Z.land perm PTE_LIBRARY)) eqn:Hl; [done|].
  rewrite Z.land_lor_distr_l. change (Z.land PTE_COW PTE_W) with 0.
  rewrite Z.lor_0_r, <- Z.land_assoc. change (Z.land (not32 PTE_W) PTE_W) with 0.
  by rewrite Z.land_0_r.
Qed.

Lemma truthy_PTE_BITS e f : 0 <= f < 1024 ->
  truthy (Z.land e f) = truthy (Z.land (PTE_BITS e) f).
Proof.
  intros Hf. unfold PTE_BITS. rewrite <- Z.land_assoc.
  replace (Z.land 0x3FF f) with f.
  - rewrite <- land_u32 by lia. done.
  - change 0x3FF with (Z.ones 10). rewrite Z.land_comm, Z.land_ones, Z.mod_small; lia.
Qed.

(** C36. The loop of [fork] gives the child the parent's memory: with an empty
    child, a free page for a table and room in the reference counts for every
    page, each page of the parent from [UTEMP] up to [USTACKTOP] is mapped at the
    same address in the child to the same physical page, with the parent's
    permissions if it is read-only or a library page and copy-on-write instead of
    writable in both otherwise; a page the child may write is a library page;
    pages the parent lacks stay unmapped; no other address space changes, and
    the invariant of the memory manager is kept.  A page of the parent below
    [UTEMP] is refused by [sys_mem_map] and silently not copied, against the
    comment of the loop (finding at user/lib/fork.c:134). *)
Theorem dup_space_correct `{Board} boot D fl k c ch child dp dc :
  (forall p, 0 <= boot p) -> pm_inv boot D fl (pm k) -> curenv k = Some c ->
  env_pgdir (envs k c) = page2pa dp -> cur_pgdir (pm k) = page2pa dp -> dp ∈ D ->
  target k child true = Some ch -> env_pgdir (envs k ch) = page2pa dc -> dc ∈ D -> dp <> dc ->
  (forall v, 0 <= v * 4096 < UTOP -> entry (pm k) dc (v * 4096) = None) ->
  (pages_below k dp NUPAGE <= length fl)%nat ->
  (forall q, is_page (pm k) q -> pp_ref (pm k) q + Z.of_nat (pages_below k dp NUPAGE) < 2 ^ 16) ->
  exists s' fl', dup_space child k = Ret tt (set_pm s' k) /\ pm_inv boot D fl' s' /\
    (forall v, 0 <= v < NUPAGE -> page_copied (pm k) s' dp dc v) /\
    (forall v e, 0 <= v < NUPAGE -> entry s' dc (v * 4096) = Some e ->
       truthy (Z.land e PTE_W) = true ->
       exists e0, entry (pm k) dp (v * 4096) = Some e0 /\ epage e = epage e0 /\
         truthy (Z.land e0 PTE_LIBRARY) = true) /\
    (forall d va, d ∈ D -> d <> dp -> d <> dc -> PDX va < NUPDE ->
       entry s' d va = entry (pm k) d va).
Proof.
  intros Hb I Hc Hpp Hcur Hdp Ht Hpc Hdc Hne Hempty Hfree Hrefs.
  destruct (dup_space_run boot D fl k c ch child dp dc) as (k' & Hrun & Hcb); try done.
  destruct (cb_inv _ _ _ _ _ _ _ _ Hcb) as (fl' & I' & _).
  pose proof (cb_pm _ _ _ _ _ _ _ _ Hcb) as Hk.
  pose proof (cb_done _ _ _ _ _ _ _ _ Hcb) as Hd.
  exists (pm k'), fl'. split; [by rewrite <- Hk|]. split_and!; try done.
  - intros v e Hv He Hw. specialize (Hd v Hv). unfold page_copied in Hd.
    destruct (entry (pm k) dp (v * 4096)) as [e0|].
    + destruct (v * 4096 <? UTEMP); [destruct Hd; congruence|].
      destruct Hd as [(e' & He' & Hpg & Hbits) _]. rewrite He in He'. injection He' as <-.
      exists e0. split_and!; try done.
      rewrite truthy_PTE_BITS by (unfold PTE_LIBRARY; lia). apply cow_writable.
      by rewrite <- Hbits, <- truthy_PTE_BITS by (unfold PTE_W; lia).
    + destruct Hd as [_ Hn]. by rewrite He in Hn.
  - apply (cb_others _ _ _ _ _ _ _ _ Hcb).
Qed.

(** ** An example: a parent with one writable page and a fresh child *)

Lemma ex_alloc_empty va : PDX va < NUPDE -> entry ex_alloc ex_dir va = None.
Proof.
  intros Hx. pose proof (PDX_range va) as Hr.
  assert (Hz : forallb (fun i => negb (valid (pde ex_alloc ex_dir i))) (seqZ 0 1024) = true)
    by (vm_compute; reflexivity).
  rewrite forallb_forall in Hz. specialize (Hz (PDX va)).
  rewrite <- list_elem_of_In, elem_of_seqZ in Hz. specialize (Hz ltac:(lia)).
  apply entry_no_table. by destruct (valid (pde ex_alloc ex_dir (PDX va))).
Qed.

Lemma ex_alloc_ref q : is_page ex_alloc q -> pp_ref ex_alloc q <= 2.
Proof.
  intros Hq. rewrite (inv_ref _ _ _ _ ex_alloc_inv) by done.
  assert (Hs : slots ex_alloc [ex_dir] = []) by (by vm_compute). rewrite Hs.
  pose proof (owns_range ([ex_dir] ++ tables ex_alloc [ex_dir]) q).
  unfold ex_refs, boot_refs. cbn [cnt foldr]. destruct (q <? n_used ex_raw); lia.
Qed.

Lemma fresh_dir_empty s d va :
  (forall i, 0 <= i < 1024 -> pde s d i = 0) -> entry s d va = None.
Proof.
  intros Hz. apply entry_no_table. by rewrite Hz by apply PDX_range.
Qed.

Lemma count_one f w n : (forall v, 0 <= v < Z.of_nat n -> f v = true -> v = w) -> (count f n <= 1)%nat.
Proof.
  intros Hf.
  assert (H : forall m, (m <= n)%nat -> (count f m <= if decide (w < Z.of_nat m)%Z then 1 else 0)%nat).
  { induction m as [|m IH]; intros Hm; cbn [count]; [lia|]. specialize (IH ltac:(lia)).
    destruct (f (Z.of_nat m)) eqn:E; [apply Hf in E; [|lia]|]; repeat case_decide; lia. }
  specialize (H n ltac:(lia)). case_decide; lia.
Qed.

(** Environment 0 runs in [dp]; environment 1 is its child in [dc]. *)
Definition ex_child : Z := 0x801.
Definition ex_fork (s : pmst) (dp dc : Z) : kst :=
  set_envs (fun e => if e =? 0 then set_env_pgdir (page2pa dp) (envs ex_kst 0)
                     else set_env_id ex_child (set_env_pgdir (page2pa dc) (envs ex_kst 1)))
    (set_pm (set_cur_pgdir (page2pa dp) s) ex_kst).

(** A machine in which [ex_page] is mapped at [0x400000], with an empty
    directory beside it. *)
Lemma ex_fork_state : exists s t fl e,
  pm_inv ex_refs [t; ex_dir] fl s /\ t <> ex_dir /\ (11 <= length fl)%nat /\
  (forall q, is_page s q -> pp_ref s q <= 3) /\
  (forall va, entry s t va = None) /\
  entry s ex_dir 0x400000 = Some e /\ epage e = ex_page /\
  truthy (Z.land (PTE_BITS e) PTE_W) = true /\ truthy (Z.land (PTE_BITS e) PTE_LIBRARY) = false /\
  (forall v, 0 <= v * 4096 < UTOP -> v <> 0x400 -> entry s ex_dir (v * 4096) = None).
Proof.
  assert (Hd : ex_dir ∈ [ex_dir]) by (apply elem_of_cons; by left).
  assert (Hva : 0 <= 0x400000 < UTOP) by (by vm_compute).
  destruct (user_PDX _ Hva) as [Hx _].
  destruct (insert_new_full ex_refs [ex_dir] ex_free1 ex_alloc ex_dir 0x400000 0 ex_page
    (Z.lor PTE_W PTE_U) ex_alloc_inv ex_refs_nonneg Hd Hx (ex_alloc_empty _ Hx) ex_alloc_mappable
    ltac:(by vm_compute)) as [(s1 & fl1 & _ & I1 & (e & He & Hp & Hbits) & Ho & _ & Hl & Hr & Hn)|(_ & [=] & _)].
  destruct fl1 as [|t fl1]; [cbn in Hl; lia|].
  destruct (new_dir_inv _ _ _ _ _ I1 ex_refs_nonneg) as (s2 & Hal & I2 & _ & Hn2 & He2 & Hz & Hr0 & Ht & _).
  destruct (page_alloc_cons _ _ _ (inv_free _ _ _ _ I1)) as (q1 & _ & Hal').
  rewrite Hal' in Hal. injection Hal as <-.
  eexists _, t, fl1, e. split; [exact I2|]. split_and!.
  - intros ->. done.
  - cbn in Hl. lia.
  - intros q Hq. cbn [pp_ref set_pp_ref set_mem set_page_free_list]. rewrite upd_case. case_decide; [lia|].
    specialize (Hr q). cbn in Hr. assert (is_page ex_alloc q) as Hqa%ex_alloc_ref; [|lia].
    unfold is_page in *. cbn in Hq. congruence.
  - intros va. by apply fresh_dir_empty.
  - by rewrite He2.
  - done.
  - rewrite Hbits. by vm_compute.
  - rewrite Hbits. by vm_compute.
  - intros v Hv Hne. destruct (user_PDX _ Hv) as [Hvx _].
    rewrite He2, Ho by (try done; intros Hss; apply (page_slot _ _ 0x400 v) in Hss as [_ ?]; done).
    by apply ex_alloc_empty.
Qed.

Definition ex_board : Board := {| board_read := fun _ => 0; board_void := 0 |}.

Lemma dup_space_correct_witness : exists k s' v e,
  @dup_space ex_board ex_child k = Ret tt (set_pm s' k) /\ 0 <= v < NUPAGE /\
  entry (pm k) ex_dir (v * 4096) = Some e /\ truthy (Z.land (PTE_BITS e) PTE_W) = true /\
  exists dc, page_copied (pm k) s' ex_dir dc v.
Proof.
  destruct ex_fork_state as (s & t & fl & e & I & Hne & Hfl & Hr & Ht & He & _ & Hw & _ & Ho).
  set (k := ex_fork s ex_dir t).
  assert (Hcount : (pages_below k ex_dir NUPAGE <= 1)%nat).
  { unfold pages_below.
    assert (Hsome : forall v, 0 <= v < NUPAGE -> has_page k ex_dir v = true -> v = 0x400).
    { intros v Hv Hp. destruct (decide (v = 0x400)) as [|Hn]; [done|].
      unfold has_page in Hp. apply bool_decide_eq_true_1 in Hp.
      pose proof (Ho v (NUPAGE_range v Hv) Hn) as Hnone.
      change (entry (pm k) ex_dir (v * 4096)) with (entry s ex_dir (v * 4096)) in Hp.
      rewrite Hnone in Hp. by apply is_Some_None in Hp. }
    apply (count_one _ 0x400). intros v Hv. apply Hsome.
    rewrite Z2Nat.id in Hv by (by vm_compute). done. }
  destruct (@dup_space_correct ex_board ex_refs [t; ex_dir] fl k 0 1 ex_child ex_dir t)
    as (s' & fl' & Hrun & _ & Hc & _).
  - exact ex_refs_nonneg.
  - by apply pm_inv_cur_pgdir.
  - done.
  - done.
  - done.
  - apply elem_of_cons; right. by apply list_elem_of_here.
  - by vm_compute.
  - done.
  - by apply list_elem_of_here.
  - done.
  - intros v Hv. apply Ht.
  - lia.
  - intros q Hq. specialize (Hr q Hq). change (pp_ref (pm k) q) with (pp_ref s q). lia.
  - exists k, s', 0x400, e. split_and!; try done. by exists t; apply Hc.
Defined.
