(* ===== verification/Fd.v ===== *)
(** * File descriptors (user/lib/fd.c, user/include/fd.h)

    A descriptor is a page of the table at [FDTABLE], present when it is
    mapped; the operations find the device in [devtab] by the id in the page
    and call through its functions.  A [struct Fd *] is an address in the
    running environment. *)
From S2P Require Import Prelude Queue Mmu Pmap UserMem Fs Serv Elf Env Sched Syscall Traps.
From S2P Require Import Print Stdio User.

Definition MAXFD : Z := 32.
Definition FILEBASE : Z := 0x60000000.
Definition FDTABLE : Z := FILEBASE - PDMAP.
Definition INDEX2FD (i : Z) : Z := u32 (FDTABLE + i * BY2PG).
Definition INDEX2DATA (i : Z) : Z := u32 (FILEBASE + i * PDMAP).

Definition O_RDONLY : Z := 0x0000.
Definition O_WRONLY : Z := 0x0001.
Definition O_RDWR : Z := 0x0002.
Definition O_ACCMODE : Z := 0x0003.

(** [struct Dev]: [dev_read fd buf n offset], [dev_write] likewise,
    [dev_close fd], [dev_stat fd stat].  No device has a [dev_seek]. *)
Record Dev : Type := mkDev {
  dev_id : Z;
  dev_read : Z -> Z -> Z -> Z -> KM Z;
  dev_write : Z -> Z -> Z -> Z -> KM Z;
  dev_close : Z -> KM Z;
  dev_stat : Z -> Z -> KM Z
}.

(** Offsets in [struct Stat]; the device is recorded by its id. *)
Definition st_name (st : Z) : Z := st.
Definition st_size (st : Z) : Z := st + 128.
Definition st_isdir (st : Z) : Z := st + 132.
Definition st_dev (st : Z) : Z := st + 136.

(** The console as [debugf] uses it: [syscall_print_cons] on bytes of the
    caller's stack. *)
#[global] Program Instance kst_console : Console kst :=
  {| print_cons := fun l => forM l printcharc ;! ret 0; cons_text := fun k => reverse (cons_out k) |}.
Next Obligation.
  intros l. induction l as [|c l IH]; intros k.
  - exists k. cbn. by rewrite app_nil_r.
  - destruct (IH (set_cons_out (u8 c :: cons_out k) k)) as (k' & Hr & Ht).
    exists k'. split; [exact Hr|]. rewrite Ht. cbn [cons_out set_cons_out].
    by rewrite reverse_cons, <- app_assoc.
Qed.
Definition user_debugf (fmt : list Z) (ap : list va_arg) : KM unit := debugf (fun _ => 0) fmt ap.

Section Fd.
Context `{Board} (devtab : list Dev).

Fixpoint dev_lookup_in (l : list Dev) (id : Z) : KM (result Dev) :=
  match l with
  | [] =>
      let! e := env in
      user_debugf (chars "[%08x] unknown device type %d" ++ newline) [VInt (env_id e); VInt id] ;!
      ret (Err (- E_INVAL))
  | d :: l => if dev_id d =? id then ret (OK d) else dev_lookup_in l id
  end.
Definition dev_lookup (id : Z) : KM (result Dev) := dev_lookup_in devtab id.

Fixpoint fd_alloc_from (l : list Z) : KM (result Z) :=
  match l with
  | [] => ret (Err (- E_MAX_OPEN))
  | fdno :: l =>
      let va := INDEX2FD fdno in
      let! pde := vpd (va / PDMAP) in
      if Z.land pde PTE_V =? 0 then ret (OK va)
      else
        let! pte := vpt (va / BY2PG) in
        if Z.land pte PTE_V =? 0 then ret (OK va) else fd_alloc_from l
  end.
Definition fd_alloc : KM (result Z) := fd_alloc_from (seqZ 0 (MAXFD - 1)).

Definition fd_close (fd : Z) : KM unit := syscall_mem_unmap 0 fd ;! ret tt.

(** [fdnum] is an [int]. *)
Definition fd_lookup (fdnum : Z) : KM (result Z) :=
  if MAXFD <=? fdnum then ret (Err (- E_INVAL))
  else
    let va := INDEX2FD fdnum in
    let! pte := vpt (va / BY2PG) in
    if negb (Z.land pte PTE_V =? 0) then ret (OK va) else ret (Err (- E_INVAL)).

Definition fd2num (fd : Z) : Z := s32 (u32 (fd - FDTABLE) / BY2PG).
Definition fd2data (fd : Z) : Z := INDEX2DATA (fd2num fd).
Definition num2fd (fd : Z) : Z := s32 (fd * BY2PG + FDTABLE).

(** [fd_lookup] and [dev_lookup], the way most operations start. *)
Definition fd_and_dev (fdnum : Z) (k : Z -> Dev -> KM Z) : KM Z :=
  tryz! fd := fd_lookup fdnum in
  let! id := load (fd_dev_id fd) in
  tryz! dev := dev_lookup (s32 id) in
  k fd dev.

Definition close (fdnum : Z) : KM Z :=
  fd_and_dev fdnum (fun fd dev =>
    let! r := dev_close dev fd in
    fd_close fd ;!
    ret r).

Definition close_all : KM unit := forM (seqZ 0 MAXFD) (fun i => close i ;! ret tt).

(** The loop of [dup] on the data pages: 0, or the error of a failed map. *)
Fixpoint dup_data (l : list Z) (ova nva : Z) : KM Z :=
  match l with
  | [] => ret 0
  | i :: l =>
      let! pte := vpt (VPN (ova + i)) in
      if truthy (Z.land pte PTE_V) then
        let! r := syscall_mem_map 0 (u32 (ova + i)) 0 (u32 (nva + i))
                    (Z.land pte (Z.lor PTE_W PTE_LIBRARY)) in
        if r <? 0 then ret r else dup_data l ova nva
      else dup_data l ova nva
  end.
Definition data_pages : list Z := (fun i => i * BY2PG) <$> seqZ 0 (PDMAP / BY2PG).

Definition dup (oldfdnum newfdnum : Z) : KM Z :=
  tryz! oldfd := fd_lookup oldfdnum in
  close newfdnum ;!
  let newfd := INDEX2FD newfdnum in
  let ova := fd2data oldfd in
  let nva := fd2data newfd in
  let err (r : Z) : KM Z :=
    syscall_mem_unmap 0 newfd ;!
    forM data_pages (fun i => syscall_mem_unmap 0 (u32 (nva + i)) ;! ret tt) ;!
    ret r in
  let! pde := vpd (PDX ova) in
  let! r := (if truthy pde then dup_data data_pages ova nva else ret 0) in
  if r <? 0 then err r
  else
    let! pte := vpt (VPN oldfd) in
    let! r := syscall_mem_map 0 oldfd 0 newfd (Z.land pte (Z.lor PTE_W PTE_LIBRARY)) in
    if r <? 0 then err r else ret newfdnum.

(** [fd->fd_offset += r] after a transfer of [r > 0] bytes. *)
Definition advance (fd r : Z) : KM unit :=
  if 0 <? r then let! off := load (fd_offset fd) in store (fd_offset fd) (u32 (off + r)) else ret tt.

Definition read (fdnum buf n : Z) : KM Z :=
  fd_and_dev fdnum (fun fd dev =>
    let! mode := load (fd_omode fd) in
    if Z.land mode O_ACCMODE =? O_WRONLY then ret (- E_INVAL)
    else
      let! off := load (fd_offset fd) in
      let! r := dev_read dev fd buf n off in
      advance fd r ;!
      ret r).

(** Every iteration but the last reads at least one byte. *)
Fixpoint readn_loop (fuel : nat) (fdnum buf n tot : Z) : KM Z :=
  match fuel with
  | O => fault
  | S fuel =>
      if tot <? n then
        let! m := read fdnum (u32 (buf + tot)) (n - tot) in
        if m <? 0 then ret m
        else if m =? 0 then ret tot
        else readn_loop fuel fdnum buf n (tot + m)
      else ret tot
  end.
Definition readn (fdnum buf n : Z) : KM Z := readn_loop (S (Z.to_nat n)) fdnum buf n 0.

Definition write (fdnum buf n : Z) : KM Z :=
  fd_and_dev fdnum (fun fd dev =>
    let! mode := load (fd_omode fd) in
    if Z.land mode O_ACCMODE =? O_RDONLY then ret (- E_INVAL)
    else
      let! off := load (fd_offset fd) in
      let! r := dev_write dev fd buf n off in
      advance fd r ;!
      ret r).

Definition seek (fdnum offset : Z) : KM Z :=
  tryz! fd := fd_lookup fdnum in
  store (fd_offset fd) offset ;!
  ret 0.

Definition fstat (fdnum stat : Z) : KM Z :=
  fd_and_dev fdnum (fun fd dev =>
    storeb (st_name stat) 0 ;!
    store (st_size stat) 0 ;!
    store (st_isdir stat) 0 ;!
    store (st_dev stat) (dev_id dev) ;!
    dev_stat dev fd stat).
End Fd.
