(* ===== verification/FdProps.v ===== *)
(** * The descriptor table *)
From S2P Require Import Prelude Queue Mmu Pmap PmapFacts PmapInv PmapSpec PmapBoot PmapProps.
From S2P Require Import UserMem Fs Serv Elf Env Sched Syscall Traps Print Stdio User Fork ForkProps Fd.

Lemma INDEX2FD_eq i : 0 <= i < MAXFD -> INDEX2FD i = (0x5fc00 + i) * 4096.
Proof.
  unfold MAXFD. intros Hi. unfold INDEX2FD, FDTABLE, FILEBASE, PDMAP, BY2PG. rewrite u32_id; lia.
Qed.

Lemma INDEX2FD_user i : 0 <= i < MAXFD -> 0 <= INDEX2FD i < UTOP.
Proof.
  intros Hi. rewrite INDEX2FD_eq by done. unfold MAXFD in *. change UTOP with 0x7f400000. lia.
Qed.

Lemma INDEX2FD_pde i : 0 <= i < MAXFD -> INDEX2FD i / PDMAP = 383.
Proof.
  intros Hi. rewrite INDEX2FD_eq by done. unfold MAXFD, PDMAP in *.
  symmetry. apply (Z.div_unique _ _ _ (i * 4096)); lia.
Qed.

Lemma INDEX2FD_pte i : 0 <= i < MAXFD -> INDEX2FD i / BY2PG = 0x5fc00 + i.
Proof. intros Hi. rewrite INDEX2FD_eq by done. by apply Z.div_mul. Qed.

Lemma fd2num_INDEX2FD i : 0 <= i < MAXFD -> fd2num (INDEX2FD i) = i.
Proof.
  intros Hi. unfold fd2num. rewrite INDEX2FD_eq by done. unfold MAXFD in *.
  unfold FDTABLE, FILEBASE, PDMAP, BY2PG.
  replace ((0x5fc00 + i) * 4096 - (0x60000000 - 4 * 1024 * 1024)) with (i * 4096) by lia.
  rewrite u32_id, Z.div_mul by lia. apply s32_small. lia.
Qed.

Section Table.
Context (boot : Z -> Z) (D fl : list Z) (k : kst) (d : Z).
Context (I : pm_inv boot D fl (pm k)) (Hd : d ∈ D) (Hcur : cur_pgdir (pm k) = page2pa d).

(** Descriptor [i] is not in use. *)
Definition fd_free (i : Z) : Prop := entry (pm k) d (INDEX2FD i) = None.

Lemma fd_pte i : 0 <= i < MAXFD -> exists v, vpt (INDEX2FD i / BY2PG) k = Ret v k /\
  entry (pm k) d (INDEX2FD i) = if Z.land v PTE_V =? 0 then None else Some v.
Proof using I Hd Hcur.
  intros Hi. pose proof (INDEX2FD_user i Hi) as Hu.
  rewrite INDEX2FD_pte, INDEX2FD_eq in * by done.
  destruct (vpt_run boot D fl k d I Hd Hcur (0x5fc00 + i) Hu) as (v & Hv & He).
  exists v. split; [done|]. rewrite He. unfold valid, truthy. by destruct (_ =? 0).
Qed.

Lemma fd_pde i : 0 <= i < MAXFD -> exists v, vpd (INDEX2FD i / PDMAP) k = Ret v k /\
  (Z.land v PTE_V = 0 -> fd_free i).
Proof using I Hd Hcur.
  intros Hi. rewrite INDEX2FD_pde by done. exists (pde (pm k) d 383).
  split; [by apply (vpd_run boot D fl)|]. intros Hv.
  assert (Hx : PDX (INDEX2FD i) = 383).
  { pose proof (INDEX2FD_pde i Hi) as Hp. rewrite INDEX2FD_eq in * by done. unfold MAXFD in Hi.
    by rewrite PDX_div by lia. }
  unfold fd_free. apply entry_no_table. rewrite Hx. unfold valid, truthy. by rewrite Hv.
Qed.

Lemma fd_alloc_from_run n : forall i, 0 <= i -> 0 <= n -> i + n <= MAXFD ->
  (exists j, i <= j < i + n /\ fd_alloc_from (seqZ i n) k = Ret (OK (INDEX2FD j)) k /\
     fd_free j /\ forall x, i <= x < j -> ~ fd_free x) \/
  ((forall x, i <= x < i + n -> ~ fd_free x) /\
   fd_alloc_from (seqZ i n) k = Ret (Err (- E_MAX_OPEN)) k).
Proof using I Hd Hcur.
  intros i Hi Hn. revert i Hi. pattern n. apply natlike_ind; [| |done]; clear n Hn.
  - intros i Hi Hm. right. split; [lia|done].
  - intros n Hn IH i Hi Hm. rewrite seqZ_cons by lia. cbn [fd_alloc_from]. cbv zeta.
    destruct (fd_pde i ltac:(lia)) as (pde & Hpde & Hfree).
    rewrite (bind_step _ _ _ _ _ Hpde). destruct (Z.eqb_spec (Z.land pde PTE_V) 0) as [H0|_].
    { left. exists i. split; [lia|]. split; [done|]. split; [by apply Hfree|lia]. }
    destruct (fd_pte i ltac:(lia)) as (pte & Hpte & He).
    rewrite (bind_step _ _ _ _ _ Hpte). destruct (Z.eqb_spec (Z.land pte PTE_V) 0) as [H0|_].
    { left. exists i. split; [lia|]. split; [done|]. split; [done|lia]. }
    assert (Hbusy : ~ fd_free i) by (unfold fd_free; by rewrite He).
    replace (Z.pred (Z.succ n)) with n by lia.
    destruct (IH (Z.succ i) ltac:(lia) ltac:(lia)) as [(j & Hj & Hr & Hf & Hall)|[Hall Hr]].
    + left. exists j. split; [lia|]. split; [done|]. split; [done|]. intros x Hx.
      destruct (decide (x = i)) as [-> |]; [done|]. apply Hall. lia.
    + right. split; [|done]. intros x Hx.
      destruct (decide (x = i)) as [-> |]; [done|]. apply Hall. lia.
Qed.
End Table.

(** Descriptors: [fd_alloc] reads the page table only, and returns the
    lowest of the descriptors 0 to 30 whose page is not mapped, or
    [-E_MAX_OPEN] when all of them are, even if descriptor 31 is free;
    [fd_lookup] of a number from 0 to 31 finds the descriptor exactly when its
    page is mapped; and [fd2num] inverts the address of a descriptor. *)
Lemma fd_alloc_correct boot D fl k d :
  pm_inv boot D fl (pm k) -> d ∈ D -> cur_pgdir (pm k) = page2pa d ->
  ((exists i, 0 <= i < MAXFD - 1 /\ fd_alloc k = Ret (OK (INDEX2FD i)) k /\ fd_free k d i /\
      forall j, 0 <= j < i -> ~ fd_free k d j) \/
   ((forall i, 0 <= i < MAXFD - 1 -> ~ fd_free k d i) /\
    fd_alloc k = Ret (Err (- E_MAX_OPEN)) k)) /\
  forall i, 0 <= i < MAXFD ->
    fd2num (INDEX2FD i) = i /\
    fd_lookup i k =
      Ret (match entry (pm k) d (INDEX2FD i) with
           | Some _ => OK (INDEX2FD i) | None => Err (- E_INVAL) end) k.
Proof.
  intros I Hd Hcur. split.
  - by apply (fd_alloc_from_run boot D fl k d I Hd Hcur (MAXFD - 1) 0).
  - intros i Hi. split; [by apply fd2num_INDEX2FD|]. unfold fd_lookup.
    destruct (Z.leb_spec MAXFD i); [lia|]. cbv zeta.
    destruct (fd_pte boot D fl k d I Hd Hcur i Hi) as (v & Hv & He).
    rewrite (bind_step _ _ _ _ _ Hv), He. by destruct (Z.land v PTE_V =? 0).
Qed.

Definition ex_user : kst := set_pm (set_cur_pgdir (page2pa ex_dir) ex_vm) ex_kst.

Lemma fd_alloc_correct_witness :
  fd_lookup 3 ex_user =
    Ret (match entry (pm ex_user) ex_dir (INDEX2FD 3) with
         | Some _ => OK (INDEX2FD 3) | None => Err (- E_INVAL) end) ex_user.
Proof.
  apply (fd_alloc_correct ex_refs [ex_dir] ex_free ex_user ex_dir).
  - apply pm_inv_cur_pgdir, ex_vm_inv.
  - by apply list_elem_of_here.
  - done.
  - by vm_compute.
Defined.
