(* ===== verification/FdFacts.v ===== *)
(** * Descriptors in the memory of a program

    The words of the page of an open descriptor, and the first steps of every
    operation on it: [fd_lookup] finds the page and [dev_lookup] the device. *)
From S2P Require Import Prelude Queue Mmu Pmap PmapFacts PmapInv PmapSpec PmapFrame PmapBoot.
From S2P Require Import UserMem Fs Serv Elf Env EnvFree Sched EnvFacts EnvProps LoadProps Syscall Traps.
From S2P Require Import User UserFacts Fd FdProps.

Definition word_offset (x : Z) : Prop := 0 <= x < BY2PG /\ x mod 4 = 0.

(** The word at [x] of the page of a descriptor. *)
Lemma fd_word i x : 0 <= i < MAXFD -> word_offset x ->
  0 <= INDEX2FD i + x < UTOP /\ (INDEX2FD i + x) mod 4 = 0 /\ (INDEX2FD i + x) mod BY2PG = x /\
  (INDEX2FD i + x) / BY2PG = INDEX2FD i / BY2PG.
Proof.
  intros Hi [Hx H4]. rewrite INDEX2FD_eq by done. unfold MAXFD in Hi. change UTOP with 0x7f400000.
  unfold BY2PG in *. Z.div_mod_to_equations. lia.
Qed.

Lemma accessible_fd d s i p perm x : 0 <= i < MAXFD -> word_offset x ->
  accessible s d (INDEX2FD i) p perm -> accessible s d (INDEX2FD i + x) p perm.
Proof.
  intros Hi Hx (e & He & Hr). exists e. split; [|done]. rewrite <- He.
  destruct (fd_word i x Hi Hx) as (Hu & _ & _ & Hq). pose proof (INDEX2FD_user i Hi).
  by apply same_page_entry; [apply user_range..|].
Qed.

Section Words.
Context (boot : Z -> Z) (D fl : list Z) (d : Z) (Hd : d ∈ D).
Abbreviation installed := (installed boot D fl d).
Abbreviation page_update := (page_update boot D fl).

Lemma load_fd k i p x : installed (pm k) -> 0 <= i < MAXFD -> word_offset x ->
  accessible (pm k) d (INDEX2FD i) p PTE_R ->
  load (INDEX2FD i + x) k = Ret (page_word (pm k) p x) k.
Proof using Hd.
  intros Hs Hi Hx Ha. destruct (fd_word i x Hi Hx) as (Hu & H4 & Hm & _).
  unfold load. apply kpm_same. rewrite <- Hm at 2.
  apply (user_lw_run boot D fl d Hd); try done. by apply accessible_fd.
Qed.

Lemma store_fd k i p x v : installed (pm k) -> 0 <= i < MAXFD -> word_offset x ->
  accessible (pm k) d (INDEX2FD i) p PTE_W ->
  exists s', store (INDEX2FD i + x) v k = Ret tt (set_pm s' k) /\
    page_update (pm k) p (put_word (pm k) p x v) s'.
Proof using Hd.
  intros Hs Hi Hx Ha. destruct (fd_word i x Hi Hx) as (Hu & H4 & Hm & _).
  destruct (user_sw_run boot D fl d Hd (pm k) (INDEX2FD i + x) v p) as (s' & Hr & U); try done.
  { by apply accessible_fd. }
  exists s'. split; [by apply kpm_ret|]. by rewrite Hm in U.
Qed.

(** An open descriptor, whatever its device. *)
Lemma fd_and_dev_run tab k i p dev K : installed (pm k) -> 0 <= i < MAXFD ->
  accessible (pm k) d (INDEX2FD i) p PTE_R ->
  dev_lookup tab (s32 (page_word (pm k) p 0)) k = Ret (OK dev) k ->
  fd_and_dev tab i K k = K (INDEX2FD i) dev k.
Proof using Hd.
  intros Hs Hi Ha Hdev. unfold fd_and_dev, try_z.
  destruct (fd_pte boot D fl k d (in_inv _ _ _ _ _ Hs) Hd (in_cur _ _ _ _ _ Hs) i Hi) as (v & Hv & He).
  pose proof Ha as (e & He' & _).
  assert (Hl : fd_lookup i k = Ret (OK (INDEX2FD i)) k).
  { unfold fd_lookup. destruct (Z.leb_spec MAXFD i); [clear -Hi H; lia|]. cbv zeta.
    rewrite (bind_step _ _ _ _ _ Hv). rewrite He in He'. by destruct (Z.land v PTE_V =? 0). }
  rewrite (bind_step _ _ _ _ _ Hl).
  pose proof (load_fd k i p 0 Hs Hi ltac:(done) Ha) as Hld. rewrite Z.add_0_r in Hld.
  by rewrite (bind_step _ _ _ _ _ Hld), (bind_step _ _ _ _ _ Hdev).
Qed.
End Words.
