(* ===== verification/File.v ===== *)
(** * Files as a client sees them (user/lib/fsipc.c, user/lib/file.c)

    A request is written to the page [fsipcbuf] and sent to the file server,
    the second environment; the client sleeps until the reply.  What other
    environments do in between is the parameter [rpc]: given the request code,
    the request page and the address for the page of the reply, it ends with
    the reply's value and permissions and the client running again.  Serv.v
    is the other side. *)
From S2P Require Import Prelude Queue Mmu Pmap UserMem Fs Serv Elf Env Sched Syscall Traps.
From S2P Require Import Print Stdio User Fd.

Definition MAXFILESIZE : Z := NINDIRECT * BY2BLK.

(** [ipc_send] when the receiver is ready; otherwise the sender yields and
    tries again when it is next run. *)
Definition ipc_send `{Board} (whom val srcva perm : Z) : KM unit :=
  let! r := syscall_ipc_try_send whom val srcva perm in
  if r =? - E_IPC_NOT_RECV then syscall_yield
  else user_assert (r =? 0).

(** [ipc_recv] after [syscall_ipc_recv] has come back with 0: the sender, the
    value and the permissions. *)
Definition ipc_received : KM (Z * Z * Z) :=
  let! e := env in ret (env_ipc_from e, env_ipc_value e, env_ipc_perm e).

(** The bytes of a C string and its terminator, as [strcpy] stores them. *)
Definition user_strcpy (dst : Z) (s : list Z) : KM unit :=
  forM (zip (seqZ 0 (Z.of_nat (length s) + 1)) (s ++ [0])) (fun p => storeb (dst + fst p) (snd p)).

Section Fsipc.
Context `{Board} (fsipcbuf : Z) (rpc : Z -> Z -> Z -> KM (Z * Z)).

(** Result and [*perm]. *)
Definition fsipc (type fsreq dstva : Z) : KM (Z * Z) :=
  let! r := rpc type fsreq dstva in ret (s32 (fst r), snd r).

Definition fsipc_open (path : list Z) (omode fd : Z) : KM Z :=
  if MAXPATHLEN <=? Z.of_nat (length path) then ret (- E_BAD_PATH)
  else
    user_strcpy fsipcbuf path ;!
    store (fsipcbuf + MAXPATHLEN) omode ;!
    let! r := fsipc FSREQ_OPEN fsipcbuf fd in
    ret (fst r).

Definition fsipc_map (fileid offset dstva : Z) : KM Z :=
  store fsipcbuf fileid ;!
  store (fsipcbuf + 4) offset ;!
  let! r := fsipc FSREQ_MAP fsipcbuf dstva in
  if fst r <? 0 then ret (fst r)
  else
    let allowed := Z.lor (Z.lor (Z.lor PTE_W PTE_LIBRARY) PTE_U) PTE_R in
    if negb (Z.land (snd r) (not32 allowed) =? PTE_V)
    then user_panic "fsipc_map: unexpected permissions"
    else ret 0.

Definition fsipc_set_size (fileid size : Z) : KM Z :=
  store fsipcbuf fileid ;!
  store (fsipcbuf + 4) size ;!
  let! r := fsipc FSREQ_SET_SIZE fsipcbuf 0 in
  ret (fst r).

Definition fsipc_close (fileid : Z) : KM Z :=
  store fsipcbuf fileid ;!
  let! r := fsipc FSREQ_CLOSE fsipcbuf 0 in
  ret (fst r).

Definition fsipc_dirty (fileid offset : Z) : KM Z :=
  store fsipcbuf fileid ;!
  store (fsipcbuf + 4) offset ;!
  let! r := fsipc FSREQ_DIRTY fsipcbuf 0 in
  ret (fst r).

Definition fsipc_remove (path : list Z) : KM Z :=
  let len := Z.of_nat (length path) in
  if (len =? 0) || (MAXPATHLEN <? len) then ret (- E_BAD_PATH)
  else
    user_strcpy fsipcbuf path ;!
    let! r := fsipc FSREQ_REMOVE fsipcbuf 0 in
    ret (fst r).

Definition fsipc_sync : KM Z := let! r := fsipc FSREQ_SYNC fsipcbuf 0 in ret (fst r).

(** ** file.c *)

(** The offsets [lo, lo + BY2PG, ...] below [hi]. *)
Definition page_offsets (lo hi : Z) : list Z :=
  (fun i => lo + i * BY2PG) <$> seqZ 0 ((hi - lo + BY2PG - 1) / BY2PG).

(** A body that may stop the loop with an error. *)
Fixpoint for_each (l : list Z) (body : Z -> KM Z) : KM Z :=
  match l with
  | [] => ret 0
  | i :: l => let! r := body i in if r <? 0 then ret r else for_each l body
  end.

Definition open (path : list Z) (mode : Z) : KM Z :=
  tryz! fd := fd_alloc in
  let! r := fsipc_open path mode fd in
  if negb (r =? 0) then ret r
  else
    let va := fd2data fd in
    let! size := load (f_size (f_file fd)) in
    let! fileid := load (f_fileid fd) in
    let! r := for_each (page_offsets 0 size) (fun i => fsipc_map fileid i (u32 (va + i))) in
    if r <? 0 then ret r else ret (fd2num fd).

Definition file_close (fd : Z) : KM Z :=
  let! fileid := load (f_fileid fd) in
  let! size := load (f_size (f_file fd)) in
  let va := fd2data fd in
  forM (page_offsets 0 size) (fun i => fsipc_dirty fileid i ;! ret tt) ;!
  let! r := fsipc_close fileid in
  if r <? 0 then user_debugf (chars "cannot close the file" ++ newline) [] ;! ret r
  else if size =? 0 then ret 0
  else
    for_each (page_offsets 0 size) (fun i =>
      let! r := syscall_mem_unmap 0 (u32 (va + i)) in
      if r <? 0 then user_debugf (chars "cannont unmap the file." ++ newline) [] ;! ret r
      else ret 0).

Definition file_read (fd buf n offset : Z) : KM Z :=
  let! size := load (f_size (f_file fd)) in
  if size <? offset then ret 0
  else
    let n := if size <? u32 (offset + n) then size - offset else n in
    user_memcpy buf (u32 (fd2data fd + offset)) n ;!
    ret n.

Definition read_map (fdnum offset : Z) : KM (result Z) :=
  try! fd := fd_lookup fdnum in
  let! id := load (fd_dev_id fd) in
  if negb (id =? DEVFILE_ID) then ret (Err (- E_INVAL))
  else
    let va := u32 (fd2data fd + offset) in
    if MAXFILESIZE <=? offset then ret (Err (- E_NO_DISK))
    else
      let! pde := vpd (PDX va) in
      if negb (truthy (Z.land pde PTE_V)) then ret (Err (- E_NO_DISK))
      else
        let! pte := vpt (VPN va) in
        if negb (truthy (Z.land pte PTE_V)) then ret (Err (- E_NO_DISK)) else ret (OK va).

Definition ftruncate (fdnum size : Z) : KM Z :=
  if MAXFILESIZE <? size then ret (- E_NO_DISK)
  else
    tryz! fd := fd_lookup fdnum in
    let! id := load (fd_dev_id fd) in
    if negb (id =? DEVFILE_ID) then ret (- E_INVAL)
    else
      let! fileid := load (f_fileid fd) in
      let! oldsize := load (f_size (f_file fd)) in
      store (f_size (f_file fd)) size ;!
      let! r := fsipc_set_size fileid size in
      if r <? 0 then ret r
      else
        let va := fd2data fd in
        let! r := for_each (page_offsets (ROUND oldsize BY2PG) (ROUND size BY2PG)) (fun i =>
          let! r := fsipc_map fileid i (u32 (va + i)) in
          if r <? 0 then fsipc_set_size fileid oldsize ;! ret r else ret 0) in
        if r <? 0 then ret r
        else
          forM (page_offsets (ROUND size BY2PG) (ROUND oldsize BY2PG)) (fun i =>
            let! r := syscall_mem_unmap 0 (u32 (va + i)) in
            if r <? 0 then user_panic "ftruncate: syscall_mem_unmap" else ret tt) ;!
          ret 0.

Definition file_write (fd buf n offset : Z) : KM Z :=
  let tot := u32 (offset + n) in
  if MAXFILESIZE <? tot then ret (- E_NO_DISK)
  else
    let! size := load (f_size (f_file fd)) in
    let! r := (if size <? tot then ftruncate (fd2num fd) tot else ret 0) in
    if r <? 0 then ret r
    else
      user_memcpy (u32 (fd2data fd + offset)) buf n ;!
      ret n.

(** [strcpy] between user addresses; [MAXNAMELEN] is the size of both. *)
Fixpoint copy_name (n : nat) (dst src : Z) : KM unit :=
  match n with
  | O => fault
  | S n =>
      let! c := loadb src in
      storeb dst c ;!
      if c =? 0 then ret tt else copy_name n (dst + 1) (src + 1)
  end.

Definition file_stat (fd st : Z) : KM Z :=
  copy_name (Z.to_nat MAXNAMELEN) (st_name st) (f_name (f_file fd)) ;!
  let! size := load (f_size (f_file fd)) in
  store (st_size st) size ;!
  let! type := load (f_type (f_file fd)) in
  store (st_isdir st) (Z.b2z (type =? FTYPE_DIR)) ;!
  ret 0.

Definition devfile : Dev := mkDev DEVFILE_ID file_read file_write file_close file_stat.

Definition remove (path : list Z) : KM Z := fsipc_remove path.
Definition sync : KM Z := fsipc_sync.

(** [stat] of fd.c. *)
Definition stat (devtab : list Dev) (path : list Z) (st : Z) : KM Z :=
  let! fd := open path O_RDONLY in
  if fd <? 0 then ret fd
  else
    let! r := fstat devtab fd st in
    close devtab fd ;!
    ret r.
End Fsipc.
