(* ===== verification/Devs.v ===== *)
(** * The console and pipes as devices (user/lib/console.c, user/lib/pipe.c,
    user/lib/libos.c)

    The bodies of [pipe_read] and [pipe_write] up to the point where they give
    the processor away; Pipe.v is their interleaving. *)
From S2P Require Import Prelude Queue Mmu Pmap UserMem Fs Serv Elf Env Sched Syscall Traps.
From S2P Require Import Print Stdio Pipe User Fd File.

Section Devs.
Context `{Board}.

(** ** console.c *)
Definition DEVCONS_ID : Z := 99.

Definition iscons (fdnum : Z) : KM Z :=
  tryz! fd := fd_lookup fdnum in
  let! id := load (fd_dev_id fd) in
  ret (Z.b2z (id =? DEVCONS_ID)).

Definition opencons : KM Z :=
  tryz! fd := fd_alloc in
  let! r := syscall_mem_alloc 0 fd (Z.lor PTE_W PTE_LIBRARY) in
  if r <? 0 then ret r
  else
    store (fd_dev_id fd) DEVCONS_ID ;!
    store (fd_omode fd) O_RDWR ;!
    ret (fd2num fd).

(** With no character ([scancharc] negative, which [sys_cgetc] turns into 0)
    the caller yields, and asks again when it is next run. *)
Definition cons_read (fd vbuf n offset : Z) : KM Z :=
  if n =? 0 then ret 0
  else
    let! c := syscall_cgetc in
    if c =? 0 then syscall_yield ;! noreturn
    else
      (if negb (c =? 13) then user_debugf (chars "%c") [VInt c] else user_debugf newline []) ;!
      if c <? 0 then ret c
      else if c =? 4 then ret 0
      else storeb vbuf c ;! ret 1.

Definition cons_write (fd buf n offset : Z) : KM Z :=
  let! r := syscall_print_cons buf n in
  if r <? 0 then ret r else ret n.

Definition cons_close (fd : Z) : KM Z := ret 0.

Definition cons_stat (fd st : Z) : KM Z := user_strcpy (st_name st) (chars "<cons>") ;! ret 0.

Definition devcons : Dev := mkDev DEVCONS_ID cons_read cons_write cons_close cons_stat.

(** ** pipe.c *)
Definition DEVPIPE_ID : Z := 112.

(** Offsets in [struct Pipe]. *)
Definition pp_rpos (p : Z) : Z := p.
Definition pp_wpos (p : Z) : Z := p + 4.
Definition pp_buf (p i : Z) : Z := p + 8 + i.

(** [pipe(pfd)]: the two descriptors. *)
Definition pipe : KM (result (Z * Z)) :=
  let lib := Z.lor PTE_W PTE_LIBRARY in
  try! fd0 := fd_alloc in
  let! r := syscall_mem_alloc 0 fd0 lib in
  if r <? 0 then ret (Err r)
  else
    let err1 (r : Z) : KM (result (Z * Z)) := syscall_mem_unmap 0 fd0 ;! ret (Err r) in
    let! a := fd_alloc in
    match a with
    | Err r => err1 r
    | OK fd1 =>
        let! r := syscall_mem_alloc 0 fd1 lib in
        if r <? 0 then err1 r
        else
          let err2 (r : Z) : KM (result (Z * Z)) := syscall_mem_unmap 0 fd1 ;! err1 r in
          let va := fd2data fd0 in
          let! r := syscall_mem_alloc 0 va lib in
          if r <? 0 then err2 r
          else
            let! r := syscall_mem_map 0 va 0 (fd2data fd1) lib in
            if r <? 0 then syscall_mem_unmap 0 va ;! err2 r
            else
              store (fd_dev_id fd0) DEVPIPE_ID ;!
              store (fd_omode fd0) O_RDONLY ;!
              store (fd_dev_id fd1) DEVPIPE_ID ;!
              store (fd_omode fd1) O_WRONLY ;!
              ret (OK (fd2num fd0, fd2num fd1))
    end.

(** Nothing interrupts the running environment here, so the first pair of
    counts is consistent; [n] bounds the retries. *)
Fixpoint is_closed_loop (n : nat) (fd p : Z) : KM Z :=
  match n with
  | O => noreturn
  | S n =>
      let! e := env in
      let runs := env_runs e in
      let! fd_ref := User.pageref fd in
      let! pipe_ref := User.pageref p in
      let! e := env in
      if negb (runs =? env_runs e) then is_closed_loop n fd p
      else ret (Z.b2z (fd_ref =? pipe_ref))
  end.
Definition _pipe_is_closed (fd p : Z) : KM Z := is_closed_loop 1 fd p.

(** The loop of [pipe_read] from [i] on; with nothing to read it yields, and
    tests again when the environment is next run. *)
Fixpoint pipe_read_loop (k : nat) (fd p rbuf i : Z) : KM Z :=
  match k with
  | O => ret i
  | S k =>
      let! rpos := load (pp_rpos p) in
      let! wpos := load (pp_wpos p) in
      if wpos <=? rpos then
        if 0 <? i then ret i
        else
          let! c := _pipe_is_closed fd p in
          if truthy c then ret i else syscall_yield ;! noreturn
      else
        let! b := loadb (pp_buf p (rpos mod BY2PIPE)) in
        store (pp_rpos p) (u32 (rpos + 1)) ;!
        storeb (rbuf + i) b ;!
        pipe_read_loop k fd p rbuf (i + 1)
  end.
Definition pipe_read (fd vbuf n offset : Z) : KM Z :=
  pipe_read_loop (Z.to_nat n) fd (fd2data fd) vbuf 0.

Fixpoint pipe_write_loop (k : nat) (fd p wbuf i : Z) : KM Z :=
  match k with
  | O => ret i
  | S k =>
      let! wpos := load (pp_wpos p) in
      let! rpos := load (pp_rpos p) in
      if BY2PIPE <=? u32 (wpos - rpos) then
        let! c := _pipe_is_closed fd p in
        if truthy c then ret i else syscall_yield ;! noreturn
      else
        let! b := loadb (wbuf + i) in
        storeb (pp_buf p (wpos mod BY2PIPE)) b ;!
        store (pp_wpos p) (u32 (wpos + 1)) ;!
        pipe_write_loop k fd p wbuf (i + 1)
  end.
Definition pipe_write (fd vbuf n offset : Z) : KM Z :=
  pipe_write_loop (Z.to_nat n) fd (fd2data fd) vbuf 0.

Definition pipe_is_closed (fdnum : Z) : KM Z :=
  tryz! fd := fd_lookup fdnum in
  _pipe_is_closed fd (fd2data fd).

Definition pipe_close (fd : Z) : KM Z :=
  syscall_mem_unmap 0 fd ;!
  syscall_mem_unmap 0 (fd2data fd) ;!
  ret 0.

Definition pipe_stat (fd st : Z) : KM Z := ret 0.

Definition devpipe : Dev := mkDev DEVPIPE_ID pipe_read pipe_write pipe_close pipe_stat.

(** ** fd.c's table, and libos.c *)
Context (fsipcbuf : Z) (rpc : Z -> Z -> Z -> KM (Z * Z)).
Definition devtab : list Dev := [devfile fsipcbuf rpc; devcons; devpipe].

Definition exit : KM unit :=
  close_all devtab ;!
  syscall_env_destroy 0 ;!
  user_panic "unreachable code".

(** ** [user_panic] and [user_halt] (debugf.c)

    The messages, and how the two functions end; [msg] is the address of the
    string [syscall_panic] is given.  The outcome [Panic] of this model stands for
    a call of [_user_panic]. *)
Definition _user_panic (file : list Z) (line : Z) (fmt : list Z) (ap : list va_arg) : KM unit :=
  user_debugf (chars "panic at %s:%d: ") [VStr file; VInt line] ;!
  user_debugf fmt ap ;!
  user_debugf newline [] ;!
  exit.

Definition _user_halt (file : list Z) (line : Z) (fmt : list Z) (ap : list va_arg) (msg : Z) : KM unit :=
  user_debugf (chars "halt at %s:%d: ") [VStr file; VInt line] ;!
  user_debugf fmt ap ;!
  user_debugf newline [] ;!
  syscall_panic msg.

(** [libmain], for a program [main]; [env] is found again at every use. *)
Definition libmain (main : KM unit) : KM unit := main ;! exit.
End Devs.
