(* ===== verification/ConsoleProps.v ===== *)
(** * Reading and writing the console through descriptors

    [tty] is a process with the console open as descriptors 0 and 1 and a
    buffer: what the firmware has still to deliver and what was printed.  [read]
    and [write] of fd.c, through the device table, console.c, the system calls
    and the kernel, take one character and print one. *)
From S2P Require Import Prelude Queue Mmu Pmap PmapFacts PmapInv PmapSpec PmapFrame PmapBoot.
From S2P Require Import UserMem Fs Serv Elf Env EnvFree Sched EnvFacts EnvProps LoadProps Syscall Traps.
From S2P Require Import Print Stdio StdioProps Pipe User UserFacts Fork ForkProps Fd FdProps FdFacts File Devs.

Lemma u8_char c : 0 < c < 2 ^ 8 -> u8 c = c.
Proof. intros Hc. apply Z.mod_small. lia. Qed.

Lemma format_char c : 0 < c < 2 ^ 8 -> vprintfmt collect (chars "%c") [VInt c] [] = Ret tt [c].
Proof.
  intros Hc. change (vprintfmt collect (chars "%c") [VInt c] []) with (Ret (S := list Z) tt [u8 (s32 c)]).
  by rewrite s32_small, u8_char by lia.
Qed.

(** [debugf] of a literal text on the kernel's console. *)
Definition printed_text (k : kst) (text : list Z) : kst :=
  set_cons_out (reverse (u8 <$> text) ++ cons_out k) k.

Lemma set_cons_out_same k : set_cons_out (cons_out k) k = k.
Proof. by destruct k. Qed.

Lemma print_loop l : forall k, forM l printcharc k = Ret tt (printed_text k l).
Proof.
  unfold printed_text. induction l as [|c l IH]; intros k; cbn [forM].
  - cbn. by rewrite set_cons_out_same.
  - unfold bind at 1, printcharc, modify. rewrite IH. cbn [cons_out set_cons_out fmap list_fmap].
    rewrite reverse_cons, <- app_assoc. done.
Qed.

Lemma user_debugf_run fmt ap text k : vprintfmt collect fmt ap [] = Ret tt text ->
  user_debugf fmt ap k = Ret tt (printed_text k text).
Proof.
  intros Hf.
  assert (HF : forall l s s', (exists out, s = set_cons_out out k) -> print_cons l s = Ret 0 s' ->
            exists out, s' = set_cons_out out k).
  { intros l s s' [out ->] Hp. unfold print_cons, kst_console in Hp.
    rewrite (bind_step _ _ _ _ _ (print_loop l _)) in Hp. injection Hp as <-. by eexists. }
  pose proof (debugf_run k _ HF (fun _ => 0) fmt ap) as H. rewrite Hf in H.
  destruct H as (s' & Hr & [out ->] & Ht); [exists (cons_out k); by rewrite set_cons_out_same|].
  unfold user_debugf. rewrite Hr. unfold printed_text. do 2 f_equal.
  unfold cons_text, kst_console in Ht. cbn [cons_out set_cons_out] in Ht.
  by rewrite <- (reverse_involutive out), Ht, reverse_app, reverse_involutive.
Qed.

(** Descriptor [i] is the console, its page [p]. *)
Record cons_fd (d : Z) (s : pmst) (i p : Z) : Prop := {
  cf_read : accessible s d (INDEX2FD i) p PTE_R;
  cf_write : accessible s d (INDEX2FD i) p PTE_W;
  cf_dev : page_word s p 0 = DEVCONS_ID;
  cf_mode : page_word s p 8 = O_RDWR
}.

Section Console.
Context `{Board} (fsipcbuf : Z) (rpc : Z -> Z -> Z -> KM (Z * Z)).
Context (boot : Z -> Z) (D fl : list Z) (d : Z) (Hd : d ∈ D).
Abbreviation tab := (devtab fsipcbuf rpc).
Abbreviation installed := (installed boot D fl d).
Abbreviation page_update := (page_update boot D fl).
Abbreviation load_fd := (load_fd boot D fl d Hd).
Abbreviation store_fd := (store_fd boot D fl d Hd).

(** [fd_lookup] and [dev_lookup] on a console descriptor. *)
Lemma fd_and_dev_cons k i p K : installed (pm k) -> 0 <= i < MAXFD -> cons_fd d (pm k) i p ->
  fd_and_dev tab i K k = K (INDEX2FD i) devcons k.
Proof using Hd.
  intros Hs Hi Hc. apply (fd_and_dev_run boot D fl d Hd tab k i p); try done; [apply Hc|].
  by rewrite (cf_dev _ _ _ _ Hc).
Qed.

(** ** The process *)
Context (p0 p1 pb buf : Z) (Hbuf : 0 <= buf < UTOP).

(** What the firmware has still to deliver, and what was printed. *)
Record tty (i o : list Z) (k : kst) : Prop := {
  ty_inst : installed (pm k);
  ty_in : cons_in k = i;
  ty_out : reverse (cons_out k) = o;
  ty_fd0 : cons_fd d (pm k) 0 p0;
  ty_fd1 : cons_fd d (pm k) 1 p1;
  ty_read : accessible (pm k) d buf pb PTE_R;
  ty_write : accessible (pm k) d buf pb PTE_W;
  ty_sep : pb <> p0 /\ pb <> p1
}.

(** The first character of the buffer. *)
Definition held (k : kst) : Z := mem_byte (mem (pm k)) (page2pa pb + buf mod BY2PG).

Lemma page_word_other s q b s' r x : page_update s q b s' -> is_page s r -> r <> q ->
  0 <= x < BY2PG -> page_word s' r x = page_word s r x.
Proof using.
  intros U Hr Hne Hx. unfold page_word. f_equal. apply (pu_other _ _ _ _ _ _ _ U); try done.
  clear -Hx. unfold BY2PG in Hx. Z.div_mod_to_equations. lia.
Qed.

Lemma cons_fd_other s q b s' i p : installed s -> page_update s q b s' -> p <> q -> 0 <= i < MAXFD ->
  cons_fd d s i p -> cons_fd d s' i p.
Proof using Hd.
  intros Hs U Hne Hi [Hr Hw Hdv Hm]. pose proof (INDEX2FD_user i Hi) as Hu.
  destruct (accessible_page boot D fl d Hd s _ p _ Hs Hu Hr) as [Hp _].
  split; [by eapply (pu_accessible boot D fl)..| |]; by rewrite (page_word_other _ _ _ _ _ _ U).
Qed.

(** The offset of any descriptor may change. *)
Lemma cons_fd_offset s q v s' i p : installed s -> is_page s q -> page_update s q (put_word s q 4 v) s' ->
  0 <= i < MAXFD -> cons_fd d s i p -> cons_fd d s' i p.
Proof using Hd.
  intros Hs Hq U Hi Hc. destruct (decide (p = q)) as [->|Hne]; [|by eapply cons_fd_other].
  pose proof (inv_ram _ _ _ _ (in_inv _ _ _ _ _ Hs)) as Hram. pose proof (INDEX2FD_user i Hi) as Hu.
  destruct Hc as [Hr Hw Hdv Hm]. split; [by eapply (pu_accessible boot D fl)..| |];
    by rewrite (put_word_word boot D fl s q 4 v s').
Qed.

(** What happens to the console and the buffer is not seen by the descriptors. *)
Lemma tty_console i o k i' l : tty i o k ->
  tty i' (o ++ (u8 <$> l)) (printed_text (set_cons_in i' k) l).
Proof using.
  intros [Hi Hin Hout H0 H1 Hr Hw Hs]. split; try done. unfold printed_text.
  cbn [cons_out set_cons_out set_cons_in]. by rewrite reverse_app, reverse_involutive, Hout.
Qed.

Lemma tty_store_buf i o k c : tty i o k -> exists s',
  storeb buf c k = Ret tt (set_pm s' k) /\ tty i o (set_pm s' k) /\ held (set_pm s' k) = Z.land c 0xFF.
Proof using Hd Hbuf.
  intros [Hi Hin Hout H0 H1 Hr Hw [Hs0 Hs1]].
  destruct (user_sb_run boot D fl d Hd (pm k) buf c pb Hi Hbuf Hw) as (s' & Hst & U).
  exists s'. split; [by apply kpm_ret|]. split.
  - split; try done; cbn [pm set_pm].
    + exact (pu_installed _ _ _ _ _ _ _ _ Hi U).
    + by apply (cons_fd_other (pm k) pb _ s' 0 p0 Hi U).
    + by apply (cons_fd_other (pm k) pb _ s' 1 p1 Hi U).
    + by eapply (pu_accessible boot D fl).
    + by eapply (pu_accessible boot D fl).
  - unfold held. cbn [pm set_pm]. rewrite (pu_bytes _ _ _ _ _ _ _ U) by (by apply Z.mod_pos_bound).
    unfold put_byte. by rewrite Z.eqb_refl.
Qed.

(** [advance] on a console descriptor: only its offset changes. *)
Lemma tty_advance i o k j p r : tty i o k -> 0 <= j < MAXFD -> cons_fd d (pm k) j p -> pb <> p -> 0 < r ->
  exists s', advance (INDEX2FD j) r k = Ret tt (set_pm s' k) /\ tty i o (set_pm s' k) /\
    held (set_pm s' k) = held k.
Proof using Hd Hbuf.
  intros T Hj Hc Hne Hr. pose proof T as [Hi Hin Hout H0 H1 Hrd Hwr Hsep].
  pose proof (INDEX2FD_user j Hj) as Hu. pose proof (inv_ram _ _ _ _ (in_inv _ _ _ _ _ Hi)) as Hram.
  destruct (accessible_page boot D fl d Hd _ _ p _ Hi Hu (cf_read _ _ _ _ Hc)) as [Hp _].
  destruct (accessible_page boot D fl d Hd _ _ pb _ Hi Hbuf Hrd) as [Hpb _].
  unfold advance, fd_offset. rewrite (proj2 (Z.ltb_lt 0 r) Hr).
  rewrite (bind_step _ _ _ _ _ (load_fd k j p 4 Hi Hj ltac:(done) (cf_read _ _ _ _ Hc))).
  destruct (store_fd k j p 4 (u32 (page_word (pm k) p 4 + r)) Hi Hj ltac:(done) (cf_write _ _ _ _ Hc))
    as (s' & Hst & U).
  exists s'. split; [done|]. split.
  - split; try done; cbn [pm set_pm].
    + exact (pu_installed _ _ _ _ _ _ _ _ Hi U).
    + by apply (cons_fd_offset (pm k) p _ s' 0 p0 Hi Hp U).
    + by apply (cons_fd_offset (pm k) p _ s' 1 p1 Hi Hp U).
    + by eapply (pu_accessible boot D fl).
    + by eapply (pu_accessible boot D fl).
  - unfold held. cbn [pm set_pm].
    by rewrite (pu_other_byte boot D fl _ _ _ _ _ _ U) by (done || by apply Z.mod_pos_bound).
Qed.

(** ** The system calls *)
Lemma cgetc_run c i k : cons_in k = c :: i -> 0 < c < 2 ^ 31 ->
  syscall_cgetc k = Ret c (set_cons_in i k).
Proof using.
  intros Hin [Hc0 Hc1]. unfold syscall_cgetc, msyscall.
  change (syscall_table board_read board_void SYS_cgetc 0 0 0 0 0) with sys_cgetc.
  assert (H0 : (c =? 0) = false) by (by apply Z.eqb_neq; intros ->).
  assert (H1 : (c <? 0) = false) by (by apply Z.ltb_ge, Z.lt_le_incl).
  unfold sys_cgetc, bind, gets, modify. rewrite Hin. cbn [cgetc_loop]. unfold bind, modify, ret.
  rewrite H0, H1. cbn. by rewrite s32_small by (split; [by apply Z.lt_le_incl|done]).
Qed.

Lemma print_cons_run i o k : tty i o k -> syscall_print_cons buf 1 k = Ret 0 (printed_text k [held k]).
Proof using Hd Hbuf.
  intros T. unfold syscall_print_cons, msyscall.
  change (syscall_table board_read board_void SYS_print_cons buf 1 0 0 0) with (sys_print_cons buf 1).
  assert (Hg : (UTOP <? u32 (buf + 1)) || (UTOP <=? buf) || (u32 (buf + 1) <? buf) = false).
  { clear -Hbuf. change UTOP with 0x7f400000 in *. rewrite u32_id by lia.
    destruct (Z.ltb_spec 0x7f400000 (buf + 1)), (Z.leb_spec 0x7f400000 buf),
      (Z.ltb_spec (buf + 1) buf); cbn; lia. }
  assert (Hp : sys_print_cons buf 1 k = Ret 0 (printed_text k [held k])).
  { unfold sys_print_cons. rewrite Hg. change (seqZ 0 1) with [0]. cbn [forM].
    rewrite Z.add_0_r.
    rewrite (bind_step _ _ k tt (printed_text k [held k])); [done|].
    rewrite (bind_step _ _ k tt (printed_text k [held k])); [done|].
    erewrite bind_step; [|apply kpm_same, (user_lb_run boot D fl d Hd (pm k) buf pb); try done; apply T].
    done. }
  by rewrite (bind_step _ _ _ _ _ Hp).
Qed.

(** ** [read] and [write] *)

(** What the console shows of a character it is given; [debugf] of [\r] is a
    new line. *)
Definition echo (c : Z) : list Z := if c =? 13 then newline else [c].

Lemma cons_read_run c i o k n off : tty (c :: i) o k -> 0 < c < 2 ^ 8 -> n <> 0 ->
  (c = 4 -> exists k', cons_read (INDEX2FD 0) buf n off k = Ret 0 k' /\ tty i (o ++ echo c) k') /\
  (c <> 4 -> exists k', cons_read (INDEX2FD 0) buf n off k = Ret 1 k' /\ tty i (o ++ echo c) k' /\ held k' = c).
Proof using Hd Hbuf.
  intros T Hc Hn. unfold cons_read. rewrite (proj2 (Z.eqb_neq n 0) Hn).
  assert (Hc' : 0 < c < 2 ^ 31) by (clear -Hc; lia).
  assert (H0 : (c =? 0) = false) by (clear -Hc; destruct (Z.eqb_spec c 0); lia).
  assert (H1 : (c <? 0) = false) by (clear -Hc; destruct (Z.ltb_spec c 0); lia).
  assert (Hu : (u8 <$> echo c) = echo c).
  { unfold echo, newline. destruct (c =? 13); [done|].
    cbn [fmap list_fmap]. by rewrite u8_char. }
  rewrite (bind_step _ _ _ _ _ (cgetc_run c i k (ty_in _ _ _ T) Hc')), H0.
  assert (He : (if negb (c =? 13) then user_debugf (chars "%c") [VInt c] else user_debugf newline [])
                 (set_cons_in i k) = Ret tt (printed_text (set_cons_in i k) (echo c))).
  { unfold echo. destruct (c =? 13); apply user_debugf_run; [done|].
    by apply format_char. }
  rewrite (bind_step _ _ _ _ _ He), H1. pose proof (tty_console (c :: i) o k i (echo c) T) as T1.
  rewrite Hu in T1. split; intros H4.
  - rewrite (proj2 (Z.eqb_eq c 4) H4). by eexists.
  - rewrite (proj2 (Z.eqb_neq c 4) H4).
    destruct (tty_store_buf _ _ _ c T1) as (s' & Hst & T2 & Hh).
    rewrite (bind_step _ _ _ _ _ Hst). eexists. split; [done|]. split; [done|]. rewrite Hh.
    change 0xFF with (Z.ones 8). rewrite Z.land_ones by done. apply Z.mod_small. by clear -Hc; lia.
Qed.

Lemma MAXFD_0 : 0 <= 0 < MAXFD. Proof using. done. Qed.
Lemma MAXFD_1 : 0 <= 1 < MAXFD. Proof using. done. Qed.

Lemma tty_read c i o k n : tty (c :: i) o k -> 0 < c < 2 ^ 8 -> n <> 0 ->
  (c = 4 -> exists k', Fd.read tab 0 buf n k = Ret 0 k' /\ tty i (o ++ echo c) k') /\
  (c <> 4 -> exists k', Fd.read tab 0 buf n k = Ret 1 k' /\ tty i (o ++ echo c) k' /\ held k' = c).
Proof using Hd Hbuf.
  intros T Hc Hn. pose proof T as [Hi _ _ H0 _ _ _ _]. unfold Fd.read.
  rewrite (fd_and_dev_cons k 0 p0 _ Hi MAXFD_0 H0).
  unfold fd_omode. rewrite (bind_step _ _ _ _ _
    (load_fd k 0 p0 8 Hi MAXFD_0 ltac:(done) (cf_read _ _ _ _ H0))).
  rewrite (cf_mode _ _ _ _ H0). change (Z.land O_RDWR O_ACCMODE =? O_WRONLY) with false. cbv iota.
  unfold fd_offset. rewrite (bind_step _ _ _ _ _
    (load_fd k 0 p0 4 Hi MAXFD_0 ltac:(done) (cf_read _ _ _ _ H0))).
  cbn [dev_read devcons].
  destruct (cons_read_run c i o k n (page_word (pm k) p0 4) T Hc Hn) as [Heof Hchar].
  split; intros H4.
  - destruct (Heof H4) as (k' & Hr & T'). rewrite (bind_step _ _ _ _ _ Hr). by exists k'.
  - destruct (Hchar H4) as (k' & Hr & T' & Hh). rewrite (bind_step _ _ _ _ _ Hr).
    destruct (tty_advance _ _ k' 0 p0 1 T' MAXFD_0 (ty_fd0 _ _ _ T') (proj1 (ty_sep _ _ _ T')) eq_refl)
      as (s' & Ha & T2 & Hh2).
    rewrite (bind_step _ _ _ _ _ Ha). exists (set_pm s' k'). split; [done|]. split; [done|].
    by rewrite Hh2.
Qed.

Lemma tty_write i o k : tty i o k -> 0 < held k < 2 ^ 8 ->
  exists k', Fd.write tab 1 buf 1 k = Ret 1 k' /\ tty i (o ++ [held k]) k'.
Proof using Hd Hbuf.
  intros T Hh. pose proof T as [Hi Hin _ _ H1 _ _ _]. unfold Fd.write.
  rewrite (fd_and_dev_cons k 1 p1 _ Hi MAXFD_1 H1).
  unfold fd_omode. rewrite (bind_step _ _ _ _ _
    (load_fd k 1 p1 8 Hi MAXFD_1 ltac:(done) (cf_read _ _ _ _ H1))).
  rewrite (cf_mode _ _ _ _ H1). change (Z.land O_RDWR O_ACCMODE =? O_RDONLY) with false. cbv iota.
  unfold fd_offset. rewrite (bind_step _ _ _ _ _
    (load_fd k 1 p1 4 Hi MAXFD_1 ltac:(done) (cf_read _ _ _ _ H1))).
  cbn [dev_write devcons].
  assert (Hw : cons_write (INDEX2FD 1) buf 1 (page_word (pm k) p1 4) k = Ret 1 (printed_text k [held k])).
  { unfold cons_write. by rewrite (bind_step _ _ _ _ _ (print_cons_run i o k T)). }
  rewrite (bind_step _ _ _ _ _ Hw).
  assert (T' : tty i (o ++ [held k]) (printed_text k [held k])).
  { pose proof (tty_console i o k i [held k] T) as T'. cbn [fmap list_fmap] in T'.
    rewrite u8_char in T' by done. rewrite <- Hin in T' at 2. by destruct k. }
  destruct (tty_advance _ _ _ 1 p1 1 T' MAXFD_1 (ty_fd1 _ _ _ T') (proj2 (ty_sep _ _ _ T')) eq_refl)
    as (s' & Ha & T2 & _).
  rewrite (bind_step _ _ _ _ _ Ha). by eexists.
Qed.
End Console.
