(* ===== verification/FileProps.v ===== *)
(** * Reading a file through its descriptor

    The blocks of an open file are mapped one after another at [fd2data]; [read]
    copies from there and moves the offset. *)
From S2P Require Import Prelude Queue Mmu Pmap PmapFacts PmapInv PmapSpec PmapFrame PmapBoot PmapProps.
From S2P Require Import UserMem Fs Serv Elf Env EnvFree Sched EnvFacts EnvProps LoadProps Syscall SyscallProps Traps.
From S2P Require Import Print Stdio StdioProps Pipe User UserFacts Fork ForkProps Fd FdProps FdFacts File Devs ExSpace.

(** ** Copying between user addresses *)

Lemma user_byte_at s d va p perm : accessible s d va p perm ->
  user_byte s d va = Some (mem_byte (mem s) (page2pa p + va mod BY2PG)).
Proof. intros (e & He & <- & _). unfold user_byte. by rewrite He. Qed.

Lemma accessible_mapped s d va p perm : accessible s d va p perm -> mapped_page s d va = Some p.
Proof. intros (e & He & <- & _). unfold mapped_page. by rewrite He. Qed.

Section Copy.
Context (boot : Z -> Z) (D fl : list Z) (d : Z) (Hd : d ∈ D) (s0 : pmst) (dst src n : Z).
Context (Hs0 : installed boot D fl d s0).
Context (Hdst : 0 <= dst /\ dst + n <= UTOP) (Hsrc : 0 <= src /\ src + n <= UTOP).
Context (Hread : forall j, 0 <= j < n -> exists p, accessible s0 d (src + j) p PTE_R).
Context (Hwrite : forall j, 0 <= j < n -> exists p, accessible s0 d (dst + j) p PTE_W).
(** No page of the destination is one of the source, nor mapped twice in it. *)
Context (Hsep : forall i j p, 0 <= i < n -> 0 <= j < n ->
  mapped_page s0 d (dst + i) = Some p -> mapped_page s0 d (src + j) <> Some p).
Context (Hinj : forall i j p, 0 <= i < n -> 0 <= j < n ->
  mapped_page s0 d (dst + i) = Some p -> mapped_page s0 d (dst + j) = Some p ->
  (dst + i) / BY2PG = (dst + j) / BY2PG).

(** The first [m] bytes have been copied, and nothing else has changed. *)
Record copied_to (m : Z) (s : pmst) : Prop := {
  ct_inst : installed boot D fl d s;
  ct_npage : npage s = npage s0;
  ct_entry : forall d' va, d' ∈ D -> PDX va < NUPDE -> entry s d' va = entry s0 d' va;
  ct_bytes : forall j, 0 <= j < m -> user_byte s d (dst + j) = user_byte s0 d (src + j);
  ct_frame : forall r x, is_page s0 r -> 0 <= x < BY2PG ->
    (forall j, 0 <= j < m -> mapped_page s0 d (dst + j) = Some r -> (dst + j) mod BY2PG <> x) ->
    mem_byte (mem s) (page2pa r + x) = mem_byte (mem s0) (page2pa r + x)
}.

Lemma copied_accessible m s va p perm : copied_to m s -> 0 <= va < UTOP ->
  accessible s0 d va p perm -> accessible s d va p perm.
Proof using Hd.
  intros C Hva (e & He & H). exists e. split; [|done]. destruct (user_PDX va Hva) as [Hx _].
  by rewrite (ct_entry _ _ C).
Qed.

Lemma same_place i j : (dst + i) / BY2PG = (dst + j) / BY2PG -> (dst + i) mod BY2PG = (dst + j) mod BY2PG -> i = j.
Proof using.
  clear. intros Hq Hm. pose proof (Z.div_mod (dst + i) BY2PG ltac:(done)).
  pose proof (Z.div_mod (dst + j) BY2PG ltac:(done)). rewrite Hq, Hm in *. lia.
Qed.

Lemma put_byte_elsewhere s p off v s' r x : page_update boot D fl s p (put_byte s p off v) s' -> ram_ok s ->
  is_page s r -> 0 <= x < BY2PG -> ~ (r = p /\ x = off) ->
  mem_byte (mem s') (page2pa r + x) = mem_byte (mem s) (page2pa r + x).
Proof using.
  intros U Hram Hr Hx Hne. destruct (decide (r = p)) as [->|Hn]; [|by apply (pu_other_byte boot D fl _ _ _ _ _ _ U)].
  rewrite (pu_bytes _ _ _ _ _ _ _ U) by done. unfold put_byte. by destruct (Z.eqb_spec x off) as [->|]; [destruct Hne|].
Qed.

Lemma copy_step m k : 0 <= m < n -> copied_to m (pm k) ->
  exists s', (let! b := loadb (src + m) in storeb (dst + m) b) k = Ret tt (set_pm s' k) /\ copied_to (m + 1) s'.
Proof using All.
  intros Hm C. assert (Hu : 0 <= src + m < UTOP /\ 0 <= dst + m < UTOP) by (clear -Hm Hdst Hsrc; lia).
  destruct Hu as [Hus Hud]. destruct (Hread m Hm) as (ps & Hps). destruct (Hwrite m Hm) as (pd & Hpd).
  pose proof (accessible_mapped _ _ _ _ _ Hps) as Mps. pose proof (accessible_mapped _ _ _ _ _ Hpd) as Mpd.
  pose proof (copied_accessible _ _ _ _ _ C Hus Hps) as Hps'.
  pose proof (copied_accessible _ _ _ _ _ C Hud Hpd) as Hpd'.
  pose proof (ct_inst _ _ C) as Hi. pose proof (inv_ram _ _ _ _ (in_inv _ _ _ _ _ Hi)) as Hram.
  destruct (accessible_page boot D fl d Hd _ _ _ _ Hs0 Hus Hps) as [Hpage _].
  pose proof (Z.mod_pos_bound (src + m) BY2PG ltac:(done)) as Hms.
  pose proof (Z.mod_pos_bound (dst + m) BY2PG ltac:(done)) as Hmd.
  set (b := mem_byte (mem s0) (page2pa ps + (src + m) mod BY2PG)).
  assert (Hb : mem_byte (mem (pm k)) (page2pa ps + (src + m) mod BY2PG) = b).
  { apply (ct_frame _ _ C); try done. intros j Hj Hmap.
    destruct (Hsep j m ps ltac:(clear -Hj Hm; lia) Hm Hmap Mps). }
  assert (Hload : loadb (src + m) k = Ret b k).
  { rewrite <- Hb. by apply kpm_same, (user_lb_run boot D fl d Hd). }
  rewrite (bind_step _ _ _ _ _ Hload).
  destruct (user_sb_run boot D fl d Hd (pm k) (dst + m) b pd Hi Hud Hpd') as (s' & Hst & U).
  exists s'. split; [by apply kpm_ret|].
  assert (Hbb : Z.land b 0xFF = b) by apply land_word_byte. rewrite Hbb in U.
  assert (Hother : forall r x, is_page s0 r -> 0 <= x < BY2PG -> ~ (r = pd /\ x = (dst + m) mod BY2PG) ->
            mem_byte (mem s') (page2pa r + x) = mem_byte (mem (pm k)) (page2pa r + x)).
  { intros r x Hr. apply (put_byte_elsewhere _ _ _ _ _ r x U Hram). unfold is_page. by rewrite (ct_npage _ _ C). }
  split.
  - exact (pu_installed _ _ _ _ _ _ _ _ Hi U).
  - destruct (pu_eq _ _ _ _ _ _ _ U) as [mm ->]. apply (ct_npage _ _ C).
  - intros d' va Hd' Hva. rewrite (pu_entry _ _ _ _ _ _ _ U) by done. by apply (ct_entry _ _ C).
  - intros j Hj. assert (Hjn : 0 <= j < n) by (clear -Hj Hm; lia). destruct (Hwrite j Hjn) as (pj & Hpj).
    assert (Huj : 0 <= dst + j < UTOP) by (clear -Hjn Hdst; lia).
    destruct (accessible_page boot D fl d Hd _ _ _ _ Hs0 Huj Hpj) as [Hpagej _].
    pose proof (copied_accessible _ _ _ _ _ C Huj Hpj) as Hpj'.
    rewrite (user_byte_at _ _ _ _ _ (pu_accessible boot D fl d Hd _ _ _ _ _ _ _ U Huj Hpj')).
    destruct (decide (j = m)) as [->|Hne].
    + pose proof (accessible_mapped _ _ _ _ _ Hpj) as Mpj. rewrite Mpd in Mpj. injection Mpj as <-.
      rewrite (pu_bytes _ _ _ _ _ _ _ U) by done. unfold put_byte. rewrite Z.eqb_refl.
      by rewrite (user_byte_at _ _ _ _ _ Hps).
    + rewrite Hother; [|done|by apply Z.mod_pos_bound|].
      * rewrite <- (user_byte_at _ _ _ _ _ Hpj'). apply (ct_bytes _ _ C). clear -Hj Hne. lia.
      * intros [-> Hmod]. apply Hne, same_place; [|done].
        apply (Hinj j m pd Hjn Hm); [by apply (accessible_mapped _ _ _ _ _ Hpj)|done].
  - intros r x Hr Hx Hno. rewrite Hother; [|done|done|].
    + apply (ct_frame _ _ C); try done. intros j Hj. apply Hno. clear -Hj. lia.
    + intros [-> ->]. by apply (Hno m ltac:(clear -Hm; lia)).
Qed.

Lemma copied_start : copied_to 0 s0.
Proof using Hs0. split; try done. clear. intros j Hj. lia. Qed.

Lemma user_memcpy_run k : pm k = s0 -> 0 <= n ->
  exists s', user_memcpy dst src n k = Ret tt (set_pm s' k) /\ copied_to n s'.
Proof using All.
  intros Hk Hn.
  destruct (forM_seqZ (fun m k' => exists s', k' = set_pm s' k /\ copied_to m s')
    (fun i => let! b := loadb (src + i) in storeb (dst + i) b) 0 n k Hn) as (k' & Hr & s' & -> & C).
  - intros m k' Hm (s1 & -> & C1). destruct (copy_step m (set_pm s1 k) Hm C1) as (s2 & Hr & C2).
    exists (set_pm s2 (set_pm s1 k)). split; [done|]. exists s2. by destruct k.
  - exists s0. rewrite <- Hk, set_pm_same. split; [done|]. rewrite Hk. apply copied_start.
  - by exists s'.
Qed.
End Copy.

(** ** [file_read] *)
Definition FD_SIZE : Z := f_size (f_file 0).

(** Descriptor [i] is a file of [size] bytes at the offset [off], open for
    reading; its page is [p]. *)
Record file_fd (d : Z) (s : pmst) (i p off size : Z) : Prop := {
  ff_read : accessible s d (INDEX2FD i) p PTE_R;
  ff_write : accessible s d (INDEX2FD i) p PTE_W;
  ff_dev : page_word s p 0 = DEVFILE_ID;
  ff_mode : Z.land (page_word s p 8) O_ACCMODE <> O_WRONLY;
  ff_off : page_word s p 4 = off;
  ff_size : page_word s p FD_SIZE = size
}.

(** [n] bytes can be copied from [src] to [dst]: both are mapped, no page of
    the destination is one of the source or mapped twice in it. *)
Record copyable (d : Z) (s : pmst) (dst src n : Z) : Prop := {
  cp_dst : 0 <= dst /\ dst + n <= UTOP;
  cp_src : 0 <= src /\ src + n <= UTOP;
  cp_read : forall j, 0 <= j < n -> exists p, accessible s d (src + j) p PTE_R;
  cp_write : forall j, 0 <= j < n -> exists p, accessible s d (dst + j) p PTE_W;
  cp_sep : forall i j p, 0 <= i < n -> 0 <= j < n ->
    mapped_page s d (dst + i) = Some p -> mapped_page s d (src + j) <> Some p;
  cp_inj : forall i j p, 0 <= i < n -> 0 <= j < n ->
    mapped_page s d (dst + i) = Some p -> mapped_page s d (dst + j) = Some p ->
    (dst + i) / BY2PG = (dst + j) / BY2PG
}.

Section File.
Context `{Board} (fsipcbuf : Z) (rpc : Z -> Z -> Z -> KM (Z * Z)).
Context (boot : Z -> Z) (D fl : list Z) (d : Z) (Hd : d ∈ D).
Abbreviation tab := (devtab fsipcbuf rpc).
Abbreviation installed := (installed boot D fl d).
Abbreviation copied_to := (copied_to boot D fl d).

(** How much [read] delivers. *)
Definition available (off size n : Z) : Z := if size <? off then 0 else Z.min n (size - off).

Lemma data_address i off : 0 <= i < MAXFD -> 0 <= off <= PDMAP ->
  u32 (fd2data (INDEX2FD i) + off) = fd2data (INDEX2FD i) + off.
Proof.
  intros Hi Ho. unfold fd2data. rewrite fd2num_INDEX2FD by done. unfold INDEX2DATA.
  unfold MAXFD, FILEBASE, PDMAP in *. rewrite !u32_id; rewrite ?u32_id; lia.
Qed.

Lemma file_read_run k i p off size n buf :
  installed (pm k) -> 0 <= i < MAXFD -> file_fd d (pm k) i p off size ->
  0 <= n -> off + n < 2 ^ 32 -> size <= PDMAP ->
  let src := fd2data (INDEX2FD i) + off in
  let r := available off size n in
  copyable d (pm k) buf src r ->
  exists s', file_read (INDEX2FD i) buf n off k = Ret r (set_pm s' k) /\ copied_to (pm k) buf src r s'.
Proof using Hd.
  intros Hs Hi Hf Hn Hw Hsz src r C. unfold file_read.
  assert (Hx : f_size (f_file (INDEX2FD i)) = INDEX2FD i + FD_SIZE).
  { unfold FD_SIZE, f_size, f_file. clear. lia. }
  rewrite Hx, (bind_step _ _ _ _ _ (load_fd boot D fl d Hd k i p FD_SIZE Hs Hi ltac:(done) (ff_read _ _ _ _ _ _ Hf))).
  rewrite (ff_size _ _ _ _ _ _ Hf).
  assert (Ho : 0 <= off) by (rewrite <- (ff_off _ _ _ _ _ _ Hf); apply u32_range).
  unfold available in r. destruct (Z.ltb_spec size off) as [Hlt|Hge].
  { exists (pm k). rewrite set_pm_same. split; [done|]. by apply copied_start. }
  cbv zeta. assert (Hr : (if size <? u32 (off + n) then size - off else n) = r).
  { rewrite u32_id by (clear -Ho Hn Hw; lia). unfold r. clear. destruct (Z.ltb_spec size (off + n)); lia. }
  rewrite Hr, data_address by (done || clear -Ho Hge Hsz; lia).
  destruct (user_memcpy_run boot D fl d Hd (pm k) buf src r Hs (cp_dst _ _ _ _ _ C) (cp_src _ _ _ _ _ C)
    (cp_read _ _ _ _ _ C) (cp_write _ _ _ _ _ C) (cp_sep _ _ _ _ _ C) (cp_inj _ _ _ _ _ C) k eq_refl)
    as (s' & Hrun & Hc); [unfold r; clear -Hn Hge; lia|].
  fold src. rewrite (bind_step _ _ _ _ _ Hrun). by exists s'.
Qed.

(** [offset + n] is computed in 32 bits: when it wraps, a length beyond the end
    of the file is not reduced, and [n] bytes are copied. *)
Lemma file_read_wraps k i p off size n buf :
  installed (pm k) -> 0 <= i < MAXFD -> file_fd d (pm k) i p off size ->
  off <= size <= PDMAP -> size - off < n -> u32 (off + n) <= size ->
  file_read (INDEX2FD i) buf n off k =
    (user_memcpy buf (fd2data (INDEX2FD i) + off) n ;! ret n) k.
Proof using Hd.
  intros Hs Hi Hf Hsz Hn Hw. unfold file_read.
  assert (Hx : f_size (f_file (INDEX2FD i)) = INDEX2FD i + FD_SIZE).
  { unfold FD_SIZE, f_size, f_file. clear. lia. }
  rewrite Hx, (bind_step _ _ _ _ _ (load_fd boot D fl d Hd k i p FD_SIZE Hs Hi ltac:(done) (ff_read _ _ _ _ _ _ Hf))).
  rewrite (ff_size _ _ _ _ _ _ Hf).
  assert (Ho : 0 <= off) by (rewrite <- (ff_off _ _ _ _ _ _ Hf); apply u32_range).
  destruct (Z.ltb_spec size off); [lia|]. cbv zeta. destruct (Z.ltb_spec size (u32 (off + n))); [lia|].
  by rewrite data_address by (done || lia).
Qed.
End File.

(** ** [read] of a file *)
Section Read.
Context `{Board} (fsipcbuf : Z) (rpc : Z -> Z -> Z -> KM (Z * Z)).
Context (boot : Z -> Z) (D fl : list Z) (d : Z) (Hd : d ∈ D).
Abbreviation tab := (devtab fsipcbuf rpc).
Abbreviation installed := (installed boot D fl d).
Abbreviation copied_to := (copied_to boot D fl d).

Lemma copied_word s0 dst src n s p x : installed s0 -> copied_to s0 dst src n s -> is_page s0 p ->
  (forall j, 0 <= j < n -> mapped_page s0 d (dst + j) <> Some p) -> word_offset x ->
  page_word s p x = page_word s0 p x.
Proof using.
  intros Hs C Hp Hno [Hx H4]. pose proof (inv_ram _ _ _ _ (in_inv _ _ _ _ _ Hs)) as Hram.
  pose proof (inv_ram _ _ _ _ (in_inv _ _ _ _ _ (ct_inst _ _ _ _ _ _ _ _ _ C))) as Hram'.
  rewrite (word_bytes s p x), (word_bytes s0 p x); try done.
  2: { unfold is_page in *. by rewrite (ct_npage _ _ _ _ _ _ _ _ _ C). }
  apply bytes_word_cong. intros j Hj. apply (ct_frame _ _ _ _ _ _ _ _ _ C); [done| |].
  - clear -Hx H4 Hj. unfold BY2PG in *. Z.div_mod_to_equations. lia.
  - intros i Hi Hm. destruct (Hno i Hi Hm).
Qed.

Lemma copied_file_fd s0 dst src n s i p off size : installed s0 -> 0 <= i < MAXFD ->
  copied_to s0 dst src n s -> (forall j, 0 <= j < n -> mapped_page s0 d (dst + j) <> Some p) ->
  file_fd d s0 i p off size -> file_fd d s i p off size.
Proof using Hd.
  intros Hs Hi C Hno [Hr Hw Hdv Hm Ho Hz]. pose proof (INDEX2FD_user i Hi) as Hu.
  destruct (accessible_page boot D fl d Hd _ _ p _ Hs Hu Hr) as [Hp _].
  assert (Hword : forall x, word_offset x -> page_word s p x = page_word s0 p x)
    by (intros x Hx; by apply (copied_word s0 dst src n s p x)).
  split; [by eapply (copied_accessible boot D fl)..| | | |]; by rewrite Hword.
Qed.

Lemma fd_and_dev_file k i p off size K : installed (pm k) -> 0 <= i < MAXFD -> file_fd d (pm k) i p off size ->
  fd_and_dev tab i K k = K (INDEX2FD i) (devfile fsipcbuf rpc) k.
Proof using Hd.
  intros Hs Hi Hc. apply (fd_and_dev_run boot D fl d Hd tab k i p); try done; [apply Hc|].
  by rewrite (ff_dev _ _ _ _ _ _ Hc).
Qed.

(** [advance] moves the offset and changes nothing else. *)
Lemma advance_run k i p off size r : installed (pm k) -> 0 <= i < MAXFD -> file_fd d (pm k) i p off size ->
  0 <= r -> off + r < 2 ^ 32 ->
  exists s', advance (INDEX2FD i) r k = Ret tt (set_pm s' k) /\ installed s' /\
    file_fd d s' i p (off + r) size /\
    (forall d' va, d' ∈ D -> PDX va < NUPDE -> entry s' d' va = entry (pm k) d' va) /\
    (forall q x, is_page (pm k) q -> q <> p -> 0 <= x < BY2PG ->
       mem_byte (mem s') (page2pa q + x) = mem_byte (mem (pm k)) (page2pa q + x)).
Proof using Hd.
  intros Hs Hi Hf Hr Hlt. pose proof Hf as [Hrd Hwr Hdv Hm Ho Hz]. pose proof (INDEX2FD_user i Hi) as Hu.
  pose proof (inv_ram _ _ _ _ (in_inv _ _ _ _ _ Hs)) as Hram.
  destruct (accessible_page boot D fl d Hd _ _ p _ Hs Hu Hrd) as [Hp _]. unfold advance.
  destruct (Z.ltb_spec 0 r) as [Hpos|].
  2: { exists (pm k). rewrite set_pm_same. replace r with 0 by (clear -Hr H0; lia). by rewrite Z.add_0_r. }
  unfold fd_offset.
  rewrite (bind_step _ _ _ _ _ (load_fd boot D fl d Hd k i p 4 Hs Hi ltac:(done) Hrd)), Ho.
  destruct (store_fd boot D fl d Hd k i p 4 (u32 (off + r)) Hs Hi ltac:(done) Hwr) as (s' & Hst & U).
  assert (Ho' : 0 <= off + r < 2 ^ 32).
  { rewrite <- Ho in *. pose proof (u32_range (mem (pm k) (page2pa p + 4 * (4 / 4)))) as H'.
    unfold page_word in *. clear -H' Hr Hlt. lia. }
  rewrite u32_id in * by done. exists s'. split; [done|]. split; [exact (pu_installed _ _ _ _ _ _ _ _ Hs U)|].
  split_and!.
  - split; [by eapply (pu_accessible boot D fl)..| | | |];
      rewrite (put_word_word boot D fl (pm k) p 4 (off + r) s') by done; try done.
    by rewrite Z.eqb_refl, u32_id.
  - intros. by apply (pu_entry _ _ _ _ _ _ _ U).
  - intros q x Hq Hne Hx. by apply (pu_other_byte boot D fl _ _ _ _ _ _ U).
Qed.

Lemma file_read_at k i p off size n buf :
  installed (pm k) -> 0 <= i < MAXFD -> file_fd d (pm k) i p off size ->
  0 <= n -> off + n < 2 ^ 32 -> size <= PDMAP ->
  let src := fd2data (INDEX2FD i) + off in
  let r := available off size n in
  copyable d (pm k) buf src r -> (forall j, 0 <= j < r -> mapped_page (pm k) d (buf + j) <> Some p) ->
  exists s', Fd.read tab i buf n k = Ret r (set_pm s' k) /\ installed s' /\
    file_fd d s' i p (off + r) size /\
    (forall d' va, d' ∈ D -> PDX va < NUPDE -> entry s' d' va = entry (pm k) d' va) /\
    (forall j, 0 <= j < r -> user_byte s' d (buf + j) = user_byte (pm k) d (src + j)).
Proof using Hd.
  intros Hs Hi Hf Hn Hw Hsz src r C Hno. unfold Fd.read.
  rewrite (fd_and_dev_file k i p off size _ Hs Hi Hf). pose proof (ff_read _ _ _ _ _ _ Hf) as Hrd.
  unfold fd_omode. rewrite (bind_step _ _ _ _ _ (load_fd boot D fl d Hd k i p 8 Hs Hi ltac:(done) Hrd)).
  rewrite (proj2 (Z.eqb_neq _ _) (ff_mode _ _ _ _ _ _ Hf)). unfold fd_offset.
  rewrite (bind_step _ _ _ _ _ (load_fd boot D fl d Hd k i p 4 Hs Hi ltac:(done) Hrd)).
  rewrite (ff_off _ _ _ _ _ _ Hf). cbn [dev_read devfile].
  destruct (file_read_run boot D fl d Hd k i p off size n buf Hs Hi Hf Hn Hw Hsz C) as (s1 & Hr1 & C1).
  rewrite (bind_step _ _ _ _ _ Hr1). fold src r in C1.
  assert (Ho : 0 <= off) by (rewrite <- (ff_off _ _ _ _ _ _ Hf); apply u32_range).
  assert (Hr : 0 <= r <= n) by (unfold r, available; clear -Ho Hn; destruct (Z.ltb_spec size off); lia).
  destruct (advance_run (set_pm s1 k) i p off size r (ct_inst _ _ _ _ _ _ _ _ _ C1) Hi
    (copied_file_fd _ _ _ _ _ _ _ _ _ Hs Hi C1 Hno Hf) (proj1 Hr)) as (s2 & Hr2 & Hi2 & Hf2 & He2 & Hb2);
    [clear -Hr Hw; lia|].
  cbn [pm set_pm] in *. rewrite (bind_step _ _ _ _ _ Hr2). exists s2. split; [by destruct k|].
  split_and!; try done.
  - intros d' va Hd' Hva. rewrite He2 by done. by apply (ct_entry _ _ _ _ _ _ _ _ _ C1).
  - intros j Hj. rewrite <- (ct_bytes _ _ _ _ _ _ _ _ _ C1 j Hj).
    destruct (cp_write _ _ _ _ _ C j Hj) as (q & Hq).
    assert (Hu : 0 <= buf + j < UTOP) by (pose proof (cp_dst _ _ _ _ _ C) as Hb; fold r in Hb; clear -Hb Hj; lia).
    destruct (user_PDX _ Hu) as [Hx _]. destruct (accessible_page boot D fl d Hd _ _ _ _ Hs Hu Hq) as [Hp _].
    unfold user_byte. rewrite He2, (ct_entry _ _ _ _ _ _ _ _ _ C1) by done.
    pose proof (accessible_mapped _ _ _ _ _ Hq) as Hmap. destruct Hq as (e & -> & <- & _). cbn. f_equal.
    apply Hb2; [|intros <-; by destruct (Hno j Hj)|by apply Z.mod_pos_bound].
    unfold is_page in *. by rewrite (ct_npage _ _ _ _ _ _ _ _ _ C1).
Qed.
End Read.

(** C20. [read] of a file of at most 4 MB, on a descriptor that was not opened
    write-only: with [off] the descriptor's offset and [size] the length in the
    copy of the file's header that its page holds, and for a length [n] with
    [off + n] below 2^32, [read] returns [min n (size - off)], or 0 beyond the
    end; the buffer then holds those bytes of the mapped file, the offset has
    moved behind them, the descriptor stays open on the same file, and no mapping
    changes.  The blocks to be read and the buffer have to be mapped, in pages of
    their own.  When [off + n] wraps, the code does not cut [n] down (finding at
    user/lib/file.c:118, lemma [file_read_wraps]). *)
Theorem file_read_correct `{Board} fsipcbuf rpc boot D fl d k i p off size n buf :
  d ∈ D -> installed boot D fl d (pm k) -> 0 <= i < MAXFD -> file_fd d (pm k) i p off size ->
  0 <= n -> off + n < 2 ^ 32 -> size <= PDMAP ->
  let src := fd2data (INDEX2FD i) + off in
  let r := available off size n in
  copyable d (pm k) buf src r -> (forall j, 0 <= j < r -> mapped_page (pm k) d (buf + j) <> Some p) ->
  exists s', Fd.read (devtab fsipcbuf rpc) i buf n k = Ret r (set_pm s' k) /\
    installed boot D fl d s' /\ file_fd d s' i p (off + r) size /\
    (forall d' va, d' ∈ D -> PDX va < NUPDE -> entry s' d' va = entry (pm k) d' va) /\
    (forall j, 0 <= j < r -> user_byte s' d (buf + j) = user_byte (pm k) d (src + j)).
Proof. intros Hd. by apply file_read_at. Qed.

(** A machine with a file of five bytes open at offset 1. *)
Definition ex_file_pages : pmst :=
  map_fresh 0x400000 (map_fresh FILEBASE (map_fresh (INDEX2FD 0) ex_space0)).
Definition ex_file : pmst :=
  poke FILEBASE 0x6c6c6568 (poke (FILEBASE + 4) 0x6f
    (poke (INDEX2FD 0 + FD_SIZE) 5 (poke (INDEX2FD 0 + 4) 1 (poke (INDEX2FD 0) DEVFILE_ID ex_file_pages)))).

Lemma ex_file_sound : sound ex_file.
Proof.
  unfold ex_file. do 5 (eapply poke_sound; [on_space|on_space|on_space|on_space|mapped|]).
  do 3 (apply map_fresh_sound; [on_space|]). exact ex_space0_sound.
Qed.

Lemma below_4 (P : Z -> Prop) : P 0 -> P 1 -> P 2 -> P 3 -> forall j, 0 <= j < 4 -> P j.
Proof.
  intros H0 H1 H2 H3 j Hj. assert (j = 0 \/ j = 1 \/ j = 2 \/ j = 3) as [-> | [-> | [-> | ->]]] by lia; done.
Qed.

Lemma ex_file_copyable : copyable ex_dir ex_file 0x400000 (FILEBASE + 1) 4.
Proof.
  assert (Hdst : forall j, 0 <= j < 4 -> mapped_page ex_file ex_dir (0x400000 + j) = Some 10).
  { apply below_4; on_space. }
  assert (Hsrc : forall j, 0 <= j < 4 -> mapped_page ex_file ex_dir (FILEBASE + 1 + j) = Some 12).
  { apply below_4; on_space. }
  split.
  - on_space.
  - on_space.
  - apply below_4; eexists; mapped.
  - apply below_4; eexists; mapped.
  - intros i j q Hi Hj. rewrite Hdst, Hsrc by done. by intros [= <-].
  - intros i j q Hi Hj _ _. unfold BY2PG. Z.div_mod_to_equations. lia.
Qed.

Lemma file_read_correct_witness : exists fl s',
  @Fd.read (@devtab ex_board 0 (fun _ _ _ => ret (0, 0))) 0 0x400000 100 (set_pm ex_file ex_kst) =
    Ret 4 (set_pm s' ex_kst) /\
  installed ex_refs [ex_dir] fl ex_dir s' /\ user_byte s' ex_dir 0x400000 = Some 101.
Proof.
  assert (Hin : 0 <= 0 < available 1 5 100) by done.
  destruct (sound_installed _ ex_file_sound) as [fl I]; [on_space|on_space|]. exists fl.
  destruct (@file_read_correct ex_board 0 (fun _ _ _ => ret (0, 0)) ex_refs [ex_dir] fl ex_dir
    (set_pm ex_file ex_kst) 0 14 1 5 100 0x400000) as (s' & Hr & Hi & _ & _ & Hb).
  - by apply list_elem_of_here.
  - exact I.
  - done.
  - split; [mapped|mapped|on_space|on_space|on_space|on_space].
  - done.
  - done.
  - done.
  - exact ex_file_copyable.
  - apply below_4; on_space.
  - exists s'. split; [exact Hr|]. split; [exact Hi|].
    specialize (Hb 0 Hin). rewrite Z.add_0_r in Hb. rewrite Hb. on_space.
Defined.
