(* ===== verification/Spawn.v ===== *)
(** * Starting a program (user/lib/spawn.c)

    [elfbuf] and [tfbuf] are the addresses of the locals of those names on the
    stack; the header of the image stays in [elfbuf], into which the program
    headers are read, so the loop reads its bounds from there at every turn. *)
From S2P Require Import Prelude Queue Mmu Pmap UserMem Fs Serv Elf Env Sched Syscall Traps.
From S2P Require Import Print Stdio Pipe User Fd File Devs.

(** Bytes of the running environment's memory as an image. *)
Fixpoint load_bytes (n : nat) (va : Z) : KM (list Z) :=
  match n with
  | O => ret []
  | S n => let! b := loadb va in let! l := load_bytes n (va + 1) in ret (b :: l)
  end.
Definition image_at (va n : Z) : KM (Z -> Z) :=
  let! l := load_bytes (Z.to_nat n) va in ret (fun o => nth (Z.to_nat o) l 0).

Section Spawn.
Context `{Board} (fsipcbuf : Z) (rpc : Z -> Z -> Z -> KM (Z * Z)) (elfbuf tfbuf : Z).

Abbreviation close := (Fd.close (devtab fsipcbuf rpc)).
Abbreviation readn := (Fd.readn (devtab fsipcbuf rpc)).

(** The strings, each followed by its terminator. *)
Definition arg_bytes (argv : list (list Z)) : list Z := argv ≫= (fun s => s ++ [0]).

(** [args[0], ..., args[argc - 1]] for strings placed from [ctemp] on, and the
    address after the last. *)
Fixpoint arg_pointers (argv : list (list Z)) (ctemp : Z) : list Z * Z :=
  match argv with
  | [] => ([], ctemp)
  | s :: argv =>
      let '(l, c) := arg_pointers argv (u32 (ctemp + Z.of_nat (length s) + 1)) in (ctemp :: l, c)
  end.

Definition store_bytes (va : Z) (l : list Z) : KM unit :=
  forM (zip (seqZ 0 (Z.of_nat (length l))) l) (fun p => storeb (va + fst p) (snd p)).
Definition store_words (va : Z) (l : list Z) : KM unit :=
  forM (zip (seqZ 0 (Z.of_nat (length l))) l) (fun p => store (va + 4 * fst p) (snd p)).

(** [init_stack(child, argv, init_sp)] *)
Definition init_stack (child : Z) (argv : list (list Z)) : KM (result Z) :=
  let argc := Z.of_nat (length argv) in
  let tot := Z.of_nat (length (arg_bytes argv)) in
  if BY2PG <? u32 (ROUND tot 4 + 4 * (argc + 3)) then ret (Err (- E_NO_MEM))
  else
    let strings := UTEMP + BY2PG - tot in
    let args := UTEMP + BY2PG - ROUND tot 4 - 4 * (argc + 1) in
    let delta := USTACKTOP - UTEMP - BY2PG in
    let! r := syscall_mem_alloc 0 UTEMP PTE_W in
    if r <? 0 then ret (Err r)
    else
      store_bytes strings (arg_bytes argv) ;!
      let '(ptrs, ctemp) := arg_pointers argv (u32 (delta + strings)) in
      store_words args ptrs ;!
      store (args + 4 * argc) (u32 (ctemp - 1)) ;!
      store (args - 4) (u32 (delta + args)) ;!
      store (args - 8) argc ;!
      let init_sp := u32 (delta + (args - 8)) in
      let error (r : Z) : KM (result Z) := syscall_mem_unmap 0 UTEMP ;! ret (Err r) in
      let! r := syscall_mem_map 0 UTEMP child (u32 (USTACKTOP - BY2PG)) PTE_W in
      if r <? 0 then error r
      else
        let! r := syscall_mem_unmap 0 UTEMP in
        if r <? 0 then error r else ret (OK init_sp).

Definition spawn_mapper (child_id : Z) : elf_mapper_t kst := fun va offset perm src len =>
  let! r := syscall_mem_alloc child_id va perm in
  if negb (r =? 0) then ret r
  else
    match src with
    | None => ret 0
    | Some src =>
        let! r := syscall_mem_map child_id va 0 UTEMP (Z.lor perm PTE_W) in
        if negb (r =? 0) then syscall_mem_unmap child_id va ;! ret r
        else
          user_memcpy (UTEMP + offset) src len ;!
          syscall_mem_unmap 0 UTEMP
    end.

(** The loop over the program headers, [k] of them done; [OK tt] or the [r] of
    a [goto err1]. *)
Fixpoint load_segments (n : nat) (fd child ph_off k : Z) : KM (result unit) :=
  match n with
  | O => fault
  | S n =>
      let! b := image_at elfbuf SIZEOF_EHDR in
      let ehdr := ehdr_at b in
      if e_phnum ehdr <=? k then ret (OK tt)
      else
        let! r := seek fd ph_off in
        if r <? 0 then ret (Err r)
        else
          let! r := readn fd elfbuf (e_phentsize ehdr) in
          if negb (r =? e_phentsize ehdr) then
            ret (Err (if 0 <=? r then - E_NOT_EXEC else r))
          else
            let! b := image_at elfbuf SIZEOF_EHDR in
            let ph := phdr_at b 0 in
            let next := load_segments n fd child (u32 (ph_off + e_phentsize (ehdr_at b))) (k + 1) in
            if p_type ph =? PT_LOAD then
              let! m := read_map fd (p_offset ph) in
              match m with
              | Err r => ret (Err r)
              | OK bin =>
                  let! r := elf_load_seg (spawn_mapper child) ph bin in
                  if negb (r =? 0) then ret (Err r) else next
              end
            else next
  end.

(** One page of the loop that shares library pages: 0 or a negative error. *)
Definition share_page (child pn : Z) : KM Z :=
  let! pte := vpt pn in
  let perm := Z.land pte (Z.shiftl 1 PGSHIFT - 1) in
  if truthy (Z.land perm PTE_V) && truthy (Z.land perm PTE_LIBRARY) then
    let va := u32 (Z.shiftl pn PGSHIFT) in
    let! r := syscall_mem_map 0 va child va perm in
    if r <? 0 then
      user_debugf (chars "spawn: syscall_mem_map %x %x: %d" ++ newline)
        [VInt va; VInt child; VInt r] ;!
      ret r
    else ret 0
  else ret 0.

Definition share_library (child : Z) : KM Z :=
  for_each (seqZ 0 (PDX USTACKTOP + 1)) (fun pdeno =>
    let! pde := vpd pdeno in
    if negb (truthy (Z.land pde PTE_V)) then ret 0
    else for_each (seqZ 0 (PTX (not32 0) + 1)) (fun pteno =>
      share_page child (Z.shiftl pdeno 10 + pteno))).

Definition spawn (prog : list Z) (argv : list (list Z)) : KM Z :=
  let! fd := open fsipcbuf rpc prog O_RDONLY in
  if fd <? 0 then ret fd
  else
    let err (r : Z) : KM Z := close fd ;! ret r in
    let! r := readn fd elfbuf SIZEOF_EHDR in
    if negb (r =? SIZEOF_EHDR) then err (if 0 <=? r then - E_NOT_EXEC else r)
    else
      let! b := image_at elfbuf SIZEOF_EHDR in
      match elf_from b SIZEOF_EHDR with
      | None => err (- E_NOT_EXEC)
      | Some ehdr =>
          let entrypoint := e_entry ehdr in
          let! r := syscall_exofork in
          (* [child] is unsigned: the test for a negative result never holds *)
          let child := u32 r in
          let err1 (r : Z) : KM Z := syscall_env_destroy child ;! err r in
          let err2 (r : Z) : KM Z := syscall_env_destroy child ;! ret r in
          let! s := init_stack child argv in
          match s with
          | Err r => err1 r
          | OK sp =>
              let! l := load_segments (S (Z.to_nat (e_phnum ehdr))) fd child (e_phoff ehdr) 0 in
              match l with
              | Err r => err1 r
              | OK _ =>
                  close fd ;!
                  let! e := envs_at (ENVX child) in
                  let tf := set_reg 2 sp (set_epc entrypoint (env_tf e)) in
                  kpm (write_words tfbuf (words_of_tf tf)) ;!
                  let! r := syscall_set_trapframe child tfbuf in
                  if negb (r =? 0) then err2 r
                  else
                    let! r := share_library child in
                    if r <? 0 then err2 r
                    else
                      let! r := syscall_set_env_status child ENV_RUNNABLE in
                      if r <? 0 then
                        user_debugf (chars "spawn: syscall_set_env_status %x: %d" ++ newline)
                          [VInt child; VInt r] ;!
                        err2 r
                      else ret (s32 child)
              end
          end
      end.

(** [spawnl(prog, arg0, ..., 0)]: at most seven arguments fit [arg_stack]. *)
Definition spawnl (prog : list Z) (args : list (list Z)) : KM Z :=
  if (length args <=? 7)%nat then spawn prog args else fault.
End Spawn.
