(* ===== verification/SpawnProps.v ===== *)
(** * The first stack of a spawned program

    [init_stack] builds in a page of its own what the child finds at its stack
    pointer, and moves the page into the child.  The contents of a page are a
    function from offsets to bytes; [patch] is a store of several bytes. *)
From S2P Require Import Prelude Queue Mmu Pmap PmapFacts PmapInv PmapSpec PmapFrame PmapBoot PmapProps.
From S2P Require Import UserMem Fs Serv Elf Env EnvFree Sched EnvFacts EnvProps LoadProps Syscall SyscallProps.
From S2P Require Import Traps Print Stdio Pipe User UserFacts Fork ForkProps Fd File Devs Spawn.

(** ** Contents of a page *)
Definition page_bytes (s : pmst) (p : Z) : Z -> Z := fun x => mem_byte (mem s) (page2pa p + x).
Definition patch (b : Z -> Z) (off : Z) (l : list Z) : Z -> Z := fun x =>
  if (off <=? x) && (x <? off + Z.of_nat (length l)) then nth (Z.to_nat (x - off)) l 0 else b x.
Definition word_bytes (v : Z) : list Z := word_byte v <$> [0; 1; 2; 3].
Definition words_bytes (l : list Z) : list Z := l ≫= word_bytes.

Lemma patch_out b off l x : x < off \/ off + Z.of_nat (length l) <= x -> patch b off l x = b x.
Proof.
  intros H. unfold patch. destruct (Z.leb_spec off x), (Z.ltb_spec x (off + Z.of_nat (length l)));
    cbn [andb]; done || lia.
Qed.

Lemma patch_in b off l j : (j < length l)%nat -> patch b off l (off + Z.of_nat j) = nth j l 0.
Proof.
  intros H. unfold patch. destruct (Z.leb_spec off (off + Z.of_nat j)); [|lia].
  destruct (Z.ltb_spec (off + Z.of_nat j) (off + Z.of_nat (length l))); [|lia]. cbn [andb].
  by replace (Z.to_nat (off + Z.of_nat j - off)) with j by lia.
Qed.

Lemma patch_nil b off x : patch b off [] x = b x.
Proof. apply patch_out. cbn. lia. Qed.

(** One store after another, at the following address. *)
Lemma patch_app b off l l' x :
  patch (patch b off l) (off + Z.of_nat (length l)) l' x = patch b off (l ++ l') x.
Proof.
  destruct (decide (off <= x < off + Z.of_nat (length (l ++ l')))) as [Hin|].
  2: { rewrite length_app in *. by rewrite !patch_out by (rewrite ?length_app; lia). }
  replace x with (off + Z.of_nat (Z.to_nat (x - off))) by lia. set (j := Z.to_nat (x - off)).
  rewrite (patch_in _ _ (l ++ l')) by lia. rewrite length_app in Hin.
  destruct (decide (j < length l)%nat) as [Hj|Hj].
  - rewrite patch_out by lia. by rewrite patch_in, app_nth1.
  - rewrite app_nth2 by lia.
    replace (off + Z.of_nat j) with (off + Z.of_nat (length l) + Z.of_nat (j - length l)) by lia.
    by rewrite patch_in by lia.
Qed.

Lemma length_words_bytes l : length (words_bytes l) = (4 * length l)%nat.
Proof. induction l as [|v l IH]; [done|]. unfold words_bytes in *. cbn [mbind list_bind]. rewrite length_app, IH. cbn. lia. Qed.

Lemma words_bytes_nth l i v j : l !! i = Some v -> (j < 4)%nat ->
  nth (4 * i + j) (words_bytes l) 0 = word_byte v (Z.of_nat j).
Proof.
  revert i. induction l as [|w l IH]; intros [|i] Hl Hj; try done; unfold words_bytes in *; cbn [mbind list_bind].
  - injection Hl as ->. rewrite app_nth1 by done. by destruct j as [|[|[|[|j]]]]; try lia.
  - rewrite app_nth2 by (cbn; lia). rewrite <- (IH i) by done. f_equal. cbn. lia.
Qed.

(** The word a page holds at an offset. *)
Definition word_in (b : Z -> Z) (x : Z) : Z := bytes_word (fun j => b (x + j)).

Lemma patch_word b off l i v : l !! i = Some v ->
  word_in (patch b off (words_bytes l)) (off + 4 * Z.of_nat i) = u32 v.
Proof.
  intros Hl. unfold word_in. rewrite <- bytes_word_bytes. apply bytes_word_cong. intros j Hj.
  apply lookup_lt_Some in Hl as Hi.
  replace (off + 4 * Z.of_nat i + j) with (off + Z.of_nat (4 * i + Z.to_nat j)) by lia.
  rewrite patch_in by (rewrite length_words_bytes; lia).
  rewrite (words_bytes_nth l i v) by (done || lia). by rewrite Z2Nat.id by lia.
Qed.

(** ** Storing into one page *)
Lemma page_address base off : base mod BY2PG = 0 -> 0 <= base -> base + BY2PG <= UTOP -> 0 <= off < BY2PG ->
  0 <= base + off < UTOP /\ (base + off) mod BY2PG = off /\ (base + off) / BY2PG = base / BY2PG.
Proof. change UTOP with 0x7f400000 in *. unfold BY2PG. intros. Z.div_mod_to_equations. lia. Qed.

Section Stores.
Context (boot : Z -> Z) (D fl : list Z) (d : Z) (Hd : d ∈ D).
Context (base p : Z) (Hbase : base mod BY2PG = 0) (Hlo : 0 <= base) (Hhi : base + BY2PG <= UTOP).
Abbreviation installed := (installed boot D fl d).
Abbreviation page_update := (page_update boot D fl).

Lemma page_update_refl s : installed s -> page_update s p (page_bytes s p) s.
Proof using. intros [I _ _]. split; try done. exists (mem s). by destruct s. Qed.

Lemma accessible_in_page s off perm : 0 <= off < BY2PG -> accessible s d base p perm ->
  accessible s d (base + off) p perm.
Proof using Hbase Hlo Hhi.
  intros Ho (e & He & H). exists e. split; [|done]. rewrite <- He.
  destruct (page_address base off Hbase Hlo Hhi Ho) as (Hu & _ & Hq).
  destruct (page_address base 0 Hbase Hlo Hhi ltac:(done)) as (Hu0 & _). rewrite Z.add_0_r in Hu0.
  by apply same_page_entry; [apply user_range..|].
Qed.

Lemma storeb_page k off v : installed (pm k) -> accessible (pm k) d base p PTE_W ->
  0 <= off < BY2PG -> 0 <= v < 2 ^ 8 ->
  exists s', storeb (base + off) v k = Ret tt (set_pm s' k) /\
    page_update (pm k) p (patch (page_bytes (pm k) p) off [v]) s'.
Proof using Hd Hbase Hlo Hhi.
  intros Hs Ha Ho Hv. destruct (page_address base off Hbase Hlo Hhi Ho) as (Hu & Hm & _).
  destruct (user_sb_run boot D fl d Hd (pm k) (base + off) v p Hs Hu) as (s' & Hr & U);
    [by apply accessible_in_page|].
  exists s'. split; [by apply kpm_ret|]. rewrite Hm in U.
  replace (Z.land v 0xFF) with v in U.
  2: { change 0xFF with (Z.ones 8). by rewrite Z.land_ones, Z.mod_small. }
  eapply pu_ext; [|exact U]. intros x _. unfold put_byte.
  destruct (Z.eqb_spec x off) as [->|Hne].
  - rewrite <- (Z.add_0_r off) at 2. by rewrite (patch_in _ off [v] 0) by (cbn; clear; lia).
  - rewrite patch_out; [done|]. cbn [length]. clear -Hne. lia.
Qed.

Lemma storew_page k off v : installed (pm k) -> accessible (pm k) d base p PTE_W ->
  0 <= off -> off + 4 <= BY2PG -> off mod 4 = 0 ->
  exists s', store (base + off) v k = Ret tt (set_pm s' k) /\
    page_update (pm k) p (patch (page_bytes (pm k) p) off (word_bytes v)) s'.
Proof using Hd Hbase Hlo Hhi.
  intros Hs Ha Ho Hl H4. assert (Ho' : 0 <= off < BY2PG) by (clear -Ho Hl; lia).
  destruct (page_address base off Hbase Hlo Hhi Ho') as (Hu & Hm & _).
  assert (Hw : (base + off) mod 4 = 0).
  { clear -Hbase H4. unfold BY2PG in *. Z.div_mod_to_equations. lia. }
  destruct (user_sw_run boot D fl d Hd (pm k) (base + off) v p Hs Hu Hw) as (s' & Hr & U);
    [by apply accessible_in_page|].
  exists s'. split; [by apply kpm_ret|]. rewrite Hm in U.
  eapply pu_ext; [|exact U]. intros x _. unfold put_word, patch.
  change (off + Z.of_nat (length (word_bytes v))) with (off + 4).
  destruct (Z.leb_spec off x), (Z.ltb_spec x (off + 4)); cbn [andb]; try done.
  assert (Hx : x - off = 0 \/ x - off = 1 \/ x - off = 2 \/ x - off = 3) by (clear -H H0; lia).
  by destruct Hx as [-> | [-> | [-> | ->]]].
Qed.

(** A loop of stores, each of [f x] bytes, at increasing addresses. *)
Lemma patch_cong b b' off l x : (forall y, 0 <= y < BY2PG -> b y = b' y) -> 0 <= x < BY2PG ->
  patch b off l x = patch b' off l x.
Proof using. intros H Hx. unfold patch. case_match; [done|]. by apply H. Qed.

Lemma stores_run (w : Z) (bytes : Z -> list Z) (body : Z -> Z -> KM unit) (ok : Z -> Prop) :
  (forall v, Z.of_nat (length (bytes v)) = w) -> 0 < w -> (w | BY2PG) ->
  (forall k off v, installed (pm k) -> accessible (pm k) d base p PTE_W -> 0 <= off ->
     off + w <= BY2PG -> (w | off) -> ok v ->
     exists s', body (base + off) v k = Ret tt (set_pm s' k) /\
       page_update (pm k) p (patch (page_bytes (pm k) p) off (bytes v)) s') ->
  forall l i off k, Forall ok l -> installed (pm k) -> accessible (pm k) d base p PTE_W -> 0 <= i -> 0 <= off ->
  (w | off) -> off + w * (i + Z.of_nat (length l)) <= BY2PG ->
  exists s', forM (zip (seqZ i (Z.of_nat (length l))) l) (fun q => body (base + off + w * fst q) (snd q)) k =
      Ret tt (set_pm s' k) /\
    page_update (pm k) p (patch (page_bytes (pm k) p) (off + w * i) (l ≫= bytes)) s'.
Proof using Hd Hbase Hlo Hhi.
  intros Hlen Hw Hdiv Hbody. induction l as [|v l IH]; intros i off k Hok Hs Ha Hi Ho Hwo Hl.
  - exists (pm k). cbn. split; [by destruct k|]. eapply pu_ext; [|by apply page_update_refl].
    intros x _. by rewrite patch_nil.
  - inversion_clear Hok as [|?? Hv Hok']. cbn [length] in Hl |- *.
    rewrite (seqZ_cons i) by (clear; lia). cbn [zip zip_with forM fst snd].
    replace (Z.pred (Z.of_nat (S (length l)))) with (Z.of_nat (length l)) by (clear; lia).
    destruct (Hbody k (off + w * i) v Hs Ha) as (s1 & Hr1 & U1); [clear -Hi Ho Hw; nia| | |done|].
    { clear -Hl Hw. nia. }
    { apply Z.divide_add_r; [done|apply Z.divide_factor_l]. }
    rewrite Z.add_assoc in Hr1. rewrite (bind_step _ _ _ _ _ Hr1).
    destruct (IH (Z.succ i) off (set_pm s1 k)) as (s2 & Hr2 & U2); try done.
    { exact (pu_installed _ _ _ _ _ _ _ _ Hs U1). }
    { eapply (pu_accessible boot D fl); [done|exact U1| |done].
      pose proof (page_address base 0 Hbase Hlo Hhi ltac:(done)) as [Hu _]. by rewrite Z.add_0_r in Hu. }
    { clear -Hi. lia. }
    { clear -Hl. nia. }
    exists s2. split; [by rewrite Hr2; destruct k|]. cbn [pm set_pm] in U2.
    eapply pu_ext; [|exact (pu_trans _ _ _ _ _ _ _ _ _ U1 U2)]. intros x Hx. cbn [mbind list_bind].
    rewrite <- patch_app, Hlen. replace (off + w * Z.succ i) with (off + w * i + w) by (clear; lia).
    apply patch_cong; [|done]. intros y Hy. apply (pu_bytes _ _ _ _ _ _ _ U1). done.
Qed.

Lemma store_bytes_page k off l : installed (pm k) -> accessible (pm k) d base p PTE_W ->
  0 <= off -> off + Z.of_nat (length l) <= BY2PG -> Forall (fun v => 0 <= v < 2 ^ 8) l ->
  exists s', store_bytes (base + off) l k = Ret tt (set_pm s' k) /\
    page_update (pm k) p (patch (page_bytes (pm k) p) off l) s'.
Proof using Hd Hbase Hlo Hhi.
  intros Hs Ha Ho Hl Hok.
  destruct (stores_run 1 (fun v => [v]) storeb (fun v => 0 <= v < 2 ^ 8) ltac:(done) ltac:(done)
    ltac:(apply Z.divide_1_l)) with (l := l) (i := 0) (off := off) (k := k) as (s' & Hr & U); try done.
  - intros k' off' v Hs' Ha' Ho' Hl' _ Hv. apply storeb_page; try done. clear -Ho' Hl'. lia.
  - apply Z.divide_1_l.
  - clear -Hl. lia.
  - exists s'. split.
    + rewrite <- Hr. unfold store_bytes. apply forM_ext, Forall_true. intros q s. by rewrite Z.mul_1_l.
    + eapply pu_ext; [|exact U]. intros x _. rewrite Z.add_0_r. f_equal.
      clear. induction l as [|v l IH]; [done|]. cbn. by rewrite IH.
Qed.

Lemma store_words_page k off l : installed (pm k) -> accessible (pm k) d base p PTE_W ->
  0 <= off -> off mod 4 = 0 -> off + 4 * Z.of_nat (length l) <= BY2PG ->
  exists s', store_words (base + off) l k = Ret tt (set_pm s' k) /\
    page_update (pm k) p (patch (page_bytes (pm k) p) off (words_bytes l)) s'.
Proof using Hd Hbase Hlo Hhi.
  intros Hs Ha Ho H4 Hl.
  destruct (stores_run 4 word_bytes store (fun _ => True)) with (l := l) (i := 0) (off := off) (k := k)
    as (s' & Hr & U); try done.
  - by exists 1024.
  - intros k' off' v Hs' Ha' Ho' Hl' Hd' _. apply storew_page; try done. by apply Z.mod_divide.
  - by apply Forall_true.
  - by apply Z.mod_divide.
  - exists s'. split; [exact Hr|]. by rewrite Z.mul_0_r, Z.add_0_r in U.
Qed.

(** The same, for a page with the content [b]. *)
Definition page_has (s0 : pmst) (b : Z -> Z) (k : kst) : Prop :=
  installed (pm k) /\ accessible (pm k) d base p PTE_W /\ page_update s0 p b (pm k).

Lemma page_has_start k : installed (pm k) -> accessible (pm k) d base p PTE_W ->
  page_has (pm k) (page_bytes (pm k) p) k.
Proof using. intros Hs Ha. split_and!; [done..|]. by apply page_update_refl. Qed.

Lemma page_has_step s0 b k (m : KM unit) off l : page_has s0 b k ->
  (exists s', m k = Ret tt (set_pm s' k) /\ page_update (pm k) p (patch (page_bytes (pm k) p) off l) s') ->
  exists s', m k = Ret tt (set_pm s' k) /\ page_has s0 (patch b off l) (set_pm s' k).
Proof using Hd Hbase Hlo Hhi.
  intros (Hs & Ha & U0) (s' & Hr & U). exists s'. split; [done|]. cbn [pm set_pm]. split_and!.
  - exact (pu_installed _ _ _ _ _ _ _ _ Hs U).
  - eapply (pu_accessible boot D fl); [done|exact U| |done].
    destruct (page_address base 0 Hbase Hlo Hhi ltac:(done)) as (Hu & _). by rewrite Z.add_0_r in Hu.
  - eapply pu_ext; [|exact (pu_trans _ _ _ _ _ _ _ _ _ U0 U)]. intros x Hx. apply patch_cong; [|done].
    intros y Hy. by apply (pu_bytes _ _ _ _ _ _ _ U0).
Qed.

Lemma store_has s0 b k off v : page_has s0 b k -> 0 <= off -> off + 4 <= BY2PG -> off mod 4 = 0 ->
  exists s', store (base + off) v k = Ret tt (set_pm s' k) /\
    page_has s0 (patch b off (word_bytes v)) (set_pm s' k).
Proof using Hd Hbase Hlo Hhi. 
  intros P ???. apply page_has_step; [done|]. destruct P as (Hs & Ha & _). by apply storew_page.
Qed.
End Stores.

(** ** The system calls, on addresses that are not mapped *)
Section Calls.
Context `{Board} (boot : Z -> Z) (Hb : forall p, 0 <= boot p) (D fl : list Z) (k : kst) (c : Z).
Context (I : pm_inv boot D fl (pm k)) (Hc : curenv k = Some c).

(** What every call keeps of the processor. *)
Definition same_satp (s s' : pmst) : Prop :=
  cur_pgdir s' = cur_pgdir s /\ csr_satp s' = csr_satp s /\ npage s' = npage s.
Definition same_entries (s s' : pmst) : Prop :=
  forall d' va', d' ∈ D -> PDX va' < NUPDE -> entry s' d' va' = entry s d' va'.

Lemma mem_alloc_unmapped envid e d va perm :
  target k envid true = Some e -> d ∈ D -> env_pgdir (envs k e) = page2pa d ->
  is_illegal_va va = false -> 0 <= perm < 1024 -> entry (pm k) d va = None ->
  (exists p s' fl', syscall_mem_alloc envid va perm k = Ret 0 (set_pm s' k) /\
    pm_inv boot D fl' s' /\ mapped_as s' d va p (Z.lor perm PTE_U) /\ others_same (pm k) s' D d va /\
    pp_ref s' p = 1 /\ (length fl <= S (S (length fl')))%nat /\ same_satp (pm k) s') \/
  ((length fl <= 1)%nat /\ exists s' fl', syscall_mem_alloc envid va perm k = Ret (- E_NO_MEM) (set_pm s' k) /\
    pm_inv boot D fl' s' /\ same_entries (pm k) s' /\ same_satp (pm k) s').
Proof using Hb I Hc.
  intros Ht Hd Hpg Hill Hperm He. pose proof (legal_user _ Hill) as Hva.
  destruct (user_PDX va Hva) as [Hx Hul].
  assert (Hrun : forall r s', (tryz! pp := page_alloc in page_insert (page2pa d) (env_asid (envs k e)) pp va
              (Z.lor perm PTE_U)) (pm k) = Ret r s' ->
            syscall_mem_alloc envid va perm k = Ret (s32 r) (set_pm s' k)).
  { intros r s' Hr. apply (sys_mem_alloc_run k c envid va perm e d) in Hr; try done.
    unfold syscall_mem_alloc, msyscall.
    change (syscall_table board_read board_void SYS_mem_alloc envid va perm 0 0) with (sys_mem_alloc envid va perm).
    by rewrite (bind_step _ _ _ _ _ Hr). }
  unfold try_z in Hrun. destruct fl as [|p fl1].
  { right. split; [cbn; lia|]. exists (pm k), []. split; [|by split_and!]. apply (Hrun (- E_NO_MEM)).
    by rewrite (bind_step _ _ _ _ _ (page_alloc_empty _ (inv_free _ _ _ _ I))). }
  destruct (page_alloc_cons _ _ _ (inv_free _ _ _ _ I)) as (q & Hq & Hal).
  destruct (fresh_mappable _ _ _ _ _ _ I Hb Hal) as (fl1' & [= <-] & I1 & Hm & Hr).
  pose proof (alloc_view boot D p fl1 (pm k) q I Hb Hq) as Hv. cbv zeta in Hv.
  pose proof (stays_page_alloc _ _ _ Hal) as Hst.
  assert (Hp0 : pp_ref (pm k) p = 0) by (apply (inv_free_ref _ _ _ _ I), elem_of_cons; by left).
  set (s1 := set_mem _ _) in *.
  destruct (insert_unmapped_any boot D d va Hb Hd Hx fl1 s1 (env_asid (envs k e)) p (Z.lor perm PTE_U) I1 Hul)
    as [(s' & fl' & Hi & I' & Hmap & Ho & _ & Href & Hl)|[Hi ->]];
    [by rewrite Hv|done|by apply user_perm|left|right].
  - exists p, s', fl'. split; [apply (Hrun 0); by rewrite (bind_step _ _ _ _ _ Hal)|].
    pose proof (stays_page_insert _ _ _ _ _ _ _ _ Hi) as (? & ? & ?).
    destruct Hst as (? & ? & ?).
    split_and!; try done; try congruence; [|by rewrite Href, Hr, Hp0|cbn; lia].
    intros d' va' Hd' Hva' Hns. by rewrite Ho, Hv.
  - split; [cbn; lia|]. exists s1, []. split; [apply (Hrun (- E_NO_MEM)); by rewrite (bind_step _ _ _ _ _ Hal)|].
    split_and!; try done; apply Hst.
Qed.

(** Unmapping writes to one table entry only. *)
Lemma mem_unmap_run envid e d va :
  target k envid true = Some e -> d ∈ D -> env_pgdir (envs k e) = page2pa d -> is_illegal_va va = false ->
  exists s' fl', syscall_mem_unmap envid va k = Ret 0 (set_pm s' k) /\ pm_inv boot D fl' s' /\
    entry s' d va = None /\ others_same (pm k) s' D d va /\ same_satp (pm k) s' /\
    forall r j, outside D fl (pm k) r j -> mem s' (page2pa r + 4 * j) = mem (pm k) (page2pa r + 4 * j).
Proof using Hb I Hc.
  intros Ht Hd Hpg Hill. pose proof (legal_user _ Hill) as Hva. destruct (user_PDX va Hva) as [Hx _].
  destruct (page_remove_inv boot D fl (pm k) d va (env_asid (envs k e)) I Hb Hd Hx)
    as (s' & fl' & Hrun & I' & He & Ho & _ & Ht' & Hn & _).
  exists s', fl'. split_and!; try done.
  - unfold syscall_mem_unmap, msyscall.
    change (syscall_table board_read board_void SYS_mem_unmap envid va 0 0 0) with (sys_mem_unmap envid va).
    assert (Hr : sys_mem_unmap envid va k = Ret 0 (set_pm s' k)); [|by rewrite (bind_step _ _ _ _ _ Hr)].
    unfold sys_mem_unmap. rewrite Hill. unfold try_z. rewrite (envid2env_step _ _ _ _ _ _ Hc Ht).
    rewrite (bind_step _ _ _ _ _ (deref_run _ _)), (bind_step _ _ _ _ _ (eq_refl : get k = Ret k k)), Hpg.
    by rewrite (bind_step _ _ _ _ _ (kpm_ret _ _ _ _ Hrun)).
  - apply (stays_page_remove _ _ _ _ _ _ Hrun).
  - intros r j Hout. unfold page_remove in Hrun.
    rewrite (bind_step _ _ _ _ _ (lookup_ok _ _ _ _ I d va Hd Hx)) in Hrun.
    destruct (pte_addr (pm k) d va) as [a|] eqn:Ha; [|by injection Hrun as <-].
    destruct (valid (mem (pm k) a)) eqn:Hv; [|by injection Hrun as <-].
    assert (Hent : entry (pm k) d va = Some (mem (pm k) a)) by (unfold entry; by rewrite Ha, Hv).
    destruct (mapped_ref _ _ _ _ I d va _ Hd Hx Hb Hent) as [Hr1 Hf1].
    destruct (entry_mapped _ _ _ _ I d va _ Hd Hx Hent) as (_ & _ & _ & _ & _ & Hp1 & _).
    apply bind_inv in Hrun as (u & s1 & Hdec & Hrun). apply bind_inv in Hrun as (u' & s2 & Hst & Htl).
    injection Htl as <-. cbn [mem set_tlb_log].
    assert (Hm1 : mem s1 = mem (pm k)).
    { destruct (page_decref_inv _ _ _ _ _ I Hf1 Hp1 Hr1) as (s3 & fl3 & Hd3 & _ & _ & Hm3 & _).
      rewrite Hdec in Hd3. by injection Hd3 as _ ->. }
    unfold st in Hst. destruct (in_ram s1 a); [|done]. injection Hst as _ <-. cbn [mem set_mem]. rewrite Hm1.
    apply upd_other. apply (slot_not_outside boot D fl (pm k)); [done| |done].
    by apply (pte_addr_slot _ _ _ _ I d va).
Qed.
End Calls.

(** ** Moving a page from one address space to another *)
Section Move.
Context `{Board} (boot : Z -> Z) (Hb : forall p, 0 <= boot p) (D fl : list Z) (k : kst) (c : Z).
Context (I : pm_inv boot D fl (pm k)) (Hc : curenv k = Some c).
Context (d dc child ch : Z) (Hd : d ∈ D) (Hdc : dc ∈ D) (Hne : d <> dc).
Context (Hpg : env_pgdir (envs k c) = page2pa d).
Context (Hch : target k child true = Some ch) (Hpgc : env_pgdir (envs k ch) = page2pa dc).

Lemma page_bytes_outside fl' s' p x : is_page (pm k) p -> p ∉ fl -> p ∉ D ++ tables (pm k) D ->
  0 <= x < BY2PG -> evolves D fl (pm k) D fl' s' -> page_bytes s' p x = page_bytes (pm k) p x.
Proof using I.
  intros Hp Hf [HD HT]%not_elem_of_app Hx E. unfold page_bytes. pose proof (inv_ram _ _ _ _ I) as Hram.
  rewrite !(mem_byte_page (pm k)) by done. f_equal. apply (ev_mem _ _ _ _ _ _ E).
  split_and!; try done; unfold BY2PG in Hx; clear -Hx; Z.div_mod_to_equations; lia.
Qed.

Definition moved (va va' p perm : Z) (s' : pmst) : Prop :=
  entry s' d va = None /\ mapped_as s' dc va' p perm /\
  (forall d' v, d' ∈ D -> PDX v < NUPDE -> ~ same_slot d va d' v -> ~ same_slot dc va' d' v ->
     entry s' d' v = entry (pm k) d' v) /\
  (forall x, 0 <= x < BY2PG -> page_bytes s' p x = page_bytes (pm k) p x).

Lemma move_page va va' p e perm (x : Z) :
  is_illegal_va va = false -> is_illegal_va va' = false -> 0 <= perm < 1024 ->
  entry (pm k) d va = Some e -> epage e = p -> entry (pm k) dc va' = None -> pp_ref (pm k) p < 2 ^ 16 - 1 ->
  let m := let error (r : Z) : KM (result Z) := syscall_mem_unmap 0 va ;! ret (Err r) in
    let! r := syscall_mem_map 0 va child va' perm in
    if r <? 0 then error r
    else let! r := syscall_mem_unmap 0 va in if r <? 0 then error r else ret (OK x) in
  (exists s' fl', m k = Ret (OK x) (set_pm s' k) /\ pm_inv boot D fl' s' /\
     moved va va' p (Z.lor perm PTE_U) s' /\ same_satp (pm k) s') \/
  (fl = [] /\ exists s' fl', m k = Ret (Err (- E_NO_MEM)) (set_pm s' k) /\ pm_inv boot D fl' s' /\
     entry s' d va = None /\ others_same (pm k) s' D d va).
Proof using Hb I Hc Hd Hdc Hne Hpg Hch Hpgc.
  intros Hill Hill' Hperm He <- He' Hr m. set (p := epage e).
  pose proof (legal_user _ Hill) as Hva. destruct (user_PDX _ Hva) as [Hx _].
  pose proof (legal_user _ Hill') as Hva'. destruct (user_PDX _ Hva') as [Hx' Hul'].
  destruct (entry_mapped _ _ _ _ I d va e Hd Hx He) as (_ & _ & _ & _ & _ & Hp & Hu).
  destruct (mapped_ref _ _ _ _ I d va e Hd Hx Hb He) as [_ Hf].
  assert (Hmp : mappable D fl (pm k) p) by done.
  destruct (insert_unmapped_any boot D dc va' Hb Hdc Hx' fl (pm k) (env_asid (envs k ch)) p (Z.lor perm PTE_U)
    I Hul' He' Hmp (user_perm _ Hperm))
    as [(s1 & fl1 & Hi & I1 & Hmap & Ho & E & _ & _)|[Hi ->]]; [left|right; split; [done|]].
  - pose proof (mem_map_run boot D fl k c I Hc 0 va child va' perm c ch d dc e _ _ Hill Hill' Hc Hch Hd Hpg Hpgc
      He Hi) as Hrun.
    pose proof (stays_page_insert _ _ _ _ _ _ _ _ Hi) as Hst.
    destruct (mem_unmap_run boot Hb D fl1 (set_pm s1 k) c I1 Hc 0 c d va Hc Hd Hpg Hill)
      as (s2 & fl2 & Hun & I2 & Hnone & Ho2 & Hst2 & Hmem).
    exists s2, fl2. split.
    { unfold m. cbv zeta. rewrite (bind_step _ _ _ _ _ Hrun). change (s32 0 <? 0) with false. cbv iota.
      rewrite (bind_step _ _ _ _ _ Hun). by destruct k. }
    cbn [pm set_pm] in *. split_and!; try done.
    + split_and!; [done| | |].
      * destruct Hmap as (e1 & He1 & ? & ?). exists e1. split_and!; try done.
        rewrite <- He1. apply Ho2; [done|done|]. by intros [? _].
      * intros d' v Hd' Hv Hn1 Hn2. by rewrite Ho2, Ho.
      * intros y Hy. rewrite <- (page_bytes_outside fl1 s1 p y) by done. unfold page_bytes.
        assert (Hram1 := inv_ram _ _ _ _ I1).
        assert (Hp1 : is_page s1 p) by (unfold is_page; by rewrite (ev_npage _ _ _ _ _ _ E)).
        rewrite !(mem_byte_page s1) by done. f_equal. apply Hmem.
        apply not_elem_of_app in Hu as [HD HT].
        eapply evolves_outside; [exact E|]. split_and!; try done; unfold BY2PG in Hy; clear -Hy;
          Z.div_mod_to_equations; lia.
    + destruct Hst as (? & ? & ?), Hst2 as (? & ? & ?). split_and!; congruence.
  - pose proof (mem_map_run boot D [] k c I Hc 0 va child va' perm c ch d dc e _ _ Hill Hill' Hc Hch Hd Hpg Hpgc
      He Hi) as Hrun. rewrite set_pm_same in Hrun.
    destruct (mem_unmap_run boot Hb D [] k c I Hc 0 c d va Hc Hd Hpg Hill)
      as (s2 & fl2 & Hun & I2 & Hnone & Ho2 & _ & _).
    exists s2, fl2. split; [|done].
    unfold m. cbv zeta. rewrite (bind_step _ _ _ _ _ Hrun). change (s32 (- E_NO_MEM) <? 0) with true. cbv iota.
    by rewrite (bind_step _ _ _ _ _ Hun).
Qed.
End Move.

(** ** The argument vector *)

(** Where the strings lie, without wrap-around. *)
Fixpoint arg_addresses (argv : list (list Z)) (q : Z) : list Z :=
  match argv with
  | [] => []
  | s :: argv => q :: arg_addresses argv (q + Z.of_nat (length s) + 1)
  end.

Lemma arg_bytes_cons s argv : arg_bytes (s :: argv) = (s ++ [0]) ++ arg_bytes argv.
Proof. done. Qed.

Lemma arg_pointers_run argv : forall q, 0 <= q -> q + Z.of_nat (length (arg_bytes argv)) < 2 ^ 32 ->
  arg_pointers argv q = (arg_addresses argv q, q + Z.of_nat (length (arg_bytes argv))).
Proof.
  induction argv as [|s argv IH]; intros q Hq Hl; cbn [arg_pointers arg_addresses].
  - cbn. by rewrite Z.add_0_r.
  - rewrite arg_bytes_cons, !length_app in *. cbn [length] in *. rewrite u32_id, IH by lia. f_equal. lia.
Qed.

Lemma length_arg_addresses argv : forall q, length (arg_addresses argv q) = length argv.
Proof. induction argv as [|s argv IH]; intros q; [done|]. cbn. by rewrite IH. Qed.

Lemma arg_addresses_lookup argv i a : argv !! i = Some a -> forall q,
  arg_addresses argv q !! i = Some (q + Z.of_nat (length (arg_bytes (take i argv)))).
Proof.
  revert i. induction argv as [|s argv IH]; intros [|i] Hi q; try done; cbn [arg_addresses lookup list_lookup take].
  - f_equal. cbn. lia.
  - cbn in Hi. change (arg_bytes (s :: take i argv)) with ((s ++ [0]) ++ arg_bytes (take i argv)).
    rewrite IH by done. f_equal. rewrite !length_app. cbn. lia.
Qed.

(** The bytes of an argument among those of all. *)
Lemma arg_bytes_at argv i a j : argv !! i = Some a -> (j <= length a)%nat ->
  (length (arg_bytes (take i argv)) + length a < length (arg_bytes argv))%nat /\
  nth (length (arg_bytes (take i argv)) + j) (arg_bytes argv) 0 = nth j a 0.
Proof.
  intros Hi Hj.
  assert (Hs : arg_bytes argv = arg_bytes (take i argv) ++ (a ++ [0]) ++ arg_bytes (drop (S i) argv)).
  { rewrite <- (take_drop_middle argv i a Hi) at 1. unfold arg_bytes. by rewrite bind_app. }
  rewrite Hs, !length_app. cbn [length]. split; [lia|].
  rewrite app_nth2_plus, <- app_assoc. destruct (decide (j = length a)) as [->|].
  - rewrite app_nth2, Nat.sub_diag by lia. by rewrite (nth_overflow a) by lia.
  - by rewrite app_nth1 by lia.
Qed.

Lemma ROUND_4 t : 0 <= t -> t + 3 < 2 ^ 32 -> ROUND t 4 = (t + 3) / 4 * 4.
Proof.
  intros H0 H1. unfold ROUND. rewrite u32_id by lia. replace (t + 4 - 1) with (t + 3) by lia.
  change (not32 (4 - 1)) with (2 ^ 32 - 2 ^ 2). by rewrite land_high by lia.
Qed.

(** ** [init_stack] *)

(** The page the child has its stack in; its content at an address there. *)
Definition STACK_PAGE : Z := USTACKTOP - BY2PG.
Definition stack_byte (b : Z -> Z) (va : Z) : Z := b (va - STACK_PAGE).
Definition stack_word (b : Z -> Z) (va : Z) : Z := word_in b (va - STACK_PAGE).

(** What a program finds at its stack pointer: the number of its arguments, the
    address of [argv], and [argv] with the addresses of the strings, which lie
    above it, each with its terminator; the entry after the last is the
    address of the last terminator. *)
Record stack_frame (b : Z -> Z) (argv : list (list Z)) (sp : Z) : Prop := {
  sf_sp : STACK_PAGE <= sp /\ sp mod 4 = 0 /\ sp + 12 + 4 * Z.of_nat (length argv) <= USTACKTOP;
  sf_argc : stack_word b sp = Z.of_nat (length argv);
  sf_argv : stack_word b (sp + 4) = sp + 8;
  sf_end : stack_word b (sp + 8 + 4 * Z.of_nat (length argv)) = USTACKTOP - 1;
  sf_args : forall i a, argv !! i = Some a -> exists q,
    stack_word b (sp + 8 + 4 * Z.of_nat i) = q /\
    sp + 12 + 4 * Z.of_nat (length argv) <= q /\ q + Z.of_nat (length a) < USTACKTOP /\
    forall j, (j <= length a)%nat -> stack_byte b (q + Z.of_nat j) = nth j a 0
}.

Lemma stack_frame_cong b b' argv sp : (forall x, 0 <= x < BY2PG -> b x = b' x) ->
  stack_frame b argv sp -> stack_frame b' argv sp.
Proof.
  intros Hb [(Hlo & H4 & Hhi) Hc Hv He Ha]. assert (Hu : USTACKTOP = STACK_PAGE + BY2PG) by done.
  assert (Hw : forall va, STACK_PAGE <= va -> va + 4 <= USTACKTOP -> stack_word b' va = stack_word b va).
  { intros va H1 H2. apply bytes_word_cong. intros j Hj. symmetry. apply Hb. lia. }
  split; [done|by rewrite Hw by lia..|].
  intros i a Hi. pose proof (lookup_lt_Some _ _ _ Hi). destruct (Ha i a Hi) as (q & Hq & Hq1 & Hq2 & Hs).
  exists q. rewrite Hw by lia. split_and!; try done. intros j Hj. rewrite <- Hs by done. symmetry. apply Hb. lia.
Qed.

Lemma word_in_out b off l x : x + 4 <= off \/ off + Z.of_nat (length l) <= x ->
  word_in (patch b off l) x = word_in b x.
Proof. intros H. apply bytes_word_cong. intros j Hj. apply patch_out. lia. Qed.

Lemma word_in_word b off v : word_in (patch b off (word_bytes v)) off = u32 v.
Proof.
  pose proof (patch_word b off [v] 0 v eq_refl) as H. by rewrite Z.mul_0_r, Z.add_0_r in H.
Qed.

Section Frame.
Context (argv : list (list Z)).
Definition argc : Z := Z.of_nat (length argv).
Definition tot : Z := Z.of_nat (length (arg_bytes argv)).
Definition args_off : Z := BY2PG - ROUND tot 4 - 4 * (argc + 1).
Definition ptrs : list Z := arg_addresses argv (USTACKTOP - tot).
Context (Hfit : ROUND tot 4 + 4 * (argc + 3) <= BY2PG) (Hwrap : tot + 3 < 2 ^ 32).

(** The content of the page after the five groups of stores. *)
Definition stack_content (b0 : Z -> Z) : Z -> Z :=
  let b := patch b0 (BY2PG - tot) (arg_bytes argv) in
  let b := patch b args_off (words_bytes ptrs) in
  let b := patch b (args_off + 4 * argc) (word_bytes (u32 (USTACKTOP - 1))) in
  let b := patch b (args_off - 4) (word_bytes (u32 (STACK_PAGE + args_off))) in
  patch b (args_off - 8) (word_bytes argc).

Lemma frame_sizes : 0 <= argc /\ 0 <= tot /\ tot <= ROUND tot 4 <= tot + 3 /\ ROUND tot 4 mod 4 = 0 /\
  0 <= args_off - 8 /\ args_off mod 4 = 0 /\ args_off + 4 * (argc + 1) <= BY2PG - tot.
Proof using Hfit Hwrap.
  assert (0 <= argc) by (unfold argc; lia). assert (0 <= tot) by (unfold tot; lia).
  unfold args_off. rewrite ROUND_4 in * by done. unfold BY2PG in *. Z.div_mod_to_equations. lia.
Qed.

Lemma stack_content_frame b0 : stack_frame (stack_content b0) argv (STACK_PAGE + args_off - 8).
Proof using Hfit Hwrap.
  pose proof frame_sizes as (Hargc & Htot & Hround & Hr4 & Hlo & H4 & Hhi).
  assert (Hst : STACK_PAGE = 0x7f3fd000) by done. assert (Hu : USTACKTOP = STACK_PAGE + BY2PG) by done.
  assert (Hb : BY2PG = 4096) by done.
  assert (Hlp : Z.of_nat (length (words_bytes ptrs)) = 4 * argc).
  { unfold ptrs, argc. rewrite length_words_bytes, length_arg_addresses. lia. }
  assert (Hlw : forall v, Z.of_nat (length (word_bytes v)) = 4) by done.
  unfold stack_content. cbv zeta. split; unfold stack_word, stack_byte; fold argc.
  - split_and!; [lia| |lia]. Z.div_mod_to_equations. lia.
  - replace (STACK_PAGE + args_off - 8 - STACK_PAGE) with (args_off - 8) by lia.
    rewrite word_in_word. apply u32_id. lia.
  - rewrite word_in_out by (rewrite Hlw; lia).
    replace (STACK_PAGE + args_off - 8 + 4 - STACK_PAGE) with (args_off - 4) by lia.
    rewrite word_in_word, u32_id; rewrite ?u32_id; lia.
  - rewrite !(word_in_out _ (args_off - _)) by (rewrite Hlw; lia).
    replace (STACK_PAGE + args_off - 8 + 8 + 4 * argc - STACK_PAGE) with (args_off + 4 * argc) by lia.
    rewrite word_in_word, u32_id; rewrite ?u32_id; lia.
  - intros i a Hi. pose proof (lookup_lt_Some _ _ _ Hi) as Hlt.
    destruct (arg_bytes_at argv i a 0 Hi ltac:(lia)) as [Hsum _]. fold argc.
    exists (USTACKTOP - tot + Z.of_nat (length (arg_bytes (take i argv)))).
    assert (Hia : Z.of_nat i < argc) by (unfold argc; lia). split; [|split; [|split]].
    + rewrite !(word_in_out _ (args_off - _)) by (rewrite Hlw; lia).
      rewrite (word_in_out _ (args_off + 4 * argc)) by lia.
      replace (STACK_PAGE + args_off - 8 + 8 + 4 * Z.of_nat i - STACK_PAGE) with (args_off + 4 * Z.of_nat i) by lia.
      unfold ptrs. rewrite (patch_word _ _ _ i _ (arg_addresses_lookup argv i a Hi _)). apply u32_id. unfold tot in *. lia.
    + lia.
    + unfold tot. lia.
    + intros j Hj. rewrite !patch_out by (rewrite ?Hlw, ?Hlp; lia).
      destruct (arg_bytes_at argv i a j Hi Hj) as [_ <-].
      rewrite <- (patch_in b0 (BY2PG - tot)) by lia. f_equal. lia.
Qed.
End Frame.

Lemma arg_bytes_range argv : Forall (Forall (fun v => 0 <= v < 2 ^ 8)) argv ->
  Forall (fun v => 0 <= v < 2 ^ 8) (arg_bytes argv).
Proof.
  induction 1 as [|s l Hs Hl IH]; [by constructor|]. rewrite arg_bytes_cons.
  apply Forall_app. split; [|done]. apply Forall_app. split; [done|by repeat constructor].
Qed.

Section Build.
Context (boot : Z -> Z) (D fl : list Z) (d : Z) (Hd : d ∈ D) (argv : list (list Z)) (p : Z).
Context (Hfit : ROUND (tot argv) 4 + 4 * (argc argv + 3) <= BY2PG) (Hwrap : tot argv + 3 < 2 ^ 32).
Context (Hbytes : Forall (Forall (fun v => 0 <= v < 2 ^ 8)) argv).

(** The stores of [init_stack]. *)
Lemma stack_stores (K : KM (result Z)) k :
  installed boot D fl d (pm k) -> accessible (pm k) d UTEMP p PTE_W ->
  let strings := UTEMP + BY2PG - tot argv in
  let args := UTEMP + BY2PG - ROUND (tot argv) 4 - 4 * (argc argv + 1) in
  let delta := USTACKTOP - UTEMP - BY2PG in
  exists s', (store_bytes strings (arg_bytes argv) ;!
      let '(ptrs, ctemp) := arg_pointers argv (u32 (delta + strings)) in
      store_words args ptrs ;!
      store (args + 4 * argc argv) (u32 (ctemp - 1)) ;!
      store (args - 4) (u32 (delta + args)) ;!
      store (args - 8) (argc argv) ;! K) k = K (set_pm s' k) /\
    page_has boot D fl d UTEMP p (pm k) (stack_content argv (page_bytes (pm k) p)) (set_pm s' k).
Proof using Hd Hfit Hwrap Hbytes.
  intros Hs Ha strings args delta.
  pose proof (frame_sizes argv Hfit Hwrap) as (Hargc & Htot & Hround & Hr4 & Hlo & H4 & Hhi).
  assert (Hb : BY2PG = 4096) by done. assert (Hu : USTACKTOP = 0x7f3fe000) by done.
  assert (Hst : strings = UTEMP + (BY2PG - tot argv)) by (unfold strings; lia).
  assert (Har : args = UTEMP + args_off argv) by (unfold args, args_off; lia).
  assert (Hde : u32 (delta + strings) = USTACKTOP - tot argv).
  { replace (delta + strings) with (USTACKTOP - tot argv) by (unfold delta; lia). apply u32_id. lia. }
  rewrite Hde, Hst, arg_pointers_run by (fold (tot argv); lia). fold (tot argv) (ptrs argv).
  replace (USTACKTOP - tot argv + tot argv - 1) with (USTACKTOP - 1) by lia.
  replace (delta + args) with (STACK_PAGE + args_off argv) by (unfold delta, STACK_PAGE; lia).
  pose proof (page_has_start boot D fl d UTEMP p k Hs Ha) as P0.
  destruct (page_has_step boot D fl d Hd UTEMP p ltac:(done) ltac:(done) ltac:(done) _ _ _ _ _ _ P0
    (store_bytes_page boot D fl d Hd UTEMP p ltac:(done) ltac:(done) ltac:(done) k (BY2PG - tot argv)
      (arg_bytes argv) Hs Ha ltac:(lia) ltac:(fold (tot argv); lia) (arg_bytes_range argv Hbytes))) as (s1 & Hr1 & P1).
  rewrite (bind_step _ _ _ _ _ Hr1), Har.
  assert (Hlp : 4 * Z.of_nat (length (ptrs argv)) = 4 * argc argv)
    by (unfold ptrs, argc; by rewrite length_arg_addresses).
  destruct (page_has_step boot D fl d Hd UTEMP p ltac:(done) ltac:(done) ltac:(done) _ _ _ _ _ _ P1
    (store_words_page boot D fl d Hd UTEMP p ltac:(done) ltac:(done) ltac:(done) _ (args_off argv) (ptrs argv)
      (proj1 P1) (proj1 (proj2 P1)) ltac:(lia) H4 ltac:(lia))) as (s2 & Hr2 & P2).
  rewrite (bind_step _ _ _ _ _ Hr2).
  assert (store_has' := store_has boot D fl d Hd UTEMP p ltac:(done) ltac:(done) ltac:(done)).
  destruct (store_has' _ _ _ (args_off argv + 4 * argc argv) (u32 (USTACKTOP - 1)) P2 ltac:(lia) ltac:(lia))
    as (s3 & Hr3 & P3); [Z.div_mod_to_equations; lia|].
  rewrite Z.add_assoc in Hr3. rewrite (bind_step _ _ _ _ _ Hr3).
  destruct (store_has' _ _ _ (args_off argv - 4) (u32 (STACK_PAGE + args_off argv)) P3 ltac:(lia) ltac:(lia))
    as (s4 & Hr4' & P4); [Z.div_mod_to_equations; lia|].
  rewrite Z.add_sub_assoc in Hr4'. rewrite (bind_step _ _ _ _ _ Hr4').
  destruct (store_has' _ _ _ (args_off argv - 8) (argc argv) P4 ltac:(lia) ltac:(lia))
    as (s5 & Hr5 & P5); [Z.div_mod_to_equations; lia|].
  rewrite Z.add_sub_assoc in Hr5. rewrite (bind_step _ _ _ _ _ Hr5).
  exists s5. destruct k. done.
Qed.
End Build.

Lemma mapped_accessible s d va p perm f : mapped_as s d va p perm -> 0 <= f < 1024 ->
  truthy (Z.land (Z.lor perm PTE_LEAF) f) = true -> accessible s d va p f.
Proof.
  intros (e & He & Hp & Hbits) Hf Ht. exists e. split_and!; [done..|].
  rewrite <- Hbits, <- truthy_PTE_BITS in Ht by done. unfold truthy in Ht.
  by destruct (Z.eqb_spec (Z.land e f) 0).
Qed.

Lemma same_slot_entry s d va d' va' : same_slot d va d' va' -> entry s d' va' = entry s d va.
Proof.
  intros (-> & Hx & Hp). unfold entry, pte_addr, pde_addr. by rewrite Hx, Hp.
Qed.

(** A slot that was empty, was used and is empty again. *)
Lemma emptied_again s s1 s' D d va (P : Z -> Z -> Prop) :
  entry s d va = None -> entry s' d va = None -> others_same s s1 D d va ->
  (forall d' v, d' ∈ D -> PDX v < NUPDE -> ~ same_slot d va d' v -> P d' v -> entry s' d' v = entry s1 d' v) ->
  forall d' v, d' ∈ D -> PDX v < NUPDE -> P d' v -> entry s' d' v = entry s d' v.
Proof.
  intros H H' Ho Hs d' v Hd Hv HP. destruct (decide (same_slot d va d' v)) as [Hss|Hss].
  - by rewrite !(same_slot_entry _ _ _ _ _ Hss), H.
  - rewrite Hs by done. by apply Ho.
Qed.

Section Finish.
Context `{Board} (boot : Z -> Z) (Hb : forall p, 0 <= boot p) (D fl : list Z) (k : kst) (c : Z).
Context (d dc child ch : Z) (Hd : d ∈ D) (Hdc : dc ∈ D) (Hne : d <> dc).
Context (Hc : curenv k = Some c) (Hpg : env_pgdir (envs k c) = page2pa d).
Context (Hch : target k child true = Some ch) (Hpgc : env_pgdir (envs k ch) = page2pa dc).
Context (argv : list (list Z)) (p : Z).
Context (Hfit : ROUND (tot argv) 4 + 4 * (argc argv + 3) <= BY2PG) (Hwrap : tot argv + 3 < 2 ^ 32).
Context (Hbytes : Forall (Forall (fun v => 0 <= v < 2 ^ 8)) argv).

(** From the allocation of the page on. *)
Lemma fill_and_move (x : Z) :
  installed boot D fl d (pm k) -> mapped_as (pm k) d UTEMP p (Z.lor PTE_W PTE_U) ->
  pp_ref (pm k) p = 1 -> entry (pm k) dc STACK_PAGE = None ->
  let strings := UTEMP + BY2PG - tot argv in
  let args := UTEMP + BY2PG - ROUND (tot argv) 4 - 4 * (argc argv + 1) in
  let delta := USTACKTOP - UTEMP - BY2PG in
  let m := store_bytes strings (arg_bytes argv) ;!
    let '(ptrs, ctemp) := arg_pointers argv (u32 (delta + strings)) in
    store_words args ptrs ;!
    store (args + 4 * argc argv) (u32 (ctemp - 1)) ;!
    store (args - 4) (u32 (delta + args)) ;!
    store (args - 8) (argc argv) ;!
    let error (r : Z) : KM (result Z) := syscall_mem_unmap 0 UTEMP ;! ret (Err r) in
    let! r := syscall_mem_map 0 UTEMP child (u32 (USTACKTOP - BY2PG)) PTE_W in
    if r <? 0 then error r
    else let! r := syscall_mem_unmap 0 UTEMP in if r <? 0 then error r else ret (OK x) in
  (exists s' fl', m k = Ret (OK x) (set_pm s' k) /\ pm_inv boot D fl' s' /\
     entry s' d UTEMP = None /\ mapped_as s' dc STACK_PAGE p (Z.lor PTE_W PTE_U) /\
     (forall d' v, d' ∈ D -> PDX v < NUPDE -> ~ same_slot d UTEMP d' v -> ~ same_slot dc STACK_PAGE d' v ->
        entry s' d' v = entry (pm k) d' v) /\
     stack_frame (page_bytes s' p) argv (STACK_PAGE + args_off argv - 8)) \/
  (fl = [] /\ exists s' fl', m k = Ret (Err (- E_NO_MEM)) (set_pm s' k) /\ pm_inv boot D fl' s' /\
     entry s' d UTEMP = None /\ others_same (pm k) s' D d UTEMP).
Proof using All.
  intros Hs Hm Href Hnone strings args delta m.
  assert (HU : is_illegal_va UTEMP = false /\ 0 <= UTEMP < UTOP) by (by vm_compute). destruct HU as (HlU & HuU).
  assert (HS : u32 (USTACKTOP - BY2PG) = STACK_PAGE /\ is_illegal_va STACK_PAGE = false) by (by vm_compute).
  destruct HS as [HS HlS]. destruct (user_PDX _ HuU) as [HxU _].
  destruct (user_PDX _ (legal_user _ HlS)) as [HxS _].
  pose proof (mapped_accessible _ _ _ _ _ PTE_W Hm ltac:(done) eq_refl) as Ha.
  destruct (stack_stores boot D fl d Hd argv p Hfit Hwrap Hbytes
    (let error (r : Z) : KM (result Z) := syscall_mem_unmap 0 UTEMP ;! ret (Err r) in
     let! r := syscall_mem_map 0 UTEMP child STACK_PAGE PTE_W in
     if r <? 0 then error r
     else let! r := syscall_mem_unmap 0 UTEMP in if r <? 0 then error r else ret (OK x)) k Hs Ha)
    as (s2 & Hrun & (Hs2 & _ & U)).
  unfold m. rewrite HS. fold strings args delta in Hrun. cbv zeta beta in Hrun |- *. rewrite Hrun. clear Hrun m.
  destruct Hm as (e & He & Hp & Hbits).
  assert (He2 : entry s2 d UTEMP = Some e) by (by rewrite (pu_entry _ _ _ _ _ _ _ U)).
  assert (Hn2 : entry s2 dc STACK_PAGE = None) by (by rewrite (pu_entry _ _ _ _ _ _ _ U)).
  assert (Hr2 : pp_ref s2 p < 2 ^ 16 - 1).
  { destruct (pu_eq _ _ _ _ _ _ _ U) as [m2 E]. cbn [pm set_pm] in E. rewrite E. cbn. by rewrite Href. }
  destruct (move_page boot Hb D fl (set_pm s2 k) c (in_inv _ _ _ _ _ Hs2) Hc d dc child ch Hd Hdc Hne Hpg Hch Hpgc
    UTEMP STACK_PAGE p e PTE_W x HlU HlS ltac:(done) He2 Hp Hn2 Hr2)
    as [(s' & fl' & Hrun & I' & (Hg & Hm' & Ho & Hb') & _)|(Hfl & s' & fl' & Hrun & I' & Hg & Ho)];
    [left|right; split; [done|]]; exists s', fl'; cbv zeta beta in Hrun; rewrite Hrun; cbn [pm set_pm] in *.
  - split_and!; try done.
    + intros d' v Hd' Hv H1 H2. rewrite Ho by done. by apply (pu_entry _ _ _ _ _ _ _ U).
    + eapply stack_frame_cong; [|by apply stack_content_frame]. intros y Hy. rewrite Hb' by done. symmetry.
      apply (pu_bytes _ _ _ _ _ _ _ U). done.
  - split_and!; try done. intros d' v Hd' Hv H1. rewrite Ho by done. by apply (pu_entry _ _ _ _ _ _ _ U).
Qed.
End Finish.

(** C19. [init_stack] gives the child its arguments, when the caller has nothing
    mapped at [UTEMP] and the child nothing at its stack page.  A vector that does not
    fit in a page is refused with [-E_NO_MEM] and nothing changes.  Otherwise,
    unless memory runs out, the child gets a page below the top of its stack, in
    which it finds at the stack pointer that is returned the number of its
    arguments, the address of [argv], and in [argv] the addresses of the
    strings, each with all its bytes and its terminator; no other mapping of
    any environment changes, and the caller keeps no mapping of the page.
    Without memory, with at most two pages left, [-E_NO_MEM] is returned and
    every mapping is as before. *)
Theorem init_stack_correct `{Board} boot D fl k c ch child d dc argv :
  pm_inv boot D fl (pm k) -> (forall p, 0 <= boot p) -> d ∈ D -> dc ∈ D -> d <> dc ->
  curenv k = Some c -> env_pgdir (envs k c) = page2pa d ->
  target k child true = Some ch -> env_pgdir (envs k ch) = page2pa dc ->
  cur_pgdir (pm k) = page2pa d -> satp_dir (pm k) d ->
  entry (pm k) d UTEMP = None -> entry (pm k) dc STACK_PAGE = None ->
  Forall (Forall (fun v => 0 <= v < 2 ^ 8)) argv -> tot argv + 4 * (argc argv + 4) < 2 ^ 32 ->
  let need := ROUND (tot argv) 4 + 4 * (argc argv + 3) in
  let sp := USTACKTOP - need in
  let run := init_stack child argv k in
  if BY2PG <? need then run = Ret (Err (- E_NO_MEM)) k
  else
    (exists p s' fl', run = Ret (OK sp) (set_pm s' k) /\ pm_inv boot D fl' s' /\
       mapped_as s' dc STACK_PAGE p (Z.lor PTE_W PTE_U) /\ others_same (pm k) s' D dc STACK_PAGE /\
       stack_frame (page_bytes s' p) argv sp) \/
    ((length fl <= 2)%nat /\ exists s' fl', run = Ret (Err (- E_NO_MEM)) (set_pm s' k) /\
       pm_inv boot D fl' s' /\ same_entries D (pm k) s').
Proof.
  intros I Hb Hd Hdc Hne Hc Hpg Hch Hpgc Hcur Hsatp Hnone Hnone' Hbytes Hwrap need sp run.
  assert (H0 : 0 <= tot argv /\ 0 <= argc argv) by (unfold tot, argc; lia).
  assert (Hr : ROUND (tot argv) 4 = (tot argv + 3) / 4 * 4) by (apply ROUND_4; lia).
  assert (Hneed : u32 need = need).
  { apply u32_id. unfold need. rewrite Hr. Z.div_mod_to_equations. lia. }
  unfold run, init_stack. fold (argc argv) (tot argv) need. rewrite Hneed. cbv zeta.
  destruct (Z.ltb_spec BY2PG need) as [|Hfit]; [done|].
  assert (HU : UTEMP = 0x3fe000 /\ is_illegal_va UTEMP = false /\ 0 <= UTEMP < UTOP) by (by vm_compute).
  destruct HU as (HU & HlU & HuU). destruct (user_PDX _ HuU) as [HxU _].
  assert (HS : u32 (USTACKTOP - BY2PG) = STACK_PAGE /\ is_illegal_va STACK_PAGE = false) by (by vm_compute).
  destruct HS as [HS HlS].
  destruct (mem_alloc_unmapped boot Hb D fl k c I Hc 0 c d UTEMP PTE_W Hc Hd Hpg HlU ltac:(done) Hnone)
    as [(p & s1 & fl1 & Hal & I1 & Hm1 & Ho1 & Hr1 & Hl1 & Hst1)|(Hlen & s1 & fl1 & Hal & I1 & Ho1 & _)];
    rewrite (bind_step _ _ _ _ _ Hal).
  2: { change (- E_NO_MEM <? 0) with true. right. split; [lia|]. by exists s1, fl1. }
  change (0 <? 0) with false. cbv iota.
  assert (Hs1 : installed boot D fl1 d s1).
  { destruct Hst1 as (Hcur1 & Hsp1 & _). split; [done|by rewrite Hcur1|]. unfold satp_dir. by rewrite Hsp1. }
  assert (Hn1 : entry s1 dc STACK_PAGE = None).
  { rewrite Ho1; [done|done| |by intros [? _]]. by apply user_PDX, legal_user. }
  pose proof (frame_sizes argv Hfit ltac:(lia)) as (_ & _ & _ & _ & Hlo & _ & Hhi).
  assert (Hsp : u32 (USTACKTOP - UTEMP - BY2PG +
      (UTEMP + BY2PG - ROUND (tot argv) 4 - 4 * (argc argv + 1) - 8)) = sp).
  { unfold args_off in *. change USTACKTOP with 0x7f3fe000. clear -Hlo Hhi Hr H0 HU. unfold sp, need. change USTACKTOP with 0x7f3fe000. change BY2PG with 4096 in *.
    rewrite u32_id; lia. }
  assert (Hsp' : STACK_PAGE + args_off argv - 8 = sp) by (unfold STACK_PAGE, args_off, sp, need; clear; lia).
  destruct (fill_and_move boot Hb D fl1 (set_pm s1 k) c d dc child ch Hd Hdc Hne Hc Hpg Hch Hpgc argv p
    Hfit ltac:(lia) Hbytes sp Hs1 Hm1 Hr1 Hn1)
    as [(s' & fl' & Hrun & I' & Hg & Hm' & Ho & Hf)|(-> & s' & fl' & Hrun & I' & Hg & Ho)];
    cbv zeta beta in Hrun; rewrite Hsp, Hrun;
    [left; exists p, s', fl'|right; split; [cbn in Hl1; lia|]; exists s', fl'].
  - split_and!; try done; [|by rewrite <- Hsp'].
    exact (emptied_again _ s1 s' D d UTEMP (fun d' v => ~ same_slot dc STACK_PAGE d' v) Hnone Hg Ho1 Ho).
  - split_and!; try done. intros d' v Hd' Hv.
    apply (emptied_again _ s1 s' D d UTEMP (fun _ _ => True) Hnone Hg Ho1); [|done..].
    intros d'' v' Hd'' Hv' Hns _. by apply Ho.
Qed.

Definition ex_argv : list (list Z) := [chars "sh"; chars "x"; []].

Lemma init_stack_correct_witness : exists k s' p,
  @init_stack ex_board ex_child ex_argv k = Ret (OK (USTACKTOP - 32)) (set_pm s' k) /\
  stack_frame (page_bytes s' p) ex_argv (USTACKTOP - 32).
Proof.
  destruct ex_fork_state as (s & t & fl & e & I & Hne & Hfl & Hr & Ht & He & _ & Hw & _ & Ho).
  set (k := ex_fork (set_csr_satp (page2pa ex_dir / BY2PG) s) ex_dir t). exists k.
  assert (Hd : ex_dir ∈ [t; ex_dir]) by (apply elem_of_cons; right; by apply list_elem_of_here).
  destruct (@init_stack_correct ex_board ex_refs [t; ex_dir] fl k 0 1 ex_child ex_dir t ex_argv)
    as [(p & s' & fl' & Hrun & _ & _ & _ & Hf)|(Hlen & _)].
  - by apply pm_inv_cur_pgdir, pm_inv_csr_satp.
  - exact ex_refs_nonneg.
  - done.
  - by apply list_elem_of_here.
  - by apply not_eq_sym.
  - done.
  - done.
  - by vm_compute.
  - done.
  - done.
  - by vm_compute.
  - by apply (Ho 0x3fe).
  - by apply Ht.
  - by repeat constructor.
  - by vm_compute.
  - exists s', p. by split.
  - lia.
Defined.
