(* ===== verification/Fsformat.v ===== *)
(** * The program that formats the disk (tools/fsformat.c)

    It runs on the host and writes the image the file server mounts, with the
    structures of user/include/fs.h (Fs.v has their layout).  Its memory is
    the array [disk], of which the data of block [b] are the words at
    [b * BY2BLK] and the types are kept apart, followed by the global [super];
    both start zeroed.  An access outside them is a [Fault], and so is a
    string that runs past the end of a block.  The host is little-endian, as
    is the target, unless [config_reverse] is set.  The files of the host are
    the argument: a tree, with what [lseek] and [read] give for each file and
    what [readdir] lists for each directory. *)
From S2P Require Import Prelude UserMem Fs.

Definition NBLOCK : Z := 1024.

Definition BLOCK_FREE : Z := 0.
Definition BLOCK_BOOT : Z := 1.
Definition BLOCK_BMAP : Z := 2.
Definition BLOCK_SUPER : Z := 3.
Definition BLOCK_DATA : Z := 4.
Definition BLOCK_FILE : Z := 5.
Definition BLOCK_INDEX : Z := 6.

(** [output] is what has been written to the image file. *)
Record host : Type := mkHost {
  words : Z -> Z;
  types : Z -> Z;
  nbitblock : Z;
  nextbno : Z;
  output : Z -> Z
}.
Definition set_words (v : Z -> Z) (s : host) : host :=
  mkHost v (types s) (nbitblock s) (nextbno s) (output s).
Definition set_types (v : Z -> Z) (s : host) : host :=
  mkHost (words s) v (nbitblock s) (nextbno s) (output s).
Definition set_nbitblock (v : Z) (s : host) : host :=
  mkHost (words s) (types s) v (nextbno s) (output s).
Definition set_nextbno (v : Z) (s : host) : host :=
  mkHost (words s) (types s) (nbitblock s) v (output s).
Definition set_output (v : Z -> Z) (s : host) : host :=
  mkHost (words s) (types s) (nbitblock s) (nextbno s) v.

Definition host_start : host := mkHost (fun _ => 0) (fun _ => 0) 0 0 (fun _ => 0).

Abbreviation HM := (M host).

(** [disk[b].data], and the address of [super]. *)
Definition data (b : Z) : Z := b * BY2BLK.
Definition SUPER : Z := NBLOCK * BY2BLK.
Definition BY2SUPER : Z := 8 + BY2FILE.
Definition super_root : Z := s_root SUPER.

Definition valid (a : Z) : bool := (0 <=? a) && (a <? SUPER + BY2SUPER).

Definition rd (a : Z) : HM Z := fun s => if valid a then Ret (words s a) s else Fault.
Definition wr (a v : Z) : HM unit := fun s =>
  if valid a then Ret tt (set_words (upd (words s) a v) s) else Fault.
Definition rd_byte (a : Z) : HM Z :=
  let! w := rd (a - a mod 4) in ret (word_byte w (a mod 4)).
Definition wr_byte (a c : Z) : HM unit :=
  let! _ := rd (a - a mod 4) in
  modify (fun s => set_words (blit a 1 (fun _ => c) (words s)) s).
(** [n] bytes at [a], all in the data of one block. *)
Definition wr_bytes (a n : Z) (src : Z -> Z) : HM unit := fun s =>
  if valid a && (a mod BY2BLK + n <=? BY2BLK) then Ret tt (set_words (blit a n src (words s)) s)
  else Fault.

Definition memset (a c n : Z) : HM unit := wr_bytes a n (fun _ => c).
Definition char_at (str : list Z) (j : Z) : Z := default 0 (str !! Z.to_nat j).
Definition strcpy (a : Z) (str : list Z) : HM unit :=
  wr_bytes a (Z.of_nat (length str) + 1) (char_at str).
(** [strncpy] pads with zeros, and writes no terminator after [n] bytes. *)
Definition strncpy (a : Z) (str : list Z) (n : Z) : HM unit := wr_bytes a n (char_at str).

(** [disk[b].type = t] *)
Definition set_type (b t : Z) : HM unit := fun s =>
  if (0 <=? b) && (b <? NBLOCK) then Ret tt (set_types (upd (types s) b t) s) else Fault.

(** [disk[b].data] for a computed [b]. *)
Definition block_data (b : Z) : HM Z :=
  if (0 <=? b) && (b <? NBLOCK) then ret (data b) else fault.

(** ** Endianness *)

(** The bytes are stored most significant first, whatever the host. *)
Definition reverse (p : Z) : HM unit :=
  let! y := rd p in
  wr_byte (p + 3) (Z.land y 0xFF) ;!
  wr_byte (p + 2) (Z.land (Z.shiftr y 8) 0xFF) ;!
  wr_byte (p + 1) (Z.land (Z.shiftr y 16) 0xFF) ;!
  wr_byte p (Z.land (Z.shiftr y 24) 0xFF).

Definition reverse_file (ff : Z) : HM unit :=
  reverse (f_size ff) ;!
  reverse (f_type ff) ;!
  forM (seqZ 0 NDIRECT) (fun i => reverse (f_direct ff i)) ;!
  reverse (f_indirect ff).

(** The files of a directory block, up to the first without a name. *)
Fixpoint reverse_files (ffs : list Z) : HM unit :=
  match ffs with
  | [] => ret tt
  | ff :: ffs =>
      let! c := rd_byte (f_name ff) in
      if c =? 0 then ret tt else reverse_file ff ;! reverse_files ffs
  end.

Definition reverse_block (b : Z) : HM unit :=
  let! type := gets (fun s => types s b) in
  if type =? BLOCK_SUPER then
    let s := data b in
    reverse (s_magic s) ;! reverse (s_nblocks s) ;! reverse_file (s_root s)
  else if type =? BLOCK_FILE then reverse_files (files_of (data b))
  else if (type =? BLOCK_INDEX) || (type =? BLOCK_BMAP) then
    forM (seqZ 0 (BY2BLK / 4)) (fun i => reverse (data b + 4 * i))
  else ret tt.

(** ** The disk *)
Definition init_disk : HM unit :=
  set_type 0 BLOCK_BOOT ;!
  let nbit := (NBLOCK + BIT2BLK - 1) / BIT2BLK in
  modify (set_nbitblock nbit) ;!
  modify (set_nextbno (2 + nbit)) ;!
  forM (seqZ 0 nbit) (fun i => set_type (2 + i) BLOCK_BMAP) ;!
  forM (seqZ 0 nbit) (fun i => memset (data (2 + i)) 0xff BY2BLK) ;!
  (if negb (NBLOCK =? nbit * BIT2BLK) then
     let diff := NBLOCK mod BIT2BLK / 8 in
     memset (data (2 + (nbit - 1)) + diff) 0x00 (BY2BLK - diff)
   else ret tt) ;!
  set_type 1 BLOCK_SUPER ;!
  wr (s_magic SUPER) FS_MAGIC ;!
  wr (s_nblocks SUPER) NBLOCK ;!
  wr (f_type super_root) FTYPE_DIR ;!
  strcpy (f_name super_root) [SLASH].

Definition next_block (type : Z) : HM Z :=
  let! bno := gets nextbno in
  set_type bno type ;!
  modify (set_nextbno (u32 (bno + 1))) ;!
  ret bno.

Definition flush_bit (i : Z) : HM unit :=
  let p := data (2 + i / BIT2BLK) + 4 * ((i mod BIT2BLK) / 32) in
  let! w := rd p in
  wr p (Z.land w (not32 (bit_of i))).

Definition flush_bitmap : HM unit :=
  let! n := gets nextbno in
  forM (seqZ 0 n) flush_bit.

(** One block to the image file, at its place. *)
Definition write_out (i : Z) : HM unit :=
  modify (fun s => set_output (fun x =>
    if (data i <=? x) && (x <? data i + BY2BLK) then words s x else output s x) s).

Definition finish_fs (config_reverse : bool) : HM unit :=
  modify (fun s => set_words (fun x =>
    if (data 1 <=? x) && (x <? data 1 + BY2SUPER) then words s (SUPER + (x - data 1))
    else words s x) s) ;!
  forM (seqZ 0 NBLOCK) (fun i =>
    (if config_reverse then reverse_block i else ret tt) ;!
    write_out i).

(** ** Files and directories *)
Definition save_block_link (f nblk bno : Z) : HM unit :=
  c_assert (nblk <? NINDIRECT) ;!
  if nblk <? NDIRECT then wr (f_direct f nblk) bno
  else
    let! ind := rd (f_indirect f) in
    (if ind =? 0 then
       let! b := next_block BLOCK_INDEX in wr (f_indirect f) b
     else ret tt) ;!
    let! ind := rd (f_indirect f) in
    let! p := block_data ind in
    wr (p + 4 * nblk) bno.

Definition make_link_block (dirf nblk : Z) : HM Z :=
  let! bno := next_block BLOCK_FILE in
  save_block_link dirf nblk bno ;!
  let! size := rd (f_size dirf) in
  wr (f_size dirf) (u32 (size + BY2BLK)) ;!
  ret bno.

(** The inner loop: the first of the slots without a name. *)
Fixpoint find_unused (fs : list Z) : HM (option Z) :=
  match fs with
  | [] => ret None
  | f :: fs =>
      let! c := rd_byte (f_name f) in
      if c =? 0 then ret (Some f) else find_unused fs
  end.

(** The outer loop, over the blocks [bnos] of the directory. *)
Fixpoint find_in_blocks (dirf : Z) (bnos : list Z) : HM (option Z) :=
  match bnos with
  | [] => ret None
  | i :: bnos =>
      let! bno :=
        (if i <? NDIRECT then rd (f_direct dirf i)
         else let! ind := rd (f_indirect dirf) in
              let! p := block_data ind in rd (p + 4 * i)) in
      let! blk := block_data bno in
      let! found := find_unused (files_of blk) in
      match found with
      | Some f => ret (Some f)
      | None => find_in_blocks dirf bnos
      end
  end.

Definition create_file (dirf : Z) : HM Z :=
  let! size := rd (f_size dirf) in
  let nblk := size / BY2BLK in
  let! found := find_in_blocks dirf (seqZ 0 nblk) in
  match found with
  | Some f => ret f
  | None => let! bno := make_link_block dirf nblk in block_data bno
  end.

(** [strrchr(path, '/')]: what follows the last slash. *)
Fixpoint strrchr_slash (path : list Z) : option (list Z) :=
  match path with
  | [] => None
  | c :: rest =>
      match strrchr_slash rest with
      | Some r => Some r
      | None => if c =? SLASH then Some rest else None
      end
  end.

(** [read] into the next block until the end of the file; every read but the
    last is of a whole block. *)
Fixpoint read_blocks (n : nat) (target iblk : Z) (content : list Z) : HM unit :=
  match content, n with
  | [], _ => ret tt
  | _ :: _, O => fault
  | _ :: _, S n =>
      let chunk := take (Z.to_nat BY2BLK) content in
      let! bno := gets nextbno in
      let! p := block_data bno in
      wr_bytes p (Z.of_nat (length chunk)) (char_at chunk) ;!
      let! bno := next_block BLOCK_DATA in
      save_block_link target iblk bno ;!
      read_blocks n target (iblk + 1) (drop (Z.to_nat BY2BLK) content)
  end.

(** [size] is what [lseek] to the end returns, -1 when the file cannot be
    opened; [content] what [read] gives. *)
Definition write_file (dirf : Z) (path : list Z) (size : Z) (content : list Z) : HM unit :=
  let! target := create_file dirf in
  strcpy (f_name target) (default path (strrchr_slash path)) ;!
  wr (f_size target) (u32 size) ;!
  wr (f_type target) FTYPE_REG ;!
  read_blocks (length content) target 0 content.

(** The host's files.  [HSpecial] is what is neither a regular file nor a
    directory; a directory that cannot be opened has no list of entries. *)
Inductive hnode : Type :=
| HFile (size : Z) (content : list Z)
| HDir (entries : option (list (list Z * hnode)))
| HSpecial (size : Z) (content : list Z).

(** [basename] of libgen.h: the last element, and the path with its trailing
    slashes removed, which it does in place. *)
Fixpoint strip_slashes (rpath : list Z) : list Z :=
  match rpath with
  | c :: rest => if c =? SLASH then strip_slashes rest else rpath
  | [] => []
  end.
Definition basename (path : list Z) : list Z * list Z :=
  match path with
  | [] => ([46], [])
  | _ =>
      match rev (strip_slashes (rev path)) with
      | [] => ([SLASH], path)
      | stripped => (default stripped (strrchr_slash stripped), stripped)
      end
  end.

Definition is_dots (name : list Z) : bool :=
  bool_decide (name = [46]) || bool_decide (name = [46; 46]).

Fixpoint write_directory (n : hnode) (dirf : Z) (path : list Z) : HM unit :=
  match n with
  | HDir (Some entries) =>
      let! pdir := create_file dirf in
      let '(name, path) := basename path in
      strncpy (f_name pdir) name (MAXNAMELEN - 1) ;!
      let! c := rd_byte (f_name pdir + (MAXNAMELEN - 1)) in
      (if negb (c =? 0) then panic "file name is too long" else ret tt) ;!
      wr (f_type pdir) FTYPE_DIR ;!
      (fix write_entries (es : list (list Z * hnode)) : HM unit :=
         match es with
         | [] => ret tt
         | (name, e) :: es =>
             (if is_dots name then ret tt
              else
                let buf := path ++ [SLASH] ++ name in
                match e with
                | HDir _ => write_directory e pdir buf
                | HFile size content | HSpecial size content => write_file pdir buf size content
                end) ;!
             write_entries es
         end) entries
  | _ => ret tt
  end.

(** One argument: its path and what [stat] finds there. *)
Definition write_arg (arg : list Z * option hnode) : HM unit :=
  match arg with
  | (_, None) => panic "assertion failed"
  | (name, Some (HDir es)) => write_directory (HDir es) super_root name
  | (name, Some (HFile size content)) => write_file super_root name size content
  | (_, Some (HSpecial _ _)) => panic "illegal file mode"
  end.

(** [args] are the arguments after the name of the image. *)
Definition main (config_reverse : bool) (args : list (list Z * option hnode)) : HM unit :=
  init_disk ;!
  (match args with [] => panic "Usage" | _ => ret tt end) ;!
  forM args write_arg ;!
  flush_bitmap ;!
  finish_fs config_reverse.
