(* ===== verification/FsImage.v ===== *)
(** * What a disk image holds

    The abstract file system is a tree of names; [rep img t f lo hi] says that
    the image [img] (a word per byte offset) has the tree [t] at the
    [struct File] at offset [f], with all of its blocks in [lo, hi).  The
    blocks of the children of a directory are in intervals of their own, in
    the order of the entries, away from the blocks of the directory. *)
From S2P Require Import Prelude Mmu UserMem Fs FsBlocks FsFiles Fsformat.

Inductive fnode : Type :=
| FFile (content : list Z)
| FDir (entries : list (list Z * fnode)).

(** Induction with a hypothesis for every entry. *)
Section FnodeInd.
Context (P : fnode -> Prop).
Context (Pfile : forall c, P (FFile c)).
Context (Pdir : forall es, Forall (fun e => P (snd e)) es -> P (FDir es)).

Fixpoint fnode_nested_ind (t : fnode) : P t :=
  match t with
  | FFile c => Pfile c
  | FDir es => Pdir es
      ((fix entries (es : list (list Z * fnode)) : Forall (fun e => P (snd e)) es :=
          match es with
          | [] => Forall_nil_2 _
          | (name, t) :: es =>
              Forall_cons_2 _ (name, t) es (fnode_nested_ind t) (entries es)
          end) es)
  end.
End FnodeInd.

(** ** The blocks of a file *)

(** Block [i] of the file at [f]. *)
Definition ptr (img : Z -> Z) (f i : Z) : Z :=
  if i <? NDIRECT then img (f_direct f i) else img (data (img (f_indirect f)) + 4 * i).

(** Entry [k] of the directory at [f]. *)
Definition slot (img : Z -> Z) (f k : Z) : Z :=
  data (ptr img f (k / FILE2BLK)) + BY2FILE * (k mod FILE2BLK).

(** The file at [f] has [n] blocks, distinct and in [lo, hi). *)
Record owns (img : Z -> Z) (f n lo hi : Z) : Prop := {
  ow_n : 0 <= n <= NINDIRECT;
  ow_ptr i : 0 <= i < n -> lo <= ptr img f i < hi;
  ow_inj i j : 0 <= i < n -> 0 <= j < n -> ptr img f i = ptr img f j -> i = j;
  ow_none : n <= NDIRECT -> img (f_indirect f) = 0;
  ow_ind : NDIRECT < n -> lo <= img (f_indirect f) < hi /\
    forall i, 0 <= i < n -> ptr img f i <> img (f_indirect f)
}.

Arguments ow_n {_ _ _ _ _} _.
Arguments ow_ptr {_ _ _ _ _} _ _ _.
Arguments ow_inj {_ _ _ _ _} _ _ _ _ _ _.
Arguments ow_none {_ _ _ _ _} _ _.
Arguments ow_ind {_ _ _ _ _} _ _.

Lemma owns_empty img f lo hi : img (f_indirect f) = 0 -> owns img f 0 lo hi.
Proof.
  intros H. split; try (intros; lia); [done|]. change NDIRECT with 10. lia.
Qed.

(** Block [b] is one of them, or the indirect block. *)
Definition own (img : Z -> Z) (f n b : Z) : Prop :=
  (exists i, 0 <= i < n /\ b = ptr img f i) \/ (NDIRECT < n /\ b = img (f_indirect f)).

(** Blocks for [len] bytes. *)
Definition blocks_for (len : Z) : Z := (len + BY2BLK - 1) / BY2BLK.

(** ** Files and directories *)
Record file_shape (img : Z -> Z) (c : list Z) (f lo hi : Z) : Prop := {
  fi_size : img (f_size f) = Z.of_nat (length c);
  fi_type : img (f_type f) = FTYPE_REG;
  fi_owns : owns img f (blocks_for (Z.of_nat (length c))) lo hi;
  fi_bytes j : 0 <= j < Z.of_nat (length c) ->
    mem_byte img (data (ptr img f (j / BY2BLK)) + j mod BY2BLK) = char_at c j
}.

(** A directory of [n] blocks whose first slots are the entries, entry [k]
    with its tree [R] in the blocks of [clo k, chi k); the other slots are
    zero. *)
Record dir_shape (img : Z -> Z) (R : fnode -> Z -> Z -> Z -> Prop)
    (es : list (list Z * fnode)) (f lo hi n : Z) (clo chi : nat -> Z) : Prop := {
  di_size : img (f_size f) = n * BY2BLK;
  di_type : img (f_type f) = FTYPE_DIR;
  di_owns : owns img f n lo hi;
  di_room : Z.of_nat (length es) <= FILE2BLK * n;
  di_name k name t : es !! k = Some (name, t) ->
    Forall is_char name /\ name <> [] /\ Z.of_nat (length name) < MAXNAMELEN /\
    str_at img (slot img f (Z.of_nat k)) name = true;
  di_span k : (k < length es)%nat -> lo <= clo k /\ clo k <= chi k /\ chi k <= hi;
  di_apart k b : (k < length es)%nat -> own img f n b -> b < clo k \/ chi k <= b;
  di_order j k : (j < k < length es)%nat -> chi j <= clo k;
  di_rep k name t : es !! k = Some (name, t) -> R t (slot img f (Z.of_nat k)) (clo k) (chi k);
  di_free k o : Z.of_nat (length es) <= k < FILE2BLK * n -> 0 <= o < BY2FILE -> o mod 4 = 0 ->
    img (slot img f k + o) = 0
}.

Arguments fi_size {_ _ _ _ _} _.
Arguments fi_type {_ _ _ _ _} _.
Arguments fi_owns {_ _ _ _ _} _.
Arguments fi_bytes {_ _ _ _ _} _ _ _.
Arguments di_size {_ _ _ _ _ _ _ _ _} _.
Arguments di_type {_ _ _ _ _ _ _ _ _} _.
Arguments di_owns {_ _ _ _ _ _ _ _ _} _.
Arguments di_room {_ _ _ _ _ _ _ _ _} _.
Arguments di_name {_ _ _ _ _ _ _ _ _} _ _ _ _ _.
Arguments di_span {_ _ _ _ _ _ _ _ _} _ _ _.
Arguments di_apart {_ _ _ _ _ _ _ _ _} _ _ _ _ _.
Arguments di_order {_ _ _ _ _ _ _ _ _} _ _ _ _.
Arguments di_rep {_ _ _ _ _ _ _ _ _} _ _ _ _ _.
Arguments di_free {_ _ _ _ _ _ _ _ _} _ _ _ _ _ _.

Lemma dir_empty img R f lo hi clo chi :
  img (f_size f) = 0 -> img (f_type f) = FTYPE_DIR -> img (f_indirect f) = 0 ->
  dir_shape img R [] f lo hi 0 clo chi.
Proof.
  intros Hs Ht Hi. split; try (intros; cbn in *; lia); try (intros ? ? ? ?; done).
  by apply owns_empty.
Qed.

Inductive rep (img : Z -> Z) : fnode -> Z -> Z -> Z -> Prop :=
| rep_file c f lo hi : file_shape img c f lo hi -> rep img (FFile c) f lo hi
| rep_dir es f lo hi n clo chi :
    dir_shape img (rep img) es f lo hi n clo chi -> rep img (FDir es) f lo hi.

(** ** The slots of a directory, in order *)
Definition slots (img : Z -> Z) (f n : Z) : list Z :=
  seqZ 0 n ≫= fun i => files_of (data (ptr img f i)).

Lemma slots_eq img f n : 0 <= n -> slots img f n = slot img f <$> seqZ 0 (FILE2BLK * n).
Proof.
  intros Hn. pattern n. apply natlike_ind; [done| |done]. clear n Hn. intros n Hn IH.
  unfold slots in *. rewrite <- Z.add_1_r, (seqZ_app 0 n 1), bind_app, IH by lia.
  rewrite Z.mul_add_distr_l, (seqZ_app 0 (FILE2BLK * n)), fmap_app by (change FILE2BLK with 16; lia).
  f_equal. change (seqZ (0 + n) 1) with [0 + n]. cbn [mbind list_bind].
  rewrite app_nil_r. unfold files_of. rewrite Z.mul_1_r, !Z.add_0_l.
  apply list_eq. intros i. rewrite !list_lookup_fmap.
  destruct (seqZ 0 FILE2BLK !! i) as [x|] eqn:Hx.
  - apply lookup_seqZ in Hx as [-> Hi].
    rewrite (proj2 (lookup_seqZ (FILE2BLK * n) FILE2BLK i (FILE2BLK * n + Z.of_nat i)) ltac:(done)).
    cbn. f_equal. unfold slot. change FILE2BLK with 16 in *.
    replace ((16 * n + Z.of_nat i) / 16) with n by (Z.div_mod_to_equations; lia).
    replace ((16 * n + Z.of_nat i) mod 16) with (Z.of_nat i) by (Z.div_mod_to_equations; lia). lia.
  - apply lookup_ge_None in Hx. rewrite length_seqZ in Hx. by rewrite lookup_seqZ_ge by lia.
Qed.

(** The first index that satisfies a test. *)
Lemma find_first (p : Z -> bool) (g : Z -> Z) a n k :
  a <= k < a + n -> (forall j, a <= j < k -> p (g j) = false) -> p (g k) = true ->
  List.find p (g <$> seqZ a n) = Some (g k).
Proof.
  intros Hk. assert (Hn : 0 <= n) by lia. revert a Hk. pattern n.
  apply natlike_ind; [lia| |done]; clear n Hn. intros n Hn IH a Hk Hlow Hp.
  rewrite seqZ_cons by lia. cbn. destruct (decide (a = k)) as [->|]; [by rewrite Hp|].
  rewrite Hlow by lia. rewrite Z.pred_succ. apply IH; [lia| |done]. intros j Hj. apply Hlow. lia.
Qed.

Lemma find_none (p : Z -> bool) (g : Z -> Z) a n : 0 <= n ->
  (forall j, a <= j < a + n -> p (g j) = false) -> List.find p (g <$> seqZ a n) = None.
Proof.
  intros Hn. revert a. pattern n. apply natlike_ind; [done| |done]; clear n Hn.
  intros n Hn IH a Hall. rewrite seqZ_cons by lia. cbn. rewrite Hall by lia.
  rewrite Z.pred_succ. apply IH. intros j Hj. apply Hall. lia.
Qed.

(** ** Offsets in a block *)

(** A whole block of bytes, or less. *)
Lemma block_div_mod b j : 0 <= j < BY2BLK -> (data b + j) / BY2BLK = b /\ (data b + j) mod BY2BLK = j.
Proof. unfold data, BY2BLK, BY2PG. intros H. Z.div_mod_to_equations. lia. Qed.

Lemma data_lt b c x y : data b <= x < data (b + 1) -> data c <= y < data (c + 1) -> b <> c -> x <> y.
Proof. unfold data, BY2BLK, BY2PG. lia. Qed.

(** The aligned word of a byte is in the same block. *)
Lemma word_of_byte b x : data b <= x < data (b + 1) ->
  data b <= x - x mod 4 < data (b + 1) /\ (x - x mod 4) mod 4 = 0.
Proof. unfold data, BY2BLK, BY2PG. intros H. Z.div_mod_to_equations. lia. Qed.

(** ** The frame of a tree: its header and its blocks *)

(** The header words [f_size] to [f_indirect]. *)
Definition same_header (img img' : Z -> Z) (f f' : Z) : Prop :=
  forall o, 128 <= o < 180 -> o mod 4 = 0 -> img' (f' + o) = img (f + o).
Definition same_blocks (img img' : Z -> Z) (lo hi : Z) : Prop :=
  forall x, data lo <= x < data hi -> x mod 4 = 0 -> img' x = img x.

Lemma same_blocks_sub img img' lo hi lo' hi' :
  same_blocks img img' lo hi -> lo <= lo' -> hi' <= hi -> same_blocks img img' lo' hi'.
Proof. unfold same_blocks, data, BY2BLK, BY2PG. intros H ? ? x Hx. apply H. lia. Qed.

Lemma same_header_dir img img' f f' : same_header img img' f f' ->
  img' (f_size f') = img (f_size f) /\ img' (f_type f') = img (f_type f) /\
  img' (f_indirect f') = img (f_indirect f) /\
  (forall i, 0 <= i < NDIRECT -> img' (f_direct f' i) = img (f_direct f i)).
Proof.
  intros H. split_and!; [by apply H..|]. intros i Hi. change NDIRECT with 10 in Hi.
  unfold f_direct. rewrite <- !Z.add_assoc. apply H; [lia|].
  Z.div_mod_to_equations. lia.
Qed.

(** The words that give the block numbers of the file at [f]. *)
Definition same_ptrs (img img' : Z -> Z) (f f' n : Z) : Prop :=
  (forall i, 0 <= i < NDIRECT -> img' (f_direct f' i) = img (f_direct f i)) /\
  img' (f_indirect f') = img (f_indirect f) /\
  (NDIRECT < n -> same_blocks img img' (img (f_indirect f)) (img (f_indirect f) + 1)).

Lemma ptr_frame img img' f f' n i : n <= NINDIRECT ->
  same_ptrs img img' f f' n -> 0 <= i < n -> ptr img' f' i = ptr img f i.
Proof.
  intros Hn (Hd & Hind & Hb) Hi. unfold ptr. change NINDIRECT with 1024 in Hn.
  destruct (Z.ltb_spec i NDIRECT); [apply Hd; lia|]. rewrite Hind.
  apply Hb; unfold data, BY2BLK, BY2PG; [lia..|]. Z.div_mod_to_equations. lia.
Qed.

Lemma owns_frame img img' f f' n lo hi : owns img f n lo hi ->
  same_ptrs img img' f f' n -> owns img' f' n lo hi.
Proof.
  intros Ho Hs. pose proof (fun i => ptr_frame _ _ _ _ _ i (proj2 (ow_n Ho)) Hs) as Hp.
  destruct Hs as (_ & Hind & _). split.
  - apply Ho.
  - intros i Hi. rewrite Hp by done. by apply (ow_ptr Ho).
  - intros i j Hi Hj. rewrite !Hp by done. by apply (ow_inj Ho).
  - intros Hn. rewrite Hind. by apply (ow_none Ho).
  - intros Hn. rewrite Hind. destruct (ow_ind Ho Hn) as [Hr Hd]. split; [done|].
    intros i Hi. rewrite Hp by done. by apply Hd.
Qed.

Lemma frame_ptrs img img' f f' n lo hi : owns img f n lo hi ->
  same_header img img' f f' -> same_blocks img img' lo hi -> same_ptrs img img' f f' n.
Proof.
  intros Ho Hh Hb. apply same_header_dir in Hh as (_ & _ & Hind & Hd). do 2 (split; [done|]).
  intros Hn. destruct (ow_ind Ho Hn) as [Hr _].
  eapply same_blocks_sub; [done|lia|lia].
Qed.

Lemma slot_bounds img f n lo hi k : owns img f n lo hi -> 0 <= k < FILE2BLK * n ->
  exists i, 0 <= i < n /\ data (ptr img f i) <= slot img f k /\
    slot img f k + BY2FILE <= data (ptr img f i + 1) /\ slot img f k mod BY2FILE = 0.
Proof.
  intros Ho Hk. exists (k / FILE2BLK). unfold slot, data, BY2FILE, BY2BLK, BY2PG.
  change FILE2BLK with 16 in *. split_and!; try (Z.div_mod_to_equations; lia).
Qed.

Lemma slot_in img f n lo hi k : owns img f n lo hi -> 0 <= k < FILE2BLK * n ->
  data lo <= slot img f k /\ slot img f k + BY2FILE <= data hi.
Proof.
  intros Ho Hk. destruct (slot_bounds _ _ _ _ _ _ Ho Hk) as (i & Hi & H1 & H2 & _).
  pose proof (ow_ptr Ho i Hi). unfold data, BY2BLK, BY2PG in *. lia.
Qed.

Lemma slot_inj img f n lo hi j k : owns img f n lo hi -> 0 <= j < FILE2BLK * n ->
  0 <= k < FILE2BLK * n -> j <> k ->
  slot img f j + BY2FILE <= slot img f k \/ slot img f k + BY2FILE <= slot img f j.
Proof.
  intros Ho Hj Hk Hne. pose proof (ow_inj Ho (j / FILE2BLK) (k / FILE2BLK)) as Hinj.
  unfold slot, data, BY2FILE, BY2BLK, BY2PG. change FILE2BLK with 16 in *.
  set (p := ptr img f (j / 16)) in *. set (q := ptr img f (k / 16)) in *.
  assert (Hpq : p = q -> j / 16 = k / 16).
  { intros E. apply Hinj; [Z.div_mod_to_equations; lia..|done]. }
  pose proof (Z.mod_pos_bound j 16 ltac:(lia)). pose proof (Z.mod_pos_bound k 16 ltac:(lia)).
  destruct (decide (p = q)) as [E|]; [|lia].
  specialize (Hpq E). assert (j mod 16 <> k mod 16) by (Z.div_mod_to_equations; lia). lia.
Qed.

Lemma slot_frame img img' f f' n k : n <= NINDIRECT ->
  same_ptrs img img' f f' n -> 0 <= k < FILE2BLK * n -> slot img' f' k = slot img f k.
Proof.
  intros Hn Hs Hk. unfold slot. rewrite (ptr_frame img img' f f' n); [done..|].
  change FILE2BLK with 16 in *. Z.div_mod_to_equations. lia.
Qed.

Lemma own_frame img img' f f' n b : n <= NINDIRECT ->
  same_ptrs img img' f f' n -> own img' f' n b -> own img f n b.
Proof.
  intros Hn Hs [(i & Hi & ->)|[Hlt ->]].
  - left. exists i. split; [done|]. by rewrite (ptr_frame img img' f f' n).
  - right. split; [done|]. apply Hs.
Qed.

Lemma own_in img f n lo hi b : owns img f n lo hi -> own img f n b -> lo <= b < hi.
Proof.
  intros Ho [(i & Hi & ->)|[Hn ->]]; [by apply (ow_ptr Ho)|].
  by apply (ow_ind Ho).
Qed.

(** A byte of an unchanged word. *)
Lemma mem_byte_frame img img' a : img' (a - a mod 4) = img (a - a mod 4) ->
  mem_byte img' a = mem_byte img a.
Proof. intros H. unfold mem_byte. by rewrite H. Qed.

(** The words of [a, b), for aligned [a] and [b], hold the bytes of [a, b). *)
Lemma mem_byte_same img img' lo hi a : same_blocks img img' lo hi ->
  data lo <= a < data hi -> mem_byte img' a = mem_byte img a.
Proof.
  intros Hb Ha. apply mem_byte_frame, Hb.
  - unfold data, BY2BLK, BY2PG in *. Z.div_mod_to_equations. lia.
  - Z.div_mod_to_equations. lia.
Qed.

Lemma str_at_slot img img' f n lo hi k name : owns img f n lo hi -> 0 <= k < FILE2BLK * n ->
  (forall x, slot img f k <= x < slot img f k + MAXNAMELEN -> x mod 4 = 0 -> img' x = img x) ->
  Z.of_nat (length name) < MAXNAMELEN ->
  str_at img' (slot img f k) name = str_at img (slot img f k) name.
Proof.
  intros Ho Hk Hsame Hl. apply str_at_ext. intros i Hi. apply mem_byte_frame, Hsame;
    [|Z.div_mod_to_equations; lia].
  destruct (slot_bounds _ _ _ _ _ _ Ho Hk) as (_ & _ & _ & _ & Hal).
  change MAXNAMELEN with 128 in *. unfold BY2FILE in Hal. Z.div_mod_to_equations. lia.
Qed.

Lemma file_frame img img' c f f' lo hi : file_shape img c f lo hi ->
  same_header img img' f f' -> same_blocks img img' lo hi -> file_shape img' c f' lo hi.
Proof.
  intros Hf Hh Hb. pose proof (fi_owns Hf) as Ho.
  pose proof (frame_ptrs _ _ _ _ _ _ _ Ho Hh Hb) as Hp.
  pose proof (same_header_dir _ _ _ _ Hh) as (Hs & Ht & _). split.
  - rewrite Hs. apply Hf.
  - rewrite Ht. apply Hf.
  - by eapply owns_frame.
  - intros j Hj. set (n := blocks_for (Z.of_nat (length c))) in *.
    assert (Hi : 0 <= j / BY2BLK < n).
    { unfold n, blocks_for, BY2BLK, BY2PG. Z.div_mod_to_equations. lia. }
    rewrite (ptr_frame img img' f f' n) by (done || apply Ho).
    rewrite (mem_byte_same img img' lo hi); [by apply (fi_bytes Hf)|done|].
    pose proof (ow_ptr Ho _ Hi). unfold data, BY2BLK, BY2PG in *.
    Z.div_mod_to_equations. lia.
Qed.

(** The name and the tree of entry [k] depend on its slot up to [f_dir] and
    on its blocks. *)
Definition same_entry (img img' : Z -> Z) (f : Z) (k : nat) (lo hi : Z) : Prop :=
  (forall o, 0 <= o < 180 -> o mod 4 = 0 ->
     img' (slot img f (Z.of_nat k) + o) = img (slot img f (Z.of_nat k) + o)) /\
  same_blocks img img' lo hi.

Section Entries.
Context {img : Z -> Z} {R : fnode -> Z -> Z -> Z -> Prop}.
Context {es : list (list Z * fnode)} {f lo hi n : Z} {clo chi : nat -> Z}.
Context (Hd : dir_shape img R es f lo hi n clo chi).

Lemma entry_slot k : (k < length es)%nat -> 0 <= Z.of_nat k < FILE2BLK * n.
Proof. pose proof (di_room Hd). lia. Qed.

Lemma entry_aligned k o : 0 <= k < FILE2BLK * n -> o mod 4 = 0 -> (slot img f k + o) mod 4 = 0.
Proof.
  intros Hk Ho. destruct (slot_bounds _ _ _ _ _ _ (di_owns Hd) Hk)
    as (_ & _ & _ & _ & Hal). unfold BY2FILE in Hal. Z.div_mod_to_equations. lia.
Qed.

Context {img' : Z -> Z}.

Lemma entry_name k name t : es !! k = Some (name, t) ->
  same_entry img img' f k (clo k) (chi k) -> str_at img' (slot img f (Z.of_nat k)) name = true.
Proof.
  intros Hes [Hs _]. pose proof (entry_slot k ltac:(by eapply lookup_lt_Some)) as Hk.
  destruct (di_name Hd k name t Hes) as (_ & _ & Hl & Hn). rewrite <- Hn.
  eapply str_at_slot; [apply Hd|done| |done]. intros x Hx Hal. change MAXNAMELEN with 128 in *.
  specialize (Hs (x - slot img f (Z.of_nat k)) ltac:(lia)).
  replace (slot img f (Z.of_nat k) + (x - slot img f (Z.of_nat k))) with x in Hs by lia.
  apply Hs. pose proof (entry_aligned (Z.of_nat k) 0 Hk eq_refl). Z.div_mod_to_equations. lia.
Qed.

Lemma entry_header k : same_entry img img' f k (clo k) (chi k) ->
  same_header img img' (slot img f (Z.of_nat k)) (slot img f (Z.of_nat k)).
Proof. intros [Hs _] o Hor. apply Hs. lia. Qed.

(** Words in a slot or in the blocks of a child are in the directory's
    interval. *)
Lemma entry_kept k : (k < length es)%nat ->
  same_blocks img img' lo hi -> same_entry img img' f k (clo k) (chi k).
Proof.
  intros Hk Hb. pose proof (entry_slot k Hk) as Hk'.
  pose proof (slot_in _ _ _ _ _ _ (di_owns Hd) Hk').
  pose proof (di_span Hd k Hk). split.
  - intros o Ho Hal. apply Hb; [unfold BY2FILE in *; lia|by apply entry_aligned].
  - eapply same_blocks_sub; [done|lia|lia].
Qed.

(** The directory seen in another image, or from another header. *)
Lemma dir_rebuild R' f' :
  img' (f_size f') = img (f_size f) -> img' (f_type f') = img (f_type f) ->
  same_ptrs img img' f f' n ->
  (forall k name t, es !! k = Some (name, t) ->
     str_at img' (slot img f (Z.of_nat k)) name = true /\
     R' t (slot img f (Z.of_nat k)) (clo k) (chi k)) ->
  (forall k o, Z.of_nat (length es) <= k < FILE2BLK * n -> 0 <= o < BY2FILE -> o mod 4 = 0 ->
     img' (slot img f k + o) = img (slot img f k + o)) ->
  dir_shape img' R' es f' lo hi n clo chi.
Proof.
  intros Hs Ht Hp He Hf. pose proof (di_owns Hd) as Ho. pose proof (proj2 (ow_n Ho)) as Hn.
  assert (Hslot : forall k, 0 <= k < FILE2BLK * n -> slot img' f' k = slot img f k)
    by (intros k Hk; by eapply slot_frame).
  split.
  - rewrite Hs. exact (di_size Hd).
  - rewrite Ht. exact (di_type Hd).
  - by eapply owns_frame.
  - exact (di_room Hd).
  - intros k name t Hes. pose proof (lookup_lt_Some _ _ _ Hes) as Hl.
    destruct (di_name Hd k name t Hes) as (H1 & H2 & H3 & _).
    do 3 (split; [done|]). rewrite Hslot by (by apply entry_slot). by eapply He.
  - exact (di_span Hd).
  - intros k b Hkl Hown. eapply (di_apart Hd); [done|]. by eapply own_frame.
  - exact (di_order Hd).
  - intros k name t Hes. pose proof (lookup_lt_Some _ _ _ Hes) as Hl.
    rewrite Hslot by (by apply entry_slot). by eapply He.
  - intros k o Hkr Hor Hal. rewrite Hslot by lia. rewrite Hf by done. by apply (di_free Hd).
Qed.
End Entries.

(** A tree depends on nothing but its header and its blocks. *)
Lemma rep_frame img img' t : forall f f' lo hi, rep img t f lo hi ->
  same_header img img' f f' -> same_blocks img img' lo hi -> rep img' t f' lo hi.
Proof.
  induction t as [c|es IH] using fnode_nested_ind; intros f f' lo hi Hr Hh Hb.
  { inversion Hr; subst. constructor. by eapply file_frame. }
  inversion Hr as [|? ? ? ? n clo chi Hd]; subst. pose proof (di_owns Hd) as Ho.
  pose proof (same_header_dir _ _ _ _ Hh) as (Hs & Ht & _).
  eapply rep_dir, (dir_rebuild Hd); [done|done|by eapply frame_ptrs| |].
  - intros k name t Hes. pose proof (lookup_lt_Some _ _ _ Hes) as Hl.
    pose proof (proj1 (Forall_lookup _ _) IH k _ Hes) as IHk. cbn in IHk.
    pose proof (entry_kept Hd k Hl Hb) as He. split; [by apply (entry_name Hd k name t)|].
    eapply IHk; [by eapply (di_rep Hd)|by eapply entry_header|apply He].
  - intros k o Hkr Hor Hal. apply Hb; [|apply (entry_aligned Hd); [lia|done]].
    pose proof (slot_in _ _ _ _ _ k Ho ltac:(lia)). lia.
Qed.

(** A change inside the blocks of entry [k], and of its [f_dir]. *)
Lemma dir_touch img img' es f lo hi n clo chi k name t :
  dir_shape img (rep img) es f lo hi n clo chi -> es !! k = Some (name, t) ->
  same_header img img' f f ->
  (forall x, data lo <= x < data hi -> x mod 4 = 0 -> ~ (data (clo k) <= x < data (chi k)) ->
     x <> f_dir (slot img f (Z.of_nat k)) -> img' x = img x) ->
  rep img' t (slot img f (Z.of_nat k)) (clo k) (chi k) ->
  dir_shape img' (rep img') es f lo hi n clo chi.
Proof.
  intros Hd Hk Hh Hb Ht. pose proof (di_owns Hd) as Ho. pose proof (lookup_lt_Some _ _ _ Hk) as Hl.
  pose proof (same_header_dir _ _ _ _ Hh) as (Hhs & Hht & Hhi & Hhd).
  pose proof (di_span Hd k Hl) as Hsk. pose proof (entry_slot Hd k Hl) as Hk'.
  assert (Hown : forall b x, own img f n b -> data b <= x < data (b + 1) -> x mod 4 = 0 ->
    x <> f_dir (slot img f (Z.of_nat k)) -> img' x = img x).
  { intros b x Hob Hx Hal Hne. pose proof (own_in _ _ _ _ _ _ Ho Hob).
    pose proof (di_apart Hd k b Hl Hob). apply Hb; unfold data, BY2BLK, BY2PG in *; (done || lia). }
  assert (Hslot : forall j o, 0 <= j < FILE2BLK * n -> 0 <= o < BY2FILE -> o mod 4 = 0 ->
    j <> Z.of_nat k \/ o < 180 -> img' (slot img f j + o) = img (slot img f j + o)).
  { intros j o Hj Hor Hal Hne. destruct (slot_bounds _ _ _ _ _ _ Ho Hj) as (i & Hi & H1 & H2 & _).
    apply (Hown (ptr img f i)); [left; eauto|unfold data, BY2BLK, BY2PG in *; lia
      |by apply (entry_aligned Hd)|].
    unfold f_dir. destruct Hne as [Hne|]; [|unfold BY2FILE in *; destruct (decide (j = Z.of_nat k)) as [->|Hne]; [lia|]];
      pose proof (slot_inj _ _ _ _ _ j (Z.of_nat k) Ho Hj Hk' Hne); unfold BY2FILE in *; lia. }
  apply (dir_rebuild Hd); [done|done| | |].
  - split; [done|]. split; [done|]. intros Hn x Hx Hal. apply (Hown (img (f_indirect f))); [by right|done..|].
    destruct (slot_bounds _ _ _ _ _ _ Ho Hk') as (i & Hi & H1 & H2 & _).
    pose proof (proj2 (ow_ind Ho Hn) i Hi). unfold f_dir, data, BY2FILE, BY2BLK, BY2PG in *. lia.
  - intros j nj tj Hj. pose proof (lookup_lt_Some _ _ _ Hj) as Hlj.
    pose proof (entry_slot Hd j Hlj) as Hj'. pose proof (di_span Hd j Hlj) as Hsj.
    destruct (decide (j = k)) as [->|Hne].
    { rewrite Hk in Hj. injection Hj as <- <-. split; [|done].
      destruct (di_name Hd k name t Hk) as (_ & _ & Hlen & <-).
      apply (str_at_slot _ _ _ _ _ _ _ _ Ho Hk'); [|done]. intros x Hx Hal.
      change MAXNAMELEN with 128 in *. pose proof (entry_aligned Hd (Z.of_nat k) 0 Hk' eq_refl) as Ha.
      replace x with (slot img f (Z.of_nat k) + (x - slot img f (Z.of_nat k))) by lia.
      apply Hslot; [done|unfold BY2FILE; lia| |right; lia]. Z.div_mod_to_equations. lia. }
    assert (He : same_entry img img' f j (clo j) (chi j)).
    { split; [intros o Hor Hal; apply Hslot; (done || (unfold BY2FILE; lia))|].
      intros x Hx Hal. apply Hb; [unfold data, BY2BLK, BY2PG in *; lia|done| |].
      - pose proof (di_order Hd j k). pose proof (di_order Hd k j).
        unfold data, BY2BLK, BY2PG in *. lia.
      - destruct (slot_bounds _ _ _ _ _ _ Ho Hk') as (i & Hi & H1 & H2 & _).
        pose proof (di_apart Hd j (ptr img f i) Hlj ltac:(left; eauto)).
        unfold f_dir, data, BY2FILE, BY2BLK, BY2PG in *. lia. }
    split; [by apply (entry_name Hd j nj tj)|].
    eapply rep_frame; [by apply (di_rep Hd j nj)|by eapply entry_header|apply He].
  - intros j o Hj Hor Hal. apply Hslot; (done || lia).
Qed.

(** ** Adding to a directory *)

Definition name_ok (name : list Z) : Prop :=
  Forall is_char name /\ name <> [] /\ Z.of_nat (length name) < MAXNAMELEN.

(** At most one entry more, its tree in the blocks from [hi] on. *)
Definition new_entry (img : Z -> Z) (more : list (list Z * fnode)) (f k n hi hi' : Z) : Prop :=
  match more with
  | [] => True
  | [(name, t)] => name_ok name /\ str_at img (slot img f k) name = true /\
      rep img t (slot img f k) hi hi' /\ (forall b, own img f n b -> b < hi)
  | _ => False
  end.

Definition extend (clo : nat -> Z) (k : nat) (v : Z) : nat -> Z :=
  fun j => if decide (j = k) then v else clo j.

Section Update.
Context {img img' : Z -> Z} {es more : list (list Z * fnode)} {f lo hi hi' n n' : Z}.
Context {clo chi : nat -> Z}.
Context (Hd : dir_shape img (rep img) es f lo hi n clo chi).
Context (Hhi : hi <= hi') (Hn : n <= n').
Context (Hsize : img' (f_size f) = n' * BY2BLK) (Htype : img' (f_type f) = FTYPE_DIR).
Context (Ho' : owns img' f n' lo hi').
Context (Hptr : forall i, 0 <= i < n -> ptr img' f i = ptr img f i).
Context (Hown : forall b, own img' f n' b -> own img f n b \/ hi <= b).
Context (Hkept : forall x, data lo <= x < data hi -> x mod 4 = 0 ->
  ~ (NDIRECT < n /\ data (img (f_indirect f)) <= x < data (img (f_indirect f) + 1)) ->
  (forall k, Z.of_nat (length es) <= k < FILE2BLK * n ->
     ~ (slot img f k <= x < slot img f k + BY2FILE)) -> img' x = img x).
Context (Hroom : Z.of_nat (length (es ++ more)) <= FILE2BLK * n').
Context (Hnew : new_entry img' more f (Z.of_nat (length es)) n' hi hi').
Context (Hfree : forall k o, Z.of_nat (length (es ++ more)) <= k < FILE2BLK * n' ->
  0 <= o < BY2FILE -> o mod 4 = 0 -> img' (slot img' f k + o) = 0).

Lemma update_slot k : 0 <= k < FILE2BLK * n -> slot img' f k = slot img f k.
Proof.
  intros Hk. unfold slot. rewrite Hptr; [done|]. change FILE2BLK with 16 in *.
  Z.div_mod_to_equations. lia.
Qed.

(** A block that is not the directory's own is not the indirect block. *)
Lemma update_entry k : (k < length es)%nat -> same_entry img img' f k (clo k) (chi k).
Proof.
  intros Hk. pose proof (entry_slot Hd k Hk) as Hk'. pose proof (di_owns Hd) as Ho.
  pose proof (slot_in _ _ _ _ _ _ Ho Hk') as Hin. pose proof (di_span Hd k Hk) as Hs. split.
  - intros o Hor Hal. apply Hkept.
    + unfold BY2FILE in *. lia.
    + by apply (entry_aligned Hd).
    + intros [Hnd Hx]. destruct (ow_ind Ho Hnd) as [_ Hne].
      destruct (slot_bounds _ _ _ _ _ _ Ho Hk') as (i & Hi & H1 & H2 & _).
      apply (Hne i Hi). unfold data, BY2FILE, BY2BLK, BY2PG in *. lia.
    + intros j Hj Hx. pose proof (slot_inj _ _ _ _ _ j (Z.of_nat k) Ho ltac:(lia) Hk' ltac:(lia)).
      unfold BY2FILE in *. lia.
  - intros x Hx Hal. apply Hkept; [unfold data, BY2BLK, BY2PG in *; lia|done| |].
    + intros [Hnd Hx']. pose proof (di_apart Hd k (img (f_indirect f)) Hk ltac:(by right)).
      unfold data, BY2BLK, BY2PG in *. lia.
    + intros j Hj Hx'. destruct (slot_bounds _ _ _ _ _ j Ho ltac:(lia)) as (i & Hi & H1 & H2 & _).
      pose proof (di_apart Hd k (ptr img f i) Hk ltac:(left; eauto)).
      unfold data, BY2FILE, BY2BLK, BY2PG in *. lia.
Qed.

Lemma app_more k name t : (es ++ more) !! k = Some (name, t) ->
  es !! k = Some (name, t) \/ (k = length es /\ more = [(name, t)]).
Proof using Hnew.
  clear Hroom Hfree. intros Hk. apply lookup_app_Some in Hk as [Hk|[Hle Hk]]; [by left|]. right.
  unfold new_entry in Hnew. destruct more as [|[name' t'] [|]]; [done| |done].
  apply list_lookup_singleton_Some in Hk as [Hk Heq]. split; [lia|by rewrite Heq].
Qed.

Lemma dir_update :
  dir_shape img' (rep img') (es ++ more) f lo hi' n'
    (extend clo (length es) hi) (extend chi (length es) hi').
Proof.
  pose proof (di_room Hd) as Hr0.
  assert (Hold : forall k, (k < length es)%nat -> slot img' f (Z.of_nat k) = slot img f (Z.of_nat k)).
  { intros k Hk. apply update_slot. by apply (entry_slot Hd). }
  assert (Hmore : length more = 0%nat \/ length more = 1%nat /\ (forall b, own img' f n' b -> b < hi)).
  { unfold new_entry in Hnew. destruct more as [|[name' t'] [|]]; [by left| |done].
    right. split; [done|]. apply Hnew. }
  rewrite length_app in Hroom, Hfree. split; try done.
  - rewrite length_app. lia.
  - intros k name t Hk. destruct (app_more k name t Hk) as [Hes|[-> Hm]].
    + pose proof (lookup_lt_Some _ _ _ Hes) as Hl.
      destruct (di_name Hd k name t Hes) as (H1 & H2 & H3 & _). do 3 (split; [done|]).
      rewrite Hold by done. apply (entry_name Hd k name t Hes). by apply update_entry.
    + subst more. destruct Hnew as ((H1 & H2 & H3) & H4 & _). done.
  - intros k Hk. rewrite length_app in Hk. unfold extend. case_decide.
    + pose proof (ow_n Ho'). destruct Hmore as [|[_ Hb]]; [lia|].
      assert (n' <> 0) by (intros ->; change (FILE2BLK * 0) with 0 in Hroom; lia).
      pose proof (ow_ptr Ho' 0 ltac:(lia)).
      pose proof (Hb (ptr img' f 0) ltac:(left; exists 0; split; [lia|done])). lia.
    + pose proof (di_span Hd k ltac:(lia)). lia.
  - intros k b Hk Hb. rewrite length_app in Hk. unfold extend. case_decide.
    + left. destruct Hmore as [|[_ H0]]; [lia|by apply H0].
    + destruct (Hown b Hb) as [Hb'|].
      * apply (di_apart Hd); [lia|done].
      * right. pose proof (di_span Hd k ltac:(lia)). lia.
  - intros j k Hjk. rewrite length_app in Hjk. unfold extend. repeat case_decide; try lia.
    + pose proof (di_span Hd j ltac:(lia)). lia.
    + apply (di_order Hd). lia.
  - intros k name t Hk. destruct (app_more k name t Hk) as [Hes|[-> Hm]].
    + pose proof (lookup_lt_Some _ _ _ Hes) as Hl. unfold extend. rewrite decide_False by lia.
      rewrite decide_False by lia. rewrite Hold by done. pose proof (update_entry k Hl) as He.
      eapply rep_frame; [by apply (di_rep Hd k name)|by eapply entry_header|apply He].
    + subst more. unfold extend. rewrite !decide_True by done. by destruct Hnew as (_ & _ & ? & _).
  - intros k o Hk. apply Hfree. rewrite length_app in Hk. lia.
Qed.
End Update.
