(* ===== verification/FsformatFacts.v ===== *)
(** * Runs of the formatting program

    What each operation of Fsformat.v does to the image, in terms of the
    shapes of FsImage.v.  [nextbno] only grows, and the blocks from it on are
    zero. *)
From S2P Require Import Prelude Mmu UserMem Fs FsBlocks FsFiles Fsformat FsImage.

(** ** Primitives *)
Record wf (s : host) : Prop := {
  wf_next : 3 <= nextbno s <= NBLOCK;
  wf_fresh x : data (nextbno s) <= x < SUPER -> x mod 4 = 0 -> words s x = 0
}.

(** Nothing below block [lo] differs, but the words of [a, b). *)
Definition changes (a b lo : Z) (s s' : host) : Prop :=
  forall x, x mod 4 = 0 -> ~ (a <= x < b) -> ~ (data lo <= x < SUPER) -> words s' x = words s x.

Lemma changes_trans a b lo a1 b1 lo1 s s1 s2 :
  changes a b lo s s1 -> changes a1 b1 lo1 s1 s2 -> lo <= lo1 ->
  (a <= a1 /\ b1 <= b \/ data lo <= a1 /\ b1 <= SUPER) ->
  changes a b lo s s2.
Proof.
  intros H1 H2 Hlo Hin x Hal Hx Hlx. rewrite H2; [by apply H1|done|lia|].
  unfold data, BY2BLK, BY2PG in *. lia.
Qed.

Lemma changes_refl a b lo s : changes a b lo s s.
Proof. done. Qed.

(** A header in [super] or in a block below [lo]. *)
Record header_ok (f lo : Z) : Prop := {
  ho_align : f mod 4 = 0;
  ho_low : 0 <= f;
  ho_high : f + BY2FILE <= SUPER + BY2SUPER;
  ho_away : f + BY2FILE <= data lo \/ SUPER <= f
}.

Lemma SUPER_eq : SUPER = 4194304.
Proof. done. Qed.

Lemma valid_spec a : valid a = true <-> 0 <= a < 4194568.
Proof. unfold valid. change (SUPER + BY2SUPER) with 4194568. rewrite andb_true_iff. lia. Qed.

Lemma header_valid f lo o : header_ok f lo -> 0 <= o < BY2FILE -> valid (f + o) = true.
Proof.
  intros [H1 H2 H3 _] Ho. apply valid_spec. change (SUPER + BY2SUPER) with 4194568 in H3. lia.
Qed.

Lemma rd_run a s : valid a = true -> rd a s = Ret (words s a) s.
Proof. intros H. unfold rd. by rewrite H. Qed.

Lemma wr_run a v s : valid a = true -> wr a v s = Ret tt (set_words (upd (words s) a v) s).
Proof. intros H. unfold wr. by rewrite H. Qed.

Lemma rd_byte_run a s : valid (a - a mod 4) = true -> rd_byte a s = Ret (mem_byte (words s) a) s.
Proof. intros H. unfold rd_byte. by rewrite (bind_step _ _ _ _ _ (rd_run _ _ H)). Qed.

Lemma wr_bytes_run a n src s : valid a = true -> a mod BY2BLK + n <= BY2BLK ->
  wr_bytes a n src s = Ret tt (set_words (blit a n src (words s)) s).
Proof. intros H1 H2. unfold wr_bytes. by rewrite H1, (proj2 (Z.leb_le _ _) H2). Qed.

Lemma block_data_run b s : 0 <= b < NBLOCK -> block_data b s = Ret (data b) s.
Proof.
  intros [H1 H2]. unfold block_data. by rewrite (proj2 (Z.leb_le _ _) H1), (proj2 (Z.ltb_lt _ _) H2).
Qed.

Definition stepped (type : Z) (s : host) : host :=
  set_nextbno (nextbno s + 1) (set_types (upd (types s) (nextbno s) type) s).

Lemma next_block_run type s : 0 <= nextbno s < NBLOCK ->
  next_block type s = Ret (nextbno s) (stepped type s).
Proof.
  intros [H1 H2]. unfold next_block. rewrite (bind_step _ _ s (nextbno s) s) by done.
  unfold set_type, bind. rewrite (proj2 (Z.leb_le _ _) H1), (proj2 (Z.ltb_lt _ _) H2).
  unfold stepped. cbn. rewrite u32_id; [done|]. unfold NBLOCK in H2. lia.
Qed.

(** Bytes written where nothing else is. *)
Lemma blit_word_other a n src m x : x mod 4 = 0 -> a mod 4 = 0 -> ~ (a <= x < a + n) ->
  blit a n src m x = m x.
Proof.
  intros Hx Ha Hn. unfold blit.
  destruct (Z.ltb_spec a (x + 4)), (Z.ltb_spec x (a + n)); cbn [andb]; try done.
  exfalso. Z.div_mod_to_equations. lia.
Qed.

Lemma char_at_range str j : Forall (fun c => 0 <= c < 256) str -> 0 <= char_at str j < 2 ^ 8.
Proof.
  intros H. unfold char_at. destruct (str !! Z.to_nat j) eqn:Hj; cbn; [|lia].
  apply (Forall_lookup_1 _ _ _ _ H Hj).
Qed.

(** A string is at [a] when its bytes are, with a terminator. *)
Lemma str_at_bytes m a str :
  (forall i, 0 <= i <= Z.of_nat (length str) -> mem_byte m (a + i) = char_at str i) ->
  str_at m a str = true.
Proof.
  revert a. induction str as [|c str IH]; intros a H; cbn [str_at].
  - specialize (H 0 ltac:(done)). rewrite Z.add_0_r in H. by rewrite H.
  - pose proof (H 0 ltac:(cbn; lia)) as H0. rewrite Z.add_0_r in H0. rewrite H0.
    change (char_at (c :: str) 0) with c. rewrite Z.eqb_refl. cbn [andb]. apply IH.
    intros i Hi. specialize (H (i + 1) ltac:(cbn; lia)). rewrite <- Z.add_assoc, (Z.add_comm 1 i), H.
    unfold char_at. replace (Z.to_nat (i + 1)) with (S (Z.to_nat i)) by lia. done.
Qed.

(** ** Linking a block *)

(** Blocks of a file of [n] blocks, the indirect block among them. *)
Definition total (n : Z) : Z := n + (if NDIRECT <? n then 1 else 0).

Record linked (f n b lo : Z) (s s' : host) : Prop := {
  ln_next : nextbno s' = nextbno s + (if n =? NDIRECT then 1 else 0);
  ln_owns : owns (words s') f (n + 1) lo (nextbno s');
  ln_old i : 0 <= i < n -> ptr (words s') f i = ptr (words s) f i;
  ln_new : ptr (words s') f n = b;
  ln_own c : own (words s') f (n + 1) c -> own (words s) f n c \/ b <= c;
  ln_ind : NDIRECT <= n -> lo <= words s' (f_indirect f) < nextbno s' /\
    words s' (f_indirect f) <> b /\
    (words s' (f_indirect f) = words s (f_indirect f) \/ words s' (f_indirect f) = nextbno s);
  ln_words x : ~ (f + 136 <= x < f + 180) ->
    ~ (NDIRECT <= n /\ data (words s' (f_indirect f)) <= x < data (words s' (f_indirect f) + 1)) ->
    words s' x = words s x
}.

Section Link.
Context (f n lo : Z) (s : host).
Context (Hf : header_ok f lo) (Hlo : 0 < lo).

Lemma direct_valid i : 0 <= i < NDIRECT -> valid (f_direct f i) = true.
Proof.
  intros Hi. unfold f_direct. rewrite <- Z.add_assoc. apply (header_valid f lo); [done|].
  change NDIRECT with 10 in Hi. unfold BY2FILE. lia.
Qed.

Lemma indirect_valid : valid (f_indirect f) = true.
Proof. apply (header_valid f lo); [done|]. unfold BY2FILE. lia. Qed.

Lemma index_valid ind i : 0 <= ind < NBLOCK -> 0 <= i < NINDIRECT -> valid (data ind + 4 * i) = true.
Proof.
  intros H1 H2. apply valid_spec. unfold data, BY2BLK, BY2PG. change NINDIRECT with 1024 in H2.
  unfold NBLOCK in H1. lia.
Qed.

(** Reading block numbers after the new one is stored. *)
Lemma ptr_direct_upd m b i : n < NDIRECT -> 0 <= i <= n ->
  ptr (upd m (f_direct f n) b) f i = if decide (i = n) then b else ptr m f i.
Proof.
  intros Hn Hi. unfold ptr. rewrite (proj2 (Z.ltb_lt i NDIRECT)) by lia. rewrite upd_case.
  unfold f_direct. repeat case_decide; (done || lia).
Qed.

Lemma ptr_index_upd m b i ind : m (f_indirect f) = ind -> NDIRECT <= n ->
  (data ind + 4 * n < f + 136 \/ f + 180 <= data ind + 4 * n) -> 0 <= i <= n ->
  ptr (upd m (data ind + 4 * n) b) f i = if decide (i = n) then b else ptr m f i.
Proof.
  intros Hind Hn Hout Hi. unfold ptr. change NDIRECT with 10 in *.
  destruct (Z.ltb_spec i 10).
  - rewrite decide_False by lia. apply upd_other. unfold f_direct. lia.
  - rewrite (upd_other _ (data ind + 4 * n) b (f_indirect f)) by (unfold f_indirect; lia).
    rewrite Hind, upd_case. repeat case_decide; (done || lia).
Qed.

Context (b : Z) (Ho : owns (words s) f n lo b) (Hn : n < NINDIRECT).
Context (Hb : lo <= b < nextbno s) (Hm : nextbno s + (if n =? NDIRECT then 1 else 0) <= NBLOCK).

(** The new pointer gives one block more. *)
Lemma linked_owns m hi :
  (forall i, 0 <= i <= n -> ptr m f i = if decide (i = n) then b else ptr (words s) f i) ->
  b < hi ->
  (n < NDIRECT -> m (f_indirect f) = 0) ->
  (NDIRECT <= n -> lo <= m (f_indirect f) < hi /\ m (f_indirect f) <> b /\
     forall i, 0 <= i < n -> ptr (words s) f i <> m (f_indirect f)) ->
  owns m f (n + 1) lo hi.
Proof.
  intros Hp Hhi H0 H1. pose proof (ow_n Ho). split.
  - lia.
  - intros i Hi. rewrite Hp by lia. case_decide; [lia|]. pose proof (ow_ptr Ho i ltac:(lia)). lia.
  - intros i j Hi Hj. rewrite !Hp by lia. repeat case_decide; subst; try done.
    + pose proof (ow_ptr Ho j ltac:(lia)). lia.
    + pose proof (ow_ptr Ho i ltac:(lia)). lia.
    + apply (ow_inj Ho); lia.
  - intros Hd. apply H0. lia.
  - intros Hd. destruct (H1 ltac:(lia)) as (Hr & Hne & Hold). split; [lia|].
    intros i Hi. rewrite Hp by lia. case_decide; [done|]. apply Hold. lia.
Qed.

Lemma linked_own m c :
  (forall i, 0 <= i <= n -> ptr m f i = if decide (i = n) then b else ptr (words s) f i) ->
  (NDIRECT <= n -> b <= m (f_indirect f) \/ own (words s) f n (m (f_indirect f))) ->
  own m f (n + 1) c -> own (words s) f n c \/ b <= c.
Proof.
  intros Hp Hi [(i & Hir & ->)|[Hlt ->]].
  - rewrite Hp by lia. case_decide; [right; lia|]. left. left. exists i. split; [lia|done].
  - destruct (Hi ltac:(lia)); [by right|by left].
Qed.

(** A direct block. *)
Lemma link_direct : n < NDIRECT -> linked f n b lo s (set_words (upd (words s) (f_direct f n) b) s).
Proof.
  intros Hd. pose proof (ow_n Ho) as Hn0. change NDIRECT with 10 in *.
  rewrite (proj2 (Z.eqb_neq n 10)) in * by lia.
  assert (Hp : forall i, 0 <= i <= n -> ptr (upd (words s) (f_direct f n) b) f i =
    if decide (i = n) then b else ptr (words s) f i)
    by (intros i Hi; apply ptr_direct_upd; change NDIRECT with 10; lia).
  split; cbn [nextbno words set_words]; change NDIRECT with 10 in *.
  - rewrite (proj2 (Z.eqb_neq n 10)) by lia. lia.
  - apply linked_owns; [done|lia| |change NDIRECT with 10; lia]. intros _.
    rewrite upd_other by (unfold f_direct, f_indirect; lia). apply (ow_none Ho).
    change NDIRECT with 10. lia.
  - intros i Hi. rewrite Hp, decide_False by lia. done.
  - by rewrite Hp, decide_True by lia.
  - intros c. apply linked_own; [done|]. change NDIRECT with 10. lia.
  - lia.
  - intros x Hx _. apply upd_other. unfold f_direct. lia.
Qed.

(** The indirect block, taken when the first block that needs it is linked. *)
Definition index_block : Z := if n =? NDIRECT then nextbno s else words s (f_indirect f).

Lemma index_block_spec : NDIRECT <= n ->
  lo <= index_block < nextbno s + (if n =? NDIRECT then 1 else 0) /\ index_block <> b /\
  (n = NDIRECT \/ own (words s) f n index_block) /\ (forall i, 0 <= i < n -> ptr (words s) f i <> index_block).
Proof.
  intros Hd. unfold index_block. destruct (Z.eqb_spec n NDIRECT) as [Heq|].
  - split_and!; try (by left); try lia. intros i Hi. pose proof (ow_ptr Ho i Hi). lia.
  - destruct (ow_ind Ho ltac:(lia)) as [Hr Hne].
    split_and!; try lia; try done. right. right. split; [lia|done].
Qed.

Lemma index_block_run : NDIRECT <= n ->
  exists s1, (if words s (f_indirect f) =? 0 then
      let! c := next_block BLOCK_INDEX in wr (f_indirect f) c else ret tt) s = Ret tt s1 /\
    nextbno s1 = nextbno s + (if n =? NDIRECT then 1 else 0) /\
    (forall x, words s1 x = upd (words s) (f_indirect f) index_block x).
Proof.
  intros Hd. pose proof (ow_n Ho) as Hn0. unfold index_block. destruct (Z.eqb_spec n NDIRECT) as [Heq|Hne].
  - rewrite (ow_none Ho) by lia. rewrite Z.eqb_refl.
    rewrite (bind_step _ _ _ _ _ (next_block_run BLOCK_INDEX s ltac:(unfold NBLOCK in *; lia))).
    rewrite wr_run by (by apply indirect_valid). by eexists.
  - destruct (ow_ind Ho ltac:(lia)) as [Hri _].
    rewrite (proj2 (Z.eqb_neq _ 0)) by lia. exists s. split; [done|]. split; [lia|].
    intros x. rewrite upd_case. by case_decide; subst.
Qed.

Section Index.
Context (s1 : host) (Hd : NDIRECT <= n) (Hn1 : nextbno s1 = nextbno s + (if n =? NDIRECT then 1 else 0)).
Context (Hw1 : forall x, words s1 x = upd (words s) (f_indirect f) index_block x).
Definition index_words : Z -> Z := upd (words s1) (data index_block + 4 * n) b.

Lemma index_away : data index_block + 4 * n < f + 136 \/ f + 180 <= data index_block + 4 * n.
Proof.
  pose proof (ow_n Ho) as Hn0. destruct Hf as [Hal Hf0 Hf1 Hf2]. destruct (index_block_spec Hd) as (Hr & _).
  rewrite SUPER_eq in Hf1, Hf2. change BY2SUPER with 264 in Hf1. change BY2FILE with 256 in *.
  change NINDIRECT with 1024 in *. unfold data, BY2BLK, BY2PG, NBLOCK in *. destruct (n =? NDIRECT); lia.
Qed.

Lemma index_set : index_words (f_indirect f) = index_block.
Proof.
  pose proof index_away. unfold index_words. rewrite upd_other by (unfold f_indirect; lia).
  rewrite Hw1. apply upd_same.
Qed.

Lemma index_ptr i : 0 <= i <= n ->
  ptr index_words f i = if decide (i = n) then b else ptr (words s) f i.
Proof.
  pose proof index_away as Hout. destruct Hf as [Hal Hf0 Hf1 Hf2]. destruct (index_block_spec Hd) as (Hr & _).
  rewrite SUPER_eq in Hf1, Hf2. change BY2SUPER with 264 in Hf1. change BY2FILE with 256 in *.
  assert (Hi1 : words s1 (f_indirect f) = index_block) by (rewrite Hw1; apply upd_same).
  intros Hi. unfold index_words. rewrite (ptr_index_upd (words s1) b i index_block) by done.
  case_decide; [done|]. unfold ptr. change NDIRECT with 10 in *. destruct (Z.ltb_spec i 10).
  - rewrite Hw1. apply upd_other. unfold f_direct, f_indirect. lia.
  - assert (Hie : words s (f_indirect f) = index_block)
      by (unfold index_block; change NDIRECT with 10; by rewrite (proj2 (Z.eqb_neq n 10)) by lia).
    rewrite Hi1, Hw1, Hie. apply upd_other. rewrite (proj2 (Z.eqb_neq n 10)) in * by lia.
    change NINDIRECT with 1024 in *. unfold f_indirect, data, BY2BLK, BY2PG, NBLOCK in *. lia.
Qed.

Lemma link_index : linked f n b lo s (set_words index_words s1).
Proof.
  pose proof (ow_n Ho) as Hn0. destruct (index_block_spec Hd) as (Hr & Hneb & Hown & Hnp).
  split; cbn [nextbno words set_words]; rewrite ?index_set.
  - done.
  - apply linked_owns; rewrite ?index_set; [exact index_ptr|destruct (n =? NDIRECT); lia|lia|].
    intros _. split_and!; (done || lia).
  - intros i Hi. rewrite index_ptr, decide_False by lia. done.
  - by rewrite index_ptr, decide_True by lia.
  - intros c. apply linked_own; [exact index_ptr|]. rewrite index_set. intros _.
    destruct Hown as [Heq|]; [left; unfold index_block; rewrite (proj2 (Z.eqb_eq n NDIRECT)) by done; lia|by right].
  - intros _. split; [lia|]. split; [done|]. unfold index_block. destruct (n =? NDIRECT); [by right|by left].
  - intros x Hx Hx2. unfold index_words. rewrite upd_other, Hw1; [apply upd_other; unfold f_indirect; lia|].
    intros ->. apply Hx2. split; [lia|]. change NINDIRECT with 1024 in *. unfold data, BY2BLK, BY2PG. lia.
Qed.
End Index.

Lemma save_block_link_run : exists s', save_block_link f n b s = Ret tt s' /\ linked f n b lo s s'.
Proof.
  pose proof (ow_n Ho) as Hn0. unfold save_block_link. rewrite (proj2 (Z.ltb_lt n NINDIRECT)) by done.
  rewrite (bind_step _ _ s tt s) by done. destruct (Z.ltb_spec n NDIRECT) as [Hd|Hd].
  { rewrite wr_run by (apply direct_valid; lia). eexists. split; [done|]. by apply link_direct. }
  rewrite (bind_step _ _ _ _ _ (rd_run _ s indirect_valid)).
  destruct (index_block_run Hd) as (s1 & Hrun & Hn1 & Hw1). destruct (index_block_spec Hd) as (Hr & _).
  rewrite (bind_step _ _ _ _ _ Hrun), (bind_step _ _ _ _ _ (rd_run _ s1 indirect_valid)).
  assert (Hi1 : words s1 (f_indirect f) = index_block) by (rewrite Hw1; apply upd_same).
  assert (Hib : 0 <= index_block < NBLOCK) by lia.
  rewrite Hi1, (bind_step _ _ _ _ _ (block_data_run _ s1 Hib)).
  rewrite wr_run by (apply index_valid; [done|lia]). eexists. split; [done|]. by apply link_index.
Qed.
End Link.

Section ReadBlocks.
Context (f lo : Z) (c : list Z).
Context (Hf : header_ok f lo) (Hlo : 0 < lo) (Hc : Forall (fun b => 0 <= b < 256) c).

(** [m] bytes of [c] are in the first [i] blocks. *)
Record filled (i m : Z) (s : host) : Prop := {
  fl_owns : owns (words s) f i lo (nextbno s);
  fl_blocks : i = blocks_for m;
  fl_bytes j : 0 <= j < m ->
    mem_byte (words s) (data (ptr (words s) f (j / BY2BLK)) + j mod BY2BLK) = char_at c j
}.

Lemma blocks_for_step m n : 0 <= m -> m mod BY2BLK = 0 -> 0 < n <= BY2BLK ->
  blocks_for m = m / BY2BLK /\ blocks_for (m + n) = blocks_for m + 1.
Proof. unfold blocks_for, BY2BLK, BY2PG. intros. Z.div_mod_to_equations. lia. Qed.

Lemma total_step n : total (n + 1) = total n + 1 + (if n =? NDIRECT then 1 else 0).
Proof.
  unfold total. change NDIRECT with 10.
  destruct (Z.ltb_spec 10 (n + 1)), (Z.ltb_spec 10 n), (Z.eqb_spec n 10); lia.
Qed.

(** ** One turn of the loop: [k] bytes at the end of the disk, linked as block [i] *)
Section Turn.
Context (i m k : Z) (src : Z -> Z) (s s' : host).
Context (Hsrc : forall j, 0 <= j < k -> src j = char_at c (m + j)).
Context (Hwf : wf s) (Hge : lo <= nextbno s) (Hfill : filled i m s).
Context (Hm : 0 <= m) (Hm0 : m mod BY2BLK = 0) (Hk : 0 < k <= BY2BLK) (Hmk : m + k <= Z.of_nat (length c)).
Context (Hin : i < NINDIRECT) (Hfit : nextbno s + 1 + (if i =? NDIRECT then 1 else 0) <= NBLOCK).

Definition turn_words : Z -> Z := blit (data (nextbno s)) k src (words s).

Lemma turn_block : 0 <= nextbno s < NBLOCK.
Proof. destruct (i =? NDIRECT); lia. Qed.

Lemma turn_write : wr_bytes (data (nextbno s)) k src s = Ret tt (set_words turn_words s).
Proof.
  pose proof turn_block. apply wr_bytes_run.
  - apply valid_spec. unfold data, BY2BLK, BY2PG, NBLOCK in *. lia.
  - destruct (block_div_mod (nextbno s) 0 ltac:(done)) as [_ Hmod]. rewrite Z.add_0_r in Hmod. lia.
Qed.

Lemma turn_words_other x : x mod 4 = 0 -> ~ (data (nextbno s) <= x < data (nextbno s + 1)) ->
  turn_words x = words s x.
Proof.
  intros Hx Hnb. apply blit_word_other; [done| |];
    unfold data, BY2BLK, BY2PG in *; [Z.div_mod_to_equations; lia|lia].
Qed.

(** The header of the file is not in the new block. *)
Lemma turn_header x : f <= x < f + BY2FILE -> ~ (data (nextbno s) <= x < data (nextbno s + 1)).
Proof.
  pose proof (ho_away _ _ Hf). pose proof turn_block. rewrite SUPER_eq in *.
  intros Hx. unfold data, BY2BLK, BY2PG, BY2FILE, NBLOCK in *. lia.
Qed.

Lemma turn_ptrs : same_ptrs (words s) turn_words f f i.
Proof.
  assert (Hf4 : f mod 4 = 0) by apply Hf. pose proof (fl_owns _ _ _ Hfill) as Ho. split; [|split].
  - intros j Hj. change NDIRECT with 10 in Hj.
    apply turn_words_other; [unfold f_direct; Z.div_mod_to_equations; lia|].
    apply turn_header. unfold f_direct, BY2FILE. lia.
  - apply turn_words_other; [unfold f_indirect; Z.div_mod_to_equations; lia|]. apply turn_header.
    unfold f_indirect, BY2FILE. lia.
  - intros Hd x Hx Hal. apply turn_words_other; [done|]. pose proof (ow_ind Ho Hd). intros Hx'.
    eapply (data_lt _ _ x x Hx Hx'); [lia|done].
Qed.

Context (L : linked f i (nextbno s) lo (stepped BLOCK_DATA (set_words turn_words s)) s').

Lemma turn_next : nextbno s' = nextbno s + 1 + (if i =? NDIRECT then 1 else 0).
Proof. apply (ln_next _ _ _ _ _ _ L). Qed.

(** Words outside the new block, the pointers and the indirect block. *)
Lemma turn_frame x : x mod 4 = 0 -> ~ (data (nextbno s) <= x < data (nextbno s + 1)) ->
  ~ (f + 136 <= x < f + 180) ->
  ~ (NDIRECT <= i /\ data (words s' (f_indirect f)) <= x < data (words s' (f_indirect f) + 1)) ->
  words s' x = words s x.
Proof. intros Hx Hb H1 H2. rewrite (ln_words _ _ _ _ _ _ L) by done. by apply turn_words_other. Qed.

Lemma turn_changes : changes (f + 136) (f + 180) lo s s'.
Proof.
  pose proof turn_block. intros x Hx Hxf Hxl. pose proof turn_next as Hn. apply turn_frame; [done| |done|].
  - rewrite SUPER_eq in Hxl. unfold data, BY2BLK, BY2PG, NBLOCK in *. lia.
  - intros [Hd Hxi]. destruct (ln_ind _ _ _ _ _ _ L Hd) as [Hlr _]. rewrite SUPER_eq in Hxl.
    unfold data, BY2BLK, BY2PG, NBLOCK in *. destruct (i =? NDIRECT); lia.
Qed.

Lemma turn_wf : wf s'.
Proof.
  destruct Hwf as [Hw Hfr]. pose proof turn_next as Hn. pose proof (ho_away _ _ Hf) as Haway.
  split; [destruct (i =? NDIRECT); lia|]. intros x Hx Hal. rewrite turn_frame; [|done|..].
  - apply Hfr; [|done]. unfold data, BY2BLK, BY2PG in *. destruct (i =? NDIRECT); lia.
  - unfold data, BY2BLK, BY2PG in *. destruct (i =? NDIRECT); lia.
  - rewrite SUPER_eq in *. intros Hxf. unfold data, BY2BLK, BY2PG, NBLOCK, BY2FILE in *.
    destruct (i =? NDIRECT); lia.
  - intros [Hd Hxi]. destruct (ln_ind _ _ _ _ _ _ L Hd) as [Hlr _].
    unfold data, BY2BLK, BY2PG, NBLOCK in *. destruct (i =? NDIRECT); lia.
Qed.

(** Bytes of the blocks but the indirect one. *)
Lemma turn_keeps p o : lo <= p < nextbno s' -> 0 <= o < BY2BLK ->
  (NDIRECT <= i -> p <> words s' (f_indirect f)) ->
  mem_byte (words s') (data p + o) = mem_byte turn_words (data p + o).
Proof.
  intros Hp Ho Hne. pose proof turn_next as Hn. apply mem_byte_frame.
  assert (Hin' : data p <= data p + o < data (p + 1)) by (unfold data, BY2BLK, BY2PG in *; lia).
  destruct (word_of_byte p _ Hin') as [Hwb Hal]. apply (ln_words _ _ _ _ _ _ L).
  - pose proof (ho_away _ _ Hf). rewrite SUPER_eq in *.
    unfold data, BY2BLK, BY2PG, NBLOCK, BY2FILE in *. destruct (i =? NDIRECT); lia.
  - intros [Hd Hxi]. by apply (data_lt _ _ _ _ Hwb Hxi (Hne Hd)).
Qed.

Lemma turn_old q : 0 <= q < i -> ptr (words s') f q = ptr (words s) f q.
Proof.
  intros Hq. rewrite (ln_old _ _ _ _ _ _ L) by done. pose proof turn_ptrs. apply (ptr_frame _ _ _ _ i); (done || lia).
Qed.

Lemma turn_apart q : 0 <= q < i -> NDIRECT <= i -> ptr (words s) f q <> words s' (f_indirect f).
Proof.
  intros Hq Hd. pose proof (fl_owns _ _ _ Hfill) as Ho. pose proof (ow_ptr Ho q Hq).
  destruct (ln_ind _ _ _ _ _ _ L Hd) as (_ & _ & [->| ->]); [|cbn; lia].
  change (words (stepped BLOCK_DATA (set_words turn_words s))) with turn_words.
  rewrite (proj1 (proj2 turn_ptrs)). destruct (decide (i = NDIRECT)) as [->|Hnd].
  - rewrite (ow_none Ho) by done. lia.
  - apply (ow_ind Ho); lia.
Qed.

Lemma turn_filled : filled (i + 1) (m + k) s'.
Proof.
  pose proof Hfill as [Ho Hi Hby]. destruct (blocks_for_step m k Hm Hm0 Hk) as [Hb1 Hb2].
  pose proof turn_next as Hn. split; [exact (ln_owns _ _ _ _ _ _ L)|lia|]. intros j Hj.
  pose proof (Z.mod_pos_bound j BY2BLK ltac:(done)) as Hjo. destruct (decide (j < m)) as [Hjm|Hjm].
  - assert (Hq : 0 <= j / BY2BLK < i)
      by (rewrite Hi, Hb1; unfold BY2BLK, BY2PG in *; Z.div_mod_to_equations; lia).
    pose proof (ow_ptr Ho _ Hq) as Hp. rewrite turn_old by done.
    rewrite turn_keeps; [|destruct (i =? NDIRECT); lia|done|by apply turn_apart].
    rewrite (mem_byte_frame (words s) turn_words); [apply Hby; lia|].
    destruct (word_of_byte (ptr (words s) f (j / BY2BLK)) (data (ptr (words s) f (j / BY2BLK)) + j mod BY2BLK))
      as [Hwb Hal]; [unfold data, BY2BLK, BY2PG in *; lia|].
    apply turn_words_other; [done|]. intros Hwb'. apply (data_lt _ _ _ _ Hwb Hwb'); [lia|done].
  - assert (Hq : j / BY2BLK = i /\ j mod BY2BLK = j - m).
    { rewrite Hi, Hb1. unfold BY2BLK, BY2PG in *. Z.div_mod_to_equations. lia. }
    destruct Hq as [-> ->]. rewrite (ln_new _ _ _ _ _ _ L).
    rewrite turn_keeps; [|destruct (i =? NDIRECT); lia|lia|].
    + unfold turn_words. rewrite blit_byte by (intros q Hq; rewrite Hsrc by done; by apply char_at_range).
      rewrite (proj2 (Z.leb_le _ _)), (proj2 (Z.ltb_lt _ _)) by lia. cbn [andb]. rewrite Hsrc by lia. f_equal. lia.
    + intros Hd. destruct (ln_ind _ _ _ _ _ _ L Hd) as (_ & Hne' & _). congruence.
Qed.
End Turn.

Lemma fill_step i m k src s :
  (forall j, 0 <= j < k -> src j = char_at c (m + j)) ->
  wf s -> lo <= nextbno s -> filled i m s -> 0 <= m -> m mod BY2BLK = 0 -> 0 < k <= BY2BLK ->
  m + k <= Z.of_nat (length c) -> i < NINDIRECT ->
  nextbno s + 1 + (if i =? NDIRECT then 1 else 0) <= NBLOCK ->
  exists s', (wr_bytes (data (nextbno s)) k src ;!
      let! bno := next_block BLOCK_DATA in save_block_link f i bno) s = Ret tt s' /\
    wf s' /\ nextbno s' = nextbno s + 1 + (if i =? NDIRECT then 1 else 0) /\
    filled (i + 1) (m + k) s' /\ changes (f + 136) (f + 180) lo s s'.
Proof.
  intros Hsrc Hwf Hge Hfill Hm Hm0 Hk Hmk Hin Hfit.
  set (m1 := turn_words k src s). set (s1 := stepped BLOCK_DATA (set_words m1 s)).
  destruct (save_block_link_run f i lo s1 Hf Hlo (nextbno s)) as (s' & Hrun & L).
  - apply (owns_frame (words s) m1 f f i); [apply Hfill|]. by eapply turn_ptrs.
  - done.
  - cbn. lia.
  - cbn. lia.
  - exists s'. split.
    { erewrite bind_step by (by eapply turn_write).
      rewrite (bind_step _ _ _ _ _ (next_block_run BLOCK_DATA (set_words m1 s) ltac:(by eapply turn_block))).
      exact Hrun. }
    split_and!; [by eapply turn_wf|by eapply turn_next|by eapply turn_filled|by eapply turn_changes].
Qed.

Lemma char_at_drop l m j : 0 <= m -> 0 <= j -> char_at (drop (Z.to_nat m) l) j = char_at l (m + j).
Proof.
  intros Hm Hj. unfold char_at. rewrite lookup_drop. by rewrite Z2Nat.inj_add by done.
Qed.

Lemma char_at_take l k j : 0 <= j < k -> char_at (take (Z.to_nat k) l) j = char_at l j.
Proof. intros Hj. unfold char_at. by rewrite lookup_take_lt by lia. Qed.

Lemma fill_blocks_run n i m s :
  wf s -> lo <= nextbno s -> filled i m s -> 0 <= m <= Z.of_nat (length c) ->
  m mod BY2BLK = 0 \/ m = Z.of_nat (length c) -> Z.of_nat (length c) - m <= Z.of_nat n ->
  blocks_for (Z.of_nat (length c)) <= NINDIRECT ->
  nextbno s + total (blocks_for (Z.of_nat (length c))) - total i <= NBLOCK ->
  exists s', read_blocks n f i (drop (Z.to_nat m) c) s = Ret tt s' /\ wf s' /\
    nextbno s' = nextbno s + total (blocks_for (Z.of_nat (length c))) - total i /\
    filled (blocks_for (Z.of_nat (length c))) (Z.of_nat (length c)) s' /\
    changes (f + 136) (f + 180) lo s s'.
Proof.
  set (len := Z.of_nat (length c)). revert i m s.
  induction n as [|n IH]; intros i m s Hwf Hge Hfl Hm Hal Hn Hmax Hfit.
  { assert (m = len) as -> by lia. exists s. rewrite drop_ge by lia.
    pose proof (fl_blocks _ _ _ Hfl) as <-. split; [done|]. split; [done|].
    split; [lia|]. by split. }
  destruct (decide (m = len)) as [->|Hne].
  { exists s. rewrite drop_ge by lia. pose proof (fl_blocks _ _ _ Hfl) as <-.
    split; [done|]. split; [done|]. split; [lia|]. by split. }
  destruct Hal as [Hal|]; [|done].
  set (k := Z.min BY2BLK (len - m)).
  assert (Hk : 0 < k <= BY2BLK) by (unfold k, BY2BLK, BY2PG; lia).
  assert (Hrest : length (drop (Z.to_nat m) c) = Z.to_nat (len - m)) by (rewrite length_drop; lia).
  pose proof (fl_blocks _ _ _ Hfl) as Hi.
  destruct (blocks_for_step m k ltac:(lia) Hal Hk) as [Hb1 Hb2].
  assert (Hmono : i + 1 <= blocks_for len).
  { rewrite Hi, <- Hb2. unfold blocks_for. apply Z.div_le_mono; unfold k, BY2BLK, BY2PG; lia. }
  assert (Htot : total (i + 1) <= total (blocks_for len)).
  { unfold total. change NDIRECT with 10.
    destruct (Z.ltb_spec 10 (i + 1)), (Z.ltb_spec 10 (blocks_for len)); lia. }
  rewrite total_step in Htot. destruct Hwf as [Hw Hfr] eqn:Hwfe.
  assert (Hi0 : 0 <= i) by apply (fl_owns _ _ _ Hfl).
  destruct (fill_step i m k (char_at (take (Z.to_nat BY2BLK) (drop (Z.to_nat m) c))) s)
    as (s1 & Hr & Hwf1 & Hn1 & Hfl1 & Hch1); try done; try lia.
  - intros j Hj. rewrite char_at_take by (unfold k in Hj; lia). apply char_at_drop; lia.
  - destruct (IH (i + 1) (m + k) s1) as (s' & Hr' & Hwf' & Hn' & Hfl' & Hch');
      rewrite ?total_step; try done; try (unfold k; lia).
    + rewrite Hn1. destruct (i =? NDIRECT); lia.
    + unfold k. destruct (Z.min_spec BY2BLK (len - m)) as [[_ ->]|[_ ->]]; [left|right; lia].
      rewrite Z.add_mod, Hal by done. done.
    + exists s'. split; [|split; [done|split; [rewrite Hn', Hn1, total_step; lia|split; [done|]]]].
      * cbn [read_blocks]. destruct (drop (Z.to_nat m) c) as [|x rest] eqn:Hd; [cbn in Hrest; lia|].
        rewrite <- Hd in *. rewrite (bind_step _ _ s (nextbno s) s) by done.
        rewrite (bind_step _ _ s (data (nextbno s)) s)
          by (apply block_data_run; destruct (i =? NDIRECT); lia).
        rewrite length_take, Hrest.
        replace (Z.of_nat (Nat.min (Z.to_nat BY2BLK) (Z.to_nat (len - m)))) with k
          by (unfold k, BY2BLK, BY2PG; lia).
        assert (Hdrop : drop (Z.to_nat BY2BLK) (drop (Z.to_nat m) c) = drop (Z.to_nat (m + k)) c).
        { rewrite drop_drop. destruct (Z.min_spec BY2BLK (len - m)) as [[Hlt Hmin]|[Hlt Hmin]].
          - f_equal. unfold k. rewrite Hmin. unfold BY2BLK, BY2PG. lia.
          - rewrite !drop_ge; [done| |]; unfold k; rewrite ?Hmin; unfold BY2BLK, BY2PG in *; lia. }
        rewrite Hdrop, <- Hr'. apply bind_inv in Hr as (u & s2 & Hr1 & Hr2).
        rewrite (bind_step _ _ _ _ _ Hr1). apply bind_inv in Hr2 as (b & s3 & Hr2 & Hr3).
        rewrite (bind_step _ _ _ _ _ Hr2), (bind_step _ _ _ _ _ Hr3). done.
      * eapply changes_trans; [done|done|lia|lia].
Qed.
End ReadBlocks.

(** ** Finding a slot *)
Definition dir_blocks (k : Z) : Z := (k + FILE2BLK - 1) / FILE2BLK.

Definition unused (m : Z -> Z) (f : Z) : bool := mem_byte m (f_name f) =? 0.

Lemma find_unused_run fs s : (forall f, f ∈ fs -> valid f = true /\ f mod 4 = 0) ->
  find_unused fs s = Ret (List.find (unused (words s)) fs) s.
Proof.
  induction fs as [|f fs IH]; intros H; [done|]. cbn [find_unused List.find].
  destruct (H f ltac:(apply elem_of_cons; by left)) as [Hv Ha].
  rewrite (bind_step _ _ _ _ _ (rd_byte_run (f_name f) s ltac:(unfold f_name; by rewrite Ha, Z.sub_0_r))).
  unfold unused. destruct (mem_byte (words s) (f_name f) =? 0); [done|].
  apply IH. intros g Hg. apply H, elem_of_cons. by right.
Qed.

Lemma block_files_valid b : 0 <= b < NBLOCK ->
  forall g, g ∈ files_of (data b) -> valid g = true /\ g mod 4 = 0.
Proof.
  intros Hb g Hg. apply list_elem_of_fmap in Hg as (j & -> & Hj). apply elem_of_seqZ in Hj.
  change FILE2BLK with 16 in Hj. rewrite valid_spec.
  unfold data, BY2FILE, BY2BLK, BY2PG, NBLOCK in *. Z.div_mod_to_equations. lia.
Qed.

Lemma find_in_blocks_run f lo n bnos s : header_ok f lo -> 0 < lo -> nextbno s <= NBLOCK ->
  owns (words s) f n lo (nextbno s) -> (forall i, i ∈ bnos -> 0 <= i < n) ->
  find_in_blocks f bnos s =
  Ret (List.find (unused (words s)) (bnos ≫= fun i => files_of (data (ptr (words s) f i)))) s.
Proof.
  intros Hf Hlo Hnb Ho Hbn. pose proof (ow_n Ho) as Hn.
  induction bnos as [|i bnos IH]; [done|]. cbn [find_in_blocks mbind list_bind].
  pose proof (Hbn i ltac:(apply elem_of_cons; by left)) as Hi.
  pose proof (ow_ptr Ho i Hi) as Hp.
  rewrite (bind_step _ _ s (ptr (words s) f i) s).
  - assert (Hb : 0 <= ptr (words s) f i < NBLOCK) by lia.
    rewrite (bind_step _ _ _ _ _ (block_data_run _ s Hb)), find_app.
    rewrite (bind_step _ _ _ _ _ (find_unused_run _ s (block_files_valid _ Hb))).
    destruct (List.find (unused (words s)) (files_of (data (ptr (words s) f i)))); [done|].
    apply IH. intros j Hj. apply Hbn, elem_of_cons. by right.
  - unfold ptr. destruct (Z.ltb_spec i NDIRECT).
    + apply rd_run. apply (direct_valid f lo Hf). lia.
    + destruct (ow_ind Ho ltac:(lia)) as [Hr _].
      rewrite (bind_step _ _ _ _ _ (rd_run _ s (indirect_valid f lo Hf))).
      assert (Hb : 0 <= words s (f_indirect f) < NBLOCK) by lia.
      rewrite (bind_step _ _ _ _ _ (block_data_run _ s Hb)).
      apply rd_run, index_valid; [done|lia].
Qed.

(** The first slot of the directory that is not an entry. *)
Lemma find_free s es f lo n clo chi :
  dir_shape (words s) (rep (words s)) es f lo (nextbno s) n clo chi ->
  List.find (unused (words s)) (slots (words s) f n) =
  if decide (Z.of_nat (length es) < FILE2BLK * n)
  then Some (slot (words s) f (Z.of_nat (length es))) else None.
Proof.
  intros Hd. pose proof (ow_n (di_owns Hd)) as Hn. rewrite slots_eq by lia.
  assert (Hused : forall j, 0 <= j < Z.of_nat (length es) -> unused (words s) (slot (words s) f j) = false).
  { intros j Hj. destruct (lookup_lt_is_Some_2 es (Z.to_nat j) ltac:(lia)) as [[name t] Hes].
    destruct (di_name Hd _ _ _ Hes) as (Hch & Hne & _ & Hat).
    rewrite Z2Nat.id in Hat by lia. destruct name as [|c name]; [done|]. cbn [str_at] in Hat.
    apply andb_true_iff in Hat as [Hat _]. apply Z.eqb_eq in Hat. unfold unused, f_name.
    rewrite Hat. inversion Hch as [|? ? Hc]. unfold is_char in Hc. apply Z.eqb_neq. lia. }
  case_decide as Hlt.
  - apply find_first; [lia|done|]. unfold unused, f_name, mem_byte.
    pose proof (entry_aligned Hd (Z.of_nat (length es)) 0 ltac:(lia) eq_refl) as Ha.
    rewrite Z.add_0_r in Ha. rewrite Ha, Z.sub_0_r.
    pose proof (di_free Hd (Z.of_nat (length es)) 0 ltac:(lia) ltac:(done) ltac:(done)) as H0.
    rewrite Z.add_0_r in H0. by rewrite H0.
  - change FILE2BLK with 16 in *. apply find_none; [lia|]. intros j Hj. apply Hused. lia.
Qed.

(** ** A new slot *)
Lemma dir_blocks_step k n : 0 <= k -> n = dir_blocks k ->
  if decide (k < FILE2BLK * n) then dir_blocks (k + 1) = n
  else k = FILE2BLK * n /\ dir_blocks (k + 1) = n + 1.
Proof.
  unfold dir_blocks. change FILE2BLK with 16. intros Hk ->.
  case_decide; Z.div_mod_to_equations; lia.
Qed.

Section CreateFile.
Context (f lo : Z) (s : host).
Context (Hf : header_ok f lo) (Hlo : 0 < lo) (Hwf : wf s) (Hge : lo <= nextbno s).
Context (es : list (list Z * fnode)) (clo chi : nat -> Z).
Let k := Z.of_nat (length es).
Let n := dir_blocks k.
Context (Hd : dir_shape (words s) (rep (words s)) es f lo (nextbno s) n clo chi).

(** *** A directory without a free slot gets a block more *)
Section Grow.
Context (s0 : host) (Hfull : k = FILE2BLK * n) (Hn : n < NINDIRECT).
Context (Hfit : nextbno s + 1 + (if n =? NDIRECT then 1 else 0) <= NBLOCK).
Context (L : linked f n (nextbno s) lo (stepped BLOCK_FILE s) s0).

(** The directory with its new length. *)
Definition grown : host := set_words (upd (words s0) (f_size f) ((n + 1) * BY2BLK)) s0.

Lemma grown_next : nextbno grown = nextbno s + 1 + (if n =? NDIRECT then 1 else 0).
Proof. apply (ln_next _ _ _ _ _ _ L). Qed.

Lemma grow_block : 0 <= nextbno s < NBLOCK.
Proof. destruct (n =? NDIRECT); lia. Qed.

(** The indirect block lies between the directory's first block and the next. *)
Lemma grow_indirect : NDIRECT <= n -> lo <= words s0 (f_indirect f) < nextbno grown.
Proof. intros H. exact (proj1 (ln_ind _ _ _ _ _ _ L H)). Qed.

(** The header is far from the blocks. *)
Lemma header_apart x : f <= x < f + BY2FILE -> ~ (data lo <= x < SUPER).
Proof.
  pose proof (ho_away _ _ Hf) as Haway. rewrite SUPER_eq in *. intros Hx.
  unfold data, BY2BLK, BY2PG, BY2FILE in *. lia.
Qed.

Lemma grow_words x : ~ (f + 136 <= x < f + 180) ->
  ~ (NDIRECT <= n /\ data (words s0 (f_indirect f)) <= x < data (words s0 (f_indirect f) + 1)) ->
  words s0 x = words s x.
Proof. apply (ln_words _ _ _ _ _ _ L). Qed.

Lemma grow_header o : 128 <= o < 136 -> words s0 (f + o) = words s (f + o).
Proof.
  intros Ho. apply grow_words; [lia|]. intros [Hd' Hx]. pose proof (grow_indirect Hd') as Hr.
  apply (header_apart (f + o)); [unfold BY2FILE; lia|]. rewrite grown_next in Hr. rewrite SUPER_eq.
  unfold data, BY2BLK, BY2PG, NBLOCK in *. destruct (n =? NDIRECT); lia.
Qed.

Lemma grow_run : save_block_link f n (nextbno s) (stepped BLOCK_FILE s) = Ret tt s0 ->
  make_link_block f n s = Ret (nextbno s) grown.
Proof.
  intros Hrun. pose proof (ow_n (di_owns Hd)) as Hn0.
  assert (Hsv : valid (f_size f) = true) by (apply (header_valid f lo 128 Hf); done).
  unfold make_link_block. rewrite (bind_step _ _ _ _ _ (next_block_run BLOCK_FILE s grow_block)).
  rewrite (bind_step _ _ _ _ _ Hrun), (bind_step _ _ _ _ _ (rd_run _ s0 Hsv)).
  rewrite (grow_header 128 ltac:(lia) : words s0 (f_size f) = words s (f_size f)), (di_size Hd).
  rewrite u32_id by (unfold BY2BLK, BY2PG; change NINDIRECT with 1024 in *; lia).
  replace (n * BY2BLK + BY2BLK) with ((n + 1) * BY2BLK) by lia.
  by rewrite (bind_step _ _ _ _ _ (wr_run _ _ s0 Hsv)).
Qed.

Lemma grown_words x : x <> f_size f -> words grown x = words s0 x.
Proof. intros. by apply upd_other. Qed.

Lemma grown_ptrs : same_ptrs (words s0) (words grown) f f (n + 1).
Proof.
  split; [|split].
  - intros j Hj. apply grown_words. unfold f_direct, f_size. lia.
  - apply grown_words. unfold f_indirect, f_size. lia.
  - intros Hd' x Hx _. apply grown_words. pose proof (grow_indirect ltac:(lia)) as Hr. intros ->.
    apply (header_apart (f_size f)); [unfold f_size, BY2FILE; lia|]. rewrite grown_next in Hr. rewrite SUPER_eq.
    unfold data, BY2BLK, BY2PG, NBLOCK in *. destruct (n =? NDIRECT); lia.
Qed.

Lemma grown_ptr i : 0 <= i <= n -> ptr (words grown) f i = ptr (words s0) f i.
Proof. intros Hi. pose proof grown_ptrs. apply (ptr_frame _ _ _ _ (n + 1)); (done || lia). Qed.

Lemma grown_frame x : ~ (f + 128 <= x < f + 180) ->
  ~ (NDIRECT <= n /\ data (words s0 (f_indirect f)) <= x < data (words s0 (f_indirect f) + 1)) ->
  words grown x = words s x.
Proof. intros Hx Hx'. rewrite grown_words by (unfold f_size; lia). apply grow_words; [lia|done]. Qed.

(** What was free and is not the indirect block is still zero. *)
Lemma grown_fresh x : data (nextbno s) <= x < SUPER -> x mod 4 = 0 ->
  ~ (NDIRECT <= n /\ data (words s0 (f_indirect f)) <= x < data (words s0 (f_indirect f) + 1)) ->
  words grown x = 0.
Proof.
  intros Hx Hal Hx'. destruct Hwf as [_ Hfr]. rewrite grown_frame; [by apply Hfr| |done]. intros Hx2.
  apply (header_apart x); unfold data, BY2BLK, BY2PG, BY2FILE in *; lia.
Qed.

Lemma grown_wf : wf grown.
Proof.
  pose proof grown_next as Hnx. pose proof (wf_next _ Hwf). split; [destruct (n =? NDIRECT); lia|]. intros x Hx Hal.
  apply grown_fresh; [|done|].
  - unfold data, BY2BLK, BY2PG in *. destruct (n =? NDIRECT); lia.
  - intros [Hn' Hx']. pose proof (grow_indirect Hn'). unfold data, BY2BLK, BY2PG in *. lia.
Qed.

Lemma grown_changes : changes (f + 128) (f + 180) lo s grown.
Proof.
  intros x Hal Hx Hx'. apply grown_frame; [done|]. intros [Hn' Hx2]. pose proof (grow_indirect Hn') as Hr.
  rewrite grown_next in Hr. rewrite SUPER_eq in Hx'. unfold data, BY2BLK, BY2PG, NBLOCK in *.
  destruct (n =? NDIRECT); lia.
Qed.

(** A word that is changed is in the directory's own blocks, or was free. *)
Lemma grown_old x : lo <= nextbno s -> data lo <= x < data (nextbno s) ->
  ~ (NDIRECT < n /\ data (words s (f_indirect f)) <= x < data (words s (f_indirect f) + 1)) ->
  words grown x = words s x.
Proof.
  intros Hlob Hx Hni. pose proof grow_block as Hb. pose proof (di_owns Hd) as Ho.
  apply grown_frame; [intros Hx2; apply (header_apart x)|intros [Hn' Hx2]].
  - unfold BY2FILE. lia.
  - unfold data, BY2BLK, BY2PG, NBLOCK in *. rewrite SUPER_eq. lia.
  - destruct (ln_ind _ _ _ _ _ _ L Hn') as (_ & _ & [Hi|Hi]); rewrite Hi in Hx2; cbn in Hx2.
    + destruct (decide (n = NDIRECT)) as [Heq|Hne]; [|apply Hni; split; [lia|done]].
      rewrite (ow_none Ho) in Hx2 by lia. unfold data, BY2BLK, BY2PG in *. lia.
    + unfold data, BY2BLK, BY2PG in *. lia.
Qed.

(** The slots of the new block are free. *)
Lemma grown_free j o : k <= j < FILE2BLK * (n + 1) -> 0 <= o < BY2FILE -> o mod 4 = 0 ->
  words grown (slot (words grown) f j + o) = 0.
Proof.
  intros Hj Ho Hal. pose proof grow_block as Hb. change FILE2BLK with 16 in *.
  pose proof (ow_n (di_owns Hd)) as Hn0.
  assert (Hj' : j / 16 = n) by (Z.div_mod_to_equations; lia).
  unfold slot. change FILE2BLK with 16. rewrite Hj', grown_ptr, (ln_new _ _ _ _ _ _ L) by lia.
  pose proof (Z.mod_pos_bound j 16 ltac:(lia)).
  assert (Hx : data (nextbno s) <= data (nextbno s) + BY2FILE * (j mod 16) + o < data (nextbno s + 1))
    by (unfold data, BY2FILE, BY2BLK, BY2PG in *; lia).
  apply grown_fresh.
  - rewrite SUPER_eq. unfold data, BY2BLK, BY2PG, NBLOCK in *. lia.
  - unfold data, BY2FILE, BY2BLK, BY2PG. Z.div_mod_to_equations. lia.
  - intros [Hn' Hx']. apply (data_lt _ _ _ _ Hx Hx'); [|done]. symmetry. apply (ln_ind _ _ _ _ _ _ L Hn').
Qed.

Lemma grown_dir : dir_shape (words grown) (rep (words grown)) es f lo (nextbno grown) (n + 1)
  (extend clo (length es) (nextbno s)) (extend chi (length es) (nextbno grown)).
Proof.
  pose proof (ow_n (di_owns Hd)) as Hn0. pose proof grown_next as Hnx.
  refine (eq_ind _ (fun l => dir_shape _ _ l _ _ _ _
    (extend clo (length es) (nextbno s)) (extend chi (length es) (nextbno grown))) _ _ (app_nil_r es)).
  apply (dir_update (more := []) Hd).
  - destruct (n =? NDIRECT); lia.
  - lia.
  - apply upd_same.
  - rewrite grown_words by (unfold f_type, f_size; lia).
    etransitivity; [exact (grow_header 132 ltac:(lia))|exact (di_type Hd)].
  - apply (owns_frame (words s0) _ f); [apply (ln_owns _ _ _ _ _ _ L)|exact grown_ptrs].
  - intros i Hi. rewrite grown_ptr by lia. by apply (ln_old _ _ _ _ _ _ L).
  - intros c Hc. apply (ln_own _ _ _ _ _ _ L).
    apply (own_frame (words s0) (words grown) f f); [lia|exact grown_ptrs|done].
  - intros x Hx Hal Hni _. by apply grown_old.
  - rewrite app_nil_r. fold k. change FILE2BLK with 16 in *. lia.
  - done.
  - rewrite app_nil_r. fold k. intros j o. apply grown_free.
Qed.
End Grow.

Lemma make_link_block_run : k = FILE2BLK * n -> n < NINDIRECT ->
  nextbno s + 1 + (if n =? NDIRECT then 1 else 0) <= NBLOCK ->
  exists s1 clo1 chi1, make_link_block f n s = Ret (nextbno s) s1 /\ wf s1 /\
    nextbno s1 = nextbno s + 1 + (if n =? NDIRECT then 1 else 0) /\
    ptr (words s1) f n = nextbno s /\
    dir_shape (words s1) (rep (words s1)) es f lo (nextbno s1) (n + 1) clo1 chi1 /\
    changes (f + 128) (f + 180) lo s s1.
Proof.
  intros Hfull Hn Hfit. pose proof (di_owns Hd) as Ho. pose proof (ow_n Ho) as Hn0.
  destruct (save_block_link_run f n lo (stepped BLOCK_FILE s) Hf Hlo (nextbno s) Ho Hn)
    as (s0 & Hrun & L); [cbn; lia|cbn; lia|].
  exists (grown s0), (extend clo (length es) (nextbno s)), (extend chi (length es) (nextbno (grown s0))).
  split_and!.
  - by apply grow_run.
  - by apply grown_wf.
  - by apply grown_next.
  - rewrite grown_ptr by (done || lia). apply (ln_new _ _ _ _ _ _ L).
  - by apply grown_dir.
  - by apply grown_changes.
Qed.

Lemma create_file_run :
  let n1 := dir_blocks (k + 1) in
  n1 <= NINDIRECT -> nextbno s + total n1 - total n <= NBLOCK ->
  exists s1 clo1 chi1, create_file f s = Ret (slot (words s1) f k) s1 /\ wf s1 /\
    nextbno s1 = nextbno s + total n1 - total n /\ k < FILE2BLK * n1 /\
    dir_shape (words s1) (rep (words s1)) es f lo (nextbno s1) n1 clo1 chi1 /\
    changes (f + 128) (f + 180) lo s s1.
Proof.
  intros n1 Hn1 Hfit. pose proof (di_owns Hd) as Ho. pose proof (ow_n Ho) as Hn.
  assert (Hsv : valid (f_size f) = true) by (apply (header_valid f lo 128 Hf); done).
  pose proof (dir_blocks_step k n ltac:(unfold k; lia) eq_refl) as Hstep.
  assert (Hrun : create_file f s =
    (if decide (k < FILE2BLK * n) then Ret (slot (words s) f k) s
     else (let! bno := make_link_block f n in block_data bno) s)).
  { unfold create_file. rewrite (bind_step _ _ _ _ _ (rd_run _ s Hsv)), (di_size Hd), Z.div_mul by done.
    rewrite (bind_step _ _ _ _ _ (find_in_blocks_run f lo n (seqZ 0 n) s Hf Hlo (proj2 (wf_next _ Hwf)) Ho
      ltac:(intros i Hi; apply elem_of_seqZ in Hi; lia))).
    fold (slots (words s) f n). rewrite (find_free _ _ _ _ _ _ _ Hd). fold k. by case_decide. }
  rewrite Hrun. unfold n1 in *. case_decide as Hlt.
  - rewrite Hstep in *. exists s, clo, chi. split; [done|]. split; [done|]. split; [lia|].
    split; [done|]. split; [exact Hd|done].
  - destruct Hstep as [Hfull Hs]. rewrite Hs, total_step in *.
    destruct (make_link_block_run Hfull ltac:(lia) ltac:(lia))
      as (s1 & clo1 & chi1 & Hr1 & Hwf1 & Hnx & Hp & Hd1 & Hch).
    exists s1, clo1, chi1. split; [|split; [done|split; [lia|split; [|by split]]]].
    + rewrite (bind_step _ _ _ _ _ Hr1).
      rewrite block_data_run by (pose proof (wf_next _ Hwf); pose proof (wf_next _ Hwf1); destruct (n =? NDIRECT); lia).
      f_equal. unfold slot. change FILE2BLK with 16 in *.
      replace (k / 16) with n by (Z.div_mod_to_equations; lia). rewrite Hp.
      replace (k mod 16) with 0 by (Z.div_mod_to_equations; lia). lia.
    + change FILE2BLK with 16 in *. lia.
Qed.
End CreateFile.

(** ** Filling a slot *)

(** The header of a free slot, and what a change of the slot and of later
    blocks keeps. *)
Lemma slot_header_ok img R es f lo hi n clo chi k :
  dir_shape img R es f lo hi n clo chi -> 0 <= lo -> hi <= NBLOCK -> 0 <= k < FILE2BLK * n ->
  header_ok (slot img f k) hi.
Proof.
  intros Hd Hlo Hhi Hk. pose proof (slot_in _ _ _ _ _ k (di_owns Hd) Hk) as [H1 H2].
  pose proof (entry_aligned Hd k 0 Hk eq_refl) as Ha. rewrite Z.add_0_r in Ha.
  split; [done| | |by left]; rewrite ?SUPER_eq; change BY2SUPER with 264;
    unfold data, BY2FILE, BY2BLK, BY2PG, NBLOCK in *; lia.
Qed.

(** The directory after its first free slot has been given a name and a
    tree. *)
Lemma attach s1 s' f lo es n clo chi name t :
  let k := Z.of_nat (length es) in
  dir_shape (words s1) (rep (words s1)) es f lo (nextbno s1) n clo chi ->
  header_ok f lo -> wf s1 -> lo <= nextbno s1 <= nextbno s' -> 0 < lo ->
  k < FILE2BLK * n ->
  changes (slot (words s1) f k) (slot (words s1) f k + BY2FILE) (nextbno s1) s1 s' ->
  name_ok name -> str_at (words s') (slot (words s1) f k) name = true ->
  rep (words s') t (slot (words s1) f k) (nextbno s1) (nextbno s') ->
  exists clo' chi', dir_shape (words s') (rep (words s')) (es ++ [(name, t)]) f lo (nextbno s') n clo' chi'.
Proof.
  intros k Hd Hf Hwf Hge Hlo Hk Hch Hname Hat Hrep. pose proof (di_owns Hd) as Ho.
  pose proof (slot_in _ _ _ _ _ k Ho ltac:(unfold k; lia)) as Hin. fold k in Hin.
  set (g := slot (words s1) f k) in *. pose proof (wf_next _ Hwf) as Hw.
  pose proof (ho_away _ _ Hf) as Haway. pose proof (ho_align _ _ Hf) as Hfal.
  assert (Hsame : forall x, x mod 4 = 0 -> f <= x < f + BY2FILE \/ data lo <= x < data (nextbno s1) ->
    ~ (g <= x < g + BY2FILE) -> words s' x = words s1 x).
  { intros x Hal Hx Hg. apply Hch; [done|done|]. rewrite SUPER_eq in *.
    unfold data, BY2BLK, BY2PG, BY2FILE, NBLOCK in *. lia. }
  assert (Hhead : forall o, 0 <= o < BY2FILE -> o mod 4 = 0 -> words s' (f + o) = words s1 (f + o)).
  { intros o Hor Hal. apply Hsame; [Z.div_mod_to_equations; lia|lia|].
    rewrite SUPER_eq in *. unfold data, BY2BLK, BY2PG, BY2FILE, NBLOCK in *. lia. }
  assert (Hsp : same_ptrs (words s1) (words s') f f n).
  { split; [|split].
    - intros i Hi. change NDIRECT with 10 in Hi. unfold f_direct. rewrite <- Z.add_assoc.
      apply Hhead; [unfold BY2FILE; lia|Z.div_mod_to_equations; lia].
    - by apply Hhead.
    - intros Hn x Hx Hal. destruct (ow_ind Ho Hn) as [Hr Hne]. apply Hsame; [done| |].
      + right. unfold data, BY2BLK, BY2PG in *. lia.
      + destruct (slot_bounds _ _ _ _ _ k Ho ltac:(unfold k; lia)) as (i & Hi & H1 & H2 & _).
        pose proof (Hne i Hi). fold g in H1, H2. unfold data, BY2BLK, BY2PG, BY2FILE in *. lia. }
  assert (Hown : forall b, own (words s') f n b -> own (words s1) f n b)
    by (intros b; apply own_frame; [apply (ow_n Ho)|done]).
  assert (Hslot : forall j, 0 <= j < FILE2BLK * n -> slot (words s') f j = slot (words s1) f j)
    by (intros j Hj; apply (slot_frame _ _ _ _ n); [apply (ow_n Ho)|done|done]).
  eexists _, _. apply (dir_update (more := [(name, t)]) Hd).
  - lia.
  - lia.
  - etransitivity; [by apply (Hhead 128)|exact (di_size Hd)].
  - etransitivity; [by apply (Hhead 132)|exact (di_type Hd)].
  - apply (owns_frame _ _ _ f n lo (nextbno s1)) in Hsp; [|done]. destruct Hsp as [P1 P2 P3 P4 P5].
    split; try done; [intros i Hi; specialize (P2 i Hi); lia|].
    intros Hn. destruct (P5 Hn). split; [lia|done].
  - intros i Hi. apply (ptr_frame _ _ _ _ n); [apply (ow_n Ho)|done|done].
  - intros b Hb. left. by apply Hown.
  - intros x Hx Hal _ Hfree. apply Hsame; [done|by right|]. apply Hfree. fold k. lia.
  - rewrite length_app. cbn. fold k. lia.
  - unfold new_entry. fold k. rewrite Hslot by (unfold k; lia). split; [done|]. split; [done|]. split; [done|].
    intros b Hb. eapply own_in; [exact Ho|by apply Hown].
  - intros j o Hj Hor Hal. rewrite length_app in Hj. cbn in Hj. rewrite Hslot by lia.
    rewrite Hsame.
    + apply (di_free Hd); [lia|done|done].
    + apply (entry_aligned Hd); [lia|done].
    + right. pose proof (slot_in _ _ _ _ _ j Ho ltac:(lia)). unfold BY2FILE in *. lia.
    + pose proof (slot_inj _ _ _ _ _ j k Ho ltac:(lia) ltac:(unfold k; lia) ltac:(unfold k; lia)).
      fold g in H. unfold BY2FILE in *. lia.
Qed.
