(* ===== verification/FsformatProps.v ===== *)
(** * The formatted image is the host's tree

    The abstract file system of a list of arguments ([arg_tree]), and the
    theorem that [main] writes an image of it.  The host's names become
    entries in the order they come, the current and parent directories left
    out; the name of a directory is cut at [MAXNAMELEN - 1] characters, and a
    directory that cannot be opened is left out. *)
From S2P Require Import Prelude Mmu UserMem Fs FsBlocks FsFiles FsMount Fsformat FsImage FsformatFacts.

(** ** The abstract tree *)
Definition entry_name (e : hnode) (name : list Z) : list Z :=
  match e with HDir _ => take (Z.to_nat (MAXNAMELEN - 1)) name | _ => name end.

Fixpoint tree_of (e : hnode) : option fnode :=
  match e with
  | HFile _ c | HSpecial _ c => Some (FFile c)
  | HDir None => None
  | HDir (Some hes) =>
      Some (FDir ((fix go (hes : list (list Z * hnode)) : list (list Z * fnode) :=
        match hes with
        | [] => []
        | (name, e) :: hes =>
            if is_dots name then go hes
            else match tree_of e with Some t => [(entry_name e name, t)] | None => [] end ++ go hes
        end) hes))
  end.

Fixpoint entries_of (hes : list (list Z * hnode)) : list (list Z * fnode) :=
  match hes with
  | [] => []
  | (name, e) :: hes =>
      if is_dots name then entries_of hes
      else match tree_of e with Some t => [(entry_name e name, t)] | None => [] end ++ entries_of hes
  end.

Lemma tree_of_dir hes : tree_of (HDir (Some hes)) = Some (FDir (entries_of hes)).
Proof. reflexivity. Qed.

(** Blocks a tree needs. *)
Fixpoint cost (t : fnode) : Z :=
  match t with
  | FFile c => total (blocks_for (Z.of_nat (length c)))
  | FDir es =>
      total (dir_blocks (Z.of_nat (length es))) +
      (fix go (es : list (list Z * fnode)) : Z :=
         match es with [] => 0 | (_, t) :: es => cost t + go es end) es
  end.
Fixpoint costs (es : list (list Z * fnode)) : Z :=
  match es with [] => 0 | (_, t) :: es => cost t + costs es end.

Lemma cost_dir es : cost (FDir es) = total (dir_blocks (Z.of_nat (length es))) + costs es.
Proof. reflexivity. Qed.

(** What a host promises of its files: names without slashes that are not
    empty, sizes that agree with the contents; and the limit of the format on
    the names of files. *)
Definition host_name (name : list Z) : Prop :=
  Forall (fun c => is_char c /\ c <> SLASH) name /\ name <> [].
Definition short_name (e : hnode) (name : list Z) : Prop :=
  match e with HDir _ => True | _ => Z.of_nat (length name) < MAXNAMELEN end.

Fixpoint good (e : hnode) : Prop :=
  match e with
  | HFile size c | HSpecial size c =>
      size = Z.of_nat (length c) /\ Forall (fun b => 0 <= b < 256) c
  | HDir None => True
  | HDir (Some hes) =>
      (fix go (hes : list (list Z * hnode)) : Prop :=
         match hes with
         | [] => True
         | (name, e) :: hes =>
             (is_dots name = false -> host_name name /\ short_name e name /\ good e) /\ go hes
         end) hes
  end.

Definition good_entries (hes : list (list Z * hnode)) : Prop :=
  forall name e, (name, e) ∈ hes -> is_dots name = false ->
    host_name name /\ short_name e name /\ good e.

Lemma good_dir hes : good (HDir (Some hes)) <-> good_entries hes.
Proof.
  unfold good_entries. cbn. induction hes as [|[n0 e0] hes IH].
  - split; [|done]. intros _ name e H. by apply elem_of_nil in H.
  - rewrite IH. split.
    + intros [H0 H1] name e [[= -> ->]|H]%elem_of_cons; [done|by apply H1].
    + intros H. split; [apply H, elem_of_cons; by left|].
      intros name e Hin. apply H, elem_of_cons. by right.
Qed.

(** Induction over the host's files. *)
Section HnodeInd.
Context (P : hnode -> Prop).
Context (Pfile : forall size c, P (HFile size c)).
Context (Pnone : P (HDir None)).
Context (Pdir : forall hes, Forall (fun e => P (snd e)) hes -> P (HDir (Some hes))).
Context (Pspecial : forall size c, P (HSpecial size c)).

Fixpoint hnode_nested_ind (e : hnode) : P e :=
  match e with
  | HFile size c => Pfile size c
  | HDir None => Pnone
  | HDir (Some hes) => Pdir hes
      ((fix entries (hes : list (list Z * hnode)) : Forall (fun e => P (snd e)) hes :=
          match hes with
          | [] => Forall_nil_2 _
          | (name, e) :: hes => Forall_cons_2 _ (name, e) hes (hnode_nested_ind e) (entries hes)
          end) hes)
  | HSpecial size c => Pspecial size c
  end.
End HnodeInd.

(** ** Paths of the host *)
Lemma strrchr_app p q : ~ (SLASH ∈ q) -> strrchr_slash (p ++ SLASH :: q) = Some q.
Proof.
  intros Hq. assert (Hnone : strrchr_slash q = None).
  { clear p. induction q as [|c q IH]; [done|]. cbn. rewrite IH.
    - destruct (Z.eqb_spec c SLASH) as [->|]; [|done]. exfalso. apply Hq, elem_of_cons. by left.
    - intros H. apply Hq, elem_of_cons. by right. }
  induction p as [|c p IH]; cbn; [by rewrite Hnone|]. by rewrite IH.
Qed.

Lemma host_name_slash name : host_name name -> ~ (SLASH ∈ name).
Proof. intros [H _] Hin. rewrite Forall_forall in H. by destruct (H _ Hin). Qed.

Lemma basename_app p name : host_name name ->
  basename (p ++ SLASH :: name) = (name, p ++ SLASH :: name).
Proof.
  intros Hn. unfold basename. destruct (p ++ SLASH :: name) as [|c0 l0] eqn:Hp; [by destruct p|].
  rewrite <- Hp. clear Hp. pose proof (host_name_slash _ Hn) as Hs. destruct Hn as [_ Hne].
  assert (Hst : strip_slashes (rev (p ++ SLASH :: name)) = rev (p ++ SLASH :: name)).
  { rewrite rev_app_distr. cbn [rev]. destruct name as [|x name] using rev_ind; [done|].
    rewrite rev_app_distr. cbn. destruct (Z.eqb_spec x SLASH) as [->|]; [|done].
    exfalso. apply Hs, elem_of_app. right. by apply list_elem_of_singleton. }
  rewrite Hst, rev_involutive.
  destruct (p ++ SLASH :: name) as [|c l] eqn:Hp; [by destruct p|]. rewrite <- Hp.
  by rewrite strrchr_app.
Qed.

(** ** A name in a slot *)
Definition zero_slot (m : Z -> Z) (g : Z) : Prop :=
  forall o, 0 <= o < BY2FILE -> o mod 4 = 0 -> m (g + o) = 0.

Lemma zero_slot_byte m g i : zero_slot m g -> g mod 4 = 0 -> 0 <= i < BY2FILE -> mem_byte m (g + i) = 0.
Proof.
  intros Hz Hg Hi. unfold mem_byte.
  replace (g + i - (g + i) mod 4) with (g + (i - i mod 4)) by (Z.div_mod_to_equations; lia).
  rewrite Hz; [unfold word_byte; by rewrite Z.shiftr_0_l, Z.land_0_l| |Z.div_mod_to_equations; lia]. unfold BY2FILE in *. Z.div_mod_to_equations. lia.
Qed.

(** [n] bytes of [src], or all of it with its terminator, in a zero slot. *)
Lemma named m m' g n src name :
  zero_slot m g -> g mod 4 = 0 -> 0 <= n <= MAXNAMELEN -> name_ok name ->
  (forall i, 0 <= i < n -> char_at src i = char_at name i) -> Z.of_nat (length name) <= n ->
  (forall x, g <= x < g + MAXNAMELEN -> x mod 4 = 0 -> m' x = blit g n (char_at src) m x) ->
  str_at m' g name = true.
Proof.
  intros Hz Hg Hn (Hch & _ & Hlen) Hsrc Hle Hm'. change MAXNAMELEN with 128 in *.
  apply str_at_bytes. intros i Hi.
  rewrite (mem_byte_frame (blit g n (char_at src) m) m') by
    (apply Hm'; Z.div_mod_to_equations; lia).
  assert (Hr : forall j, 0 <= char_at name j < 2 ^ 8).
  { intros j. apply char_at_range. eapply Forall_impl; [exact Hch|]. unfold is_char. lia. }
  rewrite blit_byte by (intros j Hj; rewrite Hsrc by lia; apply Hr).
  destruct (Z.leb_spec g (g + i)); [|lia]. destruct (Z.ltb_spec (g + i) (g + n)); cbn [andb].
  - replace (g + i - g) with i by lia. apply Hsrc. lia.
  - rewrite zero_slot_byte by (done || (unfold BY2FILE; lia)). unfold char_at.
    by rewrite lookup_ge_None_2 by lia.
Qed.

Lemma slot_mod img R es f lo hi n clo chi k :
  dir_shape img R es f lo hi n clo chi -> 0 <= k < FILE2BLK * n ->
  slot img f k mod BY2BLK + BY2FILE <= BY2BLK /\ slot img f k mod 4 = 0.
Proof.
  intros Hd Hk. unfold slot, data, BY2BLK, BY2PG, BY2FILE. change FILE2BLK with 16.
  Z.div_mod_to_equations. lia.
Qed.

(** What the two ways to fill a slot start from: the slot is free, and it is
    a header above which every block is new. *)
Record fresh_slot (s : host) (g : Z) : Prop := {
  fs_header : header_ok g (nextbno s);
  fs_zero : zero_slot (words s) g;
  fs_room : g mod BY2BLK + BY2FILE <= BY2BLK
}.

Lemma free_slot_fresh s es f lo n clo chi :
  dir_shape (words s) (rep (words s)) es f lo (nextbno s) n clo chi -> 0 <= lo -> wf s ->
  Z.of_nat (length es) < FILE2BLK * n -> fresh_slot s (slot (words s) f (Z.of_nat (length es))).
Proof.
  intros Hd Hlo Hwf Hk. split.
  - eapply slot_header_ok; [done|done|apply (wf_next _ Hwf)|lia].
  - intros o Ho Hal. apply (di_free Hd); [lia|done|done].
  - eapply slot_mod; [done|lia].
Qed.

(** The bytes of the name and the two words after it, written into a fresh
    slot. *)
Section Fill.
Context (s : host) (g n : Z) (src : list Z).
Context (Hg : fresh_slot s g) (Hn : 0 <= n <= MAXNAMELEN).

Lemma fill_name_run :
  wr_bytes g n (char_at src) s = Ret tt (set_words (blit g n (char_at src) (words s)) s).
Proof.
  apply wr_bytes_run.
  - pose proof (header_valid _ _ 0 (fs_header _ _ Hg) ltac:(done)) as H. by rewrite Z.add_0_r in H.
  - pose proof (fs_room _ _ Hg). change MAXNAMELEN with 128 in Hn. unfold BY2FILE in *. lia.
Qed.

Lemma fill_name_other x : x mod 4 = 0 -> ~ (g <= x < g + MAXNAMELEN) ->
  blit g n (char_at src) (words s) x = words s x.
Proof.
  intros Hx Ho. apply blit_word_other; [done|apply (fs_header _ _ Hg)|lia].
Qed.
End Fill.

(** ** Writing a file *)
Lemma write_body_run s g path name c :
  wf s -> fresh_slot s g -> name_ok name -> default path (strrchr_slash path) = name ->
  Forall (fun b => 0 <= b < 256) c -> nextbno s + total (blocks_for (Z.of_nat (length c))) <= NBLOCK ->
  exists s', (strcpy (f_name g) (default path (strrchr_slash path)) ;!
      wr (f_size g) (u32 (Z.of_nat (length c))) ;!
      wr (f_type g) FTYPE_REG ;!
      read_blocks (length c) g 0 c) s = Ret tt s' /\ wf s' /\
    nextbno s' = nextbno s + total (blocks_for (Z.of_nat (length c))) /\
    str_at (words s') g name = true /\ rep (words s') (FFile c) g (nextbno s) (nextbno s') /\
    changes g (g + BY2FILE) (nextbno s) s s'.
Proof.
  intros Hwf Hg Hname Hpath Hc Hfit. rewrite Hpath. pose proof (fs_header _ _ Hg) as Hh.
  destruct Hname as (Hch & Hne & Hlen) eqn:Hno. pose proof (wf_next _ Hwf) as Hw.
  set (len := Z.of_nat (length c)) in *.
  assert (Hb0 : 0 <= blocks_for len) by (unfold blocks_for, BY2BLK, BY2PG; Z.div_mod_to_equations; lia).
  assert (Hb1 : blocks_for len <= NINDIRECT).
  { change NINDIRECT with 1024. unfold total, NBLOCK in *. destruct (NDIRECT <? blocks_for len); lia. }
  assert (Hl32 : u32 len = len).
  { apply u32_id. unfold blocks_for, BY2BLK, BY2PG in Hb1. change NINDIRECT with 1024 in Hb1.
    Z.div_mod_to_equations. lia. }
  rewrite Hl32. unfold strcpy, f_name. rewrite (bind_step _ _ _ _ _ (fill_name_run s g (Z.of_nat (length name) + 1) name Hg ltac:(lia))).
  set (s2 := set_words _ s).
  rewrite (bind_step _ _ _ _ _ (wr_run (f_size g) len s2 (header_valid _ _ 128 Hh ltac:(done)))).
  set (s3 := set_words _ s2).
  rewrite (bind_step _ _ _ _ _ (wr_run (f_type g) FTYPE_REG s3 (header_valid _ _ 132 Hh ltac:(done)))).
  set (s4 := set_words _ s3).
  assert (Hga : g mod 4 = 0) by apply Hh.
  assert (H4 : forall x, x mod 4 = 0 -> ~ (g <= x < g + 136) -> words s4 x = words s x).
  { intros x Hx Hnx. unfold s4, s3, s2. cbn [words set_words].
    rewrite !upd_other by (unfold f_type, f_size; lia). apply (fill_name_other s g _ name Hg); [lia|done|].
    change MAXNAMELEN with 128. lia. }
  assert (Haw : forall x, data (nextbno s) <= x < SUPER -> ~ (g <= x < g + BY2FILE)).
  { pose proof (ho_away _ _ Hh). unfold BY2FILE in *. rewrite SUPER_eq in *. lia. }
  assert (Hwf4 : wf s4).
  { split; [exact Hw|]. intros x Hx Hal. rewrite H4; [by apply Hwf|done|].
    pose proof (Haw x Hx). unfold BY2FILE in *. lia. }
  assert (Ho4 : owns (words s4) g 0 (nextbno s) (nextbno s4)).
  { apply owns_empty. rewrite H4; unfold f_indirect; [|Z.div_mod_to_equations; lia|lia].
    by apply (fs_zero _ _ Hg). }
  destruct (fill_blocks_run g (nextbno s) c Hh ltac:(lia) Hc (length c) 0 0 s4)
    as (s' & Hr & Hwf' & Hn' & Hfl & Hchg); try done; try lia.
  { split; [done|done|intros; lia]. }
  { by left. }
  { change (nextbno s4) with (nextbno s). fold len. change (total 0) with 0. lia. }
  change (nextbno s4) with (nextbno s) in *. change (total 0) with 0 in *.
  exists s'. split; [exact Hr|]. split; [done|]. split; [fold len in Hn'; lia|].
  assert (Hhead : forall x, x mod 4 = 0 -> g <= x < g + 136 -> words s' x = words s4 x).
  { intros x Hal Hx. apply Hchg; [done|lia|]. intros Hx2. apply (Haw x Hx2). unfold BY2FILE. lia. }
  split; [|split].
  - eapply (named (words s) _ g (Z.of_nat (length name) + 1) name);
      [apply Hg|done|lia|done|done|lia|].
    intros x Hx Hal. change MAXNAMELEN with 128 in *. rewrite Hhead by (done || lia).
    unfold s4, s3, s2. cbn [words set_words]. by rewrite !upd_other by (unfold f_type, f_size; lia).
  - constructor. split.
    + rewrite Hhead by (unfold f_size; (lia || (Z.div_mod_to_equations; lia))).
      unfold s4. cbn [words set_words]. rewrite upd_other by (unfold f_type, f_size; lia).
      apply upd_same.
    + rewrite Hhead by (unfold f_type; (lia || (Z.div_mod_to_equations; lia))). apply upd_same.
    + apply Hfl.
    + intros j Hj. by apply (fl_bytes _ _ _ _ _ _ Hfl).
  - intros x Hal Hx Hx2. rewrite Hchg; [apply H4|..]; unfold BY2FILE in *; (done || lia).
Qed.

(** ** One entry more *)

(** [body] fills a fresh slot with the tree [t] under [name]. *)
Definition fills (body : Z -> HM unit) (name : list Z) (t : fnode) : Prop := forall s g,
  wf s -> fresh_slot s g -> nextbno s + cost t <= NBLOCK ->
  exists s', body g s = Ret tt s' /\ wf s' /\ nextbno s' = nextbno s + cost t /\
    str_at (words s') g name = true /\ rep (words s') t g (nextbno s) (nextbno s') /\
    changes g (g + BY2FILE) (nextbno s) s s'.

(** The header [f] holds a directory with the entries [es]. *)
Definition holds (s : host) (f lo : Z) (es : list (list Z * fnode)) : Prop :=
  exists clo chi, dir_shape (words s) (rep (words s)) es f lo (nextbno s)
    (dir_blocks (Z.of_nat (length es))) clo chi.

(** [add] appends the entries [more] to a directory. *)
Definition appends (add : Z -> HM unit) (more : list (list Z * fnode)) : Prop := forall s f lo es,
  wf s -> header_ok f lo -> 0 < lo <= nextbno s -> holds s f lo es ->
  dir_blocks (Z.of_nat (length (es ++ more))) <= NINDIRECT ->
  nextbno s + total (dir_blocks (Z.of_nat (length (es ++ more)))) -
    total (dir_blocks (Z.of_nat (length es))) + costs more <= NBLOCK ->
  exists s', add f s = Ret tt s' /\ wf s' /\ holds s' f lo (es ++ more) /\
    nextbno s' = nextbno s + total (dir_blocks (Z.of_nat (length (es ++ more)))) -
      total (dir_blocks (Z.of_nat (length es))) + costs more /\
    changes (f + 128) (f + 180) lo s s'.

Lemma total_mono a b : a <= b -> total a <= total b.
Proof.
  unfold total. change NDIRECT with 10. intros H.
  destruct (Z.ltb_spec 10 a), (Z.ltb_spec 10 b); lia.
Qed.

Lemma dir_blocks_mono a b : 0 <= a <= b -> 0 <= dir_blocks a <= dir_blocks b.
Proof.
  unfold dir_blocks. change FILE2BLK with 16. intros H. Z.div_mod_to_equations. lia.
Qed.

Lemma cost_nonneg t : 0 <= cost t.
Proof.
  induction t as [c|es IH] using fnode_nested_ind.
  - cbn. pose proof (total_mono 0 (blocks_for (Z.of_nat (length c)))). change (total 0) with 0 in *.
    unfold blocks_for, BY2BLK, BY2PG in *. Z.div_mod_to_equations. lia.
  - rewrite cost_dir. pose proof (dir_blocks_mono 0 (Z.of_nat (length es)) ltac:(lia)) as Hd.
    change (dir_blocks 0) with 0 in Hd. pose proof (total_mono _ _ (proj2 Hd)) as Ht.
    change (total 0) with 0 in Ht. enough (0 <= costs es) by lia.
    clear Hd Ht. induction IH as [|[name t] es Ht Hes IHes]; cbn in *; lia.
Qed.

Lemma costs_nonneg es : 0 <= costs es.
Proof. induction es as [|[name t] es IH]; cbn; [lia|]. pose proof (cost_nonneg t). lia. Qed.

Lemma put_run body name t : name_ok name -> fills body name t ->
  appends (fun f => let! g := create_file f in body g) [(name, t)].
Proof.
  intros Hname Hfill s f lo es Hwf Hf Hlo (clo & chi & Hd) Hmax Hfit.
  rewrite length_app, Nat2Z.inj_add in *. change (Z.of_nat (length [(name, t)])) with 1 in *.
  cbn [costs] in *. pose proof (cost_nonneg t).
  destruct (create_file_run f lo s Hf ltac:(lia) Hwf ltac:(lia) es clo chi Hd Hmax ltac:(lia))
    as (s1 & clo1 & chi1 & Hr1 & Hwf1 & Hn1 & Hk & Hd1 & Hch1).
  pose proof (total_mono _ _ (proj2 (dir_blocks_mono (Z.of_nat (length es)) (Z.of_nat (length es) + 1) ltac:(lia)))).
  pose proof (free_slot_fresh _ _ _ _ _ _ _ Hd1 ltac:(lia) Hwf1 Hk) as Hg.
  destruct (Hfill s1 _ Hwf1 Hg ltac:(lia)) as (s' & Hr' & Hwf' & Hn' & Hat & Hrep & Hch).
  pose proof (slot_in _ _ _ _ _ (Z.of_nat (length es)) (di_owns Hd1) ltac:(lia)) as Hin.
  pose proof (wf_next _ Hwf1) as Hw1.
  destruct (attach s1 s' f lo es _ clo1 chi1 name t Hd1 Hf Hwf1 ltac:(lia) ltac:(lia) Hk Hch Hname Hat Hrep)
    as (clo' & chi' & Hd').
  exists s'. split; [by rewrite (bind_step _ _ _ _ _ Hr1)|]. split; [done|].
  split; [exists clo', chi'; rewrite length_app, Nat2Z.inj_add; exact Hd'|]. split; [lia|].
  eapply changes_trans; [done|done|lia|]. right. rewrite SUPER_eq.
  unfold data, BY2BLK, BY2PG, NBLOCK in *. lia.
Qed.

Lemma write_file_run path name size c : name_ok name -> default path (strrchr_slash path) = name ->
  size = Z.of_nat (length c) -> Forall (fun b => 0 <= b < 256) c ->
  appends (fun f => write_file f path size c) [(name, FFile c)].
Proof.
  intros Hname Hpath -> Hc.
  apply (put_run (fun g => strcpy (f_name g) (default path (strrchr_slash path)) ;!
      wr (f_size g) (u32 (Z.of_nat (length c))) ;!
      wr (f_type g) FTYPE_REG ;!
      read_blocks (length c) g 0 c)); [done|].
  intros s g Hwf Hg Hfit. by apply write_body_run.
Qed.

(** ** Writing a directory *)
Definition add (e : hnode) (path : list Z) (dirf : Z) : HM unit :=
  match e with
  | HDir _ => write_directory e dirf path
  | HFile size content | HSpecial size content => write_file dirf path size content
  end.

Section WriteEntries.
Context (pdir : Z) (path : list Z).

Fixpoint write_entries (es : list (list Z * hnode)) : HM unit :=
  match es with
  | [] => ret tt
  | (name, e) :: es =>
      (if is_dots name then ret tt else add e (path ++ [SLASH] ++ name) pdir) ;!
      write_entries es
  end.
End WriteEntries.

Lemma write_directory_eq hes dirf path :
  write_directory (HDir (Some hes)) dirf path =
  let! pdir := create_file dirf in
  let '(name, path) := basename path in
  strncpy (f_name pdir) name (MAXNAMELEN - 1) ;!
  let! c := rd_byte (f_name pdir + (MAXNAMELEN - 1)) in
  (if negb (c =? 0) then panic "file name is too long" else ret tt) ;!
  wr (f_type pdir) FTYPE_DIR ;!
  write_entries pdir path hes.
Proof. reflexivity. Qed.

Lemma appends_nil : appends (fun _ => ret tt) [].
Proof.
  intros s f lo es Hwf Hf Hlo Hh _ _. exists s. rewrite app_nil_r. cbn [costs].
  split; [done|]. split; [done|]. split; [done|]. split; [lia|done].
Qed.

Lemma appends_seq a b more1 more2 : appends a more1 -> appends b more2 ->
  appends (fun f => a f ;! b f) (more1 ++ more2).
Proof.
  intros Ha Hb s f lo es Hwf Hf Hlo Hh Hmax Hfit. rewrite (app_assoc es) in *.
  assert (Hcosts : forall l k, costs (l ++ k) = costs l + costs k).
  { intros l k. induction l as [|[n t] l IH]; cbn [costs app]; lia. }
  rewrite Hcosts in *. pose proof (costs_nonneg more1). pose proof (costs_nonneg more2).
  pose proof (dir_blocks_mono (Z.of_nat (length es)) (Z.of_nat (length (es ++ more1)))
    ltac:(rewrite length_app; lia)) as H1.
  pose proof (dir_blocks_mono (Z.of_nat (length (es ++ more1))) (Z.of_nat (length ((es ++ more1) ++ more2)))
    ltac:(rewrite (length_app (es ++ more1)); lia)) as H2.
  pose proof (total_mono _ _ (proj2 H1)). pose proof (total_mono _ _ (proj2 H2)).
  destruct (Ha s f lo es Hwf Hf Hlo Hh ltac:(lia) ltac:(lia)) as (s1 & Hr1 & Hwf1 & Hh1 & Hn1 & Hc1).
  destruct (Hb s1 f lo _ Hwf1 Hf ltac:(lia) Hh1 Hmax ltac:(lia)) as (s2 & Hr2 & Hwf2 & Hh2 & Hn2 & Hc2).
  exists s2. split; [by rewrite (bind_step _ _ _ _ _ Hr1)|]. split; [done|]. split; [done|].
  split; [lia|]. eapply changes_trans; [done|done|lia|lia].
Qed.

Lemma char_at_over l i : Z.of_nat (length l) <= i -> char_at l i = 0.
Proof. intros H. unfold char_at. by rewrite lookup_ge_None_2 by lia. Qed.

(** The body of [write_directory] after [create_file]. *)
Lemma directory_body_run path raw hes :
  name_ok (take (Z.to_nat (MAXNAMELEN - 1)) raw) -> fst (basename path) = raw ->
  (forall path', appends (fun g => write_entries g path' hes) (entries_of hes)) ->
  fills (fun g => let '(name, path) := basename path in
      strncpy (f_name g) name (MAXNAMELEN - 1) ;!
      let! c := rd_byte (f_name g + (MAXNAMELEN - 1)) in
      (if negb (c =? 0) then panic "file name is too long" else ret tt) ;!
      wr (f_type g) FTYPE_DIR ;!
      write_entries g path hes) (take (Z.to_nat (MAXNAMELEN - 1)) raw) (FDir (entries_of hes)).
Proof.
  intros Hname Hbase Hents s g Hwf Hg Hfit. destruct (basename path) as [raw' path'].
  cbn in Hbase. subst raw'. pose proof (fs_header _ _ Hg) as Hh. pose proof (wf_next _ Hwf) as Hw.
  assert (Hga : g mod 4 = 0) by apply Hh. change MAXNAMELEN with 128 in *.
  unfold strncpy, f_name.
  rewrite (bind_step _ _ _ _ _ (fill_name_run s g (128 - 1) raw Hg ltac:(change MAXNAMELEN with 128; lia))).
  set (s2 := set_words _ s).
  assert (Hv : valid (g + (128 - 1) - (g + (128 - 1)) mod 4) = true).
  { replace (g + (128 - 1) - (g + (128 - 1)) mod 4) with (g + 124) by (Z.div_mod_to_equations; lia).
    by apply (header_valid _ _ 124 Hh). }
  assert (Hsrc : forall i, 0 <= i < 128 - 1 -> char_at raw i = char_at (take (Z.to_nat (128 - 1)) raw) i).
  { intros i Hi. by rewrite char_at_take by lia. }
  rewrite (bind_step _ _ _ _ _ (rd_byte_run _ s2 Hv)).
  assert (Hz : mem_byte (words s2) (g + (128 - 1)) = 0).
  { unfold s2. cbn [words set_words]. rewrite blit_byte.
    - destruct (Z.ltb_spec (g + (128 - 1)) (g + (128 - 1))); [lia|]. rewrite andb_false_r.
      apply zero_slot_byte; [apply Hg|done|unfold BY2FILE; lia].
    - intros i Hi. rewrite Hsrc by lia. apply char_at_range. destruct Hname as [Hch _].
      eapply Forall_impl; [exact Hch|]. unfold is_char. lia. }
  rewrite Hz. rewrite (bind_step _ _ s2 tt s2) by done.
  rewrite (bind_step _ _ _ _ _ (wr_run (f_type g) FTYPE_DIR s2 (header_valid _ _ 132 Hh ltac:(done)))).
  set (s3 := set_words _ s2).
  assert (H3 : forall x, x mod 4 = 0 -> ~ (g <= x < g + 128) -> x <> f_type g -> words s3 x = words s x).
  { intros x Hx Hnx Hne. unfold s3, s2. cbn [words set_words]. rewrite upd_other by done.
    apply (fill_name_other s g _ raw Hg); [change MAXNAMELEN with 128; lia|done|done]. }
  assert (Haw : forall x, data (nextbno s) <= x < SUPER -> ~ (g <= x < g + BY2FILE)).
  { pose proof (ho_away _ _ Hh). unfold BY2FILE in *. rewrite SUPER_eq in *. lia. }
  assert (Hwf3 : wf s3).
  { split; [exact Hw|]. intros x Hx Hal. pose proof (Haw x Hx). unfold BY2FILE in *.
    rewrite H3; [by apply Hwf|done|lia|unfold f_type; lia]. }
  assert (Hh3 : holds s3 g (nextbno s) []).
  { exists (fun _ => 0), (fun _ => 0). change (dir_blocks (Z.of_nat (length []))) with 0.
    assert (Hzs : forall o, 0 <= o < BY2FILE -> o mod 4 = 0 -> 128 <= o -> o <> 132 ->
      words s3 (g + o) = 0).
    { intros o Ho Hal Hlo Hne. rewrite H3; [by apply (fs_zero _ _ Hg)|..]; unfold f_type; try lia.
      Z.div_mod_to_equations. lia. }
    apply dir_empty; [by apply (Hzs 128)|apply upd_same|by apply (Hzs 176)]. }
  rewrite cost_dir in *. pose proof (costs_nonneg (entries_of hes)).
  set (k := Z.of_nat (length (entries_of hes))) in *.
  pose proof (dir_blocks_mono 0 k ltac:(lia)) as Hk. change (dir_blocks 0) with 0 in Hk.
  destruct (Hents path' s3 g (nextbno s) [] Hwf3 Hh ltac:(change (nextbno s3) with (nextbno s); lia) Hh3)
    as (s' & Hr & Hwf' & (clo & chi & Hd) & Hn' & Hch); cbn [app]; fold k.
  { change NINDIRECT with 1024. unfold total, NBLOCK in *. destruct (NDIRECT <? dir_blocks k); lia. }
  { change (nextbno s3) with (nextbno s). change (total (dir_blocks (Z.of_nat (length [])))) with 0. lia. }
  change (nextbno s3) with (nextbno s) in *. cbn [app] in *. fold k in Hn'.
  change (total (dir_blocks (Z.of_nat (length [])))) with 0 in Hn'.
  exists s'. split; [exact Hr|]. split; [done|]. split; [lia|]. split; [|split].
  - eapply (named (words s) _ g (128 - 1) raw); [apply Hg|done|change MAXNAMELEN with 128; lia|done|done
      |rewrite length_take; lia|].
    intros x Hx Hal. change MAXNAMELEN with 128 in *. rewrite Hch; [|done|lia|].
    + unfold s3, s2. cbn [words set_words]. by rewrite upd_other by (unfold f_type; lia).
    + intros Hx2. apply (Haw x Hx2). unfold BY2FILE. lia.
  - eapply rep_dir. exact Hd.
  - intros x Hal Hx Hx2. rewrite Hch; [apply H3|..]; unfold BY2FILE, f_type in *; (done || lia).
Qed.

(** [path] names [raw], for the way the kind of [e] is named. *)
Definition path_names (e : hnode) (path raw : list Z) : Prop :=
  match e with
  | HDir _ => fst (basename path) = raw
  | _ => default path (strrchr_slash path) = raw
  end.

Lemma path_names_app e path name : host_name name -> path_names e (path ++ [SLASH] ++ name) name.
Proof.
  intros Hn. cbn [app]. destruct e; cbn; [|by rewrite basename_app|];
    by rewrite strrchr_app by (by apply host_name_slash).
Qed.

Definition entry_list (e : hnode) (name : list Z) : list (list Z * fnode) :=
  match tree_of e with Some t => [(entry_name e name, t)] | None => [] end.

Lemma entry_name_ok e name : host_name name -> short_name e name -> name_ok (entry_name e name).
Proof.
  intros [Hc Hne] Hs. assert (Hch : Forall is_char name) by (eapply Forall_impl; [exact Hc|naive_solver]).
  destruct e; cbn; [done| |done]. split; [by apply Forall_take|]. split.
  - destruct name; [done|]. by change MAXNAMELEN with 128.
  - rewrite length_take. change MAXNAMELEN with 128. lia.
Qed.

Lemma write_entries_run hes :
  Forall (fun e => forall path raw, good (snd e) -> host_name raw -> short_name (snd e) raw ->
    path_names (snd e) path raw -> appends (add (snd e) path) (entry_list (snd e) raw)) hes ->
  good_entries hes -> forall path, appends (fun g => write_entries g path hes) (entries_of hes).
Proof.
  intros Hall Hg path. induction Hall as [|[name e] hes He Hall IH]; [exact appends_nil|].
  cbn [snd] in He.
  assert (IH' : appends (fun g => write_entries g path hes) (entries_of hes)).
  { apply IH. intros n' e' Hin. apply Hg, elem_of_cons. by right. }
  cbn [write_entries entries_of]. destruct (is_dots name) eqn:Hd.
  - apply (appends_seq _ _ [] _ appends_nil IH').
  - destruct (Hg name e ltac:(apply elem_of_cons; by left) Hd) as (Hn & Hs & Hge).
    apply (appends_seq _ _ _ _ (He _ name Hge Hn Hs (path_names_app e path name Hn)) IH').
Qed.

Lemma add_run e : forall path raw, good e -> host_name raw -> short_name e raw ->
  path_names e path raw -> appends (add e path) (entry_list e raw).
Proof.
  induction e as [size c| |hes IH|size c] using hnode_nested_ind; intros path raw Hg Hn Hs Hp.
  - apply write_file_run; [by apply (entry_name_ok (HFile size c))|done|apply Hg..].
  - exact appends_nil.
  - unfold entry_list. rewrite tree_of_dir. unfold add.
    pose proof (put_run _ _ _ (entry_name_ok (HDir (Some hes)) raw Hn Hs)
      (directory_body_run path raw hes (entry_name_ok (HDir (Some hes)) raw Hn Hs) Hp
        (write_entries_run hes IH (proj1 (good_dir hes) Hg)))) as H.
    intros s f lo es. rewrite write_directory_eq. apply H.
  - apply write_file_run; [by apply (entry_name_ok (HSpecial size c))|done|apply Hg..].
Qed.

(** ** The whole program *)

(** The name an argument gets, and the entry it becomes. *)
Definition arg_name (path : list Z) (e : hnode) : list Z :=
  match e with
  | HDir _ => fst (basename path)
  | _ => default path (strrchr_slash path)
  end.

(** The arguments the program handles as intended.  It checks none of this: a
    file name of 128 characters or more is copied by [strcpy] over the fields
    behind [f_name] (tools/fsformat.c:260), an argument that cannot be opened
    is stored with a size of 2^32 - 1 (tools/fsformat.c:252). *)
Definition arg_ok (arg : list Z * option hnode) : Prop :=
  match arg with
  | (path, Some (HFile _ _ as e)) | (path, Some (HDir _ as e)) =>
      good e /\ host_name (arg_name path e) /\ short_name e (arg_name path e)
  | _ => False
  end.
Definition arg_entries (args : list (list Z * option hnode)) : list (list Z * fnode) :=
  args ≫= fun arg =>
    match arg with (path, Some e) => entry_list e (arg_name path e) | _ => [] end.

Definition add_arg (f : Z) (arg : list Z * option hnode) : HM unit :=
  match arg with (path, Some e) => add e path f | _ => ret tt end.

Lemma write_args_run args : Forall arg_ok args ->
  appends (fun f => forM args (add_arg f)) (arg_entries args).
Proof.
  induction 1 as [|[path [e|]] args Ha Hargs IH]; [exact appends_nil| |done].
  cbn [forM]. apply appends_seq; [|exact IH]. unfold add_arg. cbn [arg_ok] in Ha.
  destruct e; [| |done]; apply add_run; cbn; try done; apply Ha.
Qed.

Lemma write_arg_add arg : arg_ok arg -> forall s, write_arg arg s = add_arg super_root arg s.
Proof. destruct arg as [path [[]|]]; cbn; done. Qed.

Lemma then_run (m : HM unit) (k : unit -> HM unit) s s1 o :
  m s = Ret tt s1 -> k tt s1 = o -> bind m k s = o.
Proof. intros Hm <-. by apply bind_step. Qed.

(** [init_disk]: an empty root directory, and a bitmap with every block of
    the disk free. *)
Lemma init_disk_run : exists s, init_disk host_start = Ret tt s /\ wf s /\ nextbno s = 3 /\
  holds s super_root 3 [] /\
  words s (s_magic SUPER) = FS_MAGIC /\ words s (s_nblocks SUPER) = NBLOCK /\
  (forall i, 0 <= i < BY2BLK / 4 -> words s (data 2 + 4 * i) = if i <? 32 then 2 ^ 32 - 1 else 0) /\
  output s = fun _ => 0.
Proof.
  set (h0 := set_types (upd (types host_start) 0 BLOCK_BOOT) host_start).
  set (h1 := set_nextbno 3 (set_nbitblock 1 h0)).
  set (h2 := set_types (upd (types h1) 2 BLOCK_BMAP) h1).
  set (h3 := set_words (blit (data 2) BY2BLK (fun _ => 0xff) (words h2)) h2).
  set (h4 := set_words (blit (data 2 + 128) (BY2BLK - 128) (fun _ => 0) (words h3)) h3).
  set (h5 := set_types (upd (types h4) 1 BLOCK_SUPER) h4).
  set (h6 := set_words (upd (words h5) (s_magic SUPER) FS_MAGIC) h5).
  set (h7 := set_words (upd (words h6) (s_nblocks SUPER) NBLOCK) h6).
  set (h8 := set_words (upd (words h7) (f_type super_root) FTYPE_DIR) h7).
  set (h9 := set_words (blit super_root 2 (char_at [SLASH]) (words h8)) h8).
  assert (H3 : words h3 = blit (data 2) BY2BLK (fun _ => 0xff) (fun _ => 0)) by done.
  assert (H4 : words h4 = blit (data 2 + 128) (BY2BLK - 128) (fun _ => 0) (words h3)) by done.
  assert (H9 : forall x, x mod 4 = 0 -> x <> SUPER -> x <> SUPER + 4 -> x <> super_root ->
    x <> f_type super_root -> words h9 x = words h4 x).
  { intros x Hx H0 H1 H2' Ht. unfold h9. cbn [words set_words].
    rewrite blit_word_other by (done || (change super_root with 4194312 in *; Z.div_mod_to_equations; lia)).
    unfold h8, h7, h6. cbn [words set_words]. rewrite !upd_other; [done|..];
      unfold s_magic, s_nblocks; done. }
  assert (Hout : forall x, x mod 4 = 0 -> ~ (data 2 <= x < data 3) -> words h4 x = 0).
  { intros x Hx Hn. rewrite H4. change (data 2) with 8192 in *. change (data 3) with 12288 in Hn.
    rewrite blit_word_other by (done || (unfold BY2BLK, BY2PG; lia)). rewrite H3.
    apply blit_word_other; [done|done|]. unfold BY2BLK, BY2PG. change (data 2) with 8192. lia. }
  exists h9. split; [|split; [|split; [done|split; [|split; [|split; [|split; [|done]]]]]]].
  - unfold init_disk. rewrite (bind_step _ _ host_start tt h0 eq_refl).
    change ((NBLOCK + BIT2BLK - 1) / BIT2BLK) with 1. cbv zeta.
    apply (then_run _ _ _ (set_nbitblock 1 h0)); [reflexivity|].
    apply (then_run _ _ _ h1); [reflexivity|].
    apply (then_run _ _ _ h2); [reflexivity|].
    apply (then_run _ _ _ h3); [reflexivity|].
    apply (then_run _ _ _ h4); [reflexivity|].
    apply (then_run _ _ _ h5); [reflexivity|].
    apply (then_run _ _ _ h6); [reflexivity|].
    apply (then_run _ _ _ h7); [reflexivity|].
    apply (then_run _ _ _ h8); [reflexivity|].
    reflexivity.
  - split; [change (nextbno h9) with 3; unfold NBLOCK; lia|]. change (nextbno h9) with 3.
    change (data 3) with 12288. rewrite SUPER_eq. intros x Hx Hal.
    rewrite H9 by (done || (unfold f_type, super_root, s_root; rewrite ?SUPER_eq; lia)).
    apply Hout; [done|]. change (data 3) with 12288. lia.
  - exists (fun _ => 0), (fun _ => 0). change (dir_blocks (Z.of_nat (length []))) with 0.
    apply dir_empty; [|vm_compute; reflexivity|]; (rewrite H9 by done); (apply Hout; [done|intros [_ Hx]; vm_compute in Hx; done]).
  - vm_compute. reflexivity.
  - vm_compute. reflexivity.
  - intros i Hi. change (BY2BLK / 4) with 1024 in Hi. change (data 2) with 8192.
    rewrite H9 by ((Z.div_mod_to_equations; lia) || (unfold f_type, super_root, s_root; rewrite ?SUPER_eq; lia)).
    rewrite H4. destruct (Z.ltb_spec i 32).
    + rewrite blit_word_other by (change (data 2) with 8192; unfold BY2BLK, BY2PG; Z.div_mod_to_equations; lia).
      rewrite H3. unfold blit. change (data 2) with 8192. unfold BY2BLK, BY2PG.
      destruct (Z.ltb_spec 8192 (8192 + 4 * i + 4)), (Z.ltb_spec (8192 + 4 * i) (8192 + 4096)); try lia.
      unfold bytes_word. cbn [andb].
      repeat match goal with |- context [?a <=? ?b] => rewrite (proj2 (Z.leb_le a b)) by lia end.
      repeat match goal with |- context [?a <? ?b] => rewrite (proj2 (Z.ltb_lt a b)) by lia end. done.
    + unfold blit. change (data 2) with 8192. unfold BY2BLK, BY2PG.
      destruct (Z.ltb_spec (8192 + 128) (8192 + 4 * i + 4)), (Z.ltb_spec (8192 + 4 * i) (8192 + 128 + (4096 - 128))); try lia.
      unfold bytes_word. cbn [andb].
      repeat match goal with |- context [?a <=? ?b] => rewrite (proj2 (Z.leb_le a b)) by lia end.
      repeat match goal with |- context [?a <? ?b] => rewrite (proj2 (Z.ltb_lt a b)) by lia end. done.
Qed.

(** Clearing the bit of a used block. *)
Lemma flush_bit_run i s : 0 <= i < NBLOCK -> exists s', flush_bit i s = Ret tt s' /\
  nextbno s' = nextbno s /\ output s' = output s /\
  (forall x, ~ (data 2 <= x < data 3) -> words s' x = words s x) /\
  (forall b, 0 <= b < NBLOCK -> disk_bit (words s') b = negb (i =? b) && disk_bit (words s) b).
Proof.
  intros Hi. set (p := data 2 + 4 * (i / 32)).
  assert (Hp : data (2 + i / BIT2BLK) + 4 * ((i mod BIT2BLK) / 32) = p).
  { unfold p, data, NBLOCK in *. change BIT2BLK with 32768. unfold BY2BLK, BY2PG.
    Z.div_mod_to_equations. lia. }
  assert (Hir : 0 <= i / 32 < 32) by (unfold NBLOCK in *; Z.div_mod_to_equations; lia).
  assert (Hv : valid p = true) by (apply valid_spec; unfold p; change (data 2) with 8192; lia).
  unfold flush_bit. rewrite Hp, (bind_step _ _ _ _ _ (rd_run _ _ Hv)), (wr_run _ _ _ Hv).
  eexists. split; [done|]. split; [done|]. split; [done|]. cbn [words set_words]. split.
  - intros x Hx. apply upd_other. intros ->. apply Hx. unfold p. change (data 3) with 12288.
    change (data 2) with 8192. lia.
  - intros b Hb. unfold disk_bit. fold (data 2). change (2 * BY2BLK) with (data 2).
    rewrite upd_case. pose proof (Z.mod_pos_bound i 32 ltac:(lia)) as H1.
    pose proof (Z.mod_pos_bound b 32 ltac:(lia)) as H2. case_decide as Heq.
    + assert (Hw : i / 32 = b / 32) by (unfold p in Heq; lia).
      unfold bit_of. rewrite shiftl_1_pow, testbit_clear_bit, same_word_bit by (done || lia).
      by rewrite <- Heq.
    + destruct (Z.eqb_spec i b) as [->|]; [|done]. by destruct Heq.
Qed.

Lemma flush_bitmap_run s : 0 <= nextbno s <= NBLOCK -> exists s', flush_bitmap s = Ret tt s' /\
  output s' = output s /\
  (forall x, ~ (data 2 <= x < data 3) -> words s' x = words s x) /\
  (forall b, 0 <= b < NBLOCK ->
     disk_bit (words s') b = (nextbno s <=? b) && disk_bit (words s) b).
Proof.
  intros Hn. unfold flush_bitmap. rewrite (bind_step _ _ s (nextbno s) s) by done.
  destruct (forM_seqZ (fun i s' => output s' = output s /\
      (forall x, ~ (data 2 <= x < data 3) -> words s' x = words s x) /\
      (forall b, 0 <= b < NBLOCK -> disk_bit (words s') b = (i <=? b) && disk_bit (words s) b))
    flush_bit 0 (nextbno s) s ltac:(lia)) as (s' & Hr & Ho & Hw & Hb).
  - intros i s1 Hi (Ho & Hw & Hb). destruct (flush_bit_run i s1 ltac:(lia)) as (s2 & Hr & _ & Ho2 & Hw2 & Hb2).
    exists s2. split; [done|]. split; [congruence|]. split.
    + intros x Hx. rewrite Hw2 by done. by apply Hw.
    + intros b Hbr. rewrite Hb2, Hb by done.
      destruct (Z.eqb_spec i b), (Z.leb_spec i b), (Z.leb_spec (i + 1) b); cbn; (done || lia).
  - split; [done|]. split; [done|]. intros b Hb. by destruct (Z.leb_spec 0 b); [|lia].
  - exists s'. rewrite Z.add_0_l in Hb. done.
Qed.

Lemma finish_fs_run s : exists s', finish_fs false s = Ret tt s' /\
  (forall x, 0 <= x < SUPER -> output s' x =
     if (data 1 <=? x) && (x <? data 1 + BY2SUPER) then words s (SUPER + (x - data 1)) else words s x).
Proof.
  unfold finish_fs. set (m := fun x => if (data 1 <=? x) && (x <? data 1 + BY2SUPER)
    then words s (SUPER + (x - data 1)) else words s x).
  rewrite (bind_step _ _ s tt (set_words m s)) by done.
  destruct (forM_seqZ (fun i s' => words s' = m /\ forall x, 0 <= x < data i -> output s' x = m x)
    (fun i => (if false then reverse_block i else ret tt) ;! write_out i) 0 NBLOCK (set_words m s)
    ltac:(done)) as (s' & Hr & Hw & Ho).
  - intros i s1 Hi (Hw & Ho). eexists. split; [reflexivity|]. split; [done|].
    intros x Hx. cbn [output set_output]. rewrite Hw.
    destruct (Z.leb_spec (data i) x); [|apply Ho; lia].
    destruct (Z.ltb_spec x (data i + BY2BLK)); [done|].
    unfold data, BY2BLK, BY2PG in *. lia.
  - split; [done|]. intros x Hx. unfold data, BY2BLK, BY2PG in Hx. lia.
  - exists s'. done.
Qed.

(** What the file server needs of a disk of [NBLOCK] blocks: the super block,
    a bitmap with exactly the blocks from [next] on free, and the tree. *)
Record formatted (d : Z -> Z) (es : list (list Z * fnode)) (next : Z) : Prop := {
  fd_magic : d (s_magic (data 1)) = FS_MAGIC;
  fd_nblocks : d (s_nblocks (data 1)) = NBLOCK;
  fd_next : 3 <= next <= NBLOCK;
  fd_bitmap b : 0 <= b < NBLOCK -> disk_bit d b = (next <=? b);
  fd_tree : rep d (FDir es) (s_root (data 1)) 3 next
}.

Lemma main_run args :
  args <> [] -> Forall arg_ok args -> 3 + cost (FDir (arg_entries args)) <= NBLOCK ->
  exists s, main false args host_start = Ret tt s /\
    formatted (output s) (arg_entries args) (3 + cost (FDir (arg_entries args))).
Proof.
  intros Hne Hargs Hfit. unfold main.
  destruct init_disk_run as (s0 & Hr0 & Hwf0 & Hn0 & Hh0 & Hmg & Hnb & Hbm & Hout).
  rewrite (bind_step _ _ _ _ _ Hr0). rewrite (bind_step _ _ s0 tt s0) by (by destruct args).
  rewrite cost_dir in *. set (es := arg_entries args) in *. set (k := Z.of_nat (length es)) in *.
  pose proof (costs_nonneg es).
  assert (Hroot : header_ok super_root 3).
  { split; [done|..]; vm_compute; try discriminate. right. discriminate. }
  destruct (write_args_run args Hargs s0 super_root 3 [] Hwf0 Hroot ltac:(lia) Hh0)
    as (s1 & Hr1 & Hwf1 & (clo & chi & Hd) & Hn1 & Hch); fold es; cbn [app]; fold k.
  { change NINDIRECT with 1024. unfold total, NBLOCK in *. destruct (NDIRECT <? dir_blocks k); lia. }
  { change (total (dir_blocks (Z.of_nat (length [])))) with 0. lia. }
  fold es in Hd, Hn1. cbn [app] in *. fold k in Hn1, Hd.
  change (total (dir_blocks (Z.of_nat (length [])))) with 0 in Hn1.
  rewrite (bind_step _ _ s0 tt s1).
  2: { rewrite <- Hr1. apply forM_ext. eapply Forall_impl; [exact Hargs|]. exact write_arg_add. }
  pose proof (wf_next _ Hwf1) as Hw1.
  destruct (flush_bitmap_run s1 ltac:(lia)) as (s2 & Hr2 & Ho2 & Hw2 & Hb2).
  rewrite (bind_step _ _ _ _ _ Hr2).
  destruct (finish_fs_run s2) as (s3 & Hr3 & Ho3). exists s3. split; [exact Hr3|].
  replace (3 + (total (dir_blocks k) + costs es)) with (nextbno s1) by lia.
  change (data 1) with 4096 in *. change BY2SUPER with 264 in *. rewrite SUPER_eq in *.
  assert (Hlow : forall x, x mod 4 = 0 -> 4194304 <= x < 4194312 \/ data 2 <= x < data 3 ->
    words s1 x = words s0 x).
  { intros x Hx Hxr. apply Hch; [done|..]; unfold super_root, s_root; rewrite ?SUPER_eq;
      change (data 2) with 8192 in *; change (data 3) with 12288 in *; lia. }
  assert (Hsup : forall o, 0 <= o < 264 -> output s3 (4096 + o) = words s1 (4194304 + o)).
  { intros o Hor. rewrite Ho3 by lia. rewrite (proj2 (Z.leb_le _ _)), (proj2 (Z.ltb_lt _ _)) by lia.
    cbn [andb]. rewrite Hw2 by (change (data 2) with 8192; change (data 3) with 12288; lia). f_equal. lia. }
  assert (Hdat : forall x, 8192 <= x < 4194304 -> output s3 x = words s2 x).
  { intros x Hx. rewrite Ho3 by lia. by rewrite (proj2 (Z.ltb_ge x (4096 + 264))), andb_false_r by lia. }
  split.
  - change (s_magic (data 1)) with (4096 + 0). rewrite Hsup, Hlow by (done || lia). exact Hmg.
  - change (s_nblocks (data 1)) with (4096 + 4). rewrite Hsup, Hlow by (done || lia). exact Hnb.
  - lia.
  - intros b Hb. transitivity (disk_bit (words s2) b).
    { unfold disk_bit. f_equal. apply Hdat. unfold NBLOCK in Hb. change (2 * BY2BLK) with 8192.
      Z.div_mod_to_equations. lia. }
    rewrite Hb2 by done. destruct (nextbno s1 <=? b); [|done]. cbn [andb]. unfold disk_bit.
    change (2 * BY2BLK) with (data 2).
    assert (0 <= b / 32 < 32) by (unfold NBLOCK in Hb; Z.div_mod_to_equations; lia).
    rewrite Hlow by (change (data 2) with 8192; change (data 3) with 12288;
      (lia || (Z.div_mod_to_equations; lia))).
    rewrite Hbm by (change (BY2BLK / 4) with 1024; lia). rewrite (proj2 (Z.ltb_lt _ 32)) by lia.
    change (2 ^ 32 - 1) with (Z.ones 32). rewrite Z.ones_spec_low; [done|]. by apply Z.mod_pos_bound.
  - eapply (rep_frame (words s1)); [eapply rep_dir; exact Hd| |].
    + intros o Ho Hal. unfold super_root, s_root. rewrite SUPER_eq, <- !Z.add_assoc. apply Hsup. lia.
    + intros x Hx Hal. rewrite Hdat, Hw2; [done|..];
        unfold data, BY2BLK, BY2PG, NBLOCK in *; lia.
Qed.

(** C27. The formatting program writes the tree of its arguments: for readable
    files with names shorter than 128 characters ([arg_ok]: [strcpy] writes past
    the name field otherwise, finding at tools/fsformat.c:260), when the blocks
    the tree needs fit on the disk (unchecked, finding at tools/fsformat.c:136),
    [main] succeeds, and the image has a valid super block, a bitmap in which
    exactly the blocks in use are marked, and the root directory holding the
    host's files and directories, recursively and with all their bytes, where a
    directory's name is cut to 127 characters (finding at tools/fsformat.c:288)
    and a directory that cannot be opened is left out. *)
Theorem main_correct args :
  args <> [] -> Forall arg_ok args -> 3 + cost (FDir (arg_entries args)) <= NBLOCK ->
  exists s, main false args host_start = Ret tt s /\
    formatted (output s) (arg_entries args) (3 + cost (FDir (arg_entries args))).
Proof. exact (main_run args). Qed.

Lemma main_correct_witness :
  let args := [([97; 47; 98], Some (HFile 3 [1; 2; 3])); ([100; 47], Some (HDir (Some
    [([46], HDir None); ([120], HFile 2 [7; 8])])))] in
  exists s, main false args host_start = Ret tt s /\
    formatted (output s) [([98], FFile [1; 2; 3]); ([100], FDir [([120], FFile [7; 8])])] 7.
Proof.
  apply (main_correct [([97; 47; 98], Some (HFile 3 [1; 2; 3])); ([100; 47], Some (HDir (Some
    [([46], HDir None); ([120], HFile 2 [7; 8])])))]).
  - discriminate.
  - repeat constructor; try done; cbn; try lia; try discriminate.
  - vm_compute. discriminate.
Defined.
