(* ===== verification/FsRead.v ===== *)
(** * The file server on a formatted disk

    What the server sees of the disk through its cache ([view]) and the
    relation between the states before and after an operation that only reads
    ([reads]): blocks may be brought into the cache, the view does not
    change but where the operation says so ([f_dir] of the entries it
    visits). *)
From S2P Require Import Prelude Mmu UserMem Fs FsBlocks FsFiles FsMount Fsformat FsImage.

(** The word at offset [x] of the disk, from the cache if it is there. *)
Definition view (s : fsst) (x : Z) : Z :=
  if cached s (x / BY2BLK) then fmem s (DISKMAP + x) else disk s x.

(** Pages for all the blocks that are not cached. *)
Definition uncached (s : fsst) : list Z :=
  filter (fun b => cached s b = false) (seqZ 0 (nblocks s)).
Definition room (s : fsst) : Prop := Z.of_nat (length (uncached s)) <= pages_left s.

(** [s'] is [s] with more blocks in the cache, and the view changed at most
    at the offsets [C]. *)
Record reads (C : Z -> Prop) (s s' : fsst) : Prop := {
  re_mounted : mounted s -> mounted s';
  re_nblocks : nblocks s' = nblocks s;
  re_free b : 0 <= b < nblocks s -> free_bit s' b = free_bit s b;
  re_room : room s -> room s';
  re_cached b : 0 <= b < nblocks s -> cached s b = true -> cached s' b = true;
  re_view x : 0 <= x < data (nblocks s) -> x mod 4 = 0 -> ~ C x -> view s' x = view s x
}.

Definition nowhere : Z -> Prop := fun _ => False.

Lemma reads_refl C s : reads C s s.
Proof. by split. Qed.

Lemma reads_trans (C1 C2 C : Z -> Prop) s1 s2 s3 : reads C1 s1 s2 -> reads C2 s2 s3 ->
  (forall x, C1 x -> C x) -> (forall x, C2 x -> C x) -> reads C s1 s3.
Proof.
  intros [A1 A2 A3 A4 A5 A6] [B1 B2 B3 B4 B5 B6] H1 H2. split.
  - auto.
  - congruence.
  - intros b Hb. rewrite B3 by lia. auto.
  - auto.
  - intros b Hb Hc. apply B5; [lia|auto].
  - intros x Hx Hal Hn. rewrite B6; [apply A6|by rewrite A2|done|]; naive_solver.
Qed.

Lemma reads_weaken C s s' : reads nowhere s s' -> reads C s s'.
Proof. intros [A1 A2 A3 A4 A5 A6]. split; auto. Qed.

Lemma data_div b x : data b <= x < data (b + 1) <-> x / BY2BLK = b.
Proof. unfold data, BY2BLK, BY2PG. split; intros; Z.div_mod_to_equations; lia. Qed.

Lemma diskaddr_data b : 0 <= b < 2 ^ 18 -> diskaddr b = DISKMAP + data b.
Proof. intros Hb. rewrite diskaddr_eq by lia. unfold DISKMAP, data, BY2BLK, BY2PG. lia. Qed.

Lemma view_cached s b x : cached s b = true -> data b <= x < data (b + 1) ->
  view s x = fmem s (DISKMAP + x).
Proof. intros Hc Hx%data_div. unfold view. by rewrite Hx, Hc. Qed.

Lemma view_uncached s b x : cached s b = false -> data b <= x < data (b + 1) -> view s x = disk s x.
Proof. intros Hc Hx%data_div. unfold view. by rewrite Hx, Hc. Qed.

Lemma in_cache s b x : cached s b = true -> 0 <= b < 2 ^ 18 -> data b <= x < data (b + 1) ->
  fmapped s (VPN (DISKMAP + x)) = true.
Proof.
  intros Hc Hb Hx. rewrite (VPN_in_block b); [done|lia|]. rewrite diskaddr_data by done.
  unfold data, BY2BLK, BY2PG in *. lia.
Qed.

Lemma lw_view s b x : cached s b = true -> 0 <= b < 2 ^ 18 -> data b <= x < data (b + 1) ->
  lw (DISKMAP + x) s = Ret (view s x) s.
Proof.
  intros Hc Hb Hx. rewrite lw_run by (by eapply in_cache). by rewrite (view_cached s b x).
Qed.

Lemma nblocks_max s : mounted s -> 0 <= nblocks s <= 2 ^ 18.
Proof. intros Hm. pose proof (m_nblocks _ Hm) as H. by rewrite MAXBLOCKS_eq in H. Qed.

(** ** Bringing a block in *)
Lemma filter_shorter {A} (P Q : A -> Prop) `{!forall x, Decision (P x), !forall x, Decision (Q x)}
    (l : list A) y :
  (forall x, x ∈ l -> Q x -> P x) -> y ∈ l -> P y -> ~ Q y ->
  (length (filter Q l) < length (filter P l))%nat.
Proof.
  intros Hqp Hy Hp Hq.
  assert (Hle : forall k, (forall x, x ∈ k -> Q x -> P x) ->
    (length (filter Q k) <= length (filter P k))%nat).
  { induction k as [|x k IH]; intros Hk; [done|]. rewrite !filter_cons.
    specialize (IH (fun x H => Hk x ltac:(apply elem_of_cons; by right))).
    pose proof (Hk x ltac:(apply elem_of_cons; by left)).
    repeat case_decide; cbn; try lia. exfalso. auto. }
  induction l as [|x l IH]; [by apply elem_of_nil in Hy|].
  pose proof (Hqp x ltac:(apply elem_of_cons; by left)).
  assert (Hl : forall z, z ∈ l -> Q z -> P z) by (intros z Hz; apply Hqp, elem_of_cons; by right).
  apply elem_of_cons in Hy as [->|Hy]; rewrite !filter_cons.
  - rewrite decide_False, decide_True by done. cbn. pose proof (Hle l Hl). lia.
  - specialize (IH Hl Hy). repeat case_decide; cbn; try lia. exfalso. auto.
Qed.

Lemma cached_loaded s b c : 0 <= b < 2 ^ 18 -> 0 <= c < 2 ^ 18 ->
  cached (loaded s b) c = if decide (c = b) then true else cached s c.
Proof.
  intros Hb Hc. destruct (loaded_off s b Hb) as [Ho Hi]. case_decide as Heq; [subst; apply Hi|].
  by apply (ob_cached _ _ _ Ho).
Qed.

Lemma loaded_reads s b : mounted s -> 0 <= b < nblocks s -> cached s b = false ->
  reads nowhere s (loaded s b).
Proof.
  intros Hm Hb Hc. pose proof (nblocks_max s Hm) as Hn. destruct (loaded_off s b ltac:(lia)) as [Ho Hi].
  assert (H1 : b <> 1) by (intros ->; by rewrite (m_super_cached _ Hm) in Hc).
  assert (Hbm : forall x, 0 <= x < nblocks s -> b <> bitmap_block x).
  { intros x Hx ->. by rewrite (m_bitmap_cached _ Hm) in Hc by done. }
  destruct (off_block_mounted s _ b Hm Ho H1 Hbm) as (Hm' & Hn' & Hf').
  split; try done.
  - unfold room, uncached. rewrite Hn'. change (pages_left (loaded s b)) with (pages_left s - 1).
    intros Hr.
    pose proof (filter_shorter (fun c => cached s c = false)
      (fun c => cached (loaded s b) c = false) (seqZ 0 (nblocks s)) b) as Hlt.
    rewrite elem_of_seqZ in Hlt. enough (length (filter (fun c => cached (loaded s b) c = false)
      (seqZ 0 (nblocks s))) < length (filter (fun c => cached s c = false) (seqZ 0 (nblocks s))))%nat by lia.
    apply Hlt; [|lia|done|].
    + intros c Hcr%elem_of_seqZ. rewrite cached_loaded by lia. by case_decide.
    + by rewrite (proj1 Hi).
  - intros c Hcr Hcc. rewrite cached_loaded by lia. by case_decide.
  - intros x Hx Hal _. set (c := x / BY2BLK).
    assert (Hxc : data c <= x < data (c + 1)) by (by apply data_div).
    assert (Hcr : 0 <= c < nblocks s) by (unfold data, BY2BLK, BY2PG in *; lia).
    destruct (decide (c = b)) as [Heq|Hne].
    + rewrite (view_cached _ b) by (rewrite ?Heq in Hxc; (apply Hi || done)).
      rewrite (view_uncached s b) by (rewrite ?Heq in Hxc; done).
      rewrite Heq in Hxc. replace (DISKMAP + x) with (diskaddr b + (x - data b))
        by (rewrite diskaddr_data by lia; lia).
      rewrite (proj2 Hi) by (unfold data, BY2BLK, BY2PG in *; (lia || (Z.div_mod_to_equations; lia))).
      unfold disk_block. f_equal. unfold data. lia.
    + unfold view. fold c. rewrite cached_loaded by lia. rewrite decide_False by done.
      destruct (cached s c); [|done].
      replace (DISKMAP + x) with (diskaddr c + (x - data c)) by (rewrite diskaddr_data by lia; lia).
      apply (ob_words _ _ _ Ho); [lia|done|..]; unfold data, BY2BLK, BY2PG in *;
        (lia || (Z.div_mod_to_equations; lia)).
Qed.

Lemma uncached_room s b : room s -> 0 <= b < nblocks s -> cached s b = false -> 0 < pages_left s.
Proof.
  intros Hr Hb Hc. assert (Hin : b ∈ uncached s).
  { apply list_elem_of_filter. split; [done|]. apply elem_of_seqZ. lia. }
  unfold room in Hr. destruct (uncached s); [by apply elem_of_nil in Hin|]. cbn in Hr. lia.
Qed.

Lemma read_block_reads s b : mounted s -> room s -> 0 <= b < nblocks s -> free_bit s b = false ->
  exists v s', read_block b s = Ret (diskaddr b, v) s' /\ reads nowhere s s' /\ cached s' b = true.
Proof.
  intros Hm Hr Hb Hf. destruct (cached s b) eqn:Hc.
  - exists 0, s. split; [|split; [apply reads_refl|done]].
    rewrite read_block_run by (done || by left). by rewrite Hc.
  - exists 1, (loaded s b). split; [|split; [by apply loaded_reads|]].
    + rewrite read_block_run by (done || (right; by eapply uncached_room)). by rewrite Hc.
    + pose proof (nblocks_max s Hm). rewrite cached_loaded by lia. by rewrite decide_True.
Qed.

(** ** The blocks of a file *)

(** The header at offset [f] is in the cache. *)
Definition header (s : fsst) (f : Z) : Prop :=
  f mod 4 = 0 /\ exists b, 0 <= b < nblocks s /\ cached s b = true /\
    data b <= f /\ f + BY2FILE <= data (b + 1).

Lemma header_word s f o : mounted s -> header s f -> 0 <= o < BY2FILE ->
  lw (DISKMAP + f + o) s = Ret (view s (f + o)) s.
Proof.
  intros Hm (_ & b & Hb & Hc & H1 & H2) Ho. pose proof (nblocks_max s Hm).
  rewrite <- Z.add_assoc. apply (lw_view s b); [done|lia|lia].
Qed.

Lemma header_reads C s s' f : reads C s s' -> header s f -> header s' f.
Proof.
  intros Hr (Hal & b & Hb & Hc & H1 & H2). split; [done|]. exists b.
  rewrite (re_nblocks _ _ _ Hr). split; [done|]. split; [|done]. by apply (re_cached _ _ _ Hr).
Qed.

(** The blocks below [next] are in use. *)
Definition used (s : fsst) (next : Z) : Prop :=
  next <= nblocks s /\ forall b, 0 <= b < next -> free_bit s b = false.

Lemma used_reads C s s' next : reads C s s' -> used s next -> used s' next.
Proof.
  intros Hr [Hn Hf]. split; [by rewrite (re_nblocks _ _ _ Hr)|].
  intros b Hb. rewrite (re_free _ _ _ Hr) by lia. by apply Hf.
Qed.

Lemma same_blocks_reads s s' lo hi : reads nowhere s s' -> 0 <= lo -> hi <= nblocks s ->
  same_blocks (view s) (view s') lo hi.
Proof.
  intros Hr Hlo Hhi x Hx Hal. apply (re_view _ _ _ Hr); [|done|by intros []].
  unfold data, BY2BLK, BY2PG in *. lia.
Qed.

Lemma same_header_reads s s' f : reads nowhere s s' -> header s f ->
  same_header (view s) (view s') f f.
Proof.
  intros Hr (Hal & b & Hb & _ & H1 & H2) o Ho Hoal. apply (re_view _ _ _ Hr); [|Z.div_mod_to_equations; lia|by intros []].
  unfold data, BY2BLK, BY2PG, BY2FILE in *. lia.
Qed.

Section FileBlocks.
Context (s : fsst) (f n lo hi next : Z).
Context (Hm : mounted s) (Hroom : room s) (Hu : used s next) (Hf : header s f).
Context (Ho : owns (view s) f n lo hi) (Hlo : 0 < lo) (Hhi : hi <= next).

Lemma walk_reads i alloc : 0 <= i < n -> exists a s',
  file_block_walk (DISKMAP + f) i alloc s = Ret (OK a) s' /\ reads nowhere s s' /\
  lw a s' = Ret (ptr (view s) f i) s'.
Proof.
  intros Hi. pose proof (ow_n Ho) as Hn. destruct Hu as [Hnx Hfree].
  unfold file_block_walk, ptr. destruct (Z.ltb_spec i NDIRECT) as [Hd|Hd].
  - exists (f_direct (DISKMAP + f) i), s. split; [done|]. split; [apply reads_refl|].
    replace (f_direct (DISKMAP + f) i) with (DISKMAP + f + (136 + 4 * i)) by (unfold f_direct; lia).
    rewrite header_word by (done || (change NDIRECT with 10 in Hd; unfold BY2FILE; lia)).
    by replace (f_direct f i) with (f + (136 + 4 * i)) by (unfold f_direct; lia).
  - rewrite (proj2 (Z.ltb_lt i NINDIRECT)) by lia. destruct (ow_ind Ho ltac:(lia)) as [Hr _].
    set (ind := view s (f_indirect f)) in *.
    assert (Hw : lw (f_indirect (DISKMAP + f)) s = Ret ind s) by (by apply (header_word s f 176)).
    rewrite (bind_step _ _ _ _ _ Hw), (proj2 (Z.eqb_neq ind 0)) by lia.
    rewrite (bind_step _ _ s 0 s) by done. change (0 <? 0) with false. cbv iota.
    rewrite (bind_step _ _ _ _ _ Hw).
    destruct (read_block_reads s ind Hm Hroom ltac:(lia) ltac:(apply Hfree; lia)) as (v & s' & Hrb & Hre & Hc).
    rewrite (bind_step _ _ _ _ _ Hrb). cbn [fst]. eexists _, s'. split; [done|]. split; [done|].
    pose proof (nblocks_max s Hm). rewrite diskaddr_data, <- Z.add_assoc by lia.
    assert (Hx : data ind <= data ind + 4 * i < data (ind + 1)).
    { change NINDIRECT with 1024 in Hn. unfold data, BY2BLK, BY2PG. lia. }
    rewrite (lw_view s' ind) by (done || lia). f_equal.
    apply (re_view _ _ _ Hre); [|unfold data, BY2BLK, BY2PG; Z.div_mod_to_equations; lia|by intros []].
    unfold data, BY2BLK, BY2PG in *. lia.
Qed.

(** [file_get_block] returns the block in the cache. *)
Lemma get_block_reads i : 0 <= i < n -> exists s',
  file_get_block (DISKMAP + f) i s = Ret (OK (DISKMAP + data (ptr (view s) f i))) s' /\
  reads nowhere s s' /\ cached s' (ptr (view s) f i) = true.
Proof.
  intros Hi. destruct (walk_reads i true Hi) as (a & s1 & Hr1 & Hre1 & Hw1).
  pose proof (ow_ptr Ho i Hi) as Hp. destruct (used_reads _ _ _ _ Hre1 Hu) as [Hn1 Hf1].
  pose proof (nblocks_max s Hm).
  destruct (read_block_reads s1 (ptr (view s) f i)) as (v & s2 & Hr2 & Hre2 & Hc2).
  - by apply (re_mounted _ _ _ Hre1).
  - by apply (re_room _ _ _ Hre1).
  - lia.
  - apply Hf1. lia.
  - exists s2. split; [|split; [by eapply reads_trans|done]].
    unfold file_get_block, file_map_block, try_res. rewrite bind_assoc, (bind_step _ _ _ _ _ Hr1).
    rewrite (bind_step _ _ s1 (OK (ptr (view s) f i)) s1).
    2: { rewrite (bind_step _ _ _ _ _ Hw1), (proj2 (Z.eqb_neq _ 0)) by lia. done. }
    rewrite (bind_step _ _ _ _ _ Hr2). cbn [fst]. rewrite diskaddr_data; [done|].
    destruct Hu. lia.
Qed.
End FileBlocks.

(** ** Names *)
Lemma mem_byte_view s b x : cached s b = true -> data b <= x < data (b + 1) ->
  mem_byte (fmem s) (DISKMAP + x) = mem_byte (view s) x.
Proof.
  intros Hc Hx. destruct (word_of_byte b x Hx) as [Hw _]. unfold mem_byte.
  assert (Hmod : (DISKMAP + x) mod 4 = x mod 4) by (change DISKMAP with (67108864 * 4); Z.div_mod_to_equations; lia).
  rewrite Hmod, (view_cached s b) by done. do 2 f_equal. lia.
Qed.

Lemma str_at_shift m m' a a' str :
  (forall i, 0 <= i <= Z.of_nat (length str) -> mem_byte m' (a' + i) = mem_byte m (a + i)) ->
  str_at m' a' str = str_at m a str.
Proof.
  revert a a'. induction str as [|c str IH]; intros a a' H; cbn [str_at length] in *;
    pose proof (H 0 ltac:(lia)) as H0; rewrite !Z.add_0_r in H0; rewrite H0; [done|].
  f_equal. apply IH. intros i Hi. rewrite <- !Z.add_assoc. apply H. lia.
Qed.

Lemma str_at_view s b x name : cached s b = true -> data b <= x ->
  x + Z.of_nat (length name) < data (b + 1) ->
  str_at (fmem s) (DISKMAP + x) name = str_at (view s) x name.
Proof.
  intros Hc H1 H2. apply str_at_shift. intros i Hi. rewrite <- Z.add_assoc.
  apply (mem_byte_view s b); [done|lia].
Qed.

(** A place holds one string. *)
Lemma str_at_unique m a n1 n2 : Forall is_char n1 -> Forall is_char n2 ->
  str_at m a n1 = true -> str_at m a n2 = bool_decide (n1 = n2).
Proof.
  intros H1 H2. revert a n2 H2. induction H1 as [|c n1 Hc H1 IH]; intros a n2 H2 Hs.
  - cbn in Hs. destruct H2 as [|d n2 Hd H2]; [by rewrite bool_decide_true|].
    cbn. apply Z.eqb_eq in Hs. rewrite Hs. unfold is_char in Hd.
    rewrite (proj2 (Z.eqb_neq 0 d)) by lia. by rewrite bool_decide_false.
  - cbn in Hs. apply andb_true_iff in Hs as [Hb Hs]. apply Z.eqb_eq in Hb. unfold is_char in Hc.
    destruct H2 as [|d n2 Hd H2]; cbn [str_at]; rewrite Hb.
    { rewrite (proj2 (Z.eqb_neq c 0)) by lia. by rewrite bool_decide_false. }
    rewrite (IH _ n2 H2 Hs). destruct (Z.eqb_spec c d) as [->|].
    + cbn [andb]. apply bool_decide_ext. naive_solver.
    + cbn [andb]. symmetry. apply bool_decide_false. congruence.
Qed.

(** ** Looking a name up *)
Definition find_entry (name : list Z) (es : list (list Z * fnode)) : option (nat * (list Z * fnode)) :=
  list_find (fun e => fst e = name) es.

Lemma find_slot_entry img R es f lo hi n clo chi name :
  dir_shape img R es f lo hi n clo chi -> Forall is_char name -> name <> [] ->
  List.find (fun g => str_at img (f_name g) name) (slots img f n) =
  match find_entry name es with
  | Some (k, _) => Some (slot img f (Z.of_nat k))
  | None => None
  end.
Proof.
  intros Hd Hc Hne. pose proof (ow_n (di_owns Hd)) as Hn. pose proof (di_room Hd) as Hr.
  rewrite slots_eq by lia. unfold f_name.
  assert (Hno : forall k, Z.of_nat (length es) <= k < FILE2BLK * n ->
    str_at img (slot img f k) name = false).
  { intros k Hk. destruct name as [|c name]; [done|]. cbn.
    assert (Hb : mem_byte img (slot img f k) = 0).
    { unfold mem_byte. pose proof (entry_aligned Hd k 0 ltac:(lia) eq_refl) as Ha.
      rewrite Z.add_0_r in Ha. rewrite Ha, Z.sub_0_r.
      pose proof (di_free Hd k 0 Hk ltac:(done) ltac:(done)) as Hz. rewrite Z.add_0_r in Hz.
      rewrite Hz. done. }
    rewrite Hb. apply Forall_cons_1 in Hc as [Hc _]. unfold is_char in Hc.
    by rewrite (proj2 (Z.eqb_neq 0 c)) by lia. }
  assert (Hyes : forall k name' t, es !! k = Some (name', t) ->
    str_at img (slot img f (Z.of_nat k)) name = bool_decide (name' = name)).
  { intros k name' t Hk. destruct (di_name Hd k name' t Hk) as (Hc' & _ & _ & Hat).
    by apply str_at_unique. }
  unfold find_entry. destruct (list_find _ es) as [[k [name' t]]|] eqn:Hf.
  - apply list_find_Some in Hf as (Hk & Heq & Hfirst). cbn in Heq. subst name'.
    pose proof (lookup_lt_Some _ _ _ Hk) as Hl.
    apply (find_first (fun g => str_at img g name)); [lia| |].
    + intros j Hj. destruct (lookup_lt_is_Some_2 es (Z.to_nat j) ltac:(lia)) as [[nj tj] Hj'].
      pose proof (Hyes _ _ _ Hj') as Hy. rewrite Z2Nat.id in Hy by lia. rewrite Hy.
      apply bool_decide_false. exact (Hfirst _ _ Hj' ltac:(lia)).
    + rewrite (Hyes _ _ _ Hk). by apply bool_decide_true.
  - apply list_find_None in Hf. rewrite Forall_lookup in Hf.
    apply (find_none (fun g => str_at img g name)); [change FILE2BLK with 16; lia|].
    intros j Hj. destruct (decide (j < Z.of_nat (length es))) as [Hl|Hl]; [|apply Hno; lia].
    destruct (lookup_lt_is_Some_2 es (Z.to_nat j) ltac:(lia)) as [[nj tj] Hj'].
    pose proof (Hyes _ _ _ Hj') as Hy. rewrite Z2Nat.id in Hy by lia. rewrite Hy.
    apply bool_decide_false. exact (Hf _ _ Hj').
Qed.

(** Storing the directory in [f_dir]. *)
Lemma set_dir_reads s b g v : mounted s -> 0 <= b < nblocks s -> cached s b = true ->
  1 < b -> (forall x, 0 <= x < nblocks s -> bitmap_block x < b) ->
  data b <= g -> g + BY2FILE <= data (b + 1) ->
  exists s', sw (f_dir (DISKMAP + g)) v s = Ret tt s' /\ reads (fun x => x = f_dir g) s s'.
Proof.
  intros Hm Hb Hc H1 Hbm Hg1 Hg2. pose proof (nblocks_max s Hm) as Hn. unfold BY2FILE in Hg2.
  assert (Ha : f_dir (DISKMAP + g) = DISKMAP + f_dir g) by (unfold f_dir; lia).
  assert (Hx : data b <= f_dir g < data (b + 1)) by (unfold f_dir; lia).
  rewrite Ha, sw_run by (eapply in_cache; [done|lia|done]). eexists. split; [done|].
  set (s' := set_fmem _ s).
  assert (Hoff : off_block s s' b).
  { split; try done. intros c o Hcr Hne Hor _. unfold s'. cbn [fmem set_fmem]. apply upd_other.
    rewrite diskaddr_data by lia. unfold data, BY2BLK, BY2PG in *. lia. }
  destruct (off_block_mounted s s' b Hm Hoff ltac:(lia)) as (Hm' & Hn' & Hf').
  { intros x Hxr E. pose proof (Hbm x Hxr). lia. }
  split; try done.
  - unfold room, uncached. by rewrite Hn'.
  - intros x Hxr Hal Hne. unfold view. change (cached s' (x / BY2BLK)) with (cached s (x / BY2BLK)).
    destruct (cached s (x / BY2BLK)); [|done]. unfold s'. cbn [fmem set_fmem].
    apply upd_other. lia.
Qed.

(** Data blocks are above the super block and the bitmap. *)
Definition above (s : fsst) (lo : Z) : Prop :=
  1 < lo /\ forall x, 0 <= x < nblocks s -> bitmap_block x < lo.

(** A state in which the server can read [img] in the blocks of [lo, hi)
    and the header [f]. *)
Record sees (img : Z -> Z) (f lo hi next : Z) (s : fsst) : Prop := {
  se_mounted : mounted s;
  se_room : room s;
  se_used : used s next;
  se_above : above s lo;
  se_header : header s f;
  se_same : same_header img (view s) f f;
  se_blocks : same_blocks img (view s) lo hi
}.

Lemma sees_reads img f lo hi next s s' : sees img f lo hi next s -> 0 <= lo -> hi <= next ->
  reads nowhere s s' -> sees img f lo hi next s'.
Proof.
  intros [H1 H2 H3 H4 H5 H6 H7] Hlo Hhi Hr. split.
  - by apply (re_mounted _ _ _ Hr).
  - by apply (re_room _ _ _ Hr).
  - by eapply used_reads.
  - unfold above. by rewrite (re_nblocks _ _ _ Hr).
  - by eapply header_reads.
  - intros o Ho Hal. rewrite <- (H6 o Ho Hal). by apply (same_header_reads s s' f).
  - intros x Hx Hal. rewrite <- (H7 x Hx Hal). destruct H3.
    apply (same_blocks_reads s s' lo hi); (done || lia).
Qed.

Section Lookup.
Context (img : Z -> Z) (es : list (list Z * fnode)) (f lo hi n next : Z) (clo chi : nat -> Z).
Context (Hd : dir_shape img (rep img) es f lo hi n clo chi) (Hhi : hi <= next).
Context (name : list Z) (Hlen : Z.of_nat (length name) < MAXNAMELEN).

Definition has_name (g : Z) : bool := str_at img (f_name g) name.

Lemma find_name_reads s p : sees img f lo hi next s -> cached s p = true -> lo <= p < hi ->
  find_name (files_of (DISKMAP + data p)) name s =
  Ret (match List.find has_name (files_of (data p)) with
       | Some g => Some (DISKMAP + g) | None => None end) s.
Proof.
  intros Hs Hc Hp. destruct (se_used _ _ _ _ _ _ Hs) as [Hnx _]. destruct (se_above _ _ _ _ _ _ Hs) as [H1 _].
  pose proof (nblocks_max s (se_mounted _ _ _ _ _ _ Hs)) as Hn.
  assert (Hfl : files_of (DISKMAP + data p) = (fun g => DISKMAP + g) <$> files_of (data p)).
  { unfold files_of. rewrite <- list_fmap_compose. apply list_fmap_ext. intros i x _. cbn. lia. }
  rewrite Hfl. change MAXNAMELEN with 128 in *.
  assert (Hin : forall g, g ∈ files_of (data p) -> data p <= g /\ g + BY2FILE <= data (p + 1)).
  { intros g Hg. apply list_elem_of_fmap in Hg as (j & -> & Hj). apply elem_of_seqZ in Hj.
    change FILE2BLK with 16 in Hj. unfold data, BY2FILE, BY2BLK, BY2PG. lia. }
  rewrite find_name_run; [|..].
  - f_equal. clear Hfl. induction (files_of (data p)) as [|g gs IH]; [done|]. cbn [fmap list_fmap List.find].
    destruct (Hin g ltac:(apply elem_of_cons; by left)) as [Hg1 Hg2]. unfold BY2FILE in Hg2.
    assert (Heq : str_at (fmem s) (f_name (DISKMAP + g)) name = has_name g).
    { unfold has_name, f_name. rewrite (str_at_view s p) by (done || lia).
      apply str_at_ext. intros i Hi. apply (mem_byte_same _ _ _ _ _ (se_blocks _ _ _ _ _ _ Hs)).
      unfold data, BY2BLK, BY2PG in *. lia. }
    rewrite Heq. destruct (has_name g); [done|]. apply IH. intros g' Hg'. apply Hin, elem_of_cons. by right.
  - intros g Hg. apply list_elem_of_fmap in Hg as (g' & -> & Hg'). destruct (Hin g' Hg').
    exists p. split; [lia|]. split; [done|]. rewrite diskaddr_data by lia.
    unfold data, BY2BLK, BY2PG in *. lia.
  - by change MAXNAMELEN with 128.
Qed.

Lemma lookup_blocks_reads bnos : forall s, sees img f lo hi next s -> (forall i, i ∈ bnos -> 0 <= i < n) ->
  exists s1, reads nowhere s s1 /\
  match List.find has_name (bnos ≫= fun i => files_of (data (ptr img f i))) with
  | Some g =>
      dir_lookup_blocks (DISKMAP + f) bnos name s =
        (sw (f_dir (DISKMAP + g)) (DISKMAP + f) ;! ret (OK (DISKMAP + g))) s1 /\
      exists p, lo <= p < hi /\ cached s1 p = true /\ g ∈ files_of (data p)
  | None => dir_lookup_blocks (DISKMAP + f) bnos name s = Ret (Err (- E_NOT_FOUND)) s1
  end.
Proof.
  induction bnos as [|i bnos IH]; intros s Hs Hb.
  { exists s. split; [apply reads_refl|done]. }
  cbn [dir_lookup_blocks mbind list_bind]. pose proof (Hb i ltac:(apply elem_of_cons; by left)) as Hi.
  pose proof (di_owns Hd) as Ho. pose proof (proj2 (ow_n Ho)) as Hn.
  assert (Hsp : same_ptrs img (view s) f f n)
    by (eapply frame_ptrs; [exact Ho|apply (se_same _ _ _ _ _ _ Hs)|apply (se_blocks _ _ _ _ _ _ Hs)]).
  destruct (se_above _ _ _ _ _ _ Hs) as [Hab _].
  destruct (get_block_reads s f n lo hi next (se_mounted _ _ _ _ _ _ Hs) (se_room _ _ _ _ _ _ Hs)
    (se_used _ _ _ _ _ _ Hs) (se_header _ _ _ _ _ _ Hs) (owns_frame _ _ _ _ _ _ _ Ho Hsp)
    ltac:(lia) Hhi i Hi) as (s1 & Hr1 & Hre1 & Hc1).
  rewrite (ptr_frame _ _ _ _ _ i Hn Hsp Hi) in *.
  pose proof (sees_reads _ _ _ _ _ _ _ Hs ltac:(lia) Hhi Hre1) as Hs1.
  pose proof (ow_ptr Ho i Hi) as Hp.
  unfold try_res. rewrite (bind_step _ _ _ _ _ Hr1).
  rewrite (bind_step _ _ _ _ _ (find_name_reads s1 (ptr img f i) Hs1 Hc1 Hp)), find_app.
  destruct (List.find has_name (files_of (data (ptr img f i)))) as [g|] eqn:Hf.
  - exists s1. split; [done|]. split; [done|]. exists (ptr img f i). split; [done|]. split; [done|].
    apply List.find_some in Hf as [Hf _]. by apply list_elem_of_In.
  - destruct (IH s1 Hs1) as (s2 & Hre2 & Hres).
    { intros j Hj. apply Hb, elem_of_cons. by right. }
    exists s2. split; [by eapply reads_trans|]. done.
Qed.

Lemma dir_lookup_reads s : sees img f lo hi next s -> Forall is_char name -> name <> [] ->
  match find_entry name es with
  | Some (k, _) => exists s',
      dir_lookup (DISKMAP + f) name s = Ret (OK (DISKMAP + slot img f (Z.of_nat k))) s' /\
      reads (fun x => x = f_dir (slot img f (Z.of_nat k))) s s' /\
      header s' (slot img f (Z.of_nat k))
  | None => exists s', dir_lookup (DISKMAP + f) name s = Ret (Err (- E_NOT_FOUND)) s' /\
      reads nowhere s s'
  end.
Proof.
  intros Hs Hc Hne. pose proof (se_mounted _ _ _ _ _ _ Hs) as Hm.
  assert (Hsize : view s (f_size f) = n * BY2BLK).
  { rewrite <- (di_size Hd). by apply (se_same _ _ _ _ _ _ Hs 128). }
  unfold dir_lookup. pose proof (header_word s f 128 Hm (se_header _ _ _ _ _ _ Hs) ltac:(done)) as Hw.
  change (lw (f_size (DISKMAP + f)) s = Ret (view s (f_size f)) s) in Hw.
  rewrite (bind_step _ _ _ _ _ Hw), Hsize, Z.div_mul by done.
  destruct (lookup_blocks_reads (seqZ 0 n) s Hs) as (s1 & Hre & Hres).
  { intros i Hi. apply elem_of_seqZ in Hi. lia. }
  fold (slots img f n) in Hres. unfold has_name in Hres.
  rewrite (find_slot_entry _ _ _ _ _ _ _ _ _ _ Hd Hc Hne) in Hres.
  destruct (find_entry name es) as [[k [name' t]]|] eqn:Hf; [|by exists s1].
  destruct Hres as (Hrun & p & Hp & Hcp & Hg). rewrite Hrun. set (g := slot img f (Z.of_nat k)) in *.
  assert (Hgr : data p <= g /\ g + BY2FILE <= data (p + 1) /\ g mod 4 = 0).
  { apply list_elem_of_fmap in Hg as (j & -> & Hj). apply elem_of_seqZ in Hj.
    change FILE2BLK with 16 in Hj. unfold data, BY2FILE, BY2BLK, BY2PG. split_and!; [lia|lia|].
    Z.div_mod_to_equations. lia. }
  destruct Hgr as (Hg1 & Hg2 & Hg3).
  destruct (se_above _ _ _ _ _ _ Hs) as [Hab Hbm]. destruct (se_used _ _ _ _ _ _ Hs) as [Hnx _].
  destruct (set_dir_reads s1 p g (DISKMAP + f)) as (s2 & Hr2 & Hre2); try done.
  - by apply (re_mounted _ _ _ Hre).
  - rewrite (re_nblocks _ _ _ Hre). lia.
  - lia.
  - rewrite (re_nblocks _ _ _ Hre). intros x Hx. pose proof (Hbm x Hx). lia.
  - exists s2. split; [by rewrite (bind_step _ _ _ _ _ Hr2)|]. split; [by eapply reads_trans|].
    split; [done|]. exists p. rewrite (re_nblocks _ _ _ Hre2), (re_nblocks _ _ _ Hre).
    split; [lia|]. split; [|done]. apply (re_cached _ _ _ Hre2); [|done].
    rewrite (re_nblocks _ _ _ Hre). lia.
Qed.
End Lookup.

(** ** Paths *)

(** What a list of names denotes in a tree, or the error. *)
Fixpoint find_path (t : fnode) (names : list (list Z)) : fnode + Z :=
  match names with
  | [] => inl t
  | name :: rest =>
      if MAXNAMELEN <=? Z.of_nat (length name) then inr (- E_BAD_PATH)
      else
        match t with
        | FFile _ => inr (- E_NOT_FOUND)
        | FDir es =>
            match find_entry name es with
            | Some (_, (_, t)) => find_path t rest
            | None => inr (- E_NOT_FOUND)
            end
        end
  end.

(** The server has the tree [t] at the header [f], the header outside the
    blocks of the tree. *)
Record located (s : fsst) (t : fnode) (f lo hi next : Z) : Prop := {
  lc_mounted : mounted s;
  lc_room : room s;
  lc_used : used s next;
  lc_above : above s lo;
  lc_header : header s f;
  lc_next : hi <= next;
  lc_apart : f + BY2FILE <= data lo \/ data hi <= f;
  lc_rep : rep (view s) t f lo hi
}.

Definition inside (lo hi x : Z) : Prop := data lo <= x < data hi.

(** The slot of an entry is outside the entry's blocks. *)
Lemma entry_apart img R es f lo hi n clo chi k :
  dir_shape img R es f lo hi n clo chi -> (k < length es)%nat ->
  slot img f (Z.of_nat k) + BY2FILE <= data (clo k) \/ data (chi k) <= slot img f (Z.of_nat k).
Proof.
  intros Hd Hk. destruct (slot_bounds _ _ _ _ _ _ (di_owns Hd) (entry_slot Hd k Hk)) as (i & Hi & H1 & H2 & _).
  destruct (di_apart Hd k (ptr img f i) Hk ltac:(left; eauto)); [left|right];
    unfold data, BY2FILE, BY2BLK, BY2PG in *; lia.
Qed.

(** Going down to entry [k], whose [f_dir] has been set. *)
Lemma located_entry s s1 es f lo hi next n clo chi k name t :
  located s (FDir es) f lo hi next -> dir_shape (view s) (rep (view s)) es f lo hi n clo chi ->
  es !! k = Some (name, t) ->
  reads (fun x => x = f_dir (slot (view s) f (Z.of_nat k))) s s1 ->
  header s1 (slot (view s) f (Z.of_nat k)) ->
  located s1 t (slot (view s) f (Z.of_nat k)) (clo k) (chi k) next.
Proof.
  intros [H1 H2 H3 H4 H5 H6 H7 H8] Hd Hk Hr Hh. pose proof (lookup_lt_Some _ _ _ Hk) as Hl.
  pose proof (di_span Hd k Hl) as Hsp. destruct H4 as [Hab Hbm]. destruct H3 as [Hnx Hfree].
  pose proof (entry_apart _ _ _ _ _ _ _ _ _ k Hd Hl) as Hap.
  pose proof (slot_in _ _ _ _ _ _ (di_owns Hd) (entry_slot Hd k Hl)) as Hin.
  split.
  - by apply (re_mounted _ _ _ Hr).
  - by apply (re_room _ _ _ Hr).
  - eapply used_reads; [done|by split].
  - split; [lia|]. rewrite (re_nblocks _ _ _ Hr). intros x Hx. pose proof (Hbm x Hx). lia.
  - done.
  - lia.
  - done.
  - set (g := slot (view s) f (Z.of_nat k)) in *. eapply rep_frame; [by apply (di_rep Hd k name)| |].
    + intros o Ho Hal. fold g. pose proof (entry_aligned Hd (Z.of_nat k) o (entry_slot Hd k Hl) Hal) as Ha.
      fold g in Ha. apply (re_view _ _ _ Hr); [|done|unfold f_dir; lia].
      unfold data, BY2FILE, BY2BLK, BY2PG in *. lia.
    + intros x Hx Hal. apply (re_view _ _ _ Hr); [|done|].
      * unfold data, BY2BLK, BY2PG in *. lia.
      * unfold f_dir, BY2FILE in *. lia.
Qed.

(** Back up: the directory after a walk below entry [k]. *)
Lemma located_back s s1 s2 es f lo hi next n clo chi k name t :
  located s (FDir es) f lo hi next -> dir_shape (view s) (rep (view s)) es f lo hi n clo chi ->
  es !! k = Some (name, t) ->
  reads (fun x => x = f_dir (slot (view s) f (Z.of_nat k))) s s1 ->
  reads (inside (clo k) (chi k)) s1 s2 ->
  rep (view s2) t (slot (view s) f (Z.of_nat k)) (clo k) (chi k) ->
  reads (inside lo hi) s s2 /\ rep (view s2) (FDir es) f lo hi.
Proof.
  intros [H1 H2 H3 H4 H5 H6 H7 H8] Hd Hk Hr1 Hr2 Hrep. pose proof (lookup_lt_Some _ _ _ Hk) as Hl.
  pose proof (di_span Hd k Hl) as Hsp. destruct H3 as [Hnx _]. destruct H4 as [Hab _].
  pose proof (slot_in _ _ _ _ _ _ (di_owns Hd) (entry_slot Hd k Hl)) as Hin.
  set (g := slot (view s) f (Z.of_nat k)) in *.
  assert (Hsame : forall x, 0 <= x < data (nblocks s) -> x mod 4 = 0 -> x <> f_dir g ->
    ~ inside (clo k) (chi k) x -> view s2 x = view s x).
  { intros x Hx Hal Hne Hni. rewrite (re_view _ _ _ Hr2); [apply (re_view _ _ _ Hr1)|..]; try done.
    by rewrite (re_nblocks _ _ _ Hr1). }
  destruct H5 as (Hfal & b & Hb & _ & Hf1 & Hf2).
  split.
  - eapply reads_trans; [exact Hr1|exact Hr2|..]; unfold inside, f_dir, BY2FILE, data, BY2BLK, BY2PG in *; intros; lia.
  - eapply rep_dir, dir_touch; [exact Hd|exact Hk| | |exact Hrep].
    + intros o Ho Hal. apply Hsame.
      * unfold data, BY2FILE, BY2BLK, BY2PG in *. lia.
      * Z.div_mod_to_equations. lia.
      * unfold f_dir, BY2FILE in *. lia.
      * unfold inside, data, BY2FILE, BY2BLK, BY2PG in *. lia.
    + intros x Hx Hal Hni Hne. apply Hsame; [|done|done|done].
      unfold data, BY2BLK, BY2PG in *. lia.
Qed.

(** [resolve] is [find_path], and leaves the tree where it is. *)
Lemma resolve_reads names : forall t f lo hi next dir s, located s t f lo hi next ->
  Forall (fun name => Forall is_char name /\ name <> []) names ->
  exists w s', resolve dir (DISKMAP + f) names s = Ret w s' /\ reads (inside lo hi) s s' /\
    rep (view s') t f lo hi /\
    match find_path t names with
    | inl t' => exists dir' g glo ghi, w = mkWalk 0 dir' (DISKMAP + g) [] /\
        located s' t' g glo ghi next
    | inr e => w_r w = e
    end.
Proof.
  induction names as [|name rest IH]; intros t f lo hi next dir s Hl Hnames.
  { exists (mkWalk 0 dir (DISKMAP + f) []), s. split; [done|]. split; [apply reads_refl|].
    split; [apply Hl|]. cbn. by exists dir, f, lo, hi. }
  apply Forall_cons in Hnames as [[Hch Hne] Hrest]. cbn [resolve find_path].
  destruct (Z.leb_spec MAXNAMELEN (Z.of_nat (length name))) as [Hlong|Hshort].
  { eexists _, s. split; [reflexivity|]. split; [apply reads_refl|]. split; [apply Hl|done]. }
  assert (Hty : lw (f_type (DISKMAP + f)) s = Ret (view s (f_type f)) s)
    by (apply (header_word s f 132); [apply Hl|apply Hl|done]).
  rewrite (bind_step _ _ _ _ _ Hty). destruct t as [c|es].
  { pose proof (lc_rep _ _ _ _ _ _ Hl) as Hrep. inversion Hrep as [? ? ? ? Hfi|]; subst.
    rewrite (fi_type Hfi). eexists _, s. split; [reflexivity|]. split; [apply reads_refl|]. done. }
  pose proof (lc_rep _ _ _ _ _ _ Hl) as Hrep. inversion Hrep as [|? ? ? ? n clo chi Hd]; subst.
  rewrite (di_type Hd). change (negb (FTYPE_DIR =? FTYPE_DIR)) with false. cbv iota.
  assert (Hs : sees (view s) f lo hi next s) by (split; (apply Hl || done)).
  pose proof (dir_lookup_reads (view s) es f lo hi n next clo chi Hd (lc_next _ _ _ _ _ _ Hl)
    name Hshort s Hs Hch Hne) as Hlook.
  destruct (find_entry name es) as [[k [name' t']]|] eqn:Hf.
  - destruct Hlook as (s1 & Hr1 & Hre1 & Hh1). rewrite (bind_step _ _ _ _ _ Hr1).
    unfold find_entry in Hf. apply list_find_Some in Hf as (Hk & _ & _).
    pose proof (located_entry _ _ _ _ _ _ _ _ _ _ _ _ _ Hl Hd Hk Hre1 Hh1) as Hl1.
    destruct (IH t' _ _ _ _ (DISKMAP + f) s1 Hl1 Hrest) as (w & s2 & Hr2 & Hre2 & Hrep2 & Hres).
    destruct (located_back _ _ _ _ _ _ _ _ _ _ _ _ _ _ Hl Hd Hk Hre1 Hre2 Hrep2) as [Hre Hrep'].
    exists w, s2. done.
  - destruct Hlook as (s1 & Hr1 & Hre1). rewrite (bind_step _ _ _ _ _ Hr1).
    eexists _, s1. split; [reflexivity|]. split; [by eapply reads_weaken|].
    split; [|by destruct rest].
    destruct (lc_used _ _ _ _ _ _ Hl) as [Hnx _]. destruct (lc_above _ _ _ _ _ _ Hl) as [Hab _].
    pose proof (lc_next _ _ _ _ _ _ Hl).
    eapply rep_frame; [exact Hrep|eapply same_header_reads; [done|apply Hl]|eapply same_blocks_reads; (done || lia)].
Qed.
