(* ===== verification/FsReadProps.v ===== *)
(** * From the host's files to the files of the server

    Mounting a formatted disk, opening a path on it, and the bytes of a file:
    together with [main_correct] of FsformatProps.v these say that what the
    formatting program was given is what the file server hands out. *)
From S2P Require Import Prelude Mmu UserMem Fs FsBlocks FsFiles FsMount Fsformat FsImage FsformatProps FsRead.

(** The file system [es] is mounted, in the blocks below [next]. *)
Definition root_file : Z := s_root (data 1).
Definition serves (s : fsst) (es : list (list Z * fnode)) (next : Z) : Prop :=
  located s (FDir es) root_file 3 next next.

Lemma located_reads s s' t f lo hi next : located s t f lo hi next ->
  reads (inside lo hi) s s' -> rep (view s') t f lo hi -> located s' t f lo hi next.
Proof.
  intros [H1 H2 H3 H4 H5 H6 H7 H8] Hr Hrep. split; try done.
  - by apply (re_mounted _ _ _ Hr).
  - by apply (re_room _ _ _ Hr).
  - by eapply used_reads.
  - unfold above. by rewrite (re_nblocks _ _ _ Hr).
  - by eapply header_reads.
Qed.

(** Reading brings blocks in, and the tree stays. *)
Lemma located_same s s' t f lo hi next : located s t f lo hi next -> reads nowhere s s' ->
  located s' t f lo hi next.
Proof.
  intros Hl Hr. eapply located_reads; [done|by apply reads_weaken|].
  destruct (lc_used _ _ _ _ _ _ Hl) as [Hnx _]. destruct (lc_above _ _ _ _ _ _ Hl) as [Hab _].
  pose proof (lc_next _ _ _ _ _ _ Hl).
  eapply rep_frame; [apply Hl|eapply same_header_reads; [done|apply Hl]
    |eapply same_blocks_reads; (done || lia)].
Qed.

(** ** Mounting *)
Lemma bitmap_block_1024 x : 0 <= x < 1024 -> bitmap_block x = 2.
Proof. intros H. unfold bitmap_block. change BIT2BLK with 32768. Z.div_mod_to_equations. lia. Qed.

(** Mounting a disk the formatting program wrote: with pages for the
    whole disk, [fs_init] succeeds, and the server sees the tree of the image
    under its root directory, all of its blocks marked used. *)
Lemma fs_init_formatted s es next :
  super s = 0 -> bitmap s = 0 -> (forall b, 0 <= b < 2 ^ 18 -> cached s b = false) ->
  formatted (disk s) es next -> NBLOCK <= pages_left s ->
  exists s', fs_init s = Ret tt s' /\ serves s' es next.
Proof.
  intros Hsup Hbm Hunc [F1 F2 F3 F4 F5] Hp. unfold NBLOCK in *.
  destruct (fs_init_run s Hsup Hbm Hunc) as (s' & Hr & Hm & Hn & H1 & Hf & Hd & Hpl & Hc0 & Hc);
    unfold disk_block in *; change (1 * BY2BLK + 4) with (s_nblocks (data 1)) in *; rewrite ?F2 in *.
  - exact F1.
  - rewrite MAXBLOCKS_eq. lia.
  - change (1024 / BIT2BLK) with 0. lia.
  - change (1024 / BIT2BLK) with 0. intros b Hb. rewrite F4 by lia. lia.
  - change (1024 / BIT2BLK) with 0 in *. exists s'. split; [exact Hr|].
    assert (Hc1 : cached s' 1 = true) by apply H1.
    assert (Hview : forall x, data 1 <= x < data 2 \/ data 3 <= x < data 1024 -> x mod 4 = 0 ->
      view s' x = disk s x).
    { intros x Hx Hal. unfold data, BY2BLK, BY2PG in Hx. destruct Hx as [Hx|Hx].
      - rewrite (view_cached s' 1) by (done || (unfold data, BY2BLK, BY2PG; lia)).
        replace (DISKMAP + x) with (diskaddr 1 + (x - 4096)) by (rewrite diskaddr_data by lia; unfold data, BY2BLK, BY2PG; lia).
        rewrite (proj2 H1) by (unfold BY2BLK, BY2PG; (lia || (Z.div_mod_to_equations; lia))).
        f_equal. unfold BY2BLK, BY2PG. lia.
      - set (c := x / BY2BLK). assert (Hcr : 3 <= c < 1024) by (unfold c, BY2BLK, BY2PG; Z.div_mod_to_equations; lia).
        rewrite (view_uncached s' c); [|apply Hc; lia|by apply data_div].
        assert (Hx2 : x = c * BY2BLK + x mod BY2BLK) by (unfold c, BY2BLK, BY2PG; Z.div_mod_to_equations; lia).
        rewrite Hx2. apply Hd; unfold BY2BLK, BY2PG; Z.div_mod_to_equations; lia. }
    split.
    + done.
    + unfold room, uncached. rewrite Hn, Hpl. change (0 + 3) with 3.
      change (seqZ 0 1024) with ([0; 1; 2] ++ seqZ 3 1021).
      assert (Hc2 : cached s' 2 = true).
      { rewrite <- (bitmap_block_1024 0) by lia. apply (m_bitmap_cached _ Hm). lia. }
      rewrite filter_app, !filter_cons, !decide_False by congruence.
      pose proof (length_filter (fun b => cached s' b = false) (seqZ 3 1021)) as Hle.
      rewrite length_seqZ in Hle. change (filter (fun b => cached s' b = false) []) with (@nil Z).
      cbn [app]. lia.
    + split; [lia|]. intros b Hb. rewrite Hf, F4 by lia. lia.
    + split; [lia|]. rewrite Hn. intros x Hx. rewrite bitmap_block_1024 by done. lia.
    + split; [done|]. exists 1. rewrite Hn. split; [lia|]. split; [done|].
      unfold root_file, s_root, data, BY2FILE, BY2BLK, BY2PG. lia.
    + done.
    + left. unfold root_file, s_root, data, BY2FILE, BY2BLK, BY2PG. lia.
    + eapply rep_frame; [exact F5| |].
      * intros o Ho Hal. apply Hview; unfold root_file, s_root, data, BY2BLK, BY2PG; [lia|].
        Z.div_mod_to_equations. lia.
      * intros x Hx Hal. apply Hview; [|done]. unfold data, BY2BLK, BY2PG in *. lia.
Qed.

(** ** Opening a path *)
Lemma elements_chars path : forall cur, Forall is_char path -> Forall is_char cur ->
  Forall (fun name => Forall is_char name /\ name <> []) (elements_from cur path).
Proof.
  induction path as [|c path IH]; intros cur Hp Hc; cbn [elements_from].
  - destruct cur; [done|]. by constructor.
  - apply Forall_cons in Hp as [H0 Hp]. destruct (c =? SLASH).
    + destruct cur; [by apply IH|]. constructor; [done|by apply IH].
    + apply IH; [done|]. apply Forall_app. by split; [|constructor].
Qed.

Lemma find_path_error names : forall t e, find_path t names = inr e ->
  e = - E_BAD_PATH \/ e = - E_NOT_FOUND.
Proof.
  induction names as [|name names IH]; intros t e H; [done|]. cbn [find_path] in H.
  destruct (_ <=? _); [injection H as <-; by left|].
  destruct t as [c|es]; [injection H as <-; by right|].
  destruct (find_entry name es) as [[k [n t']]|]; [by eapply IH|]. injection H as <-. by right.
Qed.

Lemma file_open_run s es next path : serves s es next -> Forall is_char path ->
  exists r s', file_open path s = Ret r s' /\ serves s' es next /\
    match find_path (FDir es) (path_elements path) with
    | inl t => exists f lo hi, r = OK (DISKMAP + f) /\ located s' t f lo hi next
    | inr e => r = Err e
    end.
Proof.
  intros Hs Hp. unfold file_open.
  assert (Hw : walk_path path s = resolve 0 (DISKMAP + root_file) (path_elements path) s).
  { unfold walk_path. rewrite (bind_step _ _ s s s) by done. rewrite <- path_elements_skip.
    rewrite (m_super _ (lc_mounted _ _ _ _ _ _ Hs)), diskaddr_data by lia.
    apply walk_from_resolve; [done|apply skip_slash_head]. }
  destruct (resolve_reads (path_elements path) (FDir es) root_file 3 next next 0 s Hs
    (elements_chars path [] Hp ltac:(done))) as (w & s' & Hr & Hre & Hrep & Hres).
  rewrite <- Hw in Hr. eexists _, s'. split; [by rewrite (bind_step _ _ _ _ _ Hr)|].
  split; [by eapply located_reads|].
  destruct (find_path (FDir es) (path_elements path)) as [t|e] eqn:Hf.
  - destruct Hres as (dir' & g & glo & ghi & -> & Hl). by exists g, glo, ghi.
  - destruct (find_path_error _ _ _ Hf) as [-> | ->]; by rewrite Hres.
Qed.

(** C26. Opening a path refines looking it up in the tree: on a server that
    serves a tree, [file_open] returns for every path, and gives the file or
    directory the tree has at the path, or the error the tree has; the blocks
    are read from the disk as they are needed.  The server goes on serving
    the same tree, so that this holds for every sequence of opens. *)
Theorem file_open_refines s es next path : serves s es next -> Forall is_char path ->
  exists r s', file_open path s = Ret r s' /\ serves s' es next /\
    match find_path (FDir es) (path_elements path) with
    | inl t => exists f lo hi, r = OK (DISKMAP + f) /\ located s' t f lo hi next
    | inr e => r = Err e
    end.
Proof. exact (file_open_run s es next path). Qed.

(** ** The bytes of a file *)

Lemma file_contents_run s c f lo hi next es : serves s es next -> located s (FFile c) f lo hi next ->
  lw (f_size (DISKMAP + f)) s = Ret (Z.of_nat (length c)) s /\
  forall j, 0 <= j < Z.of_nat (length c) -> exists blk s',
    file_get_block (DISKMAP + f) (j / BY2BLK) s = Ret (OK blk) s' /\
    lb (blk + j mod BY2BLK) s' = Ret (char_at c j) s' /\
    serves s' es next /\ located s' (FFile c) f lo hi next.
Proof.
  intros Hs Hl. pose proof (lc_rep _ _ _ _ _ _ Hl) as Hrep. inversion Hrep as [? ? ? ? Hfi|]; subst.
  pose proof (fi_owns Hfi) as Ho. split.
  - rewrite <- (fi_size Hfi). apply (header_word s f 128); [apply Hl|apply Hl|done].
  - intros j Hj. set (n := blocks_for (Z.of_nat (length c))) in *.
    assert (Hi : 0 <= j / BY2BLK < n)
      by (unfold n, blocks_for, BY2BLK, BY2PG; Z.div_mod_to_equations; lia).
    destruct (lc_above _ _ _ _ _ _ Hl) as [Hab _]. destruct (lc_used _ _ _ _ _ _ Hl) as [Hnx _].
    pose proof (lc_next _ _ _ _ _ _ Hl) as Hhi.
    destruct (get_block_reads s f n lo hi next (lc_mounted _ _ _ _ _ _ Hl) (lc_room _ _ _ _ _ _ Hl)
      (lc_used _ _ _ _ _ _ Hl) (lc_header _ _ _ _ _ _ Hl) Ho ltac:(lia) Hhi (j / BY2BLK) Hi)
      as (s' & Hr & Hre & Hc). set (p := ptr (view s) f (j / BY2BLK)) in *.
    pose proof (ow_ptr Ho _ Hi) as Hp. fold p in Hp. pose proof (nblocks_max s (lc_mounted _ _ _ _ _ _ Hl)).
    pose proof (Z.mod_pos_bound j BY2BLK ltac:(done)) as Hm.
    assert (Hx : data p <= data p + j mod BY2BLK < data (p + 1))
      by (unfold data, BY2BLK, BY2PG in *; lia).
    exists (DISKMAP + data p), s'. split; [done|]. split; [|split; by eapply located_same].
    rewrite (lb_run s' p).
    + f_equal. rewrite <- Z.add_assoc, (mem_byte_view s' p) by done.
      rewrite <- (fi_bytes Hfi j Hj). fold p.
      apply (mem_byte_same _ _ lo hi); [eapply same_blocks_reads; (done || lia)|].
      unfold data, BY2BLK, BY2PG in *. lia.
    + split; [lia|]. split; [done|]. rewrite diskaddr_data by lia.
      unfold data, BY2BLK, BY2PG in *. lia.
Qed.

(** C28. The size in the header of a file the server has located is the length
    of its contents, and for every position [file_get_block] returns the
    cached block that holds the byte there, direct or indirect; the server
    goes on serving. *)
Theorem file_contents s c f lo hi next es : serves s es next -> located s (FFile c) f lo hi next ->
  lw (f_size (DISKMAP + f)) s = Ret (Z.of_nat (length c)) s /\
  forall j, 0 <= j < Z.of_nat (length c) -> exists blk s',
    file_get_block (DISKMAP + f) (j / BY2BLK) s = Ret (OK blk) s' /\
    lb (blk + j mod BY2BLK) s' = Ret (char_at c j) s' /\
    serves s' es next /\ located s' (FFile c) f lo hi next.
Proof. exact (file_contents_run s c f lo hi next es). Qed.

(** ** An example: a disk of two files, one in a directory *)
Definition ex_args : list (list Z * option hnode) :=
  [([97; 47; 98], Some (HFile 3 [1; 2; 3])); ([100], Some (HDir (Some [([120], HFile 2 [7; 8])])))].
Definition ex_es : list (list Z * fnode) := [([98], FFile [1; 2; 3]); ([100], FDir [([120], FFile [7; 8])])].

Definition ex_image : Z -> Z :=
  match main false ex_args host_start with Ret _ s => output s | _ => fun _ => 0 end.
Definition ex_boot : fsst := mkFs (fun _ => 0) (fun _ => false) 0 0 ex_image 1024.
Definition ex_served : fsst := match fs_init ex_boot with Ret _ s => s | _ => ex_boot end.

Lemma ex_formatted : formatted ex_image ex_es 7.
Proof.
  destruct (main_run ex_args) as (s & Hr & Hf).
  - discriminate.
  - repeat constructor; try done; cbn; try lia; try discriminate.
  - vm_compute. discriminate.
  - unfold ex_image. rewrite Hr. exact Hf.
Qed.

Lemma ex_serves : serves ex_served ex_es 7.
Proof.
  destruct (fs_init_formatted ex_boot ex_es 7) as (s & Hr & Hs); [done..|exact ex_formatted|done|].
  unfold ex_served. by rewrite Hr.
Qed.

(** "/d/x" *)
Definition ex_path : list Z := [47; 100; 47; 120].

Lemma ex_path_chars : Forall is_char ex_path.
Proof. repeat constructor. Qed.

Lemma file_open_refines_witness : exists r s', file_open ex_path ex_served = Ret r s' /\
  serves s' ex_es 7 /\ exists f lo hi, r = OK (DISKMAP + f) /\ located s' (FFile [7; 8]) f lo hi 7.
Proof. exact (file_open_refines ex_served ex_es 7 ex_path ex_serves ex_path_chars). Defined.

Lemma file_contents_witness : exists s f lo hi, located s (FFile [7; 8]) f lo hi 7 /\
  exists blk s', file_get_block (DISKMAP + f) 0 s = Ret (OK blk) s' /\ lb (blk + 1) s' = Ret 8 s'.
Proof.
  destruct (file_open_run ex_served ex_es 7 ex_path ex_serves ex_path_chars)
    as (r & s & _ & Hs & f & lo & hi & _ & Hl).
  exists s, f, lo, hi. split; [exact Hl|].
  destruct (file_contents s [7; 8] f lo hi 7 ex_es Hs Hl) as [_ Hb].
  destruct (Hb 1 ltac:(cbn; lia)) as (blk & s' & Hr & Hlb & _). exists blk, s'.
  split; [exact Hr|exact Hlb].
Defined.

(** ** End to end *)

(** C25. What goes into the image comes out of the file server: format a disk
    with the host's files, boot a server on it with pages for the whole disk,
    and open any path.  The result is the one the host's tree has, and when it
    is a file, its size and every one of its bytes are the host's.  The host's
    files must be readable, with names shorter than 128 characters ([arg_ok]),
    and the tree must fit on the disk: [fsformat] checks none of this and writes
    past its tables otherwise (findings at tools/fsformat.c:260, :252 and :136).
    Names of directories are cut to 127 characters and directories that cannot
    be opened are left out of the tree ([arg_entries]). *)
Theorem format_then_open args path :
  args <> [] -> Forall arg_ok args -> 3 + cost (FDir (arg_entries args)) <= NBLOCK ->
  Forall is_char path ->
  exists h, main false args host_start = Ret tt h /\
  forall s, super s = 0 -> bitmap s = 0 -> (forall b, 0 <= b < 2 ^ 18 -> cached s b = false) ->
  disk s = output h -> NBLOCK <= pages_left s ->
  exists r s', (fs_init ;! file_open path) s = Ret r s' /\
    match find_path (FDir (arg_entries args)) (path_elements path) with
    | inl (FFile c) => exists f, r = OK f /\
        lw (f_size f) s' = Ret (Z.of_nat (length c)) s' /\
        forall j, 0 <= j < Z.of_nat (length c) -> exists blk s'',
          file_get_block f (j / BY2BLK) s' = Ret (OK blk) s'' /\
          lb (blk + j mod BY2BLK) s'' = Ret (char_at c j) s''
    | inl (FDir _) => exists f, r = OK f /\ lw (f_type f) s' = Ret FTYPE_DIR s'
    | inr e => r = Err e
    end.
Proof.
  intros Hne Hok Hfit Hp. destruct (main_run args Hne Hok Hfit) as (h & Hr & Hf). exists h.
  split; [exact Hr|]. intros s Hsup Hbm Hunc Hdisk Hpages. rewrite <- Hdisk in Hf.
  destruct (fs_init_formatted s _ _ Hsup Hbm Hunc Hf Hpages) as (s1 & Hr1 & Hs1).
  destruct (file_open_run s1 _ _ path Hs1 Hp) as (r & s2 & Hr2 & Hs2 & Hres).
  exists r, s2. split; [by rewrite (bind_step _ _ _ _ _ Hr1)|].
  destruct (find_path _ _) as [[c|es]|e]; [..|done]; destruct Hres as (f & lo & hi & -> & Hl);
    exists (DISKMAP + f); (split; [done|]).
  - destruct (file_contents_run s2 c f lo hi _ _ Hs2 Hl) as [Hsz Hb]. split; [exact Hsz|].
    intros j Hj. destruct (Hb j Hj) as (blk & s3 & H3 & H4 & _). by exists blk, s3.
  - pose proof (lc_rep _ _ _ _ _ _ Hl) as Hrep. inversion Hrep as [|? ? ? ? n clo chi Hd]; subst.
    rewrite <- (di_type Hd). apply (header_word s2 f 132); [apply Hl|apply Hl|done].
Qed.

Lemma format_then_open_witness : exists h r s', main false ex_args host_start = Ret tt h /\
  (fs_init ;! file_open ex_path) ex_boot = Ret r s' /\
  exists f, r = OK f /\ lw (f_size f) s' = Ret 2 s'.
Proof.
  destruct (format_then_open ex_args ex_path) as (h & Hr & Hall).
  - discriminate.
  - repeat constructor; try done; cbn; try lia; try discriminate.
  - vm_compute. discriminate.
  - exact ex_path_chars.
  - destruct (Hall ex_boot) as (r & s' & Hrun & f & Hf & Hsz & _).
    + reflexivity.
    + reflexivity.
    + intros b _. reflexivity.
    + cbn [disk ex_boot]. unfold ex_image. by rewrite Hr.
    + vm_compute. discriminate.
    + exists h, r, s'. split; [exact Hr|]. split; [exact Hrun|]. exists f. split; [exact Hf|exact Hsz].
Defined.
