(* ===== verification/Args.v ===== *)
(** * Options of a program (include/args.h)

    [ARGBEGIN] ... [ARGEND] takes the leading arguments that start with a minus
    sign, apart; the body between them is a [switch] on the characters of these
    arguments, in order. *)
From S2P Require Import Prelude Print.

(** The option characters, and [argv] after [ARGEND]; [argv] is given without
    the program's name.  A lone minus sign is no option, and two of them end
    the options. *)
Fixpoint ARGBEGIN (argv : list (list Z)) : list Z * list (list Z) :=
  match argv with
  | (m :: c :: cs) :: rest =>
      if m =? ch_minus then
        if (c =? ch_minus) && (match cs with [] => true | _ => false end) then ([], rest)
        else let '(o, r) := ARGBEGIN rest in ((c :: cs) ++ o, r)
      else ([], argv)
  | _ => ([], argv)
  end.

(** The arguments of a command line are its options, split over any number of
    arguments, and then the operands, unless the first of these looks like an
    option; after two minus signs anything is an operand. *)
Definition option_arg (a : list Z) : Prop :=
  exists c cs, a = ch_minus :: c :: cs /\ (c = ch_minus -> cs <> []).

Lemma ARGBEGIN_option a argv : option_arg a ->
  ARGBEGIN (a :: argv) = (tail a ++ fst (ARGBEGIN argv), snd (ARGBEGIN argv)).
Proof.
  intros (c & cs & -> & Hc). cbn [ARGBEGIN tail]. rewrite Z.eqb_refl.
  destruct (Z.eqb_spec c ch_minus) as [->|]; cbn [andb].
  - destruct cs; [by destruct (Hc eq_refl)|]. by destruct (ARGBEGIN argv).
  - by destruct (ARGBEGIN argv).
Qed.

Lemma ARGBEGIN_options l args :
  Forall option_arg l -> (forall a, head args = Some a -> head a = Some ch_minus -> a = [ch_minus]) ->
  ARGBEGIN (l ++ args) = (l ≫= tail, args).
Proof.
  intros Hl Ha. induction Hl as [|a l Hx Hl IH].
  - destruct args as [|[|m [|c cs]] args]; try done. cbn [app ARGBEGIN].
    destruct (Z.eqb_spec m ch_minus) as [->|]; [|done].
    specialize (Ha (ch_minus :: c :: cs) eq_refl eq_refl). done.
  - cbn [app]. rewrite ARGBEGIN_option, IH by done. done.
Qed.

Lemma ARGBEGIN_end l args : Forall option_arg l ->
  ARGBEGIN (l ++ [ch_minus; ch_minus] :: args) = (l ≫= tail, args).
Proof.
  intros Hl. induction Hl as [|a l Hx Hl IH]; [done|].
  cbn [app]. by rewrite ARGBEGIN_option, IH.
Qed.
