(* ===== verification/Sh.v ===== *)
(** * The shell (user/sh.c)

    The tokenizer works on the bytes of a command line, wherever they are
    kept: [Chars] is the interface of a memory of characters, which a user
    environment's address space implements.  Its static variables are the
    record [tokst], beside the state of that memory.  The rest of the shell is
    a user program like the others. *)
From S2P Require Import Prelude Queue Mmu Pmap UserMem Fs Serv Elf Env Sched Syscall Traps.
From S2P Require Import Print Stdio Pipe User Fd File Devs Fork Spawn Args.

Definition WHITESPACE : list Z := chars " " ++ [9; 13; 10].
Definition SYMBOLS : list Z := chars "<|>&;()".
Definition ch_w : Z := 119.
Definition ch_lt : Z := 60.
Definition ch_gt : Z := 62.
Definition ch_bar : Z := 124.
Definition ch_del : Z := 8.

(** [strchr(set, c)] is not null; it does not find the terminator. *)
Definition one_of (set : list Z) (c : Z) : bool := bool_decide (c ∈ set).

(** A memory of characters. *)
Class Chars (S : Type) : Type := {
  rd : Z -> M S Z;
  wr : Z -> Z -> M S unit
}.

(** The command line is shorter than the buffer that holds it. *)
Definition BUFSZ : nat := 1024.

(** [c], [nc], [np1], [np2] of [gettoken], and the memory. *)
Record tokst (S : Type) : Type := mkTok { tc : Z; tnc : Z; tnp1 : Z; tnp2 : Z; tmem : S }.
Arguments mkTok {S}. Arguments tc {S}. Arguments tnc {S}. Arguments tnp1 {S}. Arguments tnp2 {S}.
Arguments tmem {S}.

Section Tokens.
Context {S : Type} `{Chars S}.

Definition set_tmem (v : S) (t : tokst S) : tokst S := mkTok (tc t) (tnc t) (tnp1 t) (tnp2 t) v.
Definition in_mem {A} (m : M S A) : M (tokst S) A := zoom tmem set_tmem m.

(** [while (strchr(WHITESPACE, *s)) *s++ = 0;] *)
Fixpoint skip_white (n : nat) (s : Z) : M S Z :=
  let! c := rd s in
  if one_of WHITESPACE c then
    match n with O => fault | Datatypes.S n => wr s 0 ;! skip_white n (s + 1) end
  else ret s.

(** [while ( *s && !strchr(WHITESPACE SYMBOLS, *s)) s++;] *)
Fixpoint scan_word (n : nat) (s : Z) : M S Z :=
  let! c := rd s in
  if negb (c =? 0) && negb (one_of (WHITESPACE ++ SYMBOLS) c) then
    match n with O => fault | Datatypes.S n => scan_word n (s + 1) end
  else ret s.

(** The token and the two pointers [*p1], [*p2]. *)
Definition _gettoken (s : Z) : M S (Z * Z * Z) :=
  if s =? 0 then ret (0, 0, 0)
  else
    let! s := skip_white BUFSZ s in
    let! c := rd s in
    if c =? 0 then ret (0, 0, 0)
    else if one_of SYMBOLS c then wr s 0 ;! ret (c, s, s + 1)
    else
      let! e := scan_word BUFSZ s in
      ret (ch_w, s, e).

(** [nc = _gettoken(s, &np1, &np2)] *)
Definition look_ahead (s : Z) : M (tokst S) unit :=
  let! '(t, p1, p2) := in_mem (_gettoken s) in
  modify (fun k => mkTok (tc k) t p1 p2 (tmem k)).

(** The result and [*p1], which the first call leaves alone (0 here). *)
Definition gettoken (s : Z) : M (tokst S) (Z * Z) :=
  if negb (s =? 0) then look_ahead s ;! ret (0, 0)
  else
    modify (fun k => mkTok (tnc k) (tnc k) (tnp1 k) (tnp2 k) (tmem k)) ;!
    let! k := get in
    let p1 := tnp1 k in
    look_ahead (tnp2 k) ;!
    ret (tc k, p1).

End Tokens.

(** The characters of the running environment's address space. *)
#[export] Instance user_chars : Chars kst := {| rd := loadb; wr := storeb |}.

Section Shell.
Context `{Board} (fsipcbuf : Z) (rpc : Z -> Z -> Z -> KM (Z * Z)) (elfbuf tfbuf cow : Z).

(** [printf] on descriptor 1 (Stdio.v), for strings without conversions. *)
Context (printf : list Z -> KM Z).

Abbreviation SM := (M (tokst kst)).
Definition lib {A} (m : KM A) : SM A := in_mem m.

Definition MAXARGS : Z := 128.
Definition tab : list Dev := devtab fsipcbuf rpc.
Definition sh_exit {A} : SM A := lib (exit fsipcbuf rpc) ;! fault.
Definition complain {A} (fmt : list Z) : SM A := lib (user_debugf fmt []) ;! sh_exit.

(** The string at a user address. *)
Fixpoint user_string (n : nat) (p : Z) : KM (list Z) :=
  match n with
  | O => fault
  | S n =>
      let! c := loadb p in
      if c =? 0 then ret [] else let! l := user_string n (p + 1) in ret (c :: l)
  end.
Definition string_at (p : Z) : SM (list Z) := lib (user_string BUFSZ p).

(** Opening a file and moving it onto descriptor [to]. *)
Definition redirect (t mode to : Z) : SM unit :=
  let! path := string_at t in
  let! fd := lib (open fsipcbuf rpc path mode) in
  if fd <? 0 then complain (chars "failed to open %s" ++ newline)
  else
    let! r := lib (Fd.dup tab fd to) in
    if r <? 0 then
      complain (chars (if to =? 0 then "failed to duplicate file to <stdin>"
                       else "failed to duplicate file to <stdout>") ++ newline)
    else lib (Fd.close tab fd) ;! ret tt.

(** [argv] is the list of its first [argc] elements; the result is that list
    and [*rightpipe].  A token takes at least one character of the line. *)
Fixpoint parsecmd (n : nat) (argv : list Z) (rightpipe : Z) : SM (list Z * Z) :=
  match n with
  | O => fault
  | S n =>
      let! '(c, t) := gettoken 0 in
      if c =? 0 then ret (argv, rightpipe)
      else if c =? ch_w then
        if MAXARGS <=? Z.of_nat (length argv) then complain (chars "too many arguments" ++ newline)
        else parsecmd n (argv ++ [t]) rightpipe
      else if c =? ch_lt then
        let! '(c, t) := gettoken 0 in
        if negb (c =? ch_w) then complain (chars "syntax error: < not followed by word" ++ newline)
        else redirect t O_RDONLY 0 ;! parsecmd n argv rightpipe
      else if c =? ch_gt then
        let! '(c, t) := gettoken 0 in
        if negb (c =? ch_w) then complain (chars "syntax error: > not followed by word" ++ newline)
        else redirect t O_WRONLY 1 ;! parsecmd n argv rightpipe
      else if c =? ch_bar then
        let! p := lib pipe in
        match p with
        | Err _ => complain (chars "failed to create pipe" ++ newline)
        | OK (p0, p1) =>
            let! r := lib (fork cow) in
            if r =? 0 then
              lib (Fd.dup tab p0 0) ;! lib (Fd.close tab p0) ;! lib (Fd.close tab p1) ;!
              parsecmd n [] r
            else
              lib (Fd.dup tab p1 1) ;! lib (Fd.close tab p1) ;! lib (Fd.close tab p0) ;!
              ret (argv, r)
        end
      else parsecmd n argv rightpipe
  end.

(** The strings of [argv], up to the null pointer. *)
Fixpoint strings_at (l : list Z) : SM (list (list Z)) :=
  match l with
  | [] => ret []
  | p :: l => let! s := string_at p in let! ss := strings_at l in ret (s :: ss)
  end.

(** [argv[argc] = 0] with [argc] at [MAXARGS] is a store outside [argv]. *)
Definition runcmd (s : Z) : SM unit :=
  gettoken s ;!
  let! '(argv, rightpipe) := parsecmd BUFSZ [] 0 in
  if (length argv =? 0)%nat then ret tt
  else if Z.of_nat (length argv) =? MAXARGS then fault
  else
    let! args := strings_at argv in
    let prog := hd [] args in
    let! child := lib (spawn fsipcbuf rpc elfbuf tfbuf prog args) in
    lib (close_all tab) ;!
    (if 0 <=? child then lib (wait child)
     else lib (user_debugf (chars "spawn %s: %d" ++ newline) [VStr prog; VInt (u32 child)])) ;!
    (if negb (rightpipe =? 0) then lib (wait rightpipe) else ret tt) ;!
    sh_exit.

(** [readline(buf, n)] from [i] on; [false] when the line is too long.  An
    erase at the start of the line makes [i] negative, and [buf[-1]] is not
    part of the buffer. *)
Fixpoint read_chars (fuel : nat) (buf n i : Z) : KM bool :=
  match fuel with
  | O => fault
  | S fuel =>
      if n <=? i then ret false
      else
        let! r := Fd.read tab 0 (buf + i) 1 in
        if negb (r =? 1) then
          (if r <? 0 then user_debugf (chars "read error: %d" ++ newline) [VInt (u32 r)] else ret tt) ;!
          exit fsipcbuf rpc ;! fault
        else
          let! c := loadb (buf + i) in
          let erase := (c =? ch_del) || (c =? 0x7f) in
          let i := if erase then if 0 <? i then i - 2 else -1 else i in
          if i <? 0 then fault
          else
            (if erase then
               let! c := loadb (buf + i) in
               if negb (c =? ch_del) then printf [ch_del] ;! ret tt else ret tt
             else ret tt) ;!
            let! c := loadb (buf + i) in
            if (c =? 13) || (c =? 10) then storeb (buf + i) 0 ;! ret true
            else read_chars fuel buf n (i + 1)
  end.

(** The rest of a line that is too long. *)
Fixpoint drop_line (fuel : nat) (buf : Z) : KM unit :=
  match fuel with
  | O => fault
  | S fuel =>
      let! r := Fd.read tab 0 buf 1 in
      if r =? 1 then
        let! c := loadb buf in
        if negb (c =? 13) && negb (c =? 10) then drop_line fuel buf else ret tt
      else ret tt
  end.

Definition readline (fuel : nat) (buf n : Z) : KM unit :=
  let! ok := read_chars fuel buf n 0 in
  if (ok : bool) then ret tt
  else
    user_debugf (chars "line too long" ++ newline) [] ;!
    drop_line fuel buf ;!
    storeb buf 0.

(** One turn of the loop of [main] on the buffer [buf]. *)
Definition sh_turn (fuel : nat) (interactive echocmds : bool) (buf : Z) : SM unit :=
  (if interactive then lib (printf (newline ++ chars "$ ")) ;! ret tt else ret tt) ;!
  lib (readline fuel buf 1024) ;!
  let! c := lib (loadb buf) in
  if c =? 35 then ret tt
  else
    (if echocmds then
       let! l := string_at buf in
       lib (printf (chars "# " ++ l ++ newline)) ;! ret tt
     else ret tt) ;!
    let! r := lib (fork cow) in
    if r <? 0 then lib (user_panic "fork: %d")
    else if r =? 0 then runcmd buf ;! sh_exit
    else lib (wait r).

(** ** [main] *)
Definition sh_usage {A} : SM A :=
  lib (user_debugf (chars "usage: sh [-dix] [command-file]" ++ newline) []) ;! sh_exit.

Definition banner_line (s : string) : SM unit := lib (user_debugf (chars s ++ newline) []).
Definition banner : SM unit :=
  lib (user_debugf (newline ++
    chars ":::::::::::::::::::::::::::::::::::::::::::::::::::::::::::::" ++ newline) []) ;!
  banner_line "::                                                         ::" ;!
  banner_line "::                                                         ::" ;!
  banner_line "::                 MOS Shell (RISC-V) 2023                 ::" ;!
  banner_line "::                                                         ::" ;!
  banner_line "::                   Ported by Coder014                    ::" ;!
  banner_line "::                                                         ::" ;!
  banner_line "::                                                         ::" ;!
  banner_line ":::::::::::::::::::::::::::::::::::::::::::::::::::::::::::::".

(** The [switch] on one option; the state is [interactive] and [echocmds]. *)
Definition sh_option (c : Z) (st : bool * bool) : SM (bool * bool) :=
  if c =? 105 then ret (true, snd st)
  else if c =? 120 then ret (fst st, true)
  else sh_usage.
Fixpoint sh_options (l : list Z) (st : bool * bool) : SM (bool * bool) :=
  match l with
  | [] => ret st
  | c :: l => let! st := sh_option c st in sh_options l st
  end.

(** [n] turns of the loop at most: each forks, and only the child leaves it. *)
Fixpoint sh_loop (n fuel : nat) (interactive echocmds : bool) (buf : Z) : SM unit :=
  match n with
  | O => fault
  | S n => sh_turn fuel interactive echocmds buf ;! sh_loop n fuel interactive echocmds buf
  end.

(** [argv] without the program's name. *)
Definition sh_main (n fuel : nat) (buf : Z) (argv : list (list Z)) : SM unit :=
  let! c := lib (iscons 0) in
  banner ;!
  let '(opts, args) := ARGBEGIN argv in
  let! '(interactive, echocmds) := sh_options opts (truthy c, false) in
  match args with
  | _ :: _ :: _ => sh_usage
  | [file] =>
      lib (Fd.close tab 0) ;!
      let! r := lib (open fsipcbuf rpc file O_RDONLY) in
      (if r <? 0 then lib (user_panic "open %s: %d") else ret tt) ;!
      lib (user_assert (r =? 0))
  | [] => ret tt
  end ;!
  sh_loop n fuel interactive echocmds buf.
End Shell.
