(* ===== verification/ShProps.v ===== *)
(** * The tokens of a command line

    Reading tokens with [gettoken] until the end of the line gives the tokens
    of a lexer on lists, each word a string of its own in the buffer. *)
From S2P Require Import Prelude Print Env User Fd Sh.

(** ** The lexer, one character at a time *)
Inductive token : Type := Sym (c : Z) | Word (w : list Z).

Definition flush (w : list Z) : list token := match w with [] => [] | _ => [Word w] end.

(** [w] is the part of a word read so far. *)
Fixpoint lex (w l : list Z) : list token :=
  match l with
  | [] => flush w
  | c :: l =>
      if one_of WHITESPACE c then flush w ++ lex [] l
      else if one_of SYMBOLS c then flush w ++ Sym c :: lex [] l
      else lex (w ++ [c]) l
  end.
Definition tokens (l : list Z) : list token := lex [] l.

Example tokens_example :
  tokens (chars "ls.b  <in|cat") =
  [Word (chars "ls.b"); Sym 60; Word (chars "in"); Sym 124; Word (chars "cat")].
Proof. reflexivity. Qed.

#[local] Arguments one_of : simpl never.

(** ** A memory of characters and what it holds *)

(** [view s a]: the character at [a], where the memory can be read and written. *)
Class CharsLaws (S : Type) `{Chars S} : Type := {
  view : S -> Z -> option Z;
  rd_view a s c : view s a = Some c ->
    exists s', rd a s = Ret c s' /\ forall x, view s' x = view s x;
  wr_view a v s c : view s a = Some c -> 0 <= v < 2 ^ 8 ->
    exists s', wr a v s = Ret tt s' /\ forall x, view s' x = if x =? a then Some v else view s x
}.

Fixpoint chars_at (v : Z -> option Z) (p : Z) (l : list Z) : Prop :=
  match l with [] => True | c :: l => v p = Some c /\ chars_at v (p + 1) l end.

(** The string [l] and its terminator. *)
Definition string_in (v : Z -> option Z) (p : Z) (l : list Z) : Prop :=
  chars_at v p l /\ v (p + Z.of_nat (length l)) = Some 0.

Lemma chars_at_app v p l1 l2 :
  chars_at v p (l1 ++ l2) <-> chars_at v p l1 /\ chars_at v (p + Z.of_nat (length l1)) l2.
Proof.
  revert p. induction l1 as [|c l1 IH]; intros p; cbn [app chars_at length].
  - rewrite Z.add_0_r. tauto.
  - rewrite IH. replace (p + Z.of_nat (S (length l1))) with (p + 1 + Z.of_nat (length l1)) by lia. tauto.
Qed.

Lemma chars_at_ext v v' p l :
  (forall x, p <= x < p + Z.of_nat (length l) -> v' x = v x) -> chars_at v p l -> chars_at v' p l.
Proof.
  revert p. induction l as [|c l IH]; intros p Hv; cbn [chars_at length] in *; [done|].
  intros [Hc Hl]. split; [rewrite Hv by lia; done|]. apply IH; [|done]. intros x Hx. apply Hv. lia.
Qed.

Lemma string_in_ext v v' p l :
  (forall x, p <= x <= p + Z.of_nat (length l) -> v' x = v x) -> string_in v p l -> string_in v' p l.
Proof.
  intros Hv [Hc H0]. split.
  - revert Hc. apply chars_at_ext. intros x Hx. apply Hv. lia.
  - rewrite Hv by lia. done.
Qed.

Lemma string_in_app v p l1 l2 :
  string_in v p (l1 ++ l2) -> chars_at v p l1 /\ string_in v (p + Z.of_nat (length l1)) l2.
Proof.
  intros [[H1 H2]%chars_at_app H0]. split; [done|]. split; [done|].
  rewrite <- H0, length_app. f_equal. lia.
Qed.

Lemma string_in_cons v p c l : string_in v p (c :: l) -> v p = Some c /\ string_in v (p + 1) l.
Proof. intros H. apply (string_in_app _ _ [c]) in H. cbn in H. tauto. Qed.

(** ** The first token of a list of characters *)

(** White space, then the token if there is one, then the rest. *)
Definition word_char (c : Z) : bool := negb (one_of (WHITESPACE ++ SYMBOLS) c).
Inductive first_token : list Z -> list Z -> option token -> list Z -> Prop :=
| first_none ws : Forall (fun c => one_of WHITESPACE c = true) ws -> first_token ws ws None []
| first_sym ws c l : Forall (fun c => one_of WHITESPACE c = true) ws ->
    one_of WHITESPACE c = false -> one_of SYMBOLS c = true ->
    first_token (ws ++ c :: l) ws (Some (Sym c)) l
| first_word ws c w l : Forall (fun c => one_of WHITESPACE c = true) ws ->
    Forall (fun c => word_char c = true) (c :: w) ->
    (match l with [] => True | c :: _ => word_char c = false end) ->
    first_token (ws ++ (c :: w) ++ l) ws (Some (Word (c :: w))) l.

Lemma word_char_split c : word_char c = negb (one_of WHITESPACE c) && negb (one_of SYMBOLS c).
Proof.
  unfold word_char, one_of. rewrite <- negb_orb, <- bool_decide_or. f_equal.
  apply bool_decide_ext. apply elem_of_app.
Qed.

Lemma lex_white ws l : Forall (fun c => one_of WHITESPACE c = true) ws -> tokens (ws ++ l) = tokens l.
Proof. unfold tokens. induction 1 as [|c ws Hc _ IH]; cbn [app lex]; [done|]. by rewrite Hc. Qed.

Lemma lex_word w w' l : Forall (fun c => word_char c = true) w -> lex w' (w ++ l) = lex (w' ++ w) l.
Proof.
  intros Hw. revert w'. induction Hw as [|c w Hc _ IH]; intros w'; [by rewrite app_nil_r|].
  rewrite word_char_split in Hc. apply andb_prop in Hc as [H1 H2]. apply negb_true_iff in H1, H2.
  cbn [app lex]. rewrite H1, H2, IH. by rewrite <- app_assoc.
Qed.

Lemma first_token_lex l ws o r : first_token l ws o r ->
  tokens l = match o with None => [] | Some t => t :: tokens r end.
Proof.
  destruct 1 as [ws Hws|ws c l Hws Hw Hs|ws c w l Hws Hw Hl].
  - by rewrite <- (app_nil_r ws), lex_white.
  - rewrite lex_white by done. unfold tokens. cbn [lex flush app]. by rewrite Hw, Hs.
  - rewrite lex_white by done. unfold tokens at 1. rewrite lex_word by done. cbn [app].
    destruct l as [|d l]; [done|]. rewrite word_char_split in Hl. unfold tokens. cbn [lex].
    destruct (one_of WHITESPACE d); [done|]. cbn [negb andb] in Hl. by destruct (one_of SYMBOLS d).
Qed.

Lemma first_token_length l ws o r : first_token l ws o r -> (length r <= length l)%nat /\
  (o <> None -> length r < length l)%nat.
Proof. destruct 1; cbn; rewrite ?length_app; cbn; rewrite ?length_app; split; intros; (lia || done). Qed.

Lemma first_token_exists l : exists ws o r, first_token l ws o r.
Proof.
  induction l as [|c l (ws & o & r & IH)].
  { exists [], None, []. by constructor. }
  destruct (one_of WHITESPACE c) eqn:Hw.
  { exists (c :: ws), o, r.
    destruct IH as [ws Hws|ws d l Hws ? ?|ws d w l Hws ? ?];
      change (c :: ws ++ ?k) with ((c :: ws) ++ k); constructor; try done; by constructor. }
  destruct (one_of SYMBOLS c) eqn:Hs.
  { exists [], (Some (Sym c)), l. by apply (first_sym []). }
  assert (Hc : word_char c = true) by (by rewrite word_char_split, Hw, Hs).
  assert (Hsplit : exists w k, l = w ++ k /\ Forall (fun c => word_char c = true) w /\
    match k with [] => True | c :: _ => word_char c = false end).
  { clear. induction l as [|d l (w & k & -> & Hw & Hk)]; [by exists [], []|].
    destruct (word_char d) eqn:Hd; [|by exists [], (d :: w ++ k)].
    exists (d :: w), k. split_and!; [done|by constructor|done]. }
  destruct Hsplit as (w & k & -> & Hw' & Hk).
  exists [], (Some (Word (c :: w))), k. apply (first_word []); [done|by constructor|done].
Qed.

Section Reading.
Context {S : Type} `{CharsLaws S}.

Definition zeroed (v : Z -> option Z) (p n : Z) : Z -> option Z := fun x =>
  if (p <=? x) && (x <? p + n) then Some 0 else v x.

Lemma zeroed_out v p n x : x < p \/ p + n <= x -> zeroed v p n x = v x.
Proof using.
  intros Hx. unfold zeroed. by destruct (Z.leb_spec p x), (Z.ltb_spec x (p + n)); (done || lia).
Qed.

Lemma zeroed_in v p n x : p <= x < p + n -> zeroed v p n x = Some 0.
Proof using.
  intros Hx. unfold zeroed. by destruct (Z.leb_spec p x), (Z.ltb_spec x (p + n)); (done || lia).
Qed.

(** The character after [p] in a string: the terminator at its end. *)
Lemma string_in_head v p l : string_in v p l -> v p = Some (hd 0 l).
Proof using.
  destruct l as [|c l].
  - intros [_ Hz]. cbn in Hz. by rewrite Z.add_0_r in Hz.
  - intros [[Hc _] _]. done.
Qed.

Lemma skip_white_run ws l : forall n p s,
  Forall (fun c => one_of WHITESPACE c = true) ws -> one_of WHITESPACE (hd 0 l) = false ->
  string_in (view s) p (ws ++ l) -> (length ws <= n)%nat ->
  exists s', skip_white n p s = Ret (p + Z.of_nat (length ws)) s' /\
    forall x, view s' x = zeroed (view s) p (Z.of_nat (length ws)) x.
Proof using.
  induction ws as [|c ws IH]; intros n p s Hws Hl Hstr Hn; cbn [app length] in *.
  - apply string_in_head in Hstr. destruct (rd_view p s _ Hstr) as (s1 & Hrd & Hv).
    exists s1. split.
    + destruct n; cbn [skip_white]; rewrite (bind_step _ _ _ _ _ Hrd), Hl; by rewrite Z.add_0_r.
    + intros x. rewrite Hv, zeroed_out; [done|lia].
  - apply Forall_cons in Hws as [Hc Hws]. apply string_in_cons in Hstr as [Hp Hstr].
    destruct n as [|n]; [lia|]. cbn [skip_white].
    destruct (rd_view p s c Hp) as (s1 & Hrd & Hv1). rewrite (bind_step _ _ _ _ _ Hrd), Hc.
    destruct (wr_view p 0 s1 c) as (s2 & Hwr & Hv2); [by rewrite Hv1|done|].
    rewrite (bind_step _ _ _ _ _ Hwr).
    destruct (IH n (p + 1) s2 Hws Hl) as (s3 & Hrun & Hv3); [|lia|].
    { revert Hstr. apply string_in_ext. intros x Hx. rewrite Hv2, Hv1.
      by destruct (Z.eqb_spec x p); [lia|]. }
    exists s3. rewrite Hrun. split; [f_equal; lia|]. intros x. rewrite Hv3. unfold zeroed.
    rewrite Hv2, Hv1.
    destruct (Z.leb_spec (p + 1) x), (Z.ltb_spec x (p + 1 + Z.of_nat (length ws))), (Z.leb_spec p x),
      (Z.ltb_spec x (p + Z.of_nat (Datatypes.S (length ws)))), (Z.eqb_spec x p); cbn [andb]; (done || lia).
Qed.

Lemma scan_word_run w l : forall n p s,
  Forall (fun c => word_char c = true /\ c <> 0) w -> hd 0 l = 0 \/ word_char (hd 0 l) = false ->
  string_in (view s) p (w ++ l) -> (length w <= n)%nat ->
  exists s', scan_word n p s = Ret (p + Z.of_nat (length w)) s' /\ forall x, view s' x = view s x.
Proof using.
  induction w as [|c w IH]; intros n p s Hw Hl Hstr Hn; cbn [app length] in *.
  - apply string_in_head in Hstr. destruct (rd_view p s _ Hstr) as (s1 & Hrd & Hv).
    exists s1. split; [|done].
    destruct n; cbn [scan_word]; rewrite (bind_step _ _ _ _ _ Hrd), Z.add_0_r;
      fold (word_char (hd 0 l)); destruct Hl as [-> | ->]; by rewrite ?andb_false_r.
  - apply Forall_cons in Hw as [[Hc Hc0] Hw]. apply string_in_cons in Hstr as [Hp Hstr].
    destruct n as [|n]; [lia|]. cbn [scan_word].
    destruct (rd_view p s c Hp) as (s1 & Hrd & Hv1). rewrite (bind_step _ _ _ _ _ Hrd).
    fold (word_char c). rewrite Hc. destruct (Z.eqb_spec c 0) as [->|_]; [done|]. cbn [negb andb].
    destruct (IH n (p + 1) s1 Hw Hl) as (s2 & Hrun & Hv2); [|lia|].
    { revert Hstr. apply string_in_ext. intros x _. apply Hv1. }
    exists s2. rewrite Hrun. split; [f_equal; lia|]. intros x. by rewrite Hv2, Hv1.
Qed.

(** What [_gettoken] answers for a token, or the end of the line. *)
Definition code (o : option token) : Z :=
  match o with None => 0 | Some (Sym c) => c | Some (Word _) => ch_w end.
Definition cut (o : option token) : Z := match o with Some (Sym _) => 1 | _ => 0 end.

Lemma code_nonzero l ws t r : first_token l ws (Some t) r -> Forall (fun c => c <> 0) l -> code (Some t) <> 0.
Proof using.
  inversion 1; subst; intros Hl; [|done]. apply Forall_app in Hl as [_ Hl].
  by apply Forall_cons in Hl as [? _].
Qed.

Lemma _gettoken_run p s l ws o r :
  first_token l ws o r -> string_in (view s) p l -> Forall (fun c => c <> 0) l ->
  0 < p -> (length l <= BUFSZ)%nat ->
  let n := Z.of_nat (length ws) in
  let q := p + Z.of_nat (length l) - Z.of_nat (length r) in
  exists s', _gettoken p s =
    Ret (code o, if o then p + n else 0, if o then q else 0) s' /\
    forall x, view s' x = zeroed (view s) p (n + cut o) x.
Proof using.
  intros Hft Hstr Hnz Hp Hlen n q. unfold _gettoken.
  destruct (Z.eqb_spec p 0) as [|_]; [lia|].
  assert (Hsplit : exists k, l = ws ++ k /\ Forall (fun c => one_of WHITESPACE c = true) ws /\
    one_of WHITESPACE (hd 0 k) = false).
  { destruct Hft as [ws Hws|ws c l Hws Hw Hs|ws c w l Hws Hw Hl].
    - exists []. by rewrite app_nil_r.
    - by exists (c :: l).
    - exists ((c :: w) ++ l). split_and!; [done|done|]. apply Forall_cons in Hw as [Hc _].
      rewrite word_char_split in Hc. by apply andb_prop in Hc as [?%negb_true_iff _]. }
  destruct Hsplit as (k & Hk & Hws & Hhd). rewrite Hk in Hstr.
  assert (Hlw : (length ws <= BUFSZ)%nat) by (rewrite Hk, length_app in Hlen; lia).
  destruct (skip_white_run ws k BUFSZ p s Hws Hhd Hstr Hlw) as (s1 & Hrun & Hv1).
  rewrite (bind_step _ _ _ _ _ Hrun). apply string_in_app in Hstr as [_ Hstr]. fold n in Hv1, Hrun, Hstr.
  assert (Hstr1 : string_in (view s1) (p + n) k).
  { revert Hstr. apply string_in_ext. intros x Hx. by rewrite Hv1, zeroed_out by lia. }
  destruct (rd_view (p + n) s1 _ (string_in_head _ _ _ Hstr1)) as (s2 & Hrd & Hv2).
  fold n. rewrite (bind_step _ _ _ _ _ Hrd).
  assert (Hv : forall x, view s2 x = zeroed (view s) p n x) by (intros x; by rewrite Hv2).
  assert (Hlk : Z.of_nat (length l) = n + Z.of_nat (length k)) by (rewrite Hk, length_app; lia).
  destruct Hft as [ws' Hws'|ws' c l Hws' Hw Hs|ws' c w l Hws' Hw Hl].
  - rewrite <- (app_nil_r ws') in Hk at 1. apply app_inv_head in Hk as <-. cbn [hd Z.eqb].
    exists s2. split; [done|]. intros x. by rewrite Hv, Z.add_0_r.
  - apply app_inv_head in Hk as <-. cbn [hd]. apply Forall_app in Hnz as [_ [Hc0 _]%Forall_cons].
    destruct (Z.eqb_spec c 0); [done|]. rewrite Hs.
    destruct (wr_view (p + n) 0 s2 c) as (s3 & Hwr & Hv3); [|done|].
    { rewrite Hv2. by apply string_in_cons in Hstr1 as [? _]. }
    rewrite (bind_step _ _ _ _ _ Hwr). exists s3. split.
    + replace (p + n + 1) with q by (subst q; cbn [length] in Hlk; lia). done.
    + intros x. rewrite Hv3, Hv. cbn [cut]. unfold zeroed.
      destruct (Z.eqb_spec x (p + n)), (Z.leb_spec p x), (Z.ltb_spec x (p + n)),
        (Z.ltb_spec x (p + (n + 1))); cbn [andb]; (done || lia).
  - apply app_inv_head in Hk as <-. cbn [hd app]. apply Forall_app in Hnz as [_ Hnz].
    pose proof Hnz as [Hnw Hnl]%Forall_app. pose proof Hw as [Hc _]%Forall_cons.
    apply Forall_cons in Hnw as Hc0. destruct Hc0 as [Hc0 _].
    destruct (Z.eqb_spec c 0); [done|].
    assert (Hsym : one_of SYMBOLS c = false).
    { rewrite word_char_split in Hc. by apply andb_prop in Hc as [_ ?%negb_true_iff]. }
    rewrite Hsym.
    destruct (scan_word_run (c :: w) l BUFSZ (p + n) s2) as (s3 & Hscan & Hv3).
    + by apply Forall_and.
    + destruct l as [|d l]; [by left|by right].
    + revert Hstr1. apply string_in_ext. intros x _. apply Hv2.
    + rewrite !length_app in Hlen. lia.
    + rewrite (bind_step _ _ _ _ _ Hscan). exists s3. split.
      * rewrite (length_app (c :: w) l) in Hlk.
        replace (p + n + Z.of_nat (length (c :: w))) with q by (subst q; lia).
        done.
      * intros x. by rewrite Hv3, Hv, Z.add_0_r.
Qed.

(** ** The whole line *)

(** The token read ahead, whose characters end at [q], where the rest [r] of
    the line is. *)
Record pending (k : tokst S) (o : option token) (q : Z) (r : list Z) : Prop := {
  pd_code : tnc k = code o;
  pd_end : tnp2 k = if o then q else 0;
  pd_rest : o <> None -> 0 < q /\ tnc k <> 0 /\ string_in (view (tmem k)) q r /\
    Forall (fun c => c <> 0) r /\ (length r <= BUFSZ)%nat;
  pd_word w : o = Some (Word w) -> chars_at (view (tmem k)) (tnp1 k) w /\
    tnp1 k + Z.of_nat (length w) = q /\ (match r with [] => True | c :: _ => word_char c = false end)
}.

Lemma look_ahead_run k p l :
  string_in (view (tmem k)) p l -> Forall (fun c => c <> 0) l -> 0 < p -> (length l <= BUFSZ)%nat ->
  exists k' ws o r, first_token l ws o r /\ look_ahead p k = Ret tt k' /\ tc k' = tc k /\
    pending k' o (p + Z.of_nat (length l) - Z.of_nat (length r)) r /\
    (forall x, x < p \/ p + Z.of_nat (length l) <= x -> view (tmem k') x = view (tmem k) x) /\
    ((match l with [] => True | c :: _ => word_char c = false end) -> view (tmem k') p = Some 0).
Proof using.
  intros Hstr Hnz Hp Hlen. destruct (first_token_exists l) as (ws & o & r & Hft).
  destruct (_gettoken_run p (tmem k) l ws o r Hft Hstr Hnz Hp Hlen) as (m & Hrun & Hv).
  set (n := Z.of_nat (length ws)) in *. set (q := p + Z.of_nat (length l) - Z.of_nat (length r)) in *.
  exists (mkTok (tc k) (code o) (if o then p + n else 0) (if o then q else 0) m), ws, o, r.
  assert (Hcut : n + cut o + Z.of_nat (length r) <= Z.of_nat (length l) /\ 0 <= n /\
    (forall c w, o = Some (Word (c :: w)) -> l = ws ++ (c :: w) ++ r)).
  { subst n. destruct Hft; cbn [cut length]; rewrite ?length_app; cbn [length]; rewrite ?length_app;
      (split; [lia|split; [lia|]]); intros; by simplify_eq. }
  destruct Hcut as (Hcut & Hn & Hword).
  split_and!; [done| |done| | |].
  - unfold look_ahead, in_mem, zoom, bind. rewrite Hrun. done.
  - assert (Hstr' : string_in (view m) q r).
    { assert (Hr : exists u, l = u ++ r /\ Z.of_nat (length u) = Z.of_nat (length l) - Z.of_nat (length r)).
      { destruct Hft as [ws|ws c l|ws c w l].
        - exists ws. rewrite app_nil_r. cbn. split; [done|lia].
        - exists (ws ++ [c]). rewrite <- app_assoc, !length_app. cbn. split; [done|lia].
        - exists (ws ++ c :: w). rewrite <- app_assoc, !length_app. split; [done|lia]. }
      destruct Hr as (u & Hu & Hlu). rewrite Hu in Hstr. apply string_in_app in Hstr as [_ Hstr].
      replace (p + Z.of_nat (length u)) with q in Hstr by lia.
      revert Hstr. apply string_in_ext. intros x Hx. rewrite Hv. apply zeroed_out. lia. }
    split; cbn [tnc tnp1 tnp2 tmem]; [done|done| |].
    + intros Ho. destruct o as [t|]; [|done].
      assert (Hnzr : Forall (fun c => c <> 0) r).
      { destruct Hft as [|? ? ? _ _ _|? ? ? ? _ _ _]; [done|..].
        - apply Forall_app in Hnz as [_ Hnz]. by apply Forall_cons in Hnz as [_ ?].
        - apply Forall_app in Hnz as [_ Hnz]. by apply Forall_app in Hnz as [_ ?]. }
      destruct (first_token_length _ _ _ _ Hft) as [Hle Hlt]. specialize (Hlt ltac:(done)).
      split_and!; [lia|by eapply code_nonzero|done|done|lia].
    + intros w ->. destruct w as [|c w]; [inversion Hft|].
      assert (Hr : match r with [] => True | c :: _ => word_char c = false end) by (by inversion Hft).
      specialize (Hword c w eq_refl). rewrite Hword in Hstr.
      apply string_in_app in Hstr as [_ Hstr]. apply string_in_app in Hstr as [Hstr _]. fold n in Hstr.
      assert (Hq : p + n + Z.of_nat (length (c :: w)) = q).
      { subst q. rewrite Hword, !length_app. lia. }
      split_and!; [|done|done]. revert Hstr. apply chars_at_ext. intros x Hx. rewrite Hv. apply zeroed_out.
      cbn [cut]. lia.
  - intros x Hx. cbn [tmem]. rewrite Hv. apply zeroed_out. lia.
  - intros Hhd. cbn [tmem]. rewrite Hv. destruct (decide (0 < n + cut o)); [apply zeroed_in; lia|].
    rewrite zeroed_out by lia. apply string_in_head in Hstr. rewrite Hstr.
    destruct ws; [|subst n; cbn in *; destruct o as [[]|]; cbn in *; lia].
    inversion Hft as [| |? c w r' _ Hw _]; subst; [done|cbn in *; lia|].
    apply Forall_cons in Hw as [Hw _]. cbn in Hhd. congruence.
Qed.

(** Reading until the end of the line, as [parsecmd] does. *)
Fixpoint read_tokens (n : nat) : M (tokst S) (list (Z * Z)) :=
  match n with
  | O => fault
  | Datatypes.S n =>
      let! ct := gettoken 0 in
      if fst ct =? 0 then ret [] else let! l := read_tokens n in ret (ct :: l)
  end.

(** A token the program got: the code of a symbol, or a word that is a string
    at the pointer. *)
Definition token_is (v : Z -> option Z) (ct : Z * Z) (t : token) : Prop :=
  match t with
  | Sym c => fst ct = c
  | Word w => fst ct = ch_w /\ string_in v (snd ct) w
  end.

Lemma token_is_ext v v' ct t : (forall w, t = Word w -> forall x,
  snd ct <= x <= snd ct + Z.of_nat (length w) -> v' x = v x) -> token_is v ct t -> token_is v' ct t.
Proof using.
  destruct t as [c|w]; cbn; [done|]. intros Hv [Hc Hs]. split; [done|].
  revert Hs. apply string_in_ext. by apply Hv.
Qed.


(** One more token: the one read ahead, and the next is read ahead. *)
Lemma gettoken_next k t q r : pending k (Some t) q r ->
  exists k' ws o r', first_token r ws o r' /\ gettoken 0 k = Ret (code (Some t), tnp1 k) k' /\
    pending k' o (q + Z.of_nat (length r) - Z.of_nat (length r')) r' /\
    (forall x, x < q \/ q + Z.of_nat (length r) <= x -> view (tmem k') x = view (tmem k) x) /\
    token_is (view (tmem k')) (code (Some t), tnp1 k) t.
Proof using.
  intros [Hc He Hrest Hword]. destruct Hrest as (Hq & _ & Hstr & Hnz & Hlen); [done|].
  set (k1 := mkTok (tnc k) (tnc k) (tnp1 k) (tnp2 k) (tmem k)).
  destruct (look_ahead_run k1 q r Hstr Hnz Hq Hlen)
    as (k2 & ws & o & r' & Hft & Hrun & Htc & Hpend & Hout & Hzero).
  exists k2, ws, o, r'. split_and!; [done| |done|exact Hout|].
  - unfold gettoken. cbn [Z.eqb negb]. rewrite (bind_step _ _ k tt k1) by done.
    rewrite (bind_step _ _ k1 k1 k1) by done. change (tnp2 k1) with (tnp2 k). rewrite He.
    rewrite (bind_step _ _ _ _ _ Hrun). by rewrite <- Hc.
  - destruct t as [c|w]; [done|]. destruct (Hword w eq_refl) as (Hw & Hl & Hr). split; [done|].
    cbn [snd]. split.
    + revert Hw. apply chars_at_ext. intros x Hx. apply Hout. lia.
    + rewrite Hl. by apply Hzero.
Qed.

Lemma gettoken_end k q r : pending k None q r ->
  exists k', gettoken 0 k = Ret (0, tnp1 k) k' /\ tmem k' = tmem k.
Proof using.
  intros [Hc He _ _]. cbn in Hc, He. unfold gettoken. cbn [Z.eqb negb].
  set (k1 := mkTok (tnc k) (tnc k) (tnp1 k) (tnp2 k) (tmem k)).
  rewrite (bind_step _ _ k tt k1) by done. rewrite (bind_step _ _ k1 k1 k1) by done.
  change (tnp2 k1) with (tnp2 k). rewrite He.
  rewrite (bind_step _ _ k1 tt (mkTok (tnc k) 0 0 0 (tmem k))) by done.
  eexists. split; [unfold ret; cbn [tc tnp1 k1]; rewrite Hc; reflexivity|done].
Qed.

Lemma read_tokens_run n : forall k o q r, pending k o q r -> (length r + 1 < n)%nat ->
  exists k' l, read_tokens n k = Ret l k' /\
    Forall2 (token_is (view (tmem k'))) l (match o with None => [] | Some t => t :: tokens r end) /\
    forall x, o = None \/ x < q \/ q + Z.of_nat (length r) <= x -> view (tmem k') x = view (tmem k) x.
Proof using.
  induction n as [|n IH]; intros k o q r Hp Hn; [lia|]. cbn [read_tokens].
  destruct o as [t|].
  2:{ destruct (gettoken_end k q r Hp) as (k' & Hrun & Hm). rewrite (bind_step _ _ _ _ _ Hrun).
      exists k', []. rewrite Hm. by split_and!. }
  destruct (gettoken_next k t q r Hp) as (k1 & ws & o & r' & Hft & Hrun & Hp1 & Hout & Htok).
  destruct Hp as [Hc _ Hrest Hword]. destruct Hrest as (_ & Hnz & _); [done|].
  rewrite (bind_step _ _ _ _ _ Hrun). cbn [fst].
  destruct (Z.eqb_spec (code (Some t)) 0); [congruence|].
  destruct (first_token_length _ _ _ _ Hft) as [Hle Hlt].
  set (q' := q + Z.of_nat (length r) - Z.of_nat (length r')) in *.
  assert (Hn' : o = None \/ (length r' + 1 < n)%nat).
  { destruct o; [right; specialize (Hlt ltac:(done)); lia|by left]. }
  assert (Hrest : exists k' l, read_tokens n k1 = Ret l k' /\
    Forall2 (token_is (view (tmem k'))) l (tokens r) /\
    forall x, x < q + 1 \/ q + Z.of_nat (length r) <= x -> view (tmem k') x = view (tmem k1) x).
  { rewrite (first_token_lex _ _ _ _ Hft). destruct o as [t'|].
    - destruct (IH k1 (Some t') q' r' Hp1) as (k' & l & H1 & H2 & H3); [specialize (Hlt ltac:(done)); lia|].
      exists k', l. split_and!; [done|done|]. intros x Hx. apply H3.
      specialize (Hlt ltac:(done)). lia.
    - destruct n as [|n]; [lia|]. destruct (gettoken_end k1 _ _ Hp1) as (k' & Hr & Hm).
      exists k', []. cbn [read_tokens]. rewrite (bind_step _ _ _ _ _ Hr), Hm. by split_and!. }
  destruct Hrest as (k' & l & Hr & Hall & Hsame). rewrite (bind_step _ _ _ _ _ Hr).
  exists k', ((code (Some t), tnp1 k) :: l). split_and!; [done| |].
  - constructor; [|done]. revert Htok. apply token_is_ext. intros w -> x Hx.
    destruct (Hword w eq_refl) as (_ & Hl & _). apply Hsame. cbn [snd] in Hx. lia.
  - intros x [?|Hx]; [done|]. rewrite Hsame by lia. apply Hout. lia.
Qed.

(** C40. The shell reads every command line into its tokens: after
    [gettoken(s, 0)] on a line without zero bytes that fits the buffer, calling
    [gettoken] until it answers 0 always returns and gives, in order, the
    tokens of the lexer, a symbol by its character and a word by the address
    of a string of its own, terminated in place when the next token is read
    ahead; nothing outside the line is written. *)
Theorem gettoken_correct k p l n :
  string_in (view (tmem k)) p l -> Forall (fun c => c <> 0) l -> 0 < p ->
  (length l <= BUFSZ)%nat -> (length l + 1 < n)%nat ->
  exists k1 k2 cts, gettoken p k = Ret (0, 0) k1 /\ read_tokens n k1 = Ret cts k2 /\
    Forall2 (token_is (view (tmem k2))) cts (tokens l) /\
    forall x, x < p \/ p + Z.of_nat (length l) <= x -> view (tmem k2) x = view (tmem k) x.
Proof using.
  intros Hstr Hnz Hp Hlen Hn.
  destruct (look_ahead_run k p l Hstr Hnz Hp Hlen) as (k1 & ws & o & r & Hft & Hrun & _ & Hpend & Hout & _).
  destruct (first_token_length _ _ _ _ Hft) as [Hle _].
  destruct (read_tokens_run n k1 o _ r Hpend) as (k2 & cts & Hread & Hall & Hsame); [lia|].
  exists k1, k2, cts. split_and!.
  - unfold gettoken. destruct (Z.eqb_spec p 0); [lia|]. cbn [negb]. by rewrite (bind_step _ _ _ _ _ Hrun).
  - done.
  - by rewrite (first_token_lex _ _ _ _ Hft).
  - intros x Hx. rewrite Hsame by lia. by apply Hout.
Qed.
End Reading.

(** ** A memory that is a function *)
#[export] Instance fun_chars : Chars (Z -> Z) :=
  {| rd a := gets (fun m => m a); wr a v := modify (fun m => upd m a v) |}.
#[export] Program Instance fun_laws : CharsLaws (Z -> Z) := {| view m a := Some (m a) |}.
Next Obligation. intros a m c Hc. cbn in Hc. simplify_eq. by exists m. Qed.
Next Obligation.
  intros a v m c ? ?. eexists. split; [done|]. intros x. cbn. rewrite upd_case.
  by destruct (Z.eqb_spec x a) as [->|]; case_decide.
Qed.

Definition ex_line : list Z := chars " cat <in | wc".
Definition ex_shell : tokst (Z -> Z) :=
  mkTok 0 0 0 0 (fun a => nth (Z.to_nat (a - 100)) ex_line 0).

Lemma gettoken_correct_witness :
  Forall (fun c => c <> 0) ex_line /\
  exists k1 k2 cts, gettoken 100 ex_shell = Ret (0, 0) k1 /\ read_tokens 20 k1 = Ret cts k2 /\
    Forall2 (token_is (view (tmem k2))) cts
      [Word (chars "cat"); Sym 60; Word (chars "in"); Sym 124; Word (chars "wc")].
Proof.
  split; [repeat constructor; discriminate|].
  destruct (gettoken_correct ex_shell 100 ex_line 20) as (k1 & k2 & cts & H1 & H2 & H3 & _).
  - split; [repeat constructor|reflexivity].
  - repeat constructor; discriminate.
  - reflexivity.
  - unfold BUFSZ. vm_compute. lia.
  - vm_compute. lia.
  - exists k1, k2, cts. split; [exact H1|split; [exact H2|exact H3]].
Defined.
