(* ===== verification/Programs.v ===== *)
(** * User programs (user/cat.c, num.c, echo.c, ls.c, init.c, icode.c, ...)

    The programs of the disk, on the library.  An argument vector is the list of
    its strings without the name of the program; static and local buffers are
    addresses.  A loop that ends when a file does has fuel. *)
From S2P Require Import Prelude Queue Mmu Pmap UserMem Fs Serv Elf Env Sched Syscall Traps.
From S2P Require Import Print Stdio Pipe User Fd File Devs Fork Spawn Args Sh.

Section Programs.
Context `{Board} (fsipcbuf : Z) (rpc : Z -> Z -> Z -> KM (Z * Z)) (elfbuf tfbuf : Z).

Abbreviation tab := (devtab fsipcbuf rpc).
Abbreviation read := (Fd.read tab).
Abbreviation readn := (Fd.readn tab).
Abbreviation write := (Fd.write tab).
Abbreviation close := (Fd.close tab).
Abbreviation open := (File.open fsipcbuf rpc).
Abbreviation exit := (Devs.exit fsipcbuf rpc).

(** A piece of formatted output lies in a constant, in an argument or on the
    stack; here it is always brought to the address [piece]. *)
Context (piece : Z).
Definition write_piece (fd : Z) (l : list Z) : KM Z :=
  store_bytes piece l ;! write fd piece (Z.of_nat (length l)).
Definition printf (fmt : list Z) (ap : list va_arg) : KM Z := Stdio.printf write_piece fmt ap.
Definition print (fmt : list Z) (ap : list va_arg) : KM unit := printf fmt ap ;! ret tt.

(** ** cat.c *)
Definition SIZEOF_BUF : Z := 8192.

Fixpoint cat (fuel : nat) (buf f : Z) : KM unit :=
  match fuel with
  | O => fault
  | S fuel =>
      let! n := read f buf SIZEOF_BUF in
      if 0 <? n then
        let! r := write 1 buf n in
        if negb (r =? n) then user_panic "write error copying %s: %d" else cat fuel buf f
      else if n <? 0 then user_panic "error reading %s: %d"
      else ret tt
  end.

(** The files of the arguments, or the standard input. *)
Definition cat_main (fuel : nat) (buf : Z) (args : list (list Z)) : KM Z :=
  (match args with
   | [] => cat fuel buf 0
   | _ =>
       forM args (fun path =>
         let! f := open path O_RDONLY in
         if f <? 0 then user_panic "can't open %s: %d"
         else cat fuel buf f ;! close f ;! ret tt)
   end) ;!
  ret 0.

(** ** num.c *)

(** The static variables [bol] and [line]; [c] is the address of the local. *)
Fixpoint num (fuel : nat) (c f : Z) (st : bool * Z) : KM (bool * Z) :=
  match fuel with
  | O => fault
  | S fuel =>
      let '(bol, line) := st in
      let! n := read f c 1 in
      if 0 <? n then
        let! line :=
          (if bol then print (chars "%5d ") [VInt (u32 (line + 1))] ;! ret (s32 (line + 1))
           else ret line) in
        let! ch := loadb c in
        let! r := printf (chars "%c") [VInt ch] in
        if negb (r =? 1) then user_panic "write error copying %s: %d"
        else num fuel c f (ch =? 10, line)
      else if n <? 0 then user_panic "error reading %s: %d"
      else ret st
  end.

Fixpoint num_files (fuel : nat) (c : Z) (args : list (list Z)) (st : bool * Z) : KM unit :=
  match args with
  | [] => ret tt
  | path :: args =>
      let! f := open path O_RDONLY in
      if f <? 0 then user_panic "can't open %s: %d"
      else
        let! st := num fuel c f st in
        close f ;!
        num_files fuel c args st
  end.
Definition num_main (fuel : nat) (c : Z) (args : list (list Z)) : KM Z :=
  (match args with
   | [] => num fuel c 0 (true, 0) ;! ret tt
   | _ => num_files fuel c args (true, 0)
   end) ;!
  ret 0.

(** ** echo.c *)
Fixpoint echo_args (first : bool) (args : list (list Z)) : KM unit :=
  match args with
  | [] => ret tt
  | a :: args =>
      (if first then ret tt else print (chars " ") []) ;!
      print (chars "%s") [VStr a] ;!
      echo_args false args
  end.
Definition echo_main (args : list (list Z)) : KM Z :=
  let nflag := match args with a :: _ => bool_decide (a = chars "-n") | [] => false end in
  echo_args true (if nflag then tail args else args) ;!
  (if nflag then ret tt else print newline []) ;!
  ret 0.

(** ** ls.c *)

(** [flag], a count per character; [st] and [f] are the addresses of the
    locals of type [struct Stat] and [struct File]. *)
Definition ch_slash : Z := 47.

Definition ls1 (flag : Z -> Z) (prefix : option (list Z)) (isdir : bool) (size : Z) (name : list Z) : KM unit :=
  (if truthy (flag 108) then
     print (chars "%11d %c ") [VInt size; VInt (if isdir then 100 else ch_minus)]
   else ret tt) ;!
  (match prefix with
   | Some p =>
       let sep := match last p with
                  | Some c => if c =? ch_slash then [] else [ch_slash]
                  | None => []
                  end in
       print (chars "%s%s") [VStr p; VStr sep]
   | None => ret tt
   end) ;!
  print (chars "%s") [VStr name] ;!
  (if truthy (flag 70) && isdir then print (chars "/") [] else ret tt) ;!
  print (chars " ") [].

Fixpoint ls_entries (fuel : nat) (flag : Z -> Z) (prefix : list Z) (fd f : Z) : KM Z :=
  match fuel with
  | O => fault
  | S fuel =>
      let! n := readn fd f BY2FILE in
      if n =? BY2FILE then
        let! c := loadb (f_name f) in
        (if truthy c then
           let! type := load (f_type f) in
           let! size := load (f_size f) in
           let! name := user_string (Z.to_nat MAXNAMELEN) (f_name f) in
           ls1 flag (Some prefix) (type =? FTYPE_DIR) size name
         else ret tt) ;!
        ls_entries fuel flag prefix fd f
      else ret n
  end.

Definition lsdir (fuel : nat) (flag : Z -> Z) (f : Z) (path prefix : list Z) : KM unit :=
  let! fd := open path O_RDONLY in
  if fd <? 0 then user_panic "open %s: %d"
  else
    let! n := ls_entries fuel flag prefix fd f in
    if 0 <? n then user_panic "short read in directory %s"
    else if n <? 0 then user_panic "error reading directory %s: %d"
    else ret tt.

Definition ls (fuel : nat) (flag : Z -> Z) (st f : Z) (path prefix : list Z) : KM unit :=
  let! r := File.stat fsipcbuf rpc tab path st in
  if r <? 0 then user_panic "stat %s: %d"
  else
    let! isdir := load (st_isdir st) in
    if truthy isdir && negb (truthy (flag 100)) then lsdir fuel flag f path prefix
    else
      let! size := load (st_size st) in
      ls1 flag None (truthy isdir) size path.

Definition ls_usage : KM unit :=
  print (chars "usage: ls [-dFl] [file...]" ++ newline) [] ;! exit.

Fixpoint ls_options (l : list Z) (flag : Z -> Z) : KM (Z -> Z) :=
  match l with
  | [] => ret flag
  | c :: l =>
      (if (c =? 100) || (c =? 70) || (c =? 108) then ret tt else ls_usage) ;!
      ls_options l (upd flag c (s32 (flag c + 1)))
  end.

Definition ls_main (fuel : nat) (st f : Z) (argv : list (list Z)) : KM Z :=
  let '(opts, args) := ARGBEGIN argv in
  let! flag := ls_options opts (fun _ => 0) in
  (match args with
   | [] => ls fuel flag st f (chars "/") []
   | _ => forM args (fun a => ls fuel flag st f a a)
   end) ;!
  print newline [] ;!
  ret 0.

(** ** init.c *)

(** [sum(s, n)] on the characters of an object. *)
Definition sum (s : list Z) : Z :=
  foldl (fun tot p => s32 (Z.lxor (u32 tot) (u32 (fst p * snd p)))) 0
    (zip (seqZ 0 (Z.of_nat (length s))) s).
Definition padded (n : nat) (s : list Z) : list Z := take n (s ++ replicate n 0).
Definition data : list Z :=
  padded 5000 (chars "this is initialized data") ++ padded 1000 (chars "so is this").
Definition bss : list Z := replicate 6000 0.
Definition want : Z := 0xf989e.

(** [d] and [b] are what the memory of [data] and [bss] holds. *)
Definition init_check (d b : list Z) : KM unit :=
  let x := sum d in
  (if negb (x =? want) then
     user_debugf (chars "init: data is not initialized: got sum %08x wanted %08x" ++ newline)
       [VInt (u32 x); VInt want]
   else ret tt) ;!
  let x := sum b in
  if negb (x =? 0) then
    user_debugf (chars "bss is not initialized: wanted sum 0 got %08x" ++ newline) [VInt (u32 x)]
  else ret tt.

(** [n] turns of the loop at most. *)
Fixpoint init_loop (n : nat) : KM Z :=
  match n with
  | O => fault
  | S n =>
      let! r := spawnl fsipcbuf rpc elfbuf tfbuf (chars "sh.b") [chars "sh"] in
      if r <? 0 then user_debugf (chars "init: spawn sh: %d" ++ newline) [VInt (u32 r)] ;! ret r
      else User.wait (u32 r) ;! init_loop n
  end.

Definition init_main (n : nat) (d b : list Z) : KM Z :=
  init_check d b ;!
  let! r := opencons in
  (if negb (r =? 0) then user_panic "opencons: %d" else ret tt) ;!
  let! r := Fd.dup tab 0 1 in
  (if r <? 0 then user_panic "dup: %d" else ret tt) ;!
  init_loop n.

(** ** icode.c *)
Fixpoint icode_motd (fuel : nat) (buf fd : Z) : KM unit :=
  match fuel with
  | O => fault
  | S fuel =>
      let! n := read fd buf 512 in
      if 0 <? n then
        storeb (buf + n) 0 ;!
        let! s := user_string 513 buf in
        user_debugf (chars "%s") [VStr s] ;!
        icode_motd fuel buf fd
      else ret tt
  end.

Definition icode_main (fuel : nat) (buf : Z) : KM Z :=
  let! fd := open (chars "/motd") O_RDONLY in
  (if fd <? 0 then user_panic "icode: open /motd: %d" else ret tt) ;!
  icode_motd fuel buf fd ;!
  close fd ;!
  let! r := spawnl fsipcbuf rpc elfbuf tfbuf (chars "init.b")
              [chars "init"; chars "initarg1"; chars "initarg2"] in
  if r <? 0 then user_panic "icode: spawn /init: %d" else ret 0.

(** ** halt.c, idle.c, testarg.c, tltest.c, testbss.c *)
Definition halt_main (line msg : Z) : KM unit :=
  _user_halt (chars "halt.c") line (chars "halt mos!") [] msg.

Fixpoint idle_main (n : nat) : KM unit :=
  match n with O => fault | S n => user_debugf (chars "IDLE!") [] ;! idle_main n end.

(** [argv] with the program's name. *)
Definition testarg_main (argv : list (list Z)) : KM Z :=
  forM argv (fun a => user_debugf (chars "'''''''' %s '''''''''" ++ newline) [VStr a]) ;!
  ret 0.

Definition tltest_main : KM Z :=
  user_debugf (chars "Smashing some kernel codes..." ++ newline ++
    chars "If your implementation is correct, you may see unknown exception here:" ++ newline) [] ;!
  store KERNBASE 0 ;!
  user_debugf (chars "My mission completed!" ++ newline) [] ;!
  ret 0.

Definition ARRAYSIZE : Z := 0x1000000.
Definition testbss_main (bigarray : Z) : KM Z :=
  let each (body : Z -> KM unit) : KM unit := forM (seqZ 0 ARRAYSIZE) body in
  user_debugf (chars "Making sure bss works right... " ++ newline) [] ;!
  each (fun i =>
    let! w := load (bigarray + 4 * i) in
    if negb (w =? 0) then user_panic "bigarray[%d] isn't cleared!" else ret tt) ;!
  each (fun i => store (bigarray + 4 * i) i) ;!
  each (fun i =>
    let! w := load (bigarray + 4 * i) in
    if negb (w =? i) then user_panic "bigarray[%d] didn't hold its value!" else ret tt) ;!
  user_debugf (chars "Bss is good" ++ newline) [] ;!
  ret 0.
End Programs.
