(* ===== verification/ProgramsProps.v ===== *)
(** * What the user programs do

    [cat] of the console, from its system calls up, and the check of [init]. *)
From S2P Require Import Prelude Queue Mmu Pmap PmapFacts PmapInv PmapSpec PmapFrame PmapBoot PmapProps.
From S2P Require Import UserMem Fs Serv Elf Env EnvFree Sched EnvFacts EnvProps LoadProps Syscall SyscallProps Traps.
From S2P Require Import Print Stdio StdioProps Pipe User UserFacts Fork ForkProps Fd FdProps FdFacts File Devs ConsoleProps ExSpace.
From S2P Require Import Spawn Args Sh Programs.

(** What the console shows of [cat] when [cs] is typed: every character is
    echoed and then written. *)
Definition cat_text (cs : list Z) : list Z := concat ((fun c => echo c ++ [c]) <$> cs).

(** A character that is neither a terminator nor the end of the input. *)
Definition typed (c : Z) : Prop := 0 < c < 2 ^ 8 /\ c <> 4.

Section Cat.
Context `{Board} (fsipcbuf : Z) (rpc : Z -> Z -> Z -> KM (Z * Z)).
Context (boot : Z -> Z) (D fl : list Z) (d : Z) (Hd : d ∈ D).
Context (p0 p1 pb buf : Z) (Hbuf : 0 <= buf < UTOP).
Abbreviation tty := (tty boot D fl d p0 p1 pb buf).
Abbreviation cat := (cat fsipcbuf rpc).

Lemma cat_loop cs rest : Forall typed cs -> forall o k fuel, (length cs < fuel)%nat ->
  tty (cs ++ 4 :: rest) o k ->
  exists k', cat fuel buf 0 k = Ret tt k' /\ tty rest (o ++ cat_text cs ++ [4]) k'.
Proof using Hd Hbuf.
  assert (Hn : SIZEOF_BUF <> 0) by done.
  induction 1 as [|c cs [Hc H4] _ IH]; intros o k fuel Hf T;
    (destruct fuel as [|fuel]; [cbn in Hf; lia|]); cbn [Programs.cat app] in *.
  - destruct (tty_read fsipcbuf rpc boot D fl d Hd p0 p1 pb buf Hbuf 4 rest o k SIZEOF_BUF T ltac:(done) Hn)
      as [Heof _].
    destruct (Heof eq_refl) as (k' & Hr & T'). exists k'. by rewrite (bind_step _ _ _ _ _ Hr).
  - destruct (tty_read fsipcbuf rpc boot D fl d Hd p0 p1 pb buf Hbuf c _ o k SIZEOF_BUF T Hc Hn) as [_ Hch].
    destruct (Hch H4) as (k1 & Hr & T1 & Hh). rewrite (bind_step _ _ _ _ _ Hr). cbn [Z.ltb Z.compare].
    destruct (tty_write fsipcbuf rpc boot D fl d Hd p0 p1 pb buf Hbuf _ _ k1 T1) as (k2 & Hw & T2);
      [by rewrite Hh|].
    rewrite (bind_step _ _ _ _ _ Hw), Hh in *. change (negb (1 =? 1)) with false. cbv iota.
    destruct (IH _ k2 fuel ltac:(cbn in Hf; lia) T2) as (k' & Hr' & T'). exists k'. split; [done|].
    unfold cat_text in *. cbn [fmap list_fmap concat]. by rewrite <- !app_assoc in *.
Qed.
End Cat.

(** C21. [cat] without arguments copies what is typed to the console, through
    every layer: whatever characters but 0 and 4 are typed and then the end of
    input, the loop of [cat] ends, the console gains each character's echo and
    then the character, the firmware is left with what was typed after the end
    of input, and the descriptors stay usable.  Each character passes [read] and
    [write] of the library, the device table, console.c, two system calls and
    user memory. *)
Theorem cat_console `{Board} fsipcbuf rpc boot D fl d p0 p1 pb buf cs rest o k fuel :
  d ∈ D -> 0 <= buf < UTOP -> Forall typed cs -> (length cs < fuel)%nat ->
  tty boot D fl d p0 p1 pb buf (cs ++ 4 :: rest) o k ->
  exists k', cat_main fsipcbuf rpc fuel buf [] k = Ret 0 k' /\
    tty boot D fl d p0 p1 pb buf rest (o ++ cat_text cs ++ [4]) k'.
Proof.
  intros Hd Hbuf Hcs Hf T.
  destruct (cat_loop fsipcbuf rpc boot D fl d Hd p0 p1 pb buf Hbuf cs rest Hcs o k fuel Hf T) as (k' & Hr & T').
  exists k'. unfold cat_main. by rewrite (bind_step _ _ _ _ _ Hr).
Qed.

(** ** A machine with the console open *)
Definition ex_pages : pmst :=
  map_fresh 0x400000 (map_fresh (INDEX2FD 1) (map_fresh (INDEX2FD 0) ex_space0)).
Definition open_console (i : Z) (s : pmst) : pmst :=
  poke (INDEX2FD i + 8) O_RDWR (poke (INDEX2FD i) DEVCONS_ID s).
Definition ex_space : pmst := open_console 1 (open_console 0 ex_pages).
Definition ex_console (i : list Z) : kst := set_cons_in i (set_pm ex_space ex_kst).

Lemma ex_space_sound : sound ex_space.
Proof.
  unfold ex_space, open_console.
  do 4 (eapply poke_sound; [on_space|on_space|on_space|on_space|mapped|]).
  do 3 (apply map_fresh_sound; [on_space|]). exact ex_space0_sound.
Qed.

Lemma ex_cons_fd i : i = 0 \/ i = 1 ->
  cons_fd ex_dir ex_space i (if i =? 0 then 14 else 12).
Proof.
  intros [-> | ->]; (split; [mapped|mapped|on_space|on_space]).
Qed.

Lemma cat_console_witness : exists fl k',
  @cat_main ex_board 0 (fun _ _ _ => ret (0, 0)) 5 0x400000 [] (ex_console [104; 105; 13; 4; 120]) =
    Ret 0 k' /\
  tty ex_refs [ex_dir] fl ex_dir 14 12 11 0x400000 [120] [104; 104; 105; 105; 10; 13; 4] k'.
Proof.
  destruct (sound_installed _ ex_space_sound) as [fl I]; [on_space|on_space|]. exists fl.
  apply (@cat_console ex_board 0 (fun _ _ _ => ret (0, 0)) ex_refs [ex_dir] fl ex_dir 14 12 11 0x400000
    [104; 105; 13] [120] [] (ex_console [104; 105; 13; 4; 120]) 5).
  - by apply list_elem_of_here.
  - on_space.
  - by repeat constructor.
  - cbn. lia.
  - split; [exact I|done|done| | |mapped|mapped|done].
    + apply (ex_cons_fd 0). by left.
    + apply (ex_cons_fd 1). by right.
Defined.

Lemma init_data_sum : sum data = want /\ sum bss = 0.
Proof. by vm_compute. Qed.

Lemma init_check_data k : init_check data bss k = Ret tt k.
Proof.
  unfold init_check. destruct init_data_sum as [-> ->]. done.
Qed.
