(* ===== verification/HostTools.v ===== *)
(** * The programs of the build (tools/bintoc.c, tools/readelf)

    [bintoc] turns a binary into the C array the kernel is linked with;
    [readelf] lists the addresses of the sections of an ELF file.  The host's
    files are a finite map from names to contents, those that cannot be opened
    for writing a set; a failed [assert] is a [Panic].  Output reaches its file
    at once, which nothing can tell apart once the program has closed it. *)
From S2P Require Import Prelude UserMem Print Elf.

Record host : Type := mkHost {
  files : gmap (list Z) (list Z);
  readonly : gset (list Z);
  stdout : list Z;
  stderr : list Z
}.
Definition set_files (v : gmap (list Z) (list Z)) (s : host) : host :=
  mkHost v (readonly s) (stdout s) (stderr s).
Definition set_stdout (v : list Z) (s : host) : host := mkHost (files s) (readonly s) v (stderr s).
Definition set_stderr (v : list Z) (s : host) : host := mkHost (files s) (readonly s) (stdout s) v.

Abbreviation HM := (M host).

(** ** The part of the C library they use *)
Definition puts_out (l : list Z) : HM unit := modify (fun s => set_stdout (stdout s ++ l) s).
Definition puts_err (l : list Z) : HM unit := modify (fun s => set_stderr (stderr s ++ l) s).

(** [fopen(f, "rb")] and [fopen(f, "w")]; a stream is the name it was opened
    with. *)
Definition open_read (f : list Z) : HM (option (list Z)) :=
  let! s := get in ret (match files s !! f with Some _ => Some f | None => None end).
Definition open_write (f : list Z) : HM (option (list Z)) :=
  let! s := get in
  if decide (f ∈ readonly s) then ret None
  else modify (fun s => set_files (<[f := []]> (files s)) s) ;! ret (Some f).
Definition contents (f : list Z) : HM (list Z) :=
  let! s := get in ret (files s !!! f).
Definition fputs (f l : list Z) : HM unit :=
  modify (fun s => set_files (<[f := files s !!! f ++ l]> (files s)) s).

(** [%x] and [%d] *)
Definition fmt_x (u : Z) : list Z := (fun d => num_char d false) <$> reverse (digits_le 33 16 u).
Definition fmt_d (n : Z) : list Z :=
  (if n <? 0 then [ch_minus] else []) ++
  ((fun d => num_char d false) <$> reverse (digits_le 33 10 (Z.abs n))).

Module Bintoc.

Definition BMAX : Z := Z.shiftl 4 25.

Definition help : HM unit :=
  puts_out (chars "convert ELF binary file to C file." ++ newline ++
    chars " -h            print this message" ++ newline ++
    chars " -f <file>     tell the binary file  (input)" ++ newline ++
    chars " -o <file>     tell the c file       (output)" ++ newline ++
    chars " -p <prefix>   add prefix to the array name" ++ newline).

Record opts : Type := mkOpts {
  prefix : option (list Z); bin_file : option (list Z); out_file : option (list Z)
}.
Definition is_none {A} (o : option A) : bool := match o with None => true | Some _ => false end.

(** The loop over the arguments; [None] when the help was asked for. *)
Fixpoint options (args : list (list Z)) (o : opts) : HM (option opts) :=
  match args with
  | [] => ret (Some o)
  | a :: args =>
      if negb (default 0 (head a) =? ch_minus) then options args o
      else if decide (a = chars "-f") then
        match args with
        | [] => panic "assertion failed"
        | f :: args =>
            c_assert (is_none (bin_file o)) ;!
            options args (mkOpts (prefix o) (Some f) (out_file o))
        end
      else if decide (a = chars "-o") then
        match args with
        | [] => panic "assertion failed"
        | f :: args =>
            c_assert (is_none (out_file o)) ;!
            options args (mkOpts (prefix o) (bin_file o) (Some f))
        end
      else if decide (a = chars "-p") then
        match args with
        | [] => panic "assertion failed"
        | p :: args =>
            c_assert (is_none (prefix o)) ;!
            options args (mkOpts (Some p) (bin_file o) (out_file o))
        end
      else help ;! ret None
  end.

(** [bin_file] is cut at its first dot. *)
Fixpoint stem (l : list Z) : list Z :=
  match l with
  | [] => []
  | c :: l => if c =? 46 then [] else c :: stem l
  end.

(** The two declarations up to the opening brace. *)
Definition declarations (prefix bin_file : list Z) (size : Z) : list Z :=
  chars "unsigned int binary_" ++ prefix ++ chars "_" ++ bin_file ++ chars "_size = " ++
  fmt_d size ++ chars ";" ++ newline ++
  chars "unsigned char binary_" ++ prefix ++ chars "_" ++ bin_file ++ chars "_start[] = {".

(** [fprintf(out, "0x%x%c", binary[i], i < size - 1 ? ',' : '}')] *)
Definition element (binary : list Z) (size i : Z) : list Z :=
  chars "0x" ++ fmt_x (binary !!! Z.to_nat i) ++ [if i <? size - 1 then 44 else 125].

(** [args] without the program's name.  A negative [size] has [fread] write
    past the end of [binary]. *)
Definition bintoc_main (args : list (list Z)) : HM Z :=
  let! r := options args (mkOpts None None None) in
  match r with
  | None => ret 0
  | Some o =>
      match bin_file o, out_file o with
      | Some bin_file, Some out_file =>
          let prefix := default [] (prefix o) in
          let! bin := open_read bin_file in
          let! out := open_write out_file in
          match bin, out with
          | Some bin, Some out =>
              let! l := contents bin in
              let size := s32 (Z.of_nat (length l)) in
              c_assert (size <? BMAX) ;!
              if size <? 0 then fault
              else
                let binary := take (Z.to_nat size) l in
                c_assert (Z.of_nat (length binary) =? size) ;!
                fputs out (declarations prefix (stem bin_file) size) ;!
                forM (seqZ 0 size) (fun i => fputs out (element binary size i)) ;!
                fputs out [59] ;!
                fputs out newline ;!
                ret 0
          | _, _ => panic "assertion failed"
          end
      | _, _ => panic "assertion failed"
      end
  end.

End Bintoc.

Module Readelf.

(** tools/readelf/elf.h *)
Record Elf32_Shdr : Type := mkShdr {
  sh_name : Z; sh_type : Z; sh_flags : Z; sh_addr : Z; sh_offset : Z; sh_size : Z; sh_link : Z;
  sh_info : Z; sh_addralign : Z; sh_entsize : Z
}.
Definition SIZEOF_SHDR : Z := 40.
Definition shdr_at (b : Z -> Z) (o : Z) : Elf32_Shdr :=
  mkShdr (le32 b o) (le32 b (o + 4)) (le32 b (o + 8)) (le32 b (o + 12)) (le32 b (o + 16))
    (le32 b (o + 20)) (le32 b (o + 24)) (le32 b (o + 28)) (le32 b (o + 32)) (le32 b (o + 36)).

(** The bytes of the buffer [readelf_main] allocates: the file and a zero. *)
Definition bytes (l : list Z) : Z -> Z := fun x => l !!! Z.to_nat x.

Definition is_elf_format (binary : Z -> Z) (size : Z) : bool :=
  (SIZEOF_EHDR <=? size) && (e_ident (ehdr_at binary) 0 =? ELFMAG0) &&
  (e_ident (ehdr_at binary) 1 =? ELFMAG1) && (e_ident (ehdr_at binary) 2 =? ELFMAG2) &&
  (e_ident (ehdr_at binary) 3 =? ELFMAG3).

(** [printf("%d:0x%x\n", i, addr)] *)
Definition line (i addr : Z) : list Z :=
  fmt_d i ++ chars ":0x" ++ fmt_x addr ++ newline.

(** A header beyond the buffer is a wild read. *)
Definition readelf (binary : Z -> Z) (size : Z) : HM Z :=
  let ehdr := ehdr_at binary in
  if negb (is_elf_format binary size) then
    puts_err (chars "not an elf file" ++ newline) ;! ret (-1)
  else
    forM (seqZ 0 (e_shnum ehdr)) (fun i =>
      let o := e_shoff ehdr + SIZEOF_SHDR * i in
      if size + 1 <? o + 16 then fault else puts_out (line i (sh_addr (shdr_at binary o)))) ;!
    ret 0.

(** [strerror] is the text [perror] adds; memory for the file is there.  The
    test on the result of [fread], an unsigned number, never holds. *)
Definition readelf_main (strerror : list Z) (argv : list (list Z)) : HM Z :=
  match argv with
  | arg0 :: arg1 :: _ =>
      let! fp := open_read arg1 in
      match fp with
      | None => puts_err (arg1 ++ chars ": " ++ strerror ++ newline) ;! ret 1
      | Some fp =>
          let! l := contents fp in
          let fsize := s32 (Z.of_nat (length l)) in
          if fsize <? 0 then
            puts_err (chars "ftell: " ++ strerror ++ newline) ;! ret 1
          else
            readelf (bytes (take (Z.to_nat fsize) l)) fsize
      end
  | _ =>
      puts_err (chars "Usage: " ++ default [] (head argv) ++ chars " <elf-file>" ++ newline) ;! ret 1
  end.

End Readelf.
