(* ===== verification/HostToolsProps.v ===== *)
(** * What the programs of the build write

    The array that [bintoc] prints reads back as the file it was given, and
    [readelf] prints the address of every section header. *)
From S2P Require Import Prelude UserMem Print Elf HostTools.

(** ** Reading the array back

    A reader of C initialisers: after the opening brace, hexadecimal constants
    separated by commas up to the closing brace. *)
Definition digit (c : Z) : option Z :=
  if (48 <=? c) && (c <=? 57) then Some (c - 48)
  else if (97 <=? c) && (c <=? 102) then Some (c - 87)
  else None.
Definition constant (l : list Z) : option Z :=
  match l with
  | 48 :: 120 :: d :: ds => digits_value 16 <$> mapM digit (d :: ds)
  | _ => None
  end.
Fixpoint elements (cur l : list Z) : option (list Z) :=
  match l with
  | [] => None
  | c :: l =>
      if c =? 44 then v ← constant cur; cons v <$> elements [] l
      else if c =? 125 then (fun v => [v]) <$> constant cur
      else elements (cur ++ [c]) l
  end.
Fixpoint initializer (l : list Z) : option (list Z) :=
  match l with
  | [] => None
  | c :: l => if c =? 123 then elements [] l else initializer l
  end.

Lemma digit_num_char d : 0 <= d < 16 -> digit (num_char d false) = Some d.
Proof.
  intros Hd. unfold digit, num_char, ch_0, ch_a. destruct (Z.leb_spec d 9).
  - destruct (Z.leb_spec 48 (48 + d)), (Z.leb_spec (48 + d) 57); cbn; (lia || f_equal; lia).
  - destruct (Z.leb_spec 48 (97 + d - 10)), (Z.leb_spec (97 + d - 10) 57),
      (Z.leb_spec 97 (97 + d - 10)), (Z.leb_spec (97 + d - 10) 102); cbn; (lia || f_equal; lia).
Qed.

Lemma mapM_digits ds : Forall (fun d => 0 <= d < 16) ds ->
  mapM digit ((fun d => num_char d false) <$> ds) = Some ds.
Proof.
  intros H. apply mapM_Some_2, Forall2_fmap_l, Forall_Forall2_diag.
  eapply Forall_impl; [exact H|]. intros d. apply digit_num_char.
Qed.

Lemma fmt_x_digits u : Forall (fun d => 0 <= d < 16) (reverse (digits_le 33 16 u)).
Proof.
  apply Forall_forall. intros d Hd. rewrite elem_of_reverse in Hd.
  by apply (digits_range 33 16 u).
Qed.

(** A byte is printed as a constant with its value, without separators. *)
Lemma constant_fmt u : 0 <= u < 2 ^ 32 -> constant (chars "0x" ++ fmt_x u) = Some u.
Proof.
  intros Hu. change (chars "0x" ++ fmt_x u) with (48 :: 120 :: fmt_x u).
  assert (Hv : digits_value 16 <$> mapM digit (fmt_x u) = Some u).
  { unfold fmt_x. rewrite (mapM_digits _ (fmt_x_digits u)). apply (f_equal Some).
    apply digits_roundtrip; [lia|]. change (2 ^ Z.of_nat 33) with (2 ^ 33). lia. }
  assert (Hl : (1 <= length (fmt_x u))%nat)
    by (unfold fmt_x; rewrite length_fmap, length_reverse; apply digits_le_length; lia).
  destruct (fmt_x u) as [|d l]; [cbn in Hl; lia|exact Hv].
Qed.

Definition plain (c : Z) : Prop := c <> 44 /\ c <> 125.

Lemma fmt_x_plain u : Forall plain (fmt_x u).
Proof.
  unfold fmt_x. apply Forall_fmap. eapply Forall_impl; [apply fmt_x_digits|].
  cbn beta. intros d Hd. unfold compose, plain, num_char, ch_0, ch_a. destruct (Z.leb_spec d 9); lia.
Qed.

Lemma elements_skip w : forall cur l, Forall plain w ->
  elements cur (w ++ l) = elements (cur ++ w) l.
Proof.
  induction w as [|c w IH]; intros cur l Hw; [by rewrite app_nil_r|].
  apply Forall_cons in Hw as [[H1 H2] Hw]. cbn [app elements].
  destruct (Z.eqb_spec c 44), (Z.eqb_spec c 125); try done.
  rewrite IH by done. by rewrite <- app_assoc.
Qed.

Lemma elements_constant u sep l : 0 <= u < 2 ^ 32 ->
  elements [] ((chars "0x" ++ fmt_x u ++ [sep]) ++ l) = elements (chars "0x" ++ fmt_x u) (sep :: l).
Proof.
  intros Hu. replace ((chars "0x" ++ fmt_x u ++ [sep]) ++ l)
    with ((chars "0x" ++ fmt_x u) ++ sep :: l) by (rewrite <- !app_assoc; done).
  rewrite elements_skip; [done|]. apply Forall_app_2; [|apply fmt_x_plain].
  repeat constructor; done.
Qed.

(** The elements from index [i] on. *)
Lemma elements_from binary l : Forall (fun b => 0 <= b < 2 ^ 8) binary -> forall n i,
  (n <> 0)%nat -> length binary = (i + n)%nat ->
  elements [] (concat ((fun k => Bintoc.element binary (Z.of_nat (length binary)) k) <$>
                       seqZ (Z.of_nat i) (Z.of_nat n)) ++ l) = Some (drop i binary).
Proof.
  intros Hb n. induction n as [|n IH]; intros i Hn Hlen; [done|].
  rewrite seqZ_cons by lia. cbn [fmap list_fmap concat]. rewrite <- app_assoc.
  replace (Z.pred (Z.of_nat (S n))) with (Z.of_nat n) by lia.
  destruct (lookup_lt_is_Some_2 binary i) as [b Hi]; [lia|].
  pose proof (Forall_lookup_1 _ _ _ _ Hb Hi) as Hr. cbn beta in Hr.
  unfold Bintoc.element at 1. rewrite Nat2Z.id, (list_lookup_total_correct _ _ _ Hi).
  rewrite elements_constant by lia. rewrite (drop_S _ _ _ Hi). cbn [elements].
  destruct (Z.ltb_spec (Z.of_nat i) (Z.of_nat (length binary) - 1)); cbn [Z.eqb Pos.eqb].
  - rewrite constant_fmt by lia. cbn [mbind option_bind].
    replace (Z.succ (Z.of_nat i)) with (Z.of_nat (S i)) by lia.
    rewrite IH by lia. done.
  - rewrite constant_fmt by lia. assert (n = 0%nat) as -> by lia.
    by rewrite drop_ge by lia.
Qed.

Lemma initializer_skip w l : Forall (fun c => c <> 123) w ->
  initializer (w ++ 123 :: l) = elements [] l.
Proof.
  induction 1 as [|c w Hc _ IH]; [done|]. cbn [app initializer].
  by destruct (Z.eqb_spec c 123).
Qed.

(** ** [bintoc] *)

(** The file [f] holds [text], the others are as in [s]. *)
Definition holding (f text : list Z) (s : host) : host := set_files (<[f := text]> (files s)) s.

Lemma fputs_run f text x s : fputs f x (holding f text s) = Ret tt (holding f (text ++ x) s).
Proof.
  unfold fputs, modify, holding. destruct s as [fs ro o e]. cbn.
  by rewrite lookup_total_insert_eq, insert_insert_eq.
Qed.

Lemma fputs_list {A} f (g : A -> list Z) l s : forall text,
  forM l (fun x => fputs f (g x)) (holding f text s) = Ret tt (holding f (text ++ concat (g <$> l)) s).
Proof.
  induction l as [|x l IH]; intros text; cbn [forM fmap list_fmap concat]; [by rewrite app_nil_r|].
  by rewrite (bind_step _ _ _ _ _ (fputs_run f text (g x) s)), IH, app_assoc.
Qed.

Definition array_text (p f : list Z) (bytes : list Z) : list Z :=
  let size := Z.of_nat (length bytes) in
  Bintoc.declarations p (Bintoc.stem f) size ++
  concat (Bintoc.element bytes size <$> seqZ 0 size) ++ [59] ++ newline.

Lemma bintoc_run args p f o bytes s :
  Bintoc.options args (Bintoc.mkOpts None None None) s =
    Ret (Some (Bintoc.mkOpts p (Some f) (Some o))) s ->
  files s !! f = Some bytes -> f <> o -> o ∉ readonly s -> Z.of_nat (length bytes) < Bintoc.BMAX ->
  Bintoc.bintoc_main args s = Ret 0 (holding o (array_text (default [] p) f bytes) s).
Proof.
  intros Hopt Hf Hne Ho Hlen. change Bintoc.BMAX with 134217728 in Hlen.
  unfold Bintoc.bintoc_main. rewrite (bind_step _ _ _ _ _ Hopt). cbn [Bintoc.bin_file Bintoc.out_file Bintoc.prefix].
  assert (H1 : open_read f s = Ret (Some f) s) by (munfold; by rewrite Hf).
  assert (H2 : open_write o s = Ret (Some o) (holding o [] s))
    by (unfold open_write; munfold; by rewrite decide_False).
  assert (H3 : contents f (holding o [] s) = Ret bytes (holding o [] s)).
  { munfold. apply (f_equal (fun x => Ret x _)). rewrite lookup_total_insert_ne by done.
    by apply lookup_total_correct. }
  rewrite (bind_step _ _ _ _ _ H1), (bind_step _ _ _ _ _ H2), (bind_step _ _ _ _ _ H3).
  rewrite s32_small by lia. change Bintoc.BMAX with 134217728.
  destruct (Z.ltb_spec (Z.of_nat (length bytes)) 134217728); [|lia].
  destruct (Z.ltb_spec (Z.of_nat (length bytes)) 0); [lia|].
  rewrite Nat2Z.id, take_ge, Z.eqb_refl by done.
  rewrite (bind_step (c_assert true) _ _ tt _ eq_refl), (bind_step (c_assert true) _ _ tt _ eq_refl).
  rewrite (bind_step _ _ _ _ _ (fputs_run o [] _ s)), (bind_step _ _ _ _ _ (fputs_list o _ _ s _)).
  rewrite (bind_step _ _ _ _ _ (fputs_run o _ _ s)), (bind_step _ _ _ _ _ (fputs_run o _ _ s)).
  unfold ret, array_text. by rewrite <- !app_assoc.
Qed.

Lemma stem_plain f : Forall (fun c => c <> 123) f -> Forall (fun c => c <> 123) (Bintoc.stem f).
Proof. induction 1 as [|c f Hc _ IH]; cbn [Bintoc.stem]; [done|]. destruct (c =? 46); by constructor. Qed.

Lemma fmt_d_plain n : Forall (fun c => c <> 123) (fmt_d n).
Proof.
  unfold fmt_d. apply Forall_app_2; [destruct (n <? 0); by repeat constructor|].
  apply Forall_fmap, Forall_forall. intros d Hd. rewrite elem_of_reverse in Hd.
  apply (digits_range 33 10) in Hd; [|lia].
  unfold compose, num_char, ch_0, ch_a. destruct (Z.leb_spec d 9); lia.
Qed.

Lemma declarations_skip p f n l :
  Forall (fun c => c <> 123) p -> Forall (fun c => c <> 123) f ->
  initializer (Bintoc.declarations p f n ++ l) = elements [] l.
Proof.
  intros Hp Hf. unfold Bintoc.declarations.
  change (chars "_start[] = {") with (chars "_start[] = " ++ [123]).
  rewrite !app_assoc. rewrite <- app_assoc. apply initializer_skip.
  rewrite <- !app_assoc. pose proof (fmt_d_plain n).
  repeat (apply Forall_app_2; [first [assumption | repeat constructor; done]|]).
  repeat constructor; done.
Qed.

(** C39. The C file that [bintoc] writes for a file of fewer than [BMAX] bytes,
    whatever the order of its options, gives the file back: its initialiser,
    read as C reads it, has exactly the bytes of the file, in order, and no other
    file changes.  For the empty file the brace is never closed and the text
    is not an initialiser. *)
Theorem bintoc_roundtrip args p f o bytes s :
  Bintoc.options args (Bintoc.mkOpts None None None) s =
    Ret (Some (Bintoc.mkOpts p (Some f) (Some o))) s ->
  files s !! f = Some bytes -> Forall (fun b => 0 <= b < 2 ^ 8) bytes ->
  Z.of_nat (length bytes) < Bintoc.BMAX ->
  f <> o -> o ∉ readonly s ->
  Forall (fun c => c <> 123) (default [] p) -> Forall (fun c => c <> 123) f ->
  exists text s', Bintoc.bintoc_main args s = Ret 0 s' /\ files s' = <[o := text]> (files s) /\
    initializer text = if decide (bytes = []) then None else Some bytes.
Proof.
  intros Hopt Hf Hb Hlen Hne Ho Hp Hpf. exists (array_text (default [] p) f bytes); eexists.
  split_and!; [by apply bintoc_run|done|].
  unfold array_text. rewrite (declarations_skip _ _ _ _ Hp (stem_plain f Hpf)).
  destruct (decide (bytes = [])) as [->|Hn]; [done|].
  rewrite (elements_from bytes _ Hb (length bytes) 0); [done| |done].
  by destruct bytes.
Qed.

Definition ex_host : host := mkHost {[chars "a.b" := [127; 69; 0; 255]]} ∅ [] [].
Definition ex_args : list (list Z) := [chars "-f"; chars "a.b"; chars "-o"; chars "a.c"; chars "-p"; chars "u"].
Lemma bintoc_roundtrip_witness :
  exists text s', Bintoc.bintoc_main ex_args ex_host = Ret 0 s' /\
    files s' = <[chars "a.c" := text]> (files ex_host) /\
    initializer text = Some [127; 69; 0; 255].
Proof.
  apply (bintoc_roundtrip ex_args (Some (chars "u")) (chars "a.b") (chars "a.c") [127; 69; 0; 255] ex_host);
    try done; repeat constructor; done.
Defined.

(** ** [readelf] *)

(** The lines for the section headers of a file with [n] of them at [off]. *)
Definition section_lines (b : Z -> Z) (off n : Z) : list (list Z) :=
  (fun i => Readelf.line i (Readelf.sh_addr (Readelf.shdr_at b (off + Readelf.SIZEOF_SHDR * i)))) <$> seqZ 0 n.

Lemma puts_lines {A} (g : A -> list Z) l : forall s,
  forM l (fun i => puts_out (g i)) s = Ret tt (set_stdout (stdout s ++ concat (g <$> l)) s).
Proof.
  induction l as [|x l IH]; intros s; cbn [forM fmap list_fmap concat].
  - rewrite app_nil_r. by destruct s.
  - rewrite (bind_step (puts_out (g x)) _ _ _ _ eq_refl), IH. cbn; by rewrite <- app_assoc.
Qed.

(** Every section header of an ELF file whose table is inside the file gets
    its line; a file that is not ELF gets none. *)
Lemma readelf_run b size s :
  Readelf.readelf b size s =
  if Readelf.is_elf_format b size then
    if forallb (fun i => negb (size + 1 <? e_shoff (ehdr_at b) + Readelf.SIZEOF_SHDR * i + 16))
               (seqZ 0 (e_shnum (ehdr_at b)))
    then Ret 0 (set_stdout (stdout s ++
                  concat (section_lines b (e_shoff (ehdr_at b)) (e_shnum (ehdr_at b)))) s)
    else Fault
  else Ret (-1) (set_stderr (stderr s ++ chars "not an elf file" ++ newline) s).
Proof.
  unfold Readelf.readelf. destruct (Readelf.is_elf_format b size); [|done]. cbn [negb].
  unfold section_lines. generalize (seqZ 0 (e_shnum (ehdr_at b))) as l. intros l. revert s.
  induction l as [|i l IH]; intros s; cbn [forM fmap list_fmap concat forallb].
  - unfold bind, ret. rewrite app_nil_r. by destruct s.
  - cbv zeta. destruct (_ <? _) eqn:E; cbn [negb andb]; [done|].
    rewrite bind_assoc, (bind_step (puts_out _) _ _ _ _ eq_refl), IH.
    destruct (forallb _ l); [|done]. cbn; by rewrite <- app_assoc.
Qed.
